(* ===== verification/_CoqProject ===== *)
-Q . S2P
Prelude.v
Memory.v
Machine.v
Riscv.v
KString.v
Kalloc.v
Vm.v
VmProps.v
VmUser.v
VmSpace.v
VmFree.v
VmSpec.v
Spinlock.v
Sleeplock.v
Bio.v
BioProps.v
BioSpec.v
BioSteps.v
Bytes.v
Log.v
LogProps.v
LogLoops.v
LogCrash.v
LogCommit.v
LogSpec.v
Wp.v
Txn.v
Kernel.v
Fs.v
FsSteps.v
FsAlloc.v
FsFile.v
FsBmap.v
FsInode.v
FsContent.v
FsWrite.v
FsTrunc.v
FsTable.v
FsDir.v
FsPath.v
FsSpec.v
Pipe.v
PipeSpec.v
Proc.v
Exec.v
Sys.v
Sched.v
User.v
Ulib.v
Uprintf.v
Grep.v
Sh.v
ShSpec.v
Umalloc.v
Ring.v
Uart.v
Console.v
ConsoleSpec.v
KPrintf.v
Virtio.v
VirtioSpec.v
VirtioInit.v
Asm.v
AsmSpec.v
Trap.v
TrapSpec.v
Start.v
Kvm.v
Boot.v
BootProps.v
BootSpec.v
Mkfs.v
MkfsProps.v
MkfsSpec.v
Uprogs.v
UprogsSpec.v
Grind.v
