(* ===== verification/Prelude.v ===== *)
(** * xv6 (RISC-V): a verification development of the kernel, its user library and programs

    The program is a small Unix: a kernel in C and assembly (src/kernel), the programs and
    the library that run on it (src/user), and the tool that makes the file-system image it
    boots from (src/mkfs).  This library translates that code into executable Rocq
    definitions, one definition per C function with its name, and proves what the code is
    meant to guarantee.

    ** How code becomes definitions

    - Integers are [Z] with the wrap-around of their C type written out ([u8] to [u64],
      [s16], [s32] in this file); bits are [Z.land], [Z.lor], [Z.testbit] and so on.
    - Physical memory is a map from addresses to bytes (Memory.v); page tables, the free
      list of the allocator and user memory live in it.
    - Kernel code runs in the monad [M S A] of Machine.v: it takes the CPU's context [ctx]
      (struct cpu, the interrupt-enable bit, the locks held, the current process) and a state
      [S], and ends with a value, a panic, asleep on a channel with a continuation that
      takes whatever state it is woken in, or, for the loops that wait on something, out of
      the fuel [c_fuel] of the context.  A lens ([zoom]) runs the code of a component inside
      a larger state: [pmem] (kalloc, vm) and [lstate] (bio, log) inside [kst] (the whole
      kernel, Kernel.v), [kst] inside the console's and the trap handler's state.
    - Code whose point is concurrency has a second model with explicit steps: CPUs on a
      spinlock (Spinlock.v), the scheduler on several CPUs (Sched.v), and the disk driver
      with its interrupt handler and its device (Virtio.v).
    - User programs are trees of system calls, [prog] of User.v, run against any kernel that
      answers them; mkfs has a result monad of its own (Mkfs.v).
    - What is not in the repository is an argument with named laws and a concrete instance:
      the linker's symbols ([KernelImage], [KernelSymbols]), the UART chip ([UartChip],
      [Uart16550]), the virtio device ([VirtioMmio], [VirtioBlk] and the device of
      VirtioSpec.v), the PLIC ([PlicDev]), address translation in hardware ([Mmu]), the
      device switch ([DevSw]), and, for user programs, the kernel ([kernel], [Stream], [Brk]).

    ** The files

    - Prelude, Memory, Machine, Bytes, Wp: integers and lists, memory, the kernel monad and
      its automation ([kstep], [krun], [zcase], [dlia]), structures inside blocks, total
      correctness.
    - Riscv, KString, Kalloc: riscv.h and memlayout.h, string.c, kalloc.c.
    - Vm, VmProps, VmUser, VmSpace, VmFree, VmSpec, Kvm: vm.c.  [Vm] has the operations;
      the abstract side is a tree of page-table pages ([ptree]) and the function [leaf] from
      addresses to entries.  [VmSpec] has the theorems: mapping, unmapping, growing,
      shrinking, copying and freeing an address space, copying in and out; [Kvm] the
      kernel's own address space.
    - Spinlock, Sleeplock: spinlock.c on several CPUs, sleeplock.c.
    - Bio, BioProps, BioSpec, BioSteps: bio.c, with the invariant [bcache_ok] of the list of
      buffers.
    - Log, LogProps, LogLoops, LogCrash, LogCommit, LogSpec, Txn: log.c.  A disk keeps the
      sequence of writes it got, so a crash is a prefix; the theorems are crash atomicity,
      recovery, admission to the log and its capacity.
    - Kernel, Fs, FsSteps, FsAlloc, FsFile, FsBmap, FsInode, FsContent, FsWrite, FsTrunc,
      FsTable, FsDir, FsPath, FsSpec: the kernel's state and fs.c.  Blocks are seen through
      the cache and the log ([kview]); on top of it are the bitmap as an allocator, files as
      functions from offsets to bytes, inodes in memory and on the disk, directories as
      lists of entries, paths as lists of elements.
    - Pipe, PipeSpec, Proc, Exec, Sys: pipe.c and file.c, proc.c, exec.c, syscall.c,
      sysproc.c and sysfile.c.  A pipe is a bounded queue.
    - Sched: scheduler(), sched(), sleep(), wakeup(), yield(), forkret() and the end of
      exit() on up to NCPU CPUs, a step per lock operation or write to a process; its
      invariant gives mutual exclusion, no panic and no lost wakeup.
    - Uart, Ring, Console, ConsoleSpec, KPrintf: uart.c, console.c, printf.c and procdump().
      The rings are queues with wrapping indices, the console is a line editor.
    - Virtio, VirtioSpec, VirtioInit: virtio_disk.c; threads, interrupts and the device
      interleave at every access the device can see, and together behave as a disk.
    - Asm, AsmSpec, Trap, TrapSpec, Start: entry.S, swtch.S, kernelvec.S, trampoline.S as
      instruction lists, trap.c, plic.c, start.c; a system call is followed from the user's
      ecall to the user's next instruction.
    - Boot, BootProps, BootSpec: main.c.  main() runs every initialisation of the other
      files on one state; the theorem follows it from zeroed data to the scheduler, with
      every page of memory accounted for and one process ready to run.
    - User, Ulib, Uprintf, Umalloc, Grep, Sh, ShSpec: the system-call interface, ulib.c,
      printf.c, umalloc.c, grep.c, sh.c.
    - Uprogs, UprogsSpec, Grind: the other programs; cat copies, wc counts, echo joins,
      prime() decides primality, grind's random numbers are Park and Miller's.
    - Mkfs, MkfsProps, MkfsSpec: mkfs.c, and its image read the way the kernel reads it.

    ** Bounds and fuel

    A loop whose bound is in its data recurs on that bound (NPROC, the bytes left, the
    blocks left), and the theorems state that it ends; the bounds are those of the source
    (param.h, fs.h).  Loops that wait for another thread or a device take fuel: in the
    kernel [c_fuel], which the theorems assume to be at least the number of turns they
    need ([tx_max] polls of the UART, one turn per wake-up), in user programs an argument
    that the theorems bound below by the length of the input or of the free list.  A call
    of the shell's parser has fuel for one level of nesting per character, which
    [parsecmd_total] shows to be enough.

    ** Not modelled

    - usertests.c: the repository's tests of the system calls.
    - ramdisk.c: not compiled; it refers to fields and macros that do not exist.
    - defs.h, kernel.ld, the Makefile and usys.pl: declarations and the build; initcode.S
      is present as the bytes of initcode in proc.c.
    - Memory ordering: __sync_synchronize() and sfence.vma have no effect in models whose
      memory is sequentially consistent and whose TLB is empty. *)
From stdpp Require Export base numbers list list_numbers gmap strings.
From Stdlib Require Export ZArith Lia.

#[global] Open Scope Z_scope.

(** Bit operations stay as they are written during simplification. *)
#[global] Arguments Z.land : simpl never.
#[global] Arguments Z.lor : simpl never.
#[global] Arguments Z.lnot : simpl never.
#[global] Arguments Z.testbit : simpl never.
#[global] Arguments Z.shiftl : simpl never.
#[global] Arguments Z.shiftr : simpl never.

(** ** Machine integers

    [uint], [uint64], [int], ... as [Z] with the wrap-around written out. *)

Definition u8 (x : Z) : Z := x mod 256.
Definition u16 (x : Z) : Z := x mod 65536.
Definition u32 (x : Z) : Z := x mod 4294967296.
Definition u64 (x : Z) : Z := x mod 18446744073709551616.
Definition s16 (x : Z) : Z := (x + 32768) mod 65536 - 32768.
Definition s32 (x : Z) : Z := (x + 2147483648) mod 4294967296 - 2147483648.

(** C truth values: an [int] used as a condition, and a condition used as an [int]. *)
Definition truth (x : Z) : bool := negb (x =? 0).
Definition int_of_bool (b : bool) : Z := if b then 1 else 0.

Lemma u8_range x : 0 <= u8 x < 256.
Proof. unfold u8. apply Z.mod_pos_bound. lia. Qed.

Lemma u16_range x : 0 <= u16 x < 65536.
Proof. unfold u16. apply Z.mod_pos_bound. lia. Qed.

Lemma u32_range x : 0 <= u32 x < 4294967296.
Proof. unfold u32. apply Z.mod_pos_bound. lia. Qed.

Lemma u64_range x : 0 <= u64 x < 18446744073709551616.
Proof. unfold u64. apply Z.mod_pos_bound. lia. Qed.

Lemma s32_range x : -2147483648 <= s32 x < 2147483648.
Proof. unfold s32. pose proof (Z.mod_pos_bound (x + 2147483648) 4294967296). lia. Qed.

Lemma u8_small x : 0 <= x < 256 -> u8 x = x.
Proof. intros. unfold u8. apply Z.mod_small. lia. Qed.

Lemma u16_small x : 0 <= x < 65536 -> u16 x = x.
Proof. intros. unfold u16. apply Z.mod_small. lia. Qed.

Lemma u32_small x : 0 <= x < 4294967296 -> u32 x = x.
Proof. intros. unfold u32. apply Z.mod_small. lia. Qed.

Lemma u64_small x : 0 <= x < 18446744073709551616 -> u64 x = x.
Proof. intros. unfold u64. apply Z.mod_small. lia. Qed.

Lemma s16_small x : -32768 <= x < 32768 -> s16 x = x.
Proof. intros. unfold s16. rewrite Z.mod_small by lia. lia. Qed.

Lemma s32_small x : -2147483648 <= x < 2147483648 -> s32 x = x.
Proof. intros. unfold s32. rewrite Z.mod_small by lia. lia. Qed.

Lemma u8_idem x : u8 (u8 x) = u8 x.
Proof. apply u8_small, u8_range. Qed.

Lemma u32_idem x : u32 (u32 x) = u32 x.
Proof. apply u32_small, u32_range. Qed.

Lemma s32_u32 x : s32 (u32 x) = s32 x.
Proof.
  unfold s32, u32. rewrite Zplus_mod_idemp_l. reflexivity.
Qed.

Lemma u32_s32 x : u32 (s32 x) = u32 x.
Proof.
  unfold s32, u32. rewrite Zminus_mod_idemp_l. f_equal. lia.
Qed.

(** The facts about widths that arithmetic side conditions need. *)
Create HintDb cint.
Create Rewrite HintDb cint.
Create Rewrite HintDb zlist.
#[export] Hint Rewrite u8_small u16_small u32_small u64_small s16_small s32_small
  using lia : cint.
#[export] Hint Resolve u8_range u16_range u32_range u64_range s32_range : cint.

(** ** Boolean tests: turning the source's conditions into propositions *)

(** [zbool] rewrites every comparison that occurs as a hypothesis into a proposition. *)
Ltac zbool :=
  repeat match goal with
  | H : (_ && _) = true |- _ => apply andb_true_iff in H; destruct H
  | H : (_ || _) = false |- _ => apply orb_false_iff in H; destruct H
  | H : negb _ = true |- _ => apply negb_true_iff in H
  | H : negb _ = false |- _ => apply negb_false_iff in H
  | H : (_ =? _) = true |- _ => apply Z.eqb_eq in H
  | H : (_ =? _) = false |- _ => apply Z.eqb_neq in H
  | H : (_ <? _) = true |- _ => apply Z.ltb_lt in H
  | H : (_ <? _) = false |- _ => apply Z.ltb_ge in H
  | H : (_ <=? _) = true |- _ => apply Z.leb_le in H
  | H : (_ <=? _) = false |- _ => apply Z.leb_gt in H
  end.

(** [zcase b] splits on a boolean test and reads it as a proposition. *)
Tactic Notation "zcase" constr(b) "as" ident(H) := destruct b eqn:H; zbool.
Tactic Notation "zcase" constr(b) := let H := fresh "E" in destruct b eqn:H; zbool.

(** Linear arithmetic with division and remainder by constants. *)
Ltac dlia := Z.div_mod_to_equations; lia.

(** ** Lists indexed by [Z], as the C arrays are *)

Definition znth {A} (d : A) (l : list A) (i : Z) : A :=
  if i <? 0 then d else nth (Z.to_nat i) l d.

Definition zupd {A} (l : list A) (i : Z) (x : A) : list A :=
  if i <? 0 then l else <[Z.to_nat i := x]> l.

Definition zlen {A} (l : list A) : Z := Z.of_nat (length l).

Lemma znth_lookup {A} (d : A) l i x :
  0 <= i -> l !! Z.to_nat i = Some x -> znth d l i = x.
Proof.
  intros Hi Hx. unfold znth. zcase (i <? 0); [lia|].
  by apply nth_lookup_Some.
Qed.

Lemma zlen_zupd {A} (l : list A) i x : zlen (zupd l i x) = zlen l.
Proof. unfold zlen, zupd. destruct (i <? 0); [done|]. by rewrite length_insert. Qed.

Lemma length_zupd {A} (l : list A) i x : length (zupd l i x) = length l.
Proof. unfold zupd. destruct (i <? 0); [done|]. by rewrite length_insert. Qed.

Lemma znth_zupd_eq {A} (d : A) l i x :
  0 <= i < zlen l -> znth d (zupd l i x) i = x.
Proof.
  unfold zlen. intros Hi. apply znth_lookup; [lia|].
  unfold zupd. zcase (i <? 0); [lia|].
  apply list_lookup_insert_eq. lia.
Qed.

Lemma znth_zupd_ne {A} (d : A) l i j x :
  i <> j -> znth d (zupd l i x) j = znth d l j.
Proof.
  intros Hij. unfold znth, zupd. zcase (j <? 0); [done|]. zcase (i <? 0); [done|].
  rewrite !nth_lookup, list_lookup_insert_ne; [done|lia].
Qed.

Lemma znth_zupd {A} (d : A) l i j x :
  0 <= i < zlen l ->
  znth d (zupd l i x) j = if i =? j then x else znth d l j.
Proof.
  intros Hi. zcase (i =? j) as E.
  - subst. by apply znth_zupd_eq.
  - by apply znth_zupd_ne.
Qed.

Lemma znth_replicate {A} (d x : A) n i :
  0 <= i < Z.of_nat n -> znth d (replicate n x) i = x.
Proof.
  intros Hi. apply znth_lookup; [lia|]. apply lookup_replicate_2. lia.
Qed.

Lemma znth_overflow {A} (d : A) l i : zlen l <= i -> znth d l i = d.
Proof.
  unfold zlen, znth. intros Hi. zcase (i <? 0); [done|].
  apply nth_overflow. lia.
Qed.

Lemma znth_neg {A} (d : A) l i : i < 0 -> znth d l i = d.
Proof. unfold znth. intros. zcase (i <? 0); [done|lia]. Qed.

Lemma znth_app_l {A} (d : A) l k i : i < zlen l -> znth d (l ++ k) i = znth d l i.
Proof.
  unfold zlen, znth. intros. zcase (i <? 0); [done|]. rewrite app_nth1; [done|lia].
Qed.

Lemma znth_app_r {A} (d : A) l k i :
  zlen l <= i -> znth d (l ++ k) i = znth d k (i - zlen l).
Proof.
  unfold zlen, znth. intros. zcase (i <? 0); [lia|]. zcase (i - Z.of_nat (length l) <? 0); [lia|].
  rewrite app_nth2 by lia. f_equal. lia.
Qed.

Lemma znth_cons_0 {A} (d x : A) l : znth d (x :: l) 0 = x.
Proof. reflexivity. Qed.

Lemma znth_cons_S {A} (d x : A) l i :
  0 < i -> znth d (x :: l) i = znth d l (i - 1).
Proof.
  intros. change (x :: l) with ([x] ++ l). rewrite znth_app_r; [done|]. unfold zlen. simpl. lia.
Qed.

Lemma zlist_eq {A} (d : A) (l k : list A) :
  length l = length k -> (forall i, 0 <= i < zlen l -> znth d l i = znth d k i) -> l = k.
Proof.
  intros Hlen H. apply (nth_ext _ _ d d); [done|].
  intros n Hn. specialize (H (Z.of_nat n)). unfold zlen, znth in H.
  zcase (Z.of_nat n <? 0) as E; [lia|]. rewrite Nat2Z.id in H. apply H. lia.
Qed.

Lemma zlen_nonneg {A} (l : list A) : 0 <= zlen l.
Proof. unfold zlen. lia. Qed.

#[export] Hint Resolve zlen_nonneg : cint.
#[export] Hint Rewrite @zlen_zupd @length_zupd @length_app @length_replicate : zlist.

(** ** Little-endian encodings *)

Fixpoint le_bytes (n : nat) (v : Z) : list Z :=
  match n with
  | O => []
  | S n' => u8 v :: le_bytes n' (v / 256)
  end.

Fixpoint le_val (l : list Z) : Z :=
  match l with
  | [] => 0
  | b :: l' => b + 256 * le_val l'
  end.

Definition is_byte (b : Z) : Prop := 0 <= b < 256.

Lemma length_le_bytes n v : length (le_bytes n v) = n.
Proof. revert v. induction n; intros; simpl; auto. Qed.

Lemma le_bytes_are_bytes n v : Forall is_byte (le_bytes n v).
Proof.
  revert v. induction n; intros; simpl; constructor; auto. apply u8_range.
Qed.

Lemma le_val_range l :
  Forall is_byte l -> 0 <= le_val l < 256 ^ Z.of_nat (length l).
Proof.
  induction 1 as [|b l Hb _ IH]; simpl le_val; simpl length; [simpl; lia|].
  rewrite Nat2Z.inj_succ, Z.pow_succ_r by lia. unfold is_byte in Hb. lia.
Qed.

Lemma le_val_bytes n v : le_val (le_bytes n v) = v mod 256 ^ Z.of_nat n.
Proof.
  revert v. induction n as [|n IH]; intros v.
  - simpl. rewrite Z.mod_1_r. done.
  - simpl le_bytes. simpl le_val. rewrite IH, Nat2Z.inj_succ, Z.pow_succ_r by lia.
    unfold u8. rewrite Z.rem_mul_r by lia. done.
Qed.

Lemma le_val_bytes_small n v :
  0 <= v < 256 ^ Z.of_nat n -> le_val (le_bytes n v) = v.
Proof. intros. rewrite le_val_bytes. by apply Z.mod_small. Qed.

Lemma le_bytes_val l : Forall is_byte l -> le_bytes (length l) (le_val l) = l.
Proof.
  induction 1 as [|b l Hb _ IH]; [done|]. simpl. unfold is_byte in Hb.
  f_equal.
  - unfold u8. rewrite Z.mul_comm, Z.mod_add by lia. apply Z.mod_small. lia.
  - rewrite Z.mul_comm, Z.div_add, Z.div_small by lia. done.
Qed.

Lemma le_val_zeros n : le_val (replicate n 0) = 0.
Proof. induction n; simpl; lia. Qed.
