(* ===== verification/Memory.v ===== *)
(** * Flat byte memory

    The memory the kernel addresses through pointers: a finite map from kernel
    virtual addresses (the kernel maps RAM at its physical address) to bytes.
    Loads and stores of 16, 32 and 64-bit integers are little-endian, as on RISC-V.
    An address that was never written reads as zero. *)
From S2P Require Import Prelude.

Abbreviation mem := (gmap Z Z).

Definition rd (m : mem) (a : Z) : Z := default 0 (m !! a).

Definition wr (m : mem) (a v : Z) : mem := <[a := u8 v]> m.

Fixpoint rd_list (m : mem) (a : Z) (n : nat) : list Z :=
  match n with
  | O => []
  | S n' => rd m a :: rd_list m (a + 1) n'
  end.

Fixpoint wr_list (m : mem) (a : Z) (l : list Z) : mem :=
  match l with
  | [] => m
  | b :: l' => wr_list (wr m a b) (a + 1) l'
  end.

Definition load (n : nat) (m : mem) (a : Z) : Z := le_val (rd_list m a n).

Definition store (n : nat) (m : mem) (a v : Z) : mem := wr_list m a (le_bytes n v).

Abbreviation load16 := (load 2).
Abbreviation load32 := (load 4).
Abbreviation load64 := (load 8).
Abbreviation store16 := (store 2).
Abbreviation store32 := (store 4).
Abbreviation store64 := (store 8).

#[global] Arguments load : simpl never.
#[global] Arguments store : simpl never.

(** Every stored value is a byte. *)
Definition mem_ok (m : mem) : Prop := forall a, is_byte (rd m a).

(** Two memories that agree on a set of addresses. *)
Definition agree_on (P : Z -> Prop) (m1 m2 : mem) : Prop :=
  forall a, P a -> rd m1 a = rd m2 a.

(** The addresses of an object of [n] bytes at [a]. *)
Definition within (a n x : Z) : Prop := a <= x < a + n.

#[export] Instance agree_on_equiv P : Equivalence (agree_on P).
Proof.
  split.
  - by intros m a _.
  - intros m1 m2 H a Ha. by rewrite H.
  - intros m1 m2 m3 H1 H2 a Ha. by rewrite H1, H2.
Qed.

Lemma agree_on_mono (P Q : Z -> Prop) m1 m2 :
  (forall a, Q a -> P a) -> agree_on P m1 m2 -> agree_on Q m1 m2.
Proof. intros HPQ H a Ha. auto. Qed.

(** ** Single bytes *)

Lemma rd_wr m a v x : rd (wr m a v) x = if a =? x then u8 v else rd m x.
Proof.
  unfold rd, wr. rewrite lookup_insert. zcase (a =? x).
  - subst. by rewrite decide_True.
  - by rewrite decide_False.
Qed.

Lemma rd_empty a : rd ∅ a = 0.
Proof. unfold rd. by rewrite lookup_empty. Qed.

Lemma mem_ok_empty : mem_ok ∅.
Proof. intros a. rewrite rd_empty. unfold is_byte. lia. Qed.

Lemma mem_ok_wr m a v : mem_ok m -> mem_ok (wr m a v).
Proof.
  intros H x. rewrite rd_wr. destruct (a =? x); [apply u8_range|apply H].
Qed.

Lemma mem_ok_wr_list m a l : mem_ok m -> mem_ok (wr_list m a l).
Proof.
  revert m a. induction l; intros m a0 H; simpl; auto using mem_ok_wr.
Qed.

Lemma mem_ok_store n m a v : mem_ok m -> mem_ok (store n m a v).
Proof. apply mem_ok_wr_list. Qed.

Create HintDb mem discriminated.
#[export] Hint Constants Opaque : mem.
#[export] Hint Resolve mem_ok_empty mem_ok_wr mem_ok_wr_list mem_ok_store : mem.

(** ** Byte sequences *)

Lemma length_rd_list m a n : length (rd_list m a n) = n.
Proof. revert a. induction n; intros; simpl; auto. Qed.

Lemma zlen_rd_list m a n : zlen (rd_list m a n) = Z.of_nat n.
Proof. unfold zlen. by rewrite length_rd_list. Qed.

Lemma znth_rd_list m a n i :
  0 <= i < Z.of_nat n -> znth 0 (rd_list m a n) i = rd m (a + i).
Proof.
  revert a i. induction n as [|n IH]; intros a i Hi; [lia|].
  simpl rd_list. destruct (decide (i = 0)) as [->|].
  - rewrite znth_cons_0. f_equal. lia.
  - rewrite znth_cons_S, IH by lia. f_equal. lia.
Qed.

Lemma rd_wr_list m a l x :
  rd (wr_list m a l) x =
  if (a <=? x) && (x <? a + zlen l) then u8 (znth 0 l (x - a)) else rd m x.
Proof.
  revert m a. induction l as [|b l IH]; intros m a; simpl wr_list.
  - change (zlen (@nil Z)) with 0. zcase (a <=? x); zcase (x <? a + 0); simpl; done || lia.
  - rewrite IH, rd_wr. unfold zlen. simpl length.
    zcase (a + 1 <=? x); zcase (x <? a + 1 + Z.of_nat (length l));
      zcase (a <=? x); zcase (x <? a + Z.of_nat (S (length l)));
      zcase (a =? x); simpl; try lia; try done.
    + rewrite znth_cons_S by lia. do 2 f_equal. lia.
    + replace (x - a) with 0 by lia. by rewrite znth_cons_0.
Qed.

Lemma rd_wr_list_in m a l x :
  within a (zlen l) x -> rd (wr_list m a l) x = u8 (znth 0 l (x - a)).
Proof.
  unfold within. intros. rewrite rd_wr_list.
  zcase (a <=? x); zcase (x <? a + zlen l); simpl; done || lia.
Qed.

Lemma rd_wr_list_out m a l x :
  ~ within a (zlen l) x -> rd (wr_list m a l) x = rd m x.
Proof.
  unfold within. intros. rewrite rd_wr_list.
  zcase (a <=? x); zcase (x <? a + zlen l); simpl; done || lia.
Qed.

Lemma rd_list_agree m1 m2 a n :
  agree_on (within a (Z.of_nat n)) m1 m2 -> rd_list m1 a n = rd_list m2 a n.
Proof.
  revert a. induction n as [|n IH]; intros a H; [done|]. simpl. f_equal.
  - apply H. unfold within. lia.
  - apply IH. intros x Hx. apply H. unfold within in *. lia.
Qed.

Lemma rd_list_bytes m a n : mem_ok m -> Forall is_byte (rd_list m a n).
Proof. intros H. revert a. induction n; intros; simpl; constructor; auto. Qed.

Lemma rd_list_app m a n k :
  rd_list m a (n + k) = rd_list m a n ++ rd_list m (a + Z.of_nat n) k.
Proof.
  revert a. induction n as [|n IH]; intros a.
  - simpl. f_equal. lia.
  - simpl. rewrite IH. do 3 f_equal. lia.
Qed.

Lemma znth_bytes l i : Forall is_byte l -> is_byte (znth 0 l i).
Proof.
  intros H. unfold znth. destruct (i <? 0); [unfold is_byte; lia|].
  destruct (nth_in_or_default (Z.to_nat i) l 0) as [Hin| ->]; [|unfold is_byte; lia].
  rewrite Forall_forall in H. apply H. by apply list_elem_of_In.
Qed.

Lemma rd_list_wr_list m a l :
  Forall is_byte l -> rd_list (wr_list m a l) a (length l) = l.
Proof.
  intros Hl. apply (zlist_eq 0); [by rewrite length_rd_list|].
  intros i. rewrite zlen_rd_list. intros Hi.
  rewrite znth_rd_list, rd_wr_list_in by (unfold within, zlen; lia).
  rewrite u8_small; [f_equal; lia|]. by apply znth_bytes.
Qed.

(** ** Loads and stores *)

Lemma load_agree n m1 m2 a :
  agree_on (within a (Z.of_nat n)) m1 m2 -> load n m1 a = load n m2 a.
Proof. intros. unfold load. f_equal. by apply rd_list_agree. Qed.

Lemma load_store_eq n m a v : load n (store n m a v) a = v mod 256 ^ Z.of_nat n.
Proof.
  pose proof (rd_list_wr_list m a (le_bytes n v) (le_bytes_are_bytes n v)) as H.
  rewrite length_le_bytes in H. unfold load, store. rewrite H. apply le_val_bytes.
Qed.

Lemma rd_store_out n m a v x :
  ~ within a (Z.of_nat n) x -> rd (store n m a v) x = rd m x.
Proof.
  intros. apply rd_wr_list_out. unfold zlen. by rewrite length_le_bytes.
Qed.

Lemma load_store_ne k n m a b v :
  (a + Z.of_nat n <= b \/ b + Z.of_nat k <= a) ->
  load k (store n m a v) b = load k m b.
Proof.
  intros H. apply load_agree. intros x Hx. apply rd_store_out.
  unfold within in *. lia.
Qed.

Lemma load_range n m a : mem_ok m -> 0 <= load n m a < 256 ^ Z.of_nat n.
Proof.
  intros H. pose proof (le_val_range (rd_list m a n) (rd_list_bytes m a n H)) as Hr.
  by rewrite length_rd_list in Hr.
Qed.

Lemma load64_store64 m a v :
  0 <= v < 18446744073709551616 -> load64 (store64 m a v) a = v.
Proof. intros. rewrite load_store_eq. apply Z.mod_small. simpl. lia. Qed.

Lemma load64_range m a : mem_ok m -> 0 <= load64 m a < 18446744073709551616.
Proof. intros H. apply (load_range 8 m a H). Qed.

Lemma load_zeros n m a :
  (forall x, within a (Z.of_nat n) x -> rd m x = 0) -> load n m a = 0.
Proof.
  intros H. unfold load. replace (rd_list m a n) with (replicate n 0).
  - apply le_val_zeros.
  - revert a H. induction n as [|n IH]; intros a H; [done|]. simpl. f_equal.
    + symmetry. apply H. unfold within. lia.
    + apply IH. intros x Hx. apply H. unfold within in *. lia.
Qed.

#[global] Opaque load store.
