(* ===== verification/Machine.v ===== *)
(** * Kernel threads: the effects of kernel code

    Kernel code is modelled in a state monad [M S A] over the state [S] of the
    component it belongs to.  Besides [S], a computation threads the context of the
    kernel thread that runs it: the interrupt-enable state and the nesting of
    [push_off] (kernel/spinlock.c, kernel/riscv.h), the spinlocks the thread holds,
    its pid, its kernel stack pointer and the channels it has called [wakeup] on.

    A computation ends in one of four ways: it returns ([Done]); it panics with
    kernel/printf.c's message ([Panic]); it gives up the CPU in [sleep] ([Sleep],
    with the rest of the computation as a function of the state the thread finds
    when it is scheduled again); or a loop without a bound of its own exceeded the
    bound of the context ([Diverge]). *)
From S2P Require Import Prelude.

(** The kernel's spinlocks. *)
Inductive lockid :=
| LKmem | LBcache | LLog | LItable | LFtable | LWait | LPid | LTicks
| LCons | LUart | LPr | LVdisk
| LPipe (pi : Z)
| LProc (p : Z)
| LBufSleep (b : Z)
| LInodeSleep (i : Z).

(** The channels kernel threads sleep on: addresses of kernel objects. *)
Inductive chan :=
| ChBuf (b : Z)          (* &bcache.buf[b].lock *)
| ChInode (i : Z)        (* &itable.inode[i].lock *)
| ChLog                  (* &log *)
| ChPipeRead (pi : Z)    (* &pi->nread *)
| ChPipeWrite (pi : Z)   (* &pi->nwrite *)
| ChProc (p : Z)         (* a struct proc, in wait() *)
| ChTicks                (* &ticks *)
| ChCons                 (* &cons.r *)
| ChUart                 (* &uart_tx_r *)
| ChDisk (b : Z)         (* the buf a disk request is for *)
| ChDiskFree             (* &disk.free[0] *)
| ChSched.               (* none: the CPU was given up in yield() or exit() *)

#[export] Instance lockid_eq_dec : EqDecision lockid.
Proof. solve_decision. Defined.

#[export] Instance chan_eq_dec : EqDecision chan.
Proof. solve_decision. Defined.

(** The context of a kernel thread. [c_noff] and [c_intena] are the fields of the
    [struct cpu] the thread runs on (kernel/proc.h); [sched] makes [intena] follow
    the thread. [c_fuel] bounds the number of times a sleeping loop is woken. *)
Record ctx := Ctx {
  c_sstatus : Z;
  c_noff : Z;
  c_intena : bool;
  c_held : list lockid;
  c_proc : Z;
  c_pid : Z;
  c_sp : Z;
  c_fuel : nat;
  c_wakes : list chan;
}.

Definition set_sstatus (x : Z) (c : ctx) : ctx :=
  Ctx x (c_noff c) (c_intena c) (c_held c) (c_proc c) (c_pid c) (c_sp c) (c_fuel c) (c_wakes c).
Definition set_noff (x : Z) (c : ctx) : ctx :=
  Ctx (c_sstatus c) x (c_intena c) (c_held c) (c_proc c) (c_pid c) (c_sp c) (c_fuel c) (c_wakes c).
Definition set_intena (x : bool) (c : ctx) : ctx :=
  Ctx (c_sstatus c) (c_noff c) x (c_held c) (c_proc c) (c_pid c) (c_sp c) (c_fuel c) (c_wakes c).
Definition set_held (x : list lockid) (c : ctx) : ctx :=
  Ctx (c_sstatus c) (c_noff c) (c_intena c) x (c_proc c) (c_pid c) (c_sp c) (c_fuel c) (c_wakes c).
Definition set_sp (x : Z) (c : ctx) : ctx :=
  Ctx (c_sstatus c) (c_noff c) (c_intena c) (c_held c) (c_proc c) (c_pid c) x (c_fuel c) (c_wakes c).
Definition set_wakes (x : list chan) (c : ctx) : ctx :=
  Ctx (c_sstatus c) (c_noff c) (c_intena c) (c_held c) (c_proc c) (c_pid c) (c_sp c) (c_fuel c) x.

(** ** Outcomes and the monad *)

Inductive outcome (S A : Type) :=
| Done (a : A) (c : ctx) (s : S)
| Panic (msg : string)
| Sleep (ch : chan) (c : ctx) (s : S) (k : S -> outcome S A)
| Diverge.
Arguments Done {S A} a c s.
Arguments Panic {S A} msg.
Arguments Sleep {S A} ch c s k.
Arguments Diverge {S A}.

Definition M (S A : Type) : Type := ctx -> S -> outcome S A.

Fixpoint obind {S A B} (o : outcome S A) (f : A -> M S B) : outcome S B :=
  match o with
  | Done a c s => f a c s
  | Panic msg => Panic msg
  | Sleep ch c s k => Sleep ch c s (fun s' => obind (k s') f)
  | Diverge => Diverge
  end.

Definition ret {S A} (a : A) : M S A := fun c s => Done a c s.
Definition bind {S A B} (m : M S A) (f : A -> M S B) : M S B := fun c s => obind (m c s) f.

Declare Scope k_scope.
Delimit Scope k_scope with k.
Bind Scope k_scope with M.
Notation "x <- m ;; k" := (bind m (fun x => k))
  (at level 100, m at next level, right associativity) : k_scope.
Notation "m ;; k" := (bind m (fun _ => k))
  (at level 100, k at level 200, right associativity) : k_scope.
#[global] Open Scope k_scope.

Definition panic {S A} (msg : string) : M S A := fun _ _ => Panic msg.
Definition get {S} : M S S := fun c s => Done s c s.
Definition gets {S A} (f : S -> A) : M S A := fun c s => Done (f s) c s.
Definition put {S} (s : S) : M S unit := fun c _ => Done tt c s.
Definition modify {S} (f : S -> S) : M S unit := fun c s => Done tt c (f s).
Definition asks {S A} (f : ctx -> A) : M S A := fun c s => Done (f c) c s.
Definition modify_ctx {S} (f : ctx -> ctx) : M S unit := fun c s => Done tt (f c) s.
Definition when {S} (b : bool) (m : M S unit) : M S unit := if b then m else ret tt.

(** A call of an inner component: its state is a part of the outer state. *)
Record lens (S T : Type) := Lens { view : S -> T; update : T -> S -> S }.
Arguments Lens {S T} view update.
Arguments view {S T} l s.
Arguments update {S T} l t s.

Fixpoint zoom_outcome {S T A} (l : lens S T) (s : S) (o : outcome T A) : outcome S A :=
  match o with
  | Done a c t => Done a c (update l t s)
  | Panic msg => Panic msg
  | Sleep ch c t k =>
      Sleep ch c (update l t s) (fun s' => zoom_outcome l s' (k (view l s')))
  | Diverge => Diverge
  end.

Definition zoom {S T A} (l : lens S T) (m : M T A) : M S A :=
  fun c s => zoom_outcome l s (m c (view l s)).

(** Automatic storage: [with_local n f] runs [f] with the address of an [n]-byte
    object in the frame of the thread's kernel stack. *)
Definition with_local {S A} (n : Z) (f : Z -> M S A) : M S A :=
  sp <- asks c_sp ;;
  modify_ctx (set_sp (sp - n)) ;;
  a <- f (sp - n) ;;
  modify_ctx (set_sp sp) ;;
  ret a.

(** ** Interrupts (kernel/riscv.h) *)

Definition SSTATUS_SPP : Z := Z.shiftl 1 8.
Definition SSTATUS_SPIE : Z := Z.shiftl 1 5.
Definition SSTATUS_SIE : Z := Z.shiftl 1 1.

#[global] Arguments SSTATUS_SIE : simpl never.

Definition r_sstatus {S} : M S Z := asks c_sstatus.
Definition w_sstatus {S} (x : Z) : M S unit := modify_ctx (set_sstatus x).

Definition intr_on {S} : M S unit :=
  x <- r_sstatus ;; w_sstatus (Z.lor x SSTATUS_SIE).

Definition intr_off {S} : M S unit :=
  x <- r_sstatus ;; w_sstatus (Z.land x (Z.lnot SSTATUS_SIE)).

Definition intr_get {S} : M S bool :=
  x <- r_sstatus ;; ret (truth (Z.land x SSTATUS_SIE)).

(** ** Spinlocks as one thread sees them (kernel/spinlock.c)

    The thread's own view: a lock is held by it or not.  [Spinlock] models the
    [struct spinlock] itself, with every CPU, and relates the two. *)

Definition push_off {S} : M S unit :=
  old <- intr_get ;;
  intr_off ;;
  noff <- asks c_noff ;;
  when (noff =? 0) (modify_ctx (set_intena old)) ;;
  noff <- asks c_noff ;;
  modify_ctx (set_noff (noff + 1)).

Definition pop_off {S} : M S unit :=
  i <- intr_get ;;
  if (i : bool) then panic "pop_off - interruptible" else
  noff <- asks c_noff ;;
  if noff <? 1 then panic "pop_off" else
  modify_ctx (set_noff (noff - 1)) ;;
  intena <- asks c_intena ;;
  when ((noff - 1 =? 0) && intena) intr_on.

Definition holding {S} (lk : lockid) : M S bool :=
  asks (fun c => bool_decide (lk ∈ c_held c)).

Definition remove_lock (lk : lockid) (l : list lockid) : list lockid :=
  filter (fun x => x ≠ lk) l.

(** [initlock] leaves the lock free. *)
Definition initlock {S} (lk : lockid) : M S unit :=
  modify_ctx (fun c => set_held (remove_lock lk (c_held c)) c).

Definition acquire {S} (lk : lockid) : M S unit :=
  push_off ;;
  h <- holding lk ;;
  if (h : bool) then panic "acquire" else
  held <- asks c_held ;;
  modify_ctx (set_held (lk :: held)).

Definition release {S} (lk : lockid) : M S unit :=
  h <- holding lk ;;
  if negb h then panic "release" else
  held <- asks c_held ;;
  modify_ctx (set_held (remove_lock lk held)) ;;
  pop_off.

(** ** Giving up the CPU, as one thread sees it (kernel/proc.c)

    [sleep] and [sched] with the process table left to [Proc]: the channel of the
    [Sleep] outcome is what [sleep] writes to [p->chan] before it calls [sched]. *)

Definition sched_sleep {S} (ch : chan) : M S unit :=
  p <- asks c_proc ;;
  h <- holding (LProc p) ;;
  if negb h then panic "sched p->lock" else
  noff <- asks c_noff ;;
  if negb (noff =? 1) then panic "sched locks" else
  i <- intr_get ;;
  if (i : bool) then panic "sched interruptible" else
  (fun c s => Sleep ch c s (fun s' => Done tt c s')).

Definition sleep {S} (ch : chan) (lk : lockid) : M S unit :=
  p <- asks c_proc ;;
  acquire (LProc p) ;;
  release lk ;;
  sched_sleep ch ;;
  release (LProc p) ;;
  acquire lk.

Definition wakeup {S} (ch : chan) : M S unit :=
  modify_ctx (fun c => set_wakes (c_wakes c ++ [ch]) c).

(** [while(cond) sleep(ch, lk)]: at most [c_fuel] wake-ups. *)
Fixpoint sleep_while_fuel {S} (n : nat) (cond : S -> bool) (ch : chan) (lk : lockid) : M S unit :=
  b <- gets cond ;;
  if (b : bool) then
    match n with
    | O => fun _ _ => Diverge
    | Datatypes.S n' => sleep ch lk ;; sleep_while_fuel n' cond ch lk
    end
  else ret tt.

Definition sleep_while {S} (cond : S -> bool) (ch : chan) (lk : lockid) : M S unit :=
  n <- asks c_fuel ;; sleep_while_fuel n cond ch lk.

(** ** Running computations *)

Lemma bind_done {S A B} (m : M S A) (f : A -> M S B) c s a c' s' :
  m c s = Done a c' s' -> bind m f c s = f a c' s'.
Proof. intros H. unfold bind. by rewrite H. Qed.

Lemma bind_panic {S A B} (m : M S A) (f : A -> M S B) c s msg :
  m c s = Panic msg -> bind m f c s = Panic msg.
Proof. intros H. unfold bind. by rewrite H. Qed.

Lemma bind_ret_l {S A B} (a : A) (f : A -> M S B) c s : bind (ret a) f c s = f a c s.
Proof. done. Qed.
Lemma bind_asks {S A B} (g : ctx -> A) (f : A -> M S B) c s : bind (asks g) f c s = f (g c) c s.
Proof. done. Qed.
Lemma bind_gets {S A B} (g : S -> A) (f : A -> M S B) c s : bind (gets g) f c s = f (g s) c s.
Proof. done. Qed.
Lemma bind_get {S B} (f : S -> M S B) c s : bind get f c s = f s c s.
Proof. done. Qed.
Lemma bind_put {S B} (s' : S) (f : unit -> M S B) c s : bind (put s') f c s = f tt c s'.
Proof. done. Qed.
Lemma bind_modify {S B} (g : S -> S) (f : unit -> M S B) c s :
  bind (modify g) f c s = f tt c (g s).
Proof. done. Qed.
Lemma bind_modify_ctx {S B} (g : ctx -> ctx) (f : unit -> M S B) c s :
  bind (modify_ctx g) f c s = f tt (g c) s.
Proof. done. Qed.
Lemma bind_when_true {S B} (m : M S unit) (f : unit -> M S B) c s :
  bind (when true m) f c s = bind m f c s.
Proof. done. Qed.
Lemma bind_when_false {S B} (m : M S unit) (f : unit -> M S B) c s :
  bind (when false m) f c s = f tt c s.
Proof. done. Qed.
Lemma bind_panic_l {S A B} msg (f : A -> M S B) c s : bind (panic msg) f c s = Panic msg.
Proof. done. Qed.
Lemma bind_assoc {S A B C} (m : M S A) (f : A -> M S B) (g : B -> M S C) c s a c' s' :
  m c s = Done a c' s' ->
  bind (bind m f) g c s = bind (f a) g c' s'.
Proof. intros H. unfold bind. by rewrite H. Qed.

Create Rewrite HintDb kmonad.
#[export] Hint Rewrite @bind_ret_l @bind_asks @bind_gets @bind_get @bind_put @bind_modify
  @bind_modify_ctx @bind_when_true @bind_when_false @bind_panic_l : kmonad.

(** [krun] performs the administrative steps at the front of a computation. *)
Ltac krun := repeat first
  [ rewrite bind_ret_l | rewrite bind_asks | rewrite bind_gets | rewrite bind_get
  | rewrite bind_put | rewrite bind_modify | rewrite bind_modify_ctx
  | rewrite bind_when_true | rewrite bind_when_false | rewrite bind_panic_l ].

Lemma bind_done_inv {S A B} (m : M S A) (f : A -> M S B) c s b c' s' :
  bind m f c s = Done b c' s' ->
  exists a c1 s1, m c s = Done a c1 s1 /\ f a c1 s1 = Done b c' s'.
Proof.
  unfold bind. destruct (m c s) as [a c1 s1| | |]; simpl; intros H; try done.
  eauto.
Qed.

Lemma zoom_done {S T A} (l : lens S T) (m : M T A) c s a c' t :
  m c (view l s) = Done a c' t -> zoom l m c s = Done a c' (update l t s).
Proof. intros H. unfold zoom. by rewrite H. Qed.

Lemma zoom_done_inv {S T A} (l : lens S T) (m : M T A) c s a c' s' :
  zoom l m c s = Done a c' s' ->
  exists t, m c (view l s) = Done a c' t /\ s' = update l t s.
Proof.
  unfold zoom. destruct (m c (view l s)) as [a1 c1 t1| | |]; simpl; intros H; try done.
  injection H as <- <- <-. eauto.
Qed.

(** [kstep H] runs the first computation of a sequence with the equation [H]. *)
Tactic Notation "kstep" uconstr(H) := erewrite bind_done; [|eapply H].

(** [kinv H as a c s H1 H2]: inversion of a sequence that returned. *)
Tactic Notation "kinv" hyp(H) "as" ident(a) ident(c1) ident(s1) ident(H1) :=
  apply bind_done_inv in H; destruct H as (a & c1 & s1 & H1 & H).

(** ** Interrupt state across a critical section *)

Definition sie (c : ctx) : bool := truth (Z.land (c_sstatus c) SSTATUS_SIE).

(** Interrupts are off whenever [noff] is positive. *)
Definition ctx_ok (c : ctx) : Prop :=
  0 <= c_noff c /\ (0 < c_noff c -> sie c = false).

(** [push_off] as a function on contexts, and the context after a matched
    [push_off]/[pop_off]: the same, but for [intena] when [noff] was zero. *)
Definition pushed (c : ctx) : ctx :=
  Ctx (Z.land (c_sstatus c) (Z.lnot SSTATUS_SIE)) (c_noff c + 1)
    (if c_noff c =? 0 then sie c else c_intena c)
    (c_held c) (c_proc c) (c_pid c) (c_sp c) (c_fuel c) (c_wakes c).

Definition settle (c : ctx) : ctx :=
  if c_noff c =? 0 then set_intena (sie c) c else c.

(** The context inside a critical section of [lk]. *)
Definition enter (lk : lockid) (c : ctx) : ctx := set_held (lk :: c_held c) (pushed c).

Lemma land_SIE x : Z.land x SSTATUS_SIE = if Z.testbit x 1 then SSTATUS_SIE else 0.
Proof.
  unfold SSTATUS_SIE. apply Z.bits_inj'. intros n Hn.
  rewrite Z.land_spec, Z.shiftl_spec by lia.
  destruct (decide (n = 1)) as [->|Hne].
  - change (Z.testbit 1 (1 - 1)) with true. by destruct (Z.testbit x 1).
  - replace (Z.testbit 1 (n - 1)) with false.
    + rewrite andb_false_r. destruct (Z.testbit x 1); [|by rewrite Z.testbit_0_l].
      change (Z.shiftl 1 1) with (2 ^ 1). by rewrite Z.pow2_bits_false.
    + symmetry. change 1 with (2 ^ 0) at 1. apply Z.pow2_bits_false. lia.
Qed.

Lemma sie_testbit c : sie c = Z.testbit (c_sstatus c) 1.
Proof. unfold sie. rewrite land_SIE. by destruct (Z.testbit _ _). Qed.

Lemma testbit_clear_SIE x n : 0 <= n ->
  Z.testbit (Z.land x (Z.lnot SSTATUS_SIE)) n = (negb (n =? 1) && Z.testbit x n)%bool.
Proof.
  intros Hn. rewrite Z.land_spec, Z.lnot_spec by lia.
  change SSTATUS_SIE with (2 ^ 1). rewrite Z.pow2_bits_eqb by lia.
  rewrite (Z.eqb_sym 1 n). apply andb_comm.
Qed.

Lemma clear_SIE_noop x : Z.testbit x 1 = false -> Z.land x (Z.lnot SSTATUS_SIE) = x.
Proof.
  intros H. apply Z.bits_inj'. intros n Hn. rewrite testbit_clear_SIE by lia.
  zcase (n =? 1); simpl; congruence.
Qed.

Lemma clear_set_SIE x :
  Z.testbit x 1 = true ->
  Z.lor (Z.land x (Z.lnot SSTATUS_SIE)) SSTATUS_SIE = x.
Proof.
  intros H. apply Z.bits_inj'. intros n Hn.
  rewrite Z.lor_spec, testbit_clear_SIE by lia.
  change SSTATUS_SIE with (2 ^ 1). rewrite Z.pow2_bits_eqb, (Z.eqb_sym 1 n) by lia.
  zcase (n =? 1); simpl; [congruence|]. by rewrite orb_false_r.
Qed.

Lemma sie_pushed c : sie (pushed c) = false.
Proof. rewrite sie_testbit. unfold pushed, c_sstatus. by rewrite testbit_clear_SIE. Qed.

Lemma ctx_ok_pushed c : ctx_ok c -> ctx_ok (pushed c).
Proof. intros [H _]. split; simpl; [lia|]. intros _. apply sie_pushed. Qed.

Lemma ctx_ok_enter lk c : ctx_ok c -> ctx_ok (enter lk c).
Proof. apply ctx_ok_pushed. Qed.

Lemma ctx_ok_settle c : ctx_ok c -> ctx_ok (settle c).
Proof. unfold settle, ctx_ok. destruct (c_noff c =? 0); done. Qed.

Lemma settle_enter lk c : ctx_ok c -> settle (enter lk c) = enter lk c.
Proof.
  intros [H _]. unfold settle. simpl. zcase (c_noff c + 1 =? 0); [lia|done].
Qed.

Lemma settle_settle c : settle (settle c) = settle c.
Proof.
  unfold settle. destruct (c_noff c =? 0) eqn:E; simpl; rewrite E; done.
Qed.

Lemma c_held_settle c : c_held (settle c) = c_held c.
Proof. unfold settle. by destruct (_ =? _). Qed.
Lemma c_pid_settle c : c_pid (settle c) = c_pid c.
Proof. unfold settle. by destruct (_ =? _). Qed.
Lemma c_proc_settle c : c_proc (settle c) = c_proc c.
Proof. unfold settle. by destruct (_ =? _). Qed.
Lemma c_sp_settle c : c_sp (settle c) = c_sp c.
Proof. unfold settle. by destruct (_ =? _). Qed.
Lemma c_fuel_settle c : c_fuel (settle c) = c_fuel c.
Proof. unfold settle. by destruct (_ =? _). Qed.
Lemma c_wakes_settle c : c_wakes (settle c) = c_wakes c.
Proof. unfold settle. by destruct (_ =? _). Qed.
Lemma c_noff_settle c : c_noff (settle c) = c_noff c.
Proof. unfold settle. by destruct (_ =? _). Qed.

Create HintDb ctx discriminated.
#[export] Hint Constants Opaque : ctx.
Create Rewrite HintDb ctx.
#[export] Hint Resolve ctx_ok_enter ctx_ok_settle ctx_ok_pushed : ctx.
#[export] Hint Rewrite c_held_settle c_pid_settle c_proc_settle c_sp_settle
  c_fuel_settle c_wakes_settle c_noff_settle settle_settle : ctx.

Lemma push_off_run {S} c (s : S) : push_off c s = Done tt (pushed c) s.
Proof.
  unfold push_off, bind, intr_get, r_sstatus, intr_off, w_sstatus, asks, ret, modify_ctx, when.
  unfold bind, asks, pushed, sie. simpl. destruct (c_noff c =? 0); done.
Qed.

Lemma intr_get_run {S} c (s : S) : intr_get c s = Done (sie c) c s.
Proof. done. Qed.

Lemma intr_on_run {S} c (s : S) :
  intr_on c s = Done tt (set_sstatus (Z.lor (c_sstatus c) SSTATUS_SIE) c) s.
Proof. done. Qed.

Lemma pop_off_pushed {S} c (s : S) :
  ctx_ok c -> pop_off (pushed c) s = Done tt (settle c) s.
Proof.
  intros [Hn Hsie]. unfold pop_off. kstep intr_get_run. rewrite sie_pushed. krun.
  change (c_noff (pushed c)) with (c_noff c + 1).
  zcase (c_noff c + 1 <? 1); [lia|]. krun.
  replace (c_noff c + 1 - 1) with (c_noff c) by lia. unfold settle.
  rewrite sie_testbit in *. destruct c as [ss noff ie held pr pid sp fu wk]. simpl in *.
  unfold pushed, set_noff, sie, when; simpl. rewrite land_SIE.
  zcase (noff =? 0) as E0; simpl.
  - subst. destruct (Z.testbit ss 1) eqn:Eb; simpl.
    + change (truth SSTATUS_SIE) with true. rewrite intr_on_run. unfold set_sstatus, set_intena. simpl. by rewrite clear_set_SIE.
    + unfold ret, set_intena. simpl. by rewrite clear_SIE_noop.
  - unfold ret. rewrite clear_SIE_noop; [done|]. apply Hsie. lia.
Qed.

Lemma remove_lock_notin lk l : lk ∉ l -> remove_lock lk l = l.
Proof.
  intros H. unfold remove_lock. induction l as [|x l IH]; [done|].
  apply not_elem_of_cons in H as [Hx Hl].
  rewrite filter_cons_True by congruence. by rewrite IH.
Qed.

Lemma remove_lock_head lk l : lk ∉ l -> remove_lock lk (lk :: l) = l.
Proof.
  intros H. unfold remove_lock. rewrite filter_cons_False by (intros ?; done).
  by apply remove_lock_notin.
Qed.

Lemma acquire_run {S} lk c (s : S) :
  lk ∉ c_held c -> acquire lk c s = Done tt (enter lk c) s.
Proof.
  intros H. unfold acquire. kstep push_off_run. unfold holding, bind, asks, obind.
  simpl c_held. rewrite bool_decide_eq_false_2 by done. done.
Qed.

Lemma acquire_held {S} lk c (s : S) :
  lk ∈ c_held c -> acquire lk c s = Panic "acquire".
Proof.
  intros H. unfold acquire. kstep push_off_run. unfold holding, bind, asks, obind.
  simpl c_held. rewrite bool_decide_eq_true_2 by done. done.
Qed.

(** Contexts that differ from [c] only in the channels woken up since. *)
Definition woken (chs : list chan) (c : ctx) : ctx := set_wakes (c_wakes c ++ chs) c.

Lemma woken_nil c : woken [] c = c.
Proof. destruct c. unfold woken, set_wakes. simpl. by rewrite app_nil_r. Qed.

Lemma woken_woken a b c : woken b (woken a c) = woken (a ++ b) c.
Proof. destruct c. unfold woken, set_wakes. simpl. by rewrite app_assoc. Qed.

Lemma settle_woken a c : settle (woken a c) = woken a (settle c).
Proof. destruct c. unfold settle, woken, sie. simpl. by destruct (_ =? 0). Qed.

Lemma enter_woken lk a c : enter lk (woken a c) = woken a (enter lk c).
Proof. by destruct c. Qed.

Lemma c_held_woken a c : c_held (woken a c) = c_held c.
Proof. by destruct c. Qed.
Lemma c_pid_woken a c : c_pid (woken a c) = c_pid c.
Proof. by destruct c. Qed.
Lemma c_proc_woken a c : c_proc (woken a c) = c_proc c.
Proof. by destruct c. Qed.
Lemma c_fuel_woken a c : c_fuel (woken a c) = c_fuel c.
Proof. by destruct c. Qed.
Lemma c_sp_woken a c : c_sp (woken a c) = c_sp c.
Proof. by destruct c. Qed.
Lemma c_held_enter lk c : c_held (enter lk c) = lk :: c_held c.
Proof. done. Qed.
Lemma c_pid_enter lk c : c_pid (enter lk c) = c_pid c.
Proof. done. Qed.
Lemma c_fuel_enter lk c : c_fuel (enter lk c) = c_fuel c.
Proof. done. Qed.

#[export] Hint Rewrite c_held_woken c_pid_woken c_proc_woken c_fuel_woken c_sp_woken
  settle_woken woken_woken c_held_enter c_pid_enter c_fuel_enter : ctx.

Lemma ctx_ok_woken a c : ctx_ok c -> ctx_ok (woken a c).
Proof. by destruct c. Qed.
#[export] Hint Resolve ctx_ok_woken : ctx.

Lemma release_enter {S} lk c (s : S) :
  ctx_ok c -> lk ∉ c_held c -> release lk (enter lk c) s = Done tt (settle c) s.
Proof.
  intros Hc H. unfold release, holding. krun.
  rewrite bool_decide_eq_true_2 by (rewrite c_held_enter; left). cbn [negb]. krun.
  rewrite c_held_enter, remove_lock_head by done.
  change (set_held (c_held c) (enter lk c)) with (pushed c).
  by apply pop_off_pushed.
Qed.

Lemma release_enter_woken {S} lk chs c (s : S) :
  ctx_ok c -> lk ∉ c_held c ->
  release lk (woken chs (enter lk c)) s = Done tt (woken chs (settle c)) s.
Proof.
  intros Hc H. rewrite <- enter_woken, <- settle_woken.
  apply release_enter; [auto with ctx|by rewrite c_held_woken].
Qed.

Lemma wakeup_run {S} ch c (s : S) : wakeup ch c s = Done tt (woken [ch] c) s.
Proof. done. Qed.

(** A critical section whose body leaves the context as it found it. *)
Lemma critical_section {S A} lk (body : M S A) c s a s' :
  ctx_ok c -> lk ∉ c_held c ->
  body (enter lk c) s = Done a (enter lk c) s' ->
  (acquire lk ;; r <- body ;; release lk ;; ret r) c s = Done a (settle c) s'.
Proof.
  intros Hc Hlk Hb. kstep (acquire_run lk c s Hlk). kstep Hb.
  kstep (release_enter lk c s' Hc Hlk). done.
Qed.

Lemma sleep_while_false {S} (cond : S -> bool) ch lk c s :
  cond s = false -> sleep_while cond ch lk c s = Done tt c s.
Proof.
  intros H. unfold sleep_while, bind, asks, obind.
  destruct (c_fuel c); simpl; unfold bind, gets, obind; by rewrite H.
Qed.

(** A context in which [intena] agrees with the interrupt state, as after any
    acquire/release pair: critical sections leave it unchanged. *)
Definition steady (c : ctx) : Prop := ctx_ok c /\ settle c = c.

Lemma steady_settle c : ctx_ok c -> steady (settle c).
Proof. intros. split; [auto with ctx|]. apply settle_settle. Qed.

Lemma steady_enter lk c : ctx_ok c -> steady (enter lk c).
Proof. intros. split; [auto with ctx|]. by apply settle_enter. Qed.
#[export] Hint Resolve steady_settle steady_enter : ctx.

(** ** Sleeping *)

(** [release] of a lock taken before the innermost one. *)
Lemma release_inner {S} lk lk' c (s : S) :
  ctx_ok c -> lk ∉ c_held c -> lk' ∉ c_held c -> lk' <> lk ->
  release lk (enter lk' (enter lk c)) s = Done tt (enter lk' c) s.
Proof.
  intros Hc Hlk Hlk' Hne. unfold release, holding. krun.
  rewrite bool_decide_eq_true_2 by (rewrite !c_held_enter; right; left). cbn [negb]. krun.
  rewrite !c_held_enter. unfold remove_lock. rewrite filter_cons_True by done.
  rewrite filter_cons_False by (intros ?; done).
  change (filter (fun x => x ≠ lk) (c_held c)) with (remove_lock lk (c_held c)).
  rewrite remove_lock_notin by done.
  change (set_held (lk' :: c_held c) (enter lk' (enter lk c)))
    with (pushed (set_held (lk' :: c_held c) (pushed c))).
  rewrite pop_off_pushed by (destruct Hc; split; simpl; [lia|intros _; apply sie_pushed]).
  unfold settle. simpl. destruct Hc. zcase (c_noff c + 1 =? 0); [lia|done].
Qed.

(** A thread with no other lock that calls [sleep(ch, lk)] gives up the CPU holding
    its process lock only, and continues with [lk] when it is woken. *)
Lemma sleep_enter {S} ch lk c (s : S) :
  steady c -> c_noff c = 0 -> lk ∉ c_held c -> LProc (c_proc c) ∉ c_held c ->
  lk <> LProc (c_proc c) ->
  exists k, sleep ch lk (enter lk c) s = Sleep ch (enter (LProc (c_proc c)) c) s k /\
    forall s' : S, k s' = Done tt (enter lk c) s'.
Proof.
  intros [Hok Hst] Hn Hlk Hp Hne. unfold sleep. krun. change (c_proc (enter lk c)) with (c_proc c).
  kstep (acquire_run (LProc (c_proc c)) (enter lk c) s ltac:(rewrite c_held_enter; intros [E|E]%elem_of_cons; congruence || done)).
  kstep (release_inner lk (LProc (c_proc c)) c s Hok Hlk Hp ltac:(done)).
  set (c2 := enter (LProc (c_proc c)) c).
  assert (sched_sleep ch c2 s = Sleep ch c2 s (fun s' => Done tt c2 s')) as Hs.
  { unfold sched_sleep, holding. krun. change (c_proc c2) with (c_proc c).
    rewrite bool_decide_eq_true_2 by (unfold c2; rewrite c_held_enter; left). cbn [negb]. krun.
    change (c_noff c2) with (c_noff c + 1). rewrite Hn.
    change (negb (0 + 1 =? 1)) with false. cbv iota. kstep intr_get_run. change (sie c2) with (sie (pushed c)). by rewrite sie_pushed. }
  unfold bind at 1. rewrite Hs. cbn [obind]. eexists. split; [reflexivity|].
  intros s'. cbn beta. kstep (release_enter (LProc (c_proc c)) c s' Hok Hp).
  rewrite Hst. by apply acquire_run.
Qed.

(** The loop around it: asleep until it finds the condition false. *)
Lemma sleep_while_true {S} (cond : S -> bool) ch lk c s :
  steady c -> c_noff c = 0 -> lk ∉ c_held c -> LProc (c_proc c) ∉ c_held c ->
  lk <> LProc (c_proc c) -> (0 < c_fuel c)%nat -> cond s = true ->
  exists k, sleep_while cond ch lk (enter lk c) s = Sleep ch (enter (LProc (c_proc c)) c) s k /\
    forall s', cond s' = false -> k s' = Done tt (enter lk c) s'.
Proof.
  intros Hc Hn Hlk Hp Hne Hf Hs. unfold sleep_while. krun. rewrite c_fuel_enter.
  destruct (c_fuel c) as [|n] eqn:En; [lia|]. cbn [sleep_while_fuel]. krun. rewrite Hs.
  destruct (sleep_enter ch lk c s Hc Hn Hlk Hp Hne) as (k & Hrun & Hk).
  unfold bind. rewrite Hrun. cbn [obind]. eexists. split; [reflexivity|].
  intros s' Hs'. cbn beta. rewrite Hk. cbn [obind].
  destruct n; simpl; unfold bind, gets, obind; by rewrite Hs'.
Qed.
