(* ===== verification/Riscv.v ===== *)
(** * Sv39 paging and the memory layout (kernel/riscv.h, kernel/memlayout.h)

    The address macros with 64-bit wrap-around, their arithmetic reading, and the
    decomposition of virtual addresses and page-table entries that [Vm] relies on. *)
From S2P Require Import Prelude.

Definition PGSIZE : Z := 4096.
Definition PGSHIFT : Z := 12.

Definition PGROUNDUP (sz : Z) : Z := Z.land (u64 (sz + PGSIZE - 1)) (Z.lnot (PGSIZE - 1)).
Definition PGROUNDDOWN (a : Z) : Z := Z.land a (Z.lnot (PGSIZE - 1)).

Definition PTE_V : Z := Z.shiftl 1 0.
Definition PTE_R : Z := Z.shiftl 1 1.
Definition PTE_W : Z := Z.shiftl 1 2.
Definition PTE_X : Z := Z.shiftl 1 3.
Definition PTE_U : Z := Z.shiftl 1 4.

Definition PA2PTE (pa : Z) : Z := u64 (Z.shiftl (Z.shiftr pa 12) 10).
Definition PTE2PA (pte : Z) : Z := u64 (Z.shiftl (Z.shiftr pte 10) 12).
Definition PTE_FLAGS (pte : Z) : Z := Z.land pte 0x3FF.

Definition PXMASK : Z := 0x1FF.
Definition PXSHIFT (level : Z) : Z := PGSHIFT + 9 * level.
Definition PX (level va : Z) : Z := Z.land (Z.shiftr va (PXSHIFT level)) PXMASK.

Definition MAXVA : Z := Z.shiftl 1 (9 + 9 + 9 + 12 - 1).

Definition SATP_SV39 : Z := Z.shiftl 8 60.
Definition MAKE_SATP (pagetable : Z) : Z := Z.lor SATP_SV39 (Z.shiftr pagetable 12).

Definition UART0 : Z := 0x10000000.
Definition UART0_IRQ : Z := 10.
Definition VIRTIO0 : Z := 0x10001000.
Definition VIRTIO0_IRQ : Z := 1.
Definition CLINT : Z := 0x2000000.
Definition CLINT_MTIMECMP (hartid : Z) : Z := CLINT + 0x4000 + 8 * hartid.
Definition PLIC : Z := 0x0c000000.
Definition PLIC_SENABLE (hart : Z) : Z := PLIC + 0x2080 + hart * 0x100.
Definition PLIC_SPRIORITY (hart : Z) : Z := PLIC + 0x201000 + hart * 0x2000.
Definition PLIC_SCLAIM (hart : Z) : Z := PLIC + 0x201004 + hart * 0x2000.
Definition KERNBASE : Z := 0x80000000.
Definition PHYSTOP : Z := KERNBASE + 128 * 1024 * 1024.

Definition TRAMPOLINE : Z := MAXVA - PGSIZE.
Definition KSTACK (p : Z) : Z := TRAMPOLINE - (p + 1) * 2 * PGSIZE.
Definition TRAPFRAME : Z := TRAMPOLINE - PGSIZE.

#[global] Arguments PGSIZE : simpl never.
#[global] Arguments MAXVA : simpl never.
#[global] Arguments PHYSTOP : simpl never.
#[global] Arguments KERNBASE : simpl never.

(** A page frame address: aligned to a page. *)
Definition page_aligned (a : Z) : Prop := a mod PGSIZE = 0.

(** The virtual page number of an address. *)
Definition vpn (va : Z) : Z := va / PGSIZE.

(** ** Arithmetic reading of the macros *)

Lemma land_lnot_mask a : Z.land a (Z.lnot 4095) = 4096 * (a / 4096).
Proof.
  rewrite <- Z.ldiff_land. change 4095 with (Z.ones 12).
  rewrite Z.ldiff_ones_r, Z.shiftl_mul_pow2, Z.shiftr_div_pow2 by lia.
  change (2 ^ 12) with 4096. lia.
Qed.

Lemma PGROUNDDOWN_eq a : PGROUNDDOWN a = PGSIZE * (a / PGSIZE).
Proof. unfold PGROUNDDOWN, PGSIZE. apply land_lnot_mask. Qed.

Lemma PGROUNDUP_eq sz :
  0 <= sz < 18446744073709547521 -> PGROUNDUP sz = PGSIZE * ((sz + PGSIZE - 1) / PGSIZE).
Proof.
  intros H. unfold PGROUNDUP, PGSIZE. rewrite u64_small by lia. apply land_lnot_mask.
Qed.

Lemma PGROUNDDOWN_spec a :
  page_aligned (PGROUNDDOWN a) /\ PGROUNDDOWN a <= a < PGROUNDDOWN a + PGSIZE.
Proof.
  rewrite PGROUNDDOWN_eq. unfold page_aligned, PGSIZE. dlia.
Qed.

Lemma PGROUNDUP_spec sz :
  0 <= sz < 18446744073709547521 ->
  page_aligned (PGROUNDUP sz) /\ sz <= PGROUNDUP sz < sz + PGSIZE.
Proof.
  intros H. rewrite PGROUNDUP_eq by done. unfold page_aligned, PGSIZE. dlia.
Qed.

Lemma PGROUNDDOWN_aligned a : page_aligned a -> PGROUNDDOWN a = a.
Proof. rewrite PGROUNDDOWN_eq. unfold page_aligned, PGSIZE. dlia. Qed.

Lemma PGROUNDUP_aligned a :
  0 <= a < 18446744073709547521 -> page_aligned a -> PGROUNDUP a = a.
Proof. intros H. rewrite PGROUNDUP_eq by done. unfold page_aligned, PGSIZE. dlia. Qed.

Lemma MAXVA_val : MAXVA = 274877906944.
Proof. reflexivity. Qed.

Lemma PX_eq level va :
  0 <= level -> PX level va = (va / 2 ^ (12 + 9 * level)) mod 512.
Proof.
  intros H. unfold PX, PXSHIFT, PGSHIFT, PXMASK. change 511 with (Z.ones 9).
  rewrite Z.land_ones, Z.shiftr_div_pow2 by lia. done.
Qed.

Lemma PX0_eq va : PX 0 va = (va / 4096) mod 512.
Proof. rewrite PX_eq by lia. done. Qed.
Lemma PX1_eq va : PX 1 va = (va / 2097152) mod 512.
Proof. rewrite PX_eq by lia. done. Qed.
Lemma PX2_eq va : PX 2 va = (va / 1073741824) mod 512.
Proof. rewrite PX_eq by lia. done. Qed.

Lemma PX_range level va : 0 <= level -> 0 <= PX level va < 512.
Proof. intros. rewrite PX_eq by done. apply Z.mod_pos_bound. lia. Qed.

(** The three indices determine the page of a valid virtual address. *)
Lemma PX_vpn va :
  0 <= va < MAXVA -> vpn va = 262144 * PX 2 va + 512 * PX 1 va + PX 0 va.
Proof.
  rewrite MAXVA_val, PX0_eq, PX1_eq, PX2_eq. unfold vpn, PGSIZE. intros H. dlia.
Qed.

Lemma PX_of_vpn va :
  0 <= va < MAXVA ->
  PX 2 va = vpn va / 262144 /\ PX 1 va = (vpn va / 512) mod 512 /\ PX 0 va = vpn va mod 512.
Proof.
  rewrite MAXVA_val, PX0_eq, PX1_eq, PX2_eq. unfold vpn, PGSIZE. intros H. dlia.
Qed.

(** ** Page-table entries *)

Lemma PA2PTE_eq pa : 0 <= pa < 2 ^ 56 -> PA2PTE pa = 1024 * (pa / 4096).
Proof.
  intros H. unfold PA2PTE. rewrite Z.shiftl_mul_pow2, Z.shiftr_div_pow2 by lia.
  change (2 ^ 56) with 72057594037927936 in H.
  change (2 ^ 10) with 1024. change (2 ^ 12) with 4096.
  rewrite u64_small by dlia. lia.
Qed.

Lemma PTE2PA_eq pte : 0 <= pte < 2 ^ 54 -> PTE2PA pte = 4096 * (pte / 1024).
Proof.
  intros H. unfold PTE2PA. rewrite Z.shiftl_mul_pow2, Z.shiftr_div_pow2 by lia.
  change (2 ^ 54) with 18014398509481984 in H.
  change (2 ^ 10) with 1024. change (2 ^ 12) with 4096.
  rewrite u64_small by dlia. lia.
Qed.

Lemma lor_disjoint_add a n f : 0 <= n -> 0 <= f < 2 ^ n -> Z.lor (2 ^ n * a) f = 2 ^ n * a + f.
Proof.
  intros Hn Hf. rewrite Z.mul_comm, <- Z.shiftl_mul_pow2 by lia.
  assert (Z.land (Z.shiftl a n) f = 0) as Hl.
  { apply Z.bits_inj'. intros i Hi. rewrite Z.land_spec, Z.testbit_0_l, Z.shiftl_spec by lia.
    destruct (decide (i < n)).
    - rewrite (Z.testbit_neg_r a) by lia. done.
    - destruct (decide (f = 0)) as [->|]; [by rewrite Z.testbit_0_l, andb_false_r|].
      rewrite (Z.bits_above_log2 f); [by rewrite andb_false_r|lia|].
      apply Z.log2_lt_pow2; [lia|]. eapply Z.lt_le_trans; [apply Hf|].
      apply Z.pow_le_mono_r; lia. }
  rewrite <- Z.lxor_lor by done. symmetry. apply Z.add_nocarry_lxor. done.
Qed.

(** A PTE made of a page address and flags. *)
Lemma pte_of_pa_eq pa flags :
  0 <= pa < 2 ^ 56 -> 0 <= flags < 1024 ->
  Z.lor (PA2PTE pa) flags = 1024 * (pa / 4096) + flags.
Proof.
  intros Hp Hf. rewrite PA2PTE_eq by done. change 1024 with (2 ^ 10) in *. apply lor_disjoint_add; lia.
Qed.

Lemma PTE2PA_of_pa pa flags :
  0 <= pa < 2 ^ 56 -> page_aligned pa -> 0 <= flags < 1024 ->
  PTE2PA (Z.lor (PA2PTE pa) flags) = pa.
Proof.
  intros Hp Ha Hf. rewrite pte_of_pa_eq by done. unfold page_aligned, PGSIZE in Ha.
  change (2 ^ 56) with 72057594037927936 in Hp.
  rewrite PTE2PA_eq by (change (2 ^ 54) with 18014398509481984; dlia). dlia.
Qed.

Lemma PTE_FLAGS_eq pte : PTE_FLAGS pte = pte mod 1024.
Proof. unfold PTE_FLAGS. change 1023 with (Z.ones 10). by rewrite Z.land_ones. Qed.

Lemma PTE_FLAGS_of_pa pa flags :
  0 <= pa < 2 ^ 56 -> 0 <= flags < 1024 -> PTE_FLAGS (Z.lor (PA2PTE pa) flags) = flags.
Proof.
  intros Hp Hf. rewrite pte_of_pa_eq, PTE_FLAGS_eq by done. dlia.
Qed.

(** A flag bit of a PTE, as the code tests it: [pte & PTE_V]. *)
Definition pte_has (flag pte : Z) : bool := truth (Z.land pte flag).

Lemma land_pow2_truth x n : 0 <= n -> truth (Z.land x (2 ^ n)) = Z.testbit x n.
Proof.
  intros Hn. destruct (Z.testbit x n) eqn:E.
  - unfold truth. apply negb_true_iff, Z.eqb_neq. intros H.
    assert (Z.testbit (Z.land x (2 ^ n)) n = false) as H0 by (rewrite H; apply Z.testbit_0_l).
    rewrite Z.land_spec, E, Z.pow2_bits_true in H0 by lia. done.
  - replace (Z.land x (2 ^ n)) with 0; [done|]. symmetry. apply Z.bits_inj'. intros i Hi.
    rewrite Z.land_spec, Z.testbit_0_l, Z.pow2_bits_eqb by lia.
    zcase (n =? i); [subst; by rewrite E|apply andb_false_r].
Qed.

Lemma pte_has_V x : pte_has PTE_V x = Z.testbit x 0.
Proof. apply (land_pow2_truth x 0). lia. Qed.
Lemma pte_has_U x : pte_has PTE_U x = Z.testbit x 4.
Proof. apply (land_pow2_truth x 4). lia. Qed.

Lemma pte_has_V_lor a : pte_has PTE_V (Z.lor a PTE_V) = true.
Proof. rewrite pte_has_V, Z.lor_spec. apply orb_true_r. Qed.

Lemma pte_has_0 f : pte_has f 0 = false.
Proof. unfold pte_has. by rewrite Z.land_0_l. Qed.

(** Kernel stacks do not overlap, and a guard page separates them. *)
Lemma KSTACK_disjoint i j : i < j -> KSTACK j + 2 * PGSIZE <= KSTACK i.
Proof. unfold KSTACK, PGSIZE. lia. Qed.
