(* ===== verification/KString.v ===== *)
(** * Memory and string routines (kernel/string.c)

    Each routine is the source's loop on flat memory.  The routines return their
    first argument in C; here they return the memory they leave.  [char] is
    unsigned on RISC-V.  The reference definitions they are compared with are
    [wr_list] (a block write) and [cstrn] (the string at an address, cut at a NUL
    or at a limit). *)
From S2P Require Import Prelude Memory.

Fixpoint memset_loop (m : mem) (cdst c i : Z) (k : nat) : mem :=
  match k with
  | O => m
  | S k' => memset_loop (wr m (cdst + i) c) cdst c (i + 1) k'
  end.

Definition memset (m : mem) (dst c n : Z) : mem :=
  memset_loop m dst c 0 (Z.to_nat (u32 n)).

Fixpoint memcmp_loop (m : mem) (s1 s2 : Z) (n : nat) : Z :=
  match n with
  | O => 0
  | S n' =>
      if negb (rd m s1 =? rd m s2) then rd m s1 - rd m s2
      else memcmp_loop m (s1 + 1) (s2 + 1) n'
  end.

Definition memcmp (m : mem) (v1 v2 n : Z) : Z := memcmp_loop m v1 v2 (Z.to_nat (u32 n)).

(** [while(n-- > 0) *--d = *--s] and [while(n-- > 0) *d++ = *s++]. *)
Fixpoint memmove_down (m : mem) (d s : Z) (n : nat) : mem :=
  match n with
  | O => m
  | S n' => memmove_down (wr m (d - 1) (rd m (s - 1))) (d - 1) (s - 1) n'
  end.

Fixpoint memmove_up (m : mem) (d s : Z) (n : nat) : mem :=
  match n with
  | O => m
  | S n' => memmove_up (wr m d (rd m s)) (d + 1) (s + 1) n'
  end.

Definition memmove (m : mem) (dst src n : Z) : mem :=
  let n := u32 n in
  if n =? 0 then m
  else if (src <? dst) && (dst <? src + n)
  then memmove_down m (dst + n) (src + n) (Z.to_nat n)
  else memmove_up m dst src (Z.to_nat n).

Definition memcpy (m : mem) (dst src n : Z) : mem := memmove m dst src n.

Fixpoint strncmp_loop (m : mem) (p q : Z) (n : nat) : Z :=
  match n with
  | O => 0
  | S n' =>
      if truth (rd m p) && (rd m p =? rd m q)
      then strncmp_loop m (p + 1) (q + 1) n'
      else rd m p - rd m q
  end.

Definition strncmp (m : mem) (p q n : Z) : Z := strncmp_loop m p q (Z.to_nat (u32 n)).

Fixpoint strncpy_pad (m : mem) (s : Z) (n : nat) : mem :=
  match n with
  | O => m
  | S n' => strncpy_pad (wr m s 0) (s + 1) n'
  end.

Fixpoint strncpy_loop (m : mem) (s t : Z) (n : nat) : mem :=
  match n with
  | O => m
  | S n' =>
      let b := rd m t in
      let m1 := wr m s b in
      if truth b then strncpy_loop m1 (s + 1) (t + 1) n' else strncpy_pad m1 (s + 1) n'
  end.

Definition strncpy (m : mem) (s t n : Z) : mem := strncpy_loop m s t (Z.to_nat n).

Fixpoint safestrcpy_loop (m : mem) (s t : Z) (n : nat) : mem :=
  match n with
  | O => wr m s 0
  | S n' =>
      let b := rd m t in
      let m1 := wr m s b in
      if truth b then safestrcpy_loop m1 (s + 1) (t + 1) n' else wr m1 (s + 1) 0
  end.

Definition safestrcpy (m : mem) (s t n : Z) : mem :=
  if n <=? 0 then m else safestrcpy_loop m s t (Z.to_nat (n - 1)).

(** [strlen] has no bound of its own: [fuel] counts the iterations allowed. *)
Fixpoint strlen_loop (fuel : nat) (m : mem) (s n : Z) : option Z :=
  match fuel with
  | O => None
  | S f => if truth (rd m (s + n)) then strlen_loop f m s (n + 1) else Some n
  end.

Definition strlen (fuel : nat) (m : mem) (s : Z) : option Z := strlen_loop fuel m s 0.

(** The string at [p]: its bytes up to a NUL, at most [n] of them. *)
Fixpoint cstrn (m : mem) (p : Z) (n : nat) : list Z :=
  match n with
  | O => []
  | S n' => if rd m p =? 0 then [] else rd m p :: cstrn m (p + 1) n'
  end.

#[global] Arguments memset : simpl never.
#[global] Arguments memmove : simpl never.
#[global] Arguments strncmp : simpl never.

(** ** Block operations *)

Lemma memset_loop_spec m d c i k x :
  rd (memset_loop m d c i k) x =
  if (d + i <=? x) && (x <? d + i + Z.of_nat k) then u8 c else rd m x.
Proof.
  revert m i. induction k as [|k IH]; intros m i; simpl memset_loop.
  - zcase (d + i <=? x); zcase (x <? d + i + Z.of_nat 0); simpl; done || lia.
  - rewrite IH, rd_wr.
    zcase (d + (i + 1) <=? x); zcase (x <? d + (i + 1) + Z.of_nat k);
      zcase (d + i <=? x); zcase (x <? d + i + Z.of_nat (S k)); zcase (d + i =? x);
      simpl; done || lia.
Qed.

Lemma rd_memset m d c n x :
  0 <= n < 4294967296 ->
  rd (memset m d c n) x = if (d <=? x) && (x <? d + n) then u8 c else rd m x.
Proof.
  intros Hn. unfold memset. rewrite memset_loop_spec, u32_small, Z2Nat.id by lia.
  by rewrite !Z.add_0_r.
Qed.

Lemma rd_memset_in m d c n x :
  0 <= n < 4294967296 -> within d n x -> rd (memset m d c n) x = u8 c.
Proof.
  intros Hn [H1 H2]. rewrite rd_memset by done.
  zcase (d <=? x); zcase (x <? d + n); simpl; done || lia.
Qed.

Lemma rd_memset_out m d c n x :
  0 <= n < 4294967296 -> ~ within d n x -> rd (memset m d c n) x = rd m x.
Proof.
  unfold within. intros Hn H. rewrite rd_memset by done.
  zcase (d <=? x); zcase (x <? d + n); simpl; done || lia.
Qed.

Lemma mem_ok_memset m d c n : mem_ok m -> mem_ok (memset m d c n).
Proof.
  intros H. unfold memset. generalize (Z.to_nat (u32 n)) as k. generalize 0 as i.
  intros i k. revert m i H. induction k; intros; simpl; auto with mem.
Qed.

Lemma rd_memmove_up m d s n x :
  mem_ok m -> ~ (s < d < s + Z.of_nat n) ->
  rd (memmove_up m d s n) x =
  if (d <=? x) && (x <? d + Z.of_nat n) then rd m (s + (x - d)) else rd m x.
Proof.
  revert m d s. induction n as [|n IH]; intros m d s Hm Hd; simpl memmove_up.
  - zcase (d <=? x); zcase (x <? d + Z.of_nat 0); simpl; done || lia.
  - rewrite IH by (auto with mem; lia). rewrite !rd_wr, (u8_small (rd m s)) by apply Hm.
    zcase (d + 1 <=? x); zcase (x <? d + 1 + Z.of_nat n); zcase (d <=? x);
      zcase (x <? d + Z.of_nat (S n)); zcase (d =? x); zcase (d =? s + 1 + (x - (d + 1)));
      simpl; try lia; try done; f_equal; lia.
Qed.

Lemma rd_memmove_down m d s n x :
  mem_ok m -> ~ (d < s < d + Z.of_nat n) ->
  rd (memmove_down m (d + Z.of_nat n) (s + Z.of_nat n) n) x =
  if (d <=? x) && (x <? d + Z.of_nat n) then rd m (s + (x - d)) else rd m x.
Proof.
  revert m. induction n as [|n IH]; intros m Hm Hd; simpl memmove_down.
  - zcase (d <=? x); zcase (x <? d + Z.of_nat 0); simpl; done || lia.
  - replace (d + Z.of_nat (S n) - 1) with (d + Z.of_nat n) by lia.
    replace (s + Z.of_nat (S n) - 1) with (s + Z.of_nat n) by lia.
    rewrite IH by (auto with mem; lia). rewrite !rd_wr, (u8_small (rd m _)) by apply Hm.
    zcase (d <=? x); zcase (x <? d + Z.of_nat n); zcase (x <? d + Z.of_nat (S n));
      zcase (d + Z.of_nat n =? x); zcase (d + Z.of_nat n =? s + (x - d));
      simpl; try lia; try done; f_equal; lia.
Qed.

Lemma rd_memmove m d s n x :
  mem_ok m -> 0 <= n < 4294967296 ->
  rd (memmove m d s n) x =
  if (d <=? x) && (x <? d + n) then rd m (s + (x - d)) else rd m x.
Proof.
  intros Hm Hn. unfold memmove. rewrite u32_small by lia. zcase (n =? 0) as E0.
  - subst. zcase (d <=? x); zcase (x <? d + 0); simpl; done || lia.
  - destruct (Z_of_nat_complete n) as [k ->]; [lia|]. rewrite Nat2Z.id.
    zcase ((s <? d) && (d <? s + Z.of_nat k)) as E.
    + apply rd_memmove_down; [done|lia].
    + apply rd_memmove_up; [done|]. apply andb_false_iff in E as [E|E]; zbool; lia.
Qed.

(** [memmove] copies correctly however the two regions overlap: it equals
    writing, at [dst], the bytes that [src] held before the call. *)
Theorem memmove_block_copy m dst src n x :
  mem_ok m -> 0 <= n < 4294967296 ->
  rd (memmove m dst src n) x = rd (wr_list m dst (rd_list m src (Z.to_nat n))) x.
Proof.
  intros Hm Hn. rewrite rd_memmove, rd_wr_list, zlen_rd_list, Z2Nat.id by (done || lia).
  zcase (dst <=? x); zcase (x <? dst + n); simpl; try done.
  rewrite znth_rd_list, u8_small by (apply Hm || lia). done.
Qed.

Lemma rd_memmove_in m d s n x :
  mem_ok m -> 0 <= n < 4294967296 -> within d n x ->
  rd (memmove m d s n) x = rd m (s + (x - d)).
Proof.
  intros Hm Hn [H1 H2]. rewrite rd_memmove by done.
  zcase (d <=? x); zcase (x <? d + n); simpl; done || lia.
Qed.

Lemma rd_memmove_out m d s n x :
  mem_ok m -> 0 <= n < 4294967296 -> ~ within d n x ->
  rd (memmove m d s n) x = rd m x.
Proof.
  unfold within. intros Hm Hn H. rewrite rd_memmove by done.
  zcase (d <=? x); zcase (x <? d + n); simpl; done || lia.
Qed.

Lemma mem_ok_memmove m d s n : mem_ok m -> mem_ok (memmove m d s n).
Proof.
  intros Hm. unfold memmove. destruct (_ =? 0); [done|].
  assert (forall k m d s, mem_ok m -> mem_ok (memmove_up m d s k)) as Hup.
  { intros k. induction k; intros; simpl; auto with mem. }
  assert (forall k m d s, mem_ok m -> mem_ok (memmove_down m d s k)) as Hdown.
  { intros k. induction k; intros; simpl; auto with mem. }
  destruct (_ && _); auto.
Qed.

#[export] Hint Resolve mem_ok_memset mem_ok_memmove : mem.

(** ** Strings *)

Lemma cstrn_length m p n : (length (cstrn m p n) <= n)%nat.
Proof.
  revert p. induction n; intros p; simpl; [lia|]. destruct (_ =? 0); simpl; [lia|].
  specialize (IHn (p + 1)). lia.
Qed.

Lemma cstrn_agree m1 m2 p n :
  agree_on (within p (Z.of_nat n)) m1 m2 -> cstrn m1 p n = cstrn m2 p n.
Proof.
  revert p. induction n as [|n IH]; intros p H; [done|]. simpl.
  rewrite (H p) by (unfold within; lia). destruct (_ =? 0); [done|]. f_equal.
  apply IH. intros x Hx. apply H. unfold within in *. lia.
Qed.

(** [strncmp] returns zero exactly when the two strings, cut at a NUL or after
    [n] bytes, are equal. *)
Theorem strncmp_zero_iff m p q n :
  strncmp m p q n = 0 <->
  cstrn m p (Z.to_nat (u32 n)) = cstrn m q (Z.to_nat (u32 n)).
Proof.
  unfold strncmp. generalize (Z.to_nat (u32 n)) as k. clear n. intros k. revert p q.
  induction k as [|k IH]; intros p q; simpl; [done|]. unfold truth.
  zcase (rd m p =? 0) as Ep; simpl.
  - zcase (rd m q =? 0) as Eq; split; intros H; done || lia.
  - zcase (rd m p =? rd m q) as Epq.
    + rewrite IH. zcase (rd m q =? 0); [congruence|].
      rewrite Epq. split; [by intros ->|]. by injection 1.
    + split; [lia|]. intros H. zcase (rd m q =? 0); [done|]. by injection H.
Qed.

Lemma strlen_loop_spec fuel m s i :
  (length (cstrn m (s + i) fuel) < fuel)%nat ->
  strlen_loop fuel m s i = Some (i + Z.of_nat (length (cstrn m (s + i) fuel))).
Proof.
  revert i. induction fuel as [|f IH]; intros i H; [simpl in H; lia|].
  simpl in *. unfold truth. zcase (rd m (s + i) =? 0); simpl in *; [f_equal; lia|].
  replace (s + i + 1) with (s + (i + 1)) in * by lia. rewrite IH by lia. f_equal. lia.
Qed.

(** Two regions that do not overlap. *)
Definition disjoint_range (a n b k : Z) : Prop := a + n <= b \/ b + k <= a.

Lemma safestrcpy_loop_frame m s t n x :
  ~ within s (Z.of_nat n + 1) x -> rd (safestrcpy_loop m s t n) x = rd m x.
Proof.
  revert m s t. induction n as [|n IH]; intros m s t Hx; unfold within in *; simpl.
  - rewrite rd_wr. zcase (s =? x); [lia|done].
  - destruct (truth (rd m t)).
    + rewrite IH, rd_wr by lia. zcase (s =? x); [lia|done].
    + rewrite !rd_wr. zcase (s + 1 =? x); zcase (s =? x); done || lia.
Qed.

Lemma safestrcpy_loop_spec m s t n :
  mem_ok m -> disjoint_range s (Z.of_nat n + 1) t (Z.of_nat n) ->
  cstrn (safestrcpy_loop m s t n) s (S n) = cstrn m t n /\
  rd (safestrcpy_loop m s t n) (s + Z.of_nat (length (cstrn m t n))) = 0.
Proof.
  revert m s t. induction n as [|n IH]; intros m s t Hm Hd; unfold disjoint_range in *.
  - simpl. rewrite Z.add_0_r, !rd_wr, Z.eqb_refl. done.
  - cbn [safestrcpy_loop]. unfold truth. cbn [cstrn]. zcase (rd m t =? 0) as Et; cbn [negb].
    + simpl. rewrite Z.add_0_r, !rd_wr, Et. zcase (s + 1 =? s); [lia|].
      rewrite Z.eqb_refl. done.
    + destruct (IH (wr m s (rd m t)) (s + 1) (t + 1)) as [IH1 IH2]; [auto with mem|lia|].
      assert (cstrn (wr m s (rd m t)) (t + 1) n = cstrn m (t + 1) n) as Hc.
      { apply cstrn_agree. intros x Hx. rewrite rd_wr. unfold within in Hx.
        zcase (s =? x); [lia|done]. }
      rewrite Hc in IH1, IH2.
      assert (rd (safestrcpy_loop (wr m s (rd m t)) (s + 1) (t + 1) n) s = rd m t) as Hs.
      { rewrite safestrcpy_loop_frame by (unfold within; lia).
        rewrite rd_wr, Z.eqb_refl. apply u8_small, Hm. }
      split.
      * cbn [cstrn] in IH1 |- *. rewrite Hs. zcase (rd m t =? 0); [done|]. f_equal. exact IH1.
      * rewrite <- IH2. f_equal. simpl length. lia.
Qed.

(** [safestrcpy] always leaves a NUL-terminated string within its [n] bytes,
    namely the first [n - 1] bytes of the source string, and writes nothing
    outside [s, s+n). *)
Theorem safestrcpy_terminates_string m s t n :
  mem_ok m -> 0 < n -> disjoint_range s n t (n - 1) ->
  let m' := safestrcpy m s t n in
  let str := cstrn m t (Z.to_nat (n - 1)) in
  cstrn m' s (Z.to_nat n) = str /\
  zlen str < n /\ rd m' (s + zlen str) = 0 /\
  (forall x, ~ within s n x -> rd m' x = rd m x).
Proof.
  intros Hm Hn Hd m' str. unfold m', safestrcpy. zcase (n <=? 0); [lia|].
  pose proof (safestrcpy_loop_spec m s t (Z.to_nat (n - 1)) Hm) as [H1 H2].
  { unfold disjoint_range in *. lia. }
  replace (S (Z.to_nat (n - 1))) with (Z.to_nat n) in H1 by lia.
  split; [done|]. split; [|split; [done|]].
  - unfold zlen, str. pose proof (cstrn_length m t (Z.to_nat (n - 1))). lia.
  - intros x Hx. apply safestrcpy_loop_frame. unfold within in *. lia.
Qed.

Lemma strncpy_pad_spec m s n x :
  rd (strncpy_pad m s n) x =
  if (s <=? x) && (x <? s + Z.of_nat n) then 0 else rd m x.
Proof.
  revert m s. induction n as [|n IH]; intros m s; simpl strncpy_pad.
  - zcase (s <=? x); zcase (x <? s + Z.of_nat 0); simpl; done || lia.
  - rewrite IH, rd_wr.
    zcase (s + 1 <=? x); zcase (x <? s + 1 + Z.of_nat n); zcase (s <=? x);
      zcase (x <? s + Z.of_nat (S n)); zcase (s =? x); simpl; done || lia.
Qed.

(** The [n] bytes [strncpy] writes: the source string padded with NULs. *)
Definition strncpy_bytes (m : mem) (t : Z) (n : nat) : list Z :=
  cstrn m t n ++ replicate (n - length (cstrn m t n)) 0.

Lemma length_strncpy_bytes m t n : length (strncpy_bytes m t n) = n.
Proof.
  unfold strncpy_bytes. rewrite length_app, length_replicate.
  pose proof (cstrn_length m t n). lia.
Qed.

Lemma strncpy_loop_spec m s t n x :
  mem_ok m -> disjoint_range s (Z.of_nat n) t (Z.of_nat n) ->
  rd (strncpy_loop m s t n) x = rd (wr_list m s (strncpy_bytes m t n)) x.
Proof.
  revert m s t. induction n as [|n IH]; intros m s t Hm Hd; [done|].
  unfold disjoint_range in *. cbn [strncpy_loop]. unfold strncpy_bytes. cbn [cstrn].
  unfold truth. zcase (rd m t =? 0) as Et; cbn [negb].
  - rewrite Et. simpl. rewrite strncpy_pad_spec, rd_wr_list. unfold zlen.
    rewrite length_replicate. zcase (s + 1 <=? x); zcase (x <? s + 1 + Z.of_nat n); simpl; try done.
    by rewrite znth_replicate by lia.
  - rewrite IH by (auto with mem; lia). simpl. unfold strncpy_bytes.
    assert (cstrn (wr m s (rd m t)) (t + 1) n = cstrn m (t + 1) n) as ->; [|done].
    apply cstrn_agree. intros y Hy. rewrite rd_wr. unfold within in Hy.
    zcase (s =? y); [lia|done].
Qed.

(** Later files use the lemmas above, not the loops. *)
#[global] Opaque memset memmove memcpy strncmp strncpy safestrcpy.

Lemma memmove_block_copy_witness :
  rd (memmove (wr_list ∅ 100 [1; 2; 3]) 101 100 3) 103 =
  rd (wr_list (wr_list ∅ 100 [1; 2; 3]) 101 (rd_list (wr_list ∅ 100 [1; 2; 3]) 100 3)) 103.
Proof.
  apply (memmove_block_copy (wr_list ∅ 100 [1; 2; 3]) 101 100 3 103).
  - apply mem_ok_wr_list, mem_ok_empty.
  - lia.
Defined.

Lemma safestrcpy_terminates_string_witness :
  let m := wr_list ∅ 100 [104; 105; 33; 0] in
  cstrn (safestrcpy m 200 100 3) 200 3 = [104; 105] /\ rd (safestrcpy m 200 100 3) 202 = 0.
Proof.
  intros m.
  destruct (safestrcpy_terminates_string m 200 100 3) as (H1 & _ & H2 & _).
  - apply mem_ok_wr_list, mem_ok_empty.
  - lia.
  - right. lia.
  - split; [exact H1|exact H2].
Defined.
