(* ===== verification/Kalloc.v ===== *)
(** * The physical page allocator (kernel/kalloc.c)

    The free list is threaded through the free pages themselves: [struct run]'s
    [next] pointer is the first word of a free page.  The theorems relate it to the
    set of free pages. *)
From S2P Require Import Prelude Memory Machine Riscv KString.

(** Symbols the linker defines (kernel/kernel.ld): the end of the kernel image, the
    end of its text and the trampoline page. *)
Class KernelImage := {
  k_end : Z;
  k_etext : Z;
  k_trampoline : Z;
  k_etext_range : KERNBASE < k_etext <= k_end;
  k_etext_aligned : page_aligned k_etext;
  k_trampoline_range : KERNBASE <= k_trampoline < k_etext;
  k_trampoline_aligned : page_aligned k_trampoline;
  k_end_range : k_end < PHYSTOP;
}.

(** Physical memory and [kmem]. *)
Record pmem := PMem { pm : mem; freelist : Z }.

Definition set_pm (m : mem) (s : pmem) : pmem := PMem m (freelist s).
Definition set_freelist (p : Z) (s : pmem) : pmem := PMem (pm s) p.

Section Kalloc.
Context {image : KernelImage}.

Definition kfree (pa : Z) : M pmem unit :=
  if negb (pa mod PGSIZE =? 0) || (pa <? k_end) || (PHYSTOP <=? pa) then panic "kfree" else
  (* Fill with junk to catch dangling refs. *)
  modify (fun s => set_pm (memset (pm s) pa 1 PGSIZE) s) ;;
  acquire LKmem ;;
  modify (fun s => set_pm (store64 (pm s) pa (freelist s)) s) ;;
  modify (set_freelist pa) ;;
  release LKmem.

Definition kalloc : M pmem Z :=
  acquire LKmem ;;
  r <- gets freelist ;;
  when (truth r) (modify (fun s => set_freelist (load64 (pm s) r) s)) ;;
  release LKmem ;;
  when (truth r) (modify (fun s => set_pm (memset (pm s) r 5 PGSIZE) s)) ;;
  ret r.

Fixpoint freerange_loop (k : nat) (p pa_end : Z) : M pmem unit :=
  if p + PGSIZE <=? pa_end then
    match k with
    | O => fun _ _ => Diverge
    | S k' => kfree p ;; freerange_loop k' (p + PGSIZE) pa_end
    end
  else ret tt.

Definition freerange (pa_start pa_end : Z) : M pmem unit :=
  let p := PGROUNDUP pa_start in
  freerange_loop (Z.to_nat ((pa_end - p) / PGSIZE)) p pa_end.

Definition kinit : M pmem unit :=
  initlock LKmem ;;
  freerange k_end PHYSTOP.

(** ** The free list and what it represents *)

(** A page the allocator may hand out. *)
Definition free_page (p : Z) : Prop := page_aligned p /\ k_end <= p < PHYSTOP.

(** The list of pages linked from [p]. *)
Fixpoint free_list (m : mem) (p : Z) (l : list Z) : Prop :=
  match l with
  | [] => p = 0
  | q :: l' => p = q /\ free_page q /\ free_list m (load64 m q) l'
  end.

(** The allocator's invariant; [l] is the abstract state: the free pages. *)
Definition kmem_ok (s : pmem) (l : list Z) : Prop :=
  mem_ok (pm s) /\ free_list (pm s) (freelist s) l /\ NoDup l.

(** The bytes of a page. *)
Definition in_page (p x : Z) : Prop := within p PGSIZE x.

(** Only bytes of the pages [l] may differ. *)
Definition changes_in (l : list Z) (m m' : mem) : Prop := forall x, (forall q, q ∈ l -> ~ in_page q x) -> rd m' x = rd m x.

Lemma changes_in_mono l l' m m' : l ⊆ l' -> changes_in l m m' -> changes_in l' m m'.
Proof. intros Hl H x Hx. apply H. auto. Qed.

Lemma changes_in_trans l m1 m2 m3 : changes_in l m1 m2 -> changes_in l m2 m3 -> changes_in l m1 m3.
Proof. intros H1 H2 x Hx. rewrite H2 by done. by apply H1. Qed.

Lemma free_page_bounds p : free_page p -> 2147483648 < p < 2281701376.
Proof.
  intros [_ H]. pose proof k_etext_range. unfold KERNBASE, PHYSTOP in *.
  unfold KERNBASE in H. lia.
Qed.

Lemma free_page_nonzero p : free_page p -> p <> 0.
Proof. intros H%free_page_bounds. lia. Qed.

Lemma aligned_disjoint p q x :
  page_aligned p -> page_aligned q -> p <> q -> in_page p x -> ~ in_page q x.
Proof. unfold page_aligned, in_page, within, PGSIZE. intros. dlia. Qed.

Lemma free_list_agree m1 m2 p l :
  (forall q, q ∈ l -> agree_on (in_page q) m1 m2) ->
  free_list m1 p l -> free_list m2 p l.
Proof.
  revert p. induction l as [|q l IH]; intros p H; simpl; [done|].
  intros (-> & Hq & Hl). split; [done|]. split; [done|].
  rewrite <- (load_agree 8 m1 m2).
  - apply IH; [|done]. intros q' Hq'. apply H. by right.
  - eapply agree_on_mono; [|apply H; left]. unfold in_page, within, PGSIZE. simpl. lia.
Qed.

Lemma free_list_pages m p l : free_list m p l -> Forall free_page l.
Proof.
  revert p. induction l as [|q l IH]; intros p H; constructor; simpl in H; [tauto|].
  destruct H as (_ & _ & H). eauto.
Qed.

Lemma agree_memset_page m p c q :
  page_aligned p -> page_aligned q -> p <> q ->
  agree_on (in_page q) m (memset m p c PGSIZE).
Proof.
  intros Hp Hq Hne x Hx. rewrite rd_memset_out; [done|unfold PGSIZE; lia|].
  intros Hx'. eapply aligned_disjoint; [exact Hp|exact Hq|done|exact Hx'|exact Hx].
Qed.

Lemma agree_store_page n m p o v q :
  0 <= o -> o + Z.of_nat n <= PGSIZE ->
  page_aligned p -> page_aligned q -> p <> q ->
  agree_on (in_page q) m (store n m (p + o) v).
Proof.
  intros Ho Hn Hp Hq Hne x Hx. symmetry. apply rd_store_out. intros Hx'.
  eapply aligned_disjoint; [exact Hp|exact Hq|done| |exact Hx].
  unfold in_page, within in *. lia.
Qed.

(** The states [kalloc] and [kfree] leave. *)
Definition kalloc_state (s : pmem) (p : Z) : pmem :=
  PMem (memset (pm s) p 5 PGSIZE) (load64 (pm s) p).
Definition kfree_state (s : pmem) (p : Z) : pmem :=
  PMem (store64 (memset (pm s) p 1 PGSIZE) p (freelist s)) p.

Section Operations.
Context (c : ctx) (Hc : ctx_ok c) (Hfree : LKmem ∉ c_held c).

Lemma kalloc_empty s : kmem_ok s [] -> kalloc c s = Done 0 (settle c) s.
Proof using Hc Hfree.
  intros (_ & H0 & _). simpl in H0. unfold kalloc. kstep (acquire_run LKmem c s Hfree).
  krun. rewrite H0. krun. kstep (release_enter LKmem c s Hc Hfree). done.
Qed.

Lemma kalloc_page s p l :
  kmem_ok s (p :: l) ->
  kalloc c s = Done p (settle c) (kalloc_state s p) /\ kmem_ok (kalloc_state s p) l.
Proof using Hc Hfree.
  intros (Hm & (Hp & Hpage & Hl) & Hnd). apply NoDup_cons in Hnd as [Hin Hnd].
  assert (truth p = true) as Ht.
  { unfold truth. apply free_page_nonzero in Hpage. zcase (p =? 0); done. }
  split.
  - unfold kalloc. kstep (acquire_run LKmem c s Hfree). krun. rewrite Hp, Ht. krun.
    kstep (release_enter LKmem c _ Hc Hfree). done.
  - split; [by apply mem_ok_memset|]. split; [|done]. cbn [kalloc_state pm freelist].
    eapply free_list_agree; [|exact Hl]. intros q Hq.
    apply free_list_pages in Hl. rewrite Forall_forall in Hl. specialize (Hl q Hq).
    apply agree_memset_page; [apply Hpage|apply Hl|congruence].
Qed.

Lemma kfree_page s p l :
  kmem_ok s l -> free_page p -> p ∉ l ->
  kfree p c s = Done tt (settle c) (kfree_state s p) /\ kmem_ok (kfree_state s p) (p :: l).
Proof using Hc Hfree.
  intros (Hm & Hl & Hnd) Hp Hin. pose proof Hp as [Ha Hr]. split.
  - unfold kfree. unfold page_aligned in Ha. rewrite Ha, Z.eqb_refl. cbn [negb orb].
    zcase (p <? k_end); [lia|]. zcase (PHYSTOP <=? p); [lia|]. cbn [orb]. krun.
    kstep (acquire_run LKmem c _ Hfree). krun. by rewrite (release_enter LKmem c _ Hc Hfree).
  - split; [by apply mem_ok_store, mem_ok_memset|]. split; [|by apply NoDup_cons].
    cbn [kfree_state pm freelist free_list]. split; [done|]. split; [done|].
    rewrite load64_store64.
    + eapply free_list_agree; [|exact Hl]. intros q Hq.
      pose proof (free_list_pages _ _ _ Hl) as Hall. rewrite Forall_forall in Hall.
      destruct (Hall q Hq) as [Hqa _].
      etrans; [apply (agree_memset_page _ p 1); [done|done|congruence]|].
      rewrite <- (Z.add_0_r p) at 3.
      apply agree_store_page; unfold PGSIZE; (done || lia || congruence).
    + destruct l as [|q l]; simpl in Hl; [lia|]. destruct Hl as (-> & Hq & _).
      apply free_page_bounds in Hq. lia.
Qed.

Lemma kfree_bad s p : ~ free_page p -> kfree p c s = Panic "kfree".
Proof.
  intros H. unfold kfree. zcase (p mod PGSIZE =? 0) as E; [|done]. cbn [negb orb].
  zcase (p <? k_end); [done|]. zcase (PHYSTOP <=? p); [done|]. cbn [orb].
  exfalso. apply H. split; [done|lia].
Qed.

(** [k] consecutive page addresses from [p]. *)
Fixpoint page_run (p : Z) (k : nat) : list Z :=
  match k with
  | O => []
  | S k' => p :: page_run (p + PGSIZE) k'
  end.

Lemma elem_of_page_run p k q :
  q ∈ page_run p k <-> exists i, 0 <= i < Z.of_nat k /\ q = p + PGSIZE * i.
Proof.
  revert p. induction k as [|k IH]; intros p; simpl.
  - split; [by intros ?%elem_of_nil|]. intros (i & Hi & _). lia.
  - rewrite elem_of_cons, IH. split.
    + intros [->|(i & Hi & ->)]; [exists 0; lia|]. exists (i + 1). lia.
    + intros (i & Hi & ->). destruct (decide (i = 0)) as [->|]; [left; lia|].
      right. exists (i - 1). lia.
Qed.

Lemma freerange_loop_run k p pa_end s l :
  settle c = c ->
  kmem_ok s l -> (forall q, q ∈ page_run p k -> free_page q /\ q ∉ l) ->
  p + PGSIZE * Z.of_nat k <= pa_end < p + PGSIZE * Z.of_nat k + PGSIZE ->
  exists s', freerange_loop k p pa_end c s = Done tt c s' /\
             kmem_ok s' (reverse (page_run p k) ++ l) /\ changes_in (page_run p k) (pm s) (pm s').
Proof using Hc Hfree.
  intros Hs. revert p s l. induction k as [|k IH]; intros p s l Hok Hpages Hend.
  - exists s. simpl. unfold PGSIZE in *. zcase (p + 4096 <=? pa_end); [lia|done].
  - simpl freerange_loop. zcase (p + PGSIZE <=? pa_end) as E; [|unfold PGSIZE in *; lia].
    destruct (Hpages p) as [Hp Hnin]; [left|].
    destruct (kfree_page s p l Hok Hp Hnin) as [Hrun Hok1]. rewrite Hs in Hrun.
    destruct (IH (p + PGSIZE) (kfree_state s p) (p :: l)) as (s' & Hrun' & Hok' & Hch).
    + done.
    + intros q Hq. destruct (Hpages q) as [Hq1 Hq2]; [by right|]. split; [done|].
      apply not_elem_of_cons. split; [|done]. apply elem_of_page_run in Hq as (i & Hi & ->).
      unfold PGSIZE. lia.
    + lia.
    + exists s'. kstep Hrun. rewrite Hrun'. split; [done|]. simpl. split; [by rewrite reverse_cons, <- app_assoc|].
      apply (changes_in_trans _ _ (pm (kfree_state s p))); [|by eapply changes_in_mono, Hch; set_solver].
      intros x Hx. cbn [kfree_state pm]. pose proof (Hx p ltac:(left)) as Hpx.
      rewrite rd_store_out, rd_memset_out; [done|unfold PGSIZE; lia|exact Hpx|]. unfold in_page, within, PGSIZE in *. simpl. lia.
Qed.

End Operations.

(** ** Properties *)

(** [kalloc] hands out a page of the free list, filled with 5s, and changes
    no other byte; on an empty free list it returns 0 and changes nothing. *)
Theorem kalloc_correct c s l :
  ctx_ok c -> LKmem ∉ c_held c -> kmem_ok s l ->
  match l with
  | [] => kalloc c s = Done 0 (settle c) s
  | p :: l' => exists s',
      kalloc c s = Done p (settle c) s' /\ kmem_ok s' l' /\ free_page p /\ (p ∉ l') /\
      (forall x, in_page p x -> rd (pm s') x = 5) /\
      (forall x, ~ in_page p x -> rd (pm s') x = rd (pm s) x)
  end.
Proof.
  intros Hc Hk Hok. destruct l as [|p l]; [by apply kalloc_empty|].
  destruct (kalloc_page c Hc Hk s p l Hok) as [Hrun Hok'].
  destruct Hok as (_ & (_ & Hp & _) & [Hin _]%NoDup_cons).
  exists (kalloc_state s p). split; [done|]. split; [done|]. split; [done|]. split; [done|].
  split; intros x Hx; simpl.
  - apply rd_memset_in; [unfold PGSIZE; lia|exact Hx].
  - apply rd_memset_out; [unfold PGSIZE; lia|exact Hx].
Qed.

(** [kfree] accepts exactly the page-aligned addresses of the kernel's page area:
    it panics on any other, and puts such a page, if it is not already free, at the
    head of the free list, changing no byte outside it. *)
Theorem kfree_correct c s l p :
  ctx_ok c -> LKmem ∉ c_held c -> kmem_ok s l -> p ∉ l ->
  (~ free_page p -> kfree p c s = Panic "kfree") /\
  (free_page p -> exists s',
     kfree p c s = Done tt (settle c) s' /\ kmem_ok s' (p :: l) /\
     (forall x, ~ in_page p x -> rd (pm s') x = rd (pm s) x)).
Proof.
  intros Hc Hk Hok Hin. split; [intros; by apply kfree_bad|]. intros Hp.
  destruct (kfree_page c Hc Hk s p l Hok Hp Hin) as [Hrun Hok'].
  exists (kfree_state s p). split; [done|]. split; [done|]. intros x Hx. simpl.
  rewrite rd_store_out, rd_memset_out; [done|unfold PGSIZE; lia|exact Hx|].
  unfold in_page, within, PGSIZE in *. simpl. lia.
Qed.

(** starting from the zeroed [kmem] of a booting kernel, [kinit] terminates and
    leaves a free list that holds every page of the page area exactly once, and changes no
    byte outside the page area. *)
Theorem kinit_frees_every_page c s :
  ctx_ok c -> settle c = c -> LKmem ∉ c_held c -> mem_ok (pm s) -> freelist s = 0 ->
  exists s' l, kinit c s = Done tt c s' /\ kmem_ok s' l /\ (forall p, p ∈ l <-> free_page p) /\ changes_in l (pm s) (pm s').
Proof.
  intros Hc Hs Hk Hm H0. unfold kinit, initlock. krun.
  assert (set_held (remove_lock LKmem (c_held c)) c = c) as ->.
  { rewrite remove_lock_notin by done. by destruct c. }
  pose proof k_etext_range as Hr1. pose proof k_end_range as Hr2.
  assert (0 <= k_end < 18446744073709547521) as Hrange by (unfold KERNBASE, PHYSTOP, KERNBASE in *; lia).
  destruct (PGROUNDUP_spec k_end Hrange) as [Ha Hup].
  set (p := PGROUNDUP k_end) in *. set (k := Z.to_nat ((PHYSTOP - p) / PGSIZE)).
  assert (p <= PHYSTOP) as Hle.
  { clear k. unfold page_aligned, PGSIZE, PHYSTOP, KERNBASE in *. dlia. }
  assert (PGSIZE * Z.of_nat k = PHYSTOP - p) as Hk'.
  { unfold k. rewrite Z2Nat.id by (unfold PGSIZE; dlia).
    unfold page_aligned, PGSIZE, PHYSTOP, KERNBASE in *. clear k. dlia. }
  assert (forall q, q ∈ page_run p k <-> free_page q) as Hpages.
  { intros q. rewrite elem_of_page_run. unfold free_page, page_aligned in *. split.
    - intros (i & Hi & ->). unfold PGSIZE in *. split; [dlia|lia].
    - intros [Hqa Hq]. exists ((q - p) / PGSIZE).
      unfold PGSIZE in *. clearbody p k. split; dlia. }
  destruct (freerange_loop_run c Hc Hk k p PHYSTOP s [] Hs) as (s' & Hrun & Hok & Hch).
  - split; [done|]. split; [done|]. constructor.
  - intros q Hq. split; [by apply Hpages|]. by intros ?%elem_of_nil.
  - unfold PGSIZE in *. lia.
  - exists s', (reverse (page_run p k)). rewrite app_nil_r in Hok.
    split; [exact Hrun|]. split; [done|]. split; [intros q; rewrite elem_of_reverse; apply Hpages|].
    eapply changes_in_mono; [|exact Hch]. intros q Hq. by apply elem_of_reverse.
Qed.

End Kalloc.

(** The image the repository's build produced (kernel/kernel.sym). *)
#[export] Instance xv6_image : KernelImage.
Proof.
  refine {| k_end := 0x80021f80; k_etext := 0x80008000; k_trampoline := 0x80007000 |};
    unfold KERNBASE, PHYSTOP, page_aligned, PGSIZE, KERNBASE; reflexivity || lia.
Defined.

(** A thread in a system call: interrupts on, no lock held. *)
Definition idle_ctx : ctx := Ctx 2 0 true [] 0 1 0x3fffffd000 8 [].

(** The same before [intr_on], as in main(). *)
Definition boot_ctx : ctx := Ctx 0 0 false [] 0 0 0x80009000 8 [].

Lemma idle_ctx_ok : ctx_ok idle_ctx.
Proof. split; simpl; lia. Qed.
Lemma boot_ctx_ok : ctx_ok boot_ctx.
Proof. split; simpl; lia. Qed.

(** One free page. *)
Definition one_page : pmem := PMem ∅ 0x80022000.

Lemma one_page_ok : kmem_ok one_page [0x80022000].
Proof.
  split; [apply mem_ok_empty|]. split; [|by apply NoDup_singleton].
  simpl. split; [done|]. split; [|vm_compute; reflexivity].
  split; [reflexivity|]. simpl. unfold PHYSTOP, KERNBASE. lia.
Qed.

Lemma kalloc_correct_witness : exists s',
  kalloc idle_ctx one_page = Done 0x80022000 idle_ctx s' /\ kmem_ok s' [].
Proof.
  destruct (kalloc_correct idle_ctx one_page [0x80022000] idle_ctx_ok) as (s' & H1 & H2 & _).
  - by intros ?%elem_of_nil.
  - apply one_page_ok.
  - exists s'. split; [exact H1|exact H2].
Defined.

Lemma kfree_correct_witness : exists s',
  kfree 0x80023000 idle_ctx one_page = Done tt idle_ctx s' /\ kmem_ok s' [0x80023000; 0x80022000].
Proof.
  destruct (kfree_correct idle_ctx one_page [0x80022000] 0x80023000 idle_ctx_ok) as (_ & H).
  - by intros ?%elem_of_nil.
  - apply one_page_ok.
  - by intros ?%list_elem_of_singleton.
  - destruct H as (s' & H1 & H2 & _).
    + split; [reflexivity|]. simpl. unfold PHYSTOP, KERNBASE. lia.
    + exists s'. split; [exact H1|exact H2].
Defined.

Lemma kinit_frees_every_page_witness : exists s' l,
  kinit boot_ctx (PMem ∅ 0) = Done tt boot_ctx s' /\ kmem_ok s' l /\
  (forall p, p ∈ l <-> free_page p) /\ changes_in l ∅ (pm s').
Proof.
  apply (kinit_frees_every_page boot_ctx (PMem ∅ 0)).
  - apply boot_ctx_ok.
  - reflexivity.
  - by intros ?%elem_of_nil.
  - apply mem_ok_empty.
  - reflexivity.
Defined.
