(* ===== verification/Vm.v ===== *)
(** * Virtual memory (kernel/vm.c): the operations

    Page tables live in flat memory: a page-table page is 512 little-endian 64-bit
    entries, and [walk] returns the address of an entry.  C's null pointer is 0.
    Kernel buffers that [copyout], [copyin] and [copyinstr] copy from or to are
    passed and returned by value, as lists of bytes; [uvmfirst]'s source is an
    address.  Loops that step through addresses carry a bound that covers every
    iteration the loop can make. *)
From S2P Require Import Prelude Memory Machine Riscv KString Kalloc.

(** The address of entry [i] of a page-table page. *)
Definition slot (pagetable i : Z) : Z := pagetable + 8 * i.

Definition mload64 (a : Z) : M pmem Z := gets (fun s => load64 (pm s) a).
Definition mstore64 (a v : Z) : M pmem unit := modify (fun s => set_pm (store64 (pm s) a v) s).
Definition mmemset (a c n : Z) : M pmem unit := modify (fun s => set_pm (memset (pm s) a c n) s).
Definition mmemmove (d s n : Z) : M pmem unit :=
  modify (fun st => set_pm (memmove (pm st) d s n) st).
Definition diverge {S A} : M S A := fun _ _ => Diverge.

Section Vm.
Context {image : KernelImage}.

(** ** Walking a page table *)

Fixpoint walk_loop (level : nat) (pagetable va : Z) (alloc : bool) : M pmem Z :=
  match level with
  | O => ret (slot pagetable (PX 0 va))
  | S level' =>
      let pte := slot pagetable (PX (Z.of_nat level) va) in
      e <- mload64 pte ;;
      if truth (Z.land e PTE_V) then walk_loop level' (PTE2PA e) va alloc
      else if negb alloc then ret 0
      else
        page <- kalloc ;;
        if page =? 0 then ret 0
        else
          mmemset page 0 PGSIZE ;;
          mstore64 pte (Z.lor (PA2PTE page) PTE_V) ;;
          walk_loop level' page va alloc
  end.

Definition walk (pagetable va : Z) (alloc : bool) : M pmem Z :=
  if MAXVA <=? va then panic "walk" else walk_loop 2 pagetable va alloc.

Definition walkaddr (pagetable va : Z) : M pmem Z :=
  if MAXVA <=? va then ret 0 else
  pte <- walk pagetable va false ;;
  if pte =? 0 then ret 0 else
  e <- mload64 pte ;;
  if negb (truth (Z.land e PTE_V)) then ret 0 else
  if negb (truth (Z.land e PTE_U)) then ret 0 else
  ret (PTE2PA e).

(** ** Mapping and unmapping *)

Fixpoint mappages_loop (k : nat) (pagetable a last pa perm : Z) : M pmem Z :=
  pte <- walk pagetable a true ;;
  if pte =? 0 then ret (-1) else
  e <- mload64 pte ;;
  if truth (Z.land e PTE_V) then panic "mappages: remap" else
  mstore64 pte (Z.lor (Z.lor (PA2PTE pa) perm) PTE_V) ;;
  if a =? last then ret 0 else
  match k with
  | O => diverge
  | S k' => mappages_loop k' pagetable (u64 (a + PGSIZE)) last (u64 (pa + PGSIZE)) perm
  end.

(** The iterations after the first: up to [last], or until [walk] panics at [MAXVA]. *)
Definition mappages_bound (a last : Z) : nat :=
  Z.to_nat (if a <=? last then (last - a) / PGSIZE else (MAXVA - a) / PGSIZE + 1).

Definition mappages (pagetable va size pa perm : Z) : M pmem Z :=
  if size =? 0 then panic "mappages: size" else
  let a := PGROUNDDOWN va in
  let last := PGROUNDDOWN (u64 (va + size - 1)) in
  mappages_loop (mappages_bound a last) pagetable a last pa perm.

Definition kvmmap (kpgtbl va pa sz perm : Z) : M pmem unit :=
  r <- mappages kpgtbl va sz pa perm ;;
  if negb (r =? 0) then panic "kvmmap" else ret tt.

Fixpoint uvmunmap_loop (k : nat) (pagetable a aend : Z) (do_free : bool) : M pmem unit :=
  if a <? aend then
    match k with
    | O => diverge
    | S k' =>
        pte <- walk pagetable a false ;;
        if pte =? 0 then panic "uvmunmap: walk" else
        e <- mload64 pte ;;
        if negb (truth (Z.land e PTE_V)) then panic "uvmunmap: not mapped" else
        if PTE_FLAGS e =? PTE_V then panic "uvmunmap: not a leaf" else
        when do_free (kfree (PTE2PA e)) ;;
        mstore64 pte 0 ;;
        uvmunmap_loop k' pagetable (u64 (a + PGSIZE)) aend do_free
    end
  else ret tt.

Definition uvmunmap (pagetable va npages : Z) (do_free : bool) : M pmem unit :=
  if negb (va mod PGSIZE =? 0) then panic "uvmunmap: not aligned" else
  uvmunmap_loop (Z.to_nat npages) pagetable va (u64 (va + npages * PGSIZE)) do_free.

(** ** User address spaces *)

Definition uvmcreate : M pmem Z :=
  pagetable <- kalloc ;;
  if pagetable =? 0 then ret 0 else
  mmemset pagetable 0 PGSIZE ;;
  ret pagetable.

Definition uvmfirst (pagetable src sz : Z) : M pmem unit :=
  if PGSIZE <=? sz then panic "uvmfirst: more than a page" else
  page <- kalloc ;;
  mmemset page 0 PGSIZE ;;
  mappages pagetable 0 PGSIZE page (Z.lor (Z.lor (Z.lor PTE_W PTE_R) PTE_X) PTE_U) ;;
  mmemmove page src sz.

Definition uvmdealloc (pagetable oldsz newsz : Z) : M pmem Z :=
  if oldsz <=? newsz then ret oldsz else
  (if PGROUNDUP newsz <? PGROUNDUP oldsz then
     let npages := s32 ((PGROUNDUP oldsz - PGROUNDUP newsz) / PGSIZE) in
     uvmunmap pagetable (PGROUNDUP newsz) (u64 npages) true
   else ret tt) ;;
  ret newsz.

Fixpoint uvmalloc_loop (k : nat) (pagetable a oldsz newsz xperm : Z) : M pmem Z :=
  if a <? newsz then
    match k with
    | O => diverge
    | S k' =>
        page <- kalloc ;;
        if page =? 0 then
          uvmdealloc pagetable a oldsz ;; ret 0
        else
          mmemset page 0 PGSIZE ;;
          r <- mappages pagetable a PGSIZE page (Z.lor (Z.lor PTE_R PTE_U) xperm) ;;
          if negb (r =? 0) then
            kfree page ;;
            uvmdealloc pagetable a oldsz ;;
            ret 0
          else uvmalloc_loop k' pagetable (u64 (a + PGSIZE)) oldsz newsz xperm
    end
  else ret newsz.

Definition uvmalloc (pagetable oldsz newsz xperm : Z) : M pmem Z :=
  if newsz <? oldsz then ret oldsz else
  let oldsz := PGROUNDUP oldsz in
  uvmalloc_loop (Z.to_nat ((newsz - oldsz) / PGSIZE + 1)) pagetable oldsz oldsz newsz xperm.

(** The loop over the entries of one table. *)
Fixpoint freewalk_entries (freewalk : Z -> M pmem unit) (pagetable : Z) (k : nat) (i : Z) : M pmem unit :=
  match k with
  | O => ret tt
  | S k' =>
      pte <- mload64 (slot pagetable i) ;;
      (if truth (Z.land pte PTE_V) &&
          (Z.land pte (Z.lor (Z.lor PTE_R PTE_W) PTE_X) =? 0)
       then
         (* this PTE points to a lower-level page table. *)
         freewalk (PTE2PA pte) ;;
         mstore64 (slot pagetable i) 0
       else if truth (Z.land pte PTE_V) then panic "freewalk: leaf"
       else ret tt) ;;
      freewalk_entries freewalk pagetable k' (i + 1)
  end.

(** Recursion over the levels of the tree; [depth] bounds it. *)
Fixpoint freewalk (depth : nat) (pagetable : Z) : M pmem unit :=
  match depth with
  | O => diverge
  | S depth' =>
      freewalk_entries (freewalk depth') pagetable 512 0 ;;
      kfree pagetable
  end.

(** An Sv39 tree has three levels. *)
Definition uvmfree (pagetable sz : Z) : M pmem unit :=
  when (0 <? sz) (uvmunmap pagetable 0 (PGROUNDUP sz / PGSIZE) true) ;;
  freewalk 3 pagetable.

Definition uvmcopy_err (new i : Z) : M pmem Z :=
  uvmunmap new 0 (i / PGSIZE) true ;;
  ret (-1).

Fixpoint uvmcopy_loop (k : nat) (old new i sz : Z) : M pmem Z :=
  if i <? sz then
    match k with
    | O => diverge
    | S k' =>
        pte <- walk old i false ;;
        if pte =? 0 then panic "uvmcopy: pte should exist" else
        e <- mload64 pte ;;
        if negb (truth (Z.land e PTE_V)) then panic "uvmcopy: page not present" else
        let pa := PTE2PA e in
        let flags := u32 (PTE_FLAGS e) in
        page <- kalloc ;;
        if page =? 0 then uvmcopy_err new i else
        mmemmove page pa PGSIZE ;;
        r <- mappages new i PGSIZE page flags ;;
        if negb (r =? 0) then
          kfree page ;;
          uvmcopy_err new i
        else uvmcopy_loop k' old new (u64 (i + PGSIZE)) sz
    end
  else ret 0.

Definition uvmcopy (old new sz : Z) : M pmem Z :=
  uvmcopy_loop (Z.to_nat ((sz + PGSIZE - 1) / PGSIZE)) old new 0 sz.

Definition uvmclear (pagetable va : Z) : M pmem unit :=
  pte <- walk pagetable va false ;;
  if pte =? 0 then panic "uvmclear" else
  e <- mload64 pte ;;
  mstore64 pte (Z.land e (Z.lnot PTE_U)).

(** ** Copying between kernel and user *)

Fixpoint copyout_loop (k : nat) (pagetable dstva : Z) (src : list Z) : M pmem Z :=
  if 0 <? zlen src then
    match k with
    | O => diverge
    | S k' =>
        let va0 := PGROUNDDOWN dstva in
        pa0 <- walkaddr pagetable va0 ;;
        if pa0 =? 0 then ret (-1) else
        let n := PGSIZE - (dstva - va0) in
        let n := if zlen src <? n then zlen src else n in
        modify (fun s => set_pm (wr_list (pm s) (pa0 + (dstva - va0)) (take (Z.to_nat n) src)) s) ;;
        copyout_loop k' pagetable (u64 (va0 + PGSIZE)) (drop (Z.to_nat n) src)
    end
  else ret 0.

Definition copyout (pagetable dstva : Z) (src : list Z) : M pmem Z :=
  copyout_loop (length src) pagetable dstva src.

(** Returns the status and the bytes stored at [dst]. *)
Fixpoint copyin_loop (k : nat) (pagetable : Z) (dst : list Z) (srcva len : Z) : M pmem (Z * list Z) :=
  if 0 <? len then
    match k with
    | O => diverge
    | S k' =>
        let va0 := PGROUNDDOWN srcva in
        pa0 <- walkaddr pagetable va0 ;;
        if pa0 =? 0 then ret (-1, dst) else
        let n := PGSIZE - (srcva - va0) in
        let n := if len <? n then len else n in
        bytes <- gets (fun s => rd_list (pm s) (pa0 + (srcva - va0)) (Z.to_nat n)) ;;
        copyin_loop k' pagetable (dst ++ bytes) (u64 (va0 + PGSIZE)) (len - n)
    end
  else ret (0, dst).

Definition copyin (pagetable srcva len : Z) : M pmem (Z * list Z) :=
  copyin_loop (Z.to_nat len) pagetable [] srcva len.

(** The inner loop of [copyinstr] on one page: the bytes stored at [dst], whether a
    NUL was found, and what is left of [max]. *)
Fixpoint copyinstr_page (m : mem) (n : nat) (p : Z) (dst : list Z) (max : Z) : list Z * bool * Z :=
  match n with
  | O => (dst, false, max)
  | S n' =>
      if rd m p =? 0 then (dst ++ [0], true, max)
      else copyinstr_page m n' (p + 1) (dst ++ [rd m p]) (max - 1)
  end.

Fixpoint copyinstr_loop (k : nat) (pagetable : Z) (dst : list Z) (srcva max : Z) : M pmem (Z * list Z) :=
  if 0 <? max then
    match k with
    | O => diverge
    | S k' =>
        let va0 := PGROUNDDOWN srcva in
        pa0 <- walkaddr pagetable va0 ;;
        if pa0 =? 0 then ret (-1, dst) else
        let n := PGSIZE - (srcva - va0) in
        let n := if max <? n then max else n in
        r <- gets (fun s => copyinstr_page (pm s) (Z.to_nat n) (pa0 + (srcva - va0)) dst max) ;;
        match (r : list Z * bool * Z) with
        | (dst, true, _) => ret (0, dst)
        | (dst, false, max) => copyinstr_loop k' pagetable dst (u64 (va0 + PGSIZE)) max
        end
    end
  else ret (-1, dst).

Definition copyinstr (pagetable srcva max : Z) : M pmem (Z * list Z) :=
  copyinstr_loop (Z.to_nat max) pagetable [] srcva max.

End Vm.

#[global] Arguments walk : simpl never.
#[global] Arguments mappages_bound : simpl never.
