(* ===== verification/VmProps.v ===== *)
(** * Virtual memory: what the operations of [Vm] do

    A page table is described by a ghost tree [T]: a map from index paths to
    page-table pages ([[]] is the root, [[i2]] the level-1 table under root entry
    [i2], [[i2; i1]] a level-0 table).  [pt_rep m T] says that memory [m] holds that
    tree, and [leaf m T va] is the entry it gives virtual address [va]: the abstract
    state of an address space is the function [leaf m T]. *)
From S2P Require Import Prelude Memory Machine Riscv KString Kalloc Vm.

Abbreviation ptree := (gmap (list Z) Z).

(** The pages a tree occupies. *)
Definition pt_pages (T : ptree) : list Z := (map_to_list T).*2.

(** The path of the level-[l] table that [va] goes through. *)
Definition vpath (level : nat) (va : Z) : list Z :=
  match level with
  | O => [PX 2 va; PX 1 va]
  | S O => [PX 2 va]
  | _ => []
  end.

(** Addresses below [MAXVA] use half of the root table's entries. *)
Definition fanout (path : list Z) : Z := match path with [] => 256 | _ => 512 end.

Lemma fanout_le path : fanout path <= 512.
Proof. by destruct path. Qed.

Definition pt_rep (m : mem) (T : ptree) : Prop :=
  (forall path p i, T !! path = Some p -> (length path < 2)%nat -> 0 <= i < 512 ->
     load64 m (slot p i) =
       match T !! (path ++ [i]) with Some q => Z.lor (PA2PTE q) PTE_V | None => 0 end) /\
  (forall path i q, T !! (path ++ [i]) = Some q ->
     is_Some (T !! path) /\ (length path < 2)%nat /\ 0 <= i < fanout path).

Definition leaf_slot (T : ptree) (va : Z) : option Z :=
  (fun q => slot q (PX 0 va)) <$> T !! vpath 0 va.

Definition leaf (m : mem) (T : ptree) (va : Z) : Z :=
  match leaf_slot T va with Some a => load64 m a | None => 0 end.

Section VmProps.
Context {image : KernelImage}.

(** The tree's pages are pages of the allocator's area, distinct from each other
    and from the pages of [l] (the free pages, say). *)
Definition pt_own (T : ptree) (l : list Z) : Prop :=
  NoDup (pt_pages T ++ l) /\ Forall free_page (pt_pages T).

(** ** Entries in memory *)

Lemma free_page_56 p : free_page p -> 0 <= p < 2 ^ 56.
Proof. intros H%free_page_bounds. change (2 ^ 56) with 72057594037927936. lia. Qed.

Lemma free_page_aligned p : free_page p -> page_aligned p.
Proof. by intros []. Qed.

Lemma slot_in_page p i x : 0 <= i < 512 -> within (slot p i) 8 x -> in_page p x.
Proof. unfold within, slot, in_page, within, PGSIZE. lia. Qed.

Lemma pte_V_of_page p : truth (Z.land (Z.lor (PA2PTE p) PTE_V) PTE_V) = true.
Proof. apply pte_has_V_lor. Qed.

Lemma PTE2PA_of_page p : free_page p -> PTE2PA (Z.lor (PA2PTE p) PTE_V) = p.
Proof.
  intros H. apply PTE2PA_of_pa; [by apply free_page_56|by apply free_page_aligned|].
  change PTE_V with 1. lia.
Qed.

Lemma pte_of_page_range p :
  free_page p -> 0 <= Z.lor (PA2PTE p) PTE_V < 18446744073709551616.
Proof.
  intros H. rewrite pte_of_pa_eq; [|by apply free_page_56|change PTE_V with 1; lia].
  apply free_page_bounds in H. change PTE_V with 1. dlia.
Qed.

Lemma load_slot_agree m1 m2 p i :
  0 <= i < 512 -> agree_on (in_page p) m1 m2 -> load64 m1 (slot p i) = load64 m2 (slot p i).
Proof.
  intros Hi H. apply load_agree. intros x Hx. apply H. by eapply slot_in_page.
Qed.

Lemma load_store_slot m p q i j v :
  page_aligned p -> page_aligned q -> 0 <= i < 512 -> 0 <= j < 512 ->
  p <> q \/ i <> j ->
  load64 (store64 m (slot p i) v) (slot q j) = load64 m (slot q j).
Proof.
  intros Hp Hq Hi Hj Hne. apply load_store_ne. simpl.
  unfold slot, page_aligned, PGSIZE in *. dlia.
Qed.

Lemma agree_store_slot m p i v q :
  page_aligned p -> page_aligned q -> 0 <= i < 512 -> p <> q ->
  agree_on (in_page q) m (store64 m (slot p i) v).
Proof.
  intros Hp Hq Hi Hne. apply agree_store_page; [lia|simpl; unfold PGSIZE; lia|done..].
Qed.

(** ** Pages of a tree *)

Lemma elem_of_pt_pages T p : p ∈ pt_pages T <-> exists path, T !! path = Some p.
Proof.
  unfold pt_pages. rewrite list_elem_of_fmap. split.
  - intros ([path q] & -> & H%elem_of_map_to_list). eauto.
  - intros (path & H). exists (path, p). split; [done|]. by apply elem_of_map_to_list.
Qed.

Lemma pt_pages_insert T path p :
  T !! path = None -> pt_pages (<[path := p]> T) ≡ₚ p :: pt_pages T.
Proof. intros H. unfold pt_pages. by rewrite map_to_list_insert. Qed.

Lemma pt_own_page T l path p : pt_own T l -> T !! path = Some p -> free_page p.
Proof.
  intros [_ H] Hp. rewrite Forall_forall in H. apply H, elem_of_pt_pages. eauto.
Qed.

Lemma pt_pages_inj T l path1 path2 p :
  pt_own T l -> T !! path1 = Some p -> T !! path2 = Some p -> path1 = path2.
Proof.
  intros [Hnd _] H1 H2. apply NoDup_app in Hnd as (Hnd & _ & _).
  destruct (decide (path1 = path2)) as [|Hne]; [done|exfalso].
  rewrite <- (insert_delete_id T path1 p) in Hnd by done.
  rewrite pt_pages_insert in Hnd by apply lookup_delete_eq.
  apply NoDup_cons in Hnd as [Hnin _]. apply Hnin, elem_of_pt_pages.
  exists path2. by rewrite lookup_delete_ne.
Qed.

Lemma pt_own_not_in T l path p q :
  pt_own T l -> T !! path = Some p -> q ∈ l -> p <> q.
Proof.
  intros [Hnd _] Hp Hq ->. apply NoDup_app in Hnd as (_ & Hdis & _).
  apply (Hdis q); [|done]. apply elem_of_pt_pages. eauto.
Qed.

(** Moving a page from the free list into the tree. *)
Lemma pt_own_insert T l path p :
  pt_own T (p :: l) -> free_page p -> T !! path = None -> pt_own (<[path := p]> T) l.
Proof.
  intros [Hnd Hall] Hp HN. split.
  - rewrite pt_pages_insert by done. simpl. rewrite <- Permutation_middle in Hnd. done.
  - rewrite pt_pages_insert by done. by constructor.
Qed.

Lemma pt_pages_insert_perm T l path p :
  T !! path = None -> pt_pages (<[path := p]> T) ++ l ≡ₚ pt_pages T ++ p :: l.
Proof. intros H. rewrite pt_pages_insert by done. simpl. by rewrite Permutation_middle. Qed.

(** ** Paths *)

Lemma vpath_S level va :
  (level < 2)%nat -> vpath level va = vpath (S level) va ++ [PX (Z.of_nat (S level)) va].
Proof.
  intros H. destruct level as [|[|]]; [done|done|lia].
Qed.

Lemma length_vpath level va : (level <= 2)%nat -> length (vpath level va) = (2 - level)%nat.
Proof. intros H. destruct level as [|[|[|]]]; done || lia. Qed.

Lemma PX_fanout level va :
  0 <= va < MAXVA -> (level < 2)%nat -> PX (Z.of_nat (S level)) va < fanout (vpath (S level) va).
Proof.
  intros Hva Hl. destruct level as [|[|]]; [| |lia].
  - apply PX_range. lia.
  - cbn [vpath fanout]. change (Z.of_nat 2) with 2. destruct (PX_of_vpn va Hva) as (-> & _).
    rewrite MAXVA_val in Hva. unfold vpn, PGSIZE. dlia.
Qed.

(** Two addresses with the same path and index are on the same page. *)
Lemma leaf_index_inj va va' :
  0 <= va < MAXVA -> 0 <= va' < MAXVA ->
  vpath 0 va = vpath 0 va' -> PX 0 va = PX 0 va' -> vpn va = vpn va'.
Proof.
  intros H H' Hp H0. rewrite !PX_vpn by done. injection Hp as H2 H1. lia.
Qed.

Lemma leaf_index_vpn va va' :
  0 <= va < MAXVA -> 0 <= va' < MAXVA -> vpn va = vpn va' ->
  vpath 0 va = vpath 0 va' /\ PX 0 va = PX 0 va'.
Proof.
  intros H H' Hv. destruct (PX_of_vpn va H) as (A2 & A1 & A0).
  destruct (PX_of_vpn va' H') as (B2 & B1 & B0).
  unfold vpath. rewrite A2, A1, A0, B2, B1, B0, Hv. done.
Qed.

Lemma leaf_vpn m T va va' :
  0 <= va < MAXVA -> 0 <= va' < MAXVA -> vpn va = vpn va' -> leaf m T va = leaf m T va'.
Proof.
  intros H H' Hv. destruct (leaf_index_vpn va va' H H' Hv) as [Hp H0].
  unfold leaf, leaf_slot. by rewrite Hp, H0.
Qed.

(** ** Trees in agreeing memories *)

Lemma pt_rep_agree m1 m2 T :
  (forall p, p ∈ pt_pages T -> agree_on (in_page p) m1 m2) -> pt_rep m1 T -> pt_rep m2 T.
Proof.
  intros Hag [H1 H2]. split; [|done]. intros path p i Hp Hl Hi.
  rewrite <- (H1 path p i Hp Hl Hi). symmetry. apply load_slot_agree; [done|].
  apply Hag, elem_of_pt_pages. eauto.
Qed.

Lemma leaf_agree m1 m2 T va :
  (forall p, p ∈ pt_pages T -> agree_on (in_page p) m1 m2) -> leaf m2 T va = leaf m1 T va.
Proof.
  intros Hag. unfold leaf, leaf_slot. destruct (T !! vpath 0 va) as [q|] eqn:Hq; [|done].
  simpl. symmetry. apply load_slot_agree; [apply PX_range; lia|].
  apply Hag, elem_of_pt_pages. eauto.
Qed.

Lemma vpath_None m T level va :
  pt_rep m T -> (level < 2)%nat -> T !! vpath level va = None -> T !! vpath 0 va = None.
Proof.
  intros [_ H2] Hl HN. destruct level as [|[|]]; [done| |lia].
  destruct (T !! vpath 0 va) as [q|] eqn:Hq; [|done].
  rewrite (vpath_S 0) in Hq by lia. apply H2 in Hq as ([? Hq] & _). congruence.
Qed.

(** The entry a table at [vpath (S level)] holds for [va]. *)
Lemma pt_rep_entry m T level va p :
  pt_rep m T -> (level < 2)%nat -> T !! vpath (S level) va = Some p ->
  load64 m (slot p (PX (Z.of_nat (S level)) va)) =
  match T !! vpath level va with Some q => Z.lor (PA2PTE q) PTE_V | None => 0 end.
Proof.
  intros [H1 _] Hl Hp. rewrite (vpath_S level) by done.
  apply H1; [done| |apply PX_range; lia]. rewrite length_vpath; lia.
Qed.

(** ** Address-space states and how operations extend them *)

Definition vm_ok (s : pmem) (T : ptree) (l : list Z) : Prop :=
  kmem_ok s l /\ pt_rep (pm s) T /\ pt_own T l.

(** [pt_grow s T l s' T' l']: page-table pages may have been taken from the free
    list and added to the tree, and no byte outside the tree's pages has changed. *)
Record pt_grow (s : pmem) (T : ptree) (l : list Z) (s' : pmem) (T' : ptree) (l' : list Z) : Prop := {
  grow_perm : pt_pages T' ++ l' ≡ₚ pt_pages T ++ l;
  grow_sub : T ⊆ T';
  grow_frame : forall x, (forall p, p ∈ pt_pages T' -> ~ in_page p x) -> rd (pm s') x = rd (pm s) x;
  grow_suffix : l' `suffix_of` l;
}.

(** The same with every mapping as before. *)
Definition pt_ext s T l s' T' l' : Prop :=
  pt_grow s T l s' T' l' /\ forall va, leaf (pm s') T' va = leaf (pm s) T va.

(** Tables are added only on the walk paths of the addresses in [P]. *)
Definition tables_for (P : Z -> Prop) (T T' : ptree) : Prop := forall path, is_Some (T' !! path) ->
  is_Some (T !! path) \/ exists va level, P va /\ (level <= 2)%nat /\ path = vpath level va.

Lemma tables_for_refl P T : tables_for P T T.
Proof. intros path H. by left. Qed.

Lemma tables_for_trans (P Q R : Z -> Prop) T1 T2 T3 : (forall va, P va -> R va) -> (forall va, Q va -> R va) ->
  tables_for P T1 T2 -> tables_for Q T2 T3 -> tables_for R T1 T3.
Proof. intros HP HQ H1 H2 path H. destruct (H2 path H) as [H'|H']; [destruct (H1 path H') as [?|H'']|]; naive_solver. Qed.

Lemma tables_for_range K a T T' : 0 <= K -> tables_for (eq a) T T' -> tables_for (fun va => exists j, 0 <= j <= K /\ va = a + PGSIZE * j) T T'.
Proof. intros HK H path Hp. destruct (H path Hp) as [?|(va & level & <- & ? & ->)]; [by left|]. right. exists a, level. split; [exists 0; lia|done]. Qed.

Lemma tables_for_insert (P : Z -> Prop) T va level p : P va -> (level <= 2)%nat -> tables_for P T (<[vpath level va := p]> T).
Proof. intros HP Hl path [q H]. apply lookup_insert_Some in H as [[<- _]|[_ H]]; [right; eauto|left; eauto]. Qed.

Lemma pt_pages_subseteq T T' p : T ⊆ T' -> p ∈ pt_pages T -> p ∈ pt_pages T'.
Proof.
  intros H. rewrite !elem_of_pt_pages. intros [path Hp]. exists path.
  by eapply lookup_weaken.
Qed.

Lemma pt_grow_refl s T l : pt_grow s T l s T l.
Proof. split; done. Qed.

Lemma pt_grow_trans s1 T1 l1 s2 T2 l2 s3 T3 l3 :
  pt_grow s1 T1 l1 s2 T2 l2 -> pt_grow s2 T2 l2 s3 T3 l3 -> pt_grow s1 T1 l1 s3 T3 l3.
Proof.
  intros H1 H2. split.
  - rewrite (grow_perm _ _ _ _ _ _ H2). apply H1.
  - etrans; [apply H1|apply H2].
  - intros x Hx. rewrite (grow_frame _ _ _ _ _ _ H2) by done.
    apply (grow_frame _ _ _ _ _ _ H1). intros p Hp. apply Hx.
    eapply pt_pages_subseteq; [apply H2|done].
  - etrans; [apply H2|apply H1].
Qed.

Lemma pt_ext_refl s T l : pt_ext s T l s T l.
Proof. split; [apply pt_grow_refl|done]. Qed.

Lemma pt_ext_trans s1 T1 l1 s2 T2 l2 s3 T3 l3 :
  pt_ext s1 T1 l1 s2 T2 l2 -> pt_ext s2 T2 l2 s3 T3 l3 -> pt_ext s1 T1 l1 s3 T3 l3.
Proof.
  intros [H1 L1] [H2 L2]. split; [by eapply pt_grow_trans|]. intros va. by rewrite L2.
Qed.

(** The state after [walk] has added a table page [p] at entry [i] of table [pt]. *)
Definition add_table (s : pmem) (p pt i : Z) : pmem :=
  PMem (store64 (memset (memset (pm s) p 5 PGSIZE) p 0 PGSIZE) (slot pt i) (Z.lor (PA2PTE p) PTE_V))
    (load64 (pm s) p).

Lemma pm_add_table s p pt i :
  pm (add_table s p pt i) =
  store64 (memset (memset (pm s) p 5 PGSIZE) p 0 PGSIZE) (slot pt i) (Z.lor (PA2PTE p) PTE_V).
Proof. done. Qed.

Lemma add_table_agree s p pt i q :
  page_aligned p -> page_aligned pt -> page_aligned q -> 0 <= i < 512 ->
  q <> p -> q <> pt -> agree_on (in_page q) (pm s) (pm (add_table s p pt i)).
Proof.
  intros Hp Hpt Hq Hi H1 H2. rewrite pm_add_table.
  etrans; [apply (agree_memset_page _ p 5); [done|done|congruence]|].
  etrans; [apply (agree_memset_page _ p 0); [done|done|congruence]|].
  apply agree_store_slot; [done|done|done|congruence].
Qed.

Lemma add_table_zero s p pt i j :
  page_aligned p -> page_aligned pt -> p <> pt -> 0 <= i < 512 -> 0 <= j < 512 ->
  load64 (pm (add_table s p pt i)) (slot p j) = 0.
Proof.
  intros Hp Hpt Hne Hi Hj. rewrite pm_add_table.
  rewrite load_store_slot by (done || (left; congruence)).
  apply load_zeros. intros x Hx. rewrite rd_memset_in; [done|unfold PGSIZE; lia|].
  by apply (slot_in_page p j).
Qed.

Section AddTable.
Context (s : pmem) (T : ptree) (p : Z) (l : list Z) (path : list Z) (pt i : Z).
Context (Hok : vm_ok s T (p :: l)) (Hpt : T !! path = Some pt).
Context (Hlen : (length path < 2)%nat) (Hi : 0 <= i < 512) (Hfan : i < fanout path).
Context (HN : T !! (path ++ [i]) = None).

Let T' := <[path ++ [i] := p]> T.
Let s' := add_table s p pt i.

Lemma add_table_new_page : free_page p.
Proof using Hok. destruct Hok as ((_ & (_ & Hp & _) & _) & _). exact Hp. Qed.

Lemma add_table_old_page path' q : T !! path' = Some q -> free_page q /\ q <> p.
Proof using Hok.
  intros Hq. destruct Hok as (_ & _ & Hown). split; [by eapply pt_own_page|].
  eapply pt_own_not_in; [done|done|left].
Qed.

Lemma add_table_agree_old path' q :
  T !! path' = Some q -> path' <> path -> agree_on (in_page q) (pm s) (pm s').
Proof using Hok Hpt Hi.
  intros Hq Hne. destruct (add_table_old_page _ _ Hq) as [Hqf Hqp].
  destruct (add_table_old_page _ _ Hpt) as [Hptf _].
  apply add_table_agree; try apply free_page_aligned; auto using add_table_new_page.
  intros ->. destruct Hok as (_ & _ & Hown). eauto using pt_pages_inj.
Qed.

Lemma add_table_rep : pt_rep (pm s') T'.
Proof using Hok Hpt Hlen Hi Hfan HN.
  destruct (add_table_old_page _ _ Hpt) as [Hptf Hptp].
  pose proof add_table_new_page as Hpf. destruct Hok as (_ & [H1 H2] & _). split.
  - intros path' q j Hq Hl Hj. unfold T' in Hq. apply lookup_insert_Some in Hq as [[<- <-]|[Hne Hq]].
    + unfold s'. rewrite add_table_zero by auto using free_page_aligned.
      unfold T'. rewrite lookup_insert_ne.
      * destruct (T !! ((path ++ [i]) ++ [j])) as [r|] eqn:Hr; [|done].
        apply H2 in Hr as [[? Hr] _]. congruence.
      * intros Heq%(f_equal length). rewrite !length_app in Heq. simpl in Heq. lia.
    + unfold T'. destruct (decide (path' = path)) as [->|Hpath].
      * assert (q = pt) as -> by congruence. destruct (decide (j = i)) as [->|Hji].
        -- unfold s'. rewrite lookup_insert_eq, pm_add_table. apply load64_store64, pte_of_page_range. done.
        -- rewrite lookup_insert_ne by (intros [_ ?]%app_inj_2; [congruence|done]).
           rewrite <- (H1 path pt j) by done. unfold s'. rewrite pm_add_table.
           rewrite load_store_slot by (auto using free_page_aligned; right; congruence).
           symmetry. apply load_slot_agree; [done|].
           etrans; [apply (agree_memset_page _ p 5)|apply (agree_memset_page _ p 0)];
             auto using free_page_aligned.
      * rewrite lookup_insert_ne by (intros [? _]%app_inj_2; [congruence|done]).
        rewrite <- (H1 path' q j) by done. symmetry. apply load_slot_agree; [done|].
        by eapply add_table_agree_old.
  - intros path' j q Hq. unfold T' in *. apply lookup_insert_Some in Hq as [[Heq <-]|[Hne Hq]].
    + apply app_inj_2 in Heq as [<- [= <-]]; [|done]. split; [|split; [done|lia]].
      rewrite lookup_insert_ne; [eauto|].
      intros Heq%(f_equal length). rewrite length_app in Heq. simpl in Heq. lia.
    + apply H2 in Hq as ([r Hr] & Hl & Hj). split; [|done]. apply lookup_insert_is_Some'. eauto.
Qed.

Lemma add_table_leaf va : leaf (pm s') T' va = leaf (pm s) T va.
Proof using Hok Hpt Hlen Hi Hfan HN.
  destruct (add_table_old_page _ _ Hpt) as [Hptf Hptp]. unfold leaf, leaf_slot, T'.
  destruct (decide (path ++ [i] = vpath 0 va)) as [Heq|Hne].
  - rewrite Heq, lookup_insert_eq. rewrite Heq in HN. rewrite HN. simpl.
    apply add_table_zero; auto using free_page_aligned, add_table_new_page.
    apply PX_range. lia.
  - rewrite lookup_insert_ne by done. destruct (T !! vpath 0 va) as [q|] eqn:Hq; [|done]. simpl.
    symmetry. apply load_slot_agree; [apply PX_range; lia|].
    eapply add_table_agree_old; [done|]. intros <-. simpl in Hlen. lia.
Qed.

Lemma add_table_ok : vm_ok s' T' l.
Proof using Hok Hpt Hlen Hi Hfan HN.
  destruct Hok as (Hk & Hr & Hown). split; [|split].
  - destruct (kalloc_page idle_ctx idle_ctx_ok (not_elem_of_nil _) s p l Hk) as [_ (Hm & Hl & Hnd)].
    cbn [kalloc_state pm freelist] in Hm, Hl.
    split; [by apply mem_ok_store, mem_ok_memset|]. split; [|done].
    unfold s', add_table. cbn [pm freelist].
    eapply free_list_agree; [|exact Hl]. intros q Hq.
    pose proof (free_list_pages _ _ _ Hl) as Hall. rewrite Forall_forall in Hall.
    destruct (add_table_old_page _ _ Hpt) as [Hptf _].
    assert (q <> p) by (destruct Hk as (_ & _ & [Hni _]%NoDup_cons); congruence).
    etrans; [apply (agree_memset_page _ p 0)|apply agree_store_slot];
      auto using free_page_aligned, add_table_new_page.
    eapply pt_own_not_in; [done|done|by right].
  - apply add_table_rep.
  - apply pt_own_insert; [done|apply add_table_new_page|done].
Qed.

Lemma add_table_ext : pt_ext s T (p :: l) s' T' l.
Proof using Hok Hpt Hlen Hi Hfan HN.
  split; [|apply add_table_leaf]. split.
  - by apply pt_pages_insert_perm.
  - by apply insert_subseteq.
  - intros x Hx. assert (~ in_page p x) as Hp.
    { apply Hx, elem_of_pt_pages. exists (path ++ [i]). apply lookup_insert_eq. }
    assert (~ in_page pt x) as Hpt'.
    { apply Hx, elem_of_pt_pages. exists path. unfold T'. rewrite lookup_insert_ne; [done|].
      intros Heq%(f_equal length). rewrite length_app in Heq. simpl in Heq. lia. }
    unfold s'. rewrite pm_add_table.
    rewrite rd_store_out by (intros Hs; apply Hpt'; by apply (slot_in_page pt i)).
    rewrite !rd_memset_out; [done|unfold PGSIZE; lia|exact Hp|unfold PGSIZE; lia|exact Hp].
  - by apply suffix_cons_r.
Qed.
End AddTable.

(** ** [walk] *)

Lemma walk_loop_noalloc c s T l level pagetable va :
  pt_rep (pm s) T -> pt_own T l -> (level <= 2)%nat ->
  T !! vpath level va = Some pagetable ->
  walk_loop level pagetable va false c s =
  Done (match leaf_slot T va with Some a => a | None => 0 end) c s.
Proof.
  intros Hr Hown. revert pagetable. induction level as [|level IH]; intros pt Hl Hpt.
  - unfold leaf_slot. by rewrite Hpt.
  - cbn [walk_loop]. unfold mload64. krun.
    rewrite (pt_rep_entry (pm s) T level va pt) by (done || lia).
    destruct (T !! vpath level va) as [q|] eqn:Hq.
    + rewrite pte_V_of_page, PTE2PA_of_page by (by eapply pt_own_page).
      apply IH; [lia|done].
    + change (truth (Z.land 0 PTE_V)) with false. cbn [negb].
      unfold leaf_slot. by rewrite (vpath_None (pm s) T level) by (done || lia).
Qed.

(** When the tables for [va] exist, [walk] finds its entry and changes nothing. *)
Lemma walk_loop_found c s T l level pagetable va a alloc :
  pt_rep (pm s) T -> pt_own T l -> (level <= 2)%nat ->
  T !! vpath level va = Some pagetable -> leaf_slot T va = Some a ->
  walk_loop level pagetable va alloc c s = Done a c s.
Proof.
  intros Hr Hown. revert pagetable. induction level as [|level IH]; intros pt Hl Hpt Ha.
  - unfold leaf_slot in Ha. rewrite Hpt in Ha. by injection Ha as <-.
  - cbn [walk_loop]. unfold mload64. krun.
    rewrite (pt_rep_entry (pm s) T level va pt) by (done || lia).
    destruct (T !! vpath level va) as [q|] eqn:Hq.
    + rewrite pte_V_of_page, PTE2PA_of_page by (by eapply pt_own_page).
      apply IH; [lia|done|done].
    + unfold leaf_slot in Ha. by rewrite (vpath_None (pm s) T level) in Ha by (done || lia).
Qed.

Lemma walk_mapped c s T l root va a alloc :
  pt_rep (pm s) T -> pt_own T l -> T !! [] = Some root -> va < MAXVA -> leaf_slot T va = Some a ->
  walk root va alloc c s = Done a c s.
Proof.
  intros Hr Hown Hroot Hva Ha. unfold walk. zcase (MAXVA <=? va); [lia|].
  by eapply walk_loop_found.
Qed.

Section Thread.
Context (c : ctx) (Hc : steady c) (Hfree : LKmem ∉ c_held c).

Lemma kalloc_empty_steady s : kmem_ok s [] -> kalloc c s = Done 0 c s.
Proof using Hc Hfree.
  destruct Hc as [Hc1 Hc2]. intros H.
  rewrite (kalloc_empty c Hc1 Hfree s H). by rewrite Hc2.
Qed.

Lemma kalloc_page_steady s p l :
  kmem_ok s (p :: l) -> kalloc c s = Done p c (kalloc_state s p) /\ kmem_ok (kalloc_state s p) l.
Proof using Hc Hfree.
  destruct Hc as [Hc1 Hc2]. intros H.
  destruct (kalloc_page c Hc1 Hfree s p l H) as [-> ?]. by rewrite Hc2.
Qed.

Lemma kfree_page_steady s p l :
  kmem_ok s l -> free_page p -> p ∉ l ->
  kfree p c s = Done tt c (kfree_state s p) /\ kmem_ok (kfree_state s p) (p :: l).
Proof using Hc Hfree.
  destruct Hc as [Hc1 Hc2]. intros H Hp Hn.
  destruct (kfree_page c Hc1 Hfree s p l H Hp Hn) as [-> ?]. by rewrite Hc2.
Qed.

(** What [walk] with [alloc] set returns: no memory, or the entry's address. *)
Definition walk_result (T' : ptree) (l' : list Z) (va r : Z) : Prop :=
  (r = 0 /\ l' = []) \/ (leaf_slot T' va = Some r /\ r <> 0).

Lemma walk_loop_alloc s T l level pagetable va :
  vm_ok s T l -> 0 <= va < MAXVA -> (level <= 2)%nat -> T !! vpath level va = Some pagetable ->
  exists s' T' l' r,
    walk_loop level pagetable va true c s = Done r c s' /\
    vm_ok s' T' l' /\ pt_ext s T l s' T' l' /\ tables_for (eq va) T T' /\ walk_result T' l' va r.
Proof using Hc Hfree.
  revert s T l pagetable. induction level as [|level IH]; intros s T l pt Hok Hva Hl Hpt.
  - exists s, T, l, (slot pt (PX 0 va)). split; [done|]. split; [done|].
    split; [apply pt_ext_refl|]. split; [apply tables_for_refl|]. right. unfold leaf_slot. rewrite Hpt. split; [done|].
    destruct Hok as (_ & _ & Hown). pose proof (pt_own_page _ _ _ _ Hown Hpt) as Hp.
    apply free_page_bounds in Hp. unfold slot. pose proof (PX_range 0 va). lia.
  - cbn [walk_loop]. unfold mload64. krun. pose proof Hok as (Hk & Hr & Hown).
    rewrite (pt_rep_entry (pm s) T level va pt) by (done || lia).
    destruct (T !! vpath level va) as [q|] eqn:Hq.
    + rewrite pte_V_of_page, PTE2PA_of_page by (by eapply pt_own_page).
      apply IH; [done|done|lia|done].
    + change (truth (Z.land 0 PTE_V)) with false. cbn [negb]. destruct l as [|p l].
      * kstep (kalloc_empty_steady s Hk). simpl. exists s, T, [], 0. split; [done|].
        split; [done|]. split; [apply pt_ext_refl|]. split; [apply tables_for_refl|]. by left.
      * destruct (kalloc_page_steady s p l Hk) as [Hrun _]. kstep Hrun.
        assert (free_page p) as Hp by (destruct Hk as (_ & (_ & Hp & _) & _); done).
        zcase (p =? 0); [by apply free_page_nonzero in Hp|].
        unfold mmemset, mstore64. krun. unfold set_pm, kalloc_state. cbn [pm freelist].
        rewrite (vpath_S level) in Hq by lia.
        assert (0 <= PX (Z.of_nat (S level)) va < 512) as Hi by (apply PX_range; lia).
        assert (length (vpath (S level) va) < 2)%nat as Hlen by (rewrite length_vpath; lia).
        assert (PX (Z.of_nat (S level)) va < fanout (vpath (S level) va)) as Hfan
          by (apply PX_fanout; [done|lia]).
        pose proof (add_table_ok s T p l _ _ _ Hok Hpt Hlen Hi Hfan Hq) as Hok'.
        pose proof (add_table_ext s T p l _ _ _ Hok Hpt Hlen Hi Hfan Hq) as Hext'.
        rewrite <- (vpath_S level) in Hok', Hext' by lia.
        destruct (IH _ _ _ p Hok') as (s' & T' & l' & r & Hrun' & Hok2 & Hext2 & Htab & Hres);
          [done|lia|apply lookup_insert_eq|].
        exists s', T', l', r. split; [exact Hrun'|]. split; [done|]. split; [by eapply pt_ext_trans|].
        split; [|done]. eapply tables_for_trans; [..|exact Htab]; [done|done|]. apply tables_for_insert; [done|lia].
Qed.

Lemma walk_noalloc s T l root va :
  pt_rep (pm s) T -> pt_own T l -> T !! [] = Some root -> va < MAXVA ->
  walk root va false c s = Done (match leaf_slot T va with Some a => a | None => 0 end) c s.
Proof using.
  intros Hr Hown Hroot Hva. unfold walk. zcase (MAXVA <=? va); [lia|].
  by eapply walk_loop_noalloc.
Qed.

Lemma walk_alloc s T l root va :
  vm_ok s T l -> T !! [] = Some root -> 0 <= va < MAXVA ->
  exists s' T' l' r,
    walk root va true c s = Done r c s' /\
    vm_ok s' T' l' /\ pt_ext s T l s' T' l' /\ tables_for (eq va) T T' /\ walk_result T' l' va r.
Proof using Hc Hfree.
  intros Hok Hroot Hva. unfold walk. zcase (MAXVA <=? va); [lia|].
  by apply walk_loop_alloc.
Qed.

(** ** Writing a leaf entry *)

Lemma leaf_slot_page T l va a :
  pt_own T l -> leaf_slot T va = Some a ->
  exists q, T !! vpath 0 va = Some q /\ a = slot q (PX 0 va) /\ free_page q.
Proof.
  intros Hown Ha. unfold leaf_slot in Ha. destruct (T !! vpath 0 va) as [q|] eqn:Hq; [|done].
  injection Ha as <-. exists q. eauto using pt_own_page.
Qed.

Lemma leaf_slot_nonzero T l va a : pt_own T l -> leaf_slot T va = Some a -> a <> 0.
Proof.
  intros Hown Ha. destruct (leaf_slot_page T l va a Hown Ha) as (q & _ & -> & Hq).
  apply free_page_bounds in Hq. unfold slot. pose proof (PX_range 0 va). lia.
Qed.

Section SetLeaf.
Context (s : pmem) (T : ptree) (l : list Z) (va a v : Z).
Context (Hok : vm_ok s T l) (Ha : leaf_slot T va = Some a).

Let s' := set_pm (store64 (pm s) a v) s.

Lemma set_leaf_agree path q :
  T !! path = Some q -> path <> vpath 0 va -> agree_on (in_page q) (pm s) (pm s').
Proof using Hok Ha.
  intros Hq Hne. destruct Hok as (_ & _ & Hown).
  destruct (leaf_slot_page T l va a Hown Ha) as (p & Hp & Hap & Hpf).
  unfold s'. cbn [pm set_pm]. rewrite Hap. apply agree_store_slot.
  - by apply free_page_aligned.
  - apply free_page_aligned. by eapply pt_own_page.
  - apply PX_range. lia.
  - intros ->. apply Hne. eauto using pt_pages_inj.
Qed.

Lemma set_leaf_frame x :
  (forall p, p ∈ pt_pages T -> ~ in_page p x) -> rd (pm s') x = rd (pm s) x.
Proof using Hok Ha.
  intros Hx. destruct Hok as (_ & _ & Hown).
  destruct (leaf_slot_page T l va a Hown Ha) as (p & Hp & Hap & Hpf).
  apply rd_store_out. intros Hin. apply (Hx p); [apply elem_of_pt_pages; eauto|].
  subst a. apply (slot_in_page p (PX 0 va)); [apply PX_range; lia|done].
Qed.

Lemma set_leaf_ok : vm_ok s' T l.
Proof using Hok Ha.
  pose proof Hok as ((Hm & Hl & Hnd) & [H1 H2] & Hown).
  destruct (leaf_slot_page T l va a Hown Ha) as (p & Hp & Hap & Hpf). split; [|split; [|done]].
  - split; [by apply mem_ok_store|]. split; [|done]. cbn [pm set_pm s' freelist].
    eapply free_list_agree; [|exact Hl]. intros q Hq. rewrite Hap.
    pose proof (free_list_pages _ _ _ Hl) as Hall. rewrite Forall_forall in Hall.
    apply agree_store_slot; [by apply free_page_aligned|by apply free_page_aligned, Hall|
      apply PX_range; lia|]. by eapply pt_own_not_in.
  - split; [|done]. intros path q i Hq Hlen Hi. rewrite <- (H1 path q i) by done.
    symmetry. apply load_slot_agree; [done|]. apply (set_leaf_agree path); [done|].
    intros ->. simpl in Hlen. lia.
Qed.

Lemma set_leaf_leaf va' :
  0 <= v < 18446744073709551616 -> 0 <= va < MAXVA -> 0 <= va' < MAXVA ->
  leaf (pm s') T va' = if vpn va' =? vpn va then v else leaf (pm s) T va'.
Proof using Hok Ha.
  intros Hv Hva Hva'. pose proof Hok as (_ & _ & Hown).
  destruct (leaf_slot_page T l va a Hown Ha) as (p & Hp & Hap & Hpf).
  zcase (vpn va' =? vpn va) as E.
  - rewrite (leaf_vpn _ _ va' va) by done. unfold leaf. rewrite Ha. by apply load64_store64.
  - unfold leaf, leaf_slot. destruct (T !! vpath 0 va') as [q|] eqn:Hq; [|done]. simpl.
    destruct (decide (q = p)) as [->|Hne].
    + unfold s'. cbn [pm set_pm]. rewrite Hap.
      apply load_store_slot; auto using free_page_aligned; try (apply PX_range; lia).
      right. intros H0. apply E. apply leaf_index_inj; [done|done| |done].
      eauto using pt_pages_inj.
    + symmetry. apply load_slot_agree; [apply PX_range; lia|].
      eapply set_leaf_agree; [done|]. intros Heq. rewrite Heq in Hq. congruence.
Qed.

Lemma set_leaf_grow : pt_grow s T l s' T l.
Proof using Hok Ha. split; [done|done|apply set_leaf_frame|done]. Qed.
End SetLeaf.

(** ** [mappages] *)

(** The entries after mapping [n] pages from [a] to [pa]. *)
Definition mapped (entries : Z -> Z) (a pa perm n : Z) (va : Z) : Z :=
  if (vpn a <=? vpn va) && (vpn va <? vpn a + n)
  then Z.lor (Z.lor (PA2PTE (pa + PGSIZE * (vpn va - vpn a))) perm) PTE_V
  else entries va.

Lemma pte_perm_eq pa perm :
  0 <= pa < 2 ^ 56 -> 0 <= perm < 1024 ->
  Z.lor (Z.lor (PA2PTE pa) perm) PTE_V = 1024 * (pa / 4096) + Z.lor perm PTE_V /\
  0 <= Z.lor perm PTE_V < 1024.
Proof.
  intros Hp Hperm. assert (0 <= Z.lor perm PTE_V < 1024) as Hb.
  { split; [apply Z.lor_nonneg; split; [lia|done]|].
    destruct (decide (perm = 0)) as [->|]; [done|].
    apply (Z.log2_lt_pow2 _ 10); [change PTE_V with 1; apply Z.le_neq; split;
      [apply Z.lor_nonneg; split; [lia|done]|intros H; symmetry in H; apply Z.lor_eq_0_iff in H; lia]|].
    rewrite Z.log2_lor by (done || lia). change (Z.log2 PTE_V) with 0.
    apply Z.max_lub_lt; [apply Z.log2_lt_pow2; lia|lia]. }
  split; [|done]. rewrite <- Z.lor_assoc. by apply pte_of_pa_eq.
Qed.

Lemma pte_perm_range pa perm :
  0 <= pa < 2 ^ 56 -> 0 <= perm < 1024 ->
  0 <= Z.lor (Z.lor (PA2PTE pa) perm) PTE_V < 18446744073709551616.
Proof.
  intros Hp Hperm. destruct (pte_perm_eq pa perm Hp Hperm) as [-> Hb].
  change (2 ^ 56) with 72057594037927936 in Hp. dlia.
Qed.

Definition pte_valid (e : Z) : bool := truth (Z.land e PTE_V).

Lemma vpn_add_pages a j : vpn (a + PGSIZE * j) = vpn a + j.
Proof. unfold vpn, PGSIZE. dlia. Qed.

(** One iteration: [walk], then the write of the entry. *)
Lemma map_one_page s T l root a v :
  vm_ok s T l -> T !! [] = Some root -> 0 <= a < MAXVA -> 0 <= v < 18446744073709551616 ->
  exists s1 T1 l1 pte,
    walk root a true c s = Done pte c s1 /\ tables_for (eq a) T T1 /\
    ((pte = 0 /\ l1 = [] /\ vm_ok s1 T1 [] /\ pt_ext s T l s1 T1 []) \/
     (pte <> 0 /\ load64 (pm s1) pte = leaf (pm s) T a /\
      let s2 := set_pm (store64 (pm s1) pte v) s1 in
      vm_ok s2 T1 l1 /\ pt_grow s T l s2 T1 l1 /\ T1 !! [] = Some root /\
      forall va, 0 <= va < MAXVA ->
        leaf (pm s2) T1 va = if vpn va =? vpn a then v else leaf (pm s) T va)).
Proof using Hc Hfree.
  intros Hok Hroot Ha Hv.
  destruct (walk_alloc s T l root a Hok Hroot) as (s1 & T1 & l1 & pte & Hw & Hok1 & [Hg1 Hl1] & Htab & Hres);
    [lia|]. exists s1, T1, l1, pte. split; [done|]. split; [done|].
  destruct Hres as [[-> ->]|[Hslot Hnz]]; [left; do 3 (split; [done|]); by split|right].
  split; [done|]. split; [rewrite <- Hl1; unfold leaf; by rewrite Hslot|].
  split; [by eapply set_leaf_ok|].
  split; [eapply pt_grow_trans; [done|]; by eapply set_leaf_grow|].
  split; [eapply lookup_weaken; [done|apply Hg1]|].
  intros va Hva. rewrite (set_leaf_leaf s1 T1 l1 a pte v) by done. by rewrite Hl1.
Qed.

Lemma mapped_0 entries a pa perm va : mapped entries a pa perm 0 va = entries va.
Proof. unfold mapped. zcase (vpn a <=? vpn va); zcase (vpn va <? vpn a + 0); simpl; done || lia. Qed.

Lemma mapped_1 entries a pa perm va :
  mapped entries a pa perm 1 va =
  if vpn va =? vpn a then Z.lor (Z.lor (PA2PTE pa) perm) PTE_V else entries va.
Proof.
  unfold mapped. zcase (vpn va =? vpn a) as Ev; zcase (vpn a <=? vpn va);
    zcase (vpn va <? vpn a + 1); simpl; try done; try lia.
  rewrite Ev. do 3 f_equal. lia.
Qed.

(** Mapping [n] pages after the first is mapping [n + 1] pages. *)
Lemma mapped_step entries entries' a pa perm n va :
  0 <= n ->
  entries' va = (if vpn va =? vpn a then Z.lor (Z.lor (PA2PTE pa) perm) PTE_V else entries va) ->
  mapped entries' (a + PGSIZE) (pa + PGSIZE) perm n va = mapped entries a pa perm (n + 1) va.
Proof.
  intros Hn He. unfold mapped. rewrite He.
  replace (vpn (a + PGSIZE)) with (vpn a + 1) by (unfold vpn, PGSIZE; dlia).
  zcase (vpn va =? vpn a) as E1; zcase (vpn a + 1 <=? vpn va); zcase (vpn va <? vpn a + 1 + n);
    zcase (vpn a <=? vpn va); zcase (vpn va <? vpn a + (n + 1)); simpl; try lia; try done.
  - rewrite E1. do 3 f_equal. lia.
  - do 3 f_equal. lia.
Qed.

(** What [mappages] returns: [n] of the [k + 1] pages mapped. *)
Definition mappages_result (k n r : Z) (l' : list Z) : Prop :=
  (r = 0 /\ n = k + 1) \/ (r = -1 /\ l' = [] /\ 0 <= n <= k).

Lemma mappages_loop_run k s T l root a pa perm :
  vm_ok s T l -> T !! [] = Some root ->
  0 <= a -> a + PGSIZE * Z.of_nat k < MAXVA ->
  0 <= pa -> pa + PGSIZE * Z.of_nat k < 2 ^ 56 -> 0 <= perm < 1024 ->
  (forall j, 0 <= j <= Z.of_nat k -> pte_valid (leaf (pm s) T (a + PGSIZE * j)) = false) ->
  exists s' T' l' r n,
    mappages_loop k root a (a + PGSIZE * Z.of_nat k) pa perm c s = Done r c s' /\
    vm_ok s' T' l' /\ pt_grow s T l s' T' l' /\
    (forall va, 0 <= va < MAXVA -> leaf (pm s') T' va = mapped (leaf (pm s) T) a pa perm n va) /\
    tables_for (fun va => exists j, 0 <= j <= Z.of_nat k /\ va = a + PGSIZE * j) T T' /\
    mappages_result (Z.of_nat k) n r l'.
Proof using Hc Hfree.
  revert s T l a pa. induction k as [|k IH]; intros s T l a pa Hok Hroot Ha Hlast Hpa Hpl Hperm Hinv.
  all: pose proof (Hinv 0 ltac:(lia)) as Hinv0; rewrite Z.mul_0_r, Z.add_0_r in Hinv0;
    unfold pte_valid in Hinv0.
  all: destruct (map_one_page s T l root a (Z.lor (Z.lor (PA2PTE pa) perm) PTE_V) Hok Hroot)
    as (s1 & T1 & l1 & pte & Hw & Htab & [(-> & -> & Hok1 & Hg1 & Hl1)|(Hnz & He & Hok1 & Hg1 & Hr1 & Hl1)]);
    [unfold PGSIZE in *; lia|apply pte_perm_range; [unfold PGSIZE in *; lia|done]| |].
  all: cbn [mappages_loop]; kstep Hw.
  1,3: exists s1, T1, [], (-1), 0; split; [done|]; split; [done|]; split; [done|];
    split; [intros va _; rewrite mapped_0; apply Hl1|];
    split; [apply tables_for_range; [lia|exact Htab]|right; split; [done|]; split; [done|lia]].
  all: zcase (pte =? 0) as Epte; [done|]; unfold mload64, mstore64; krun; rewrite He, Hinv0; krun.
  - rewrite Z.mul_0_r, Z.add_0_r, Z.eqb_refl. eexists _, T1, l1, 0, 1. split; [reflexivity|].
    split; [done|]. split; [done|]. split; [intros va Hva; rewrite mapped_1; by apply Hl1|]. split; [|by left].
    apply tables_for_range; [lia|exact Htab].
  - zcase (a =? a + PGSIZE * Z.of_nat (S k)); [unfold PGSIZE in *; lia|].
    rewrite (u64_small (a + PGSIZE)) by (rewrite MAXVA_val in *; unfold PGSIZE in *; lia).
    rewrite (u64_small (pa + PGSIZE))
      by (change (2 ^ 56) with 72057594037927936 in Hpl; unfold PGSIZE in *; lia).
    replace (a + PGSIZE * Z.of_nat (S k)) with (a + PGSIZE + PGSIZE * Z.of_nat k) by lia.
    destruct (IH _ T1 l1 (a + PGSIZE) (pa + PGSIZE) Hok1)
      as (s' & T' & l' & r & n & Hrun & Hok' & Hg' & Hleaf' & Htab' & Hres);
      [done|unfold PGSIZE in *; lia|lia|unfold PGSIZE in *; lia|lia|done| |].
    + intros j Hj. rewrite Hl1 by (unfold PGSIZE in *; lia).
      replace (a + PGSIZE + PGSIZE * j) with (a + PGSIZE * (j + 1)) by lia.
      rewrite vpn_add_pages. zcase (vpn a + (j + 1) =? vpn a); [lia|]. apply Hinv. lia.
    + assert (0 <= n) as Hn by (destruct Hres; lia).
      exists s', T', l', r, (n + 1). split; [exact Hrun|]. split; [done|].
      split; [by eapply pt_grow_trans|]. split.
      * intros va Hva. rewrite Hleaf' by done. by apply mapped_step, Hl1.
      * split; [eapply tables_for_trans; [..|exact Htab|exact Htab'];
          [intros va <-; exists 0; lia|intros va (j & Hj & ->); exists (j + 1); lia]|].
        destruct Hres as [[-> ->]|(-> & -> & ?)]; [left; lia|right; repeat split; lia].
Qed.

(** The number of pages [mappages] has to map, less one. *)
Definition span (va size : Z) : Z := (PGROUNDDOWN (va + size - 1) - PGROUNDDOWN va) / PGSIZE.

Lemma mappages_run s T l root va size pa perm :
  vm_ok s T l -> T !! [] = Some root ->
  0 <= va -> 0 < size -> va + size <= MAXVA ->
  0 <= pa -> pa + PGSIZE * span va size < 2 ^ 56 -> 0 <= perm < 1024 ->
  (forall j, 0 <= j <= span va size ->
     pte_valid (leaf (pm s) T (PGROUNDDOWN va + PGSIZE * j)) = false) ->
  exists s' T' l' r n,
    mappages root va size pa perm c s = Done r c s' /\
    vm_ok s' T' l' /\ pt_grow s T l s' T' l' /\
    (forall va', 0 <= va' < MAXVA ->
       leaf (pm s') T' va' = mapped (leaf (pm s) T) (PGROUNDDOWN va) pa perm n va') /\
    tables_for (fun va' => exists j, 0 <= j <= span va size /\ va' = PGROUNDDOWN va + PGSIZE * j) T T' /\
    mappages_result (span va size) n r l'.
Proof using Hc Hfree.
  intros Hok Hroot Hva Hsize Hmax Hpa Hpl Hperm Hinv. unfold mappages.
  zcase (size =? 0); [lia|]. rewrite u64_small by (rewrite MAXVA_val in *; lia).
  set (a := PGROUNDDOWN va). set (last := PGROUNDDOWN (va + size - 1)).
  assert (a = PGSIZE * (va / PGSIZE)) as Ha by apply PGROUNDDOWN_eq.
  assert (last = PGSIZE * ((va + size - 1) / PGSIZE)) as Hl by apply PGROUNDDOWN_eq.
  assert (0 <= a <= last /\ last <= va + size - 1) as Hr by (unfold PGSIZE in *; dlia).
  assert (last = a + PGSIZE * Z.of_nat (Z.to_nat (span va size))) as Hlast.
  { unfold span. fold a last. rewrite Z2Nat.id by (unfold PGSIZE in *; dlia).
    rewrite Ha, Hl in *. unfold PGSIZE in *. dlia. }
  assert (0 <= span va size) as Hspan by (unfold span; fold a last; unfold PGSIZE in *; dlia).
  unfold mappages_bound. zcase (a <=? last); [|lia].
  change ((last - a) / PGSIZE) with (span va size).
  destruct (mappages_loop_run (Z.to_nat (span va size)) s T l root a pa perm Hok Hroot)
    as (s' & T' & l' & r & n & Hrun & Hok' & Hg & Hleaf & Htab & Hres);
    [lia|rewrite <- Hlast; lia|done|rewrite Z2Nat.id by lia; done|done| |].
  - intros j Hj. apply Hinv. lia.
  - exists s', T', l', r, n. rewrite Hlast. split; [exact Hrun|].
    rewrite Z2Nat.id in Hres, Htab by lia. done.
Qed.

(** ** [uvmunmap] *)

(** Freeing a page that is neither free nor part of the tree. *)
Lemma kfree_vm s T l p :
  vm_ok s T l -> free_page p -> p ∉ l -> p ∉ pt_pages T ->
  kfree p c s = Done tt c (kfree_state s p) /\ vm_ok (kfree_state s p) T (p :: l) /\
  (forall va, leaf (pm (kfree_state s p)) T va = leaf (pm s) T va) /\
  (forall x, ~ in_page p x -> rd (pm (kfree_state s p)) x = rd (pm s) x).
Proof using Hc Hfree.
  intros (Hk & Hr & Hown) Hp Hl HT.
  destruct (kfree_page_steady s p l Hk Hp Hl) as [Hrun Hk'].
  assert (forall q, q ∈ pt_pages T -> agree_on (in_page q) (pm s) (pm (kfree_state s p))) as Hag.
  { intros q Hq. assert (free_page q) as Hqf.
    { destruct Hown as [_ Hall]. rewrite Forall_forall in Hall. auto. }
    unfold kfree_state. cbn [pm]. rewrite <- (Z.add_0_r p) at 2.
    etrans; [apply (agree_memset_page _ p 1)|apply agree_store_page];
      solve [by apply free_page_aligned|congruence|lia|simpl; unfold PGSIZE; lia]. }
  split; [done|]. split; [|split].
  - split; [done|]. split; [by eapply pt_rep_agree|]. destruct Hown as [Hnd Hall].
    split; [|done]. rewrite <- Permutation_middle. apply NoDup_cons. split; [|done].
    by rewrite elem_of_app; intros [].
  - intros va. by apply leaf_agree.
  - intros x Hx. unfold kfree_state. cbn [pm]. rewrite rd_store_out, rd_memset_out;
      [done|unfold PGSIZE; lia|exact Hx|]. unfold in_page, within, PGSIZE in *. simpl. lia.
Qed.

(** Entries [e] that [uvmunmap] accepts: valid leaf entries. *)
Definition unmappable (e : Z) : Prop := pte_valid e = true /\ PTE_FLAGS e <> PTE_V.

(** The physical pages under [n] pages of virtual memory from [a]. *)
Fixpoint frames (entries : Z -> Z) (a : Z) (n : nat) : list Z :=
  match n with
  | O => []
  | S n' => PTE2PA (entries a) :: frames entries (a + PGSIZE) n'
  end.

Lemma frames_ext e1 e2 a n :
  (forall j, 0 <= j < Z.of_nat n -> e1 (a + PGSIZE * j) = e2 (a + PGSIZE * j)) ->
  frames e1 a n = frames e2 a n.
Proof.
  revert a. induction n as [|n IH]; intros a H; [done|]. simpl. f_equal.
  - f_equal. specialize (H 0). rewrite Z.mul_0_r, Z.add_0_r in H. apply H. lia.
  - apply IH. intros j Hj. specialize (H (j + 1)).
    replace (a + PGSIZE + PGSIZE * j) with (a + PGSIZE * (j + 1)) by lia. apply H. lia.
Qed.

(** The entries after unmapping [n] pages from [a]. *)
Definition unmapped (entries : Z -> Z) (a n : Z) (va : Z) : Z :=
  if (vpn a <=? vpn va) && (vpn va <? vpn a + n) then 0 else entries va.

(** One iteration of the loop. *)
Lemma unmap_one_page (do_free : bool) s T l root a :
  vm_ok s T l -> T !! [] = Some root -> 0 <= a < MAXVA -> unmappable (leaf (pm s) T a) ->
  let p := PTE2PA (leaf (pm s) T a) in
  (do_free = true -> free_page p /\ (p ∉ l) /\ p ∉ pt_pages T) ->
  exists pte s1,
    walk root a false c s = Done pte c s /\ pte <> 0 /\
    load64 (pm s) pte = leaf (pm s) T a /\
    when do_free (kfree p) c s = Done tt c s1 /\
    let s2 := set_pm (store64 (pm s1) pte 0) s1 in
    vm_ok s2 T (if do_free then p :: l else l) /\
    (forall va, 0 <= va < MAXVA ->
       leaf (pm s2) T va = if vpn va =? vpn a then 0 else leaf (pm s) T va) /\
    (forall x, (forall q, q ∈ pt_pages T -> ~ in_page q x) ->
       (do_free = true -> ~ in_page p x) -> rd (pm s2) x = rd (pm s) x).
Proof using Hc Hfree.
  intros Hok Hroot Ha [Hv Hf] p Hp. pose proof Hok as (_ & Hr & Hown).
  destruct (leaf_slot T a) as [pte|] eqn:Hslot;
    [|unfold leaf in Hv; rewrite Hslot in Hv; done].
  assert (exists s1, when do_free (kfree p) c s = Done tt c s1 /\
            vm_ok s1 T (if do_free then p :: l else l) /\
            (forall va, leaf (pm s1) T va = leaf (pm s) T va) /\
            (forall x, (do_free = true -> ~ in_page p x) -> rd (pm s1) x = rd (pm s) x))
    as (s1 & Hrun & Hok1 & Hl1 & Hf1).
  { destruct do_free; [|exists s; done]. destruct Hp as (H1 & H2 & H3); [done|].
    destruct (kfree_vm s T l p Hok H1 H2 H3) as (Hrun & Hok1 & Hl1 & Hf1).
    exists (kfree_state s p). split; [done|]. split; [done|]. split; [done|].
    intros x Hx. auto. }
  exists pte, s1. split; [rewrite (walk_noalloc s T l root a) by (done || lia); by rewrite Hslot|].
  split; [by eapply leaf_slot_nonzero|]. split; [unfold leaf; by rewrite Hslot|].
  split; [done|]. split; [by eapply set_leaf_ok|]. split.
  - intros va Hva. rewrite (set_leaf_leaf s1 T _ a pte 0 Hok1 Hslot) by (done || lia).
    by rewrite Hl1.
  - intros x Hx Hx'. rewrite (set_leaf_frame s1 T _ a pte 0 Hok1 Hslot) by done. auto.
Qed.

Lemma unmapped_0 entries a va : unmapped entries a 0 va = entries va.
Proof.
  unfold unmapped. zcase (vpn a <=? vpn va); zcase (vpn va <? vpn a + 0); simpl; done || lia.
Qed.

Lemma unmapped_step entries entries' a n va :
  0 <= n -> entries' va = (if vpn va =? vpn a then 0 else entries va) ->
  unmapped entries' (a + PGSIZE) n va = unmapped entries a (n + 1) va.
Proof.
  intros Hn He. unfold unmapped. rewrite He.
  replace (vpn (a + PGSIZE)) with (vpn a + 1) by (unfold vpn, PGSIZE; dlia).
  zcase (vpn va =? vpn a); zcase (vpn a + 1 <=? vpn va); zcase (vpn va <? vpn a + 1 + n);
    zcase (vpn a <=? vpn va); zcase (vpn va <? vpn a + (n + 1)); simpl; done || lia.
Qed.

(** The pages the loop gives back. *)
Definition freed_by (do_free : bool) (entries : Z -> Z) (a : Z) (n : nat) : list Z :=
  if do_free then frames entries a n else [].

Lemma uvmunmap_loop_run (do_free : bool) k s T l root a :
  vm_ok s T l -> T !! [] = Some root ->
  0 <= a -> a + PGSIZE * Z.of_nat k <= MAXVA ->
  (forall j, 0 <= j < Z.of_nat k -> unmappable (leaf (pm s) T (a + PGSIZE * j))) ->
  NoDup (pt_pages T ++ freed_by do_free (leaf (pm s) T) a k ++ l) ->
  Forall free_page (freed_by do_free (leaf (pm s) T) a k) ->
  exists s',
    uvmunmap_loop k root a (a + PGSIZE * Z.of_nat k) do_free c s = Done tt c s' /\
    vm_ok s' T (reverse (freed_by do_free (leaf (pm s) T) a k) ++ l) /\
    (forall va, 0 <= va < MAXVA ->
       leaf (pm s') T va = unmapped (leaf (pm s) T) a (Z.of_nat k) va) /\
    (forall x, (forall p, p ∈ pt_pages T ++ freed_by do_free (leaf (pm s) T) a k -> ~ in_page p x) ->
       rd (pm s') x = rd (pm s) x).
Proof using Hc Hfree.
  revert s l a. induction k as [|k IH]; intros s l a Hok Hroot Ha Hmax Hum Hnd Hfp.
  - exists s. cbn [uvmunmap_loop]. zcase (a <? a + PGSIZE * Z.of_nat 0); [unfold PGSIZE in *; lia|].
    split; [done|]. split; [by destruct do_free|]. split; [|done].
    intros va _. by rewrite unmapped_0.
  - destruct (Hum 0) as [Hv0 Hf0]; [lia|]. rewrite Z.mul_0_r, Z.add_0_r in Hv0, Hf0.
    destruct (unmap_one_page do_free s T l root a Hok Hroot)
      as (pte & s1 & Hw & Hnz & He & Hk & Hok2 & Hl2 & Hf2);
      [unfold PGSIZE in *; lia|done| |].
    { intros ->. apply Forall_cons in Hfp as [Hp _]. split; [done|].
      apply NoDup_app in Hnd as (_ & Hd & [Hnd _]%NoDup_cons). split; [intros Hin; apply Hnd, elem_of_app; by right|].
      intros Hin. apply (Hd _ Hin). left. }
    set (s2 := set_pm (store64 (pm s1) pte 0) s1) in *.
    assert (frames (leaf (pm s2) T) (a + PGSIZE) k = frames (leaf (pm s) T) (a + PGSIZE) k) as Hfr.
    { apply frames_ext. intros j Hj. rewrite Hl2 by (unfold PGSIZE in *; lia).
      replace (a + PGSIZE + PGSIZE * j) with (a + PGSIZE * (j + 1)) by lia.
      rewrite vpn_add_pages. zcase (vpn a + (j + 1) =? vpn a); [lia|done]. }
    assert (freed_by do_free (leaf (pm s2) T) (a + PGSIZE) k =
            freed_by do_free (leaf (pm s) T) (a + PGSIZE) k) as Hfd
      by (unfold freed_by; by rewrite Hfr).
    destruct (IH s2 (if do_free then PTE2PA (leaf (pm s) T a) :: l else l) (a + PGSIZE) Hok2 Hroot)
      as (s' & Hrun & Hok' & Hl' & Hf'); rewrite ?Hfd.
    + unfold PGSIZE in *; lia.
    + lia.
    + intros j Hj. rewrite Hl2 by (unfold PGSIZE in *; lia).
      replace (a + PGSIZE + PGSIZE * j) with (a + PGSIZE * (j + 1)) by lia.
      rewrite vpn_add_pages. zcase (vpn a + (j + 1) =? vpn a); [lia|]. apply Hum. lia.
    + destruct do_free; [|done]. cbn [freed_by frames] in Hnd. simpl.
      rewrite <- Permutation_middle. done.
    + destruct do_free; [|done]. by apply Forall_cons in Hfp as [_ ?].
    + exists s'. cbn [uvmunmap_loop].
      zcase (a <? a + PGSIZE * Z.of_nat (S k)) as Elt; [|unfold PGSIZE in *; lia].
      kstep Hw. zcase (pte =? 0); [done|]. unfold mload64. krun. rewrite He.
      unfold pte_valid in Hv0. rewrite Hv0. cbn [negb].
      zcase (PTE_FLAGS (leaf (pm s) T a) =? PTE_V); [done|]. kstep Hk. unfold mstore64. krun.
      rewrite u64_small by (rewrite MAXVA_val in *; unfold PGSIZE in *; lia).
      replace (a + PGSIZE * Z.of_nat (S k)) with (a + PGSIZE + PGSIZE * Z.of_nat k) by lia.
      rewrite Hfd in Hok', Hf'. split; [exact Hrun|]. split; [|split].
      * destruct do_free; [|done]. cbn [freed_by frames] in *.
        rewrite reverse_cons, <- app_assoc. done.
      * intros va Hva. rewrite Hl' by done. replace (Z.of_nat (S k)) with (Z.of_nat k + 1) by lia.
        apply unmapped_step; [lia|by apply Hl2].
      * intros x Hx. rewrite Hf'; [apply Hf2|].
        -- intros q Hq. apply Hx. apply elem_of_app. by left.
        -- intros ->. apply Hx. cbn [freed_by frames]. rewrite elem_of_app, elem_of_cons. tauto.
        -- intros q Hq. apply Hx. destruct do_free; cbn [freed_by frames] in *;
             rewrite ?elem_of_app, ?elem_of_cons in *; tauto.
Qed.

Lemma uvmunmap_run (do_free : bool) s T l root va npages :
  vm_ok s T l -> T !! [] = Some root ->
  0 <= va -> page_aligned va -> 0 <= npages -> va + npages * PGSIZE <= MAXVA ->
  (forall j, 0 <= j < npages -> unmappable (leaf (pm s) T (va + PGSIZE * j))) ->
  NoDup (pt_pages T ++ freed_by do_free (leaf (pm s) T) va (Z.to_nat npages) ++ l) ->
  Forall free_page (freed_by do_free (leaf (pm s) T) va (Z.to_nat npages)) ->
  exists s',
    uvmunmap root va npages do_free c s = Done tt c s' /\
    vm_ok s' T (reverse (freed_by do_free (leaf (pm s) T) va (Z.to_nat npages)) ++ l) /\
    (forall va', 0 <= va' < MAXVA ->
       leaf (pm s') T va' = unmapped (leaf (pm s) T) va npages va') /\
    (forall x, (forall p, p ∈ pt_pages T ++ freed_by do_free (leaf (pm s) T) va (Z.to_nat npages) ->
                  ~ in_page p x) -> rd (pm s') x = rd (pm s) x).
Proof using Hc Hfree.
  intros Hok Hroot Hva Hal Hn Hmax Hum Hnd Hfp. unfold uvmunmap.
  unfold page_aligned in Hal. rewrite Hal. cbn [negb Z.eqb].
  rewrite u64_small by (rewrite MAXVA_val in *; unfold PGSIZE in *; lia).
  replace (va + npages * PGSIZE) with (va + PGSIZE * Z.of_nat (Z.to_nat npages))
    by (rewrite Z2Nat.id by lia; lia).
  destruct (uvmunmap_loop_run do_free (Z.to_nat npages) s T l root va Hok Hroot)
    as (s' & Hrun & Hok' & Hl & Hf); [done|rewrite Z2Nat.id by lia; lia| |done|done|].
  - intros j Hj. apply Hum. lia.
  - exists s'. split; [exact Hrun|]. split; [done|]. split; [|done].
    intros va' Hva'. rewrite Hl by done. f_equal. lia.
Qed.

(** ** [walkaddr] *)

(** The physical page of a user-accessible virtual page, or 0. *)
Definition user_pa (entries : Z -> Z) (va : Z) : Z :=
  if (va <? MAXVA) && pte_has PTE_V (entries va) && pte_has PTE_U (entries va)
  then PTE2PA (entries va) else 0.

Lemma walkaddr_run s T l root va :
  pt_rep (pm s) T -> pt_own T l -> T !! [] = Some root ->
  walkaddr root va c s = Done (user_pa (leaf (pm s) T) va) c s.
Proof using.
  intros Hr Hown Hroot. unfold walkaddr, user_pa.
  zcase (MAXVA <=? va); zcase (va <? MAXVA); try lia; [done|]. cbn [andb].
  kstep (walk_noalloc s T l root va Hr Hown Hroot ltac:(lia)). unfold leaf.
  destruct (leaf_slot T va) as [pte|] eqn:Hs; [|done].
  zcase (pte =? 0); [by destruct (leaf_slot_nonzero T l va pte)|].
  unfold mload64. krun. unfold pte_has.
  destruct (truth (Z.land (load64 (pm s) pte) PTE_V)); [|done]. cbn [negb andb].
  destruct (truth (Z.land (load64 (pm s) pte) PTE_U)); done.
Qed.

End Thread.
End VmProps.
