(* ===== verification/VmUser.v ===== *)
(** * User address spaces: copying in and out (kernel/vm.c)

    [uspace s T l F] describes a user address space: the page table [T], the free
    pages [l] and the data pages [F] are pairwise distinct, and every user-accessible
    virtual page is backed by its own page of [F].  [uload] reads user memory through
    the page table. *)
From S2P Require Import Prelude Memory Machine Riscv KString Kalloc Vm VmProps.

Definition uload (m : mem) (entries : Z -> Z) (va : Z) : Z :=
  rd m (user_pa entries va + va mod PGSIZE).

Section VmUser.
Context {image : KernelImage}.

Record uspace (s : pmem) (T : ptree) (l F : list Z) : Prop := {
  us_vm : vm_ok s T l;
  us_nodup : NoDup (pt_pages T ++ F ++ l);
  us_frames : Forall free_page F;
  us_user : forall va, 0 <= va < MAXVA ->
    user_pa (leaf (pm s) T) va <> 0 -> user_pa (leaf (pm s) T) va ∈ F;
  us_inj : forall va va', 0 <= va < MAXVA -> 0 <= va' < MAXVA ->
    user_pa (leaf (pm s) T) va <> 0 ->
    user_pa (leaf (pm s) T) va = user_pa (leaf (pm s) T) va' -> vpn va = vpn va';
}.

(** ** Reading the page table *)

Lemma user_pa_ext e1 e2 va : e1 va = e2 va -> user_pa e1 va = user_pa e2 va.
Proof. intros H. unfold user_pa. by rewrite H. Qed.

Lemma user_pa_vpn m T va va' :
  0 <= va < MAXVA -> 0 <= va' < MAXVA -> vpn va = vpn va' ->
  user_pa (leaf m T) va = user_pa (leaf m T) va'.
Proof.
  intros H H' Hv. unfold user_pa. rewrite (leaf_vpn m T va va') by done.
  zcase (va <? MAXVA); zcase (va' <? MAXVA); done || lia.
Qed.

Lemma PGROUNDDOWN_vpn va :
  0 <= va < MAXVA -> 0 <= PGROUNDDOWN va < MAXVA /\ vpn (PGROUNDDOWN va) = vpn va.
Proof.
  rewrite PGROUNDDOWN_eq, MAXVA_val. unfold vpn, PGSIZE. intros. dlia.
Qed.

Lemma PGROUNDDOWN_off va : va - PGROUNDDOWN va = va mod PGSIZE.
Proof. rewrite PGROUNDDOWN_eq. unfold PGSIZE. dlia. Qed.

Lemma PGROUNDDOWN_next va :
  0 <= va < MAXVA -> u64 (PGROUNDDOWN va + PGSIZE) = va - va mod PGSIZE + PGSIZE /\
  va - va mod PGSIZE + PGSIZE <= MAXVA.
Proof.
  intros H. pose proof (PGROUNDDOWN_off va). rewrite MAXVA_val in *. unfold PGSIZE in *.
  rewrite u64_small by dlia. dlia.
Qed.

(** ** Writing a data page *)

Section Frame.
Context (s : pmem) (T : ptree) (l F : list Z) (p : Z) (m' : mem).
Context (Hus : uspace s T l F) (Hp : p ∈ F).
Context (Hm' : mem_ok m') (Hag : forall x, ~ in_page p x -> rd m' x = rd (pm s) x).

Lemma frame_page : free_page p.
Proof using Hus Hp.
  pose proof (us_frames _ _ _ _ Hus) as H. rewrite Forall_forall in H. auto.
Qed.

Lemma frame_agree q : page_aligned q -> q <> p -> agree_on (in_page q) (pm s) m'.
Proof using Hus Hp Hag.
  intros Hq Hne x Hx. symmetry. apply Hag. intros Hx'.
  eapply aligned_disjoint; [exact Hq|apply frame_page|done|exact Hx|exact Hx'].
Qed.

Lemma frame_not_pt q : q ∈ pt_pages T -> q <> p.
Proof using Hus Hp.
  intros Hq ->. pose proof (us_nodup _ _ _ _ Hus) as Hnd.
  apply NoDup_app in Hnd as (_ & Hd & _). apply (Hd p Hq). apply elem_of_app. by left.
Qed.

Lemma frame_write_leaf va : leaf m' T va = leaf (pm s) T va.
Proof using Hus Hp Hag.
  apply leaf_agree. intros q Hq. apply frame_agree; [|by apply frame_not_pt].
  destruct (us_vm _ _ _ _ Hus) as (_ & _ & [_ Hall]). rewrite Forall_forall in Hall.
  by apply free_page_aligned, Hall.
Qed.

Lemma frame_write_user_pa va : user_pa (leaf m' T) va = user_pa (leaf (pm s) T) va.
Proof using Hus Hp Hag. apply user_pa_ext, frame_write_leaf. Qed.

Lemma frame_write_uspace : uspace (set_pm m' s) T l F.
Proof using Hus Hp Hm' Hag.
  pose proof (us_vm _ _ _ _ Hus) as ((Hm & Hl & Hnd) & Hr & Hown). split.
  - split; [|split; [|done]].
    + split; [done|]. split; [|done]. eapply free_list_agree; [|exact Hl].
      intros q Hq. apply frame_agree.
      * apply free_list_pages in Hl. rewrite Forall_forall in Hl. by apply free_page_aligned, Hl.
      * intros ->. pose proof (us_nodup _ _ _ _ Hus) as Hnd'.
        apply NoDup_app in Hnd' as (_ & _ & Hnd'). apply NoDup_app in Hnd' as (_ & Hd & _).
        by apply (Hd p Hp).
    + eapply pt_rep_agree; [|exact Hr]. intros q Hq. apply frame_agree; [|by apply frame_not_pt].
      destruct Hown as [_ Hall]. rewrite Forall_forall in Hall. by apply free_page_aligned, Hall.
  - apply Hus.
  - apply Hus.
  - intros va Hva. cbn [pm set_pm]. rewrite frame_write_user_pa. by apply Hus.
  - intros va va' Hva Hva'. cbn [pm set_pm]. rewrite !frame_write_user_pa. by apply Hus.
Qed.
End Frame.

(** ** [copyout] *)

Section Thread.
Context (c : ctx) (T : ptree) (l F : list Z) (root : Z) (Hroot : T !! [] = Some root).

(** User memory after writing [bytes] at [dst]. *)
Definition uwrite (old : Z -> Z) (dst : Z) (bytes : list Z) (va : Z) : Z :=
  if (dst <=? va) && (va <? dst + zlen bytes) then znth 0 bytes (va - dst) else old va.

(** One chunk: bytes written within the page of [dstva]. *)
Lemma copyout_chunk s dstva bytes :
  uspace s T l F -> 0 <= dstva < MAXVA -> Forall is_byte bytes ->
  dstva mod PGSIZE + zlen bytes <= PGSIZE ->
  let p := user_pa (leaf (pm s) T) dstva in
  p <> 0 ->
  let s' := set_pm (wr_list (pm s) (p + dstva mod PGSIZE) bytes) s in
  uspace s' T l F /\
  (forall va, leaf (pm s') T va = leaf (pm s) T va) /\
  (forall va, 0 <= va < MAXVA -> user_pa (leaf (pm s) T) va <> 0 ->
     uload (pm s') (leaf (pm s') T) va = uwrite (uload (pm s) (leaf (pm s) T)) dstva bytes va) /\
  (forall x, (forall q, q ∈ F -> ~ in_page q x) -> rd (pm s') x = rd (pm s) x).
Proof using.
  intros Hus Hd Hb Hfit p Hp s'. pose proof (us_user _ _ _ _ Hus dstva Hd Hp) as HpF.
  assert (mem_ok (pm s)) as Hm by apply Hus.
  assert (forall x, ~ in_page p x -> rd (wr_list (pm s) (p + dstva mod PGSIZE) bytes) x = rd (pm s) x) as Hag.
  { intros x Hx. apply rd_wr_list_out. intros Hin. apply Hx.
    pose proof (Z.mod_pos_bound dstva PGSIZE ltac:(done)). unfold in_page, within in *. lia. }
  split; [eapply frame_write_uspace; eauto with mem|].
  split; [intros va; eapply frame_write_leaf; eauto|]. split.
  - intros va Hva Hu. unfold uload. cbn [s' pm set_pm].
    rewrite (frame_write_user_pa s T l F p) by eauto.
    pose proof (Z.mod_pos_bound va PGSIZE ltac:(done)).
    pose proof (Z.mod_pos_bound dstva PGSIZE ltac:(done)). unfold uwrite.
    destruct (decide (vpn va = vpn dstva)) as [Hv|Hv].
    + rewrite (user_pa_vpn _ _ va dstva) by done. fold p. rewrite rd_wr_list.
      assert (va - va mod PGSIZE = dstva - dstva mod PGSIZE) by (unfold vpn, PGSIZE in *; dlia).
      zcase (p + dstva mod PGSIZE <=? p + va mod PGSIZE);
        zcase (p + va mod PGSIZE <? p + dstva mod PGSIZE + zlen bytes);
        zcase (dstva <=? va); zcase (va <? dstva + zlen bytes); simpl; try lia; try done.
      rewrite u8_small by (by apply znth_bytes). f_equal. lia.
    + assert (~ (dstva <= va < dstva + zlen bytes)) as Hout by (unfold vpn, PGSIZE in *; dlia).
      rewrite Hag; [zcase (dstva <=? va); zcase (va <? dstva + zlen bytes); simpl; done || lia|].
      pose proof (us_user _ _ _ _ Hus va Hva Hu) as HvF.
      assert (user_pa (leaf (pm s) T) va <> p) as Hne.
      { intros Heq. apply Hv. by apply (us_inj _ _ _ _ Hus). }
      pose proof (us_frames _ _ _ _ Hus) as HF. rewrite Forall_forall in HF.
      eapply aligned_disjoint; [by apply free_page_aligned, HF, HvF|
        by apply free_page_aligned, HF|exact Hne|]. unfold in_page, within. lia.
  - intros x Hx. apply Hag, Hx, HpF.
Qed.

Lemma uwrite_nil old dst va : uwrite old dst [] va = old va.
Proof.
  unfold uwrite. change (zlen (@nil Z)) with 0.
  zcase (dst <=? va); zcase (va <? dst + 0); simpl; done || lia.
Qed.

Lemma uwrite_app old dst b1 b2 va :
  uwrite (uwrite old dst b1) (dst + zlen b1) b2 va = uwrite old dst (b1 ++ b2) va.
Proof.
  unfold uwrite. unfold zlen in *. rewrite length_app, Nat2Z.inj_add.
  zcase (dst + Z.of_nat (length b1) <=? va);
    zcase (va <? dst + Z.of_nat (length b1) + Z.of_nat (length b2));
    zcase (dst <=? va); zcase (va <? dst + Z.of_nat (length b1));
    zcase (va <? dst + (Z.of_nat (length b1) + Z.of_nat (length b2)));
    simpl; try lia; try done.
  - rewrite znth_app_r by (unfold zlen; lia). f_equal. unfold zlen. lia.
  - by rewrite znth_app_l by (unfold zlen; lia).
Qed.

(** How many bytes fit on the page of [va], of [len] wanted. *)
Definition chunk (va len : Z) : Z :=
  let n := PGSIZE - (va - PGROUNDDOWN va) in if len <? n then len else n.

Lemma chunk_spec va len :
  0 < len -> let n := chunk va len in
  0 < n <= len /\ va mod PGSIZE + n <= PGSIZE /\ (n < len -> n = PGSIZE - va mod PGSIZE).
Proof.
  intros Hlen n. unfold n, chunk. rewrite PGROUNDDOWN_off.
  pose proof (Z.mod_pos_bound va PGSIZE ltac:(done)).
  zcase (len <? PGSIZE - va mod PGSIZE); lia.
Qed.

(** What [copyout] returns when [n] of [len] bytes were copied. *)
Definition copy_result (entries : Z -> Z) (va len n r : Z) : Prop :=
  (r = 0 /\ n = len) \/ (r = -1 /\ 0 <= n < len /\ user_pa entries (va + n) = 0).

Lemma copyout_loop_run k s dstva src :
  uspace s T l F -> (length src <= k)%nat -> Forall is_byte src ->
  0 <= dstva -> dstva + zlen src <= MAXVA ->
  exists s' r n,
    copyout_loop k root dstva src c s = Done r c s' /\ uspace s' T l F /\
    (forall va, leaf (pm s') T va = leaf (pm s) T va) /\
    (forall va, 0 <= va < MAXVA -> user_pa (leaf (pm s) T) va <> 0 ->
       uload (pm s') (leaf (pm s') T) va =
       uwrite (uload (pm s) (leaf (pm s) T)) dstva (take (Z.to_nat n) src) va) /\
    (forall x, (forall q, q ∈ F -> ~ in_page q x) -> rd (pm s') x = rd (pm s) x) /\
    copy_result (leaf (pm s) T) dstva (zlen src) n r.
Proof using Hroot.
  revert s dstva src. induction k as [|k IH]; intros s dstva src Hus Hlen Hb Hd Hmax.
  all: cbn [copyout_loop]; zcase (0 <? zlen src) as E0;
    [|exists s, 0, (zlen src); split; [done|]; split; [done|]; split; [done|];
      split; [|split; [done|by left]]; intros va _ _;
      assert (src = []) as -> by (destruct src; [done|unfold zlen in E0; simpl in E0; lia]);
      rewrite take_nil; by rewrite uwrite_nil].
  - unfold zlen in E0. lia.
  - assert (0 <= dstva < MAXVA) as Hd' by lia.
    destruct (PGROUNDDOWN_vpn dstva Hd') as [Hr0 Hv0].
    destruct (us_vm _ _ _ _ Hus) as (_ & Hrep & Hown).
    kstep (walkaddr_run c s T l root (PGROUNDDOWN dstva) Hrep Hown Hroot).
    rewrite (user_pa_vpn _ _ (PGROUNDDOWN dstva) dstva) by done.
    zcase (user_pa (leaf (pm s) T) dstva =? 0) as Ep.
    { exists s, (-1), 0. split; [done|]. split; [done|]. split; [done|]. split; [|split; [done|]].
      - intros va _ _. simpl. by rewrite uwrite_nil.
      - right. rewrite Z.add_0_r. split; [done|]. split; [lia|done]. }
    destruct (chunk_spec dstva (zlen src) E0) as (Hn & Hfit & Hfull).
    fold (chunk dstva (zlen src)). set (n := chunk dstva (zlen src)) in *. krun.
    rewrite PGROUNDDOWN_off. destruct (PGROUNDDOWN_next dstva Hd') as [-> Hnext].
    assert (zlen (take (Z.to_nat n) src) = n) as Hzn by (unfold zlen in *; rewrite length_take; lia).
    destruct (copyout_chunk s dstva (take (Z.to_nat n) src) Hus Hd') as (Hus1 & Hl1 & Hu1 & Hf1);
      [by apply Forall_take|lia|done|].
    set (s1 := set_pm _ s) in *. set (dst2 := dstva - dstva mod PGSIZE + PGSIZE).
    destruct (IH s1 dst2 (drop (Z.to_nat n) src) Hus1) as (s' & r & n2 & Hrun & Hus' & Hl' & Hu' & Hf' & Hres).
    + rewrite length_drop. unfold zlen in *. lia.
    + by apply Forall_drop.
    + unfold dst2. pose proof (Z.mod_pos_bound dstva PGSIZE ltac:(done)). lia.
    + unfold zlen in *. rewrite length_drop. fold dst2 in Hnext.
      destruct (decide (n < Z.of_nat (length src))) as [Hlt|]; [|lia].
      specialize (Hfull Hlt). unfold dst2. lia.
    + assert (zlen (drop (Z.to_nat n) src) = zlen src - n) as Hzd
        by (unfold zlen in *; rewrite length_drop; lia).
      rewrite Hzd in Hres. assert (0 <= n2 <= zlen src - n) as Hn2 by (destruct Hres; lia).
      assert (0 < n2 -> dst2 = dstva + n) as Hcont by (intros ?; unfold dst2; lia).
      exists s', r, (n + n2). split; [exact Hrun|]. split; [done|].
      split; [intros va; by rewrite Hl', Hl1|]. split; [|split].
      * intros va Hva Hu. rewrite Hu' by (done || by rewrite (user_pa_ext _ (leaf (pm s) T))).
        rewrite Z2Nat.inj_add, <- take_take_drop by lia.
        destruct (decide (n2 = 0)) as [->|].
        -- rewrite uwrite_nil, app_nil_r. by apply Hu1.
        -- rewrite Hcont by lia. rewrite <- uwrite_app, Hzn. unfold uwrite at 1 3.
           rewrite Hu1 by done. done.
      * intros x Hx. rewrite Hf' by done. by apply Hf1.
      * destruct Hres as [[-> ->]|(-> & ? & Hpa)]; [left; lia|right].
        split; [done|]. split; [lia|].
        rewrite (user_pa_ext _ (leaf (pm s) T)) in Hpa by done.
        destruct (decide (n < zlen src)) as [Hlt|]; [|lia]. specialize (Hfull Hlt).
        rewrite <- Hpa. f_equal. unfold dst2. lia.
Qed.

(** ** [copyin] *)

(** [n] bytes of user memory from [va]. *)
Fixpoint uloads (m : mem) (entries : Z -> Z) (va : Z) (n : nat) : list Z :=
  match n with
  | O => []
  | S n' => uload m entries va :: uloads m entries (va + 1) n'
  end.

Lemma length_uloads m e va n : length (uloads m e va n) = n.
Proof. revert va. induction n; intros; simpl; auto. Qed.

Lemma uloads_app m e va n k :
  uloads m e va (n + k) = uloads m e va n ++ uloads m e (va + Z.of_nat n) k.
Proof.
  revert va. induction n as [|n IH]; intros va; simpl; [f_equal; lia|].
  rewrite IH. do 3 f_equal. lia.
Qed.

Lemma znth_uloads m e va n i :
  0 <= i < Z.of_nat n -> znth 0 (uloads m e va n) i = uload m e (va + i).
Proof.
  revert va i. induction n as [|n IH]; intros va i Hi; [lia|]. simpl.
  destruct (decide (i = 0)) as [->|]; [rewrite znth_cons_0; f_equal; lia|].
  rewrite znth_cons_S, IH by lia. f_equal. lia.
Qed.

(** Within one page, user memory is contiguous physical memory. *)
Lemma rd_list_uloads m va n :
  0 <= va -> va + Z.of_nat n <= MAXVA -> va mod PGSIZE + Z.of_nat n <= PGSIZE ->
  rd_list m (user_pa (leaf m T) va + va mod PGSIZE) n = uloads m (leaf m T) va n.
Proof using.
  intros Hva Hmax Hfit. apply (zlist_eq 0); [by rewrite length_rd_list, length_uloads|].
  intros i. rewrite zlen_rd_list. intros Hi. rewrite znth_rd_list, znth_uloads by lia.
  unfold uload. pose proof (Z.mod_pos_bound va PGSIZE ltac:(done)).
  assert ((va + i) mod PGSIZE = va mod PGSIZE + i) as -> by (unfold PGSIZE in *; dlia).
  rewrite (user_pa_vpn m T (va + i) va); [f_equal; lia|lia|lia|].
  unfold vpn, PGSIZE in *. dlia.
Qed.

Lemma copyin_loop_run k s dst srcva len :
  uspace s T l F -> len <= Z.of_nat k -> 0 <= len -> 0 <= srcva -> srcva + len <= MAXVA ->
  exists r n,
    copyin_loop k root dst srcva len c s =
      Done (r, dst ++ uloads (pm s) (leaf (pm s) T) srcva (Z.to_nat n)) c s /\
    copy_result (leaf (pm s) T) srcva len n r.
Proof using Hroot.
  intros Hus. revert dst srcva len. induction k as [|k IH]; intros dst srcva len Hk Hlen Hs Hmax.
  all: cbn [copyin_loop]; zcase (0 <? len) as E0;
    [|exists 0, 0; split; [by rewrite app_nil_r|left; lia]].
  - lia.
  - assert (0 <= srcva < MAXVA) as Hs' by lia.
    destruct (PGROUNDDOWN_vpn srcva Hs') as [Hr0 Hv0].
    destruct (us_vm _ _ _ _ Hus) as (_ & Hrep & Hown).
    kstep (walkaddr_run c s T l root (PGROUNDDOWN srcva) Hrep Hown Hroot).
    rewrite (user_pa_vpn _ _ (PGROUNDDOWN srcva) srcva) by done.
    zcase (user_pa (leaf (pm s) T) srcva =? 0) as Ep.
    { exists (-1), 0. split; [by rewrite app_nil_r|]. right. rewrite Z.add_0_r.
      split; [done|]. split; [lia|done]. }
    destruct (chunk_spec srcva len E0) as (Hn & Hfit & Hfull).
    fold (chunk srcva len). set (n := chunk srcva len) in *. krun.
    rewrite PGROUNDDOWN_off. destruct (PGROUNDDOWN_next srcva Hs') as [-> Hnext].
    rewrite rd_list_uloads by lia. set (src2 := srcva - srcva mod PGSIZE + PGSIZE).
    pose proof (Z.mod_pos_bound srcva PGSIZE ltac:(done)).
    destruct (IH (dst ++ uloads (pm s) (leaf (pm s) T) srcva (Z.to_nat n)) src2 (len - n))
      as (r & n2 & Hrun & Hres).
    + lia.
    + lia.
    + unfold src2. lia.
    + fold src2 in Hnext. destruct (decide (n < len)) as [Hlt|]; [|lia].
      specialize (Hfull Hlt). unfold src2. lia.
    + assert (0 <= n2 <= len - n) as Hn2 by (destruct Hres; lia).
      exists r, (n + n2). split.
      * rewrite Hrun, <- app_assoc. do 2 f_equal. f_equal.
        rewrite Z2Nat.inj_add, uloads_app, Z2Nat.id by lia. f_equal.
        destruct (decide (n2 = 0)) as [->|]; [done|]. f_equal. unfold src2. lia.
      * destruct Hres as [[-> ->]|(-> & ? & Hpa)]; [left; lia|right].
        split; [done|]. split; [lia|]. destruct (decide (n < len)) as [Hlt|]; [|lia].
        specialize (Hfull Hlt). rewrite <- Hpa. f_equal. unfold src2. lia.
Qed.

(** ** [copyinstr] *)

(** One page: the bytes before the first NUL among the next [n], and whether there is one. *)
Lemma copyinstr_page_run m n p dst max :
  exists k, (k <= n)%nat /\ Forall (fun b => b <> 0) (rd_list m p k) /\
    ((copyinstr_page m n p dst max = (dst ++ rd_list m p k ++ [0], true, max - Z.of_nat k) /\
      (k < n)%nat /\ rd m (p + Z.of_nat k) = 0) \/
     (copyinstr_page m n p dst max = (dst ++ rd_list m p k, false, max - Z.of_nat k) /\ k = n)).
Proof using.
  revert p dst max. induction n as [|n IH]; intros p dst max; cbn [copyinstr_page].
  - exists 0%nat. split; [lia|]. split; [constructor|]. right. split; [|done].
    rewrite app_nil_r. f_equal. lia.
  - zcase (rd m p =? 0) as E.
    + exists 0%nat. split; [lia|]. split; [constructor|]. left.
      split; [simpl; f_equal; lia|]. split; [lia|]. rewrite <- E. f_equal. lia.
    + destruct (IH (p + 1) (dst ++ [rd m p]) (max - 1)) as (k & Hk & HF & Hcase).
      exists (S k). split; [lia|]. cbn [rd_list]. split; [by constructor|].
      replace (max - Z.of_nat (S k)) with (max - 1 - Z.of_nat k) by lia.
      rewrite <- !app_assoc in Hcase. cbn [app] in Hcase. cbn [app].
      destruct Hcase as [(Hrun & Hlt & H0)|[Hrun Hkn]]; [left|right].
      * split; [exact Hrun|]. split; [lia|]. rewrite <- H0. f_equal. lia.
      * split; [exact Hrun|lia].
Qed.

(** The outcome of [copyinstr]: [n] non-NUL bytes, then a NUL, the limit or a page that
    cannot be read. *)
Definition copyinstr_result (m : mem) (entries : Z -> Z) (va max n r : Z) (out : list Z) : Prop :=
  let bytes := uloads m entries va (Z.to_nat n) in
  Forall (fun b => b <> 0) bytes /\
  ((r = 0 /\ 0 <= n < max /\ uload m entries (va + n) = 0 /\ out = bytes ++ [0] /\
    forall i, 0 <= i <= n -> user_pa entries (va + i) <> 0) \/
   (r = -1 /\ n = max /\ out = bytes) \/
   (r = -1 /\ 0 <= n < max /\ user_pa entries (va + n) = 0 /\ out = bytes)).

Lemma user_pa_same_page m va i :
  0 <= va -> va + i < MAXVA -> 0 <= i -> va mod PGSIZE + i < PGSIZE ->
  user_pa (leaf m T) (va + i) = user_pa (leaf m T) va.
Proof using.
  intros H0 H1 H2 H3. apply user_pa_vpn; [lia|lia|]. unfold vpn, PGSIZE in *. dlia.
Qed.

(** A page without a NUL, then the rest. *)
Lemma copyinstr_result_app m va va2 max n n2 r out :
  let e := leaf m T in
  0 <= va -> va + max <= MAXVA -> 0 < n <= max -> va mod PGSIZE + n <= PGSIZE ->
  (n < max -> va2 = va + n) -> user_pa e va <> 0 ->
  Forall (fun b => b <> 0) (uloads m e va (Z.to_nat n)) ->
  copyinstr_result m e va2 (max - n) n2 r out ->
  copyinstr_result m e va max (n + n2) r (uloads m e va (Z.to_nat n) ++ out).
Proof using.
  intros e Hva Hmax Hn Hfit Hva2 Hpa HF [HF2 Hres].
  assert (0 <= n2 <= max - n) as Hn2 by (destruct Hres as [?|[?|?]]; lia).
  assert (uloads m e va (Z.to_nat (n + n2)) =
          uloads m e va (Z.to_nat n) ++ uloads m e va2 (Z.to_nat n2)) as Happ.
  { rewrite Z2Nat.inj_add, uloads_app, Z2Nat.id by lia. f_equal.
    destruct (decide (n2 = 0)) as [->|]; [done|]. f_equal. rewrite Hva2; lia. }
  split; rewrite Happ; [by apply Forall_app|].
  destruct Hres as [(-> & Hlt & H0 & -> & Hall)|[(-> & -> & ->)|(-> & Hlt & H0 & ->)]];
    [left|right; left|right; right].
  - rewrite Hva2 in * by lia. split; [done|]. split; [lia|]. split; [by rewrite Z.add_assoc|].
    split; [by rewrite app_assoc|]. intros i Hi. destruct (decide (i < n)).
    + unfold e. rewrite user_pa_same_page by lia. done.
    + replace (va + i) with (va + n + (i - n)) by lia. apply Hall. lia.
  - split; [done|]. split; [lia|done].
  - split; [done|]. split; [lia|]. split; [|done]. rewrite Hva2 in H0 by lia. by rewrite Z.add_assoc.
Qed.

Lemma copyinstr_loop_run k s dst srcva max :
  uspace s T l F -> max <= Z.of_nat k -> 0 <= max -> 0 <= srcva -> srcva + max <= MAXVA ->
  exists r n out,
    copyinstr_loop k root dst srcva max c s = Done (r, dst ++ out) c s /\
    copyinstr_result (pm s) (leaf (pm s) T) srcva max n r out.
Proof using Hroot.
  intros Hus. revert dst srcva max. induction k as [|k IH]; intros dst srcva max Hk Hlen Hs Hmax.
  all: cbn [copyinstr_loop]; zcase (0 <? max) as E0;
    [|exists (-1), 0, []; split; [by rewrite app_nil_r|]; split; [constructor|]; right; left; split; [done|];
      split; [lia|done]].
  - lia.
  - assert (0 <= srcva < MAXVA) as Hs' by lia.
    destruct (PGROUNDDOWN_vpn srcva Hs') as [Hr0 Hv0].
    destruct (us_vm _ _ _ _ Hus) as (_ & Hrep & Hown).
    kstep (walkaddr_run c s T l root (PGROUNDDOWN srcva) Hrep Hown Hroot).
    rewrite (user_pa_vpn _ _ (PGROUNDDOWN srcva) srcva) by done.
    zcase (user_pa (leaf (pm s) T) srcva =? 0) as Ep.
    { exists (-1), 0, []. split; [by rewrite app_nil_r|]. split; [constructor|]. right. right.
      rewrite Z.add_0_r. split; [done|]. split; [lia|done]. }
    destruct (chunk_spec srcva max E0) as (Hn & Hfit & Hfull).
    fold (chunk srcva max). set (n := chunk srcva max) in *. krun.
    rewrite PGROUNDDOWN_off. destruct (PGROUNDDOWN_next srcva Hs') as [-> Hnext].
    set (src2 := srcva - srcva mod PGSIZE + PGSIZE) in *.
    pose proof (Z.mod_pos_bound srcva PGSIZE ltac:(done)) as Hmod.
    set (p := user_pa (leaf (pm s) T) srcva) in *.
    destruct (copyinstr_page_run (pm s) (Z.to_nat n) (p + srcva mod PGSIZE) dst max) as (j & Hj & HF & Hcase).
    assert (rd_list (pm s) (p + srcva mod PGSIZE) j = uloads (pm s) (leaf (pm s) T) srcva j) as Hrd
      by (apply rd_list_uloads; lia).
    rewrite Hrd in HF, Hcase. destruct Hcase as [(-> & Hlt & H0)|[-> ->]].
    + exists 0, (Z.of_nat j), (uloads (pm s) (leaf (pm s) T) srcva j ++ [0]). split; [done|].
      split; rewrite Nat2Z.id; [done|]. left. split; [done|]. split; [lia|]. split; [|split; [done|]].
      * unfold uload. rewrite user_pa_same_page by lia. fold p.
        replace ((srcva + Z.of_nat j) mod PGSIZE) with (srcva mod PGSIZE + Z.of_nat j)
          by (unfold PGSIZE in *; dlia).
        rewrite <- H0. f_equal. lia.
      * intros i Hi. rewrite user_pa_same_page by lia. done.
    + rewrite Z2Nat.id by lia.
      assert (n < max -> src2 = srcva + n) as Hsrc2 by (intros Hlt; specialize (Hfull Hlt); unfold src2; lia).
      destruct (IH (dst ++ uloads (pm s) (leaf (pm s) T) srcva (Z.to_nat n)) src2 (max - n))
        as (r & n2 & out & Hrun & HF2 & Hres); [lia|lia|unfold src2; lia| |].
      { destruct (decide (n < max)) as [Hlt|]; [rewrite Hsrc2 by done; lia|unfold src2 in *; lia]. }
      exists r, (n + n2), (uloads (pm s) (leaf (pm s) T) srcva (Z.to_nat n) ++ out).
      split; [by rewrite Hrun, <- app_assoc|]. by eapply copyinstr_result_app.
Qed.

End Thread.
End VmUser.
