(* ===== verification/VmSpace.v ===== *)
(** * Process memory: growing, shrinking and freeing (kernel/vm.c)

    [proc_mem s T l n] describes the memory of a process of [n] pages: virtual pages
    0 to [n - 1] are mapped, each to a page of its own ([proc_frames]), the rest of
    user space below the trapframe is unmapped, and the page table, the process's
    pages and the free pages are disjoint. *)
From S2P Require Import Prelude Memory Machine Riscv KString Kalloc Vm VmProps VmUser.

Section VmSpace.
Context {image : KernelImage}.

Definition proc_frames (s : pmem) (T : ptree) (n : nat) : list Z := frames (leaf (pm s) T) 0 n.

Record proc_mem (s : pmem) (T : ptree) (l : list Z) (n : nat) : Prop := {
  pr_vm : vm_ok s T l;
  pr_nodup : NoDup (pt_pages T ++ proc_frames s T n ++ l);
  pr_frames : Forall free_page (proc_frames s T n);
  pr_mapped : forall j, 0 <= j < Z.of_nat n -> unmappable (leaf (pm s) T (PGSIZE * j));
  pr_unmapped : forall j, Z.of_nat n <= j -> PGSIZE * j < TRAPFRAME ->
    pte_valid (leaf (pm s) T (PGSIZE * j)) = false;
  pr_top : forall va, TRAPFRAME <= va < MAXVA -> user_pa (leaf (pm s) T) va = 0;
  pr_size : PGSIZE * Z.of_nat n <= TRAPFRAME;
}.

Lemma TRAPFRAME_val : TRAPFRAME = 274877898752.
Proof. reflexivity. Qed.

Lemma TRAPFRAME_MAXVA : TRAPFRAME = MAXVA - 2 * PGSIZE.
Proof. reflexivity. Qed.

Lemma NoDup_perm {A} (l1 l2 : list A) : l1 ≡ₚ l2 -> NoDup l1 -> NoDup l2.
Proof. intros H. by rewrite H. Qed.

(** ** Lists of frames *)

Lemma length_frames e a n : length (frames e a n) = n.
Proof. revert a. induction n; intros; simpl; auto. Qed.

Lemma frames_app e a n k :
  frames e a (n + k) = frames e a n ++ frames e (a + PGSIZE * Z.of_nat n) k.
Proof.
  revert a. induction n as [|n IH]; intros a; simpl.
  - f_equal. lia.
  - rewrite IH. do 3 f_equal. lia.
Qed.

Lemma elem_of_frames e a n p :
  p ∈ frames e a n <-> exists j, 0 <= j < Z.of_nat n /\ p = PTE2PA (e (a + PGSIZE * j)).
Proof.
  revert a. induction n as [|n IH]; intros a; simpl.
  - split; [by intros ?%elem_of_nil|]. intros (j & Hj & _). lia.
  - rewrite elem_of_cons, IH. split.
    + intros [->|(j & Hj & ->)]; [exists 0; split; [lia|]; do 2 f_equal; lia|].
      exists (j + 1). split; [lia|]. do 2 f_equal. lia.
    + intros (j & Hj & ->). destruct (decide (j = 0)) as [->|]; [left; do 2 f_equal; lia|].
      right. exists (j - 1). split; [lia|]. do 2 f_equal. lia.
Qed.

Lemma frames_NoDup_inj e a n i j :
  NoDup (frames e a n) -> 0 <= i < Z.of_nat n -> 0 <= j < Z.of_nat n ->
  PTE2PA (e (a + PGSIZE * i)) = PTE2PA (e (a + PGSIZE * j)) -> i = j.
Proof.
  revert a i j. induction n as [|n IH]; intros a i j Hnd Hi Hj Heq; [lia|].
  apply NoDup_cons in Hnd as [Hni Hnd]. rewrite elem_of_frames in Hni.
  destruct (decide (i = 0)) as [->|]; destruct (decide (j = 0)) as [->|]; [done| | |].
  - exfalso. apply Hni. exists (j - 1). split; [lia|].
    replace (a + PGSIZE * 0) with a in Heq by lia. rewrite Heq. do 2 f_equal. lia.
  - exfalso. apply Hni. exists (i - 1). split; [lia|].
    replace (a + PGSIZE * 0) with a in Heq by lia. rewrite <- Heq. do 2 f_equal. lia.
  - assert (i - 1 = j - 1); [|lia]. apply (IH (a + PGSIZE)); [done|lia|lia|].
    replace (a + PGSIZE + PGSIZE * (i - 1)) with (a + PGSIZE * i) by lia.
    by replace (a + PGSIZE + PGSIZE * (j - 1)) with (a + PGSIZE * j) by lia.
Qed.

(** A page of [va] below the process size is page [vpn va]. *)
Lemma leaf_page m T va :
  0 <= va < MAXVA -> leaf m T va = leaf m T (PGSIZE * vpn va).
Proof.
  intros H. apply leaf_vpn; [done| |]; rewrite MAXVA_val in *; unfold vpn, PGSIZE in *; dlia.
Qed.

(** Process memory is a user address space in the sense of [copyout]. *)
Lemma proc_mem_uspace s T l n : proc_mem s T l n -> uspace s T l (proc_frames s T n).
Proof.
  intros H. assert (forall va, 0 <= va < MAXVA -> user_pa (leaf (pm s) T) va <> 0 ->
     0 <= vpn va < Z.of_nat n /\
     user_pa (leaf (pm s) T) va = PTE2PA (leaf (pm s) T (0 + PGSIZE * vpn va))) as Hpage.
  { intros va Hva Hu. assert (va < TRAPFRAME) as Htop.
    { destruct (decide (va < TRAPFRAME)); [done|]. destruct Hu. apply (pr_top _ _ _ _ H). lia. }
    assert (0 <= vpn va) as Hv0 by (unfold vpn, PGSIZE; dlia).
    assert (PGSIZE * vpn va <= va) as Hle by (unfold vpn, PGSIZE; dlia).
    unfold user_pa in *. zcase (va <? MAXVA); [|lia]. cbn [andb] in *.
    destruct (pte_has PTE_V (leaf (pm s) T va)) eqn:EV; [|done].
    destruct (pte_has PTE_U (leaf (pm s) T va)) eqn:EU; [|done]. cbn [andb] in *.
    split; [|by rewrite leaf_page at 1 by done]. split; [done|].
    destruct (decide (vpn va < Z.of_nat n)); [done|]. exfalso.
    pose proof (pr_unmapped _ _ _ _ H (vpn va) ltac:(lia) ltac:(lia)) as Hinv.
    rewrite <- leaf_page in Hinv by done. unfold pte_valid in Hinv. unfold pte_has in EV. congruence. }
  split; try apply H.
  - intros va Hva Hu. destruct (Hpage va Hva Hu) as [Hv ->]. apply elem_of_frames. eauto.
  - intros va va' Hva Hva' Hu Heq.
    destruct (Hpage va Hva Hu) as [Hv E1]. destruct (Hpage va' Hva') as [Hv' E2]; [congruence|].
    pose proof (pr_nodup _ _ _ _ H) as Hnd. apply NoDup_app in Hnd as (_ & _ & Hnd).
    apply NoDup_app in Hnd as (Hnd & _ & _).
    apply (frames_NoDup_inj (leaf (pm s) T) 0 n); [done|done|done|congruence].
Qed.

(** ** How the invariant moves *)

(** The free pages and the tree change, the mappings do not. *)
Lemma proc_mem_same s T l n s' T' l' :
  proc_mem s T l n -> vm_ok s' T' l' ->
  (forall va, 0 <= va < MAXVA -> leaf (pm s') T' va = leaf (pm s) T va) ->
  NoDup (pt_pages T' ++ proc_frames s T n ++ l') ->
  proc_mem s' T' l' n /\ proc_frames s' T' n = proc_frames s T n.
Proof.
  intros H Hok Hleaf Hnd. pose proof (pr_size _ _ _ _ H) as Hsz. rewrite TRAPFRAME_MAXVA in Hsz.
  assert (proc_frames s' T' n = proc_frames s T n) as Hfr.
  { apply frames_ext. intros j Hj. apply Hleaf. unfold PGSIZE in *. lia. }
  split; [|done]. split; rewrite ?Hfr; try apply H; try done.
  - intros j Hj. rewrite Hleaf by (unfold PGSIZE in *; lia). by apply H.
  - intros j Hj Hj'. rewrite Hleaf; [by apply H|]. rewrite TRAPFRAME_MAXVA in Hj'. unfold PGSIZE in *. lia.
  - intros va Hva. rewrite <- (pr_top _ _ _ _ H va Hva). apply user_pa_ext, Hleaf.
    rewrite TRAPFRAME_val in Hva. lia.
Qed.

(** One page is mapped at the end. *)
Lemma proc_mem_extend s T l n s' T' l' e :
  proc_mem s T l n -> vm_ok s' T' l' -> PGSIZE * Z.of_nat (S n) <= TRAPFRAME ->
  (forall va, 0 <= va < MAXVA ->
     leaf (pm s') T' va = if vpn va =? Z.of_nat n then e else leaf (pm s) T va) ->
  unmappable e -> free_page (PTE2PA e) ->
  NoDup (pt_pages T' ++ (proc_frames s T n ++ [PTE2PA e]) ++ l') ->
  proc_mem s' T' l' (S n) /\ proc_frames s' T' (S n) = proc_frames s T n ++ [PTE2PA e].
Proof.
  intros H Hok Hsz Hleaf He Hp Hnd. rewrite TRAPFRAME_MAXVA in Hsz.
  assert (forall j, 0 <= j -> PGSIZE * j < TRAPFRAME ->
    leaf (pm s') T' (PGSIZE * j) = if j =? Z.of_nat n then e else leaf (pm s) T (PGSIZE * j)) as Hl.
  { intros j Hj Hj'. rewrite TRAPFRAME_MAXVA in Hj'. rewrite Hleaf by (unfold PGSIZE in *; lia).
    by replace (vpn (PGSIZE * j)) with j by (unfold vpn, PGSIZE; dlia). }
  assert (proc_frames s' T' (S n) = proc_frames s T n ++ [PTE2PA e]) as Hfr.
  { unfold proc_frames. replace (S n) with (n + 1)%nat by lia. rewrite frames_app. f_equal.
    - apply frames_ext. intros j Hj. rewrite Z.add_0_l, Hl; [|lia|rewrite TRAPFRAME_MAXVA; unfold PGSIZE in *; lia].
      zcase (j =? Z.of_nat n); [lia|done].
    - cbn [frames]. rewrite Z.add_0_l, Hl; [|lia|rewrite TRAPFRAME_MAXVA; unfold PGSIZE in *; lia].
      by rewrite Z.eqb_refl. }
  split; [|done]. split; rewrite ?Hfr; try done.
  - apply Forall_app. split; [apply H|by constructor].
  - intros j Hj. rewrite Hl; [|lia|rewrite TRAPFRAME_MAXVA; unfold PGSIZE in *; lia].
    zcase (j =? Z.of_nat n); [done|]. apply (pr_mapped _ _ _ _ H). lia.
  - intros j Hj Hj'. rewrite Hl; [|lia|done]. zcase (j =? Z.of_nat n); [lia|].
    apply (pr_unmapped _ _ _ _ H); [lia|done].
  - intros va Hva. rewrite <- (pr_top _ _ _ _ H va Hva). apply user_pa_ext.
    rewrite Hleaf by (rewrite TRAPFRAME_val in Hva; lia).
    zcase (vpn va =? Z.of_nat n) as E; [|done]. exfalso.
    rewrite TRAPFRAME_MAXVA in Hva. unfold vpn, PGSIZE in *. dlia.
Qed.

(** The pages from [n'] on are unmapped. *)
Lemma proc_mem_shrink s T l n n' s' l' :
  proc_mem s T l n -> (n' <= n)%nat -> vm_ok s' T l' ->
  (forall va, 0 <= va < MAXVA ->
     leaf (pm s') T va = unmapped (leaf (pm s) T) (PGSIZE * Z.of_nat n') (Z.of_nat n - Z.of_nat n') va) ->
  NoDup (pt_pages T ++ proc_frames s T n' ++ l') ->
  proc_mem s' T l' n' /\ proc_frames s' T n' = proc_frames s T n'.
Proof.
  intros H Hn Hok Hleaf Hnd. pose proof (pr_size _ _ _ _ H) as Hsz. rewrite TRAPFRAME_MAXVA in Hsz.
  assert (forall j, 0 <= j -> PGSIZE * j < TRAPFRAME ->
    leaf (pm s') T (PGSIZE * j) =
    if (Z.of_nat n' <=? j) && (j <? Z.of_nat n) then 0 else leaf (pm s) T (PGSIZE * j)) as Hl.
  { intros j Hj Hj'. rewrite TRAPFRAME_MAXVA in Hj'. rewrite Hleaf by (unfold PGSIZE in *; lia).
    unfold unmapped. replace (vpn (PGSIZE * j)) with j by (unfold vpn, PGSIZE; dlia).
    replace (vpn (PGSIZE * Z.of_nat n')) with (Z.of_nat n') by (unfold vpn, PGSIZE; dlia).
    by replace (Z.of_nat n' + (Z.of_nat n - Z.of_nat n')) with (Z.of_nat n) by lia. }
  assert (forall j, 0 <= j < Z.of_nat n' -> leaf (pm s') T (PGSIZE * j) = leaf (pm s) T (PGSIZE * j)) as Hlow.
  { intros j Hj. rewrite Hl; [|lia|rewrite TRAPFRAME_MAXVA; unfold PGSIZE in *; lia].
    zcase (Z.of_nat n' <=? j); [lia|done]. }
  assert (proc_frames s' T n' = proc_frames s T n') as Hfr.
  { apply frames_ext. intros j Hj. rewrite Z.add_0_l. by apply Hlow. }
  split; [|done]. split; rewrite ?Hfr; try done.
  - pose proof (pr_frames _ _ _ _ H) as Hf. unfold proc_frames in *.
    replace n with (n' + (n - n'))%nat in Hf by lia. rewrite frames_app in Hf.
    by apply Forall_app in Hf as [? _].
  - intros j Hj. rewrite Hlow by done. apply (pr_mapped _ _ _ _ H). lia.
  - intros j Hj Hj'. rewrite Hl by (done || lia). zcase (Z.of_nat n' <=? j); [|lia].
    zcase (j <? Z.of_nat n); [done|]. apply (pr_unmapped _ _ _ _ H); [lia|done].
  - intros va Hva. rewrite <- (pr_top _ _ _ _ H va Hva). apply user_pa_ext.
    rewrite Hleaf by (rewrite TRAPFRAME_val in Hva; lia). unfold unmapped.
    replace (vpn (PGSIZE * Z.of_nat n')) with (Z.of_nat n') by (unfold vpn, PGSIZE; dlia).
    zcase (vpn va <? Z.of_nat n' + (Z.of_nat n - Z.of_nat n')); [|by rewrite andb_false_r].
    exfalso. rewrite TRAPFRAME_MAXVA in Hva. unfold vpn, PGSIZE in *. dlia.
  - unfold PGSIZE in *. rewrite TRAPFRAME_val. rewrite MAXVA_val in Hsz. lia.
Qed.

(** A change of size from [n] to [n'] pages: the pages the process keeps have the same
    entries and the same contents, no page is lost or gained, and memory outside the
    page table, the process and the free pages is untouched. *)
Record resized (s : pmem) (T : ptree) (l : list Z) (n : nat)
               (s' : pmem) (T' : ptree) (l' : list Z) (n' : nat) : Prop := {
  rs_mem : proc_mem s' T' l' n';
  rs_root : T' !! [] = T !! [];
  rs_perm : pt_pages T' ++ proc_frames s' T' n' ++ l' ≡ₚ pt_pages T ++ proc_frames s T n ++ l;
  rs_leaf : forall va, 0 <= va < MAXVA ->
    vpn va < Z.of_nat (n `min` n') \/ TRAPFRAME <= va -> leaf (pm s') T' va = leaf (pm s) T va;
  rs_data : forall j x, 0 <= j < Z.of_nat (n `min` n') ->
    in_page (PTE2PA (leaf (pm s) T (PGSIZE * j))) x -> rd (pm s') x = rd (pm s) x;
  rs_frame : forall x, (forall p, p ∈ pt_pages T ++ proc_frames s T n ++ l -> ~ in_page p x) ->
    rd (pm s') x = rd (pm s) x;
}.

Lemma resized_refl s T l n : proc_mem s T l n -> resized s T l n s T l n.
Proof. intros H. by split. Qed.

Lemma vpn_page j : vpn (PGSIZE * j) = j.
Proof. unfold vpn, PGSIZE. dlia. Qed.

Lemma resized_trans s1 T1 l1 n1 s2 T2 l2 n2 s3 T3 l3 n3 :
  (n1 `min` n3 <= n2)%nat -> PGSIZE * Z.of_nat n1 <= TRAPFRAME ->
  resized s1 T1 l1 n1 s2 T2 l2 n2 -> resized s2 T2 l2 n2 s3 T3 l3 n3 ->
  resized s1 T1 l1 n1 s3 T3 l3 n3.
Proof.
  intros Hn Hsz H1 H2. split.
  - apply H2.
  - by rewrite (rs_root _ _ _ _ _ _ _ _ H2), (rs_root _ _ _ _ _ _ _ _ H1).
  - by rewrite (rs_perm _ _ _ _ _ _ _ _ H2), (rs_perm _ _ _ _ _ _ _ _ H1).
  - intros va Hva Hor. rewrite (rs_leaf _ _ _ _ _ _ _ _ H2), (rs_leaf _ _ _ _ _ _ _ _ H1);
      (done || (destruct Hor; [left; lia|by right])).
  - intros j x Hj Hx. rewrite (rs_data _ _ _ _ _ _ _ _ H2 j), (rs_data _ _ _ _ _ _ _ _ H1 j);
      [done|lia|done|lia|].
    rewrite (rs_leaf _ _ _ _ _ _ _ _ H1); [done| |left; rewrite vpn_page; lia].
    rewrite TRAPFRAME_MAXVA in Hsz. unfold PGSIZE in *. lia.
  - intros x Hx. rewrite (rs_frame _ _ _ _ _ _ _ _ H2), (rs_frame _ _ _ _ _ _ _ _ H1); [done..|].
    intros p Hp. apply Hx. by rewrite <- (rs_perm _ _ _ _ _ _ _ _ H1).
Qed.

(** Pages of different regions do not overlap. *)
Lemma other_page p q x : free_page p -> free_page q -> in_page q x -> p <> q -> ~ in_page p x.
Proof.
  intros Hp Hq Hx Hne Hx'. eapply aligned_disjoint; [apply Hp|apply Hq|done|exact Hx'|exact Hx].
Qed.

Lemma proc_mem_pages s T l n p :
  proc_mem s T l n -> p ∈ pt_pages T ++ proc_frames s T n ++ l -> free_page p.
Proof.
  intros H. destruct (pr_vm _ _ _ _ H) as ((_ & Hl & _) & _ & _ & HT).
  apply free_list_pages in Hl. pose proof (pr_frames _ _ _ _ H) as HF.
  rewrite Forall_forall in Hl, HT, HF. rewrite !elem_of_app. intuition.
Qed.

(** ** [uvmcreate] *)

Section Thread.
Context (c : ctx) (Hc : steady c) (Hfree : LKmem ∉ c_held c).

Definition uvmcreate_state (s : pmem) (p : Z) : pmem :=
  PMem (memset (memset (pm s) p 5 PGSIZE) p 0 PGSIZE) (load64 (pm s) p).

Lemma uvmcreate_run s p l :
  kmem_ok s (p :: l) ->
  uvmcreate c s = Done p c (uvmcreate_state s p) /\
  proc_mem (uvmcreate_state s p) {[ [] := p ]} l 0 /\
  (forall va, leaf (pm (uvmcreate_state s p)) {[ [] := p ]} va = 0) /\
  (forall x, ~ in_page p x -> rd (pm (uvmcreate_state s p)) x = rd (pm s) x).
Proof using Hc Hfree.
  intros Hk. destruct (kalloc_page_steady c Hc Hfree s p l Hk) as [Hrun (Hm & Hl & Hnd)].
  destruct Hk as (_ & (_ & Hp & _) & [Hni _]%NoDup_cons). cbn [kalloc_state pm freelist] in Hm, Hl.
  assert (forall va, leaf (pm (uvmcreate_state s p)) {[ [] := p ]} va = 0) as Hleaf.
  { intros va. unfold leaf, leaf_slot. by rewrite lookup_singleton_ne. }
  assert (pt_pages {[ [] := p ]} = [p]) as Hpages.
  { unfold pt_pages. by rewrite map_to_list_singleton. }
  split; [|split; [|split; [done|]]].
  - unfold uvmcreate. kstep Hrun. pose proof (free_page_nonzero p Hp) as Hnz%Z.eqb_neq.
    rewrite Hnz. unfold mmemset. krun. unfold set_pm, kalloc_state. cbn [pm freelist]. reflexivity.
  - split.
    + split; [|split].
      * split; [by apply mem_ok_memset|]. split; [|done].
        cbn [uvmcreate_state pm freelist]. eapply free_list_agree; [|exact Hl].
        intros q Hq. apply free_list_pages in Hl. rewrite Forall_forall in Hl.
        apply agree_memset_page; [by apply free_page_aligned|by apply free_page_aligned, Hl|congruence].
      * split.
        -- intros path q i Hq Hlen Hi. apply lookup_singleton_Some in Hq as [<- <-].
           rewrite lookup_singleton_ne by done. apply load_zeros. intros x Hx.
           cbn [uvmcreate_state pm]. apply rd_memset_in; [unfold PGSIZE; lia|].
           by apply (slot_in_page p i).
        -- intros path i q Hq. apply lookup_singleton_Some in Hq as [Hq _]. by destruct path.
      * split; rewrite Hpages; [|by constructor]. by apply NoDup_cons.
    + rewrite Hpages. by apply NoDup_cons.
    + constructor.
    + intros j Hj. lia.
    + intros j _ _. rewrite Hleaf. done.
    + intros va _. unfold user_pa. rewrite Hleaf, !pte_has_0. by rewrite andb_false_r.
    + rewrite TRAPFRAME_val. lia.
  - intros x Hx. cbn [uvmcreate_state pm].
    rewrite !rd_memset_out; [done|unfold PGSIZE; lia|exact Hx|unfold PGSIZE; lia|exact Hx].
Qed.

(** ** [uvmdealloc] *)

Lemma PGROUNDUP_pages sz n : PGROUNDUP sz = PGSIZE * Z.of_nat n -> n = Z.to_nat (PGROUNDUP sz / PGSIZE).
Proof using. intros ->. unfold PGSIZE. dlia. Qed.

Lemma frames_split e a n n' :
  (n' <= n)%nat -> frames e a n = frames e a n' ++ frames e (a + PGSIZE * Z.of_nat n') (n - n').
Proof using. intros H. rewrite <- frames_app. f_equal. lia. Qed.

(** Unmapping the pages from [n'] on. *)
Section Tail.
Context (s : pmem) (T : ptree) (l : list Z) (n n' : nat).
Context (H : proc_mem s T l n) (Hn : (n' <= n)%nat).

Let G := frames (leaf (pm s) T) (PGSIZE * Z.of_nat n') (n - n').

Lemma proc_frames_tail : proc_frames s T n = proc_frames s T n' ++ G.
Proof using Hn. unfold proc_frames. by rewrite (frames_split _ _ n n'). Qed.

Lemma tail_nodup : NoDup ((pt_pages T ++ G ++ l) ++ proc_frames s T n').
Proof using H Hn.
  eapply NoDup_perm; [|exact (pr_nodup _ _ _ _ H)]. rewrite proc_frames_tail. solve_Permutation.
Qed.

Lemma tail_resized s' :
  vm_ok s' T (reverse G ++ l) ->
  (forall va, 0 <= va < MAXVA ->
     leaf (pm s') T va = unmapped (leaf (pm s) T) (PGSIZE * Z.of_nat n') (Z.of_nat n - Z.of_nat n') va) ->
  (forall x, (forall p, p ∈ pt_pages T ++ G -> ~ in_page p x) -> rd (pm s') x = rd (pm s) x) ->
  resized s T l n s' T (reverse G ++ l) n'.
Proof using H Hn.
  intros Hok Hleaf Hfr. pose proof tail_nodup as Hnd. pose proof (pr_frames _ _ _ _ H) as Hf.
  rewrite proc_frames_tail in Hf. apply Forall_app in Hf as [Hf' _].
  destruct (proc_mem_shrink s T l n n' s' (reverse G ++ l) H Hn Hok Hleaf) as [Hmem Hfrm].
  { eapply NoDup_perm; [|exact Hnd]. rewrite reverse_Permutation. solve_Permutation. }
  pose proof (pr_size _ _ _ _ H) as Hsz. rewrite TRAPFRAME_MAXVA in Hsz.
  split; [done|done| | | |].
  - rewrite Hfrm, proc_frames_tail, reverse_Permutation. solve_Permutation.
  - intros va Hva Hor. rewrite Hleaf by done. unfold unmapped. rewrite vpn_page.
    zcase (Z.of_nat n' <=? vpn va); [|done].
    zcase (vpn va <? Z.of_nat n' + (Z.of_nat n - Z.of_nat n')); [|done].
    exfalso. rewrite TRAPFRAME_MAXVA in Hor. unfold vpn, PGSIZE in *. destruct Hor; dlia.
  - intros j x Hj Hx. apply Hfr. intros p Hp.
    assert (PTE2PA (leaf (pm s) T (PGSIZE * j)) ∈ proc_frames s T n') as Hin
      by (apply elem_of_frames; exists j; split; [lia|done]).
    rewrite Forall_forall in Hf'. eapply other_page; [|by apply Hf'|done|].
    + eapply proc_mem_pages; [exact H|]. rewrite proc_frames_tail. rewrite !elem_of_app in *. tauto.
    + intros ->. apply NoDup_app in Hnd as (_ & Hd & _).
      eapply Hd; [|done]. rewrite !elem_of_app in *. tauto.
  - intros x Hx. apply Hfr. intros p Hp. apply Hx. rewrite proc_frames_tail. rewrite !elem_of_app in *. tauto.
Qed.

Lemma unmap_tail root :
  T !! [] = Some root ->
  exists s',
    uvmunmap root (PGSIZE * Z.of_nat n') (Z.of_nat n - Z.of_nat n') true c s = Done tt c s' /\
    resized s T l n s' T (reverse G ++ l) n'.
Proof using Hc Hfree H Hn.
  intros Hroot. pose proof (pr_size _ _ _ _ H) as Hsz. rewrite TRAPFRAME_MAXVA in Hsz.
  pose proof tail_nodup as Hnd. pose proof (pr_frames _ _ _ _ H) as Hf.
  rewrite proc_frames_tail in Hf. apply Forall_app in Hf as [_ HG].
  assert (Z.to_nat (Z.of_nat n - Z.of_nat n') = (n - n')%nat) as Hk by lia.
  destruct (uvmunmap_run c Hc Hfree true s T l root (PGSIZE * Z.of_nat n') (Z.of_nat n - Z.of_nat n'))
    as (s' & Hrun & Hok & Hleaf & Hfr); rewrite ?Hk in *;
    try (unfold PGSIZE in *; lia); try apply H; try done.
  - unfold page_aligned, PGSIZE. dlia.
  - intros j Hj. rewrite <- Z.mul_add_distr_l. apply (pr_mapped _ _ _ _ H). lia.
  - by apply NoDup_app in Hnd as [? _].
  - exists s'. split; [done|]. by apply tail_resized.
Qed.
End Tail.

Lemma uvmdealloc_run s T l n n' root oldsz newsz :
  proc_mem s T l n -> T !! [] = Some root -> 0 <= newsz -> 0 <= oldsz <= PGSIZE * Z.of_nat n ->
  PGROUNDUP oldsz = PGSIZE * Z.of_nat n ->
  PGROUNDUP (Z.min oldsz newsz) = PGSIZE * Z.of_nat n' ->
  exists s',
    uvmdealloc root oldsz newsz c s = Done (Z.min oldsz newsz) c s' /\
    resized s T l n s' T
      (reverse (frames (leaf (pm s) T) (PGSIZE * Z.of_nat n') (n - n')) ++ l) n'.
Proof using Hc Hfree.
  intros H Hroot Hnew Hold Hn Hn'. unfold uvmdealloc.
  pose proof (pr_size _ _ _ _ H) as Hsz. rewrite TRAPFRAME_val in Hsz.
  zcase (oldsz <=? newsz).
  - rewrite Z.min_l in * by lia. assert (n' = n) as -> by (unfold PGSIZE in *; lia).
    rewrite Nat.sub_diag. exists s. split; [done|]. by apply resized_refl.
  - rewrite Z.min_r in * by lia. rewrite Hn, Hn'.
    zcase (PGSIZE * Z.of_nat n' <? PGSIZE * Z.of_nat n).
    + replace ((PGSIZE * Z.of_nat n - PGSIZE * Z.of_nat n') / PGSIZE) with (Z.of_nat n - Z.of_nat n')
        by (unfold PGSIZE; dlia).
      rewrite s32_small, u64_small by (unfold PGSIZE in *; lia).
      destruct (unmap_tail s T l n n' H ltac:(unfold PGSIZE in *; lia) root Hroot) as (s' & Hrun & Hres).
      exists s'. split; [|done]. by kstep Hrun.
    + assert (n' = n) as ->.
      { rewrite PGROUNDUP_eq in Hn, Hn' by lia. unfold PGSIZE in *. dlia. }
      rewrite Nat.sub_diag. exists s. split; [done|]. by apply resized_refl.
Qed.

(** ** Adding one page: [kalloc], filling the page, [mappages] *)

Lemma kalloc_proc s T p l n :
  proc_mem s T (p :: l) n ->
  kalloc c s = Done p c (kalloc_state s p) /\ free_page p /\
  NoDup (p :: pt_pages T ++ proc_frames s T n ++ l) /\
  vm_ok (kalloc_state s p) T l /\
  (forall va, leaf (pm (kalloc_state s p)) T va = leaf (pm s) T va) /\
  (forall x, ~ in_page p x -> rd (pm (kalloc_state s p)) x = rd (pm s) x).
Proof using Hc Hfree.
  intros H. destruct (pr_vm _ _ _ _ H) as (Hk & Hr & Hown & HT).
  destruct (kalloc_page_steady c Hc Hfree s p l Hk) as [Hrun Hk'].
  assert (free_page p) as Hp by (destruct Hk as (_ & (_ & Hp & _) & _); done).
  assert (NoDup (p :: pt_pages T ++ proc_frames s T n ++ l)) as Hnd.
  { eapply NoDup_perm; [|exact (pr_nodup _ _ _ _ H)]. solve_Permutation. }
  assert (forall q, q ∈ pt_pages T -> agree_on (in_page q) (pm s) (pm (kalloc_state s p))) as Hag.
  { intros q Hq. rewrite Forall_forall in HT. cbn [kalloc_state pm].
    apply agree_memset_page; [by apply free_page_aligned|by apply free_page_aligned, HT|].
    intros ->. apply NoDup_cons in Hnd as [Hni _]. apply Hni. apply elem_of_app. by left. }
  split; [done|]. split; [done|]. split; [done|]. split; [|split].
  - split; [done|]. split; [by eapply pt_rep_agree|]. split; [|done].
    rewrite <- Permutation_middle in Hown. by apply NoDup_cons in Hown as [_ ?].
  - intros va. by apply leaf_agree.
  - intros x Hx. cbn [kalloc_state pm]. rewrite rd_memset_out; [done|unfold PGSIZE; lia|exact Hx].
Qed.

(** Writing into a page that is not free. *)
Lemma kmem_fill s l p m' :
  kmem_ok s l -> free_page p -> (p ∉ l) -> mem_ok m' ->
  (forall x, ~ in_page p x -> rd m' x = rd (pm s) x) -> kmem_ok (PMem m' (freelist s)) l.
Proof using.
  intros (Hm & Hl & Hnd) Hp Hni Hm' Hout. split; [done|]. split; [|done].
  cbn [pm freelist]. eapply free_list_agree; [|exact Hl].
  intros q Hq x Hx. pose proof (free_list_pages _ _ _ Hl) as HL. rewrite Forall_forall in HL.
  symmetry. apply Hout. apply (other_page p q x); [done|auto|done|]. intros ->. done.
Qed.

(** Writing into a page that belongs neither to the tree nor to the free list. *)
Lemma fill_vm s T l p m' :
  vm_ok s T l -> free_page p -> (p ∉ pt_pages T ++ l) -> mem_ok m' ->
  (forall x, ~ in_page p x -> rd m' x = rd (pm s) x) ->
  vm_ok (PMem m' (freelist s)) T l /\ forall va, leaf m' T va = leaf (pm s) T va.
Proof using.
  intros (Hk & Hr & Hown & HT) Hp Hni Hm' Hout. rewrite elem_of_app in Hni.
  assert (forall q, free_page q -> q <> p -> agree_on (in_page q) (pm s) m') as Hag.
  { intros q Hq Hne x Hx. symmetry. apply Hout. eapply other_page; eauto. }
  assert (forall q, q ∈ pt_pages T -> agree_on (in_page q) (pm s) m') as HagT.
  { intros q Hq. rewrite Forall_forall in HT. apply Hag; [auto|]. intros ->. tauto. }
  split; [|intros va; by apply leaf_agree]. split; [|split].
  - eapply kmem_fill; [exact Hk|exact Hp|tauto|done|done].
  - by eapply pt_rep_agree.
  - by split.
Qed.

Lemma span_one_page n : span (PGSIZE * n) PGSIZE = 0.
Proof using. unfold span. rewrite !PGROUNDDOWN_eq. unfold PGSIZE. dlia. Qed.

(** The leaf entry [mappages] writes. *)
Definition leaf_pte (pa perm : Z) : Z := Z.lor (Z.lor (PA2PTE pa) perm) PTE_V.

Lemma leaf_pte_ok p perm :
  free_page p -> 0 <= perm < 1024 -> Z.lor perm PTE_V <> PTE_V ->
  unmappable (leaf_pte p perm) /\ PTE2PA (leaf_pte p perm) = p.
Proof using.
  intros Hp Hperm Hne. unfold leaf_pte. rewrite <- Z.lor_assoc.
  destruct (pte_perm_eq p perm (free_page_56 p Hp) Hperm) as [_ Hb].
  split; [split|].
  - unfold pte_valid. rewrite Z.lor_assoc. apply pte_has_V_lor.
  - by rewrite PTE_FLAGS_of_pa by (done || by apply free_page_56).
  - apply PTE2PA_of_pa; [by apply free_page_56|by apply free_page_aligned|done].
Qed.

Section AddPage.
Context (s : pmem) (T : ptree) (p : Z) (l : list Z) (n : nat) (root perm : Z) (m' : mem).
Context (H : proc_mem s T (p :: l) n) (Hroot : T !! [] = Some root).
Context (Hsz : PGSIZE * Z.of_nat (S n) <= TRAPFRAME).
Context (Hperm : 0 <= perm < 1024) (Hleafy : Z.lor perm PTE_V <> PTE_V).
Context (Hm' : mem_ok m').
Context (Hout : forall x, ~ in_page p x -> rd m' x = rd (pm (kalloc_state s p)) x).

Let s1 := PMem m' (freelist (kalloc_state s p)).

Lemma added_page : free_page p.
Proof using H Hc Hfree. by destruct (kalloc_proc s T p l n H) as (_ & ? & _). Qed.

Lemma added_nodup : NoDup (p :: pt_pages T ++ proc_frames s T n ++ l).
Proof using H Hc Hfree. by destruct (kalloc_proc s T p l n H) as (_ & _ & ? & _). Qed.

Lemma filled_vm : vm_ok s1 T l /\ (forall va, leaf (pm s1) T va = leaf (pm s) T va) /\
  forall x, ~ in_page p x -> rd (pm s1) x = rd (pm s) x.
Proof using H Hc Hfree Hperm Hm' Hout.
  destruct (kalloc_proc s T p l n H) as (_ & Hp & Hnd & Hok & Hleaf & Hrd).
  destruct (fill_vm (kalloc_state s p) T l p m' Hok Hp) as [Hok' Hleaf']; [|done|done|].
  - apply NoDup_cons in Hnd as [Hni _]. rewrite !elem_of_app in *. tauto.
  - split; [done|]. split; [intros va; cbn [s1 pm]; by rewrite Hleaf', Hleaf|].
    intros x Hx. cbn [s1 pm]. by rewrite Hout, Hrd.
Qed.

(** What a process page keeps when only table pages and free pages are written. *)
Lemma added_frame s2 T2 l2 :
  pt_grow s1 T l s2 T2 l2 ->
  (forall x, (forall q, q ∈ pt_pages T ++ l -> ~ in_page q x) -> ~ in_page p x ->
     rd (pm s2) x = rd (pm s) x) /\
  (forall x, in_page p x -> rd (pm s2) x = rd m' x) /\
  (forall q x, q ∈ proc_frames s T n -> in_page q x -> rd (pm s2) x = rd (pm s) x).
Proof using H Hc Hfree Hperm Hm' Hout.
  intros Hg. destruct filled_vm as (Hok & _ & Hrd). pose proof added_nodup as Hnd.
  assert (forall q, q ∈ pt_pages T2 -> q ∈ pt_pages T ++ l) as Hsub.
  { intros q Hq. rewrite <- (grow_perm _ _ _ _ _ _ Hg). apply elem_of_app. by left. }
  assert (forall q, q ∈ pt_pages T ++ l -> free_page q) as Hfp.
  { intros q Hq. eapply proc_mem_pages; [exact H|]. rewrite !elem_of_app, elem_of_cons in *. tauto. }
  assert (forall x, (forall q, q ∈ pt_pages T ++ l -> ~ in_page q x) -> ~ in_page p x ->
     rd (pm s2) x = rd (pm s) x) as Hframe.
  { intros x Hx Hxp. rewrite (grow_frame _ _ _ _ _ _ Hg) by auto. by apply Hrd. }
  split; [done|]. apply NoDup_cons in Hnd as [Hni Hnd]. split.
  - intros x Hx. rewrite (grow_frame _ _ _ _ _ _ Hg); [done|]. intros q Hq.
    eapply other_page; [eauto|exact added_page|exact Hx|]. intros ->. apply Hni.
    apply Hsub in Hq. rewrite !elem_of_app in *. tauto.
  - intros q x Hq Hx. assert (free_page q) as Hqf.
    { eapply proc_mem_pages; [exact H|]. rewrite !elem_of_app in *. tauto. }
    apply Hframe; [intros r Hr|]; eapply other_page; [eauto|exact Hqf|exact Hx| | |exact Hqf|exact Hx|].
    + intros ->. assert (NoDup ((pt_pages T ++ l) ++ proc_frames s T n)) as Hd
        by (eapply NoDup_perm; [|exact Hnd]; solve_Permutation).
      apply NoDup_app in Hd as (_ & Hd & _). by apply (Hd q).
    + exact added_page.
    + intros ->. apply Hni. rewrite !elem_of_app. tauto.
Qed.

Lemma page_frame j : 0 <= j < Z.of_nat n -> PTE2PA (leaf (pm s) T (PGSIZE * j)) ∈ proc_frames s T n.
Proof using. intros Hj. apply elem_of_frames. exists j. split; [done|]. do 2 f_equal. Qed.

Lemma add_page_success s2 T2 l2 :
  vm_ok s2 T2 l2 -> pt_grow s1 T l s2 T2 l2 ->
  (forall va, 0 <= va < MAXVA ->
     leaf (pm s2) T2 va = if vpn va =? Z.of_nat n then leaf_pte p perm else leaf (pm s) T va) ->
  resized s T (p :: l) n s2 T2 l2 (S n) /\
  proc_frames s2 T2 (S n) = proc_frames s T n ++ [p].
Proof using H Hc Hfree Hroot Hsz Hperm Hleafy Hm' Hout.
  intros Hok2 Hg Hleaf. destruct (leaf_pte_ok p perm added_page Hperm Hleafy) as [Hum Hpa].
  assert (pt_pages T2 ++ (proc_frames s T n ++ [p]) ++ l2 ≡ₚ pt_pages T ++ proc_frames s T n ++ p :: l) as Hpm.
  { transitivity (p :: proc_frames s T n ++ (pt_pages T2 ++ l2)); [solve_Permutation|].
    rewrite (grow_perm _ _ _ _ _ _ Hg). solve_Permutation. }
  destruct (proc_mem_extend s T (p :: l) n s2 T2 l2 _ H Hok2 Hsz Hleaf Hum) as [Hmem Hfr];
    rewrite ?Hpa in *; [exact added_page|rewrite Hpm; apply H|].
  destruct (added_frame s2 T2 l2 Hg) as (HF & _ & HD). split; [|done]. split.
  - done.
  - rewrite Hroot. eapply lookup_weaken; [done|apply Hg].
  - by rewrite Hfr.
  - intros va Hva Hor. rewrite Hleaf by done. zcase (vpn va =? Z.of_nat n); [|done]. exfalso.
    rewrite TRAPFRAME_MAXVA in *. unfold vpn, PGSIZE in *. destruct Hor; dlia.
  - intros j x Hj Hx. eapply HD; [|exact Hx]. apply page_frame. lia.
  - intros x Hx. apply HF; [intros q Hq|]; apply Hx; rewrite !elem_of_app, elem_of_cons in *; tauto.
Qed.

Lemma add_page_failure s2 T2 :
  vm_ok s2 T2 [] -> pt_grow s1 T l s2 T2 [] ->
  (forall va, 0 <= va < MAXVA -> leaf (pm s2) T2 va = leaf (pm s) T va) ->
  exists s3, kfree p c s2 = Done tt c s3 /\ resized s T (p :: l) n s3 T2 [p] n.
Proof using H Hc Hfree Hroot Hsz Hperm Hm' Hout.
  intros Hok2 Hg Hleaf. pose proof added_nodup as Hnd. pose proof (grow_perm _ _ _ _ _ _ Hg) as Hgp.
  rewrite app_nil_r in Hgp. apply NoDup_cons in Hnd as [Hni Hnd].
  destruct (kfree_vm c Hc Hfree s2 T2 [] p Hok2 added_page) as (Hrun & Hok3 & Hl3 & Hf3).
  { apply not_elem_of_nil. }
  { rewrite Hgp. rewrite !elem_of_app in *. tauto. }
  destruct (added_frame s2 T2 [] Hg) as (HF & _ & HD).
  assert (pt_pages T2 ++ proc_frames s T n ++ [p] ≡ₚ pt_pages T ++ proc_frames s T n ++ p :: l) as Hpm.
  { rewrite Hgp. solve_Permutation. }
  destruct (proc_mem_same s T (p :: l) n (kfree_state s2 p) T2 [p] H Hok3) as [Hmem Hfr].
  { intros va Hva. rewrite Hl3. by apply Hleaf. }
  { rewrite Hpm. apply H. }
  exists (kfree_state s2 p). split; [done|]. split.
  - done.
  - rewrite Hroot. eapply lookup_weaken; [done|apply Hg].
  - by rewrite Hfr.
  - intros va Hva _. rewrite Hl3. by apply Hleaf.
  - intros j x Hj Hx. assert (PTE2PA (leaf (pm s) T (PGSIZE * j)) ∈ proc_frames s T n) as Hin
      by (apply page_frame; lia).
    rewrite Hf3; [by eapply HD|]. pose proof added_page.
    eapply other_page; [done| |exact Hx|intros Heq; apply Hni; rewrite Heq, !elem_of_app; tauto].
    eapply proc_mem_pages; [exact H|]. rewrite !elem_of_app. tauto.
  - intros x Hx. assert (~ in_page p x) as Hxp
      by (apply Hx; rewrite !elem_of_app, elem_of_cons; tauto).
    rewrite Hf3 by done. apply HF; [intros q Hq|done]. apply Hx. rewrite !elem_of_app, elem_of_cons in *; tauto.
Qed.

Lemma add_page_run :
  exists s2 T2 l2 r,
    mappages root (PGSIZE * Z.of_nat n) PGSIZE p perm c s1 = Done r c s2 /\
    ((r = 0 /\ resized s T (p :: l) n s2 T2 l2 (S n) /\
      proc_frames s2 T2 (S n) = proc_frames s T n ++ [p] /\
      leaf (pm s2) T2 (PGSIZE * Z.of_nat n) = leaf_pte p perm /\
      (forall x, in_page p x -> rd (pm s2) x = rd m' x)) \/
     (r = -1 /\ exists s3, kfree p c s2 = Done tt c s3 /\ resized s T (p :: l) n s3 T2 [p] n)).
Proof using H Hc Hfree Hroot Hsz Hperm Hleafy Hm' Hout.
  destruct filled_vm as (Hok1 & Hleaf1 & _). pose proof (span_one_page (Z.of_nat n)) as Hspan.
  pose proof added_page as Hp. pose proof (free_page_56 p Hp) as Hp56.
  assert (PGROUNDDOWN (PGSIZE * Z.of_nat n) = PGSIZE * Z.of_nat n) as Hdown
    by (rewrite PGROUNDDOWN_eq; unfold PGSIZE; dlia).
  pose proof Hsz as Hsz'. rewrite TRAPFRAME_MAXVA in Hsz'.
  destruct (mappages_run c Hc Hfree s1 T l root (PGSIZE * Z.of_nat n) PGSIZE p perm Hok1 Hroot)
    as (s2 & T2 & l2 & r & k & Hrun & Hok2 & Hg & Hleaf & _ & Hres); rewrite ?Hspan, ?Hdown in *;
    try (unfold PGSIZE in *; lia).
  - intros j Hj. assert (j = 0) as -> by lia. rewrite Hleaf1, Z.mul_0_r, Z.add_0_r.
    apply (pr_unmapped _ _ _ _ H); [lia|]. rewrite TRAPFRAME_MAXVA. unfold PGSIZE in *; lia.
  - exists s2, T2, l2, r. split; [done|]. destruct Hres as [[-> ->]|(-> & -> & Hk)]; [left|right].
    + assert (forall va, 0 <= va < MAXVA ->
        leaf (pm s2) T2 va = if vpn va =? Z.of_nat n then leaf_pte p perm else leaf (pm s) T va) as Hl.
      { intros va Hva. rewrite Hleaf by done. replace (0 + 1) with 1 by lia.
        rewrite mapped_1, vpn_page, Hleaf1. done. }
      destruct (add_page_success s2 T2 l2 Hok2 Hg Hl) as [Hrs Hfr].
      split; [done|]. split; [done|]. split; [done|]. split.
      * rewrite Hl by (unfold PGSIZE in *; lia). by rewrite vpn_page, Z.eqb_refl.
      * by apply (added_frame s2 T2 l2 Hg).
    + assert (k = 0) as -> by lia. split; [done|]. apply add_page_failure; [done|done|].
      intros va Hva. rewrite Hleaf by done. by rewrite mapped_0, Hleaf1.
Qed.
End AddPage.

(** ** [uvmalloc] *)

(** Page [j] is mapped with permissions [perm] to a page of zeros. *)
Definition zero_page (s : pmem) (T : ptree) (perm j : Z) : Prop :=
  exists p, free_page p /\ leaf (pm s) T (PGSIZE * j) = leaf_pte p perm /\
    forall x, in_page p x -> rd (pm s) x = 0.

Lemma zero_page_resized s T l n s' T' l' n' perm j :
  resized s T l n s' T' l' n' -> proc_mem s T l n -> 0 <= perm < 1024 -> Z.lor perm PTE_V <> PTE_V ->
  0 <= j < Z.of_nat (n `min` n') ->
  zero_page s T perm j -> zero_page s' T' perm j.
Proof using.
  intros Hr H Hperm Hne Hj (p & Hp & Hl & Hz). exists p. split; [done|].
  pose proof (pr_size _ _ _ _ H) as Hsz. rewrite TRAPFRAME_MAXVA in Hsz. split.
  - rewrite (rs_leaf _ _ _ _ _ _ _ _ Hr); [done|unfold PGSIZE in *; lia|left; rewrite vpn_page; lia].
  - intros x Hx. rewrite (rs_data _ _ _ _ _ _ _ _ Hr j); [by apply Hz|done|].
    rewrite Hl. by rewrite (proj2 (leaf_pte_ok p perm Hp Hperm Hne)).
Qed.

Definition uvm_perm (xperm : Z) : Z := Z.lor (Z.lor PTE_R PTE_U) xperm.

Lemma uvm_perm_ok xperm :
  0 <= xperm < 1024 -> 0 <= uvm_perm xperm < 1024 /\ Z.lor (uvm_perm xperm) PTE_V <> PTE_V.
Proof using.
  intros Hx. assert (Z.testbit (uvm_perm xperm) 1 = true) as Hb.
  { unfold uvm_perm. by rewrite !Z.lor_spec. }
  assert (0 <= uvm_perm xperm) as H0 by (unfold uvm_perm; apply Z.lor_nonneg; split; [done|lia]).
  split; [split; [done|]|].
  - apply (Z.log2_lt_pow2 _ 10).
    + apply Z.le_neq. split; [done|]. intros E. rewrite <- E in Hb. done.
    + unfold uvm_perm. rewrite Z.log2_lor by (done || lia). apply Z.max_lub_lt; [done|].
      destruct (decide (xperm = 0)) as [->|]; [done|]. apply Z.log2_lt_pow2; lia.
  - intros E. apply (f_equal (fun z => Z.testbit z 1)) in E. rewrite Z.lor_spec, Hb in E. done.
Qed.

(** The rollback of a failed [uvmalloc]. *)
Lemma uvmalloc_rollback s T l n n0 root :
  proc_mem s T l n -> (n0 <= n)%nat -> T !! [] = Some root ->
  exists s' l',
    (uvmdealloc root (PGSIZE * Z.of_nat n) (PGSIZE * Z.of_nat n0) ;; ret 0) c s = Done 0 c s' /\
    resized s T l n s' T l' n0 /\ length l' = (n - n0 + length l)%nat.
Proof using Hc Hfree.
  intros H Hn Hroot. pose proof (pr_size _ _ _ _ H) as Hsz. rewrite TRAPFRAME_val in Hsz.
  assert (forall k, (k <= n)%nat -> PGROUNDUP (PGSIZE * Z.of_nat k) = PGSIZE * Z.of_nat k) as Hup.
  { intros k Hk. rewrite PGROUNDUP_eq by (unfold PGSIZE in *; lia). unfold PGSIZE. dlia. }
  destruct (uvmdealloc_run s T l n n0 root (PGSIZE * Z.of_nat n) (PGSIZE * Z.of_nat n0) H Hroot)
    as (s' & Hrun & Hres); [unfold PGSIZE; lia|unfold PGSIZE; lia|by apply Hup| |].
  { rewrite Z.min_r by (unfold PGSIZE; lia). by apply Hup. }
  eexists s', _. split; [by kstep Hrun|]. split; [done|].
  by rewrite length_app, length_reverse, length_frames.
Qed.

Lemma uvmalloc_loop_run k s T l n n0 N root newsz xperm :
  proc_mem s T l n -> T !! [] = Some root -> 0 <= xperm < 1024 ->
  (n0 <= n <= N)%nat -> newsz <= PGSIZE * Z.of_nat (n + k) ->
  PGSIZE * Z.of_nat N - PGSIZE < newsz <= PGSIZE * Z.of_nat N -> PGSIZE * Z.of_nat N <= TRAPFRAME ->
  exists s' T' l' r,
    uvmalloc_loop k root (PGSIZE * Z.of_nat n) (PGSIZE * Z.of_nat n0) newsz xperm c s = Done r c s' /\
    ((r = newsz /\ resized s T l n s' T' l' N /\
      forall j, Z.of_nat n <= j < Z.of_nat N -> zero_page s' T' (uvm_perm xperm) j) \/
     (r = 0 /\ resized s T l n s' T' l' n0 /\ (length l' <= N - n0)%nat)).
Proof using Hc Hfree.
  intros H Hroot Hx. destruct (uvm_perm_ok xperm Hx) as [Hperm Hleafy].
  revert s T l n H Hroot. induction k as [|k IH]; intros s T l n H Hroot Hn Hk HN Htop; cbn [uvmalloc_loop];
    pose proof Htop as Htop'; rewrite TRAPFRAME_val in Htop'.
  - zcase (PGSIZE * Z.of_nat n <? newsz); [unfold PGSIZE in *; lia|].
    assert (n = N) as -> by (unfold PGSIZE in *; lia).
    exists s, T, l, newsz. split; [done|]. left. split; [done|]. split; [by apply resized_refl|]. intros; lia.
  - zcase (PGSIZE * Z.of_nat n <? newsz) as Elt.
    2:{ assert (n = N) as -> by (unfold PGSIZE in *; lia).
        exists s, T, l, newsz. split; [done|]. left. split; [done|].
        split; [by apply resized_refl|]. intros; lia. }
    assert (n < N)%nat as HnN by (unfold PGSIZE in *; lia). destruct l as [|p l].
    + destruct (pr_vm _ _ _ _ H) as (Hkm & _). kstep (kalloc_empty_steady c Hc Hfree s Hkm). cbn [Z.eqb].
      destruct (uvmalloc_rollback s T [] n n0 root H ltac:(lia) Hroot) as (s' & l' & Hrun & Hres & Hlen).
      exists s', T, l', 0. split; [done|]. right. split; [done|]. split; [done|]. simpl in Hlen. lia.
    + destruct (kalloc_proc s T p l n H) as (Hrun & Hp & _ & ((Hm1 & _) & _) & _). kstep Hrun.
      pose proof (free_page_nonzero p Hp) as Hnz%Z.eqb_neq. rewrite Hnz. unfold mmemset at 1. krun.
      destruct (add_page_run s T p l n root (uvm_perm xperm) (memset (pm (kalloc_state s p)) p 0 PGSIZE) H Hroot)
        as (s2 & T2 & l2 & r & Hmap & Hcase);
        [unfold PGSIZE in *; rewrite TRAPFRAME_val; lia|done|done|by apply mem_ok_memset| |].
      { intros x Hx'. rewrite rd_memset_out; [done|unfold PGSIZE; lia|exact Hx']. }
      unfold set_pm, kalloc_state in *. cbn [pm freelist] in *. fold (uvm_perm xperm). kstep Hmap.
      destruct Hcase as [(-> & Hres & _ & Hleaf & Hdata)|(-> & s3 & Hfree' & Hres)]; cbn [Z.eqb negb].
      * rewrite u64_small by (unfold PGSIZE in *; lia).
        replace (PGSIZE * Z.of_nat n + PGSIZE) with (PGSIZE * Z.of_nat (S n)) by lia.
        destruct (IH s2 T2 l2 (S n)) as (s' & T' & l' & r & Hloop & Hfin);
          [apply Hres|by rewrite (rs_root _ _ _ _ _ _ _ _ Hres)|lia|unfold PGSIZE in *; lia|done|done|].
        exists s', T', l', r. split; [done|].
        destruct Hfin as [(-> & Hres' & Hz)|(-> & Hres' & Hlen)]; [left|right].
        -- split; [done|]. split; [eapply resized_trans; [|apply H|exact Hres|exact Hres']; lia|].
           intros j Hj. destruct (decide (j = Z.of_nat n)) as [->|]; [|apply Hz; lia].
           eapply zero_page_resized; [exact Hres'|apply Hres|done|done|lia|].
           exists p. split; [done|]. split; [done|]. intros x Hx'. rewrite Hdata by done.
           apply rd_memset_in; [unfold PGSIZE; lia|exact Hx'].
        -- split; [done|]. split; [eapply resized_trans; [|apply H|exact Hres|exact Hres']; lia|done].
      * kstep Hfree'. destruct (uvmalloc_rollback s3 T2 [p] n n0 root) as (s' & l' & Hrb & Hres' & Hlen);
          [apply Hres|lia|by rewrite (rs_root _ _ _ _ _ _ _ _ Hres)|].
        exists s', T2, l', 0. split; [exact Hrb|]. right. split; [done|].
        split; [eapply resized_trans; [|apply H|exact Hres|exact Hres']; lia|]. simpl in Hlen. lia.
Qed.

End Thread.
End VmSpace.
