(* ===== verification/VmFree.v ===== *)
(** * Freeing page tables and copying address spaces (kernel/vm.c)

    [freewalk] gives every page of a page table whose leaf entries are invalid back to
    the allocator; [uvmfree] frees a process's memory and its page table; [uvmcopy]
    copies a process's memory into an empty address space, for [fork]. *)
From S2P Require Import Prelude Memory Machine Riscv KString Kalloc Vm VmProps VmUser VmSpace.

(** The tree without the subtree at [path]. *)
Definition prune (path : list Z) (T : ptree) : ptree :=
  filter (fun kv => ~ path `prefix_of` kv.1) T.

(** The tree without what is strictly below [path]. *)
Definition prune_below (path : list Z) (T : ptree) : ptree :=
  filter (fun kv => ~ (path `prefix_of` kv.1 /\ kv.1 <> path)) T.

(** The second half of [pt_rep]: every table but the root hangs from another. *)
Definition pt_closed (T : ptree) : Prop :=
  forall path i q, T !! (path ++ [i]) = Some q ->
    is_Some (T !! path) /\ (length path < 2)%nat /\ 0 <= i < fanout path.

(** The tables at and below [path] are in memory, with no valid leaf entry. *)
Definition sub_rep (m : mem) (T : ptree) (path : list Z) : Prop :=
  forall path' q i, path `prefix_of` path' -> T !! path' = Some q -> 0 <= i < 512 ->
    match T !! (path' ++ [i]) with
    | Some q' => load64 m (slot q i) = Z.lor (PA2PTE q') PTE_V
    | None => pte_valid (load64 m (slot q i)) = false
    end.

Section VmFree.
Context {image : KernelImage}.

(** ** Pruning *)

Lemma prune_Some path T k q : prune path T !! k = Some q <-> T !! k = Some q /\ ~ path `prefix_of` k.
Proof. unfold prune. rewrite map_lookup_filter_Some. done. Qed.

Lemma prune_None path T k : prune path T !! k = None <-> T !! k = None \/ path `prefix_of` k.
Proof.
  unfold prune. rewrite map_lookup_filter_None. simpl. split.
  - intros [H|H]; [by left|]. destruct (T !! k) as [q|] eqn:E; [|by left].
    right. destruct (decide (path `prefix_of` k)); [done|]. by destruct (H q).
  - intros [H|H]; [by left|]. right. intros q _ []. done.
Qed.

Lemma prune_below_prune path i T :
  prune_below path (prune (path ++ [i]) T) = prune_below path T.
Proof.
  unfold prune_below, prune. rewrite map_filter_filter. apply map_filter_strong_ext.
  intros k q. simpl. split.
  - intros [[H _] Hk]. done.
  - intros [H Hk]. split; [|done]. split; [done|]. intros Hp. apply H. split.
    + etrans; [|exact Hp]. by apply prefix_app_r.
    + intros ->. apply prefix_length in Hp. rewrite length_app in Hp. simpl in Hp. lia.
Qed.

Lemma prune_of_below path T : prune path T = delete path (prune_below path T).
Proof.
  apply map_eq. intros k. destruct (decide (k = path)) as [->|Hne].
  - rewrite lookup_delete_eq. apply prune_None. by right.
  - rewrite lookup_delete_ne by done. apply option_eq. intros q.
    rewrite prune_Some. unfold prune_below. rewrite map_lookup_filter_Some. cbn [fst]. tauto.
Qed.

Lemma prune_closed path T : pt_closed T -> pt_closed (prune path T).
Proof.
  intros H k i q Hq. apply prune_Some in Hq as [Hq Hp]. destruct (H k i q Hq) as ([q' Hq'] & ? & ?).
  split; [|done]. exists q'. apply prune_Some. split; [done|]. intros Hk. apply Hp.
  by apply prefix_app_r.
Qed.

(** A table below [path] hangs from a child of [path]. *)
Lemma closed_child T path suf q :
  pt_closed T -> suf <> [] -> T !! (path ++ suf) = Some q ->
  exists i q', 0 <= i < 512 /\ T !! (path ++ [i]) = Some q'.
Proof.
  intros H. revert q. induction suf as [|x suf IH] using rev_ind; intros q Hne Hq; [done|].
  rewrite app_assoc in Hq. destruct (H _ _ _ Hq) as ([q' Hq'] & _ & Hi).
  destruct suf as [|y suf].
  - rewrite app_nil_r in Hq, Hi. exists x, q. pose proof (fanout_le path). split; [lia|done].
  - by apply (IH q').
Qed.

Lemma prune_below_id T path :
  pt_closed T -> (forall i, 0 <= i < 512 -> T !! (path ++ [i]) = None) -> prune_below path T = T.
Proof.
  intros H Hnone. unfold prune_below. apply map_filter_id. intros k q Hq [[suf Hk] Hne]. cbn [fst] in *. subst k.
  destruct (closed_child T path suf q H) as (i & q' & Hi & Hq').
  - intros ->. by rewrite app_nil_r in Hne.
  - exact Hq.
  - by rewrite Hnone in Hq'.
Qed.

Lemma sub_rep_child m T path i :
  sub_rep m T path -> sub_rep m T (path ++ [i]).
Proof. intros H path' q j Hp. apply H. etrans; [|exact Hp]. by apply prefix_app_r. Qed.

(** ** [freewalk] *)

Section Thread.
Context (c : ctx) (Hc : steady c) (Hfree : LKmem ∉ c_held c).

(** Memory outside the pages that [T'] lacks is unchanged. *)
Definition pages_kept (s : pmem) (T : ptree) (s' : pmem) (T' : ptree) : Prop :=
  forall x, (forall k q, T !! k = Some q -> T' !! k = None -> ~ in_page q x) ->
    rd (pm s') x = rd (pm s) x.

Lemma table_pte_rwx q :
  free_page q -> Z.land (Z.lor (PA2PTE q) PTE_V) (Z.lor (Z.lor PTE_R PTE_W) PTE_X) = 0.
Proof using.
  intros Hq. assert (PTE_FLAGS (Z.lor (PA2PTE q) PTE_V) = PTE_V) as HF
    by (apply PTE_FLAGS_of_pa; [by apply free_page_56|done]).
  unfold PTE_FLAGS in HF. transitivity (Z.land (Z.land (Z.lor (PA2PTE q) PTE_V) 1023) (Z.lor (Z.lor PTE_R PTE_W) PTE_X)).
  - rewrite <- Z.land_assoc. f_equal.
  - change 1023 with 0x3FF. rewrite HF. reflexivity.
Qed.

(** A page of the tree that [T'] keeps is unchanged. *)
Lemma pages_kept_page s T l s' T' k q :
  pages_kept s T s' T' -> pt_own T l -> T !! k = Some q -> T' !! k = Some q ->
  agree_on (in_page q) (pm s) (pm s').
Proof using.
  intros H Hown Hq Hq' x Hx. symmetry. apply H. intros k' q' Hk' HN.
  apply (other_page q' q x); [exact (pt_own_page T l k' q' Hown Hk')|exact (pt_own_page T l k q Hown Hq)|done|].
  intros ->. assert (k = k') as -> by eauto using pt_pages_inj. congruence.
Qed.

Lemma pt_own_prune path T l l' :
  pt_own T l -> pt_pages (prune path T) ++ l' ≡ₚ pt_pages T ++ l -> pt_own (prune path T) l'.
Proof using.
  intros [Hnd HF] Hperm. split; [by rewrite Hperm|]. apply Forall_forall. intros q Hq.
  apply elem_of_pt_pages in Hq as [k Hk]. apply prune_Some in Hk as [Hk _].
  rewrite Forall_forall in HF. apply HF. apply elem_of_pt_pages. eauto.
Qed.

Lemma prune_kept_trans s1 T s2 k path s3 :
  pages_kept s1 T s2 (prune path T) ->
  pages_kept s2 (prune k T) s3 (prune path (prune k T)) -> pages_kept s1 T s3 (prune path T).
Proof using.
  intros H1 H2 x Hx. rewrite H2; [by apply H1|]. intros k' q Hq HN.
  pose proof Hq as [Hq' _]%prune_Some. apply (Hx k'); [done|].
  apply prune_None in HN as [HN|HN]; [congruence|]. apply prune_None. by right.
Qed.

Lemma not_below_self (path : list Z) i : ~ (path ++ [i]) `prefix_of` path.
Proof using. intros H%prefix_length. rewrite length_app in H. simpl in H. lia. Qed.

Lemma prefix_snoc_inv (a b : list Z) j : a `prefix_of` (b ++ [j]) -> a `prefix_of` b \/ a = b ++ [j].
Proof using.
  intros [suf H]. destruct suf as [|x suf _] using rev_ind; [right; by rewrite app_nil_r in H|].
  left. rewrite app_assoc in H. apply app_inj_2 in H as [-> _]; [|done]. by apply prefix_app_r.
Qed.

Section Entry.
Context (path : list Z) (p : Z) (s : pmem) (T : ptree) (l : list Z) (i q : Z) (s1 : pmem) (l1 : list Z).
Context (Hp : T !! path = Some p) (Hown : pt_own T l) (Hi : 0 <= i < 512).
Context (Hq : T !! (path ++ [i]) = Some q) (Hkept : pages_kept s T s1 (prune (path ++ [i]) T)).

Let s2 := set_pm (store64 (pm s1) (slot p i) 0) s1.

Lemma entry_kept : pages_kept s T s2 (prune path T).
Proof using Hp Hi Hkept.
  intros x Hx. cbn [s2 set_pm pm].
  assert (~ in_page p x) as Hxp by (apply (Hx path); [done|by apply prune_None; right]).
  rewrite rd_store_out by (intros Hw; apply Hxp; by eapply slot_in_page).
  apply Hkept. intros k r Hk HN. apply (Hx k); [done|]. apply prune_None in HN as [?|HN]; [congruence|].
  apply prune_None. right. etrans; [|exact HN]. by apply prefix_app_r.
Qed.

Lemma entry_sub_rep : sub_rep (pm s) T path -> sub_rep (pm s2) (prune (path ++ [i]) T) path.
Proof using Hp Hown Hi Hq Hkept.
  intros H k r j Hk Hr Hj. pose proof Hr as [Hr' Hnp]%prune_Some.
  assert (free_page r) as Hrf by (by eapply pt_own_page).
  assert (free_page p) as Hpf by (by eapply pt_own_page).
  assert (load64 (pm s1) (slot r j) = load64 (pm s) (slot r j)) as H1.
  { symmetry. apply load_slot_agree; [done|]. by eapply pages_kept_page. }
  specialize (H k r j Hk Hr' Hj). cbn [s2 set_pm pm]. destruct (decide (k = path /\ j = i)) as [[-> ->]|Hne].
  - assert (r = p) as -> by congruence.
    rewrite (proj2 (prune_None (path ++ [i]) T (path ++ [i])) (or_intror (reflexivity _))).
    rewrite load64_store64 by lia. done.
  - rewrite load_store_slot; [|by apply free_page_aligned|by apply free_page_aligned|done|done|].
    + rewrite H1. destruct (prune (path ++ [i]) T !! (k ++ [j])) as [r'|] eqn:E.
      * apply prune_Some in E as [E _]. by rewrite E in H.
      * apply prune_None in E as [E|E]; [by rewrite E in H|].
        destruct Hne. apply prefix_snoc_inv in E as [E|E]; [done|]. apply app_inj_2 in E as [-> [= ->]]; done.
    + destruct (decide (k = path)) as [->|Hkp]; [right; intros Hij; apply Hne; split; [done|congruence]|left].
      intros ->. apply Hkp. eauto using pt_pages_inj.
Qed.
Lemma entry_kmem : kmem_ok s1 l1 -> free_page p -> 0 <= i < 512 -> p ∉ l1 -> kmem_ok s2 l1.
Proof using.
  intros Hk Hpf Hi' Hni. apply (kmem_fill s1 l1 p); [done|done|done|by apply mem_ok_store, Hk|].
  intros x Hx. apply rd_store_out. intros Hw. apply Hx. by eapply slot_in_page.
Qed.
End Entry.

Section Entries.
Context (depth : nat) (path : list Z) (p : Z).
(** [freewalk] on a child table. *)
Context (IH : forall s T l i q,
  T !! (path ++ [i]) = Some q -> pt_closed T -> sub_rep (pm s) T (path ++ [i]) ->
  pt_own T l -> kmem_ok s l ->
  exists s' l', freewalk depth q c s = Done tt c s' /\ kmem_ok s' l' /\
    pt_pages (prune (path ++ [i]) T) ++ l' ≡ₚ pt_pages T ++ l /\
    pages_kept s T s' (prune (path ++ [i]) T)).

Lemma freewalk_entries_run k s T l i :
  Z.of_nat k = 512 - i -> 0 <= i ->
  T !! path = Some p -> pt_closed T -> sub_rep (pm s) T path -> pt_own T l -> kmem_ok s l ->
  (forall j, 0 <= j < i -> T !! (path ++ [j]) = None) ->
  exists s' l', freewalk_entries (freewalk depth) p k i c s = Done tt c s' /\ kmem_ok s' l' /\
    pt_pages (prune_below path T) ++ l' ≡ₚ pt_pages T ++ l /\
    pages_kept s T s' (prune path T).
Proof using IH Hc Hfree.
  revert s T l i. induction k as [|k IHk]; intros s T l i Hk Hi Hp Hcl Hrep Hown Hkm Hdone;
    cbn [freewalk_entries].
  - exists s, l. split; [done|]. split; [done|]. split; [|done].
    rewrite prune_below_id; [done|done|]. intros j Hj. apply Hdone. lia.
  - unfold mload64. krun. pose proof (Hrep path p i (reflexivity _) Hp ltac:(lia)) as Hent.
    destruct (T !! (path ++ [i])) as [q|] eqn:Hq.
    + assert (free_page q) as Hqf by (by eapply pt_own_page).
      rewrite Hent, pte_V_of_page, table_pte_rwx, PTE2PA_of_page by done. cbn [andb Z.eqb].
      destruct (IH s T l i q Hq Hcl (sub_rep_child _ _ _ i Hrep) Hown Hkm) as (s1 & l1 & Hrun & Hkm1 & Hperm & Hkept).
      set (s2 := set_pm (store64 (pm s1) (slot p i) 0) s1).
      assert ((freewalk depth q ;; mstore64 (slot p i) 0) c s = Done tt c s2) as Hboth by (by kstep Hrun).
      kstep Hboth.
      pose proof (pt_own_prune _ _ _ _ Hown Hperm) as Hown1.
      assert (prune (path ++ [i]) T !! path = Some p) as Hp1
        by (apply prune_Some; split; [done|apply not_below_self]).
      destruct (IHk s2 (prune (path ++ [i]) T) l1 (i + 1)) as (s' & l' & Hloop & Hkm' & Hperm' & Hkept');
        [lia|lia|done|by apply prune_closed| |done| | |].
      * eapply entry_sub_rep; try done; lia.
      * apply entry_kmem; [done|by eapply pt_own_page|lia|].
        destruct Hown1 as [Hnd _]. apply NoDup_app in Hnd as (_ & Hd & _).
        apply Hd, elem_of_pt_pages. eauto.
      * intros j Hj. apply prune_None. destruct (decide (j = i)) as [->|]; [by right|].
        left. apply Hdone. lia.
      * exists s', l'. rewrite prune_below_prune in Hperm'. split; [exact Hloop|]. split; [done|].
        split; [by rewrite Hperm'|]. eapply prune_kept_trans; [|exact Hkept'].
        eapply entry_kept; [done|lia|done].
    + unfold pte_valid in Hent. rewrite Hent. cbn [andb]. krun.
      apply IHk; [lia|lia|done|done|done|done|done|].
      intros j Hj. destruct (decide (j = i)) as [->|]; [done|]. apply Hdone. lia.
Qed.
End Entries.

Lemma pt_pages_delete T path p : T !! path = Some p -> pt_pages T ≡ₚ p :: pt_pages (delete path T).
Proof using.
  intros H. rewrite <- (insert_delete_id T path p) at 1 by done.
  apply pt_pages_insert, lookup_delete_eq.
Qed.

Lemma freewalk_run depth path p s T l :
  (length path + depth = 3)%nat -> T !! path = Some p -> pt_closed T -> sub_rep (pm s) T path ->
  pt_own T l -> kmem_ok s l ->
  exists s' l', freewalk depth p c s = Done tt c s' /\ kmem_ok s' l' /\
    pt_pages (prune path T) ++ l' ≡ₚ pt_pages T ++ l /\ pages_kept s T s' (prune path T).
Proof using Hc Hfree.
  revert path p s T l. induction depth as [|depth IH]; intros path p s T l Hlen Hp Hcl Hrep Hown Hkm.
  - exfalso. destruct path as [|x path _] using rev_ind; [done|].
    destruct (Hcl _ _ _ Hp) as (_ & Hl & _). rewrite length_app in Hlen. simpl in Hlen. lia.
  - cbn [freewalk].
    destruct (freewalk_entries_run depth path p) with (k := 512%nat) (s := s) (T := T) (l := l) (i := 0)
      as (s1 & l1 & Hrun & Hkm1 & Hperm1 & Hkept1); try done; try lia.
    { intros s' T' l' i q Hq. apply IH; [|done]. rewrite length_app. simpl. lia. }
    kstep Hrun.
    assert (free_page p) as Hpf by (by eapply pt_own_page).
    assert (prune_below path T !! path = Some p) as Hpb.
    { unfold prune_below. apply map_lookup_filter_Some. split; [done|]. cbn [fst]. tauto. }
    rewrite (pt_pages_delete _ _ _ Hpb), <- prune_of_below in Hperm1.
    assert (p ∉ l1) as Hni.
    { destruct Hown as [Hnd _]. rewrite <- Hperm1 in Hnd. apply NoDup_cons in Hnd as [Hn _].
      rewrite elem_of_app in Hn. tauto. }
    destruct (kfree_page_steady c Hc Hfree s1 p l1 Hkm1 Hpf Hni) as [Hfr Hkm2].
    eexists _, (p :: l1). split; [exact Hfr|]. split; [done|].
    split; [rewrite <- Hperm1; solve_Permutation|].
    intros x Hx. assert (~ in_page p x) as Hxp by (apply (Hx path); [done|apply prune_None; by right]).
    rewrite <- (Hkept1 x Hx). cbn [kfree_state pm]. rewrite rd_store_out, rd_memset_out;
      [done|unfold PGSIZE; lia|exact Hxp|]. unfold in_page, within, PGSIZE in *. simpl. lia.
Qed.

(** A leaf table's entries are the leaves of its addresses. *)
Lemma leaf_table_entry m T i2 i1 i q :
  0 <= i2 < 512 -> 0 <= i1 < 512 -> 0 <= i < 512 -> T !! [i2; i1] = Some q ->
  i2 < 256 ->
  exists va, 0 <= va < MAXVA /\ leaf m T va = load64 m (slot q i).
Proof using.
  intros H2 H1 H0 Hq Hlow. exists (PGSIZE * (262144 * i2 + 512 * i1 + i)).
  assert (0 <= PGSIZE * (262144 * i2 + 512 * i1 + i) < MAXVA) as Hva
    by (rewrite MAXVA_val; unfold PGSIZE; lia).
  split; [done|]. destruct (PX_of_vpn _ Hva) as (E2 & E1 & E0). rewrite vpn_page in E2, E1, E0.
  unfold leaf, leaf_slot, vpath. rewrite E2, E1, E0.
  replace ((262144 * i2 + 512 * i1 + i) / 262144) with i2 by dlia.
  replace (((262144 * i2 + 512 * i1 + i) / 512) mod 512) with i1 by dlia.
  replace ((262144 * i2 + 512 * i1 + i) mod 512) with i by dlia. by rewrite Hq.
Qed.

(** Freeing a whole table: every page of the tree becomes free. *)
Lemma freewalk_root s T l root :
  vm_ok s T l -> T !! [] = Some root ->
  (forall va, 0 <= va < MAXVA -> pte_valid (leaf (pm s) T va) = false) ->
  exists s' l', freewalk 3 root c s = Done tt c s' /\ kmem_ok s' l' /\ l' ≡ₚ pt_pages T ++ l /\
    (forall x, (forall q, q ∈ pt_pages T -> ~ in_page q x) -> rd (pm s') x = rd (pm s) x).
Proof using Hc Hfree.
  intros (Hkm & [Hr1 Hr2] & Hown) Hroot Hleaf.
  destruct (freewalk_run 3 [] root s T l) as (s' & l' & Hrun & Hkm' & Hperm & Hkept); try done.
  - intros k q i _ Hq Hi. destruct (decide (length k < 2)%nat) as [Hlt|Hge].
    + rewrite (Hr1 k q i Hq Hlt Hi). destruct (T !! (k ++ [i])); done.
    + destruct (T !! (k ++ [i])) as [q'|] eqn:E; [apply Hr2 in E as (_ & ? & _); lia|].
      destruct k as [|i2 [|i1 [|]]]; simpl in Hge; try lia.
      * destruct (Hr2 [i2] i1 q Hq) as ([q1 Hq1] & _ & H1). destruct (Hr2 [] i2 q1 Hq1) as (_ & _ & H2).
        cbn [fanout] in H1, H2.
        destruct (leaf_table_entry (pm s) T i2 i1 i q) as (va & Hva & <-); try lia; [done|]. by apply Hleaf.
      * exfalso. destruct l0 as [|x k _] using rev_ind.
        -- by destruct (Hr2 [i2; i1] z q Hq) as (_ & Hl & _); simpl in Hl; lia.
        -- destruct (Hr2 (i2 :: i1 :: z :: k) x q Hq) as (_ & Hl & _). simpl in Hl. lia.
  - exists s', l'. split; [done|]. split; [done|]. split.
    + assert (prune [] T = ∅) as Hempty.
      { apply map_empty. intros k. apply prune_None. right. apply prefix_nil. }
      by rewrite Hempty in Hperm.
    + intros x Hx. apply Hkept. intros k q Hq _. apply Hx, elem_of_pt_pages. eauto.
Qed.

(** ** [uvmfree] *)

Lemma uvmfree_run s T l n root sz :
  proc_mem s T l n -> T !! [] = Some root -> 0 <= sz <= TRAPFRAME ->
  PGROUNDUP sz = PGSIZE * Z.of_nat n ->
  (forall va, TRAPFRAME <= va < MAXVA -> pte_valid (leaf (pm s) T va) = false) ->
  exists s' l', uvmfree root sz c s = Done tt c s' /\ kmem_ok s' l' /\
    l' ≡ₚ pt_pages T ++ proc_frames s T n ++ l /\
    (forall x, (forall p, p ∈ pt_pages T ++ proc_frames s T n ++ l -> ~ in_page p x) ->
       rd (pm s') x = rd (pm s) x).
Proof using Hc Hfree.
  intros H Hroot Hsz Hn Htop. unfold uvmfree. pose proof (pr_size _ _ _ _ H) as Hsize.
  assert (exists s1 l1, when (0 <? sz) (uvmunmap root 0 (PGROUNDUP sz / PGSIZE) true) c s = Done tt c s1 /\
            resized s T l n s1 T l1 0) as (s1 & l1 & Hrun & Hres).
  { rewrite TRAPFRAME_val in *. zcase (0 <? sz).
    - destruct (unmap_tail c Hc Hfree s T l n 0 H ltac:(lia) root Hroot) as (s1 & Hrun & Hres).
      exists s1. eexists. split; [|exact Hres]. rewrite Hn.
      replace (PGSIZE * Z.of_nat n / PGSIZE) with (Z.of_nat n - Z.of_nat 0) by (unfold PGSIZE; dlia).
      exact Hrun.
    - assert (n = 0%nat) as ->.
      { rewrite PGROUNDUP_eq in Hn by lia. unfold PGSIZE in *. dlia. }
      exists s, l. split; [done|]. by apply resized_refl. }
  kstep Hrun. destruct Hres as [Hmem1 _ Hperm Hleaf _ Hframe].
  destruct (freewalk_root s1 T l1 root) as (s' & l' & Hfw & Hkm & Hpl & Hkept); [apply Hmem1|done| |].
  - intros va Hva. destruct (decide (TRAPFRAME <= va)).
    + rewrite Hleaf; [apply Htop; lia|done|by right].
    + rewrite leaf_page by done. apply (pr_unmapped _ _ _ _ Hmem1); unfold vpn, PGSIZE; dlia.
  - exists s', l'. split; [done|]. split; [done|]. split; [by rewrite Hpl, <- Hperm|].
    intros x Hx. rewrite Hkept; [by apply Hframe|]. intros q Hq. apply Hx. apply elem_of_app. by left.
Qed.

(** ** [uvmcopy] *)

(** Two address spaces over one free list. *)
Record two_procs (s : pmem) (To : ptree) (no : nat) (Tn : ptree) (n : nat) (l : list Z) : Prop := {
  tp_old : proc_mem s To l no;
  tp_new : proc_mem s Tn l n;
  tp_nodup : NoDup ((pt_pages To ++ proc_frames s To no) ++ (pt_pages Tn ++ proc_frames s Tn n ++ l));
}.

(** Resizing one address space leaves the other alone. *)
Lemma two_procs_resized s To no Tn n l s' Tn' l' n' :
  two_procs s To no Tn n l -> resized s Tn l n s' Tn' l' n' ->
  two_procs s' To no Tn' n' l' /\
  (forall va, leaf (pm s') To va = leaf (pm s) To va) /\
  (forall p x, p ∈ proc_frames s To no -> in_page p x -> rd (pm s') x = rd (pm s) x).
Proof using.
  intros [Ho Hn Hnd] Hres.
  assert (forall p x, p ∈ pt_pages To ++ proc_frames s To no -> in_page p x -> rd (pm s') x = rd (pm s) x) as Hkeep.
  { intros p x Hp Hx. apply (rs_frame _ _ _ _ _ _ _ _ Hres). intros q Hq.
    apply (other_page q p x); [by eapply proc_mem_pages| |done|].
    - eapply proc_mem_pages; [exact Ho|]. rewrite !elem_of_app in *. tauto.
    - intros ->. apply NoDup_app in Hnd as (_ & Hd & _). by apply (Hd p). }
  assert (forall q, q ∈ pt_pages To -> agree_on (in_page q) (pm s) (pm s')) as Hag.
  { intros q Hq x Hx. symmetry. apply (Hkeep q); [|done]. apply elem_of_app. by left. }
  assert (forall va, leaf (pm s') To va = leaf (pm s) To va) as Hleaf by (intros va; by apply leaf_agree).
  assert (NoDup ((pt_pages To ++ proc_frames s To no) ++ (pt_pages Tn' ++ proc_frames s' Tn' n' ++ l'))) as Hnd'
    by (by rewrite (rs_perm _ _ _ _ _ _ _ _ Hres)).
  assert (NoDup ((pt_pages To ++ proc_frames s To no ++ l') ++ pt_pages Tn' ++ proc_frames s' Tn' n')) as Hnd2
    by (eapply NoDup_perm; [|exact Hnd']; solve_Permutation).
  apply NoDup_app in Hnd2 as [Hnd2 _]. pose proof (rs_mem _ _ _ _ _ _ _ _ Hres) as Hmem'.
  destruct (proc_mem_same s To l no s' To l' Ho) as [Ho' Hfr]; [|by intros|done|].
  - destruct (pr_vm _ _ _ _ Hmem') as (Hkm & _). destruct (pr_vm _ _ _ _ Ho) as (_ & Hr & _ & HF).
    split; [done|]. split; [by eapply pt_rep_agree|]. split; [|done].
    assert (NoDup ((pt_pages To ++ l') ++ proc_frames s To no)) as Hx
      by (eapply NoDup_perm; [|exact Hnd2]; solve_Permutation).
    by apply NoDup_app in Hx as [? _].
  - split; [split; [done|done|by rewrite Hfr]|]. split; [done|].
    intros p x Hp. apply Hkeep. apply elem_of_app. by right.
Qed.

(** Page [j] of the new space is a copy of page [j] of the old one: same flags, same bytes. *)
Definition copied (s : pmem) (To Tn : ptree) (j : Z) : Prop :=
  exists p, free_page p /\
    leaf (pm s) Tn (PGSIZE * j) = leaf_pte p (PTE_FLAGS (leaf (pm s) To (PGSIZE * j))) /\
    forall o, 0 <= o < PGSIZE ->
      rd (pm s) (p + o) = rd (pm s) (PTE2PA (leaf (pm s) To (PGSIZE * j)) + o).

Lemma PTE_FLAGS_bound e : 0 <= PTE_FLAGS e < 1024.
Proof using. rewrite PTE_FLAGS_eq. dlia. Qed.

Lemma unmappable_flags e : unmappable e -> Z.lor (PTE_FLAGS e) PTE_V <> PTE_V.
Proof using.
  intros [Hv Hf]. assert (Z.lor (PTE_FLAGS e) PTE_V = PTE_FLAGS e) as ->; [|done].
  apply Z.bits_inj'. intros i Hi. rewrite Z.lor_spec. destruct (decide (i = 0)) as [->|Hne].
  - unfold pte_valid in Hv. change (truth (Z.land e PTE_V)) with (pte_has PTE_V e) in Hv.
    rewrite pte_has_V in Hv. unfold PTE_FLAGS. rewrite Z.land_spec, Hv. done.
  - change PTE_V with (2 ^ 0). rewrite (Z.pow2_bits_false 0 i) by lia. apply orb_false_r.
Qed.

Lemma copied_resized s To no Tn n l s' Tn' l' n' j :
  two_procs s To no Tn n l -> resized s Tn l n s' Tn' l' n' -> (n <= no)%nat ->
  0 <= j < Z.of_nat (n `min` n') -> copied s To Tn j -> copied s' To Tn' j.
Proof using.
  intros Htp Hres Hno Hj (p & Hp & Hl & Hd).
  destruct (two_procs_resized _ _ _ _ _ _ _ _ _ _ Htp Hres) as (_ & Hleaf & Hdata).
  pose proof (tp_old _ _ _ _ _ _ Htp) as Ho. pose proof (tp_new _ _ _ _ _ _ Htp) as Hn.
  pose proof (pr_size _ _ _ _ Hn) as Hsz. rewrite TRAPFRAME_MAXVA in Hsz.
  assert (unmappable (leaf (pm s) To (PGSIZE * j))) as Hum by (apply (pr_mapped _ _ _ _ Ho); lia).
  exists p. split; [done|]. split.
  - rewrite Hleaf, (rs_leaf _ _ _ _ _ _ _ _ Hres); [done|unfold PGSIZE in *; lia|left; rewrite vpn_page; lia].
  - intros o Hoff. rewrite Hleaf.
    rewrite (rs_data _ _ _ _ _ _ _ _ Hres j); [|done|].
    + rewrite Hd by done. symmetry. eapply Hdata; [apply (page_frame s To no j); lia|].
      unfold in_page, within. lia.
    + rewrite Hl. destruct (leaf_pte_ok p (PTE_FLAGS (leaf (pm s) To (PGSIZE * j))) Hp) as [_ ->];
        [apply PTE_FLAGS_bound|by apply unmappable_flags|]. unfold in_page, within. lia.
Qed.

(** The entry of the old table that the loop reads. *)
Lemma uvmcopy_entry s To l no root j :
  proc_mem s To l no -> To !! [] = Some root -> 0 <= j < Z.of_nat no ->
  exists pte, walk root (PGSIZE * j) false c s = Done pte c s /\ pte <> 0 /\
    load64 (pm s) pte = leaf (pm s) To (PGSIZE * j).
Proof using.
  intros H Hroot Hj. destruct (pr_vm _ _ _ _ H) as (_ & Hr & Hown).
  pose proof (pr_size _ _ _ _ H) as Hsz. rewrite TRAPFRAME_MAXVA in Hsz.
  destruct (pr_mapped _ _ _ _ H j Hj) as [Hv _]. unfold leaf in *.
  destruct (leaf_slot To (PGSIZE * j)) as [a|] eqn:Ha; [|done]. exists a.
  split; [rewrite (walk_noalloc c s To l root) by (first [done|unfold PGSIZE in *; lia]); by rewrite Ha|].
  split; [by eapply leaf_slot_nonzero|done].
Qed.

Lemma uvmcopy_err_run s T l n root :
  proc_mem s T l n -> T !! [] = Some root ->
  exists s' l', uvmcopy_err root (PGSIZE * Z.of_nat n) c s = Done (-1) c s' /\
    resized s T l n s' T l' 0 /\ length l' = (n + length l)%nat.
Proof using Hc Hfree.
  intros H Hroot. destruct (unmap_tail c Hc Hfree s T l n 0 H ltac:(lia) root Hroot) as (s' & Hrun & Hres).
  eexists s', _. split; [|split; [exact Hres|]].
  - unfold uvmcopy_err.
    replace (PGSIZE * Z.of_nat n / PGSIZE) with (Z.of_nat n - Z.of_nat 0) by (unfold PGSIZE; dlia).
    by kstep Hrun.
  - rewrite length_app, length_reverse, length_frames. lia.
Qed.

(** One page: [kalloc], [memmove] and [mappages] of one iteration. *)
Lemma copy_page_run s To no Tn n p l new :
  two_procs s To no Tn n (p :: l) -> Tn !! [] = Some new -> (n < no)%nat ->
  let e := leaf (pm s) To (PGSIZE * Z.of_nat n) in
  let s1 := PMem (memmove (pm (kalloc_state s p)) p (PTE2PA e) PGSIZE) (freelist (kalloc_state s p)) in
  exists s2 T2 l2 r,
    mappages new (PGSIZE * Z.of_nat n) PGSIZE p (PTE_FLAGS e) c s1 = Done r c s2 /\
    ((r = 0 /\ resized s Tn (p :: l) n s2 T2 l2 (S n) /\ copied s2 To T2 (Z.of_nat n)) \/
     (r = -1 /\ exists s3, kfree p c s2 = Done tt c s3 /\ resized s Tn (p :: l) n s3 T2 [p] n)).
Proof using Hc Hfree.
  intros Htp Hroot Hno e s1. pose proof (tp_old _ _ _ _ _ _ Htp) as Ho. pose proof (tp_new _ _ _ _ _ _ Htp) as Hn.
  destruct (kalloc_proc c Hc Hfree s Tn p l n Hn) as (_ & Hp & _ & ((Hm & _) & _) & _ & Hrd).
  pose proof (pr_size _ _ _ _ Ho) as Hsz.
  assert (unmappable e) as Hum by (apply (pr_mapped _ _ _ _ Ho); lia).
  assert (PTE2PA e ∈ proc_frames s To no) as Hin by (apply page_frame; lia).
  assert (free_page (PTE2PA e)) as Hef.
  { eapply proc_mem_pages; [exact Ho|]. rewrite !elem_of_app. tauto. }
  assert (PTE2PA e <> p) as Hne.
  { intros E. pose proof (tp_nodup _ _ _ _ _ _ Htp) as Hnd.
    apply NoDup_app in Hnd as (_ & Hd & _). apply (Hd (PTE2PA e)); rewrite !elem_of_app, ?elem_of_cons; tauto. }
  destruct (add_page_run c Hc Hfree s Tn p l n new (PTE_FLAGS e) (pm s1) Hn Hroot)
    as (s2 & T2 & l2 & r & Hrun & Hcase).
  - unfold PGSIZE in *. lia.
  - apply PTE_FLAGS_bound.
  - by apply unmappable_flags.
  - by apply mem_ok_memmove.
  - intros x Hx. cbn [s1 pm]. apply rd_memmove_out; [done|unfold PGSIZE; lia|exact Hx].
  - exists s2, T2, l2, r. split; [exact Hrun|]. destruct Hcase as [(-> & Hres & _ & Hleaf & Hdata)|Hfail]; [left|by right].
    split; [done|]. split; [done|].
    destruct (two_procs_resized _ _ _ _ _ _ _ _ _ _ Htp Hres) as (_ & Hlo & Hdo).
    exists p. rewrite Hlo. split; [done|]. split; [done|]. intros o Hoff. fold e.
    rewrite Hdata by (unfold in_page, within; lia).
    cbn [s1 pm]. rewrite rd_memmove_in; [|done|unfold PGSIZE; lia|unfold within; lia].
    replace (p + o - p) with o by lia.
    assert (in_page (PTE2PA e) (PTE2PA e + o)) as Hino by (unfold in_page, within; lia).
    rewrite (Hdo (PTE2PA e) _ Hin Hino). apply Hrd.
    by apply (other_page p (PTE2PA e)).
Qed.

Lemma uvmcopy_loop_run k s To no Tn n l old new sz :
  two_procs s To no Tn n l -> To !! [] = Some old -> Tn !! [] = Some new ->
  (n <= no)%nat -> sz <= PGSIZE * Z.of_nat (n + k) ->
  PGSIZE * Z.of_nat no - PGSIZE < sz <= PGSIZE * Z.of_nat no ->
  exists s' T' l' r,
    uvmcopy_loop k old new (PGSIZE * Z.of_nat n) sz c s = Done r c s' /\
    ((r = 0 /\ resized s Tn l n s' T' l' no /\
      forall j, Z.of_nat n <= j < Z.of_nat no -> copied s' To T' j) \/
     (r = -1 /\ resized s Tn l n s' T' l' 0 /\ (length l' <= no)%nat)).
Proof using Hc Hfree.
  intros Htp Hold. revert s Tn n l Htp.
  induction k as [|k IH]; intros s Tn n l Htp Hnew Hn Hk Hsz; cbn [uvmcopy_loop];
    pose proof (tp_old _ _ _ _ _ _ Htp) as Ho; pose proof (tp_new _ _ _ _ _ _ Htp) as Hnw;
    pose proof (pr_size _ _ _ _ Ho) as Htop; rewrite TRAPFRAME_val in Htop;
    zcase (PGSIZE * Z.of_nat n <? sz) as Elt.
  1: unfold PGSIZE in *; lia.
  1,3: assert (n = no) as -> by (unfold PGSIZE in *; lia);
    exists s, Tn, l, 0; split; [done|]; left; split; [done|]; split; [by apply resized_refl|]; intros; lia.
  assert (n < no)%nat as Hlt by (unfold PGSIZE in *; lia).
  destruct (uvmcopy_entry s To l no old (Z.of_nat n) Ho Hold ltac:(lia)) as (pte & Hw & Hnz & He).
  kstep Hw. apply Z.eqb_neq in Hnz. rewrite Hnz. unfold mload64. krun. rewrite He.
  destruct (pr_mapped _ _ _ _ Ho (Z.of_nat n) ltac:(lia)) as [Hv _]. unfold pte_valid in Hv. rewrite Hv.
  cbn [negb]. rewrite u32_small by (pose proof (PTE_FLAGS_bound (leaf (pm s) To (PGSIZE * Z.of_nat n))); lia).
  destruct l as [|p l].
  - destruct (pr_vm _ _ _ _ Hnw) as (Hkm & _). kstep (kalloc_empty_steady c Hc Hfree s Hkm). cbn [Z.eqb].
    destruct (uvmcopy_err_run s Tn [] n new Hnw Hnew) as (s' & l' & Hrun & Hres & Hlen).
    exists s', Tn, l', (-1). split; [done|]. right. split; [done|]. split; [done|]. simpl in Hlen. lia.
  - destruct (kalloc_proc c Hc Hfree s Tn p l n Hnw) as (Hrun & Hp & _). kstep Hrun.
    pose proof (free_page_nonzero p Hp) as Hpz%Z.eqb_neq. rewrite Hpz. unfold mmemmove. krun.
    destruct (copy_page_run s To no Tn n p l new Htp Hnew Hlt) as (s2 & T2 & l2 & r & Hmap & Hcase).
    unfold set_pm, kalloc_state in *. cbn [pm freelist] in *. kstep Hmap.
    destruct Hcase as [(-> & Hres & Hcp)|(-> & s3 & Hfr & Hres)]; cbn [Z.eqb negb];
      destruct (two_procs_resized _ _ _ _ _ _ _ _ _ _ Htp Hres) as (Htp2 & _ & _).
    + rewrite u64_small by (unfold PGSIZE in *; lia).
      replace (PGSIZE * Z.of_nat n + PGSIZE) with (PGSIZE * Z.of_nat (S n)) by lia.
      destruct (IH s2 T2 (S n) l2 Htp2) as (s' & T' & l' & r & Hloop & Hfin);
        [by rewrite (rs_root _ _ _ _ _ _ _ _ Hres)|lia|unfold PGSIZE in *; lia|done|].
      exists s', T', l', r. split; [done|].
      destruct Hfin as [(-> & Hres' & Hz)|(-> & Hres' & Hlen)]; [left|right]; (split; [done|]);
        (split; [eapply resized_trans; [|apply Hnw|exact Hres|exact Hres']; lia|]); [|done].
      intros j Hj. destruct (decide (j = Z.of_nat n)) as [->|]; [|apply Hz; lia].
      eapply copied_resized; [exact Htp2|exact Hres'|lia|lia|done].
    + kstep Hfr. destruct (uvmcopy_err_run s3 T2 [p] n new) as (s' & l' & Herr & Hres' & Hlen);
        [apply Hres|by rewrite (rs_root _ _ _ _ _ _ _ _ Hres)|].
      exists s', T2, l', (-1). split; [exact Herr|]. right. split; [done|].
      split; [eapply resized_trans; [|apply Hnw|exact Hres|exact Hres']; lia|]. simpl in Hlen. lia.
Qed.

End Thread.
End VmFree.
