(* ===== verification/VmSpec.v ===== *)
(** * Virtual memory: correctness of the operations of kernel/vm.c

    The theorems about [Vm], for a thread with no spinlock pending ([steady]) and the
    allocator's lock free, and concrete address spaces on which they apply. *)
From S2P Require Import Prelude Memory Machine Riscv KString Kalloc Vm VmProps VmUser VmSpace VmFree.

Section VmSpec.
Context {image : KernelImage}.

(** A copied page reads the same through both page tables. *)
Lemma leaf_pte_has_U p e :
  free_page p -> unmappable e -> pte_has PTE_U (leaf_pte p (PTE_FLAGS e)) = pte_has PTE_U e.
Proof.
  intros Hp [Hv _]. assert (forall x, pte_has PTE_U x = Z.testbit (PTE_FLAGS x) 4) as HU.
  { intros x. rewrite pte_has_U. unfold PTE_FLAGS. rewrite Z.land_spec. by rewrite andb_true_r. }
  rewrite !HU. unfold leaf_pte. rewrite <- Z.lor_assoc.
  destruct (pte_perm_eq p (PTE_FLAGS e) (free_page_56 p Hp) (PTE_FLAGS_bound e)) as [_ Hb].
  rewrite PTE_FLAGS_of_pa by (done || by apply free_page_56). rewrite Z.lor_spec. apply orb_false_r.
Qed.

Lemma copied_uload s s' To Tn no l j va :
  proc_mem s To l no -> (forall va, leaf (pm s') To va = leaf (pm s) To va) ->
  (forall p x, p ∈ proc_frames s To no -> in_page p x -> rd (pm s') x = rd (pm s) x) ->
  0 <= va < MAXVA -> vpn va = j -> j < Z.of_nat no -> copied s' To Tn j ->
  user_pa (leaf (pm s) To) va <> 0 ->
  uload (pm s') (leaf (pm s') Tn) va = uload (pm s) (leaf (pm s) To) va.
Proof.
  intros H Hleaf Hdata Hva Hv Hj (p & Hp & Hl & Hd) Hu. subst j. rewrite Hleaf in Hl, Hd.
  assert (unmappable (leaf (pm s) To (PGSIZE * vpn va))) as Hum.
  { apply (pr_mapped _ _ _ _ H). unfold vpn, PGSIZE in *. dlia. }
  unfold uload, user_pa in *. rewrite (leaf_page (pm s') Tn), Hl by done.
  rewrite (leaf_page (pm s) To va) in * by done. set (e := leaf (pm s) To (PGSIZE * vpn va)) in *.
  rewrite leaf_pte_has_U by done. zcase (va <? MAXVA); [|lia]. cbn [andb] in *.
  change (pte_has PTE_V (leaf_pte p (PTE_FLAGS e))) with (pte_has PTE_V (Z.lor (Z.lor (PA2PTE p) (PTE_FLAGS e)) PTE_V)).
  rewrite pte_has_V_lor. destruct (pte_has PTE_V e); [|done]. destruct (pte_has PTE_U e); [|done].
  cbn [andb] in *. destruct (leaf_pte_ok p (PTE_FLAGS e) Hp (PTE_FLAGS_bound e) (unmappable_flags _ Hum)) as [_ ->].
  pose proof (Z.mod_pos_bound va PGSIZE ltac:(done)) as Hm. rewrite Hd by done.
  apply (Hdata (PTE2PA e)); [|unfold in_page, within; lia]. apply page_frame. unfold vpn, PGSIZE in *. dlia.
Qed.

(** [copyout] writes user memory through the page table: it returns 0 exactly when
    every page of the destination is user-accessible, and then the destination holds
    the source bytes; otherwise it returns -1 at the first inaccessible page, with the
    bytes before it written.  Nothing else changes: no other user byte, no mapping and
    no memory outside the data pages. *)
Theorem copyout_correct c s T l F root dstva src :
  T !! [] = Some root -> uspace s T l F -> Forall is_byte src ->
  0 <= dstva -> dstva + zlen src <= MAXVA ->
  exists s' r n,
    copyout root dstva src c s = Done r c s' /\ uspace s' T l F /\
    (forall va, leaf (pm s') T va = leaf (pm s) T va) /\
    (forall va, 0 <= va < MAXVA -> user_pa (leaf (pm s) T) va <> 0 ->
       uload (pm s') (leaf (pm s') T) va =
       uwrite (uload (pm s) (leaf (pm s) T)) dstva (take (Z.to_nat n) src) va) /\
    (forall x, (forall q, q ∈ F -> ~ in_page q x) -> rd (pm s') x = rd (pm s) x) /\
    copy_result (leaf (pm s) T) dstva (zlen src) n r.
Proof. intros Hroot Hus Hb Hd Hmax. by apply copyout_loop_run. Qed.

(** C35: copying bytes out to an accessible user buffer succeeds, and [copyin] at the
    same address then returns those bytes. *)
Theorem copyout_copyin_roundtrip c s T l F root va src :
  T !! [] = Some root -> uspace s T l F -> Forall is_byte src ->
  0 <= va -> va + zlen src <= MAXVA ->
  (forall i, 0 <= i < zlen src -> user_pa (leaf (pm s) T) (va + i) <> 0) ->
  exists s', copyout root va src c s = Done 0 c s' /\
             copyin root va (zlen src) c s' = Done (0, src) c s'.
Proof.
  intros Hroot Hus Hb Hd Hmax Hmapped.
  destruct (copyout_loop_run c T l F root Hroot (length src) s va src Hus)
    as (s' & r & n & Hrun & Hus1 & Hl & Hu & _ & Hres); [done..|].
  assert (r = 0 /\ n = zlen src) as [-> ->].
  { destruct Hres as [?|(_ & Hn & Hpa)]; [done|]. by destruct (Hmapped n). }
  exists s'. split; [done|].
  destruct (copyin_loop_run c T l F root Hroot (Z.to_nat (zlen src)) s' [] va (zlen src) Hus1)
    as (r & n & Hin & Hres'); [unfold zlen; lia|unfold zlen; lia|lia|done|].
  unfold copyin. rewrite Hin.
  assert (r = 0 /\ n = zlen src) as [-> ->].
  { destruct Hres' as [?|(_ & Hn & Hpa)]; [done|].
    rewrite (user_pa_ext _ (leaf (pm s) T)) in Hpa by done. by destruct (Hmapped n). }
  do 2 f_equal. simpl. apply (zlist_eq 0); [unfold zlen; by rewrite length_uloads, Nat2Z.id|].
  intros i. unfold zlen at 1. rewrite length_uloads, Z2Nat.id by (unfold zlen; lia). intros Hi.
  rewrite znth_uloads by lia. rewrite Hu by (lia || by apply Hmapped).
  unfold uwrite. replace (Z.to_nat (zlen src)) with (length src) by (unfold zlen; lia).
  rewrite firstn_all. zcase (va <=? va + i); zcase (va + i <? va + zlen src); simpl; try lia.
  f_equal. lia.
Qed.


(** [copyinstr] copies the user string at [srcva]: it returns 0 and the bytes up to
    and including the first NUL when that lies within [max] readable bytes, and -1 when
    there is no NUL among [max] bytes or a page before it cannot be read. *)
Theorem copyinstr_correct c s T l F root srcva max :
  T !! [] = Some root -> uspace s T l F -> 0 <= max -> 0 <= srcva -> srcva + max <= MAXVA ->
  exists r n out,
    copyinstr root srcva max c s = Done (r, out) c s /\
    copyinstr_result (pm s) (leaf (pm s) T) srcva max n r out.
Proof.
  intros Hroot Hus H0 H1 H2.
  destruct (copyinstr_loop_run c T l F root Hroot (Z.to_nat max) s [] srcva max Hus)
    as (r & n & out & Hrun & Hres); [lia|done..|].
  exists r, n, out. split; [exact Hrun|done].
Qed.

(** [mappages] maps every page of the range to consecutive physical pages, or fails
    because the free list ran out after mapping a prefix of it; no other mapping and no
    memory outside the page table changes, tables are added only on the range's walk paths,
    and no page is lost. *)
Theorem mappages_correct c s T l root va size pa perm :
  steady c -> LKmem ∉ c_held c -> vm_ok s T l -> T !! [] = Some root ->
  0 <= va -> 0 < size -> va + size <= MAXVA ->
  0 <= pa -> pa + PGSIZE * span va size < 2 ^ 56 -> 0 <= perm < 1024 ->
  (forall j, 0 <= j <= span va size ->
     pte_valid (leaf (pm s) T (PGROUNDDOWN va + PGSIZE * j)) = false) ->
  exists s' T' l' r n,
    mappages root va size pa perm c s = Done r c s' /\
    vm_ok s' T' l' /\ pt_grow s T l s' T' l' /\
    (forall va', 0 <= va' < MAXVA ->
       leaf (pm s') T' va' = mapped (leaf (pm s) T) (PGROUNDDOWN va) pa perm n va') /\
    tables_for (fun va' => exists j, 0 <= j <= span va size /\ va' = PGROUNDDOWN va + PGSIZE * j) T T' /\
    mappages_result (span va size) n r l'.
Proof. intros Hc Hl. by apply mappages_run. Qed.

(** mapping a page that is mapped already panics ("mappages: remap"). *)
Theorem mappages_remap c s T l root va size pa perm :
  vm_ok s T l -> T !! [] = Some root -> 0 <= va < MAXVA -> 0 < size ->
  pte_valid (leaf (pm s) T va) = true ->
  mappages root va size pa perm c s = Panic "mappages: remap".
Proof.
  intros (Hk & Hr & Hown) Hroot Hva Hsize Hv. unfold mappages. zcase (size =? 0); [lia|].
  destruct (PGROUNDDOWN_vpn va Hva) as [Hr0 Hv0].
  rewrite (leaf_vpn _ _ va (PGROUNDDOWN va)) in Hv by done.
  generalize (mappages_bound (PGROUNDDOWN va) (PGROUNDDOWN (u64 (va + size - 1)))). intros k.
  unfold leaf in Hv. destruct (leaf_slot T (PGROUNDDOWN va)) as [a|] eqn:Ha; [|done].
  assert (walk root (PGROUNDDOWN va) true c s = Done a c s) as Hw.
  { eapply walk_mapped; [done|done|done|lia|done]. }
  destruct k; cbn [mappages_loop]; kstep Hw;
    pose proof (leaf_slot_nonzero _ _ _ _ Hown Ha) as Hnz%Z.eqb_neq; rewrite Hnz;
    unfold mload64; krun; unfold pte_valid in Hv; by rewrite Hv.
Qed.

(** [uvmunmap] removes exactly the mappings of the range and, with [do_free], gives
    each of its pages back to the allocator; the rest of memory is untouched. *)
Theorem uvmunmap_correct (do_free : bool) c s T l root va npages :
  steady c -> LKmem ∉ c_held c -> vm_ok s T l -> T !! [] = Some root ->
  0 <= va -> page_aligned va -> 0 <= npages -> va + npages * PGSIZE <= MAXVA ->
  (forall j, 0 <= j < npages -> unmappable (leaf (pm s) T (va + PGSIZE * j))) ->
  let freed := freed_by do_free (leaf (pm s) T) va (Z.to_nat npages) in
  NoDup (pt_pages T ++ freed ++ l) -> Forall free_page freed ->
  exists s',
    uvmunmap root va npages do_free c s = Done tt c s' /\
    vm_ok s' T (reverse freed ++ l) /\
    (forall va', 0 <= va' < MAXVA ->
       leaf (pm s') T va' = unmapped (leaf (pm s) T) va npages va') /\
    (forall x, (forall p, p ∈ pt_pages T ++ freed -> ~ in_page p x) -> rd (pm s') x = rd (pm s) x).
Proof. intros Hc Hl. by apply uvmunmap_run. Qed.

(** C36: [uvmalloc] grows a process to [newsz]: either it returns [newsz], every new page
    is mapped readable and user-accessible with [xperm] and is all zeros, or it returns 0
    with the process at its old size, and that only when fewer free pages are left than
    it had to find.  In both cases the old pages keep their entries and contents, and
    no page leaks. *)
Theorem uvmalloc_correct c s T l n root oldsz newsz xperm :
  steady c -> LKmem ∉ c_held c -> proc_mem s T l n -> T !! [] = Some root ->
  0 <= oldsz <= newsz -> newsz <= TRAPFRAME -> PGROUNDUP oldsz = PGSIZE * Z.of_nat n ->
  0 <= xperm < 1024 ->
  let N := Z.to_nat (PGROUNDUP newsz / PGSIZE) in
  exists s' T' l' r,
    uvmalloc root oldsz newsz xperm c s = Done r c s' /\
    ((r = newsz /\ resized s T l n s' T' l' N /\
      forall j, Z.of_nat n <= j < Z.of_nat N -> zero_page s' T' (uvm_perm xperm) j) \/
     (r = 0 /\ resized s T l n s' T' l' n /\ (length l' <= N - n)%nat)).
Proof.
  intros Hc Hl H Hroot Hsz Htop Hn Hx N. pose proof Htop as Htop'. rewrite TRAPFRAME_val in Htop'.
  assert (PGROUNDUP newsz = PGSIZE * Z.of_nat N) as HN.
  { unfold N. rewrite PGROUNDUP_eq by lia. unfold PGSIZE. dlia. }
  unfold uvmalloc. zcase (newsz <? oldsz); [lia|]. rewrite Hn.
  rewrite PGROUNDUP_eq in Hn, HN by lia.
  apply uvmalloc_loop_run; try done; unfold PGSIZE in *; rewrite ?TRAPFRAME_val; dlia.
Qed.

(** [uvmdealloc] shrinks a process to the smaller of the two sizes: the pages above
    it are unmapped and freed, the pages below keep their entries and contents. *)
Theorem uvmdealloc_correct c s T l n root oldsz newsz :
  steady c -> LKmem ∉ c_held c -> proc_mem s T l n -> T !! [] = Some root ->
  0 <= newsz -> 0 <= oldsz -> PGROUNDUP oldsz = PGSIZE * Z.of_nat n -> oldsz <= PGSIZE * Z.of_nat n ->
  let n' := Z.to_nat (PGROUNDUP (Z.min oldsz newsz) / PGSIZE) in
  exists s' l',
    uvmdealloc root oldsz newsz c s = Done (Z.min oldsz newsz) c s' /\
    resized s T l n s' T l' n'.
Proof.
  intros Hc Hl H Hroot Hnew Hold Hn Hle n'. pose proof (pr_size _ _ _ _ H) as Hsz. rewrite TRAPFRAME_val in Hsz.
  destruct (uvmdealloc_run c Hc Hl s T l n n' root oldsz newsz H Hroot) as (s' & Hrun & Hres); try done.
  - unfold n'. rewrite PGROUNDUP_eq by lia. unfold PGSIZE. dlia.
  - eauto.
Qed.

(** [uvmfree] gives every page of a process - its memory and its whole page table -
    back to the allocator, and never panics on a page table whose trampoline and
    trapframe were unmapped. *)
Theorem uvmfree_correct c s T l n root sz :
  steady c -> LKmem ∉ c_held c -> proc_mem s T l n -> T !! [] = Some root ->
  0 <= sz <= TRAPFRAME -> PGROUNDUP sz = PGSIZE * Z.of_nat n ->
  (forall va, TRAPFRAME <= va < MAXVA -> pte_valid (leaf (pm s) T va) = false) ->
  exists s' l', uvmfree root sz c s = Done tt c s' /\ kmem_ok s' l' /\
    l' ≡ₚ pt_pages T ++ proc_frames s T n ++ l.
Proof.
  intros Hc Hl H Hroot Hsz Hn Htop.
  destruct (uvmfree_run c Hc Hl s T l n root sz H Hroot Hsz Hn Htop) as (s' & l' & ? & ? & ? & _). eauto.
Qed.

(** C2: [uvmcopy] gives the child a copy of the parent's memory: on success every page
    is mapped with the parent's flags and user memory reads the same in both; when the
    free pages run out it returns -1 with the child empty.  The parent is untouched and
    no page leaks. *)
Theorem uvmcopy_correct c s To no Tn l old new sz :
  steady c -> LKmem ∉ c_held c -> two_procs s To no Tn 0 l ->
  To !! [] = Some old -> Tn !! [] = Some new -> 0 <= sz -> PGROUNDUP sz = PGSIZE * Z.of_nat no ->
  sz <= PGSIZE * Z.of_nat no ->
  exists s' T' l' r n,
    uvmcopy old new sz c s = Done r c s' /\
    two_procs s' To no T' n l' /\ resized s Tn l 0 s' T' l' n /\
    (forall va, leaf (pm s') To va = leaf (pm s) To va) /\
    (forall p x, p ∈ proc_frames s To no -> in_page p x -> rd (pm s') x = rd (pm s) x) /\
    ((r = 0 /\ n = no /\
      (forall j, 0 <= j < Z.of_nat no -> copied s' To T' j) /\
      (forall va, 0 <= va < PGSIZE * Z.of_nat no -> user_pa (leaf (pm s) To) va <> 0 ->
         uload (pm s') (leaf (pm s') T') va = uload (pm s) (leaf (pm s) To) va)) \/
     (r = -1 /\ n = 0%nat /\ (length l' <= no)%nat)).
Proof.
  intros Hc Hl Htp Hold Hnew Hsz Hno Hle. pose proof (tp_old _ _ _ _ _ _ Htp) as Ho.
  pose proof (pr_size _ _ _ _ Ho) as Htop. rewrite TRAPFRAME_val in Htop.
  rewrite PGROUNDUP_eq in Hno by lia.
  destruct (uvmcopy_loop_run c Hc Hl (Z.to_nat ((sz + PGSIZE - 1) / PGSIZE)) s To no Tn 0 l old new sz Htp Hold Hnew)
    as (s' & T' & l' & r & Hrun & Hcase); [lia|unfold PGSIZE in *; dlia|unfold PGSIZE in *; dlia|].
  change (PGSIZE * Z.of_nat 0) with 0 in Hrun.
  destruct Hcase as [(-> & Hres & Hcp)|(-> & Hres & Hlen)];
    destruct (two_procs_resized _ _ _ _ _ _ _ _ _ _ Htp Hres) as (Htp' & Hleaf & Hdata).
  - exists s', T', l', 0, no. do 5 (split; [done|]). left. do 2 (split; [done|]).
    split; [intros j Hj; apply Hcp; lia|]. intros va Hva Hu.
    eapply copied_uload; [exact Ho|done|done| |reflexivity| | |done];
      rewrite ?MAXVA_val in *; unfold vpn, PGSIZE in *; try dlia. apply Hcp. dlia.
  - exists s', T', l', (-1), 0%nat. do 5 (split; [done|]). by right.
Qed.

End VmSpec.

(** ** Concrete address spaces *)

(** Memory whose free list is the given pages. *)
Definition pool (pages : list Z) : pmem := foldr (fun p s => kfree_state s p) (PMem ∅ 0) pages.

Lemma pool_ok pages : Forall free_page pages -> NoDup pages -> kmem_ok (pool pages) pages.
Proof.
  induction pages as [|p pages IH]; intros HF Hnd.
  - split; [apply mem_ok_empty|]. split; [done|constructor].
  - apply Forall_cons in HF as [Hp HF]. apply NoDup_cons in Hnd as [Hni Hnd].
    by apply (kfree_page idle_ctx idle_ctx_ok (not_elem_of_nil _) (pool pages) p pages (IH HF Hnd) Hp).
Qed.

Definition demo_pages : list Z := (fun i => 0x80022000 + 4096 * i) <$> [0; 1; 2; 3; 4; 5; 6; 7; 8; 9; 10; 11].

Lemma demo_pages_ok : kmem_ok (pool demo_pages) demo_pages.
Proof.
  apply pool_ok.
  - unfold demo_pages. simpl. repeat constructor; unfold PHYSTOP, KERNBASE; simpl; lia.
  - apply (bool_decide_eq_true_1 _). vm_compute. reflexivity.
Qed.

Lemma idle_steady : steady idle_ctx.
Proof. split; [apply idle_ctx_ok|reflexivity]. Qed.

Lemma idle_unlocked lk : lk ∉ c_held idle_ctx.
Proof. apply not_elem_of_nil. Qed.

(** Two empty tables, made by two calls of [uvmcreate]. *)
Definition demo_s1 : pmem := uvmcreate_state (pool demo_pages) 0x80022000.
Definition demo_s2 : pmem := uvmcreate_state demo_s1 0x80023000.
Definition demo_T1 : ptree := {[ [] := 0x80022000 ]}.
Definition demo_T2 : ptree := {[ [] := 0x80023000 ]}.

Lemma two_procs_sym s To no Tn n l : two_procs s To no Tn n l -> two_procs s Tn n To no l.
Proof.
  intros [Ho Hn Hnd]. split; [done|done|]. eapply NoDup_perm; [|exact Hnd]. solve_Permutation.
Qed.

Lemma demo_empty : two_procs demo_s2 demo_T1 0 demo_T2 0 (drop 2 demo_pages) /\
  forall va, leaf (pm demo_s2) demo_T1 va = 0.
Proof.
  pose proof idle_steady as Hc. pose proof (idle_unlocked LKmem) as Hl.
  destruct (uvmcreate_run idle_ctx Hc Hl (pool demo_pages) 0x80022000 (drop 1 demo_pages) demo_pages_ok)
    as (_ & H1 & Hz1 & _). fold demo_s1 demo_T1 in H1, Hz1.
  destruct (pr_vm _ _ _ _ H1) as (Hkm1 & _).
  destruct (uvmcreate_run idle_ctx Hc Hl demo_s1 0x80023000 (drop 2 demo_pages) Hkm1)
    as (_ & H2 & _ & Hout). fold demo_s2 demo_T2 in H2, Hout.
  assert (forall va, leaf (pm demo_s2) demo_T1 va = 0) as Hz.
  { intros va. unfold leaf, leaf_slot, demo_T1. by rewrite lookup_singleton_ne. }
  split; [|done]. split; [|done|].
  - destruct (kalloc_proc idle_ctx Hc Hl demo_s1 demo_T1 0x80023000 (drop 2 demo_pages) 0 H1)
      as (_ & Hp & Hnd & Hok & _).
    destruct (fill_vm (kalloc_state demo_s1 0x80023000) demo_T1 (drop 2 demo_pages) 0x80023000 (pm demo_s2) Hok Hp)
      as [Hok2 _].
    + apply NoDup_cons in Hnd as [Hni _]. exact Hni.
    + apply (pr_vm _ _ _ _ H2).
    + intros x Hx. rewrite Hout by done. cbn [kalloc_state pm].
      rewrite rd_memset_out; [done|unfold PGSIZE; lia|exact Hx].
    + destruct (proc_mem_same demo_s1 demo_T1 (drop 1 demo_pages) 0 demo_s2 demo_T1 (drop 2 demo_pages) H1 Hok2)
        as [? _]; [|by apply NoDup_cons in Hnd as [_ ?]|done].
      intros va _. by rewrite Hz, Hz1.
  - apply (bool_decide_eq_true_1 _). vm_compute. reflexivity.
Qed.

#[local] Opaque demo_s2.

(** The first process grown to two writable pages. *)
Lemma demo_space : exists s T l,
  two_procs s T 2 demo_T2 0 l /\ T !! [] = Some 0x80022000 /\
  (forall j, 0 <= j < 2 -> zero_page s T (uvm_perm PTE_W) j) /\
  (forall va, TRAPFRAME <= va < MAXVA -> leaf (pm s) T va = 0).
Proof.
  destruct demo_empty as [Htp Hz]. pose proof (tp_old _ _ _ _ _ _ Htp) as H.
  destruct (uvmalloc_loop_run idle_ctx idle_steady (idle_unlocked _) 3 demo_s2 demo_T1 (drop 2 demo_pages) 0 0 2
    0x80022000 8192 PTE_W H) as (s & T & l & r & Hrun & Hcase);
    [reflexivity|done|lia|unfold PGSIZE; lia|unfold PGSIZE; lia|rewrite TRAPFRAME_val; unfold PGSIZE; lia|].
  assert (match uvmalloc_loop 3 0x80022000 0 0 8192 PTE_W idle_ctx demo_s2 with
          | Done r _ _ => r | _ => 0 end = 8192) as Hr by (vm_compute; reflexivity).
  change (PGSIZE * Z.of_nat 0) with 0 in Hrun. rewrite Hrun in Hr. clear Hrun. subst r.
  destruct Hcase as [(_ & Hres & Hzero)|(Hbad & _)]; [|discriminate Hbad].
  exists s, T, l. split.
  - apply two_procs_sym. by destruct (two_procs_resized _ _ _ _ _ _ _ _ _ _ (two_procs_sym _ _ _ _ _ _ Htp) Hres).
  - split; [by rewrite (rs_root _ _ _ _ _ _ _ _ Hres)|]. split; [by intros; apply Hzero|].
    intros va Hva. rewrite (rs_leaf _ _ _ _ _ _ _ _ Hres); [apply Hz| |right; lia].
    rewrite TRAPFRAME_val in Hva. lia.
Qed.

(** Its first page is user-accessible. *)
Lemma demo_user_pa s T va :
  (forall j, 0 <= j < 2 -> zero_page s T (uvm_perm PTE_W) j) -> 0 <= va < 8192 ->
  user_pa (leaf (pm s) T) va <> 0.
Proof.
  intros Hz Hva. assert (0 <= va < MAXVA) as Hmax by (rewrite MAXVA_val; lia).
  destruct (Hz (vpn va)) as (p & Hp & Hl & _); [unfold vpn, PGSIZE; dlia|].
  unfold user_pa. rewrite (leaf_page _ _ va Hmax), Hl. zcase (va <? MAXVA); [|lia]. cbn [andb].
  destruct (uvm_perm_ok PTE_W) as [Hb Hne]; [done|].
  destruct (leaf_pte_ok p (uvm_perm PTE_W) Hp Hb Hne) as [[Hv _] ->].
  unfold pte_valid in Hv. unfold pte_has at 1. rewrite Hv. rewrite pte_has_U. unfold leaf_pte.
  rewrite !Z.lor_spec. change (Z.testbit (uvm_perm PTE_W) 4) with true. rewrite orb_true_r. cbn [andb orb].
  by apply free_page_nonzero.
Qed.

Lemma copyout_correct_witness : exists s s' r n T l F,
  copyout 0x80022000 4094 [1; 2; 3] idle_ctx s = Done r idle_ctx s' /\
  uspace s' T l F /\ copy_result (leaf (pm s) T) 4094 3 n r.
Proof.
  destruct demo_space as (s & T & l & Htp & Hroot & Hz & _).
  destruct (copyout_correct idle_ctx s T l _ 0x80022000 4094 [1; 2; 3] Hroot
    (proc_mem_uspace _ _ _ _ (tp_old _ _ _ _ _ _ Htp))) as (s' & r & n & Hrun & Hus & _ & _ & _ & Hres).
  - repeat constructor; unfold is_byte; lia.
  - lia.
  - rewrite MAXVA_val. unfold zlen. simpl. lia.
  - exists s, s', r, n, T, l, (proc_frames s T 2). split; [exact Hrun|]. split; [exact Hus|exact Hres].
Defined.

Lemma copyout_copyin_roundtrip_witness : exists s s',
  copyout 0x80022000 4094 [1; 2; 3] idle_ctx s = Done 0 idle_ctx s' /\
  copyin 0x80022000 4094 3 idle_ctx s' = Done (0, [1; 2; 3]) idle_ctx s'.
Proof.
  destruct demo_space as (s & T & l & Htp & Hroot & Hz & _). exists s.
  apply (copyout_copyin_roundtrip idle_ctx s T l _ 0x80022000 4094 [1; 2; 3] Hroot
    (proc_mem_uspace _ _ _ _ (tp_old _ _ _ _ _ _ Htp))).
  - repeat constructor; unfold is_byte; lia.
  - lia.
  - rewrite MAXVA_val. unfold zlen. simpl. lia.
  - intros i Hi. unfold zlen in Hi. simpl in Hi. apply (demo_user_pa s T _ Hz). lia.
Defined.

Lemma copyinstr_correct_witness : exists s T r n out,
  copyinstr 0x80022000 100 128 idle_ctx s = Done (r, out) idle_ctx s /\
  copyinstr_result (pm s) (leaf (pm s) T) 100 128 n r out.
Proof.
  destruct demo_space as (s & T & l & Htp & Hroot & Hz & _). exists s, T.
  apply (copyinstr_correct idle_ctx s T l _ 0x80022000 100 128 Hroot
    (proc_mem_uspace _ _ _ _ (tp_old _ _ _ _ _ _ Htp))); [lia|lia|rewrite MAXVA_val; lia].
Defined.

Lemma mappages_correct_witness : exists s' T' l' r n,
  mappages 0x80022000 0x1000 0x3000 0x80030000 (Z.lor PTE_R PTE_W) idle_ctx demo_s2 = Done r idle_ctx s' /\
  vm_ok s' T' l' /\ mappages_result 2 n r l'.
Proof.
  destruct demo_empty as [Htp Hzero].
  destruct (mappages_correct idle_ctx demo_s2 demo_T1 (drop 2 demo_pages) 0x80022000 0x1000 0x3000 0x80030000
    (Z.lor PTE_R PTE_W) idle_steady (idle_unlocked _) (pr_vm _ _ _ _ (tp_old _ _ _ _ _ _ Htp)))
    as (s' & T' & l' & r & n & Hrun & Hok & _ & _ & _ & Hres).
  - reflexivity.
  - lia.
  - lia.
  - rewrite MAXVA_val. lia.
  - lia.
  - vm_compute. reflexivity.
  - split; [vm_compute; discriminate|vm_compute; reflexivity].
  - intros j _. rewrite Hzero. reflexivity.
  - exists s', T', l', r, n. split; [exact Hrun|]. split; [exact Hok|exact Hres].
Defined.

Lemma mappages_remap_witness : exists s,
  mappages 0x80022000 100 1 0x80030000 PTE_R idle_ctx s = Panic "mappages: remap".
Proof.
  destruct demo_space as (s & T & l & Htp & Hroot & Hz & _). exists s.
  apply (mappages_remap idle_ctx s T l 0x80022000 100 1 0x80030000 PTE_R
    (pr_vm _ _ _ _ (tp_old _ _ _ _ _ _ Htp)) Hroot).
  - rewrite MAXVA_val. lia.
  - lia.
  - rewrite leaf_page by (rewrite MAXVA_val; lia).
    apply (pr_mapped _ _ _ _ (tp_old _ _ _ _ _ _ Htp)). unfold vpn, PGSIZE. dlia.
Defined.

Lemma uvmunmap_correct_witness : exists s s' l,
  uvmunmap 0x80022000 4096 1 true idle_ctx s = Done tt idle_ctx s' /\ kmem_ok s' l.
Proof.
  destruct demo_space as (s & T & l & Htp & Hroot & Hz & _). pose proof (tp_old _ _ _ _ _ _ Htp) as H.
  assert (frames (leaf (pm s) T) 4096 1 = frames (leaf (pm s) T) (PGSIZE * Z.of_nat 1) (2 - 1)) as Hf by reflexivity.
  pose proof (tail_nodup s T l 2 1 H ltac:(lia)) as Hnd. pose proof (pr_frames _ _ _ _ H) as HF.
  rewrite (proc_frames_tail s T 2 1 ltac:(lia)) in HF. apply Forall_app in HF as [_ HF].
  destruct (uvmunmap_correct true idle_ctx s T l 0x80022000 4096 1 idle_steady (idle_unlocked _) (pr_vm _ _ _ _ H) Hroot)
    as (s' & Hrun & Hok & _).
  - lia.
  - reflexivity.
  - lia.
  - rewrite MAXVA_val. unfold PGSIZE. lia.
  - intros j Hj. replace (4096 + PGSIZE * j) with (PGSIZE * (j + 1)) by (unfold PGSIZE; lia).
    apply (pr_mapped _ _ _ _ H). lia.
  - apply NoDup_app in Hnd as [Hnd _]. exact Hnd.
  - exact HF.
  - eexists s, s', _. split; [exact Hrun|exact (proj1 Hok)].
Defined.

Lemma uvmalloc_correct_witness : exists s' T' l' r,
  uvmalloc 0x80022000 0 10000 PTE_W idle_ctx demo_s2 = Done r idle_ctx s' /\
  (resized demo_s2 demo_T1 (drop 2 demo_pages) 0 s' T' l' 3 \/ (length l' <= 3)%nat).
Proof.
  destruct demo_empty as [Htp _].
  destruct (uvmalloc_correct idle_ctx demo_s2 demo_T1 (drop 2 demo_pages) 0 0x80022000 0 10000 PTE_W
    idle_steady (idle_unlocked _) (tp_old _ _ _ _ _ _ Htp)) as (s' & T' & l' & r & Hrun & Hcase).
  - reflexivity.
  - lia.
  - rewrite TRAPFRAME_val. lia.
  - reflexivity.
  - split; [vm_compute; discriminate|vm_compute; reflexivity].
  - exists s', T', l', r. split; [exact Hrun|].
    destruct Hcase as [(_ & Hres & _)|(_ & _ & Hlen)]; [left; exact Hres|right; exact Hlen].
Defined.

Lemma uvmdealloc_correct_witness : exists s T l s' l',
  uvmdealloc 0x80022000 8192 5 idle_ctx s = Done 5 idle_ctx s' /\ resized s T l 2 s' T l' 1.
Proof.
  destruct demo_space as (s & T & l & Htp & Hroot & Hz & _). exists s, T, l.
  apply (uvmdealloc_correct idle_ctx s T l 2 0x80022000 8192 5 idle_steady (idle_unlocked _)
    (tp_old _ _ _ _ _ _ Htp) Hroot); [lia|lia|reflexivity|unfold PGSIZE; lia].
Defined.

Lemma uvmfree_correct_witness : exists s T l s' l',
  uvmfree 0x80022000 8192 idle_ctx s = Done tt idle_ctx s' /\ kmem_ok s' l' /\
  l' ≡ₚ pt_pages T ++ proc_frames s T 2 ++ l.
Proof.
  destruct demo_space as (s & T & l & Htp & Hroot & _ & Htop). exists s, T, l.
  apply (uvmfree_correct idle_ctx s T l 2 0x80022000 8192 idle_steady (idle_unlocked _)
    (tp_old _ _ _ _ _ _ Htp) Hroot); [rewrite TRAPFRAME_val; lia|reflexivity|].
  intros va Hva. rewrite (Htop va Hva). reflexivity.
Defined.

Lemma uvmcopy_correct_witness : exists s T l s' T' l' r n,
  uvmcopy 0x80022000 0x80023000 8192 idle_ctx s = Done r idle_ctx s' /\
  two_procs s' T 2 T' n l' /\ resized s demo_T2 l 0 s' T' l' n.
Proof.
  destruct demo_space as (s & T & l & Htp & Hroot & _).
  destruct (uvmcopy_correct idle_ctx s T 2 demo_T2 l 0x80022000 0x80023000 8192 idle_steady (idle_unlocked _) Htp Hroot)
    as (s' & T' & l' & r & n & Hrun & Htp' & Hres & _).
  - reflexivity.
  - lia.
  - reflexivity.
  - unfold PGSIZE. lia.
  - exists s, T, l, s', T', l', r, n. split; [exact Hrun|]. split; [exact Htp'|exact Hres].
Defined.
