(* ===== verification/Spinlock.v ===== *)
(** * Spinlocks on several CPUs (kernel/spinlock.c)

    One [struct spinlock] and any number of CPUs that acquire and release it, at the
    granularity of its memory accesses: [cpu_step] is the next step of one CPU through
    [acquire] and [release], and [step] lets any CPU move.  The model of one thread in
    [Machine] (a lock is held or not) is the view of a CPU that this file justifies:
    between a CPU's [acquire] and its [release] no other CPU is in that region. *)
From S2P Require Import Prelude.

(** struct spinlock: [locked] and the CPU that holds the lock (null or a CPU). *)
Record spinlock := Spin { lk_locked : Z; lk_cpu : option nat }.

(** initlock *)
Definition spin_init : spinlock := Spin 0 None.

(** Where a CPU is.  [A_*] are the steps of [acquire] and [R_*] those of [release],
    named after what the CPU does next. *)
Inductive pc :=
| Out                (* not in acquire or release *)
| A_push             (* push_off() *)
| A_hold             (* if(holding(lk)) panic("acquire") *)
| A_tas              (* while(__sync_lock_test_and_set(&lk->locked, 1) != 0) *)
| A_cpu              (* lk->cpu = mycpu() *)
| In                 (* the critical section *)
| R_hold             (* if(!holding(lk)) panic("release") *)
| R_clear            (* lk->cpu = 0 *)
| R_unlock           (* __sync_lock_release(&lk->locked) *)
| R_pop              (* pop_off() *)
| Panicked (msg : string).

(** A CPU: where it is, its interrupt-enable bit, and [noff] and [intena] of its
    [struct cpu].  [x_owns] is a ghost: the CPU's atomic swap took the lock and its
    release has not put it back. *)
Record xcpu := XCpu {
  x_pc : pc; x_sie : bool; x_noff : Z; x_intena : bool; x_owns : bool;
}.

Definition goto (p : pc) (x : xcpu) : xcpu := XCpu p (x_sie x) (x_noff x) (x_intena x) (x_owns x).
Definition own (b : bool) (x : xcpu) : xcpu := XCpu (x_pc x) (x_sie x) (x_noff x) (x_intena x) b.

(** holding(lk) on CPU [i]. *)
Definition spin_holding (lk : spinlock) (i : nat) : bool :=
  truth (lk_locked lk) && bool_decide (lk_cpu lk = Some i).

(** push_off() and pop_off() on a CPU. *)
Definition xpush_off (x : xcpu) : xcpu :=
  XCpu (x_pc x) false (x_noff x + 1) (if x_noff x =? 0 then x_sie x else x_intena x) (x_owns x).

Definition xpop_off (x : xcpu) : xcpu :=
  if x_sie x then goto (Panicked "pop_off - interruptible") x
  else if x_noff x <? 1 then goto (Panicked "pop_off") x
  else
    let n := x_noff x - 1 in
    XCpu (x_pc x) ((n =? 0) && x_intena x) n (x_intena x) (x_owns x).

(** The next memory access of CPU [i] inside acquire or release. *)
Definition cpu_step (i : nat) (lk : spinlock) (x : xcpu) : spinlock * xcpu :=
  match x_pc x with
  | A_push => (lk, goto A_hold (xpush_off x))
  | A_hold => (lk, goto (if spin_holding lk i then Panicked "acquire" else A_tas) x)
  | A_tas =>
      let old := lk_locked lk in
      (Spin 1 (lk_cpu lk), if truth old then x else own true (goto A_cpu x))
  | A_cpu => (Spin (lk_locked lk) (Some i), goto In x)
  | R_hold => (lk, goto (if negb (spin_holding lk i) then Panicked "release" else R_clear) x)
  | R_clear => (Spin (lk_locked lk) None, goto R_unlock x)
  | R_unlock => (Spin 0 (lk_cpu lk), own false (goto R_pop x))
  | R_pop =>
      let x' := xpop_off x in
      (lk, match x_pc x' with Panicked _ => x' | _ => goto Out x' end)
  | _ => (lk, x)
  end.

Record sys := Sys { sys_lock : spinlock; sys_cpus : nat -> xcpu }.

Definition set_cpu (i : nat) (x : xcpu) (f : nat -> xcpu) : nat -> xcpu :=
  fun j => if decide (j = i) then x else f j.

Definition advance (i : nat) (s : sys) : sys :=
  let r := cpu_step i (sys_lock s) (sys_cpus s i) in
  Sys r.1 (set_cpu i r.2 (sys_cpus s)).

Definition jump (i : nat) (p : pc) (s : sys) : sys :=
  Sys (sys_lock s) (set_cpu i (goto p (sys_cpus s i)) (sys_cpus s)).

(** Any CPU may move.  The code that uses the lock calls [acquire] from outside or,
    in error, from inside the critical section, and [release] from inside it. *)
Inductive step : sys -> sys -> Prop :=
| step_advance i s : step s (advance i s)
| step_acquire i s : x_pc (sys_cpus s i) = Out \/ x_pc (sys_cpus s i) = In -> step s (jump i A_push s)
| step_release i s : x_pc (sys_cpus s i) = In -> step s (jump i R_hold s).

(** All CPUs outside, with their interrupts in any state. *)
Definition initial (s : sys) : Prop :=
  sys_lock s = spin_init /\
  forall i, let x := sys_cpus s i in
    x_pc x = Out /\ x_owns x = false /\ 0 <= x_noff x /\ (0 < x_noff x -> x_sie x = false).

Inductive reachable : sys -> Prop :=
| reach_init s : initial s -> reachable s
| reach_step s s' : reachable s -> step s s' -> reachable s'.

(** ** The invariant *)

(** What a CPU's place says about the lock; [cpu] is [lk->cpu]. *)
Definition pc_ok (i : nat) (cpu : option nat) (x : xcpu) : Prop :=
  match x_pc x with
  | Out | A_tas | R_pop => x_owns x = false
  | A_cpu | R_unlock => x_owns x = true /\ cpu = None
  | In | R_hold | R_clear => x_owns x = true /\ cpu = Some i
  | A_push | A_hold | Panicked _ => x_owns x = true -> cpu = Some i
  end.

(** Interrupts are off from [push_off] to [pop_off], and while the lock is owned. *)
Definition intr_ok (x : xcpu) : Prop :=
  0 <= x_noff x /\ (0 < x_noff x -> x_sie x = false) /\
  (x_owns x = true -> 0 < x_noff x) /\
  match x_pc x with
  | Out | A_push | Panicked _ => True
  | _ => 0 < x_noff x
  end.

Record inv (s : sys) : Prop := {
  inv_locked : lk_locked (sys_lock s) = 0 \/ lk_locked (sys_lock s) = 1;
  inv_owner : lk_locked (sys_lock s) = 1 <-> exists i, x_owns (sys_cpus s i) = true;
  inv_unique : forall i j, x_owns (sys_cpus s i) = true -> x_owns (sys_cpus s j) = true -> i = j;
  inv_cpu : forall i, lk_cpu (sys_lock s) = Some i -> x_owns (sys_cpus s i) = true;
  inv_pc : forall i, pc_ok i (lk_cpu (sys_lock s)) (sys_cpus s i);
  inv_intr : forall i, intr_ok (sys_cpus s i);
}.

Lemma set_cpu_eq i x f : set_cpu i x f i = x.
Proof. unfold set_cpu. by rewrite decide_True. Qed.
Lemma set_cpu_ne i j x f : j <> i -> set_cpu i x f j = f j.
Proof. intros. unfold set_cpu. by rewrite decide_False. Qed.

Lemma initial_inv s : initial s -> inv s.
Proof.
  intros [Hl Hx]. split; rewrite ?Hl; simpl.
  - by left.
  - split; [done|]. intros [i Hi]. destruct (Hx i) as (_ & Ho & _). congruence.
  - intros i j Hi _. destruct (Hx i) as (_ & Ho & _). congruence.
  - done.
  - intros i. destruct (Hx i) as (Hp & Ho & _). unfold pc_ok. by rewrite Hp.
  - intros i. destruct (Hx i) as (Hp & Ho & H0 & H1). unfold intr_ok. rewrite Hp, Ho. done.
Qed.

(** A step of CPU [i] that touches neither [lk->cpu] nor ownership. *)
Lemma inv_local s i x :
  inv s -> x_owns x = x_owns (sys_cpus s i) -> pc_ok i (lk_cpu (sys_lock s)) x -> intr_ok x ->
  inv (Sys (sys_lock s) (set_cpu i x (sys_cpus s))).
Proof.
  intros [H1 H2 H3 H4 H5 H6] Ho Hp Hi.
  assert (forall j, x_owns (set_cpu i x (sys_cpus s) j) = x_owns (sys_cpus s j)) as Hown.
  { intros j. unfold set_cpu. case_decide; [by subst|done]. }
  split; simpl; try done.
  - rewrite H2. by setoid_rewrite Hown.
  - intros j k. rewrite !Hown. apply H3.
  - intros j. rewrite Hown. apply H4.
  - intros j. unfold set_cpu. case_decide; [by subst|apply H5].
  - intros j. unfold set_cpu. case_decide; [by subst|apply H6].
Qed.

(** A CPU that does not own the lock is not named in [lk->cpu]. *)
Lemma inv_not_owner s i : inv s -> x_owns (sys_cpus s i) = false -> lk_cpu (sys_lock s) <> Some i.
Proof. intros H Ho Hc. apply (inv_cpu _ H) in Hc. congruence. Qed.

(** The others when CPU [i] owns the lock: their places do not mention [lk->cpu]. *)
Lemma pc_ok_others s i j cpu :
  inv s -> x_owns (sys_cpus s i) = true -> j <> i -> pc_ok j cpu (sys_cpus s j).
Proof.
  intros H Hi Hne. assert (x_owns (sys_cpus s j) = false) as Hj.
  { destruct (x_owns (sys_cpus s j)) eqn:E; [|done]. by destruct Hne; apply (inv_unique _ H). }
  pose proof (inv_pc _ H j) as Hp. unfold pc_ok in *.
  destruct (x_pc (sys_cpus s j)); try tauto; try (destruct Hp; congruence); intros; congruence.
Qed.

(** A step of the owner that writes [lk->cpu]. *)
Lemma inv_write_cpu s i x cpu :
  inv s -> x_owns (sys_cpus s i) = true -> x_owns x = true -> (forall j, cpu = Some j -> j = i) ->
  pc_ok i cpu x -> intr_ok x ->
  inv (Sys (Spin (lk_locked (sys_lock s)) cpu) (set_cpu i x (sys_cpus s))).
Proof.
  intros H Hi Hx Hcpu Hp Hin. pose proof H as [H1 H2 H3 H4 H5 H6].
  assert (forall j, x_owns (set_cpu i x (sys_cpus s) j) = x_owns (sys_cpus s j)) as Hown.
  { intros j. unfold set_cpu. case_decide; [by subst; congruence|done]. }
  split; simpl; try done.
  - rewrite H2. by setoid_rewrite Hown.
  - intros j k. rewrite !Hown. apply H3.
  - intros j ->. rewrite Hown. by rewrite (Hcpu j).
  - intros j. unfold set_cpu. case_decide; [by subst|]. by eapply pc_ok_others.
  - intros j. unfold set_cpu. case_decide; [by subst|apply H6].
Qed.

(** The atomic swap that takes the lock. *)
Lemma inv_take s i x :
  inv s -> lk_locked (sys_lock s) = 0 -> x_owns x = true -> pc_ok i None x -> intr_ok x ->
  inv (Sys (Spin 1 (lk_cpu (sys_lock s))) (set_cpu i x (sys_cpus s))).
Proof.
  intros [H1 H2 H3 H4 H5 H6] H0 Hx Hp Hin.
  assert (forall j, x_owns (sys_cpus s j) = false) as Hnone.
  { intros j. destruct (x_owns (sys_cpus s j)) eqn:E; [|done].
    assert (lk_locked (sys_lock s) = 1) by (apply H2; eauto). lia. }
  assert (lk_cpu (sys_lock s) = None) as Hcpu.
  { destruct (lk_cpu (sys_lock s)) as [j|]; [|done]. specialize (H4 j eq_refl). by rewrite Hnone in H4. }
  assert (forall j, x_owns (set_cpu i x (sys_cpus s) j) = true -> j = i) as Hown.
  { intros j. unfold set_cpu. case_decide; [done|]. by rewrite Hnone. }
  split; simpl; rewrite ?Hcpu.
  - by right.
  - split; [|done]. intros _. exists i. by rewrite set_cpu_eq.
  - intros j k Hj Hk. by rewrite (Hown j Hj), (Hown k Hk).
  - done.
  - intros j. unfold set_cpu. case_decide; [by subst|]. rewrite <- Hcpu. apply H5.
  - intros j. unfold set_cpu. case_decide; [by subst|apply H6].
Qed.

(** The store that gives it back. *)
Lemma inv_give s i x :
  inv s -> x_owns (sys_cpus s i) = true -> lk_cpu (sys_lock s) = None ->
  x_owns x = false -> pc_ok i None x -> intr_ok x ->
  inv (Sys (Spin 0 (lk_cpu (sys_lock s))) (set_cpu i x (sys_cpus s))).
Proof.
  intros H Hi Hcpu Hx Hp Hin. pose proof H as [H1 H2 H3 H4 H5 H6].
  assert (forall j, x_owns (set_cpu i x (sys_cpus s) j) = false) as Hown.
  { intros j. unfold set_cpu. case_decide; [done|].
    destruct (x_owns (sys_cpus s j)) eqn:E; [|done]. exfalso. eauto. }
  split; simpl; rewrite ?Hcpu.
  - by left.
  - split; [done|]. intros [j Hj]. by rewrite Hown in Hj.
  - intros j k Hj. by rewrite Hown in Hj.
  - done.
  - intros j. unfold set_cpu. case_decide; [by subst|]. rewrite <- Hcpu. apply H5.
  - intros j. unfold set_cpu. case_decide; [by subst|apply H6].
Qed.

Lemma spin_holding_owner s i : inv s ->
  spin_holding (sys_lock s) i = true <-> lk_cpu (sys_lock s) = Some i.
Proof.
  intros H. unfold spin_holding. rewrite andb_true_iff, bool_decide_eq_true. split; [tauto|].
  intros Hc. split; [|done]. apply (inv_cpu _ H) in Hc.
  assert (lk_locked (sys_lock s) = 1) as -> by (apply (inv_owner _ H); eauto). done.
Qed.

Lemma advance_inv i s : inv s -> inv (advance i s).
Proof.
  intros H. pose proof (inv_pc _ H i) as Hp. pose proof (inv_intr _ H i) as Hi.
  unfold advance, cpu_step. pose proof Hp as Hp'. unfold pc_ok in Hp'.
  pose proof Hi as (Hn0 & Hsie & Hown & Hpc). destruct (x_pc (sys_cpus s i)) eqn:E; cbn [fst snd].
  1,6,11: apply inv_local; try done.
  - (* A_push *) apply inv_local; try done; unfold intr_ok; simpl. repeat split; try done; lia.
  - (* A_hold *) destruct (spin_holding (sys_lock s) i) eqn:Eh; apply inv_local; try done;
      try (unfold intr_ok; simpl; by auto).
    + unfold pc_ok. simpl. destruct (x_owns (sys_cpus s i)) eqn:Eo; [|done].
      apply not_true_iff_false in Eh. destruct Eh. apply spin_holding_owner; auto.
  - (* A_tas *) destruct (inv_locked _ H) as [E0|E1].
    + rewrite E0. change (truth 0) with false. apply inv_take; try done; unfold intr_ok; simpl; auto.
    + rewrite E1. change (truth 1) with true.
      replace (Spin 1 (lk_cpu (sys_lock s))) with (sys_lock s)
        by (destruct (sys_lock s); simpl in *; congruence).
      by apply inv_local.
  - (* A_cpu *) destruct Hp' as [Ho Hc]. apply inv_write_cpu; try done; try congruence.
  - (* R_hold *) assert (spin_holding (sys_lock s) i = true) as -> by (apply spin_holding_owner; tauto).
    apply inv_local; done.
  - (* R_clear *) destruct Hp' as [Ho Hc]. apply inv_write_cpu; done.
  - (* R_unlock *) destruct Hp' as [Ho Hc]. apply inv_give; try done.
  - (* R_pop *) unfold xpop_off. rewrite Hsie by done. zcase (x_noff (sys_cpus s i) <? 1); [lia|].
    cbn [x_pc]. rewrite E. apply inv_local; try done. unfold intr_ok. simpl. rewrite Hp'.
    split; [lia|]. split; [|split; [done|done]]. intros Hpos.
    zcase (x_noff (sys_cpus s i) - 1 =? 0); [lia|done].
Qed.

Lemma step_inv s s' : inv s -> step s s' -> inv s'.
Proof.
  intros H Hstep. destruct Hstep as [i s|i s Hpc|i s Hpc]; [by apply advance_inv| |];
    pose proof (inv_pc _ H i) as Hp; pose proof (inv_intr _ H i) as (Hn & Hs & Ho & Hi);
    unfold pc_ok in Hp; apply inv_local; try done.
  - unfold pc_ok. simpl. destruct Hpc as [E|E]; rewrite E in Hp; [|tauto]. intros Hx. by rewrite Hp in Hx.
  - by rewrite Hpc in Hp.
  - rewrite Hpc in Hi. done.
Qed.

Lemma reachable_inv s : reachable s -> inv s.
Proof. induction 1; [by apply initial_inv|by eapply step_inv]. Qed.

(** ** Properties *)

(** C9: the lock excludes: whatever the interleaving of the CPUs' memory accesses, two
    CPUs are never in the critical section together, and a CPU that is in it has its
    interrupts off. *)
Theorem spinlock_mutual_exclusion s i j :
  reachable s -> x_pc (sys_cpus s i) = In -> x_pc (sys_cpus s j) = In ->
  i = j /\ x_sie (sys_cpus s i) = false.
Proof.
  intros H%reachable_inv Hi Hj.
  pose proof (inv_pc _ H i) as Pi. pose proof (inv_pc _ H j) as Pj. unfold pc_ok in *.
  rewrite Hi in Pi. rewrite Hj in Pj. split; [apply (inv_unique _ H); tauto|].
  destruct (inv_intr _ H i) as (_ & Hs & Ho & _). apply Hs, Ho. tauto.
Qed.

(** the checks in [acquire] and [release] are exact: [acquire] panics precisely when
    the CPU already holds the lock, and the [release] of a critical section never does. *)
Theorem spinlock_panics s i :
  reachable s ->
  (x_pc (sys_cpus s i) = A_hold ->
     (x_pc (sys_cpus (advance i s) i) = Panicked "acquire" <-> x_owns (sys_cpus s i) = true)) /\
  (x_pc (sys_cpus s i) = R_hold -> x_pc (sys_cpus (advance i s) i) = R_clear).
Proof.
  intros H%reachable_inv. pose proof (inv_pc _ H i) as Hp. pose proof (spin_holding_owner s i H) as Hh.
  unfold advance, cpu_step, pc_ok in *. split; intros E; rewrite E in *; cbn [snd sys_cpus];
    rewrite set_cpu_eq; cbn [goto x_pc].
  - destruct (spin_holding (sys_lock s) i) eqn:Eh.
    + split; [|done]. intros _. apply (inv_cpu _ H). by apply Hh.
    + split; [done|]. intros Ho. apply Hp, Hh in Ho. done.
  - assert (spin_holding (sys_lock s) i = true) as -> by tauto. done.
Qed.

(** [n] steps of CPU [i]. *)
Fixpoint advance_n (n : nat) (i : nat) (s : sys) : sys :=
  match n with O => s | S n' => advance_n n' i (advance i s) end.

Lemma advance_other i j s : j <> i -> sys_cpus (advance i s) j = sys_cpus s j.
Proof. intros. unfold advance. simpl. by apply set_cpu_ne. Qed.

Lemma advance_n_other n i j s : j <> i -> sys_cpus (advance_n n i s) j = sys_cpus s j.
Proof.
  intros H. revert s. induction n as [|n IH]; intros s; simpl; [done|]. rewrite IH. by apply advance_other.
Qed.

(** The steps of one CPU, on the lock and that CPU alone. *)
Fixpoint cpu_steps (n i : nat) (r : spinlock * xcpu) : spinlock * xcpu :=
  match n with O => r | S n' => cpu_steps n' i (cpu_step i r.1 r.2) end.

Lemma advance_n_self n i s :
  (sys_lock (advance_n n i s), sys_cpus (advance_n n i s) i) = cpu_steps n i (sys_lock s, sys_cpus s i).
Proof.
  revert s. induction n as [|n IH]; intros s; [done|]. cbn [advance_n cpu_steps]. rewrite IH.
  unfold advance. cbn [sys_lock sys_cpus fst snd]. by rewrite set_cpu_eq, <- surjective_pairing.
Qed.

(** A spinning CPU that finds the lock free is in the critical section two steps later. *)
Lemma advance_free i s :
  x_pc (sys_cpus s i) = A_tas -> lk_locked (sys_lock s) = 0 ->
  x_pc (sys_cpus (advance_n 2 i s) i) = In.
Proof.
  intros Hi H0. pose proof (advance_n_self 2 i s) as E. revert E.
  generalize (advance_n 2 i s). intros t E.
  destruct (sys_lock s) as [lo cp], (sys_cpus s i) as [p si no ie ow]. simpl in Hi, H0. subst.
  simpl in E. injection E as _ E. by rewrite E.
Qed.

(** A CPU in [release] frees the lock within three steps. *)
Lemma release_frees i s :
  inv s -> x_pc (sys_cpus s i) = R_hold -> lk_locked (sys_lock (advance_n 3 i s)) = 0.
Proof.
  intros H Hi. pose proof (inv_pc _ H i) as Hp. unfold pc_ok in Hp. rewrite Hi in Hp.
  assert (spin_holding (sys_lock s) i = true) as Hh by (apply spin_holding_owner; tauto).
  pose proof (advance_n_self 3 i s) as E. revert E.
  generalize (advance_n 3 i s). intros t E.
  destruct (sys_lock s) as [lo cp], (sys_cpus s i) as [p si no ie ow]. simpl in Hi. subst.
  cbn [cpu_steps cpu_step x_pc fst snd] in E. rewrite Hh in E. simpl in E. injection E as E _. by rewrite E.
Qed.

(** no lost lock: when the holder calls [release], a spinning CPU gets the lock as
    soon as it is scheduled - three steps of the holder and two of the waiter. *)
Theorem spinlock_handover s i j :
  reachable s -> x_pc (sys_cpus s i) = R_hold -> x_pc (sys_cpus s j) = A_tas ->
  x_pc (sys_cpus (advance_n 2 j (advance_n 3 i s)) j) = In.
Proof.
  intros H%reachable_inv Hi Hj. assert (j <> i) as Hne by congruence.
  apply advance_free; [|by apply release_frees].
  by rewrite advance_n_other.
Qed.

(** ** Two CPUs *)

Definition idle_cpu : xcpu := XCpu Out true 0 false false.
Definition two_cpus : sys := Sys spin_init (fun _ => idle_cpu).

Lemma two_cpus_initial : reachable two_cpus.
Proof. apply reach_init. split; [done|]. intros i. simpl. repeat split; lia. Qed.

Lemma reachable_advance_n n i s : reachable s -> reachable (advance_n n i s).
Proof.
  revert s. induction n as [|n IH]; intros s H; simpl; [done|].
  apply IH. eapply reach_step; [done|]. apply step_advance.
Qed.

(** CPU 0 in the critical section. *)
Definition demo_in : sys := advance_n 4 0 (jump 0 A_push two_cpus).

Lemma demo_in_reachable : reachable demo_in.
Proof.
  apply reachable_advance_n. eapply reach_step; [apply two_cpus_initial|].
  apply (step_acquire 0). by left.
Qed.

(** CPU 0 about to release, CPU 1 spinning. *)
Definition demo_contended : sys := jump 0 R_hold (advance_n 5 1 (jump 1 A_push demo_in)).

Lemma demo_contended_reachable : reachable demo_contended.
Proof.
  eapply reach_step.
  - apply reachable_advance_n. eapply reach_step; [apply demo_in_reachable|].
    apply (step_acquire 1). left. reflexivity.
  - apply (step_release 0). reflexivity.
Qed.

Lemma spinlock_mutual_exclusion_witness :
  x_pc (sys_cpus demo_in 0) = In /\ x_sie (sys_cpus demo_in 0) = false.
Proof.
  split; [reflexivity|].
  apply (spinlock_mutual_exclusion demo_in 0 0 demo_in_reachable); reflexivity.
Defined.

Lemma spinlock_panics_witness :
  x_pc (sys_cpus (advance 0 demo_contended) 0) = R_clear.
Proof. apply (spinlock_panics demo_contended 0 demo_contended_reachable). reflexivity. Defined.

Lemma spinlock_handover_witness :
  x_pc (sys_cpus (advance_n 2 1 (advance_n 3 0 demo_contended)) 1) = In.
Proof.
  apply (spinlock_handover demo_contended 0 1 demo_contended_reachable); reflexivity.
Defined.
