(* ===== verification/Sleeplock.v ===== *)
(** * Sleep locks (kernel/sleeplock.c)

    A sleep lock is part of a larger object (a buffer, an inode): the operations work
    through a [lens] to it.  [lk] is the spinlock inside it and [ch] its address, the
    channel its waiters sleep on. *)
From S2P Require Import Prelude Machine.

(** struct sleeplock: [locked] and the pid of the holder. *)
Record sleeplock := SleepLock { sl_locked : Z; sl_pid : Z }.

Definition sl_free : sleeplock := SleepLock 0 0.

Section Sleeplock.
Context {S : Type} (L : lens S sleeplock) (lk : lockid) (ch : chan).

Definition initsleeplock : M S unit :=
  initlock lk ;;
  modify (update L (SleepLock 0 0)).

Definition sl_busy (s : S) : bool := truth (sl_locked (view L s)).

Definition acquiresleep : M S unit :=
  acquire lk ;;
  sleep_while sl_busy ch lk ;;
  pid <- asks c_pid ;;
  modify (update L (SleepLock 1 pid)) ;;
  release lk.

Definition releasesleep : M S unit :=
  acquire lk ;;
  modify (update L (SleepLock 0 0)) ;;
  wakeup ch ;;
  release lk.

Definition holdingsleep : M S bool :=
  acquire lk ;;
  pid <- asks c_pid ;;
  r <- gets (fun s => truth (sl_locked (view L s)) && (sl_pid (view L s) =? pid)) ;;
  release lk ;;
  ret r.

(** ** What they do *)

Context (c : ctx) (Hc : steady c) (Hlk : lk ∉ c_held c).

Lemma acquiresleep_free s :
  sl_locked (view L s) = 0 ->
  acquiresleep c s = Done tt c (update L (SleepLock 1 (c_pid c)) s).
Proof using Hc Hlk.
  intros H. destruct Hc as [Hok Hst]. unfold acquiresleep. kstep (acquire_run lk c s Hlk).
  kstep (sleep_while_false sl_busy ch lk (enter lk c) s ltac:(unfold sl_busy; by rewrite H)). krun.
  by rewrite (release_enter lk c _ Hok Hlk), Hst.
Qed.

Lemma releasesleep_run s :
  releasesleep c s = Done tt (woken [ch] c) (update L (SleepLock 0 0) s).
Proof using Hc Hlk.
  destruct Hc as [Hok Hst]. unfold releasesleep. kstep (acquire_run lk c s Hlk). krun.
  kstep (wakeup_run ch (enter lk c) (update L (SleepLock 0 0) s)).
  by rewrite (release_enter_woken lk [ch] c _ Hok Hlk), Hst.
Qed.

Lemma holdingsleep_run s :
  holdingsleep c s =
  Done (truth (sl_locked (view L s)) && (sl_pid (view L s) =? c_pid c)) c s.
Proof using Hc Hlk.
  destruct Hc as [Hok Hst]. unfold holdingsleep. kstep (acquire_run lk c s Hlk). krun.
  kstep (release_enter lk c s Hok Hlk). by rewrite Hst.
Qed.

(** A thread that finds the lock taken sleeps on it, with nothing changed, and takes it
    when it is woken with the lock free. *)
Lemma acquiresleep_busy s :
  c_noff c = 0 -> LProc (c_proc c) ∉ c_held c -> lk <> LProc (c_proc c) -> (0 < c_fuel c)%nat ->
  sl_locked (view L s) <> 0 ->
  exists k, acquiresleep c s = Sleep ch (enter (LProc (c_proc c)) c) s k /\
    forall s', sl_locked (view L s') = 0 ->
      k s' = Done tt c (update L (SleepLock 1 (c_pid c)) s').
Proof using Hc Hlk.
  intros Hn Hp Hne Hf Hb. unfold acquiresleep. kstep (acquire_run lk c s Hlk).
  assert (sl_busy s = true) as Hbusy by (unfold sl_busy, truth; by zcase (sl_locked (view L s) =? 0)).
  destruct (sleep_while_true sl_busy ch lk c s Hc Hn Hlk Hp Hne Hf Hbusy) as (k & Hrun & Hk).
  unfold bind at 1. rewrite Hrun. cbn [obind]. eexists. split; [reflexivity|].
  intros s' Hs'. cbn beta. rewrite Hk by (unfold sl_busy; by rewrite Hs'). cbn [obind]. krun.
  destruct Hc as [Hok Hst]. by rewrite (release_enter lk c _ Hok Hlk), Hst.
Qed.
End Sleeplock.

#[global] Arguments acquiresleep : simpl never.
#[global] Arguments releasesleep : simpl never.
#[global] Arguments holdingsleep : simpl never.
