(* ===== verification/Bio.v ===== *)
(** * The buffer cache (kernel/bio.c): the operations

    Buffers are the records of the array [bcache.buf], with index [NBUF] for
    [bcache.head]; a [struct buf *] is an index, and [prev] and [next] are the links of
    the LRU list.  The disk is a map from block numbers to blocks, with the writes it
    has received, in order; [virtio_disk_rw] is its effect as the cache sees it, one
    transfer between a buffer and a block. *)
From S2P Require Import Prelude Machine Sleeplock.

Definition MAXOPBLOCKS : Z := 10.
Definition NBUF : Z := MAXOPBLOCKS * 3.
Definition BSIZE : Z := 1024.

(** struct buf *)
Record buf := Buf {
  b_valid : Z;
  b_disk : Z;
  b_dev : Z;
  b_blockno : Z;
  b_lock : sleeplock;
  b_refcnt : Z;
  b_prev : Z;
  b_next : Z;
  b_data : list Z;
}.

Definition set_valid (x : Z) (b : buf) : buf :=
  Buf x (b_disk b) (b_dev b) (b_blockno b) (b_lock b) (b_refcnt b) (b_prev b) (b_next b) (b_data b).
Definition set_block (dev blockno : Z) (b : buf) : buf :=
  Buf (b_valid b) (b_disk b) dev blockno (b_lock b) (b_refcnt b) (b_prev b) (b_next b) (b_data b).
Definition set_lock (x : sleeplock) (b : buf) : buf :=
  Buf (b_valid b) (b_disk b) (b_dev b) (b_blockno b) x (b_refcnt b) (b_prev b) (b_next b) (b_data b).
Definition set_refcnt (x : Z) (b : buf) : buf :=
  Buf (b_valid b) (b_disk b) (b_dev b) (b_blockno b) (b_lock b) x (b_prev b) (b_next b) (b_data b).
Definition set_prev (x : Z) (b : buf) : buf :=
  Buf (b_valid b) (b_disk b) (b_dev b) (b_blockno b) (b_lock b) (b_refcnt b) x (b_next b) (b_data b).
Definition set_next (x : Z) (b : buf) : buf :=
  Buf (b_valid b) (b_disk b) (b_dev b) (b_blockno b) (b_lock b) (b_refcnt b) (b_prev b) x (b_data b).
Definition set_data (x : list Z) (b : buf) : buf :=
  Buf (b_valid b) (b_disk b) (b_dev b) (b_blockno b) (b_lock b) (b_refcnt b) (b_prev b) (b_next b) x.

Definition zero_block : list Z := replicate 1024 0.

(** A buffer of zeroed static memory. *)
Definition buf0 : buf := Buf 0 0 0 0 sl_free 0 0 0 zero_block.

Abbreviation blocks := (gmap Z (list Z)).

Record bio := Bio {
  bufs : list buf;
  disk : blocks;
  writes : list (Z * list Z);
}.

Definition head : Z := NBUF.

Definition getb (s : bio) (i : Z) : buf := znth buf0 (bufs s) i.
Definition updb (i : Z) (f : buf -> buf) (s : bio) : bio :=
  Bio (zupd (bufs s) i (f (getb s i))) (disk s) (writes s).

Definition blk (d : blocks) (b : Z) : list Z := default zero_block (d !! b).

(** The sleep lock of buffer [i]. *)
Definition buf_lock (i : Z) : lens bio sleeplock :=
  Lens (fun s => b_lock (getb s i)) (fun l => updb i (set_lock l)).

Definition mupd (i : Z) (f : buf -> buf) : M bio unit := modify (updb i f).
Definition mget {A} (i : Z) (f : buf -> A) : M bio A := gets (fun s => f (getb s i)).

(** ** The disk, as the cache sees it *)

Definition virtio_disk_rw (b : Z) (write : bool) : M bio unit :=
  modify (fun s =>
    let bp := getb s b in
    if write then
      Bio (bufs s) (<[b_blockno bp := b_data bp]> (disk s)) (writes s ++ [(b_blockno bp, b_data bp)])
    else updb b (set_data (blk (disk s) (b_blockno bp))) s).

(** ** binit *)

(** One iteration of the loop that links buffer [b] in front. *)
Definition binit_link (b : Z) : M bio unit :=
  hn <- mget head b_next ;;
  mupd b (set_next hn) ;;
  mupd b (set_prev head) ;;
  initsleeplock (buf_lock b) (LBufSleep b) ;;
  hn <- mget head b_next ;;
  mupd hn (set_prev b) ;;
  mupd head (set_next b).

Fixpoint binit_loop (k : nat) (b : Z) : M bio unit :=
  match k with
  | O => ret tt
  | S k' => binit_link b ;; binit_loop k' (b + 1)
  end.

Definition binit : M bio unit :=
  initlock LBcache ;;
  mupd head (set_prev head) ;;
  mupd head (set_next head) ;;
  binit_loop (Z.to_nat NBUF) 0.

(** ** bget *)

(** The two scans of the list: forward for the block, backward for an unused buffer. *)
Fixpoint scan_next (k : nat) (s : bio) (dev blockno b : Z) : option Z :=
  match k with
  | O => None
  | S k' =>
      if b =? head then None
      else if (b_dev (getb s b) =? dev) && (b_blockno (getb s b) =? blockno) then Some b
      else scan_next k' s dev blockno (b_next (getb s b))
  end.

Fixpoint scan_prev (k : nat) (s : bio) (b : Z) : option Z :=
  match k with
  | O => None
  | S k' =>
      if b =? head then None
      else if b_refcnt (getb s b) =? 0 then Some b
      else scan_prev k' s (b_prev (getb s b))
  end.

(** A scan visits at most the [NBUF] buffers and the head. *)
Definition scan_bound : nat := Z.to_nat (NBUF + 1).

Definition bget (dev blockno : Z) : M bio Z :=
  acquire LBcache ;;
  cached <- gets (fun s => scan_next scan_bound s dev blockno (b_next (getb s head))) ;;
  match (cached : option Z) with
  | Some b =>
      r <- mget b b_refcnt ;;
      mupd b (set_refcnt (u32 (r + 1))) ;;
      release LBcache ;;
      acquiresleep (buf_lock b) (LBufSleep b) (ChBuf b) ;;
      ret b
  | None =>
      unused <- gets (fun s => scan_prev scan_bound s (b_prev (getb s head))) ;;
      match (unused : option Z) with
      | Some b =>
          mupd b (set_block dev blockno) ;;
          mupd b (set_valid 0) ;;
          mupd b (set_refcnt 1) ;;
          release LBcache ;;
          acquiresleep (buf_lock b) (LBufSleep b) (ChBuf b) ;;
          ret b
      | None => panic "bget: no buffers"
      end
  end.

(** ** The interface *)

Definition bread (dev blockno : Z) : M bio Z :=
  b <- bget dev blockno ;;
  v <- mget b b_valid ;;
  when (v =? 0)
    (virtio_disk_rw b false ;;
     mupd b (set_valid 1)) ;;
  ret b.

Definition bwrite (b : Z) : M bio unit :=
  h <- holdingsleep (buf_lock b) (LBufSleep b) ;;
  if negb h then panic "bwrite" else
  virtio_disk_rw b true.

(** Unlinking [b] and putting it at the front of the list. *)
Definition bmove_front (b : Z) : M bio unit :=
  n <- mget b b_next ;;
  p <- mget b b_prev ;;
  mupd n (set_prev p) ;;
  p <- mget b b_prev ;;
  n <- mget b b_next ;;
  mupd p (set_next n) ;;
  hn <- mget head b_next ;;
  mupd b (set_next hn) ;;
  mupd b (set_prev head) ;;
  hn <- mget head b_next ;;
  mupd hn (set_prev b) ;;
  mupd head (set_next b).

Definition brelse (b : Z) : M bio unit :=
  h <- holdingsleep (buf_lock b) (LBufSleep b) ;;
  if negb h then panic "brelse" else
  releasesleep (buf_lock b) (LBufSleep b) (ChBuf b) ;;
  acquire LBcache ;;
  r <- mget b b_refcnt ;;
  mupd b (set_refcnt (u32 (r - 1))) ;;
  r <- mget b b_refcnt ;;
  when (r =? 0) (bmove_front b) ;;
  release LBcache.

Definition bpin (b : Z) : M bio unit :=
  acquire LBcache ;;
  r <- mget b b_refcnt ;;
  mupd b (set_refcnt (u32 (r + 1))) ;;
  release LBcache.

Definition bunpin (b : Z) : M bio unit :=
  acquire LBcache ;;
  r <- mget b b_refcnt ;;
  mupd b (set_refcnt (u32 (r - 1))) ;;
  release LBcache.

(** Writing a buffer's data in place, as the users of the cache do through [bp->data]. *)
Definition bset_data (b : Z) (d : list Z) : M bio unit := mupd b (set_data d).

#[global] Arguments scan_bound : simpl never.
#[global] Arguments zero_block : simpl never.

Lemma length_zero_block : length zero_block = 1024%nat.
Proof. reflexivity. Qed.
#[global] Opaque zero_block.
