(* ===== verification/BioProps.v ===== *)
(** * The buffer cache: what the operations do

    [bcache_ok dev s L] is the cache's invariant: the [prev]/[next] links are a doubly
    linked list through [bcache.head] that holds every buffer once, in the order [L]
    (most recently used first); a block is in at most one buffer; buffers without
    references are unlocked and, when valid, hold what the disk holds.  [content] is
    what the cache shows its users: the cached block, or the disk's. *)
From S2P Require Import Prelude Machine Sleeplock Bio.

(** ** Doubly linked lists *)

(** [seg nx pv a l e]: following [nx] from [a] visits [l] and then [e], and [pv] goes back. *)
Fixpoint seg (nx pv : Z -> Z) (a : Z) (l : list Z) (e : Z) : Prop :=
  match l with
  | [] => nx a = e /\ pv e = a
  | b :: l' => nx a = b /\ pv b = a /\ seg nx pv b l' e
  end.

Lemma seg_app nx pv a l1 b l2 e :
  seg nx pv a (l1 ++ b :: l2) e <-> seg nx pv a l1 b /\ seg nx pv b l2 e.
Proof.
  revert a. induction l1 as [|x l1 IH]; intros a; simpl; [tauto|]. rewrite IH. tauto.
Qed.

(** The segment reads [nx] at [a] and in [l], [pv] in [l] and at [e]. *)
Lemma seg_agree nx pv nx' pv' a l e :
  (forall x, x ∈ a :: l -> nx' x = nx x) -> (forall x, x ∈ l ++ [e] -> pv' x = pv x) ->
  seg nx pv a l e -> seg nx' pv' a l e.
Proof.
  revert a. induction l as [|b l IH]; intros a Hn Hp; simpl.
  - intros [H1 H2]. rewrite Hn by left. rewrite Hp by left. done.
  - intros (H1 & H2 & H3). rewrite Hn by left. rewrite Hp by left. split; [done|]. split; [done|].
    apply IH; [|by intros; apply Hp; right|done]. intros x Hx. apply Hn. by right.
Qed.

Lemma seg_last nx pv a l e : seg nx pv a l e -> pv e = List.last l a.
Proof.
  destruct l as [|x l _] using rev_ind; [simpl; tauto|].
  intros [_ [_ H]]%seg_app. by rewrite List.last_last.
Qed.

Lemma last_elem (l : list Z) a : List.last l a ∈ a :: l.
Proof.
  destruct l as [|x l _] using rev_ind; [left|]. rewrite List.last_last.
  right. apply elem_of_app. right. left.
Qed.

Definition upd (f : Z -> Z) (i v : Z) : Z -> Z := fun x => if x =? i then v else f x.

Lemma upd_eq f i v : upd f i v i = v.
Proof. unfold upd. by rewrite Z.eqb_refl. Qed.
Lemma upd_ne f i v x : x <> i -> upd f i v x = f x.
Proof. intros. unfold upd. zcase (x =? i); done. Qed.

(** Redirecting the end of a segment from [b] to [e]. *)
Lemma seg_redirect nx pv a l b e :
  seg nx pv a l b -> NoDup (a :: l) -> e ∉ l ->
  seg (upd nx (pv b) e) (upd pv e (pv b)) a l e.
Proof.
  revert a. induction l as [|x l IH]; intros a; simpl.
  - intros [H1 H2] _ _. rewrite H2, !upd_eq. done.
  - intros (H1 & H2 & H3) Hnd He. apply NoDup_cons in Hnd as [Hna Hnd].
    apply not_elem_of_cons in He as [Hex Hel].
    assert (pv b ∈ x :: l) as Hin by (rewrite (seg_last _ _ _ _ _ H3); apply last_elem).
    assert (a <> pv b) as Hne by (intros ->; done).
    rewrite (upd_ne nx) by done. rewrite (upd_ne pv) by congruence.
    split; [done|]. split; [done|]. by apply IH.
Qed.

(** Removing [b] from a segment. *)
Lemma seg_remove nx pv a l1 b l2 e :
  seg nx pv a (l1 ++ b :: l2) e -> NoDup (a :: l1 ++ b :: l2) -> (e ∉ l1 ++ b :: l2) ->
  seg (upd nx (pv b) (nx b)) (upd pv (nx b) (pv b)) a (l1 ++ l2) e.
Proof.
  intros [H1 H2]%seg_app Hnd He. apply NoDup_cons in Hnd as [Ha Hnd].
  apply NoDup_app in Hnd as (Hnd1 & Hd & [Hb Hnd2]%NoDup_cons).
  rewrite elem_of_app, elem_of_cons in Ha, He.
  assert (NoDup (a :: l1)) as Hnd1' by (apply NoDup_cons; split; [tauto|done]).
  assert ((pv b ∉ l2) /\ pv b <> b) as [Hp1 Hp2].
  { assert (pv b ∈ a :: l1) as Hin by (rewrite (seg_last _ _ _ _ _ H1); apply last_elem).
    apply elem_of_cons in Hin as [->|Hin]; [split; tauto|].
    split; [intros H; apply (Hd _ Hin); by right|intros H; rewrite H in Hin; apply (Hd _ Hin); left]. }
  destruct l2 as [|n l2]; simpl in H2.
  - destruct H2 as [H2 H3]. rewrite app_nil_r, H2. apply (seg_redirect nx pv a l1 b); [done|done|tauto].
  - destruct H2 as (H2 & H3 & H4). rewrite H2. apply seg_app. split.
    + apply seg_redirect; [done|done|]. intros Hn. apply (Hd _ Hn). right. left.
    + apply (seg_agree nx pv); [| |done].
      * intros x Hx. apply upd_ne. intros ->. done.
      * intros x Hx. apply upd_ne. apply NoDup_cons in Hnd2 as [Hn _].
        apply elem_of_app in Hx as [Hx|Hx%list_elem_of_singleton]; [congruence|].
        intros ->. apply He. subst. right. right. left.
Qed.

(** Inserting [b] at the front of a circular list with head [h]. *)
Lemma seg_push nx pv h l b :
  seg nx pv h l h -> NoDup (h :: l) -> b <> h -> b ∉ l ->
  seg (upd (upd nx b (nx h)) h b) (upd (upd pv b h) (nx h) b) h (b :: l) h.
Proof.
  intros H Hnd Hbh Hbl. cbn [seg]. rewrite upd_eq. split; [done|].
  assert (nx h <> b) as Hnb.
  { destruct l as [|x l]; simpl in H; [destruct H; congruence|].
    destruct H as [-> _]. intros ->. apply Hbl. left. }
  split; [rewrite upd_ne by congruence; apply upd_eq|].
  apply NoDup_cons in Hnd as [Hh Hnd].
  destruct l as [|x l]; simpl in H |- *.
  - destruct H as [H1 H2]. rewrite (upd_ne _ h) by done. rewrite upd_eq, H1, upd_eq. done.
  - destruct H as (H1 & H2 & H3). rewrite (upd_ne _ h) by done. rewrite upd_eq, H1, upd_eq.
    split; [done|]. split; [done|]. apply not_elem_of_cons in Hbl as [Hbx Hbl].
    apply not_elem_of_cons in Hh as [Hhx Hh]. apply NoDup_cons in Hnd as [Hx Hnd].
    apply (seg_agree nx pv); [| |done].
    + intros y Hy. rewrite !upd_ne; [done| |]; intros ->; apply elem_of_cons in Hy as [?|?]; congruence.
    + intros y Hy. rewrite !upd_ne; [done| |]; intros ->;
        apply elem_of_app in Hy as [Hy|Hy%list_elem_of_singleton]; congruence.
Qed.

(** ** Reading and updating buffers *)

Definition is_buf (i : Z) : Prop := 0 <= i < NBUF.
Definition is_node (i : Z) : Prop := 0 <= i <= NBUF.

Lemma getb_updb s i f j :
  zlen (bufs s) = NBUF + 1 -> is_node i ->
  getb (updb i f s) j = if i =? j then f (getb s i) else getb s j.
Proof. intros H Hi. unfold getb, updb. simpl. rewrite znth_zupd by (unfold is_node in *; lia). done. Qed.

Lemma getb_updb_eq s i f :
  zlen (bufs s) = NBUF + 1 -> is_node i -> getb (updb i f s) i = f (getb s i).
Proof. intros. rewrite getb_updb by done. by rewrite Z.eqb_refl. Qed.

Lemma getb_updb_ne s i f j : i <> j -> getb (updb i f s) j = getb s j.
Proof. intros. unfold getb, updb. simpl. by rewrite znth_zupd_ne. Qed.

Lemma zlen_updb s i f : zlen (bufs (updb i f s)) = zlen (bufs s).
Proof. unfold updb. simpl. apply zlen_zupd. Qed.

Lemma disk_updb s i f : disk (updb i f s) = disk s.
Proof. done. Qed.
Lemma writes_updb s i f : writes (updb i f s) = writes s.
Proof. done. Qed.

Lemma zupd_zupd {A} (l : list A) i x y : zupd (zupd l i x) i y = zupd l i y.
Proof.
  unfold zupd. destruct (i <? 0) eqn:E; [done|]. by rewrite list_insert_insert_eq.
Qed.

Lemma updb_updb s i f g :
  zlen (bufs s) = NBUF + 1 -> is_node i -> updb i g (updb i f s) = updb i (fun b => g (f b)) s.
Proof.
  intros H Hi. unfold updb at 1. rewrite getb_updb_eq by done. unfold updb. simpl.
  by rewrite zupd_zupd.
Qed.

Lemma is_buf_node i : is_buf i -> is_node i.
Proof. unfold is_buf, is_node. lia. Qed.
Lemma is_node_head : is_node head.
Proof. unfold is_node, head, NBUF, MAXOPBLOCKS. lia. Qed.
Lemma zlen_updb_eq s i f : zlen (bufs s) = NBUF + 1 -> zlen (bufs (updb i f s)) = NBUF + 1.
Proof. by rewrite zlen_updb. Qed.

Create HintDb bio.
#[export] Hint Resolve is_buf_node is_node_head zlen_updb_eq : bio.

(** ** The invariant *)

Definition nx (s : bio) (i : Z) : Z := b_next (getb s i).
Definition pv (s : bio) (i : Z) : Z := b_prev (getb s i).

Definition unlocked (b : buf) : Prop := sl_locked (b_lock b) = 0.
Definition holds (dev blockno : Z) (b : buf) : Prop := b_dev b = dev /\ b_blockno b = blockno.

(** The properties of one buffer. *)
Record buf_ok (dev : Z) (d : blocks) (b : buf) : Prop := {
  bk_dev : b_dev b = dev \/ (b_dev b = 0 /\ b_valid b = 0 /\ b_refcnt b = 0);
  bk_ref : 0 <= b_refcnt b < 2147483648;
  bk_free : b_refcnt b = 0 -> unlocked b;
  bk_clean : b_refcnt b = 0 -> b_valid b <> 0 -> b_data b = blk d (b_blockno b);
  bk_data : length (b_data b) = 1024%nat;
}.

Record bcache_ok (dev : Z) (s : bio) (L : list Z) : Prop := {
  bc_len : zlen (bufs s) = NBUF + 1;
  bc_list : seg (nx s) (pv s) head L head;
  bc_perm : L ≡ₚ seqZ 0 NBUF;
  bc_uniq : forall i j, is_buf i -> is_buf j -> b_dev (getb s i) = dev -> b_dev (getb s j) = dev ->
    b_blockno (getb s i) = b_blockno (getb s j) -> i = j;
  bc_buf : forall i, is_buf i -> buf_ok dev (disk s) (getb s i);
  bc_disk : forall b d, disk s !! b = Some d -> length d = 1024%nat;
}.

Section Cache.
Context (dev : Z) (Hdev : dev <> 0).

(** Which buffer holds a block, and what the block's users see. *)
Definition find_buf (s : bio) (b : Z) : option Z :=
  List.find (fun i => (b_dev (getb s i) =? dev) && (b_blockno (getb s i) =? b)) (seqZ 0 NBUF).

Definition content (s : bio) (b : Z) : list Z :=
  match find_buf s b with
  | Some i => if b_valid (getb s i) =? 0 then blk (disk s) b else b_data (getb s i)
  | None => blk (disk s) b
  end.

Lemma elem_of_list L s i : bcache_ok dev s L -> i ∈ L <-> is_buf i.
Proof.
  intros H. rewrite (bc_perm _ _ _ H), elem_of_seqZ. unfold is_buf. lia.
Qed.

Lemma list_nodup s L : bcache_ok dev s L -> NoDup (head :: L).
Proof.
  intros H. apply NoDup_cons. split.
  - rewrite (elem_of_list L s) by done. unfold is_buf, head. lia.
  - rewrite (bc_perm _ _ _ H). apply NoDup_seqZ.
Qed.

Lemma length_list s L : bcache_ok dev s L -> length L = 30%nat.
Proof. intros H. by rewrite (bc_perm _ _ _ H), length_seqZ. Qed.

Lemma match_holds s i b :
  (b_dev (getb s i) =? dev) && (b_blockno (getb s i) =? b) = true <-> holds dev b (getb s i).
Proof. unfold holds. rewrite andb_true_iff, !Z.eqb_eq. done. Qed.

Lemma find_buf_Some s L b i :
  bcache_ok dev s L -> find_buf s b = Some i <-> is_buf i /\ holds dev b (getb s i).
Proof.
  intros H. unfold find_buf. split.
  - intros Hf. apply List.find_some in Hf as [Hin Hm]. rewrite match_holds in Hm.
    split; [|done]. apply list_elem_of_In, elem_of_seqZ in Hin. unfold is_buf. lia.
  - intros [Hi Hh]. destruct (List.find _ _) as [j|] eqn:E.
    + apply List.find_some in E as [Hin Hm]. rewrite match_holds in Hm.
      apply list_elem_of_In, elem_of_seqZ in Hin. f_equal. destruct Hh, Hm.
      apply (bc_uniq _ _ _ H); [unfold is_buf; lia|done|done|done|congruence].
    + exfalso. apply match_holds in Hh. rewrite (List.find_none _ _ E i) in Hh; [done|].
      apply list_elem_of_In, elem_of_seqZ. unfold is_buf in Hi. lia.
Qed.

Lemma content_cached s L b i :
  bcache_ok dev s L -> is_buf i -> holds dev b (getb s i) ->
  content s b = if b_valid (getb s i) =? 0 then blk (disk s) b else b_data (getb s i).
Proof using Hdev.
  intros H Hi Hh. unfold content. rewrite (proj2 (find_buf_Some s L b i H)) by done. done.
Qed.

Lemma content_uncached s L b :
  bcache_ok dev s L -> (forall i, is_buf i -> ~ holds dev b (getb s i)) -> content s b = blk (disk s) b.
Proof using Hdev.
  intros H Hno. unfold content. destruct (find_buf s b) as [i|] eqn:E; [|done].
  apply (find_buf_Some s L b i H) in E as [Hi Hh]. by destruct (Hno i).
Qed.

(** ** The scans of bget *)

Lemma seg_reverse n p a l e : seg n p a l e -> seg p n e (reverse l) a.
Proof.
  revert a. induction l as [|b l IH]; intros a; simpl; [tauto|]. intros (H1 & H2 & H3).
  rewrite reverse_cons. apply seg_app. split; [by apply IH|done].
Qed.

Lemma scan_next_find k s a l b :
  seg (nx s) (pv s) a l head -> (head ∉ l) -> (length l < k)%nat ->
  scan_next k s dev b (nx s a) =
  List.find (fun i => (b_dev (getb s i) =? dev) && (b_blockno (getb s i) =? b)) l.
Proof using.
  revert a l. induction k as [|k IH]; intros a l Hs Hh Hk; [lia|]. cbn [scan_next].
  destruct l as [|x l]; cbn [seg length List.find] in *.
  - destruct Hs as [-> _]. by rewrite Z.eqb_refl.
  - destruct Hs as (-> & _ & Hs). apply not_elem_of_cons in Hh as [Hx Hh].
    zcase (x =? head); [congruence|]. destruct (_ && _); [done|].
    change (b_next (getb s x)) with (nx s x). apply IH; [done|done|lia].
Qed.

Lemma scan_prev_find k s a l :
  seg (pv s) (nx s) a l head -> (head ∉ l) -> (length l < k)%nat ->
  scan_prev k s (pv s a) = List.find (fun i => b_refcnt (getb s i) =? 0) l.
Proof using.
  revert a l. induction k as [|k IH]; intros a l Hs Hh Hk; [lia|]. cbn [scan_prev].
  destruct l as [|x l]; cbn [seg length List.find] in *.
  - destruct Hs as [-> _]. by rewrite Z.eqb_refl.
  - destruct Hs as (-> & _ & Hs). apply not_elem_of_cons in Hh as [Hx Hh].
    zcase (x =? head); [congruence|]. destruct (_ =? 0); [done|].
    change (b_prev (getb s x)) with (pv s x). apply IH; [done|done|lia].
Qed.

(** The buffer [bget] recycles: the least recently used one without references. *)
Definition lru (s : bio) (L : list Z) : option Z :=
  List.find (fun i => b_refcnt (getb s i) =? 0) (reverse L).

Lemma scan_next_run s L b :
  bcache_ok dev s L -> scan_next scan_bound s dev b (b_next (getb s head)) = find_buf s b.
Proof using Hdev.
  intros H. pose proof (list_nodup s L H) as [Hh _]%NoDup_cons.
  change (b_next (getb s head)) with (nx s head).
  rewrite (scan_next_find scan_bound s head L b (bc_list _ _ _ H) Hh)
    by (rewrite (length_list s L H); unfold scan_bound, NBUF, MAXOPBLOCKS; lia).
  destruct (find_buf s b) as [i|] eqn:E.
  - apply (find_buf_Some s L b i H) in E as [Hi Hb].
    destruct (List.find _ L) as [j|] eqn:Ej.
    + apply List.find_some in Ej as [Hj Hm]. apply match_holds in Hm. f_equal.
      apply list_elem_of_In, (elem_of_list L s) in Hj; [|done]. destruct Hb, Hm.
      apply (bc_uniq _ _ _ H); congruence.
    + apply match_holds in Hb. rewrite (List.find_none _ _ Ej i) in Hb; [done|].
      apply list_elem_of_In. by apply (elem_of_list L s).
  - destruct (List.find _ L) as [j|] eqn:Ej; [|done].
    apply List.find_some in Ej as [Hj Hm]. apply match_holds in Hm.
    apply list_elem_of_In, (elem_of_list L s) in Hj; [|done].
    rewrite (proj2 (find_buf_Some s L b j H)) in E by done. done.
Qed.

Lemma scan_prev_run s L :
  bcache_ok dev s L -> scan_prev scan_bound s (b_prev (getb s head)) = lru s L.
Proof using Hdev.
  intros H. pose proof (list_nodup s L H) as [Hh _]%NoDup_cons.
  change (b_prev (getb s head)) with (pv s head). apply scan_prev_find.
  - apply seg_reverse, H.
  - by rewrite elem_of_reverse.
  - rewrite length_reverse, (length_list s L H). unfold scan_bound, NBUF, MAXOPBLOCKS. lia.
Qed.

Lemma lru_Some s L i : bcache_ok dev s L -> lru s L = Some i -> is_buf i /\ b_refcnt (getb s i) = 0.
Proof using Hdev.
  intros H Hl. unfold lru in Hl. apply List.find_some in Hl as [Hin Hr].
  split; [|by apply Z.eqb_eq]. apply (elem_of_list L s); [done|].
  rewrite <- elem_of_reverse. by apply list_elem_of_In.
Qed.

Lemma lru_None s L : bcache_ok dev s L -> lru s L = None -> forall i, is_buf i -> b_refcnt (getb s i) <> 0.
Proof using Hdev.
  intros H Hl i Hi E. unfold lru in Hl. apply (elem_of_list L s) in Hi; [|done].
  rewrite <- elem_of_reverse in Hi. apply list_elem_of_In in Hi.
  apply (List.find_none _ _ Hl) in Hi. by apply Z.eqb_neq in Hi.
Qed.

(** ** Changing one buffer *)

Lemma updb_ext s i f g : f (getb s i) = g (getb s i) -> updb i f s = updb i g s.
Proof using. intros H. unfold updb. by rewrite H. Qed.

Lemma bcache_ok_updb s L i f :
  bcache_ok dev s L -> is_buf i ->
  b_prev (f (getb s i)) = b_prev (getb s i) -> b_next (f (getb s i)) = b_next (getb s i) ->
  buf_ok dev (disk s) (f (getb s i)) ->
  (b_dev (f (getb s i)) = dev -> forall j, is_buf j -> j <> i ->
     ~ holds dev (b_blockno (f (getb s i))) (getb s j)) ->
  bcache_ok dev (updb i f s) L.
Proof using.
  intros [H1 H2 H3 H4 H5 H6] Hi Hp Hn Hok Huniq.
  assert (forall j, getb (updb i f s) j = if i =? j then f (getb s i) else getb s j) as Hg
    by (intros; apply getb_updb; auto with bio).
  split.
  - by rewrite zlen_updb.
  - apply (seg_agree (nx s) (pv s)); [| |done]; intros x _; unfold nx, pv; rewrite Hg;
      zcase (i =? x); congruence.
  - done.
  - intros j k Hj Hk. rewrite !Hg. zcase (i =? j) as E1; zcase (i =? k) as E2; try congruence.
    + intros A B C. destruct (Huniq A k Hk ltac:(congruence)). done.
    + intros A B C. destruct (Huniq B j Hj ltac:(congruence)). split; [done|congruence].
    + by apply H4.
  - intros j Hj. rewrite Hg. change (disk (updb i f s)) with (disk s). zcase (i =? j); [done|by apply H5].
  - exact H6.
Qed.

(** ** bread *)

(** The buffer [bread] returns. *)
Definition target (s : bio) (L : list Z) (b : Z) : option Z :=
  match find_buf s b with Some i => Some i | None => lru s L end.

Definition bread_buf (s : bio) (b pid : Z) (x : buf) : buf :=
  Buf (match find_buf s b with Some _ => if b_valid x =? 0 then 1 else b_valid x | None => 1 end)
    (b_disk x) dev b (SleepLock 1 pid)
    (match find_buf s b with Some _ => b_refcnt x + 1 | None => 1 end)
    (b_prev x) (b_next x) (content s b).

Lemma target_buf s L b i :
  bcache_ok dev s L -> target s L b = Some i ->
  is_buf i /\ (find_buf s b = None -> b_refcnt (getb s i) = 0).
Proof using Hdev.
  intros H. unfold target. destruct (find_buf s b) as [j|] eqn:E.
  - intros [= ->]. apply (find_buf_Some s L b i H) in E as [? _]. done.
  - intros Hl. apply (lru_Some s L i H) in Hl. tauto.
Qed.

Section Thread.
Context (c : ctx) (Hc : steady c) (Hbc : LBcache ∉ c_held c).
Context (Hsl : forall i, LBufSleep i ∉ c_held c).

Lemma bread_run s L b i :
  bcache_ok dev s L -> target s L b = Some i -> unlocked (getb s i) ->
  b_refcnt (getb s i) + 1 < 2147483648 ->
  bread dev b c s = Done i c (updb i (bread_buf s b (c_pid c)) s).
Proof using Hdev Hc Hbc Hsl.
  intros H Ht Hu Hr. destruct (target_buf s L b i H Ht) as [Hi Hnone].
  pose proof (bc_len _ _ _ H) as Hlen. pose proof Hc as [Hok Hst].
  pose proof (bk_ref _ _ _ (bc_buf _ _ _ H i Hi)) as Href.
  set (mid := fun x => match find_buf s b with
    | Some _ => set_refcnt (b_refcnt x + 1) x
    | None => set_refcnt 1 (set_valid 0 (set_block dev b x)) end).
  assert (bget dev b c s = Done i c (updb i (fun x => set_lock (SleepLock 1 (c_pid c)) (mid x)) s)) as Hget.
  { unfold bget. kstep (acquire_run LBcache c s Hbc). krun. rewrite (scan_next_run s L b H).
    unfold target in Ht. destruct (find_buf s b) as [j|] eqn:Ef.
    - injection Ht as ->. unfold mget, mupd. krun. rewrite u32_small by lia.
      kstep (release_enter LBcache c _ Hok Hbc). rewrite Hst.
      erewrite bind_done; [|apply acquiresleep_free; [done|apply Hsl|]].
      + cbn [update buf_lock]. rewrite updb_updb by auto with bio.
        apply (f_equal (Done i c)), updb_ext. unfold mid. by rewrite ?Ef.
      + cbn [view buf_lock]. rewrite getb_updb_eq by auto with bio. exact Hu.
    - krun. rewrite (scan_prev_run s L H), Ht. unfold mupd. krun.
      kstep (release_enter LBcache c _ Hok Hbc). rewrite Hst.
      rewrite !updb_updb by auto with bio.
      erewrite bind_done; [|apply acquiresleep_free; [done|apply Hsl|]].
      + cbn [update buf_lock]. rewrite updb_updb by auto with bio.
        apply (f_equal (Done i c)), updb_ext. unfold mid. by rewrite ?Ef.
      + cbn [view buf_lock]. rewrite getb_updb_eq by auto with bio. exact Hu. }
  unfold bread. kstep Hget. unfold mget at 1. krun. rewrite getb_updb_eq by auto with bio.
  set (x := getb s i). assert (b_valid (set_lock (SleepLock 1 (c_pid c)) (mid x)) = b_valid (mid x)) as -> by done.
  assert (b_valid (mid x) = 0 -> content s b = blk (disk s) b) as Hz.
  { unfold mid. destruct (find_buf s b) as [j|] eqn:Ef; simpl; intros Hv.
    - assert (j = i) as -> by (unfold target in Ht; rewrite Ef in Ht; congruence).
      apply (find_buf_Some s L b i H) in Ef as [_ Hh]. rewrite (content_cached s L b i H Hi Hh).
      fold x. by rewrite Hv.
    - unfold content. by rewrite Ef. }
  assert (b_valid (mid x) <> 0 -> content s b = b_data x) as Hnz.
  { unfold mid. destruct (find_buf s b) as [j|] eqn:Ef; simpl; intros Hv; [|done].
    assert (j = i) as -> by (unfold target in Ht; rewrite Ef in Ht; congruence).
    apply (find_buf_Some s L b i H) in Ef as [_ Hh]. rewrite (content_cached s L b i H Hi Hh).
    fold x. by zcase (b_valid x =? 0). }
  assert (find_buf s b = Some i -> b_dev x = dev /\ b_blockno x = b) as Hhold.
  { intros Ef. by apply (find_buf_Some s L b i H) in Ef as [_ Hh]. }
  unfold target in Ht.
  zcase (b_valid (mid x) =? 0) as Ev.
  - unfold virtio_disk_rw, mupd. krun.
    erewrite bind_done; [|krun; reflexivity]. rewrite getb_updb_eq by auto with bio.
    change (disk (updb i _ s)) with (disk s). rewrite !updb_updb by auto with bio.
    apply (f_equal (Done i c)), updb_ext. fold x. unfold mid, bread_buf in *. rewrite Hz by done.
    destruct (find_buf s b) as [j|] eqn:Ef.
    + destruct (Hhold ltac:(congruence)) as [E1 E2]. cbn in Ev. rewrite Ev. clear -E1 E2.
      clearbody x. destruct x. cbn in *. by subst.
    + reflexivity.
  - krun. apply (f_equal (Done i c)), updb_ext. fold x. unfold mid, bread_buf in *. rewrite Hnz by done.
    destruct (find_buf s b) as [j|] eqn:Ef; [|done].
    destruct (Hhold ltac:(congruence)) as [E1 E2]. cbn in Ev. zcase (b_valid x =? 0); [done|]. clear -E1 E2.
    clearbody x. destruct x. cbn in *. by subst.
Qed.
(** The invariant after [bread], and what the users of the cache see. *)
Lemma length_blk s L b : bcache_ok dev s L -> length (blk (disk s) b) = 1024%nat.
Proof using.
  intros H. unfold blk. destruct (disk s !! b) as [d|] eqn:E; [by apply (bc_disk _ _ _ H b)|].
  apply length_zero_block.
Qed.

Lemma length_content s L b : bcache_ok dev s L -> length (content s b) = 1024%nat.
Proof using Hdev.
  intros H. unfold content. destruct (find_buf s b) as [i|] eqn:E; [|by eapply length_blk].
  destruct (_ =? 0); [by eapply length_blk|]. apply (find_buf_Some s L b i H) in E as [Hi _].
  apply (bc_buf _ _ _ H i Hi).
Qed.

Lemma bread_ok s L b i pid :
  bcache_ok dev s L -> target s L b = Some i -> b_refcnt (getb s i) + 1 < 2147483648 ->
  bcache_ok dev (updb i (bread_buf s b pid) s) L.
Proof using Hdev.
  intros H Ht Hr. destruct (target_buf s L b i H Ht) as [Hi Hnone].
  pose proof (bc_buf _ _ _ H i Hi) as Hb. apply bcache_ok_updb; try done.
  - pose proof (bk_ref _ _ _ Hb). split; cbn; try (destruct (find_buf s b); lia); try by left.
    by eapply length_content.
  - intros _ j Hj Hne Hh. cbn in Hh. unfold target in Ht.
    rewrite (proj2 (find_buf_Some s L b j H)) in Ht by done. congruence.
Qed.

Lemma bread_content s L b i pid b' :
  bcache_ok dev s L -> target s L b = Some i -> b_refcnt (getb s i) + 1 < 2147483648 ->
  content (updb i (bread_buf s b pid) s) b' = content s b'.
Proof using Hdev.
  intros H Ht Hr. destruct (target_buf s L b i H Ht) as [Hi Hnone].
  pose proof (bread_ok s L b i pid H Ht Hr) as H'. set (s' := updb i (bread_buf s b pid) s) in *.
  pose proof (bc_len _ _ _ H) as Hlen.
  assert (getb s' i = bread_buf s b pid (getb s i)) as Hgi by (apply getb_updb_eq; auto with bio).
  destruct (decide (b' = b)) as [->|Hne].
  - rewrite (content_cached s' L b i H' Hi) by (by rewrite Hgi).
    rewrite Hgi. cbn [bread_buf b_valid b_data]. destruct (find_buf s b) as [j|]; [|done].
    by zcase (b_valid (getb s i) =? 0) as E; [|zcase (b_valid (getb s i) =? 0)].
  - assert (forall j, is_buf j -> holds dev b' (getb s' j) -> j <> i) as Hji.
    { intros j _ [_ Hh] ->. rewrite Hgi in Hh. cbn in Hh. congruence. }
    assert (forall j, j <> i -> getb s' j = getb s j) as Hgj by (intros; by apply getb_updb_ne).
    destruct (find_buf s' b') as [j|] eqn:Ej.
    + apply (find_buf_Some s' L b' j H') in Ej as [Hj Hh]. pose proof (Hji j Hj Hh) as Hne2.
      rewrite (content_cached s' L b' j H' Hj Hh). rewrite Hgj in * by done.
      by rewrite (content_cached s L b' j H Hj Hh).
    + transitivity (blk (disk s) b'); [unfold content; by rewrite Ej|]. symmetry.
      destruct (find_buf s b') as [j|] eqn:Ej'; [|unfold content; by rewrite Ej'].
      apply (find_buf_Some s L b' j H) in Ej' as [Hj Hh]. destruct (decide (j = i)) as [->|Hne2].
      * rewrite (content_cached s L b' i H Hi Hh). zcase (b_valid (getb s i) =? 0) as Ev; [done|].
        destruct Hh as [_ <-]. apply (bk_clean _ _ _ (bc_buf _ _ _ H i Hi)); [|done].
        apply Hnone. unfold target in Ht. destruct (find_buf s b) as [k|] eqn:Ek; [|done].
        injection Ht as ->. apply (find_buf_Some s L b i H) in Ek as [_ [_ Hk]]. congruence.
      * rewrite <- (Hgj j Hne2) in Hh. rewrite (proj2 (find_buf_Some s' L b' j H')) in Ej by done. done.
Qed.

(** ** bwrite, bpin, bunpin *)

Definition held_by (pid : Z) (b : buf) : Prop := sl_locked (b_lock b) = 1 /\ sl_pid (b_lock b) = pid.

Lemma holdingsleep_held s i :
  held_by (c_pid c) (getb s i) -> holdingsleep (buf_lock i) (LBufSleep i) c s = Done true c s.
Proof using Hc Hsl.
  intros [H1 H2]. rewrite (holdingsleep_run (buf_lock i) (LBufSleep i) c Hc (Hsl i)).
  cbn [view buf_lock]. by rewrite H1, H2, Z.eqb_refl.
Qed.

Definition written (i : Z) (s : bio) : bio :=
  Bio (bufs s) (<[b_blockno (getb s i) := b_data (getb s i)]> (disk s))
    (writes s ++ [(b_blockno (getb s i), b_data (getb s i))]).

Lemma bwrite_run s i : held_by (c_pid c) (getb s i) -> bwrite i c s = Done tt c (written i s).
Proof using Hc Hsl. intros H. unfold bwrite. by kstep (holdingsleep_held s i H). Qed.

Lemma bpin_run s i :
  0 <= b_refcnt (getb s i) < 2147483647 ->
  bpin i c s = Done tt c (updb i (set_refcnt (b_refcnt (getb s i) + 1)) s).
Proof using Hc Hbc.
  intros H. destruct Hc as [Hok Hst]. unfold bpin. kstep (acquire_run LBcache c s Hbc).
  unfold mget, mupd. krun. rewrite u32_small by lia. by rewrite (release_enter LBcache c _ Hok Hbc), Hst.
Qed.

Lemma bunpin_run s i :
  0 < b_refcnt (getb s i) < 2147483648 ->
  bunpin i c s = Done tt c (updb i (set_refcnt (b_refcnt (getb s i) - 1)) s).
Proof using Hc Hbc.
  intros H. destruct Hc as [Hok Hst]. unfold bunpin. kstep (acquire_run LBcache c s Hbc).
  unfold mget, mupd. krun. rewrite u32_small by lia. by rewrite (release_enter LBcache c _ Hok Hbc), Hst.
Qed.

Lemma written_ok s L i :
  bcache_ok dev s L -> is_buf i -> b_dev (getb s i) = dev -> bcache_ok dev (written i s) L.
Proof using Hdev.
  intros [H1 H2 H3 H4 H5 H6] Hi Hd. split; try done.
  - intros j Hj. change (getb (written i s) j) with (getb s j). destruct (H5 j Hj) as [A B C D E].
    split; try done. intros Hr Hv. cbn [written disk].
    destruct A as [A|(_ & A & _)]; [|done]. unfold blk.
    destruct (decide (b_blockno (getb s i) = b_blockno (getb s j))) as [Heq|Hne].
    + assert (i = j) as <- by (by apply H4). by rewrite lookup_insert_eq.
    + rewrite lookup_insert_ne by done. by apply D.
  - intros b d. cbn [written disk]. intros [[_ <-]|[_ Hb]]%lookup_insert_Some; [|by eapply H6].
    apply (H5 i Hi).
Qed.

Lemma written_content s L i b :
  bcache_ok dev s L -> is_buf i -> b_dev (getb s i) = dev -> b_valid (getb s i) <> 0 ->
  content (written i s) b = content s b.
Proof using Hdev.
  intros H Hi Hd Hv. pose proof (written_ok s L i H Hi Hd) as H'.
  assert (find_buf (written i s) b = find_buf s b) as Hf by done.
  unfold content. rewrite Hf. change (getb (written i s)) with (getb s).
  assert (b <> b_blockno (getb s i) -> blk (disk (written i s)) b = blk (disk s) b) as Hblk
    by (intros; unfold blk; cbn [written disk]; by rewrite lookup_insert_ne by done).
  destruct (find_buf s b) as [j|] eqn:E.
  - apply (find_buf_Some s L b j H) in E as [Hj [Hjd Hjb]]. zcase (b_valid (getb s j) =? 0); [|done].
    apply Hblk. intros ->. assert (j = i) as -> by (by apply (bc_uniq _ _ _ H)). done.
  - apply Hblk. intros ->. rewrite (proj2 (find_buf_Some s L _ i H)) in E by done. done.
Qed.

(** ** brelse *)

(** Two buffers that differ at most in their links. *)
Definition same_buf (x y : buf) : Prop := set_prev 0 (set_next 0 x) = set_prev 0 (set_next 0 y).

#[global] Instance same_buf_equiv : Equivalence same_buf.
Proof using. unfold same_buf. split; [by intros ?|by intros ???|by intros ??? -> ->]. Qed.

Lemma same_buf_fields x y : same_buf x y ->
  b_valid x = b_valid y /\ b_dev x = b_dev y /\ b_blockno x = b_blockno y /\ b_lock x = b_lock y /\
  b_refcnt x = b_refcnt y /\ b_data x = b_data y.
Proof using. destruct x, y. unfold same_buf, set_prev, set_next. cbn. intros [=]. by subst. Qed.

(** A step of the relinking: it writes one link of one node. *)
Definition links (s s' : bio) (n p : Z -> Z) : Prop :=
  zlen (bufs s') = NBUF + 1 /\ disk s' = disk s /\ writes s' = writes s /\
  (forall j, same_buf (getb s' j) (getb s j)) /\ (forall j, nx s' j = n j) /\ (forall j, pv s' j = p j).

Lemma links_refl s : zlen (bufs s) = NBUF + 1 -> links s s (nx s) (pv s).
Proof using. intros H. repeat split; done. Qed.

Lemma links_next s s' n p i v :
  links s s' n p -> is_node i -> links s (updb i (set_next v) s') (upd n i v) p.
Proof using.
  intros (H1 & H2 & H3 & H4 & H5 & H6) Hi. repeat split.
  - by rewrite zlen_updb.
  - done.
  - done.
  - intros j. rewrite getb_updb by done. rewrite <- (H4 j). zcase (i =? j); [subst|]; done.
  - intros j. unfold nx, upd. rewrite getb_updb by done. rewrite (Z.eqb_sym j i).
    zcase (i =? j); [done|apply H5].
  - intros j. unfold pv. rewrite getb_updb by done. zcase (i =? j) as E; [subst|]; apply H6.
Qed.

Lemma links_prev s s' n p i v :
  links s s' n p -> is_node i -> links s (updb i (set_prev v) s') n (upd p i v).
Proof using.
  intros (H1 & H2 & H3 & H4 & H5 & H6) Hi. repeat split.
  - by rewrite zlen_updb.
  - done.
  - done.
  - intros j. rewrite getb_updb by done. rewrite <- (H4 j). zcase (i =? j); [subst|]; done.
  - intros j. unfold nx. rewrite getb_updb by done. zcase (i =? j) as E; [subst|]; apply H5.
  - intros j. unfold pv, upd. rewrite getb_updb by done. rewrite (Z.eqb_sym j i).
    zcase (i =? j); [done|apply H6].
Qed.

(** The neighbours of a node of the list are nodes. *)
Lemma seg_nodes n p a l e x :
  seg n p a l e -> (forall y, y ∈ a :: l ++ [e] -> is_node y) ->
  x ∈ l -> is_node (n x) /\ is_node (p x).
Proof using.
  intros H Hn Hx. apply list_elem_of_split in Hx as (l1 & l2 & ->).
  apply seg_app in H as [H1 H2]. split.
  - destruct l2 as [|y l2]; destruct H2 as [-> _]; apply Hn; rewrite ?elem_of_cons, !elem_of_app, ?elem_of_cons; tauto.
  - rewrite (seg_last _ _ _ _ _ H1). pose proof (last_elem l1 a) as Hl. apply Hn.
    rewrite !elem_of_cons, !elem_of_app in *. tauto.
Qed.

Lemma bmove_front_run c0 s l1 b l2 :
  zlen (bufs s) = NBUF + 1 -> seg (nx s) (pv s) head (l1 ++ b :: l2) head ->
  NoDup (head :: l1 ++ b :: l2) -> (forall y, y ∈ l1 ++ b :: l2 -> is_buf y) ->
  exists s' n p, bmove_front b c0 s = Done tt c0 s' /\ links s s' n p /\ seg n p head (b :: l1 ++ l2) head.
Proof using.
  intros Hlen Hseg Hnd Hin.
  assert (forall y, y ∈ head :: (l1 ++ b :: l2) ++ [head] -> is_node y) as Hnode.
  { intros y. rewrite elem_of_cons, elem_of_app, list_elem_of_singleton.
    intros [->|[Hy| ->]]; auto with bio. }
  assert (b ∈ l1 ++ b :: l2) as Hb by (rewrite elem_of_app, elem_of_cons; tauto).
  destruct (seg_nodes _ _ _ _ _ b Hseg Hnode Hb) as [Hnn Hnp].
  assert (is_buf b) as Hbb by auto. assert (is_node b) as Hbn by auto with bio.
  pose proof Hnd as [Hhd Hnd']%NoDup_cons.
  assert (b <> head) as Hbh by congruence.
  set (n := nx s b) in *. set (p := pv s b) in *.
  assert (n <> b) as Hnb.
  { unfold n. apply seg_app in Hseg as [_ H2]. apply NoDup_app in Hnd' as (_ & _ & [Hbl _]%NoDup_cons).
    destruct l2 as [|y l2]; destruct H2 as [-> _]; [congruence|]. intros ->. apply Hbl. left. }
  pose proof (seg_remove _ _ _ _ _ _ _ Hseg Hnd Hhd) as Hrem. fold n p in Hrem.
  set (n1 := upd (nx s) p n) in *. set (p1 := upd (pv s) n p) in *.
  set (l := l1 ++ l2) in *.
  assert (NoDup (head :: l) /\ b ∉ l) as [Hnd1 Hbl].
  { assert (l1 ++ b :: l2 ≡ₚ b :: l) as Hp by (unfold l; solve_Permutation).
    rewrite Hp in Hnd. apply NoDup_cons in Hnd as [Hx Hy]. apply NoDup_cons in Hy as [Hy1 Hy2].
    split; [|done]. apply NoDup_cons. split; [|done]. intros Hl. apply Hx. by right. }
  pose proof (seg_push n1 p1 head l b Hrem Hnd1 Hbh Hbl) as Hpush.
  assert (is_node (n1 head)) as Hhn.
  { destruct l as [|x l'] eqn:El; cbn [seg] in Hrem; destruct Hrem as [-> _]; auto with bio.
    apply is_buf_node, Hin. assert (x ∈ l) as Hx by (rewrite El; left). unfold l in Hx.
    rewrite elem_of_app in Hx. rewrite elem_of_app, elem_of_cons. tauto. }
  pose proof (links_refl s Hlen) as K0.
  pose proof (links_prev s s _ _ n p K0 Hnn) as K1. set (s1 := updb n (set_prev p) s) in *. fold p1 in K1.
  pose proof (links_next s s1 _ _ p n K1 Hnp) as K2. set (s2 := updb p (set_next n) s1) in *. fold n1 in K2.
  pose proof (links_next s s2 _ _ b (n1 head) K2 Hbn) as K3. set (s3 := updb b (set_next (n1 head)) s2) in *.
  pose proof (links_prev s s3 _ _ b head K3 Hbn) as K4. set (s4 := updb b (set_prev head) s3) in *.
  pose proof (links_prev s s4 _ _ (n1 head) b K4 Hhn) as K5. set (s5 := updb (n1 head) (set_prev b) s4) in *.
  pose proof (links_next s s5 _ _ head b K5 is_node_head) as K6. set (s6 := updb head (set_next b) s5) in *.
  assert (pv s1 b = p) as R1.
  { destruct K1 as (_ & _ & _ & _ & _ & ->). unfold p1. by rewrite upd_ne. }
  assert (nx s1 b = n) as R2 by (destruct K1 as (_ & _ & _ & _ & -> & _); done).
  assert (nx s2 head = n1 head) as R3 by (destruct K2 as (_ & _ & _ & _ & -> & _); done).
  assert (nx s4 head = n1 head) as R4.
  { destruct K4 as (_ & _ & _ & _ & -> & _). by rewrite upd_ne. }
  exists s6, (upd (upd n1 b (n1 head)) head b), (upd (upd p1 b head) (n1 head) b).
  split; [|split; [exact K6|exact Hpush]].
  unfold bmove_front, mget, mupd. krun.
  change (b_next (getb s b)) with n. change (b_prev (getb s b)) with p. fold s1.
  change (b_prev (getb s1 b)) with (pv s1 b). change (b_next (getb s1 b)) with (nx s1 b).
  rewrite R1, R2. fold s2. change (b_next (getb s2 head)) with (nx s2 head). rewrite R3. fold s3 s4.
  change (b_next (getb s4 head)) with (nx s4 head). rewrite R4. fold s5. reflexivity.
Qed.

(** [content] reads only what a buffer caches. *)
Lemma content_same s s' b :
  (forall j, is_buf j -> b_valid (getb s' j) = b_valid (getb s j) /\ b_dev (getb s' j) = b_dev (getb s j) /\
     b_blockno (getb s' j) = b_blockno (getb s j) /\ b_data (getb s' j) = b_data (getb s j)) ->
  disk s' = disk s -> content s' b = content s b.
Proof using.
  intros H Hd. assert (find_buf s' b = find_buf s b) as Hf.
  { unfold find_buf. assert (forall l, (forall j, j ∈ l -> is_buf j) ->
      List.find (fun i => (b_dev (getb s' i) =? dev) && (b_blockno (getb s' i) =? b)) l =
      List.find (fun i => (b_dev (getb s i) =? dev) && (b_blockno (getb s i) =? b)) l) as Hl.
    { induction l as [|x l IH]; intros Hl; [done|]. cbn [List.find].
      destruct (H x) as (_ & -> & -> & _); [apply Hl; left|]. destruct (_ && _); [done|].
      apply IH. intros j Hj. apply Hl. by right. }
    apply Hl. intros j Hj. apply elem_of_seqZ in Hj. unfold is_buf. lia. }
  unfold content. rewrite Hf, Hd. destruct (find_buf s b) as [i|] eqn:E; [|done].
  destruct (H i) as (-> & _ & _ & ->); [|done]. unfold find_buf in E.
  apply List.find_some in E as [Hin _]. apply list_elem_of_In, elem_of_seqZ in Hin. unfold is_buf. lia.
Qed.

Lemma buf_ok_same d x y : same_buf x y -> buf_ok dev d y -> buf_ok dev d x.
Proof using.
  intros (H1 & H2 & H3 & H4 & H5 & H6)%same_buf_fields [A B C D E]. unfold unlocked in *.
  split; unfold unlocked; rewrite ?H1, ?H2, ?H3, ?H4, ?H5, ?H6; done.
Qed.

(** The invariant is insensitive to the links, but for the list. *)
Lemma bcache_ok_links s s' L L' n p :
  bcache_ok dev s L -> links s s' n p -> seg n p head L' head -> L' ≡ₚ L -> bcache_ok dev s' L'.
Proof using.
  intros [H1 H2 H3 H4 H5 H6] (K1 & K2 & K3 & K4 & K5 & K6) Hseg Hperm. split; try done.
  - apply (seg_agree n p); [by intros|by intros|done].
  - by rewrite Hperm.
  - intros i j Hi Hj. destruct (same_buf_fields _ _ (K4 i)) as (_ & -> & -> & _).
    destruct (same_buf_fields _ _ (K4 j)) as (_ & -> & -> & _). by apply H4.
  - intros i Hi. rewrite K2. eapply buf_ok_same; [apply K4|by apply H5].
  - by rewrite K2.
Qed.

(** The buffer that [brelse] leaves. *)
Definition brelse_buf (x : buf) : buf := set_refcnt (b_refcnt x - 1) (set_lock (SleepLock 0 0) x).

Record released (s : bio) (L : list Z) (i : Z) (s' : bio) (L' : list Z) : Prop := {
  rl_ok : bcache_ok dev s' L';
  rl_buf : same_buf (getb s' i) (brelse_buf (getb s i));
  rl_other : forall j, j <> i -> same_buf (getb s' j) (getb s j);
  rl_disk : disk s' = disk s;
  rl_writes : writes s' = writes s;
  rl_lru : if b_refcnt (getb s i) =? 1 then L' = i :: List.remove Z.eq_dec i L else L' = L;
}.

Lemma remove_split (i : Z) l1 l2 :
  (i ∉ l1) -> (i ∉ l2) -> List.remove Z.eq_dec i (l1 ++ i :: l2) = l1 ++ l2.
Proof using.
  intros H1 H2. rewrite List.remove_app. cbn [List.remove]. destruct (Z.eq_dec i i); [|done].
  rewrite !List.notin_remove; [done| |]; by rewrite <- list_elem_of_In.
Qed.

Lemma brelse_run s L i :
  bcache_ok dev s L -> is_buf i -> b_dev (getb s i) = dev -> held_by (c_pid c) (getb s i) ->
  0 < b_refcnt (getb s i) ->
  (b_refcnt (getb s i) = 1 -> b_valid (getb s i) <> 0 ->
     b_data (getb s i) = blk (disk s) (b_blockno (getb s i))) ->
  exists s' L', brelse i c s = Done tt (woken [ChBuf i] c) s' /\ released s L i s' L'.
Proof using Hc Hbc Hsl.
  intros H Hi Hd Hh Hr Hclean. pose proof (bc_buf _ _ _ H i Hi) as Hb.
  pose proof (bk_ref _ _ _ Hb) as Href. pose proof (bc_len _ _ _ H) as Hlen.
  set (s1 := updb i brelse_buf s).
  assert (getb s1 i = brelse_buf (getb s i)) as Hg1 by (apply getb_updb_eq; auto with bio).
  assert (bcache_ok dev s1 L) as H1.
  { apply bcache_ok_updb; try done.
    - destruct Hb as [A B C D E]. split; cbn; try done.
      + left. done.
      + lia.
      + intros Hz Hv. apply Hclean; [lia|done].
    - intros _ j Hj Hne [E1 E2]. cbn in E2. apply Hne, (bc_uniq _ _ _ H); congruence. }
  unfold brelse. kstep (holdingsleep_held s i Hh). cbn [negb].
  kstep (releasesleep_run (buf_lock i) (LBufSleep i) (ChBuf i) c Hc (Hsl i) s).
  set (c1 := woken [ChBuf i] c).
  assert (steady c1) as Hc1 by (destruct Hc; split; [by apply ctx_ok_woken|unfold c1; by rewrite settle_woken; f_equal]).
  assert (LBcache ∉ c_held c1) as Hbc1 by (unfold c1; by rewrite c_held_woken).
  destruct Hc1 as [Hok1 Hst1].
  cbn [update buf_lock]. kstep (acquire_run LBcache c1 _ Hbc1). unfold mget, mupd. krun.
  rewrite !getb_updb_eq by auto with bio. cbn [set_lock set_refcnt b_refcnt].
  rewrite !u32_small by lia. rewrite updb_updb by auto with bio.
  assert (forall f, f (getb s i) = brelse_buf (getb s i) -> updb i f s = s1) as Hs1
    by (intros f Hf; by apply updb_ext).
  rewrite Hs1 by done.
  zcase (b_refcnt (getb s i) - 1 =? 0) as Ez.
  - rewrite bind_when_true. assert (i ∈ L) as Hin by (by apply (elem_of_list L s)).
    apply list_elem_of_split in Hin as (l1 & l2 & ->). pose proof (list_nodup s _ H) as Hnd.
    destruct (bmove_front_run (enter LBcache c1) s1 l1 i l2) as (s' & n & p & Hrun & Hlk & Hseg).
    { apply H1. } { apply H1. } { done. } { intros y Hy. by apply (elem_of_list (l1 ++ i :: l2) s). }
    kstep Hrun. exists s', (i :: l1 ++ l2). rewrite (release_enter LBcache c1 _ Hok1 Hbc1), Hst1.
    split; [done|]. pose proof Hlk as (K1 & K2 & K3 & K4 & _). split.
    + eapply bcache_ok_links; [exact H1|exact Hlk|exact Hseg|solve_Permutation].
    + rewrite <- Hg1. apply K4.
    + intros j Hj. rewrite (K4 j). unfold s1. by rewrite getb_updb_ne.
    + by rewrite K2.
    + by rewrite K3.
    + zcase (b_refcnt (getb s i) =? 1); [|lia]. apply NoDup_cons in Hnd as [_ Hnd].
      apply NoDup_app in Hnd as (_ & Hd1 & [Hd2 _]%NoDup_cons). rewrite remove_split; [done| |done].
      intros Hx. apply (Hd1 _ Hx). left.
  - rewrite bind_when_false. exists s1, L. rewrite (release_enter LBcache c1 _ Hok1 Hbc1), Hst1.
    split; [done|]. split; try done.
    + by rewrite Hg1.
    + intros j Hj. unfold s1. by rewrite getb_updb_ne.
    + zcase (b_refcnt (getb s i) =? 1); [lia|done].
Qed.

Lemma released_content s L i s' L' b :
  released s L i s' L' -> content s' b = content s b.
Proof using.
  intros [_ Hi Ho Hd _ _]. apply content_same; [|done]. intros j _.
  destruct (decide (j = i)) as [->|Hne].
  - destruct (same_buf_fields _ _ Hi) as (-> & -> & -> & _ & _ & ->). done.
  - destruct (same_buf_fields _ _ (Ho j Hne)) as (-> & -> & -> & _ & _ & ->). done.
Qed.

End Thread.
End Cache.
