(* ===== verification/BioSpec.v ===== *)
(** * The buffer cache: correctness (kernel/bio.c)

    The cache is transparent: [content] never changes but through its users' writes,
    [bread] returns the content of its block, and recycling follows the LRU order. *)
From S2P Require Import Prelude Machine Sleeplock Bio BioProps.

(** A thread with none of the cache's locks. *)
Definition no_bio_locks (c : ctx) : Prop := (LBcache ∉ c_held c) /\ forall i, LBufSleep i ∉ c_held c.

(** C13: [bread] returns the locked buffer that caches the block, or else the least
    recently used unreferenced buffer, refilled from the disk; its data is the block's
    content, and no block's content changes. *)
Theorem bread_correct dev c s L b i :
  dev <> 0 -> steady c -> no_bio_locks c -> bcache_ok dev s L ->
  target dev s L b = Some i -> unlocked (getb s i) -> b_refcnt (getb s i) < 2147483647 ->
  exists s', bread dev b c s = Done i c s' /\ bcache_ok dev s' L /\
    holds dev b (getb s' i) /\ held_by (c_pid c) (getb s' i) /\
    b_valid (getb s' i) <> 0 /\ b_data (getb s' i) = content dev s b /\
    b_refcnt (getb s' i) = match find_buf dev s b with Some _ => b_refcnt (getb s i) + 1 | None => 1 end /\
    (forall j, j <> i -> getb s' j = getb s j) /\
    (forall b', content dev s' b' = content dev s b') /\
    disk s' = disk s /\ writes s' = writes s.
Proof.
  intros Hdev Hc [Hbc Hsl] H Ht Hu Hr. exists (updb i (bread_buf dev s b (c_pid c)) s).
  destruct (target_buf dev Hdev s L b i H Ht) as [Hi _].
  split; [eapply bread_run; [done..|lia]|]. split; [eapply bread_ok; [done..|lia]|].
  rewrite getb_updb_eq by (auto with bio; apply H). cbn. split; [done|]. split; [done|].
  split; [destruct (find_buf dev s b); [by zcase (b_valid (getb s i) =? 0)|done]|].
  split; [done|]. split; [done|]. split; [intros j Hj; by apply getb_updb_ne|].
  split; [|done]. intros b'. eapply bread_content; [done..|lia].
Qed.

(** with every buffer referenced and the block not among them, [bread] panics. *)
Theorem bread_no_buffers dev c s L b :
  dev <> 0 -> no_bio_locks c -> bcache_ok dev s L ->
  (forall i, is_buf i -> ~ holds dev b (getb s i) /\ b_refcnt (getb s i) <> 0) ->
  bread dev b c s = Panic "bget: no buffers".
Proof.
  intros Hdev [Hbc _] H Hno. unfold bread, bget.
  apply bind_panic. kstep (acquire_run LBcache c s Hbc). krun. rewrite (scan_next_run dev Hdev s L b H).
  destruct (find_buf dev s b) as [i|] eqn:E.
  { apply (find_buf_Some dev s L b i H) in E as [Hi Hh]. by destruct (Hno i Hi). }
  krun. rewrite (scan_prev_run dev Hdev s L H). destruct (lru s L) as [i|] eqn:El; [|done].
  apply (lru_Some dev Hdev s L i H) in El as [Hi Hr]. by destruct (Hno i Hi).
Qed.

(** a block whose buffer another process has locked: [bread] takes a reference, so
    that the buffer cannot be recycled, and sleeps on the buffer's lock. *)
Theorem bread_locked_sleeps dev c s L b i :
  dev <> 0 -> steady c -> c_noff c = 0 -> c_held c = [] -> (0 < c_fuel c)%nat -> bcache_ok dev s L ->
  find_buf dev s b = Some i -> ~ unlocked (getb s i) -> b_refcnt (getb s i) < 2147483647 ->
  exists k, bread dev b c s =
    Sleep (ChBuf i) (enter (LProc (c_proc c)) c) (updb i (set_refcnt (b_refcnt (getb s i) + 1)) s) k.
Proof.
  intros Hdev Hc Hn Hh Hf H Hfind Hl Hr.
  assert (forall lk, lk ∉ c_held c) as Hno by (intros lk; rewrite Hh; apply not_elem_of_nil).
  pose proof Hfind as [Hi Hb]%(find_buf_Some dev s L b i H). pose proof (bc_len _ _ _ H) as Hlen.
  pose proof (bk_ref _ _ _ (bc_buf _ _ _ H i Hi)) as Href.
  unfold bread, bget. unfold bind at 1. kstep (acquire_run LBcache c s (Hno _)). krun.
  rewrite (scan_next_run dev Hdev s L b H), Hfind. unfold mget, mupd. krun. rewrite u32_small by lia.
  destruct Hc as [Hok Hst]. kstep (release_enter LBcache c _ Hok (Hno _)). rewrite Hst.
  destruct (acquiresleep_busy (buf_lock i) (LBufSleep i) (ChBuf i) c (conj Hok Hst) (Hno _)
    (updb i (set_refcnt (b_refcnt (getb s i) + 1)) s) Hn (Hno _)) as (k & Hrun & _); [done|done| |].
  - cbn [view buf_lock]. rewrite getb_updb_eq by auto with bio. exact Hl.
  - unfold bind at 1. rewrite Hrun. cbn [obind]. eauto.
Qed.

(** [brelse] unlocks the buffer and drops its reference; the last reference moves it
    to the front of the LRU list.  No content changes. *)
Theorem brelse_correct dev c s L i :
  steady c -> no_bio_locks c -> bcache_ok dev s L -> is_buf i -> b_dev (getb s i) = dev ->
  held_by (c_pid c) (getb s i) -> 0 < b_refcnt (getb s i) ->
  (b_refcnt (getb s i) = 1 -> b_valid (getb s i) <> 0 ->
     b_data (getb s i) = blk (disk s) (b_blockno (getb s i))) ->
  exists s' L', brelse i c s = Done tt (woken [ChBuf i] c) s' /\ released dev s L i s' L' /\
    forall b, content dev s' b = content dev s b.
Proof.
  intros Hc [Hbc Hsl] H Hi Hd Hh Hr Hclean.
  destruct (brelse_run dev c Hc Hbc Hsl s L i H Hi Hd Hh Hr Hclean) as (s' & L' & Hrun & Hrel).
  exists s', L'. split; [done|]. split; [done|]. intros b. by eapply released_content.
Qed.

(** [bwrite] puts the buffer's data on the disk, as one write, and panics when the
    caller does not hold the buffer. *)
Theorem bwrite_correct dev c s L i :
  dev <> 0 -> steady c -> no_bio_locks c -> bcache_ok dev s L -> is_buf i ->
  b_dev (getb s i) = dev -> b_valid (getb s i) <> 0 ->
  (held_by (c_pid c) (getb s i) ->
     exists s', bwrite i c s = Done tt c s' /\ bcache_ok dev s' L /\
       writes s' = writes s ++ [(b_blockno (getb s i), b_data (getb s i))] /\
       blk (disk s') (b_blockno (getb s i)) = b_data (getb s i) /\
       (forall b, content dev s' b = content dev s b)) /\
  (~ (sl_locked (b_lock (getb s i)) <> 0 /\ sl_pid (b_lock (getb s i)) = c_pid c) ->
     bwrite i c s = Panic "bwrite").
Proof.
  intros Hdev Hc [Hbc Hsl] H Hi Hd Hv. split.
  - intros Hh. exists (written i s). split; [by apply bwrite_run|]. split; [by apply written_ok|].
    split; [done|]. split; [unfold blk; cbn [written disk]; by rewrite lookup_insert_eq|].
    intros b. by eapply written_content.
  - intros Hh. unfold bwrite.
    kstep (holdingsleep_run (buf_lock i) (LBufSleep i) c Hc (Hsl i) s). cbn [view buf_lock].
    unfold truth. zcase (sl_locked (b_lock (getb s i)) =? 0); [done|].
    zcase (sl_pid (b_lock (getb s i)) =? c_pid c); [|done]. by destruct Hh.
Qed.

(** ** binit *)

(** Zeroed static memory and a disk. *)
Definition bss_bio (d : blocks) : bio := Bio (replicate 31 buf0) d [].

(** The buffers after [binit]: [buf\[29\]] first, [buf\[0\]] last. *)
Definition fresh_buf (i : Z) : buf :=
  Buf 0 0 0 0 sl_free 0 (i + 1) (if i =? 0 then head else i - 1) zero_block.
Definition fresh_bio (d : blocks) : bio :=
  Bio ((fresh_buf <$> seqZ 0 NBUF) ++ [Buf 0 0 0 0 sl_free 0 0 (NBUF - 1) zero_block]) d [].

Lemma getb_table f h d w i : is_buf i -> getb (Bio ((f <$> seqZ 0 NBUF) ++ [h]) d w) i = f i.
Proof.
  intros Hi. unfold getb. cbn [bufs]. unfold is_buf in Hi. rewrite znth_app_l.
  - apply znth_lookup; [lia|]. rewrite list_lookup_fmap, lookup_seqZ_lt by lia. simpl. f_equal. f_equal. lia.
  - unfold zlen. rewrite length_fmap, length_seqZ. unfold NBUF, MAXOPBLOCKS in *. lia.
Qed.

Lemma getb_fresh d i : is_buf i -> getb (fresh_bio d) i = fresh_buf i.
Proof. apply getb_table. Qed.

Lemma binit_run c d : c_held c = [] -> binit c (bss_bio d) = Done tt c (fresh_bio d).
Proof.
  intros Hh. destruct c as [ss nf ie held pr pid sp fu wk]. simpl in Hh. subst held.
  vm_compute. reflexivity.
Qed.

Lemma fresh_ok dev d :
  dev <> 0 -> (forall b x, d !! b = Some x -> length x = 1024%nat) ->
  bcache_ok dev (fresh_bio d) (reverse (seqZ 0 NBUF)).
Proof.
  intros Hdev Hd. split.
  - reflexivity.
  - vm_compute. tauto.
  - by rewrite reverse_Permutation.
  - intros i j Hi Hj. rewrite !getb_fresh by done. cbn. congruence.
  - intros i Hi. rewrite getb_fresh by done. split; cbn; [by right|lia|done|done|apply length_zero_block].
  - exact Hd.
Qed.

(** [binit] links all buffers into the LRU list, each of them free; the cache then
    shows the disk. *)
Theorem binit_correct dev c d :
  dev <> 0 -> c_held c = [] -> (forall b x, d !! b = Some x -> length x = 1024%nat) ->
  exists s, binit c (bss_bio d) = Done tt c s /\ bcache_ok dev s (reverse (seqZ 0 NBUF)) /\
    disk s = d /\ (forall i, is_buf i -> unlocked (getb s i) /\ b_refcnt (getb s i) = 0) /\
    (forall b, content dev s b = blk d b).
Proof.
  intros Hdev Hh Hd. exists (fresh_bio d). split; [by apply binit_run|].
  pose proof (fresh_ok dev d Hdev Hd) as H. split; [done|]. split; [done|]. split.
  - intros i Hi. by rewrite getb_fresh.
  - intros b. apply (content_uncached dev Hdev _ _ _ H). intros i Hi. rewrite getb_fresh by done.
    unfold holds. cbn. intros [E _]. congruence.
Qed.

(** ** A cache in use *)

Definition root_disk : blocks := {[ 1 := replicate 1024 7 ]}.

Lemma root_disk_ok b x : root_disk !! b = Some x -> length x = 1024%nat.
Proof. unfold root_disk. intros [_ <-]%lookup_singleton_Some. apply length_replicate. Qed.

(** A process in a system call. *)
Definition user_ctx : ctx := Ctx 2 0 true [] 3 5 0x3fffffd000 8 [].

Lemma user_ctx_steady : steady user_ctx.
Proof. split; [split; simpl; lia|reflexivity]. Qed.
Lemma user_ctx_locks : no_bio_locks user_ctx.
Proof. split; [|intros i]; apply not_elem_of_nil. Qed.

(** Block 1 of device 1 held by pid [pid]. *)
Definition demo_bio (pid : Z) : bio :=
  updb 0 (bread_buf 1 (fresh_bio root_disk) 1 pid) (fresh_bio root_disk).

Lemma demo_bio_ok pid : bcache_ok 1 (demo_bio pid) (reverse (seqZ 0 NBUF)).
Proof.
  apply bread_ok; [done|apply fresh_ok; [done|apply root_disk_ok]|vm_compute; reflexivity|].
  rewrite getb_fresh by (unfold is_buf, NBUF, MAXOPBLOCKS; lia). cbn. lia.
Qed.

Lemma is_buf_0 : is_buf 0.
Proof. unfold is_buf, NBUF, MAXOPBLOCKS. lia. Qed.

Lemma bread_correct_witness : exists s',
  bread 1 1 user_ctx (fresh_bio root_disk) = Done 0 user_ctx s' /\
  b_data (getb s' 0) = content 1 (fresh_bio root_disk) 1.
Proof.
  destruct (bread_correct 1 user_ctx (fresh_bio root_disk) (reverse (seqZ 0 NBUF)) 1 0)
    as (s' & Hrun & _ & _ & _ & _ & Hd & _).
  - lia.
  - apply user_ctx_steady.
  - apply user_ctx_locks.
  - apply fresh_ok; [lia|apply root_disk_ok].
  - vm_compute. reflexivity.
  - rewrite getb_fresh by apply is_buf_0. reflexivity.
  - rewrite getb_fresh by apply is_buf_0. cbn. lia.
  - exists s'. split; [exact Hrun|exact Hd].
Defined.

(** Every buffer in use. *)
Definition full_buf (i : Z) : buf :=
  Buf 1 0 1 (100 + i) sl_free 1 (i + 1) (if i =? 0 then head else i - 1) zero_block.
Definition full_bio : bio :=
  Bio ((full_buf <$> seqZ 0 NBUF) ++ [Buf 0 0 0 0 sl_free 0 0 (NBUF - 1) zero_block]) ∅ [].

Lemma full_ok : bcache_ok 1 full_bio (reverse (seqZ 0 NBUF)).
Proof.
  split.
  - reflexivity.
  - vm_compute. tauto.
  - by rewrite reverse_Permutation.
  - intros i j Hi Hj. unfold full_bio. rewrite !getb_table by done. cbn. lia.
  - intros i Hi. unfold full_bio. rewrite getb_table by done.
    split; cbn; [by left|lia|lia|lia|apply length_zero_block].
  - intros b x Hx. done.
Qed.

Lemma bread_no_buffers_witness : bread 1 7 user_ctx full_bio = Panic "bget: no buffers".
Proof.
  apply (bread_no_buffers 1 user_ctx full_bio (reverse (seqZ 0 NBUF)) 7).
  - lia.
  - apply user_ctx_locks.
  - apply full_ok.
  - intros i Hi. unfold full_bio. rewrite getb_table by exact Hi. unfold holds. cbn.
    unfold is_buf in Hi. split; [lia|lia].
Defined.

Lemma bread_locked_sleeps_witness : exists k,
  bread 1 1 user_ctx (demo_bio 9) =
  Sleep (ChBuf 0) (enter (LProc 3) user_ctx) (updb 0 (set_refcnt 2) (demo_bio 9)) k.
Proof.
  apply (bread_locked_sleeps 1 user_ctx (demo_bio 9) (reverse (seqZ 0 NBUF)) 1 0).
  - lia.
  - apply user_ctx_steady.
  - reflexivity.
  - reflexivity.
  - simpl. lia.
  - apply demo_bio_ok.
  - vm_compute. reflexivity.
  - vm_compute. discriminate.
  - vm_compute. reflexivity.
Defined.

Lemma brelse_correct_witness : exists s' L',
  brelse 0 user_ctx (demo_bio 5) = Done tt (woken [ChBuf 0] user_ctx) s' /\
  released 1 (demo_bio 5) (reverse (seqZ 0 NBUF)) 0 s' L'.
Proof.
  destruct (brelse_correct 1 user_ctx (demo_bio 5) (reverse (seqZ 0 NBUF)) 0 user_ctx_steady user_ctx_locks
    (demo_bio_ok 5) is_buf_0) as (s' & L' & Hrun & Hrel & _).
  - reflexivity.
  - split; reflexivity.
  - vm_compute. reflexivity.
  - intros _ _. vm_compute. reflexivity.
  - exists s', L'. split; [exact Hrun|exact Hrel].
Defined.

Lemma bwrite_correct_witness : exists s',
  bwrite 0 user_ctx (demo_bio 5) = Done tt user_ctx s' /\ blk (disk s') 1 = b_data (getb (demo_bio 5) 0).
Proof.
  destruct (bwrite_correct 1 user_ctx (demo_bio 5) (reverse (seqZ 0 NBUF)) 0) as [Hok _].
  - lia.
  - apply user_ctx_steady.
  - apply user_ctx_locks.
  - apply demo_bio_ok.
  - apply is_buf_0.
  - reflexivity.
  - vm_compute. discriminate.
  - destruct Hok as (s' & Hrun & _ & _ & Hd & _); [split; reflexivity|].
    exists s'. split; [exact Hrun|exact Hd].
Defined.

Lemma binit_correct_witness : exists s,
  binit user_ctx (bss_bio root_disk) = Done tt user_ctx s /\ bcache_ok 1 s (reverse (seqZ 0 NBUF)).
Proof.
  destruct (binit_correct 1 user_ctx root_disk) as (s & Hrun & Hok & _).
  - lia.
  - reflexivity.
  - apply root_disk_ok.
  - exists s. split; [exact Hrun|exact Hok].
Defined.
