(* ===== verification/BioSteps.v ===== *)
(** * Using the buffer cache

    Lemmas for the code that reads, changes, writes and releases buffers (the log and
    the file system): one step of each operation, in terms of the buffer it returns, of
    every block's [content] and of what the other buffers keep. *)
From S2P Require Import Prelude Machine Sleeplock Bio BioProps BioSpec.

Section Steps.
Context (dev : Z) (Hdev : dev <> 0).

(** A buffer that its user has locked and filled. *)
Record in_use (pid b : Z) (x : buf) : Prop := {
  iu_holds : holds dev b x;
  iu_held : held_by pid x;
  iu_valid : b_valid x <> 0;
}.

(** The block can be read: cached, or a buffer is free for it. *)
Definition spare (s : bio) : Prop := exists i, is_buf i /\ b_refcnt (getb s i) = 0.

Lemma target_exists s L b :
  bcache_ok dev s L -> (exists i, find_buf dev s b = Some i) \/ spare s -> exists i, target dev s L b = Some i.
Proof using Hdev.
  intros H Hav. unfold target. destruct (find_buf dev s b) as [i|] eqn:E; [eauto|].
  destruct Hav as [[i Hi]|(i & Hi & Hr)]; [done|].
  destruct (lru s L) as [j|] eqn:El; [eauto|]. by destruct (lru_None dev Hdev s L H El i Hi).
Qed.

(** References are few. *)
Definition few (x : buf) : Prop := b_refcnt x < 1073741824.

Section Thread.
Context (c : ctx) (Hc : steady c) (Hl : no_bio_locks c).

Lemma bread_step s L b i :
  bcache_ok dev s L -> target dev s L b = Some i -> unlocked (getb s i) -> few (getb s i) ->
  exists s', bread dev b c s = Done i c s' /\ bcache_ok dev s' L /\ is_buf i /\
    in_use (c_pid c) b (getb s' i) /\ b_data (getb s' i) = content dev s b /\
    b_refcnt (getb s' i) = b_refcnt (getb s i) + 1 /\
    (b_refcnt (getb s i) <> 0 -> holds dev b (getb s i)) /\
    (b_refcnt (getb s i) = 0 -> content dev s b = blk (disk s) b) /\
    (forall j, j <> i -> getb s' j = getb s j) /\
    (forall b', content dev s' b' = content dev s b') /\
    disk s' = disk s /\ writes s' = writes s.
Proof using Hdev Hc Hl.
  intros H Ht Hu Hr. destruct Hl as [Hbc Hsl]. unfold few in Hr.
  destruct (target_buf dev Hdev s L b i H Ht) as [Hi Hnone].
  exists (updb i (bread_buf dev s b (c_pid c)) s).
  split; [eapply bread_run; [done..|lia]|]. split; [eapply bread_ok; [done..|lia]|].
  rewrite getb_updb_eq by (auto with bio; apply H). cbn [bread_buf b_data b_refcnt].
  split; [done|]. split.
  { split; [done|done|]. cbn [bread_buf b_valid]. destruct (find_buf dev s b); [by zcase (b_valid (getb s i) =? 0)|done]. }
  split; [done|]. split; [destruct (find_buf dev s b) eqn:E; [done|rewrite Hnone by done; lia]|].
  split.
  { intros Hne. destruct (find_buf dev s b) as [j|] eqn:E; [|by rewrite Hnone in Hne].
    unfold target in Ht. rewrite E in Ht. injection Ht as ->. by apply (find_buf_Some dev s L b i H) in E as [_ ?]. }
  split.
  { intros Hz. unfold content. destruct (find_buf dev s b) as [j|] eqn:E; [|done].
    unfold target in Ht. rewrite E in Ht. injection Ht as ->.
    apply (find_buf_Some dev s L b i H) in E as [_ [_ <-]]. zcase (b_valid (getb s i) =? 0); [done|].
    by apply (bk_clean _ _ _ (bc_buf _ _ _ H i Hi)). }
  split; [intros j Hj; by apply getb_updb_ne|].
  split; [|done]. intros b'. eapply bread_content; [done..|lia].
Qed.

(** Changing the data of a buffer in use. *)
Lemma set_data_step s L i b d :
  bcache_ok dev s L -> is_buf i -> in_use (c_pid c) b (getb s i) -> b_refcnt (getb s i) <> 0 ->
  length d = 1024%nat ->
  exists s', bset_data i d c s = Done tt c s' /\ bcache_ok dev s' L /\
    getb s' i = set_data d (getb s i) /\ (forall j, j <> i -> getb s' j = getb s j) /\
    (forall b', content dev s' b' = if b' =? b then d else content dev s b') /\
    disk s' = disk s /\ writes s' = writes s.
Proof using Hdev.
  intros H Hi [[Hd Hb] Hh Hv] Hr Hlen. exists (updb i (set_data d) s). split; [done|].
  assert (bcache_ok dev (updb i (set_data d) s) L) as H'.
  { apply bcache_ok_updb; try done.
    - destruct (bc_buf _ _ _ H i Hi) as [A B C D E]. split; cbn; done.
    - intros _ j Hj Hne [E1 E2]. cbn in E2. apply Hne, (bc_uniq _ _ _ H); congruence. }
  assert (getb (updb i (set_data d) s) i = set_data d (getb s i)) as Hg
    by (apply getb_updb_eq; auto with bio; apply H).
  split; [done|]. split; [done|]. split; [intros j Hj; by apply getb_updb_ne|]. split; [|done].
  intros b'. zcase (b' =? b) as E.
  - subst b'. rewrite (content_cached dev Hdev _ L b i H' Hi) by (by rewrite Hg).
    rewrite Hg. cbn [set_data b_valid b_data]. by zcase (b_valid (getb s i) =? 0).
  - unfold content. assert (find_buf dev (updb i (set_data d) s) b' = find_buf dev s b') as ->.
    { destruct (find_buf dev s b') as [j|] eqn:Ej.
      - apply (find_buf_Some dev s L b' j H) in Ej as [Hj Hhj].
        apply (find_buf_Some dev _ L b' j H'). split; [done|].
        destruct (decide (j = i)) as [->|Hne]; [|by rewrite getb_updb_ne].
        destruct Hhj. congruence.
      - destruct (find_buf dev (updb i (set_data d) s) b') as [j|] eqn:Ej'; [|done].
        apply (find_buf_Some dev _ L b' j H') in Ej' as [Hj Hhj].
        assert (j <> i) as Hne by (intros ->; rewrite Hg in Hhj; destruct Hhj; cbn in *; congruence).
        rewrite getb_updb_ne in Hhj by done.
        rewrite (proj2 (find_buf_Some dev s L b' j H)) in Ej by done. done. }
    destruct (find_buf dev s b') as [j|] eqn:Ej; [|done].
    apply (find_buf_Some dev s L b' j H) in Ej as [Hj Hhj].
    rewrite getb_updb_ne; [done|]. intros ->. destruct Hhj. congruence.
Qed.

Lemma bwrite_step s L i b :
  bcache_ok dev s L -> is_buf i -> in_use (c_pid c) b (getb s i) ->
  exists s', bwrite i c s = Done tt c s' /\ bcache_ok dev s' L /\
    (forall j, getb s' j = getb s j) /\ (forall b', content dev s' b' = content dev s b') /\
    disk s' = <[b := b_data (getb s i)]> (disk s) /\
    writes s' = writes s ++ [(b, b_data (getb s i))].
Proof using Hdev Hc Hl.
  intros H Hi [[Hd Hb] Hh Hv]. destruct Hl as [Hbc Hsl]. exists (written i s).
  split; [by apply bwrite_run|]. split; [by apply written_ok|]. split; [done|].
  split; [intros b'; by eapply written_content|]. unfold written. cbn. by rewrite Hb.
Qed.

Lemma bunpin_step s L i b :
  bcache_ok dev s L -> is_buf i -> in_use (c_pid c) b (getb s i) -> 1 < b_refcnt (getb s i) ->
  exists s', bunpin i c s = Done tt c s' /\ bcache_ok dev s' L /\
    getb s' i = set_refcnt (b_refcnt (getb s i) - 1) (getb s i) /\
    (forall j, j <> i -> getb s' j = getb s j) /\
    (forall b', content dev s' b' = content dev s b') /\ disk s' = disk s /\ writes s' = writes s.
Proof using Hdev Hc Hl.
  intros H Hi [[Hd Hb] Hh Hv] Hr. destruct Hl as [Hbc Hsl].
  pose proof (bc_buf _ _ _ H i Hi) as Hbuf. pose proof (bk_ref _ _ _ Hbuf) as Href.
  exists (updb i (set_refcnt (b_refcnt (getb s i) - 1)) s).
  split; [apply bunpin_run; done || lia|].
  assert (getb (updb i (set_refcnt (b_refcnt (getb s i) - 1)) s) i = set_refcnt (b_refcnt (getb s i) - 1) (getb s i)) as Hg
    by (apply getb_updb_eq; auto with bio; apply H).
  split.
  { apply bcache_ok_updb; try done.
    - destruct Hbuf as [A B C D E]. split; cbn; try done; lia || (left; done).
    - intros _ j Hj Hne [E1 E2]. cbn in E2. apply Hne, (bc_uniq _ _ _ H); congruence. }
  split; [done|]. split; [intros j Hj; by apply getb_updb_ne|]. split; [|done].
  intros b'. apply content_same; [|done]. intros j Hj.
  destruct (decide (j = i)) as [->|Hne]; [by rewrite Hg|by rewrite getb_updb_ne].
Qed.

(** Releasing a buffer whose data, on its last reference, is on the disk. *)
Lemma brelse_step s L i b :
  bcache_ok dev s L -> is_buf i -> in_use (c_pid c) b (getb s i) -> 0 < b_refcnt (getb s i) ->
  (b_refcnt (getb s i) = 1 -> b_data (getb s i) = blk (disk s) b) ->
  exists s' L', brelse i c s = Done tt (woken [ChBuf i] c) s' /\ bcache_ok dev s' L' /\
    same_buf (getb s' i) (brelse_buf (getb s i)) /\
    (forall j, j <> i -> same_buf (getb s' j) (getb s j)) /\
    (forall b', content dev s' b' = content dev s b') /\ disk s' = disk s /\ writes s' = writes s.
Proof using Hc Hl.
  intros H Hi [[Hd Hb] Hh Hv] Hr Hclean. destruct Hl as [Hbc Hsl].
  destruct (brelse_run dev c Hc Hbc Hsl s L i H Hi Hd Hh Hr) as (s' & L' & Hrun & Hrel).
  - intros H1 _. rewrite Hb. auto.
  - exists s', L'. split; [done|]. destruct Hrel as [R1 R2 R3 R4 R5 R6] eqn:Erel.
    split; [done|]. split; [done|]. split; [done|].
    split; [intros b'; by eapply released_content|done].
Qed.

End Thread.

Lemma steady_woken ws c : steady c -> steady (woken ws c).
Proof using.
  intros [Hok Hst]. split; [by apply ctx_ok_woken|]. rewrite settle_woken. by f_equal.
Qed.

Lemma no_bio_locks_woken ws c : no_bio_locks c -> no_bio_locks (woken ws c).
Proof using. unfold no_bio_locks. by rewrite c_held_woken. Qed.

End Steps.
#[export] Hint Resolve steady_woken no_bio_locks_woken : bio.
