(* ===== verification/Bytes.v ===== *)
(** * Structures inside a block of bytes

    A buffer's data is a list of bytes; the code casts it to structures and reads and
    writes their fields.  [slice] and [splice] are a field's bytes, and [getn]/[putn]
    the little-endian integers of 2 or 4 bytes in it. *)
From S2P Require Import Prelude.

Definition slice (d : list Z) (off n : Z) : list Z := take (Z.to_nat n) (drop (Z.to_nat off) d).

Definition splice (d : list Z) (off : Z) (l : list Z) : list Z :=
  take (Z.to_nat off) d ++ l ++ drop (Z.to_nat off + length l) d.

Definition getn (n : nat) (d : list Z) (off : Z) : Z := le_val (slice d off (Z.of_nat n)).
Definition putn (n : nat) (d : list Z) (off v : Z) : list Z := splice d off (le_bytes n v).

Abbreviation get16 := (getn 2).
Abbreviation get32 := (getn 4).
Abbreviation put16 := (putn 2).
Abbreviation put32 := (putn 4).

Lemma length_slice d off n :
  0 <= off -> 0 <= n -> off + n <= zlen d -> length (slice d off n) = Z.to_nat n.
Proof. intros H1 H2 H3. unfold slice, zlen in *. rewrite length_take, length_drop. lia. Qed.

Lemma length_splice d off l :
  0 <= off -> off + zlen l <= zlen d -> length (splice d off l) = length d.
Proof.
  intros H1 H2. unfold splice, zlen in *. rewrite !length_app, length_take, length_drop. lia.
Qed.

Lemma zlen_splice d off l :
  0 <= off -> off + zlen l <= zlen d -> zlen (splice d off l) = zlen d.
Proof. intros. unfold zlen. by rewrite length_splice. Qed.

Lemma slice_splice_eq d off l :
  0 <= off -> off + zlen l <= zlen d -> slice (splice d off l) off (zlen l) = l.
Proof.
  intros H1 H2. unfold slice, splice, zlen in *. rewrite drop_app_ge by (rewrite length_take; lia).
  rewrite length_take. replace (Z.to_nat off - Z.to_nat off `min` length d)%nat with 0%nat by lia.
  rewrite drop_0, Nat2Z.id. by rewrite take_app_length.
Qed.

Lemma slice_splice_ne d off l off' n :
  0 <= off -> off + zlen l <= zlen d -> 0 <= off' -> 0 <= n ->
  off' + n <= off \/ off + zlen l <= off' ->
  slice (splice d off l) off' n = slice d off' n.
Proof.
  intros H1 H2 H3 H4 [H|H]; unfold slice, splice, zlen in *.
  - rewrite drop_app_le by (rewrite length_take; lia).
    rewrite take_app_le by (rewrite length_drop, length_take; lia).
    rewrite List.skipn_firstn_comm, take_take. f_equal. lia.
  - rewrite app_assoc, drop_app_ge by (rewrite length_app, length_take; lia).
    rewrite length_app, length_take, drop_drop. do 2 f_equal. lia.
Qed.

Lemma slice_all d : slice d 0 (zlen d) = d.
Proof. unfold slice, zlen. rewrite Nat2Z.id. change (Z.to_nat 0) with 0%nat. rewrite drop_0. apply firstn_all. Qed.

Lemma getn_putn_eq n d off v :
  0 <= off -> off + Z.of_nat n <= zlen d -> 0 <= v < 256 ^ Z.of_nat n -> getn n (putn n d off v) off = v.
Proof.
  intros H1 H2 H3. unfold getn, putn.
  replace (Z.of_nat n) with (zlen (le_bytes n v)) by (unfold zlen; by rewrite length_le_bytes).
  rewrite slice_splice_eq by (unfold zlen; rewrite ?length_le_bytes; unfold zlen in *; lia).
  by apply le_val_bytes_small.
Qed.

Lemma getn_putn_ne n k d off off' v :
  0 <= off -> off + Z.of_nat n <= zlen d -> 0 <= off' ->
  off' + Z.of_nat k <= off \/ off + Z.of_nat n <= off' ->
  getn k (putn n d off v) off' = getn k d off'.
Proof.
  intros H1 H2 H3 H4. unfold getn, putn.
  rewrite slice_splice_ne; [done|lia| |lia|lia|]; unfold zlen in *; rewrite length_le_bytes; lia.
Qed.

Lemma length_putn n d off v :
  0 <= off -> off + Z.of_nat n <= zlen d -> length (putn n d off v) = length d.
Proof. intros H1 H2. apply length_splice; [done|]. unfold zlen in *. rewrite length_le_bytes. lia. Qed.

Lemma zlen_putn n d off v :
  0 <= off -> off + Z.of_nat n <= zlen d -> zlen (putn n d off v) = zlen d.
Proof. intros. unfold zlen. by rewrite length_putn. Qed.

Lemma znth_splice (d : list Z) off l i :
  0 <= off -> off + zlen l <= zlen d -> 0 <= i ->
  znth 0 (splice d off l) i = if (off <=? i) && (i <? off + zlen l) then znth 0 l (i - off) else znth 0 d i.
Proof.
  intros H1 H2 H3. unfold splice. zcase (off <=? i) as E1; cbn [andb].
  - rewrite znth_app_r by (unfold zlen in *; rewrite length_take; lia).
    replace (i - zlen (take (Z.to_nat off) d)) with (i - off) by (unfold zlen in *; rewrite length_take; lia).
    zcase (i <? off + zlen l) as E2; [by rewrite znth_app_l by lia|].
    rewrite znth_app_r by lia. unfold znth. zcase (i - off - zlen l <? 0) as E3; [lia|]. zcase (i <? 0) as E4; [lia|].
    rewrite nth_skipn. f_equal. unfold zlen in *. lia.
  - rewrite znth_app_l by (unfold zlen in *; rewrite length_take; lia).
    unfold znth. zcase (i <? 0) as E4; [lia|]. rewrite nth_firstn. replace (Z.to_nat i <? Z.to_nat off)%nat with true; [done|]. symmetry. apply Nat.ltb_lt. lia.
Qed.

(** A field of a structure at [off], through the structure's bytes. *)
Lemma getn_slice n d off m o :
  0 <= off -> 0 <= o -> o + Z.of_nat n <= m -> getn n d (off + o) = getn n (slice d off m) o.
Proof.
  intros H1 H2 H3. unfold getn, slice. rewrite List.skipn_firstn_comm, drop_drop, take_take. do 2 f_equal; [lia|]. f_equal. lia.
Qed.

Lemma getn_app_l n a b o : 0 <= o -> o + Z.of_nat n <= zlen a -> getn n (a ++ b) o = getn n a o.
Proof.
  intros H1 H2. unfold getn, slice, zlen in *. rewrite drop_app_le by lia. rewrite take_app_le; [done|].
  rewrite length_drop. lia.
Qed.

Lemma getn_app_r n a b o : zlen a <= o -> getn n (a ++ b) o = getn n b (o - zlen a).
Proof.
  intros H1. unfold getn, slice, zlen in *. rewrite drop_app_ge by lia. do 3 f_equal. lia.
Qed.

Lemma getn_le_bytes n v b : 0 <= v < 256 ^ Z.of_nat n -> getn n (le_bytes n v ++ b) 0 = v.
Proof.
  intros Hv. unfold getn, slice. change (Z.to_nat 0) with 0%nat. rewrite drop_0, Nat2Z.id.
  rewrite take_app_le by (by rewrite length_le_bytes). rewrite take_ge by (by rewrite length_le_bytes).
  by apply le_val_bytes_small.
Qed.

Lemma getn_next n m v b o : Z.of_nat m <= o -> getn n (le_bytes m v ++ b) o = getn n b (o - Z.of_nat m).
Proof. intros Ho. rewrite getn_app_r by (unfold zlen; by rewrite length_le_bytes). unfold zlen. by rewrite length_le_bytes. Qed.

#[global] Arguments getn : simpl never.
#[global] Arguments putn : simpl never.
#[global] Arguments slice : simpl never.
#[global] Arguments splice : simpl never.

(** ** Strings in kernel buffers

    kernel/string.c on a string that is in a kernel buffer: the bytes up to the NUL, and
    0 at and after the end of the list. *)

(** The string at the start of a buffer. *)
Fixpoint cstr (l : list Z) : list Z :=
  match l with
  | [] => []
  | x :: l' => if x =? 0 then [] else x :: cstr l'
  end.

Definition hd0 (l : list Z) : Z := match l with [] => 0 | x :: _ => x end.

Fixpoint bytes_strncmp (n : nat) (p q : list Z) : Z :=
  match n with
  | O => 0
  | S n' =>
      if truth (hd0 p) && (hd0 p =? hd0 q) then bytes_strncmp n' (tail p) (tail q)
      else hd0 p - hd0 q
  end.

(** The [n] bytes that strncpy stores. *)
Fixpoint bytes_strncpy (n : nat) (t : list Z) : list Z :=
  match n with
  | O => []
  | S n' => if hd0 t =? 0 then replicate n 0 else hd0 t :: bytes_strncpy n' (tail t)
  end.

(** safestrcpy into the buffer [s] of [n > 0] bytes. *)
Definition bytes_safestrcpy (s t : list Z) (n : Z) : list Z :=
  splice s 0 (take (Z.to_nat (n - 1)) (cstr t) ++ [0]).
