(* ===== verification/Log.v ===== *)
(** * The log (kernel/log.c): the operations

    The in-memory [struct log] over the buffer cache.  The on-disk header block is the
    bytes of [struct logheader]: [n] at offset 0 and [block\[i\]] at offset 4 + 4i. *)
From S2P Require Import Prelude Bytes Machine Sleeplock Bio.

Definition LOGSIZE : Z := MAXOPBLOCKS * 3.

(** struct log; [lg_block] is [lh.block]. *)
Record logst := Log {
  lg_start : Z;
  lg_size : Z;
  lg_outstanding : Z;
  lg_committing : Z;
  lg_dev : Z;
  lg_n : Z;
  lg_block : list Z;
}.

Definition set_outstanding (x : Z) (l : logst) : logst :=
  Log (lg_start l) (lg_size l) x (lg_committing l) (lg_dev l) (lg_n l) (lg_block l).
Definition set_committing (x : Z) (l : logst) : logst :=
  Log (lg_start l) (lg_size l) (lg_outstanding l) x (lg_dev l) (lg_n l) (lg_block l).
Definition set_n (x : Z) (l : logst) : logst :=
  Log (lg_start l) (lg_size l) (lg_outstanding l) (lg_committing l) (lg_dev l) x (lg_block l).
Definition set_blocks (x : list Z) (l : logst) : logst :=
  Log (lg_start l) (lg_size l) (lg_outstanding l) (lg_committing l) (lg_dev l) (lg_n l) x.
Definition set_geometry (start size dev : Z) (l : logst) : logst :=
  Log start size (lg_outstanding l) (lg_committing l) dev (lg_n l) (lg_block l).

Record lstate := LState { l_log : logst; l_bio : bio }.

Definition on_bio : lens lstate bio := Lens l_bio (fun b s => LState (l_log s) b).

Definition cache {A} (m : M bio A) : M lstate A := zoom on_bio m.
Definition mlog {A} (f : logst -> A) : M lstate A := gets (fun s => f (l_log s)).
Definition upd_log (f : logst -> logst) : M lstate unit := modify (fun s => LState (f (l_log s)) (l_bio s)).

(** Fields of the header block. *)
Definition hdr_n (d : list Z) : Z := s32 (get32 d 0).
Definition hdr_block (d : list Z) (i : Z) : Z := s32 (get32 d (4 + 4 * i)).
Definition hdr_set_n (d : list Z) (n : Z) : list Z := put32 d 0 (u32 n).
Definition hdr_set_block (d : list Z) (i b : Z) : list Z := put32 d (4 + 4 * i) (u32 b).

(** ** Installing and writing the header *)

Fixpoint install_trans_loop (k : nat) (tail : Z) (recovering : bool) : M lstate unit :=
  n <- mlog lg_n ;;
  if tail <? n then
    match k with
    | O => fun _ _ => Diverge
    | S k' =>
        dev <- mlog lg_dev ;;
        start <- mlog lg_start ;;
        lbuf <- cache (bread dev (u32 (start + tail + 1))) ;;
        dst <- mlog (fun l => znth 0 (lg_block l) tail) ;;
        dbuf <- cache (bread dev (u32 dst)) ;;
        data <- cache (mget lbuf b_data) ;;
        cache (bset_data dbuf data) ;;
        cache (bwrite dbuf) ;;
        when (negb recovering) (cache (bunpin dbuf)) ;;
        cache (brelse lbuf) ;;
        cache (brelse dbuf) ;;
        install_trans_loop k' (tail + 1) recovering
    end
  else ret tt.

(** The loops over the header make [n] iterations. *)
Definition install_trans (recovering : bool) : M lstate unit :=
  n <- mlog lg_n ;; install_trans_loop (Z.to_nat n) 0 recovering.

Fixpoint read_head_loop (k : nat) (i : Z) (d : list Z) : M lstate unit :=
  n <- mlog lg_n ;;
  if i <? n then
    match k with
    | O => fun _ _ => Diverge
    | S k' =>
        upd_log (fun l => set_blocks (zupd (lg_block l) i (hdr_block d i)) l) ;;
        read_head_loop k' (i + 1) d
    end
  else ret tt.

Definition read_head : M lstate unit :=
  dev <- mlog lg_dev ;;
  start <- mlog lg_start ;;
  buf <- cache (bread dev (u32 start)) ;;
  d <- cache (mget buf b_data) ;;
  upd_log (set_n (hdr_n d)) ;;
  read_head_loop (Z.to_nat (hdr_n d)) 0 d ;;
  cache (brelse buf).

(** The stores of write_head into the buffer. *)
Fixpoint hdr_fill (k : nat) (i : Z) (block : list Z) (d : list Z) : list Z :=
  match k with
  | O => d
  | S k' => hdr_fill k' (i + 1) block (hdr_set_block d i (znth 0 block i))
  end.

Definition write_head : M lstate unit :=
  dev <- mlog lg_dev ;;
  start <- mlog lg_start ;;
  buf <- cache (bread dev (u32 start)) ;;
  d <- cache (mget buf b_data) ;;
  n <- mlog lg_n ;;
  block <- mlog lg_block ;;
  cache (bset_data buf (hdr_fill (Z.to_nat n) 0 block (hdr_set_n d n))) ;;
  cache (bwrite buf) ;;
  cache (brelse buf).

Definition recover_from_log : M lstate unit :=
  read_head ;;
  install_trans true ;;
  upd_log (set_n 0) ;;
  write_head.

(** The part of [struct superblock] that the log uses. *)
Definition initlog (dev logstart nlog : Z) : M lstate unit :=
  if BSIZE <=? 4 + 4 * LOGSIZE then panic "initlog: too big logheader" else
  initlock LLog ;;
  upd_log (set_geometry (s32 logstart) (s32 nlog) dev) ;;
  recover_from_log.

(** ** Transactions *)

Definition begin_wait (s : lstate) : bool :=
  let l := l_log s in
  truth (lg_committing l) || (LOGSIZE <? lg_n l + (lg_outstanding l + 1) * MAXOPBLOCKS).

Definition begin_op : M lstate unit :=
  acquire LLog ;;
  sleep_while begin_wait ChLog LLog ;;
  upd_log (fun l => set_outstanding (lg_outstanding l + 1) l) ;;
  release LLog.

Fixpoint write_log_loop (k : nat) (tail : Z) : M lstate unit :=
  n <- mlog lg_n ;;
  if tail <? n then
    match k with
    | O => fun _ _ => Diverge
    | S k' =>
        dev <- mlog lg_dev ;;
        start <- mlog lg_start ;;
        to <- cache (bread dev (u32 (start + tail + 1))) ;;
        src <- mlog (fun l => znth 0 (lg_block l) tail) ;;
        from <- cache (bread dev (u32 src)) ;;
        data <- cache (mget from b_data) ;;
        cache (bset_data to data) ;;
        cache (bwrite to) ;;
        cache (brelse from) ;;
        cache (brelse to) ;;
        write_log_loop k' (tail + 1)
    end
  else ret tt.

Definition write_log : M lstate unit :=
  n <- mlog lg_n ;; write_log_loop (Z.to_nat n) 0.

Definition commit : M lstate unit :=
  n <- mlog lg_n ;;
  when (0 <? n)
    (write_log ;;
     write_head ;;
     install_trans false ;;
     upd_log (set_n 0) ;;
     write_head).

Definition end_op : M lstate unit :=
  acquire LLog ;;
  upd_log (fun l => set_outstanding (lg_outstanding l - 1) l) ;;
  c <- mlog lg_committing ;;
  if truth c then panic "log.committing" else
  o <- mlog lg_outstanding ;;
  do_commit <-
    (if o =? 0 then upd_log (set_committing 1) ;; ret true
     else wakeup ChLog ;; ret false) ;;
  release LLog ;;
  when do_commit
    (commit ;;
     acquire LLog ;;
     upd_log (set_committing 0) ;;
     wakeup ChLog ;;
     release LLog).

(** The first index of [blockno] among the first [n] logged blocks, or [n]. *)
Fixpoint absorb (k : nat) (i : Z) (block : list Z) (blockno : Z) : Z :=
  match k with
  | O => i
  | S k' => if u32 (znth 0 block i) =? blockno then i else absorb k' (i + 1) block blockno
  end.

Definition log_write (b : Z) : M lstate unit :=
  acquire LLog ;;
  n <- mlog lg_n ;;
  size <- mlog lg_size ;;
  if (LOGSIZE <=? n) || (size - 1 <=? n) then panic "too big a transaction" else
  o <- mlog lg_outstanding ;;
  if o <? 1 then panic "log_write outside of trans" else
  blockno <- cache (mget b b_blockno) ;;
  block <- mlog lg_block ;;
  let i := absorb (Z.to_nat n) 0 block blockno in
  upd_log (fun l => set_blocks (zupd (lg_block l) i (s32 blockno)) l) ;;
  when (i =? n)
    (cache (bpin b) ;;
     upd_log (fun l => set_n (lg_n l + 1) l)) ;;
  release LLog.
