(* ===== verification/LogProps.v ===== *)
(** * The log: what the operations do

    [quiet] states of the cache (no buffer locked) and the effect of the log's loops on
    them: which blocks they write to the disk, in which order, and what every block's
    content is afterwards. *)
From S2P Require Import Prelude Bytes Machine Sleeplock Bio BioProps BioSpec BioSteps Log.

Lemma cache_done {A} (m : M bio A) c s (a : A) c' b' :
  m c (l_bio s) = Done a c' b' -> cache m c s = Done a c' (LState (l_log s) b').
Proof. intros H. unfold cache. by rewrite (zoom_done on_bio m c s a c' b' H). Qed.

Lemma cache_run {A} (m : M bio A) c l b (a : A) c' b' :
  m c b = Done a c' b' -> cache m c (LState l b) = Done a c' (LState l b').
Proof. apply (cache_done m c (LState l b)). Qed.

(** ** Sequences of writes *)

Definition apply_writes (ws : list (Z * list Z)) (d : blocks) : blocks :=
  foldl (fun d w => <[w.1 := w.2]> d) d ws.

(** A map from blocks to contents after the writes. *)
Definition over (ws : list (Z * list Z)) (f : Z -> list Z) : Z -> list Z :=
  foldl (fun f w b => if b =? w.1 then w.2 else f b) f ws.

Lemma apply_writes_app ws1 ws2 d : apply_writes (ws1 ++ ws2) d = apply_writes ws2 (apply_writes ws1 d).
Proof. apply foldl_app. Qed.

Lemma over_app ws1 ws2 f : over (ws1 ++ ws2) f = over ws2 (over ws1 f).
Proof. apply foldl_app. Qed.

Lemma over_ext ws f g b : (forall b, f b = g b) -> over ws f b = over ws g b.
Proof.
  intros H. revert f g H. induction ws as [|w ws IH]; intros f g H; [apply H|]. simpl. apply IH.
  intros b'. by destruct (_ =? _).
Qed.

Lemma over_notin ws f b : b ∉ ws.*1 -> over ws f b = f b.
Proof.
  revert f. induction ws as [|w ws IH]; intros f Hb; [done|]. simpl in *.
  apply not_elem_of_cons in Hb as [Hb1 Hb2]. rewrite IH by done. zcase (b =? w.1); done.
Qed.

Lemma blk_apply_writes ws d b : blk (apply_writes ws d) b = over ws (blk d) b.
Proof.
  revert d. induction ws as [|w ws IH]; intros d; [done|]. simpl. rewrite IH. apply over_ext.
  intros b'. unfold blk. zcase (b' =? w.1) as E; [subst; by rewrite lookup_insert_eq|].
  by rewrite lookup_insert_ne by congruence.
Qed.

(** Looking a written block up, when the targets are distinct. *)
Lemma over_in ws f b v : NoDup ws.*1 -> (b, v) ∈ ws -> over ws f b = v.
Proof.
  revert f. induction ws as [|w ws IH]; intros f Hnd Hin; [by apply elem_of_nil in Hin|].
  simpl in *. apply NoDup_cons in Hnd as [Hni Hnd]. apply elem_of_cons in Hin as [<-|Hin].
  - simpl in Hni. rewrite over_notin by done. by rewrite Z.eqb_refl.
  - by apply IH.
Qed.

(** The log blocks from [a] on, holding [vs]. *)
Fixpoint log_copies (a : Z) (vs : list (list Z)) : list (Z * list Z) :=
  match vs with
  | [] => []
  | v :: vs' => (a, v) :: log_copies (a + 1) vs'
  end.

Lemma elem_of_log_copies a vs w :
  w ∈ log_copies a vs -> a <= w.1 < a + zlen vs.
Proof.
  revert a. induction vs as [|v vs IH]; intros a; simpl; [by intros ?%elem_of_nil|].
  unfold zlen. simpl. intros [->|Hw]%elem_of_cons; simpl; [lia|].
  apply IH in Hw. unfold zlen in Hw. lia.
Qed.

Lemma log_copies_targets a vs b : b ∈ (log_copies a vs).*1 -> a <= b < a + zlen vs.
Proof. intros (w & -> & Hw)%list_elem_of_fmap. by apply elem_of_log_copies. Qed.

Lemma log_copies_nodup a vs : NoDup (log_copies a vs).*1.
Proof.
  revert a. induction vs as [|v vs IH]; intros a; simpl; [constructor|].
  apply NoDup_cons. split; [|apply IH]. intros H%log_copies_targets. lia.
Qed.

Lemma log_copies_lookup a vs i :
  0 <= i < zlen vs -> (a + i, znth [] vs i) ∈ log_copies a vs.
Proof.
  revert a i. induction vs as [|v vs IH]; intros a i Hi; unfold zlen in *; simpl in *; [lia|].
  destruct (decide (i = 0)) as [->|].
  - rewrite znth_cons_0, Z.add_0_r. left.
  - right. rewrite znth_cons_S by lia. replace (a + i) with (a + 1 + (i - 1)) by lia. apply IH. lia.
Qed.

Section LogProps.
Context (dev : Z) (Hdev : dev <> 0).

Record quiet (s : bio) (L : list Z) : Prop := {
  q_ok : bcache_ok dev s L;
  q_unlocked : forall i, is_buf i -> unlocked (getb s i);
  q_few : forall i, is_buf i -> few (getb s i);
}.

(** The block is in a buffer with references, so it stays there. *)
Definition pinned_at (s : bio) (b i : Z) : Prop :=
  is_buf i /\ holds dev b (getb s i) /\ b_refcnt (getb s i) <> 0 /\ b_valid (getb s i) <> 0.
Definition pinned (s : bio) (b : Z) : Prop := exists i, pinned_at s b i.

(** Balanced use of the cache: every buffer has the references it had. *)
Record kept (s s' : bio) : Prop := {
  kp_ref : forall j, is_buf j -> b_refcnt (getb s' j) = b_refcnt (getb s j);
  kp_pin : forall b i, pinned_at s b i -> pinned_at s' b i;
}.

Lemma kept_refl s : kept s s.
Proof using. by split. Qed.

Lemma kept_trans s1 s2 s3 : kept s1 s2 -> kept s2 s3 -> kept s1 s3.
Proof using.
  intros [A1 B1] [A2 B2]. split; [intros j Hj; by rewrite A2, A1|]. eauto.
Qed.

Lemma kept_spare s s' : kept s s' -> spare s -> spare s'.
Proof using. intros [A _] (i & Hi & Hr). exists i. split; [done|]. by rewrite A. Qed.

Lemma kept_pinned s s' b : kept s s' -> pinned s b -> pinned s' b.
Proof using. intros [_ B] [i Hi]. exists i. eauto. Qed.

(** A quiet cache whose buffers are, up to their links, those of another. *)
Definition restored (s s' : bio) (i : Z) (x : buf) : Prop :=
  same_buf (getb s' i) x /\ forall j, j <> i -> same_buf (getb s' j) (getb s j).

Lemma same_unlocked x y : same_buf x y -> unlocked y -> unlocked x.
Proof using. intros (_ & _ & _ & E & _)%same_buf_fields. unfold unlocked. by rewrite E. Qed.

Lemma same_few x y : same_buf x y -> few y -> few x.
Proof using. intros (_ & _ & _ & _ & E & _)%same_buf_fields. unfold few. by rewrite E. Qed.

Lemma same_in_use pid b x y : same_buf x y -> in_use dev pid b y -> in_use dev pid b x.
Proof using.
  intros (E1 & E2 & E3 & E4 & E5 & E6)%same_buf_fields [[A1 A2] [B1 B2] C].
  split; [split|split|]; congruence.
Qed.

Lemma same_pinned s s' b i : same_buf (getb s' i) (getb s i) -> pinned_at s b i -> pinned_at s' b i.
Proof using.
  intros (E1 & E2 & E3 & E4 & E5 & E6)%same_buf_fields (Hi & [H1 H2] & H3 & H4).
  split; [done|]. split; [split; congruence|]. split; congruence.
Qed.

Lemma pinned_target s L b i : bcache_ok dev s L -> pinned_at s b i -> target dev s L b = Some i.
Proof using.
  intros H (Hi & Hh & _). unfold target. by rewrite (proj2 (find_buf_Some dev s L b i H)).
Qed.

(** The disk received [ws]: the cache and the disk show them. *)
Record wrote (s : bio) (ws : list (Z * list Z)) (s' : bio) : Prop := {
  wr_writes : writes s' = writes s ++ ws;
  wr_disk : disk s' = apply_writes ws (disk s);
  wr_content : forall b, content dev s' b = over ws (content dev s) b;
}.

Lemma wrote_nil s : wrote s [] s.
Proof using. split; [by rewrite app_nil_r|done|done]. Qed.

Lemma wrote_trans s1 ws1 s2 ws2 s3 : wrote s1 ws1 s2 -> wrote s2 ws2 s3 -> wrote s1 (ws1 ++ ws2) s3.
Proof using.
  intros [A1 B1 C1] [A2 B2 C2]. split.
  - by rewrite A2, A1, app_assoc.
  - by rewrite B2, B1, apply_writes_app.
  - intros b. rewrite C2, over_app. by apply over_ext.
Qed.

Section Thread.
Context (c : ctx) (Hc : steady c) (Hl : no_bio_locks c).

(** ** Copying a block through the cache

    The common part of the loops: read block [lb] into buffer [i1], then block [b], which
    is pinned, into [i2]. *)
Record two_read (s : bio) (lb b i1 i2 : Z) (s2 : bio) (L : list Z) : Prop := {
  tr_ok : bcache_ok dev s2 L;
  tr_1 : is_buf i1;
  tr_2 : is_buf i2;
  tr_ne : i1 <> i2;
  tr_use1 : in_use dev (c_pid c) lb (getb s2 i1);
  tr_use2 : in_use dev (c_pid c) b (getb s2 i2);
  tr_data1 : b_data (getb s2 i1) = content dev s lb;
  tr_data2 : b_data (getb s2 i2) = content dev s b;
  tr_ref1 : b_refcnt (getb s2 i1) = b_refcnt (getb s i1) + 1;
  tr_ref2 : b_refcnt (getb s2 i2) = b_refcnt (getb s i2) + 1;
  tr_old1 : b_refcnt (getb s i1) <> 0 -> holds dev lb (getb s i1);
  tr_old2 : b_refcnt (getb s i2) <> 0 -> holds dev b (getb s i2);
  tr_clean1 : b_refcnt (getb s i1) = 0 -> content dev s lb = blk (disk s) lb;
  tr_clean2 : b_refcnt (getb s i2) = 0 -> content dev s b = blk (disk s) b;
  tr_other : forall j, j <> i1 -> j <> i2 -> getb s2 j = getb s j;
  tr_content : forall b', content dev s2 b' = content dev s b';
  tr_disk : disk s2 = disk s;
  tr_writes : writes s2 = writes s;
}.

Lemma two_read_run s L lb b :
  quiet s L -> lb <> b -> spare s ->
  (pinned s b \/ exists j, is_buf j /\ b_refcnt (getb s j) = 0 /\ target dev s L lb <> Some j) ->
  exists i1 i2 s1 s2,
    bread dev lb c s = Done i1 c s1 /\ bread dev b c s1 = Done i2 c s2 /\ two_read s lb b i1 i2 s2 L.
Proof using Hdev Hc Hl.
  intros [Hok Hun Hfw] Hne Hsp Hb.
  destruct (target_exists dev Hdev s L lb Hok (or_intror Hsp)) as [i1 Ht1].
  pose proof (target_buf dev Hdev s L lb i1 Hok Ht1) as [Hi1 _].
  destruct (bread_step dev Hdev c Hc Hl s L lb i1 Hok Ht1 (Hun i1 Hi1) (Hfw i1 Hi1))
    as (s1 & Hrun1 & Hok1 & _ & Hu1 & Hd1 & Hr1 & Hold1 & Hcl1 & Hoth1 & Hcont1 & Hdk1 & Hw1).
  assert (exists i2, target dev s1 L b = Some i2) as [i2 Ht2].
  { apply (target_exists dev Hdev s1 L b Hok1). destruct Hb as [(i2 & Hi2 & Hh2 & Hr2 & Hv2)|(j & Hj & Hrj & Htj)].
    - left. exists i2. apply (find_buf_Some dev s1 L b i2 Hok1). split; [done|]. rewrite Hoth1; [done|].
      intros ->. destruct (Hold1 Hr2), Hh2. congruence.
    - right. exists j. split; [done|]. rewrite Hoth1; [done|]. congruence. }
  pose proof (target_buf dev Hdev s1 L b i2 Hok1 Ht2) as [Hi2 Hnone2].
  assert (i1 <> i2) as Hi12.
  { intros <-. pose proof (bk_ref _ _ _ (bc_buf _ _ _ Hok i1 Hi1)).
    destruct (find_buf dev s1 b) as [k|] eqn:Ek; [|rewrite Hnone2 in Hr1 by done; lia].
    unfold target in Ht2. rewrite Ek in Ht2. injection Ht2 as ->.
    apply (find_buf_Some dev s1 L b i1 Hok1) in Ek as [_ [_ E]]. destruct Hu1 as [[_ E'] _ _]. congruence. }
  assert (getb s1 i2 = getb s i2) as Hg2 by (apply Hoth1; congruence).
  destruct (bread_step dev Hdev c Hc Hl s1 L b i2 Hok1 Ht2)
    as (s2 & Hrun2 & Hok2 & _ & Hu2 & Hd2 & Hr2 & Hold2 & Hcl2 & Hoth2 & Hcont2 & Hdk2 & Hw2);
    [rewrite Hg2; auto|rewrite Hg2; auto|].
  exists i1, i2, s1, s2. split; [done|]. split; [done|].
  rewrite Hg2 in Hr2, Hold2, Hcl2. rewrite Hcont1, Hdk1 in Hcl2. split; try done.
  - by rewrite Hoth2.
  - by rewrite Hoth2.
  - by rewrite Hd2, Hcont1.
  - by rewrite Hoth2.
  - intros j Hj1 Hj2. by rewrite Hoth2, Hoth1.
  - intros b'. by rewrite Hcont2, Hcont1.
  - congruence.
  - congruence.
Qed.
Lemma same_brelse x y : same_buf x y -> same_buf (brelse_buf x) (brelse_buf y).
Proof using.
  destruct x, y. unfold same_buf, brelse_buf, set_prev, set_next, set_refcnt, set_lock. cbn.
  intros [= -> -> -> -> -> -> ->]. done.
Qed.

(** Releasing two buffers, one after the other. *)
Lemma release_two s L ba bb ia ib :
  bcache_ok dev s L -> is_buf ia -> is_buf ib -> ia <> ib ->
  in_use dev (c_pid c) ba (getb s ia) -> in_use dev (c_pid c) bb (getb s ib) ->
  0 < b_refcnt (getb s ia) -> 0 < b_refcnt (getb s ib) ->
  (b_refcnt (getb s ia) = 1 -> b_data (getb s ia) = blk (disk s) ba) ->
  (b_refcnt (getb s ib) = 1 -> b_data (getb s ib) = blk (disk s) bb) ->
  exists s' L', (brelse ia ;; brelse ib) c s = Done tt (woken [ChBuf ia; ChBuf ib] c) s' /\
    bcache_ok dev s' L' /\ same_buf (getb s' ia) (brelse_buf (getb s ia)) /\
    same_buf (getb s' ib) (brelse_buf (getb s ib)) /\
    (forall j, j <> ia -> j <> ib -> same_buf (getb s' j) (getb s j)) /\
    (forall b', content dev s' b' = content dev s b') /\ disk s' = disk s /\ writes s' = writes s.
Proof using Hc Hl.
  intros Hok Ha Hb Hne Ua Ub Ra Rb Ca Cb.
  destruct (brelse_step dev c Hc Hl s L ia ba Hok Ha Ua Ra Ca) as (s5 & L5 & R5 & Ok5 & G5 & O5 & C5 & D5 & W5).
  kstep R5. set (c5 := woken [ChBuf ia] c).
  assert (steady c5) as Hc5 by (apply steady_woken; done).
  assert (no_bio_locks c5) as Hl5 by (apply no_bio_locks_woken; done).
  pose proof (O5 ib ltac:(congruence)) as Gb. pose proof (same_buf_fields _ _ Gb) as (_ & _ & _ & _ & Er & Ed).
  destruct (brelse_step dev c5 Hc5 Hl5 s5 L5 ib bb Ok5 Hb) as (s6 & L6 & R6 & Ok6 & G6 & O6 & C6 & D6 & W6).
  { eapply same_in_use; [exact Gb|]. unfold c5. by rewrite c_pid_woken. }
  { by rewrite Er. }
  { rewrite Er, Ed, D5. done. }
  exists s6, L6. split; [rewrite R6; unfold c5; by rewrite woken_woken|]. split; [done|].
  split; [by rewrite (O6 ia Hne)|]. split; [rewrite G6; by apply same_brelse|].
  split; [intros j Hj1 Hj2; by rewrite (O6 j Hj2), (O5 j Hj1)|].
  split; [intros b'; by rewrite C6|]. split; congruence.
Qed.

(** Quiet again, once both buffers are released. *)
Lemma quiet_two s L s' L' i1 i2 x1 x2 :
  quiet s L -> bcache_ok dev s' L' ->
  same_buf (getb s' i1) (brelse_buf x1) -> same_buf (getb s' i2) (brelse_buf x2) ->
  (forall j, j <> i1 -> j <> i2 -> same_buf (getb s' j) (getb s j)) ->
  b_refcnt x1 <= b_refcnt (getb s i1) + 1 -> b_refcnt x2 <= b_refcnt (getb s i2) + 1 ->
  is_buf i1 -> is_buf i2 -> quiet s' L'.
Proof using.
  intros [Hok Hun Hfw] Hok' F1 F2 F3 R1 R2 B1 B2. split; [done| |]; intros j Hj;
    (destruct (decide (j = i1)) as [->|H1]; [|destruct (decide (j = i2)) as [->|H2]]).
  - by eapply same_unlocked.
  - by eapply same_unlocked.
  - eapply same_unlocked; [by apply F3|auto].
  - eapply same_few; [exact F1|]. pose proof (Hfw i1 B1). unfold few in *. cbn. lia.
  - eapply same_few; [exact F2|]. pose proof (Hfw i2 B2). unfold few in *. cbn. lia.
  - eapply same_few; [by apply F3|auto].
Qed.

(** A block pinned before is pinned after, where the buffer kept a reference. *)
Lemma pinned_released s s' b b' i x :
  same_buf (getb s' i) (brelse_buf x) -> holds dev b x -> b_valid x <> 0 -> b_refcnt x <> 1 ->
  (b_refcnt (getb s i) <> 0 -> holds dev b (getb s i)) -> pinned_at s b' i -> pinned_at s' b' i.
Proof using.
  intros (E1 & E2 & E3 & _ & E5 & _)%same_buf_fields [H1 H2] Hv Hr Hold (Hi & Hh & Hr0 & _).
  destruct (Hold Hr0) as [_ Hb]. destruct Hh as [_ Hb']. cbn in *.
  split; [done|]. split; [split; congruence|]. split; [lia|congruence].
Qed.

(** The end of an iteration of write_log: the data of [i2] goes to [i1], which is
    written; both are released. *)
Definition copy_to_first (i1 i2 : Z) : M bio unit :=
  data <- mget i2 b_data ;;
  bset_data i1 data ;;
  bwrite i1 ;;
  (brelse i2 ;;
   brelse i1).

Lemma in_use_set_data pid b d x : in_use dev pid b x -> in_use dev pid b (set_data d x).
Proof using. by intros [[? ?] [? ?] ?]. Qed.

Lemma copy_to_first_run s L lb b i1 i2 s2 :
  quiet s L -> lb <> b -> two_read s lb b i1 i2 s2 L ->
  exists s' L' ws, copy_to_first i1 i2 c s2 = Done tt (woken ws c) s' /\ quiet s' L' /\ kept s s' /\
    wrote s [(lb, content dev s b)] s'.
Proof using Hdev Hc Hl.
  intros Hq Hlb [T1 T2 T3 T4 T5 T6 T7 T8 T9 T10 T11 T12 T13 T14 T15 T16 T17 T18].
  pose proof Hq as [Hok _ _].
  pose proof (bk_ref _ _ _ (bc_buf _ _ _ Hok i1 T2)) as Hr1.
  pose proof (bk_ref _ _ _ (bc_buf _ _ _ Hok i2 T3)) as Hr2.
  unfold copy_to_first, mget. krun. rewrite T8.
  destruct (set_data_step dev Hdev c s2 L i1 lb (content dev s b) T1 T2 T5)
    as (s3 & R3 & Ok3 & G3 & O3 & C3 & D3 & W3); [lia|by eapply length_content|]. kstep R3.
  destruct (bwrite_step dev Hdev c Hc Hl s3 L i1 lb Ok3 T2) as (s4 & R4 & Ok4 & G4 & C4 & D4 & W4);
    [rewrite G3; by apply in_use_set_data|].
  kstep R4. rewrite G3 in D4, W4. cbn [set_data b_data] in D4, W4.
  assert (getb s4 i2 = getb s2 i2) as G42 by (by rewrite G4, O3).
  assert (getb s4 i1 = set_data (content dev s b) (getb s2 i1)) as G41 by (by rewrite G4, G3).
  destruct (release_two s4 L b lb i2 i1 Ok4 T3 T2) as (s6 & L6 & R6 & Ok6 & F2 & F1 & F3 & C6 & D6 & W6);
    rewrite ?G42, ?G41; try done; try (cbn; lia).
  { by apply in_use_set_data. }
  { rewrite T10, T8, D4, D3, T17. intros E. unfold blk. rewrite lookup_insert_ne by congruence.
    apply T14. lia. }
  { intros _. rewrite D4. cbn. unfold blk. by rewrite lookup_insert_eq. }
  rewrite G42 in F2. rewrite G41 in F1.
  assert (forall j, j <> i1 -> j <> i2 -> same_buf (getb s6 j) (getb s j)) as F3'.
  { intros j Hj1 Hj2. rewrite (F3 j Hj2 Hj1), G4, O3, T15 by done. done. }
  exists s6, L6, [ChBuf i2; ChBuf i1]. split; [exact R6|].
  split; [eapply (quiet_two s L s6 L6 i1 i2); eauto; cbn; lia|]. split; [|split].
  - split.
    + intros j Hj. destruct (decide (j = i1)) as [->|H1]; [|destruct (decide (j = i2)) as [->|H2]].
      * apply same_buf_fields in F1 as (_ & _ & _ & _ & -> & _). cbn. lia.
      * apply same_buf_fields in F2 as (_ & _ & _ & _ & -> & _). cbn. lia.
      * by apply (same_buf_fields _ _ (F3' j H1 H2)).
    + intros b' j Hj. pose proof Hj as (_ & _ & Hjr & _).
      destruct (decide (j = i1)) as [->|H1]; [|destruct (decide (j = i2)) as [->|H2]].
      * eapply (pinned_released s s6 lb); [exact F1|apply T5|apply T5|cbn; lia|done|done].
      * eapply (pinned_released s s6 b); [exact F2|apply T6|apply T6|lia|done|done].
      * eapply same_pinned; [by apply F3'|done].
  - by rewrite W6, W4, W3, T18.
  - by rewrite D6, D4, D3, T17.
  - intros b'. by rewrite C6, C4, C3, T16.
Qed.

(** The end of an iteration of install_trans: the data of [i1] goes to [i2], which is
    written and, after a commit, unpinned. *)
Definition copy_to_second (recovering : bool) (i1 i2 : Z) : M bio unit :=
  data <- mget i1 b_data ;;
  bset_data i2 data ;;
  bwrite i2 ;;
  when (negb recovering) (bunpin i2) ;;
  (brelse i1 ;;
   brelse i2).

(** Buffer [j] has block [b] and references. *)
Definition refs_block (s : bio) (b j : Z) : bool :=
  (b_dev (getb s j) =? dev) && (b_blockno (getb s j) =? b) && negb (b_refcnt (getb s j) =? 0).

(** As [kept], with one reference of block [b]'s buffer given up unless recovering. *)
Record unpinned (recovering : bool) (b : Z) (s s' : bio) : Prop := {
  up_ref : forall j, is_buf j ->
    b_refcnt (getb s' j) = b_refcnt (getb s j) - (if negb recovering && refs_block s b j then 1 else 0);
  up_block : forall j, is_buf j -> b_refcnt (getb s' j) <> 0 ->
    b_dev (getb s' j) = b_dev (getb s j) /\ b_blockno (getb s' j) = b_blockno (getb s j);
  up_pin : forall b' i, pinned_at s b' i -> recovering = true \/ b' <> b -> pinned_at s' b' i;
}.

Lemma unpinned_spare recovering b s s' :
  (forall i, is_buf i -> 0 <= b_refcnt (getb s' i)) -> unpinned recovering b s s' -> spare s -> spare s'.
Proof using.
  intros Hpos [A _] (i & Hi & Hr). exists i. split; [done|]. specialize (A i Hi). specialize (Hpos i Hi).
  destruct (negb recovering && refs_block s b i); lia.
Qed.

Lemma copy_to_second_run recovering s L lb b i1 i2 s2 :
  quiet s L -> lb <> b -> two_read s lb b i1 i2 s2 L ->
  (recovering = false -> b_refcnt (getb s i2) <> 0) ->
  exists s' L' ws, copy_to_second recovering i1 i2 c s2 = Done tt (woken ws c) s' /\ quiet s' L' /\
    unpinned recovering b s s' /\
    wrote s [(b, content dev s lb)] s'.
Proof using Hdev Hc Hl.
  intros Hq Hlb [T1 T2 T3 T4 T5 T6 T7 T8 T9 T10 T11 T12 T13 T14 T15 T16 T17 T18] Hpin.
  pose proof Hq as [Hok _ _].
  pose proof (bk_ref _ _ _ (bc_buf _ _ _ Hok i1 T2)) as Hr1.
  pose proof (bk_ref _ _ _ (bc_buf _ _ _ Hok i2 T3)) as Hr2.
  unfold copy_to_second, mget. krun. rewrite T7.
  destruct (set_data_step dev Hdev c s2 L i2 b (content dev s lb) T1 T3 T6)
    as (s3 & R3 & Ok3 & G3 & O3 & C3 & D3 & W3); [lia|by eapply length_content|]. kstep R3.
  destruct (bwrite_step dev Hdev c Hc Hl s3 L i2 b Ok3 T3) as (s4 & R4 & Ok4 & G4 & C4 & D4 & W4);
    [rewrite G3; by apply in_use_set_data|].
  kstep R4. rewrite G3 in D4, W4. cbn [set_data b_data] in D4, W4.
  set (r := if recovering then b_refcnt (getb s i2) + 1 else b_refcnt (getb s i2)).
  assert (exists s5, when (negb recovering) (bunpin i2) c s4 = Done tt c s5 /\ bcache_ok dev s5 L /\
    getb s5 i2 = set_refcnt r (set_data (content dev s lb) (getb s2 i2)) /\
    (forall j, j <> i2 -> getb s5 j = getb s4 j) /\
    (forall b', content dev s5 b' = content dev s4 b') /\ disk s5 = disk s4 /\ writes s5 = writes s4)
    as (s5 & R5 & Ok5 & G5 & O5 & C5 & D5 & W5).
  { destruct recovering; cbn [negb when].
    - exists s4. split; [done|]. split; [done|]. split; [|done]. rewrite G4, G3. unfold r. rewrite <- T10.
      by destruct (getb s2 i2).
    - destruct (bunpin_step dev Hdev c Hc Hl s4 L i2 b Ok4 T3) as (s5 & R5 & Ok5 & G5 & O5 & C5 & D5 & W5).
      { rewrite G4, G3. by apply in_use_set_data. }
      { rewrite G4, G3. cbn. rewrite T10. specialize (Hpin eq_refl). lia. }
      exists s5. split; [done|]. split; [done|]. split; [|done]. rewrite G5, G4, G3. cbn [set_data b_refcnt].
      f_equal. unfold r. lia. }
  kstep R5.
  assert (getb s5 i1 = getb s2 i1) as G51 by (by rewrite O5, G4, O3).
  assert (1 <= r <= b_refcnt (getb s i2) + 1) as Hr.
  { unfold r. destruct recovering; [lia|]. specialize (Hpin eq_refl). lia. }
  destruct (release_two s5 L lb b i1 i2 Ok5 T2 T3) as (s6 & L6 & R6 & Ok6 & F1 & F2 & F3 & C6 & D6 & W6);
    rewrite ?G51, ?G5; try done; try (cbn; lia).
  { by destruct T6 as [[? ?] [? ?] ?]. }
  { rewrite T9, T7, D5, D4, D3, T17. intros E. unfold blk. rewrite lookup_insert_ne by congruence.
    apply T13. lia. }
  { intros _. rewrite D5, D4. cbn. unfold blk. by rewrite lookup_insert_eq. }
  rewrite G51 in F1. rewrite G5 in F2.
  assert (forall j, j <> i1 -> j <> i2 -> same_buf (getb s6 j) (getb s j)) as F3'.
  { intros j Hj1 Hj2. rewrite (F3 j Hj1 Hj2), O5, G4, O3, T15 by done. done. }
  pose proof (same_buf_fields _ _ F1) as (_ & _ & _ & _ & Q1 & _).
  pose proof (same_buf_fields _ _ F2) as (_ & _ & _ & _ & Q2 & _). cbn in Q1, Q2.
  exists s6, L6, [ChBuf i1; ChBuf i2]. split; [exact R6|].
  split; [eapply (quiet_two s L s6 L6 i1 i2); eauto; cbn; lia|]. split; [|split].
  - split.
    + intros j Hj. unfold refs_block. destruct (decide (j = i1)) as [->|H1].
      { rewrite Q1. zcase (b_refcnt (getb s i1) =? 0) as E0; [rewrite !andb_false_r; lia|].
        destruct (T11 E0) as [_ ->]. zcase (lb =? b); [done|]. rewrite andb_false_r, andb_false_r. lia. }
      destruct (decide (j = i2)) as [->|H2].
      { rewrite Q2. unfold r. destruct recovering; cbn [negb andb]; [lia|]. specialize (Hpin eq_refl).
        destruct (T12 Hpin) as [-> ->]. rewrite !Z.eqb_refl. zcase (b_refcnt (getb s i2) =? 0); [done|]. cbn. lia. }
      destruct (same_buf_fields _ _ (F3' j H1 H2)) as (_ & _ & _ & _ & -> & _).
      destruct recovering; cbn [negb andb]; [lia|]. specialize (Hpin eq_refl). destruct (T12 Hpin) as [E1 E2].
      zcase (b_dev (getb s j) =? dev) as Ed; [|cbn; lia]. zcase (b_blockno (getb s j) =? b) as Eb; [|cbn; lia].
      destruct H2. apply (bc_uniq _ _ _ Hok); congruence.
    + intros j Hj Hjr. destruct (decide (j = i1)) as [->|H1]; [|destruct (decide (j = i2)) as [->|H2]].
      * destruct (same_buf_fields _ _ F1) as (_ & -> & -> & _). destruct T5 as [[A1 A2] _ _]. cbn.
        destruct (T11 ltac:(lia)) as [B1 B2]. split; congruence.
      * destruct (same_buf_fields _ _ F2) as (_ & -> & -> & _). destruct T6 as [[A1 A2] _ _]. cbn.
        destruct (T12 ltac:(lia)) as [B1 B2]. split; congruence.
      * by destruct (same_buf_fields _ _ (F3' j H1 H2)) as (_ & -> & -> & _).
    + intros b' j Hj Hor. pose proof Hj as (_ & Hjh & Hjr & _).
      destruct (decide (j = i1)) as [->|H1]; [|destruct (decide (j = i2)) as [->|H2]].
      * eapply (pinned_released s s6 lb); [exact F1|apply T5|apply T5|lia|done|done].
      * eapply (pinned_released s s6 b); [exact F2|apply T6|apply T6| |done|done]. cbn. unfold r.
        destruct recovering; [lia|]. destruct Hor as [?|Hbb]; [done|].
        destruct (T12 Hjr) as [_ E]. destruct Hjh as [_ E']. congruence.
      * eapply same_pinned; [by apply F3'|done].
  - by rewrite W6, W5, W4, W3, T18.
  - by rewrite D6, D5, D4, D3, T17.
  - intros b'. by rewrite C6, C5, C4, C3, T16.
Qed.

(** ** One block: read, change, write, release *)

Lemma quiet_one s L s' L' i x :
  quiet s L -> bcache_ok dev s' L' -> same_buf (getb s' i) (brelse_buf x) ->
  (forall j, j <> i -> same_buf (getb s' j) (getb s j)) ->
  b_refcnt x = b_refcnt (getb s i) + 1 -> is_buf i -> quiet s' L'.
Proof using.
  intros Hq Hok F1 F3 R1 B1. eapply (quiet_two s L s' L' i i x x); eauto; lia.
Qed.

Lemma kept_one s s' b i x :
  same_buf (getb s' i) (brelse_buf x) -> (forall j, j <> i -> same_buf (getb s' j) (getb s j)) ->
  b_refcnt x = b_refcnt (getb s i) + 1 -> holds dev b x -> b_valid x <> 0 ->
  (b_refcnt (getb s i) <> 0 -> holds dev b (getb s i)) -> kept s s'.
Proof using.
  intros F1 F3 R1 Hh Hv Hold. split.
  - intros j Hj. destruct (decide (j = i)) as [->|Hne].
    + apply same_buf_fields in F1 as (_ & _ & _ & _ & -> & _). cbn. lia.
    + by apply (same_buf_fields _ _ (F3 j Hne)).
  - intros b' j Hj. pose proof Hj as (_ & _ & Hjr & _). destruct (decide (j = i)) as [->|Hne].
    + eapply (pinned_released s s' b); [exact F1|done|done|lia|done|done].
    + eapply same_pinned; [by apply F3|done].
Qed.

(** Reading a block and releasing it. *)
Lemma read_block_run s L b :
  quiet s L -> spare s ->
  exists i s1, bread dev b c s = Done i c s1 /\ b_data (getb s1 i) = content dev s b /\
    exists s' L', brelse i c s1 = Done tt (woken [ChBuf i] c) s' /\ quiet s' L' /\ kept s s' /\
      wrote s [] s'.
Proof using Hdev Hc Hl.
  intros Hq Hsp. pose proof Hq as [Hok Hun Hfw].
  destruct (target_exists dev Hdev s L b Hok (or_intror Hsp)) as [i Ht].
  pose proof (target_buf dev Hdev s L b i Hok Ht) as [Hi _].
  pose proof (bk_ref _ _ _ (bc_buf _ _ _ Hok i Hi)) as Hr0.
  destruct (bread_step dev Hdev c Hc Hl s L b i Hok Ht (Hun i Hi) (Hfw i Hi))
    as (s1 & R1 & Ok1 & _ & U1 & D1 & Rf1 & Old & Cl & O1 & C1 & Dk1 & W1).
  exists i, s1. split; [done|]. split; [done|].
  destruct (brelse_step dev c Hc Hl s1 L i b Ok1 Hi U1) as (s2 & L2 & R2 & Ok2 & G2 & O2 & C2 & D2 & W2).
  { lia. } { intros E. rewrite D1, Dk1. apply Cl. lia. }
  exists s2, L2. split; [done|].
  assert (forall j, j <> i -> same_buf (getb s2 j) (getb s j)) as F3
    by (intros j Hj; rewrite (O2 j Hj), O1 by done; done).
  split; [by eapply quiet_one|]. split; [eapply kept_one; eauto; apply U1|].
  split; [by rewrite W2, W1, app_nil_r|by rewrite D2, Dk1|]. intros b'. by rewrite C2, C1.
Qed.

(** Writing new data to a block. *)
Definition store_block (i : Z) (d : list Z) : M bio unit :=
  bset_data i d ;; bwrite i ;; brelse i.

Lemma write_block_run s L b :
  quiet s L -> spare s ->
  exists i s1, bread dev b c s = Done i c s1 /\ b_data (getb s1 i) = content dev s b /\
    forall d, length d = 1024%nat ->
    exists s' L', store_block i d c s1 = Done tt (woken [ChBuf i] c) s' /\ quiet s' L' /\ kept s s' /\
      wrote s [(b, d)] s'.
Proof using Hdev Hc Hl.
  intros Hq Hsp. pose proof Hq as [Hok Hun Hfw].
  destruct (target_exists dev Hdev s L b Hok (or_intror Hsp)) as [i Ht].
  pose proof (target_buf dev Hdev s L b i Hok Ht) as [Hi _].
  pose proof (bk_ref _ _ _ (bc_buf _ _ _ Hok i Hi)) as Hr0.
  destruct (bread_step dev Hdev c Hc Hl s L b i Hok Ht (Hun i Hi) (Hfw i Hi))
    as (s1 & R1 & Ok1 & _ & U1 & D1 & Rf1 & Old & Cl & O1 & C1 & Dk1 & W1).
  exists i, s1. split; [done|]. split; [done|]. intros d Hd.
  destruct (set_data_step dev Hdev c s1 L i b d Ok1 Hi U1) as (s2 & R2 & Ok2 & G2 & O2 & C2 & D2 & W2);
    [lia|done|].
  destruct (bwrite_step dev Hdev c Hc Hl s2 L i b Ok2 Hi) as (s3 & R3 & Ok3 & G3 & C3 & D3 & W3);
    [rewrite G2; by apply in_use_set_data|].
  rewrite G2 in D3, W3. cbn [set_data b_data] in D3, W3.
  assert (getb s3 i = set_data d (getb s1 i)) as G31 by (by rewrite G3, G2).
  destruct (brelse_step dev c Hc Hl s3 L i b Ok3 Hi) as (s4 & L4 & R4 & Ok4 & G4 & O4 & C4 & D4 & W4);
    rewrite ?G31; [by apply in_use_set_data|cbn; lia| |].
  { intros _. cbn. rewrite D3. unfold blk. by rewrite lookup_insert_eq. }
  rewrite G31 in G4. exists s4, L4. split; [unfold store_block; kstep R2; kstep R3; done|].
  assert (forall j, j <> i -> same_buf (getb s4 j) (getb s j)) as F3
    by (intros j Hj; rewrite (O4 j Hj), G3, O2, O1 by done; done).
  split; [by eapply quiet_one|]. split; [eapply kept_one; eauto; apply U1|].
  split; [by rewrite W4, W3, W2, W1|by rewrite D4, D3, D2, Dk1|]. intros b'. by rewrite C4, C3, C2, C1.
Qed.

End Thread.
End LogProps.

(** ** The header block *)

Lemma s32_u32_small x : -2147483648 <= x < 2147483648 -> s32 (u32 x) = x.
Proof. intros H. unfold s32, u32. dlia. Qed.

Lemma zlen_block (d : list Z) : length d = 1024%nat -> zlen d = 1024.
Proof. unfold zlen. by intros ->. Qed.

Lemma length_hdr_set_block d i b :
  length d = 1024%nat -> 0 <= i < LOGSIZE -> length (hdr_set_block d i b) = 1024%nat.
Proof.
  intros Hd Hi. unfold hdr_set_block, LOGSIZE, MAXOPBLOCKS in *. rewrite length_putn; [done|lia|].
  rewrite zlen_block by done. lia.
Qed.

Lemma length_hdr_set_n d n : length d = 1024%nat -> length (hdr_set_n d n) = 1024%nat.
Proof. intros Hd. unfold hdr_set_n. rewrite length_putn; [done|lia|]. rewrite zlen_block by done. lia. Qed.

Lemma hdr_fill_length k i block d :
  length d = 1024%nat -> 0 <= i -> i + Z.of_nat k <= LOGSIZE -> length (hdr_fill k i block d) = 1024%nat.
Proof.
  revert i d. induction k as [|k IH]; intros i d Hd Hi Hk; simpl; [done|].
  apply IH; [apply length_hdr_set_block; [done|lia]|lia|lia].
Qed.

Lemma hdr_fill_n k i block d :
  length d = 1024%nat -> 0 <= i -> i + Z.of_nat k <= LOGSIZE -> hdr_n (hdr_fill k i block d) = hdr_n d.
Proof.
  revert i d. induction k as [|k IH]; intros i d Hd Hi Hk; simpl; [done|].
  rewrite IH; [|apply length_hdr_set_block; [done|lia]|lia|lia].
  unfold hdr_n, hdr_set_block, LOGSIZE, MAXOPBLOCKS in *. f_equal.
  apply getn_putn_ne; [lia|rewrite zlen_block by done; lia|lia|lia].
Qed.

Lemma hdr_fill_block k i block d j :
  length d = 1024%nat -> 0 <= i -> i + Z.of_nat k <= LOGSIZE -> 0 <= j < LOGSIZE ->
  hdr_block (hdr_fill k i block d) j =
  if (i <=? j) && (j <? i + Z.of_nat k) then s32 (u32 (znth 0 block j)) else hdr_block d j.
Proof.
  revert i d. induction k as [|k IH]; intros i d Hd Hi Hk Hj.
  - simpl. zcase (i <=? j); zcase (j <? i + Z.of_nat 0); simpl; done || lia.
  - cbn [hdr_fill]. rewrite IH; [|apply length_hdr_set_block; [done|lia]|lia|lia|done].
    unfold hdr_block, hdr_set_block. unfold LOGSIZE, MAXOPBLOCKS in *.
    destruct (decide (j = i)) as [->|Hne].
    + zcase (i + 1 <=? i); zcase (i <=? i); zcase (i <? i + Z.of_nat (S k)); try lia. cbn [andb].
      f_equal. apply getn_putn_eq; [lia|rewrite zlen_block by done; lia|].
      pose proof (u32_range (znth 0 block i)). simpl. lia.
    + rewrite getn_putn_ne; [|lia|rewrite zlen_block by done; lia|lia|lia].
      zcase (i + 1 <=? j); zcase (j <? i + 1 + Z.of_nat k); zcase (i <=? j); zcase (j <? i + Z.of_nat (S k));
        simpl; done || lia.
Qed.

Lemma hdr_n_set_n d n :
  length d = 1024%nat -> -2147483648 <= n < 2147483648 -> hdr_n (hdr_set_n d n) = n.
Proof.
  intros Hd Hn. unfold hdr_n, hdr_set_n. rewrite getn_putn_eq; [by apply s32_u32_small|lia| |].
  - rewrite zlen_block by done. lia.
  - pose proof (u32_range n). simpl. lia.
Qed.
