(* ===== verification/LogLoops.v ===== *)
(** * The log: its loops and the commit

    What write_log, write_head, install_trans and recovery do to a quiet cache, as the
    sequence of disk writes they issue. *)
From S2P Require Import Prelude Bytes Machine Sleeplock Bio BioProps BioSpec BioSteps Log LogProps.

Lemma cache_when b (m : M bio unit) c s a c' b' :
  when b m c (l_bio s) = Done a c' b' -> when b (cache m) c s = Done a c' (LState (l_log s) b').
Proof.
  destruct b; cbn [when]; [apply cache_done|]. intros [= <- <- <-]. by destruct s.
Qed.

(** Run the calls of the cache of which [H] says that their sequence returns. *)
Ltac cache_step H :=
  let a := fresh "a" in let c1 := fresh "c" in let s1 := fresh "s" in let H1 := fresh "R" in
  apply bind_done_inv in H; destruct H as (a & c1 & s1 & H1 & H);
  erewrite bind_done; [|apply cache_done; exact H1]; cbn [l_log l_bio].

Section LogLoops.
Context (dev : Z) (Hdev : dev <> 0).

(** The geometry of the log, and the blocks of the transaction: distinct blocks outside
    the log. *)
Record log_geom (l : logst) : Prop := {
  lg_dev_eq : lg_dev l = dev;
  lg_start_range : 0 <= lg_start l < 1073741824;
  lg_len : length (lg_block l) = 30%nat;
  lg_size_pos : 0 < lg_size l;
}.

Definition in_log (l : logst) (b : Z) : Prop := lg_start l <= b < lg_start l + lg_size l.

(** The blocks of the transaction. *)
Definition tx (l : logst) : list Z := take (Z.to_nat (lg_n l)) (lg_block l).

Record tx_ok (l : logst) : Prop := {
  tx_n : 0 <= lg_n l <= LOGSIZE;
  tx_range : forall b, b ∈ tx l -> 0 <= b < 2147483648;
  tx_out : forall b, b ∈ tx l -> ~ in_log l b;
  tx_nodup : NoDup (tx l);
  tx_cap : lg_n l < lg_size l;
}.

Lemma length_tx l : log_geom l -> tx_ok l -> length (tx l) = Z.to_nat (lg_n l).
Proof using.
  intros [_ _ Hlen _] [Hn _ _ _ _]. unfold tx. rewrite length_take, Hlen.
  unfold LOGSIZE, MAXOPBLOCKS in *. lia.
Qed.

Lemma znth_tx l i : log_geom l -> tx_ok l -> 0 <= i < lg_n l -> znth 0 (lg_block l) i ∈ tx l.
Proof using.
  intros [_ _ Hlen _] [Hn _ _ _ _] Hi. unfold LOGSIZE, MAXOPBLOCKS in *.
  destruct (lg_block l !! Z.to_nat i) as [x|] eqn:E.
  - rewrite (znth_lookup 0 _ i x) by (lia || done). unfold tx.
    apply list_elem_of_lookup. exists (Z.to_nat i). rewrite lookup_take_lt by lia. done.
  - apply lookup_ge_None in E. lia.
Qed.

Lemma drop_tx l i :
  log_geom l -> tx_ok l -> 0 <= i < lg_n l ->
  drop (Z.to_nat i) (tx l) = znth 0 (lg_block l) i :: drop (Z.to_nat (i + 1)) (tx l).
Proof using.
  intros Hg Ht Hi. pose proof (length_tx l Hg Ht) as Hlt. destruct Hg as [_ _ Hlen].
  assert (tx l !! Z.to_nat i = Some (znth 0 (lg_block l) i)) as E.
  { unfold tx. rewrite lookup_take_lt by lia. destruct (lg_block l !! Z.to_nat i) as [x|] eqn:E.
    - by rewrite (znth_lookup 0 _ i x) by (lia || done).
    - apply lookup_ge_None in E. destruct Ht. unfold LOGSIZE, MAXOPBLOCKS in *. lia. }
  rewrite (drop_S _ _ _ E). do 2 f_equal. lia.
Qed.

Section Loops.
Context (c0 : ctx) (Hc0 : steady c0) (Hl0 : no_bio_locks c0).
Context (l : logst) (Hg : log_geom l) (Ht : tx_ok l).

Lemma write_log_loop_run k ws0 tail s L :
  quiet dev s L -> spare s -> (forall b, b ∈ tx l -> pinned dev s b) ->
  Z.of_nat k = lg_n l - tail -> 0 <= tail ->
  exists s' L' ws, write_log_loop k tail (woken ws0 c0) (LState l s) = Done tt (woken ws c0) (LState l s') /\
    quiet dev s' L' /\ kept dev s s' /\
    wrote dev s (log_copies (lg_start l + 1 + tail) (content dev s <$> drop (Z.to_nat tail) (tx l))) s'.
Proof using Hdev Hc0 Hl0 Hg Ht.
  revert ws0 tail s L. induction k as [|k IH]; intros ws0 tail s L Hq Hsp Hpin Hk Htail; cbn [write_log_loop];
    unfold mlog; krun; cbn [l_log].
  - zcase (tail <? lg_n l); [lia|]. exists s, L, ws0. split; [done|]. split; [done|].
    split; [apply kept_refl|]. rewrite drop_ge by (rewrite (length_tx l Hg Ht); lia). apply wrote_nil.
  - zcase (tail <? lg_n l) as Elt; [|lia]. unfold mlog. krun. cbn [l_log].
    pose proof (znth_tx l tail Hg Ht ltac:(lia)) as Hin. set (b := znth 0 (lg_block l) tail) in *.
    pose proof (tx_range _ Ht b Hin) as Hbr. pose proof (tx_out _ Ht b Hin) as Hbo.
    pose proof (lg_start_range _ Hg) as Hst. pose proof (tx_n _ Ht) as Hn. pose proof (tx_cap _ Ht) as Hcap.
    rewrite (lg_dev_eq _ Hg). unfold in_log, LOGSIZE, MAXOPBLOCKS in *.
    rewrite (u32_small (lg_start l + tail + 1)) by lia.
    set (c := woken ws0 c0).
    assert (steady c) as Hc by (by apply steady_woken). assert (no_bio_locks c) as Hl by (by apply no_bio_locks_woken).
    destruct (two_read_run dev Hdev c Hc Hl s L (lg_start l + tail + 1) b Hq) as (i1 & i2 & s1 & s2 & R1 & R2 & Htr);
      [lia|done|left; auto|].
    destruct (copy_to_first_run dev Hdev c Hc Hl s L (lg_start l + tail + 1) b i1 i2 s2 Hq ltac:(lia) Htr)
      as (s3 & L3 & ws3 & R3 & Hq3 & Hk3 & Hw3).
    erewrite bind_done; [|apply cache_done; exact R1]. krun. cbn [l_log]. fold b. rewrite (u32_small b) by lia.
    erewrite bind_done; [|apply cache_done; exact R2]. cbn [l_log].
    unfold copy_to_first in R3. do 4 cache_step R3. erewrite bind_done; [|apply cache_done; exact R3]. cbn [l_log].
    destruct (IH (ws0 ++ ws3) (tail + 1) s3 L3 Hq3) as (s' & L' & ws & Hrun & Hq' & Hk' & Hw').
    + by eapply kept_spare.
    + intros b' Hb'. eapply kept_pinned; eauto.
    + lia.
    + lia.
    + exists s', L', ws. unfold c. rewrite woken_woken. split; [exact Hrun|]. split; [done|].
      split; [by eapply kept_trans|]. rewrite (drop_tx l tail Hg Ht) by lia. fold b. cbn [fmap list_fmap log_copies].
      pose proof (wrote_trans dev _ _ _ _ _ Hw3 Hw') as Hw. cbn [app] in Hw.
      replace (lg_start l + tail + 1) with (lg_start l + 1 + tail) in Hw by lia.
      replace (lg_start l + 1 + (tail + 1)) with (lg_start l + 1 + tail + 1) in Hw by lia.
      assert (content dev s3 <$> drop (Z.to_nat (tail + 1)) (tx l) =
              content dev s <$> drop (Z.to_nat (tail + 1)) (tx l)) as Hc3; [|by rewrite Hc3 in Hw].
      apply list_fmap_ext. intros j x Hx.
      assert (x ∈ tx l) as Hxt by (rewrite lookup_drop in Hx; by eapply list_elem_of_lookup_2).
      rewrite (wr_content _ _ _ _ Hw3). apply over_notin. simpl. rewrite list_elem_of_singleton.
      pose proof (tx_out _ Ht x Hxt) as Hxo. unfold in_log in Hxo. unfold LOGSIZE, MAXOPBLOCKS in *. lia.
Qed.
(** ** install_trans *)

(** The home blocks [bl], from the log blocks at [a] on. *)
Fixpoint installs (f : Z -> list Z) (a : Z) (bl : list Z) : list (Z * list Z) :=
  match bl with
  | [] => []
  | b :: bl' => (b, f a) :: installs f (a + 1) bl'
  end.

Lemma installs_ext f g a bl :
  (forall i, a <= i < a + zlen bl -> f i = g i) -> installs f a bl = installs g a bl.
Proof using.
  revert a. induction bl as [|b bl IH]; intros a H; simpl; [done|]. unfold zlen in H. simpl in H. f_equal.
  - f_equal. apply H. lia.
  - apply IH. intros i Hi. apply H. unfold zlen in Hi. lia.
Qed.

(** The references after the blocks [bl] were unpinned. *)
Definition unpin_count (recovering : bool) (s : bio) (bl : list Z) (j : Z) : Z :=
  if negb recovering && existsb (fun b => refs_block dev s b j) bl then 1 else 0.

(** Every buffer is free, or the blocks still to install are pinned. *)
Definition installable (recovering : bool) (s : bio) (bl : list Z) : Prop :=
  if recovering then forall j, is_buf j -> b_refcnt (getb s j) = 0
  else forall b, b ∈ bl -> pinned dev s b.

Lemma installable_second recovering s L lb bl b :
  quiet dev s L -> installable recovering s bl -> b ∈ bl ->
  (pinned dev s b \/ exists j, is_buf j /\ b_refcnt (getb s j) = 0 /\ target dev s L lb <> Some j).
Proof using.
  intros Hq Hi Hb. destruct recovering; [right|left; by apply Hi].
  assert (is_buf 0 /\ is_buf 1) as [B0 B1] by (unfold is_buf, NBUF, MAXOPBLOCKS; lia).
  destruct (decide (target dev s L lb = Some 0)) as [E|E].
  - exists 1. split; [done|]. split; [by apply Hi|]. rewrite E. congruence.
  - exists 0. split; [done|]. split; [by apply Hi|done].
Qed.

Lemma refs_block_cons recovering s s' b bl j :
  unpinned dev recovering b s s' -> is_buf j -> (b ∉ bl) -> recovering = false ->
  (forall b', b' ∈ bl -> pinned dev s b') -> (exists L, bcache_ok dev s L) ->
  existsb (fun b' => refs_block dev s' b' j) bl = existsb (fun b' => refs_block dev s b' j) bl.
Proof using.
  intros [A B C] Hj Hb -> Hpin [L Hok]. apply eq_true_iff_eq. rewrite !existsb_exists.
  assert (forall x y, refs_block dev x y j = true <-> b_dev (getb x j) = dev /\ b_blockno (getb x j) = y /\ b_refcnt (getb x j) <> 0) as Href.
  { intros x y. unfold refs_block. rewrite !andb_true_iff, negb_true_iff, !Z.eqb_eq, Z.eqb_neq. tauto. }
  assert (forall b', b' ∈ bl -> refs_block dev s b' j = true <-> refs_block dev s' b' j = true) as Hiff.
  { intros b' Hb'. rewrite !Href. assert (b' <> b) as Hne by congruence. split.
    - intros (E1 & E2 & E3). destruct (Hpin b' Hb') as (i & Hp). pose proof Hp as (Hi & [F1 F2] & _).
      assert (i = j) as -> by (apply (bc_uniq _ _ _ Hok); congruence).
      destruct (C b' j Hp (or_intror Hne)) as (_ & [G1 G2] & G3 & _). done.
    - intros (E1 & E2 & E3). destruct (B j Hj E3) as [F1 F2]. split; [congruence|]. split; [congruence|].
      intros E0. apply E3. rewrite (A j Hj), E0. unfold refs_block. rewrite E0. cbn. by rewrite andb_false_r. }
  split; intros (b' & Hb' & Hr); exists b'; (split; [done|]); apply list_elem_of_In in Hb'; by apply Hiff.
Qed.

Lemma existsb_refs_one s L b bl j :
  bcache_ok dev s L -> refs_block dev s b j = true -> (b ∉ bl) ->
  existsb (fun b' => refs_block dev s b' j) bl = false.
Proof using.
  intros _ Hr Hb. apply not_true_iff_false. rewrite existsb_exists. intros (b' & Hb' & Hr').
  apply Hb. apply list_elem_of_In in Hb'. unfold refs_block in *.
  rewrite !andb_true_iff, !Z.eqb_eq in *. destruct Hr as [[_ <-] _], Hr' as [[_ ->] _]. done.
Qed.

(** One more block unpinned. *)
Lemma unpin_count_cons recovering s L s1 b bl j :
  bcache_ok dev s L -> unpinned dev recovering b s s1 -> is_buf j -> (b ∉ bl) ->
  installable recovering s (b :: bl) ->
  b_refcnt (getb s1 j) - unpin_count recovering s1 bl j =
  b_refcnt (getb s j) - unpin_count recovering s (b :: bl) j.
Proof using.
  intros Hok Hup Hj Hb Hin. rewrite (up_ref _ _ _ _ _ Hup j Hj). unfold unpin_count.
  destruct recovering; cbn [negb andb]; [lia|].
  rewrite (refs_block_cons false s s1 b bl j Hup Hj Hb eq_refl); [|by intros; apply Hin; right|eauto].
  cbn [existsb]. destruct (refs_block dev s b j) eqn:E; cbn [orb]; [|lia].
  rewrite (existsb_refs_one s L b bl j Hok E Hb). lia.
Qed.

Lemma installable_step recovering s s1 b bl :
  unpinned dev recovering b s s1 -> (b ∉ bl) -> installable recovering s (b :: bl) ->
  installable recovering s1 bl.
Proof using.
  intros Hup Hb Hin. destruct recovering; cbn [installable] in *.
  - intros j Hj. rewrite (up_ref _ _ _ _ _ Hup j Hj). cbn. rewrite Hin by done. lia.
  - intros b' Hb'. destruct (Hin b' ltac:(by right)) as [i Hi]. exists i.
    apply (up_pin _ _ _ _ _ Hup b' i Hi). right. congruence.
Qed.

Lemma installable_ref s L s2 lb b i1 i2 recovering bl c :
  two_read dev c s lb b i1 i2 s2 L -> lb <> b -> installable recovering s (b :: bl) ->
  recovering = false -> b_refcnt (getb s i2) <> 0.
Proof using.
  intros Htr Hlb Hin ->. destruct (Hin b ltac:(left)) as (i & Hi & [H1 H2] & Hr & Hv).
  destruct (decide (i = i2)) as [->|Hne]; [done|].
  destruct (iu_holds _ _ _ _ (tr_use2 _ _ _ _ _ _ _ _ _ Htr)) as [E1 E2].
  assert (i <> i1) as Hne1.
  { intros ->. destruct (tr_old1 _ _ _ _ _ _ _ _ _ Htr Hr) as [_ E]. congruence. }
  destruct Hne. pose proof (tr_other _ _ _ _ _ _ _ _ _ Htr i Hne1) as Ho.
  destruct (decide (i = i2)) as [->|Hne2]; [done|]. specialize (Ho Hne2).
  apply (bc_uniq _ _ _ (tr_ok _ _ _ _ _ _ _ _ _ Htr)); [done|apply (tr_2 _ _ _ _ _ _ _ _ _ Htr)|congruence..].
Qed.

Lemma install_trans_loop_run recovering k ws0 tail s L :
  quiet dev s L -> spare s -> installable recovering s (drop (Z.to_nat tail) (tx l)) ->
  Z.of_nat k = lg_n l - tail -> 0 <= tail ->
  exists s' L' ws, install_trans_loop k tail recovering (woken ws0 c0) (LState l s) = Done tt (woken ws c0) (LState l s') /\
    quiet dev s' L' /\
    (forall j, is_buf j -> b_refcnt (getb s' j) =
       b_refcnt (getb s j) - unpin_count recovering s (drop (Z.to_nat tail) (tx l)) j) /\
    wrote dev s (installs (content dev s) (lg_start l + 1 + tail) (drop (Z.to_nat tail) (tx l))) s'.
Proof using Hdev Hc0 Hl0 Hg Ht.
  revert ws0 tail s L. induction k as [|k IH]; intros ws0 tail s L Hq Hsp Hin Hk Htail; cbn [install_trans_loop];
    unfold mlog; krun; cbn [l_log].
  - zcase (tail <? lg_n l); [lia|]. exists s, L, ws0. split; [done|]. split; [done|].
    rewrite drop_ge by (rewrite (length_tx l Hg Ht); lia). split; [|apply wrote_nil].
    intros j _. unfold unpin_count. cbn. rewrite andb_false_r. lia.
  - zcase (tail <? lg_n l) as Elt; [|lia]. unfold mlog. krun. cbn [l_log].
    pose proof (znth_tx l tail Hg Ht ltac:(lia)) as Hbin. set (b := znth 0 (lg_block l) tail) in *.
    pose proof (tx_range _ Ht b Hbin) as Hbr. pose proof (tx_out _ Ht b Hbin) as Hbo.
    pose proof (lg_start_range _ Hg) as Hst. pose proof (tx_n _ Ht) as Hn. pose proof (tx_cap _ Ht) as Hcap.
    rewrite (lg_dev_eq _ Hg). unfold in_log, LOGSIZE, MAXOPBLOCKS in *.
    rewrite (u32_small (lg_start l + tail + 1)) by lia.
    rewrite (drop_tx l tail Hg Ht) in Hin |- * by lia. fold b in Hin |- *.
    set (bl := drop (Z.to_nat (tail + 1)) (tx l)) in *.
    assert (b ∉ bl) as Hbn.
    { pose proof (tx_nodup _ Ht) as Hnd. rewrite <- (take_drop (Z.to_nat tail) (tx l)) in Hnd.
      apply NoDup_app in Hnd as (_ & _ & Hnd). rewrite (drop_tx l tail Hg Ht) in Hnd by lia.
      by apply NoDup_cons in Hnd as [? _]. }
    set (c := woken ws0 c0).
    assert (steady c) as Hc by (by apply steady_woken). assert (no_bio_locks c) as Hl by (by apply no_bio_locks_woken).
    destruct (two_read_run dev Hdev c Hc Hl s L (lg_start l + tail + 1) b Hq) as (i1 & i2 & s1 & s2 & R1 & R2 & Htr);
      [lia|done|eapply installable_second; [done|exact Hin|left]|].
    destruct (copy_to_second_run dev Hdev c Hc Hl recovering s L (lg_start l + tail + 1) b i1 i2 s2 Hq ltac:(lia) Htr)
      as (s3 & L3 & ws3 & R3 & Hq3 & Hup & Hw3); [eapply installable_ref; [exact Htr|lia|exact Hin]|].
    erewrite bind_done; [|apply cache_done; exact R1]. krun. cbn [l_log]. fold b. rewrite (u32_small b) by lia.
    erewrite bind_done; [|apply cache_done; exact R2]. cbn [l_log].
    unfold copy_to_second in R3. do 3 cache_step R3.
    apply bind_done_inv in R3 as (au & cu & su & Ru & R3).
    erewrite bind_done; [|apply cache_when; exact Ru]. cbn [l_log]. cache_step R3. erewrite bind_done; [|apply cache_done; exact R3]. cbn [l_log].
    destruct (IH (ws0 ++ ws3) (tail + 1) s3 L3 Hq3) as (s' & L' & ws & Hrun & Hq' & Hr' & Hw').
    + eapply unpinned_spare; [|exact Hup|done]. intros j Hj. apply (bk_ref _ _ _ (bc_buf _ _ _ (q_ok _ _ _ Hq3) j Hj)).
    + by eapply installable_step.
    + lia.
    + lia.
    + exists s', L', ws. unfold c. rewrite woken_woken. split; [exact Hrun|]. split; [done|]. split.
      * intros j Hj. rewrite Hr' by done. by eapply unpin_count_cons; [apply Hq|..].
      * cbn [installs]. pose proof (wrote_trans dev _ _ _ _ _ Hw3 Hw') as Hw. cbn [app] in Hw. fold bl in Hw.
        replace (lg_start l + tail + 1) with (lg_start l + 1 + tail) in Hw by lia.
        replace (lg_start l + 1 + (tail + 1)) with (lg_start l + 1 + tail + 1) in Hw by lia.
        rewrite (installs_ext (content dev s3) (content dev s)) in Hw; [done|].
        intros i Hi. rewrite (wr_content _ _ _ _ Hw3). apply over_notin. simpl. rewrite list_elem_of_singleton.
        unfold bl, zlen in Hi. rewrite length_drop, (length_tx l Hg Ht) in Hi. lia.
Qed.

End Loops.

(** ** write_head *)

(** The header block for the transaction of [l], over the old header [h]. *)
Definition header (h : list Z) (bl : list Z) : list Z :=
  hdr_fill (length bl) 0 bl (hdr_set_n h (zlen bl)).

Lemma hdr_fill_ext k i bl bl' d :
  (forall j, i <= j < i + Z.of_nat k -> znth 0 bl j = znth 0 bl' j) -> hdr_fill k i bl d = hdr_fill k i bl' d.
Proof using.
  revert i d. induction k as [|k IH]; intros i d H; simpl; [done|].
  rewrite H by lia. apply IH. intros j Hj. apply H. lia.
Qed.

Lemma znth_take (l : list Z) k i : 0 <= i < Z.of_nat k -> znth 0 (take k l) i = znth 0 l i.
Proof using.
  intros Hi. destruct (l !! Z.to_nat i) as [x|] eqn:E.
  - rewrite (znth_lookup 0 l i x) by (lia || done). apply znth_lookup; [lia|].
    by rewrite lookup_take_lt by lia.
  - apply lookup_ge_None in E. rewrite !znth_overflow; [done| |]; unfold zlen; [lia|].
    rewrite length_take. lia.
Qed.

Lemma header_tx l h :
  log_geom l -> tx_ok l ->
  hdr_fill (Z.to_nat (lg_n l)) 0 (lg_block l) (hdr_set_n h (lg_n l)) = header h (tx l).
Proof using.
  intros Hg Ht. unfold header, zlen. rewrite (length_tx l Hg Ht). destruct (tx_n _ Ht).
  rewrite Z2Nat.id by lia. apply hdr_fill_ext. intros j Hj. unfold tx. by rewrite znth_take by lia.
Qed.

Lemma length_header h bl : length h = 1024%nat -> zlen bl <= LOGSIZE -> length (header h bl) = 1024%nat.
Proof using.
  intros Hh Hb. apply hdr_fill_length; [by apply length_hdr_set_n|lia|]. unfold zlen in Hb. lia.
Qed.

Section Head.
Context (c0 : ctx) (Hc0 : steady c0) (Hl0 : no_bio_locks c0).

Lemma write_head_run l ws0 s L :
  log_geom l -> tx_ok l -> quiet dev s L -> spare s ->
  exists s' L' ws, write_head (woken ws0 c0) (LState l s) = Done tt (woken ws c0) (LState l s') /\
    quiet dev s' L' /\ kept dev s s' /\
    wrote dev s [(lg_start l, header (content dev s (lg_start l)) (tx l))] s'.
Proof using Hdev Hc0 Hl0.
  intros Hg Ht Hq Hsp. unfold write_head, mlog. krun. cbn [l_log].
  pose proof (lg_start_range _ Hg). rewrite (lg_dev_eq _ Hg), u32_small by lia. set (c := woken ws0 c0).
  assert (steady c) as Hc by (by apply steady_woken). assert (no_bio_locks c) as Hl by (by apply no_bio_locks_woken).
  destruct (write_block_run dev Hdev c Hc Hl s L (lg_start l) Hq Hsp) as (i & s1 & R1 & D1 & Hst).
  erewrite bind_done; [|apply cache_done; exact R1]. cbn [l_log].
  erewrite bind_done; [|apply cache_done; unfold mget; reflexivity]. krun. cbn [l_log l_bio].
  rewrite D1, (header_tx l _ Hg Ht).
  pose proof (length_content dev Hdev s L (lg_start l) (q_ok _ _ _ Hq)) as Hlen.
  destruct (Hst (header (content dev s (lg_start l)) (tx l))) as (s' & L' & R2 & Hq' & Hk' & Hw').
  { apply length_header; [done|]. unfold zlen. rewrite (length_tx l Hg Ht). destruct (tx_n _ Ht). lia. }
  unfold store_block in R2. do 2 cache_step R2. rewrite (cache_run _ _ _ _ _ _ _ R2). cbn [l_log].
  exists s', L', (ws0 ++ [ChBuf i]). unfold c. by rewrite woken_woken.
Qed.

(** ** read_head *)

(** The blocks that a header names. *)
Definition hdr_list (h : list Z) : list Z := hdr_block h <$> seqZ 0 (hdr_n h).

Lemma read_head_loop_run k i l s h c :
  length (lg_block l) = 30%nat -> lg_n l = hdr_n h -> hdr_n h <= LOGSIZE -> 0 <= i ->
  Z.of_nat k = hdr_n h - i -> (forall j, 0 <= j < i -> znth 0 (lg_block l) j = hdr_block h j) ->
  exists block, read_head_loop k i h c (LState l s) = Done tt c (LState (set_blocks block l) s) /\
    length block = 30%nat /\ (forall j, 0 <= j < hdr_n h -> znth 0 block j = hdr_block h j).
Proof using.
  revert i l. induction k as [|k IH]; intros i l Hlen Hn Hmax Hi Hk Hdone; cbn [read_head_loop];
    unfold mlog; krun; cbn [l_log]; rewrite Hn.
  - zcase (i <? hdr_n h); [lia|]. exists (lg_block l). split; [by destruct l|]. split; [done|].
    intros j Hj. apply Hdone. lia.
  - zcase (i <? hdr_n h); [|lia]. unfold upd_log. krun. cbn [l_log l_bio].
    set (l1 := set_blocks (zupd (lg_block l) i (hdr_block h i)) l).
    destruct (IH (i + 1) l1) as (block & Hrun & Hlen' & Hb); try done; try lia.
    + cbn. by rewrite length_zupd.
    + intros j Hj. cbn. rewrite znth_zupd by (unfold zlen; unfold LOGSIZE, MAXOPBLOCKS in *; lia).
      zcase (i =? j); [by subst|]. apply Hdone. lia.
    + exists block. rewrite Hrun. split; [by destruct l|done].
Qed.

Lemma tx_set_blocks l block h :
  lg_n l = hdr_n h -> length block = 30%nat -> 0 <= hdr_n h <= LOGSIZE ->
  (forall j, 0 <= j < hdr_n h -> znth 0 block j = hdr_block h j) ->
  tx (set_blocks block l) = hdr_list h.
Proof using.
  intros Hn Hlen Hr Hb. unfold tx, hdr_list. cbn. rewrite Hn. unfold LOGSIZE, MAXOPBLOCKS in *.
  apply (zlist_eq 0).
  - rewrite length_take, length_fmap, length_seqZ. lia.
  - intros i. unfold zlen. rewrite length_take. intros Hi.
    rewrite znth_take by lia. rewrite Hb by lia. symmetry. apply znth_lookup; [lia|].
    rewrite list_lookup_fmap, lookup_seqZ_lt by lia. simpl. do 2 f_equal. lia.
Qed.

Lemma read_head_run l ws0 s L :
  log_geom l -> quiet dev s L -> spare s ->
  let h := content dev s (lg_start l) in 0 <= hdr_n h <= LOGSIZE ->
  exists s' L' ws block, read_head (woken ws0 c0) (LState l s) =
      Done tt (woken ws c0) (LState (set_blocks block (set_n (hdr_n h) l)) s') /\
    quiet dev s' L' /\ kept dev s s' /\ wrote dev s [] s' /\ length block = 30%nat /\
    tx (set_blocks block (set_n (hdr_n h) l)) = hdr_list h.
Proof using Hdev Hc0 Hl0.
  intros Hg Hq Hsp h Hn. unfold read_head, mlog. krun. cbn [l_log].
  pose proof (lg_start_range _ Hg). rewrite (lg_dev_eq _ Hg), u32_small by lia. set (c := woken ws0 c0).
  assert (steady c) as Hc by (by apply steady_woken). assert (no_bio_locks c) as Hl by (by apply no_bio_locks_woken).
  destruct (read_block_run dev Hdev c Hc Hl s L (lg_start l) Hq Hsp) as (i & s1 & R1 & D1 & s' & L' & R2 & Hq' & Hk' & Hw').
  erewrite bind_done; [|apply cache_done; exact R1]. cbn [l_log].
  erewrite bind_done; [|apply cache_done; unfold mget; reflexivity]. unfold upd_log. krun. cbn [l_log l_bio].
  rewrite D1. fold h.
  destruct (read_head_loop_run (Z.to_nat (hdr_n h)) 0 (set_n (hdr_n h) l) s1 h c) as (block & Hrun & Hlen & Hb);
    try done; try lia; [apply Hg|].
  kstep Hrun. rewrite (cache_run _ _ _ _ _ _ _ R2). cbn [l_log].
  exists s', L', (ws0 ++ [ChBuf i]), block. unfold c. rewrite woken_woken. do 5 (split; [done|]).
  by apply tx_set_blocks.
Qed.
End Head.
End LogLoops.
