(* ===== verification/LogCrash.v ===== *)
(** * Crashes

    The disk writes of a commit and of recovery, and what a crash between any two of
    them leaves: after recovery the disk shows all of the transaction or none of it. *)
From S2P Require Import Prelude Bytes Bio Log LogProps LogLoops.

Lemma prefix_app_cases {A} (ws a b : list A) :
  ws `prefix_of` a ++ b -> ws `prefix_of` a \/ exists ws', ws = a ++ ws' /\ ws' `prefix_of` b.
Proof.
  revert a. induction ws as [|x ws IH]; intros a H; [left; apply prefix_nil|].
  destruct a as [|y a]; [right; eauto|]. simpl in H.
  pose proof (prefix_cons_inv_1 _ _ _ _ H) as ->. apply prefix_cons_inv_2 in H.
  destruct (IH a H) as [Hp|(ws' & -> & Hp)]; [left; by apply prefix_cons|right; eauto].
Qed.

Lemma fmap_prefix {A B} (f : A -> B) (l k : list A) : l `prefix_of` k -> f <$> l `prefix_of` f <$> k.
Proof. intros [suf ->]. rewrite fmap_app. by apply prefix_app_r. Qed.

Lemma zlen_fmap_seqZ {A} (f : Z -> A) n : 0 <= n -> zlen (f <$> seqZ 0 n) = n.
Proof. intros Hn. unfold zlen. rewrite length_fmap, length_seqZ. lia. Qed.

Lemma elem_of_prefix {A} (l k : list A) x : l `prefix_of` k -> x ∈ l -> x ∈ k.
Proof. intros [suf ->] H. apply elem_of_app. by left. Qed.

(** The writes of a commit: log blocks, header, home blocks, cleared header. *)
Definition commit_writes (start : Z) (h : list Z) (bl : list Z) (vs : list (list Z)) : list (Z * list Z) :=
  log_copies (start + 1) vs ++ [(start, header h bl)] ++
  zip bl vs ++ [(start, hdr_set_n (header h bl) 0)].

(** Recovery from the disk [d]: install what the header names, clear the header. *)
Definition recover_writes (start : Z) (d : blocks) : list (Z * list Z) :=
  let h := blk d start in
  installs (blk d) (start + 1) (hdr_list h) ++ [(start, hdr_set_n h 0)].

Definition recovered (start : Z) (d : blocks) : blocks := apply_writes (recover_writes start d) d.

(** Blocks outside the log, which has [nl] blocks with its header. *)
Definition home (start nl b : Z) : Prop := ~ (start <= b < start + nl).

(** A header that recovery can use. *)
Record hdr_ok (start nl : Z) (h : list Z) : Prop := {
  ho_n : 0 <= hdr_n h <= LOGSIZE;
  ho_range : forall b, b ∈ hdr_list h -> 0 <= b < 2147483648;
  ho_home : forall b, b ∈ hdr_list h -> home start nl b;
  ho_nodup : NoDup (hdr_list h);
  ho_cap : hdr_n h < nl;
}.

Lemma over_agree ws f g b : (b ∉ ws.*1 -> f b = g b) -> over ws f b = over ws g b.
Proof.
  revert f g. induction ws as [|w ws IH]; intros f g H; [apply H, not_elem_of_nil|]. simpl. apply IH. intros Hw.
  zcase (b =? w.1) as E; [done|]. apply H. simpl. by apply not_elem_of_cons.
Qed.

Lemma over_one b0 v f b : over [(b0, v)] f b = if b =? b0 then v else f b.
Proof. done. Qed.

Lemma hdr_set_n_0 h : length h = 1024%nat -> hdr_n (hdr_set_n h 0) = 0.
Proof. intros H. by apply hdr_n_set_n. Qed.

Lemma hdr_list_0 h : hdr_n h = 0 -> hdr_list h = [].
Proof. intros H. unfold hdr_list. by rewrite H. Qed.

Lemma installs_zip f a bl' vs' :
  length vs' = length bl' -> (forall i, 0 <= i < zlen bl' -> f (a + i) = znth [] vs' i) ->
  installs f a bl' = zip bl' vs'.
Proof.
  revert a vs'. induction bl' as [|b bl' IH]; intros a [|v vs'] Hl Hf; simpl in *; try done.
  unfold zlen in Hf. simpl in Hf. f_equal.
  - f_equal. specialize (Hf 0 ltac:(lia)). rewrite Z.add_0_r in Hf. rewrite Hf. apply znth_cons_0.
  - apply IH; [lia|]. intros i Hi. unfold zlen in Hi. replace (a + 1 + i) with (a + (i + 1)) by lia.
    rewrite Hf by lia. rewrite znth_cons_S by lia. f_equal. lia.
Qed.

(** Writing a prefix of the home blocks first makes no difference. *)
Lemma over_prefix ws f b : NoDup ws.*1 -> forall p, p `prefix_of` ws -> over ws (over p f) b = over ws f b.
Proof.
  intros Hw p Hp. destruct (decide (b ∈ ws.*1)) as [Hin|Hout].
  - apply list_elem_of_fmap in Hin as ([b' v] & -> & Hin). simpl.
    by rewrite !(over_in ws _ b' v).
  - rewrite !over_notin; [done|done| |done]. intros Hx. apply Hout. eapply elem_of_prefix; [|exact Hx].
    by apply fmap_prefix.
Qed.

(** With an empty header, recovery changes no home block. *)
Lemma recovered_empty start nl d b : 0 < nl -> hdr_n (blk d start) = 0 -> home start nl b -> blk (recovered start d) b = blk d b.
Proof.
  intros Hnl H Hb. unfold recovered, recover_writes. rewrite (hdr_list_0 _ H). cbn [installs app].
  rewrite blk_apply_writes. apply over_notin. simpl. rewrite list_elem_of_singleton.
  unfold home, LOGSIZE, MAXOPBLOCKS in Hb. lia.
Qed.

Lemma hdr_ok_empty start nl h : 0 < nl -> hdr_n h = 0 -> hdr_ok start nl h.
Proof.
  intros Hnl Hh. split; rewrite ?(hdr_list_0 _ Hh), ?Hh.
  - unfold LOGSIZE, MAXOPBLOCKS. lia.
  - intros b Hb. by apply elem_of_nil in Hb.
  - intros b Hb. by apply elem_of_nil in Hb.
  - apply NoDup_nil_2.
  - done.
Qed.

Section Crash.
Context (start nl : Z) (d0 : blocks) (h0 : list Z) (bl : list Z) (vs : list (list Z)).
Context (Hlen0 : length h0 = 1024%nat) (Hn0 : hdr_n (blk d0 start) = 0).
Context (Hbl : zlen bl <= LOGSIZE) (Hcap : zlen bl < nl) (Hvs : length vs = length bl).
Context (Hrange : forall b, b ∈ bl -> 0 <= b < 2147483648).
Context (Hhome : forall b, b ∈ bl -> home start nl b) (Hnd : NoDup bl).

Lemma nl_pos : 0 < nl.
Proof. pose proof (zlen_nonneg bl). lia. Qed.

Lemma header_n : hdr_n (header h0 bl) = zlen bl.
Proof.
  unfold header. unfold LOGSIZE, MAXOPBLOCKS in *. pose proof (zlen_nonneg bl).
  rewrite hdr_fill_n; [|by apply length_hdr_set_n|lia|unfold zlen in *; unfold LOGSIZE, MAXOPBLOCKS; lia].
  apply hdr_n_set_n; [done|lia].
Qed.

Lemma header_list : hdr_list (header h0 bl) = bl.
Proof.
  unfold hdr_list. rewrite header_n. apply (zlist_eq 0).
  - rewrite length_fmap, length_seqZ. unfold zlen. lia.
  - intros i Hi. assert (0 <= i < zlen bl) as Hi'.
    { revert Hi. rewrite (zlen_fmap_seqZ _ (zlen bl)) by apply zlen_nonneg. done. }
    clear Hi. rename Hi' into Hi.
    rewrite (znth_lookup 0 _ i (hdr_block (header h0 bl) i)); [|lia|].
    + unfold header. unfold zlen in Hi, Hbl. rewrite hdr_fill_block;
        [|by apply length_hdr_set_n|lia|lia|lia].
      zcase (0 <=? i); [|lia]. zcase (i <? 0 + Z.of_nat (length bl)); [|lia]. cbn [andb].
      destruct (bl !! Z.to_nat i) as [b|] eqn:Eb; [|apply lookup_ge_None in Eb; lia].
      rewrite (znth_lookup 0 bl i b) by (lia || done).
      apply s32_u32_small. pose proof (Hrange b (list_elem_of_lookup_2 _ _ _ Eb)). lia.
    + rewrite list_lookup_fmap, lookup_seqZ_lt by lia. simpl. do 2 f_equal. lia.
Qed.

Lemma zip_targets : (zip bl vs).*1 = bl.
Proof. apply fst_zip. lia. Qed.

Lemma log_copies_home b p :
  p `prefix_of` log_copies (start + 1) vs -> home start nl b \/ b = start -> b ∉ p.*1.
Proof.
  intros Hp Hb Hx. apply (elem_of_prefix _ (log_copies (start + 1) vs).*1) in Hx; [|by apply fmap_prefix].
  apply log_copies_targets in Hx. pose proof nl_pos. unfold home, zlen, LOGSIZE, MAXOPBLOCKS in *. lia.
Qed.

(** Recovery with the header and the log blocks in place, and some home blocks written. *)
Lemma recovered_full d b p :
  (forall b, blk d b = over (log_copies (start + 1) vs ++ [(start, header h0 bl)] ++ p) (blk d0) b) ->
  p `prefix_of` zip bl vs -> home start nl b ->
  blk d start = header h0 bl /\ blk (recovered start d) b = over (zip bl vs) (blk d0) b.
Proof.
  intros Hd Hp Hb. pose proof zip_targets as Hz.
  assert (forall x, x ∈ p.*1 -> home start nl x) as Hph.
  { intros x Hx. apply Hhome. rewrite <- Hz. eapply elem_of_prefix; [by apply fmap_prefix|done]. }
  assert (blk d start = header h0 bl) as Hh.
  { rewrite Hd, !over_app, over_notin.
    - simpl. by rewrite Z.eqb_refl.
    - intros Hx%Hph. pose proof nl_pos; unfold home, LOGSIZE, MAXOPBLOCKS in Hx. lia. }
  assert (forall i, 0 <= i < zlen bl -> blk d (start + 1 + i) = znth [] vs i) as Hlog.
  { intros i Hi. rewrite Hd, !over_app, over_notin.
    - rewrite over_one. zcase (start + 1 + i =? start); [lia|].
      apply over_in; [apply log_copies_nodup|]. apply log_copies_lookup. unfold zlen in *. lia.
    - intros Hx%Hph. unfold home in Hx. lia. }
  split; [done|]. unfold recovered, recover_writes. rewrite Hh, header_list.
  rewrite (installs_zip _ _ _ _ Hvs Hlog), blk_apply_writes, over_app, over_notin.
  - rewrite (over_ext _ _ _ _ Hd), !over_app, over_prefix; [|by rewrite Hz|done].
    apply over_agree. intros _. rewrite over_one. zcase (b =? start); [pose proof nl_pos; unfold home, LOGSIZE, MAXOPBLOCKS in *; lia|].
    apply over_notin, log_copies_home; [done|by left].
  - simpl. rewrite list_elem_of_singleton. pose proof nl_pos; unfold home, LOGSIZE, MAXOPBLOCKS in Hb. lia.
Qed.

(** The crash happens before the header reaches the disk. *)
Lemma crash_before ws :
  ws `prefix_of` log_copies (start + 1) vs ->
  let d := apply_writes ws d0 in
  hdr_ok start nl (blk d start) /\
  (forall b, home start nl b -> blk (recovered start d) b = blk d0 b).
Proof.
  intros Hp d. assert (forall b, home start nl b \/ b = start -> blk d b = blk d0 b) as Hd.
  { intros b Hb. unfold d. rewrite blk_apply_writes. by apply over_notin, log_copies_home. }
  assert (hdr_n (blk d start) = 0) as Hn by (rewrite Hd; [done|by right]).
  split; [apply hdr_ok_empty; [apply nl_pos|done]|]. intros b Hb. rewrite (recovered_empty start nl) by (done || apply nl_pos). apply Hd. by left.
Qed.

(** The crash happens while the home blocks are written. *)
Lemma crash_logged p :
  p `prefix_of` zip bl vs ->
  let d := apply_writes (log_copies (start + 1) vs ++ [(start, header h0 bl)] ++ p) d0 in
  hdr_ok start nl (blk d start) /\
  (forall b, home start nl b -> blk (recovered start d) b = over (zip bl vs) (blk d0) b).
Proof.
  intros Hp d. pose proof (recovered_full d) as H.
  assert (forall b, home start nl b -> blk d start = header h0 bl /\
            blk (recovered start d) b = over (zip bl vs) (blk d0) b) as Hd.
  { intros b Hb. apply (H b p); [|done|done]. intros. unfold d. apply blk_apply_writes. }
  split; [|intros b Hb; by apply Hd].
  destruct (Hd (start - 1)) as [Hl _]; [unfold home; lia|].
  rewrite Hl. split; rewrite ?header_list, ?header_n; try done. split; [apply zlen_nonneg|done].
Qed.

(** The crash happens after the header has been cleared. *)
Lemma crash_done :
  let d := apply_writes (commit_writes start h0 bl vs) d0 in
  hdr_ok start nl (blk d start) /\
  (forall b, home start nl b -> blk (recovered start d) b = over (zip bl vs) (blk d0) b).
Proof.
  intros d. assert (forall b, blk d b = over (commit_writes start h0 bl vs) (blk d0) b) as Hd
    by (intros; apply blk_apply_writes).
  assert (hdr_n (blk d start) = 0) as Hn.
  { rewrite Hd. unfold commit_writes. rewrite !over_app, over_one, Z.eqb_refl. apply hdr_set_n_0.
    by apply length_header. }
  split; [apply hdr_ok_empty; [apply nl_pos|done]|]. intros b Hb. rewrite (recovered_empty start nl) by (done || apply nl_pos). rewrite Hd.
  unfold commit_writes. rewrite !over_app, over_one. zcase (b =? start) as E; [pose proof nl_pos; unfold home, LOGSIZE, MAXOPBLOCKS in *; lia|].
  apply over_agree. rewrite over_one, zip_targets. zcase (b =? start); [lia|]. intros _.
  apply over_notin, log_copies_home; [done|by left].
Qed.

(** Every point at which the power may fail. *)
Lemma crash_cases ws :
  ws `prefix_of` commit_writes start h0 bl vs ->
  let d := apply_writes ws d0 in
  hdr_ok start nl (blk d start) /\
  ((forall b, home start nl b -> blk (recovered start d) b = blk d0 b) \/
   (forall b, home start nl b -> blk (recovered start d) b = over (zip bl vs) (blk d0) b)).
Proof.
  intros Hws d. unfold commit_writes in Hws. apply prefix_app_cases in Hws as [Hp|(ws1 & -> & Hws)].
  { destruct (crash_before ws Hp) as [? ?]. eauto. }
  apply prefix_app_cases in Hws as [Hp|(ws2 & -> & Hws)].
  { destruct ws1 as [|w ws1].
    - destruct (crash_before (log_copies (start + 1) vs ++ [])) as [? ?]; [by rewrite app_nil_r|]. eauto.
    - pose proof (prefix_cons_inv_1 _ _ _ _ Hp) as ->. apply prefix_cons_inv_2, prefix_nil_inv in Hp as ->.
      destruct (crash_logged []) as [? ?]; [apply prefix_nil|]. eauto. }
  apply prefix_app_cases in Hws as [Hp|(ws3 & -> & Hws)].
  { destruct (crash_logged ws2 Hp) as [? ?]. eauto. }
  destruct ws3 as [|w ws3].
  - destruct (crash_logged (zip bl vs ++ [])) as [? ?]; [by rewrite app_nil_r|]. eauto.
  - pose proof (prefix_cons_inv_1 _ _ _ _ Hws) as ->. apply prefix_cons_inv_2, prefix_nil_inv in Hws as ->.
    destruct crash_done as [? ?]. eauto.
Qed.

End Crash.

(** ** Crashes during recovery *)

Lemma installs_targets f a bl : (installs f a bl).*1 = bl.
Proof. revert a. induction bl as [|b bl IH]; intros a; simpl; [done|]. by rewrite IH. Qed.

(** The disks that a sequence of recoveries, each cut short by a crash, leads to. *)
Inductive interrupted (start : Z) (d : blocks) : blocks -> Prop :=
| int_none : interrupted start d d
| int_again d' ws : interrupted start d d' -> ws `prefix_of` recover_writes start d' ->
    interrupted start d (apply_writes ws d').

Section Again.
Context (start nl : Z) (Hnl : 0 < nl).

(** A disk that can be recovered from. *)
Definition recoverable (d : blocks) : Prop := length (blk d start) = 1024%nat /\ hdr_ok start nl (blk d start).

Definition installing (d : blocks) : list (Z * list Z) :=
  installs (blk d) (start + 1) (hdr_list (blk d start)).

(** The crash happens while the home blocks are written again. *)
Lemma interrupted_installing d ws :
  recoverable d -> ws `prefix_of` installing d ->
  let d' := apply_writes ws d in
  recoverable d' /\ (forall b, home start nl b -> blk (recovered start d') b = blk (recovered start d) b).
Proof.
  intros [Hlen Hok] Hp d'. assert (forall b, blk d' b = over ws (blk d) b) as Hd by (intros; apply blk_apply_writes).
  assert ((installing d).*1 = hdr_list (blk d start)) as Htg by apply installs_targets.
  assert (forall b, ~ home start nl b -> blk d' b = blk d b) as Hsame.
  { intros b Hb. rewrite Hd. apply over_notin. intros Hx. apply Hb, (ho_home _ _ _ Hok). rewrite <- Htg.
    eapply elem_of_prefix; [by apply fmap_prefix|done]. }
  assert (blk d' start = blk d start) as Hh by (apply Hsame; unfold home, LOGSIZE, MAXOPBLOCKS; lia).
  split; [unfold recoverable; by rewrite Hh|]. intros b Hb. unfold recovered, recover_writes. rewrite Hh.
  rewrite (installs_ext (blk d') (blk d)).
  - rewrite !blk_apply_writes, !over_app, !over_one. destruct (b =? start); [done|].
    rewrite (over_ext _ _ _ _ Hd). apply over_prefix; [fold (installing d); rewrite Htg; apply Hok|done].
  - intros i Hi. apply Hsame. destruct (ho_n _ _ _ Hok). pose proof (ho_cap _ _ _ Hok). unfold hdr_list in Hi.
    rewrite zlen_fmap_seqZ in Hi by lia. unfold home. lia.
Qed.

(** The crash happens after the header has been cleared. *)
Lemma interrupted_done d :
  recoverable d ->
  recoverable (recovered start d) /\
  (forall b, home start nl b -> blk (recovered start (recovered start d)) b = blk (recovered start d) b).
Proof.
  intros [Hlen Hok]. assert (blk (recovered start d) start = hdr_set_n (blk d start) 0) as Hh.
  { unfold recovered, recover_writes. by rewrite blk_apply_writes, over_app, over_one, Z.eqb_refl. }
  assert (hdr_n (blk (recovered start d) start) = 0) as Hn by (rewrite Hh; by apply hdr_set_n_0).
  split; [split; [rewrite Hh; by apply length_hdr_set_n|by apply hdr_ok_empty]|].
  intros b Hb. by apply (recovered_empty start nl).
Qed.

Lemma interrupted_once d ws :
  recoverable d -> ws `prefix_of` recover_writes start d ->
  let d' := apply_writes ws d in
  recoverable d' /\ (forall b, home start nl b -> blk (recovered start d') b = blk (recovered start d) b).
Proof.
  intros Hr Hws d'. apply prefix_app_cases in Hws as [Hp|(ws1 & E & Hws)];
    [by apply interrupted_installing|]. destruct ws1 as [|w ws1].
  - apply interrupted_installing; [done|]. by rewrite E, app_nil_r.
  - pose proof (prefix_cons_inv_1 _ _ _ _ Hws) as ->. apply prefix_cons_inv_2, prefix_nil_inv in Hws as ->.
    unfold d'. rewrite E. by apply interrupted_done.
Qed.

Lemma interrupted_same d d' :
  recoverable d -> interrupted start d d' ->
  recoverable d' /\ (forall b, home start nl b -> blk (recovered start d') b = blk (recovered start d) b).
Proof.
  intros Hr Hi. induction Hi as [|d' ws Hi [Hr' IH] Hws]; [done|].
  destruct (interrupted_once d' ws Hr' Hws) as [Hr'' Hb]. split; [done|].
  intros b Hh. rewrite Hb by done. by apply IH.
Qed.

End Again.
