(* ===== verification/LogCommit.v ===== *)
(** * The log: commit and recovery

    The whole of [commit] and of [recover_from_log] over the cache: the disk writes they
    issue are those of [commit_writes] and [recover_writes]. *)
From S2P Require Import Prelude Bytes Machine Sleeplock Bio BioProps BioSpec BioSteps Log LogProps LogLoops LogCrash.

Section Commit.
Context (dev : Z) (Hdev : dev <> 0).
Context (c0 : ctx) (Hc0 : steady c0) (Hl0 : no_bio_locks c0).

Lemma refs_block_kept s L s' L' b j :
  bcache_ok dev s L -> bcache_ok dev s' L' -> kept dev s s' -> pinned dev s b -> is_buf j ->
  refs_block dev s' b j = refs_block dev s b j.
Proof using.
  intros Hok Hok' Hk (i & Hp) Hj. pose proof (kp_pin _ _ _ Hk b i Hp) as Hp'.
  destruct Hp as (Hi & [H1 H2] & H3 & _), Hp' as (_ & [H1' H2'] & H3' & _).
  assert (forall t, b_dev (getb t i) = dev -> b_blockno (getb t i) = b -> b_refcnt (getb t i) <> 0 ->
    (exists K, bcache_ok dev t K) -> refs_block dev t b j = (j =? i)) as Heq.
  { intros t T1 T2 T3 [K HK]. apply eq_true_iff_eq. unfold refs_block.
    rewrite !andb_true_iff, negb_true_iff, Z.eqb_neq, !Z.eqb_eq. split.
    - intros [[E1 E2] E3]. apply (bc_uniq _ _ _ HK); congruence.
    - intros ->. done. }
  rewrite !Heq; eauto.
Qed.

Lemma unpin_count_kept s L s' L' bl j :
  bcache_ok dev s L -> bcache_ok dev s' L' -> kept dev s s' -> (forall b, b ∈ bl -> pinned dev s b) -> is_buf j ->
  unpin_count dev false s' bl j = unpin_count dev false s bl j.
Proof using.
  intros Hok Hok' Hk Hp Hj. unfold unpin_count. cbn [negb andb].
  replace (existsb (fun b => refs_block dev s' b j) bl) with (existsb (fun b => refs_block dev s b j) bl); [done|].
  induction bl as [|b bl IH]; [done|]. cbn [existsb].
  rewrite (refs_block_kept s L s' L') by (done || apply Hp; left). f_equal. apply IH. intros b' Hb'. apply Hp. by right.
Qed.

Lemma unpin_count_free recovering s bl j : b_refcnt (getb s j) = 0 -> unpin_count dev recovering s bl j = 0.
Proof using.
  intros H. unfold unpin_count. replace (existsb (fun b => refs_block dev s b j) bl) with false; [by rewrite andb_false_r|].
  symmetry. apply not_true_iff_false. rewrite existsb_exists. intros (b & _ & Hb). unfold refs_block in Hb.
  rewrite H in Hb. cbn in Hb. by rewrite andb_false_r in Hb.
Qed.

(** After an installation there is still a free buffer. *)
Lemma unpin_spare recovering s s' bl :
  (forall j, is_buf j -> b_refcnt (getb s' j) = b_refcnt (getb s j) - unpin_count dev recovering s bl j) ->
  spare s -> spare s'.
Proof using.
  intros H (i & Hi & Hr). exists i. split; [done|]. rewrite H, (unpin_count_free _ _ _ _ Hr) by done. lia.
Qed.

Lemma tx_set_n0 l : tx (set_n 0 l) = [].
Proof using. done. Qed.

Lemma geom_set_n n l : log_geom dev l -> log_geom dev (set_n n l).
Proof using. by intros [? ? ? ?]. Qed.

Lemma tx_ok_0 l : 0 < lg_size l -> tx_ok (set_n 0 l).
Proof using.
  intros Hsz. split; [cbn; unfold LOGSIZE, MAXOPBLOCKS; lia|..]; rewrite ?tx_set_n0;
    [intros b Hb; by apply elem_of_nil in Hb..|apply NoDup_nil_2|done].
Qed.

(** The log blocks hold the blocks of the transaction when they are installed. *)
Lemma installs_logged l f :
  log_geom dev l -> tx_ok l ->
  installs (over (log_copies (lg_start l + 1) (f <$> tx l) ++ [(lg_start l, header (f (lg_start l)) (tx l))]) f)
    (lg_start l + 1) (tx l) = zip (tx l) (f <$> tx l).
Proof using.
  intros Hg Ht. apply installs_zip; [by rewrite length_fmap|]. intros i Hi.
  rewrite over_app, over_one. zcase (lg_start l + 1 + i =? lg_start l); [lia|].
  apply over_in; [apply log_copies_nodup|]. apply log_copies_lookup. unfold zlen in *. rewrite length_fmap. lia.
Qed.

Lemma commit_run l ws0 s L :
  log_geom dev l -> tx_ok l -> quiet dev s L -> spare s -> (forall b, b ∈ tx l -> pinned dev s b) -> 0 < lg_n l ->
  exists s' L' ws, commit (woken ws0 c0) (LState l s) = Done tt (woken ws c0) (LState (set_n 0 l) s') /\
    quiet dev s' L' /\
    (forall j, is_buf j -> b_refcnt (getb s' j) = b_refcnt (getb s j) - unpin_count dev false s (tx l) j) /\
    wrote dev s (commit_writes (lg_start l) (content dev s (lg_start l)) (tx l) (content dev s <$> tx l)) s'.
Proof using Hdev Hc0 Hl0.
  intros Hg Ht Hq Hsp Hpin Hn. unfold commit, mlog. krun. cbn [l_log]. zcase (0 <? lg_n l); [|lia]. cbn [when].
  unfold write_log, mlog. krun. cbn [l_log].
  destruct (write_log_loop_run dev Hdev c0 Hc0 Hl0 l Hg Ht (Z.to_nat (lg_n l)) ws0 0 s L Hq Hsp Hpin)
    as (s1 & L1 & ws1 & R1 & Hq1 & Hk1 & Hw1); [lia..|]. rewrite drop_0, Z.add_0_r in Hw1. kstep R1.
  destruct (write_head_run dev Hdev c0 Hc0 Hl0 l ws1 s1 L1 Hg Ht Hq1 (kept_spare _ _ _ Hk1 Hsp))
    as (s2 & L2 & ws2 & R2 & Hq2 & Hk2 & Hw2). kstep R2.
  pose proof (kept_trans _ _ _ _ Hk1 Hk2) as Hk.
  assert (content dev s1 (lg_start l) = content dev s (lg_start l)) as Eh.
  { rewrite (wr_content _ _ _ _ Hw1). apply over_notin. intros Hx%log_copies_targets. lia. }
  rewrite Eh in Hw2. pose proof (wrote_trans _ _ _ _ _ _ Hw1 Hw2) as Hw.
  unfold install_trans, mlog. krun. cbn [l_log].
  destruct (install_trans_loop_run dev Hdev c0 Hc0 Hl0 l Hg Ht false (Z.to_nat (lg_n l)) ws2 0 s2 L2 Hq2)
    as (s3 & L3 & ws3 & R3 & Hq3 & Href3 & Hw3); [by eapply kept_spare| |lia..|].
  { intros b Hb. eapply kept_pinned; [done|by apply Hpin]. }
  rewrite drop_0 in Href3, Hw3. rewrite Z.add_0_r in Hw3. kstep R3. unfold upd_log. krun. cbn [l_log l_bio].
  rewrite (installs_ext _ _ _ _ (fun i _ => wr_content _ _ _ _ Hw i)), (installs_logged l _ Hg Ht) in Hw3.
  pose proof (wrote_trans _ _ _ _ _ _ Hw Hw3) as Hw'.
  destruct (write_head_run dev Hdev c0 Hc0 Hl0 (set_n 0 l) ws3 s3 L3 (geom_set_n 0 l Hg) (tx_ok_0 l (lg_size_pos _ _ Hg)) Hq3)
    as (s4 & L4 & ws4 & R4 & Hq4 & Hk4 & Hw4).
  { eapply unpin_spare; [exact Href3|]. by eapply kept_spare. }
  exists s4, L4, ws4. split; [exact R4|]. split; [done|]. split.
  - intros j Hj. rewrite (kp_ref _ _ _ Hk4 j Hj), Href3, (kp_ref _ _ _ Hk j Hj) by done. f_equal.
    apply (unpin_count_kept s L s2 L2); [apply Hq|apply Hq2|done..].
  - cbn [lg_start set_n] in Hw4. rewrite tx_set_n0 in Hw4.
    assert (content dev s3 (lg_start l) = header (content dev s (lg_start l)) (tx l)) as E3.
    { rewrite (wr_content _ _ _ _ Hw'), !over_app, over_notin; [by rewrite over_one, Z.eqb_refl|].
      rewrite fst_zip by (rewrite length_fmap; lia). intros Hx%(tx_out _ Ht). pose proof (lg_size_pos _ _ Hg). unfold in_log in Hx. lia. }
    rewrite E3 in Hw4. pose proof (wrote_trans _ _ _ _ _ _ Hw' Hw4) as Hfin.
    unfold commit_writes. rewrite <- !app_assoc in Hfin. exact Hfin.
Qed.

(** ** Recovery *)

Lemma content_clean s L b :
  bcache_ok dev s L -> (forall j, is_buf j -> b_refcnt (getb s j) = 0) -> content dev s b = blk (disk s) b.
Proof using Hdev.
  intros Hok H0. unfold content. destruct (find_buf dev s b) as [i|] eqn:E; [|done].
  apply (find_buf_Some dev s L b i Hok) in E as [Hi [E1 E2]]. zcase (b_valid (getb s i) =? 0) as Ev; [done|].
  subst b. apply (bk_clean _ _ _ (bc_buf _ _ _ Hok i Hi)); auto.
Qed.

Lemma recover_run l ws0 s L :
  log_geom dev l -> quiet dev s L -> (forall j, is_buf j -> b_refcnt (getb s j) = 0) ->
  hdr_ok (lg_start l) (lg_size l) (blk (disk s) (lg_start l)) ->
  exists s' L' ws block, recover_from_log (woken ws0 c0) (LState l s) =
      Done tt (woken ws c0) (LState (set_n 0 (set_blocks block l)) s') /\
    length block = 30%nat /\ quiet dev s' L' /\ (forall j, is_buf j -> b_refcnt (getb s' j) = 0) /\
    wrote dev s (recover_writes (lg_start l) (disk s)) s'.
Proof using Hdev Hc0 Hl0.
  intros Hg Hq H0 Hh. pose proof Hq as [Hok _ _].
  assert (spare s) as Hsp by (exists 0; split; [apply is_buf_0|apply H0, is_buf_0]).
  pose proof (content_clean s L (lg_start l) Hok H0) as Ec.
  destruct (read_head_run dev Hdev c0 Hc0 Hl0 l ws0 s L Hg Hq Hsp) as (s1 & L1 & ws1 & block & R1 & Hq1 & Hk1 & Hw1 & Hlb & Htx);
    [rewrite Ec; apply Hh|].
  rewrite Ec in R1, Htx. set (h := blk (disk s) (lg_start l)) in *.
  unfold recover_from_log. kstep R1. set (l1 := set_blocks block (set_n (hdr_n h) l)) in *.
  assert (log_geom dev l1) as Hg1 by (destruct Hg; split; done).
  assert (tx_ok l1) as Ht1 by (split; [apply Hh|rewrite Htx; apply Hh|rewrite Htx; apply Hh|rewrite Htx; apply Hh|apply Hh]).
  assert (forall j, is_buf j -> b_refcnt (getb s1 j) = 0) as H1 by (intros j Hj; rewrite (kp_ref _ _ _ Hk1 j Hj); auto).
  unfold install_trans, mlog. krun. cbn [l_log].
  destruct (install_trans_loop_run dev Hdev c0 Hc0 Hl0 l1 Hg1 Ht1 true (Z.to_nat (lg_n l1)) ws1 0 s1 L1 Hq1)
    as (s2 & L2 & ws2 & R2 & Hq2 & Href2 & Hw2); [by eapply kept_spare|done|destruct (tx_n _ Ht1); lia|lia|].
  kstep R2. unfold upd_log. krun. cbn [l_log l_bio]. rewrite drop_0, Htx, Z.add_0_r in Hw2. rewrite drop_0 in Href2.
  change (lg_start l1) with (lg_start l) in Hw2.
  rewrite (installs_ext _ (blk (disk s))) in Hw2; [|intros i _; rewrite (wr_content _ _ _ _ Hw1); by apply (content_clean s L)].
  pose proof (wrote_trans _ _ _ _ _ _ Hw1 Hw2) as Hw. cbn [app] in Hw.
  destruct (write_head_run dev Hdev c0 Hc0 Hl0 (set_n 0 l1) ws2 s2 L2 (geom_set_n 0 l1 Hg1) (tx_ok_0 l1 (lg_size_pos _ _ Hg1)) Hq2)
    as (s3 & L3 & ws3 & R3 & Hq3 & Hk3 & Hw3).
  { eapply unpin_spare; [exact Href2|]. by eapply kept_spare. }
  exists s3, L3, ws3, block. split; [exact R3|]. split; [done|]. split; [done|]. split.
  - intros j Hj. rewrite (kp_ref _ _ _ Hk3 j Hj), Href2, H1 by done. rewrite unpin_count_free by auto. lia.
  - change (lg_start (set_n 0 l1)) with (lg_start l) in Hw3. rewrite tx_set_n0 in Hw3.
    assert (content dev s2 (lg_start l) = h) as E2.
    { rewrite (wr_content _ _ _ _ Hw), over_notin; [exact Ec|]. rewrite installs_targets.
      intros Hx%(ho_home _ _ _ Hh). pose proof (lg_size_pos _ _ Hg). unfold home in Hx. lia. }
    rewrite E2 in Hw3. exact (wrote_trans _ _ _ _ _ _ Hw Hw3).
Qed.

End Commit.
