(* ===== verification/LogSpec.v ===== *)
(** * The log: what it promises

    Transactions are atomic under crashes, recovery is idempotent, [log_write] absorbs and
    pins, [begin_op] admits what fits, and the last [end_op] commits. *)
From S2P Require Import Prelude Bytes Machine Sleeplock Bio BioProps BioSpec BioSteps Log LogProps LogLoops LogCrash LogCommit.

(** ** Recording a block *)

Section Absorb.
Context (block : list Z) (b : Z) (Hb : 0 <= b < 2147483648).

Lemma absorb_run k i :
  (forall j, i <= j < i + Z.of_nat k -> 0 <= znth 0 block j < 2147483648) ->
  let j := absorb k i block b in
  i <= j <= i + Z.of_nat k /\ (j < i + Z.of_nat k -> znth 0 block j = b) /\
  (forall j', i <= j' < j -> znth 0 block j' <> b).
Proof using Hb.
  revert i. induction k as [|k IH]; intros i Hr; cbn [absorb]; [cbv zeta; split; [lia|]; split; [lia|intros; lia]|].
  rewrite u32_small by (specialize (Hr i); lia). zcase (znth 0 block i =? b) as E.
  - cbv zeta. split; [lia|]. split; [done|]. intros; lia.
  - destruct (IH (i + 1)) as (A & B & C); [intros; apply Hr; lia|]. cbv zeta.
    split; [lia|]. split; [intros; apply B; lia|]. intros j' Hj'. destruct (decide (j' = i)) as [->|]; [done|apply C; lia].
Qed.

End Absorb.

Lemma elem_of_tx l b :
  length (lg_block l) = 30%nat -> 0 <= lg_n l <= LOGSIZE ->
  b ∈ tx l <-> exists j, 0 <= j < lg_n l /\ znth 0 (lg_block l) j = b.
Proof.
  intros Hlen Hn. unfold tx, LOGSIZE, MAXOPBLOCKS in *. rewrite list_elem_of_lookup. split.
  - intros (j & Hj). apply lookup_take_Some in Hj as [Hj Hlt]. exists (Z.of_nat j). split; [lia|].
    apply znth_lookup; [lia|]. by rewrite Nat2Z.id.
  - intros (j & Hj & <-). destruct (lg_block l !! Z.to_nat j) as [x|] eqn:E; [|apply lookup_ge_None in E; lia].
    exists (Z.to_nat j). rewrite lookup_take_lt by lia. by rewrite (znth_lookup 0 _ j x) by (lia || done).
Qed.

(** The log after [b] was recorded. *)
Definition recorded (b : Z) (l : logst) : logst :=
  if decide (b ∈ tx l) then l
  else set_n (lg_n l + 1) (set_blocks (zupd (lg_block l) (lg_n l) b) l).

Lemma tx_recorded b l :
  length (lg_block l) = 30%nat -> 0 <= lg_n l < LOGSIZE ->
  tx (recorded b l) = if decide (b ∈ tx l) then tx l else tx l ++ [b].
Proof.
  intros Hlen Hn. unfold recorded. destruct (decide (b ∈ tx l)); [done|]. unfold tx, LOGSIZE, MAXOPBLOCKS in *. cbn.
  replace (Z.to_nat (lg_n l + 1)) with (S (Z.to_nat (lg_n l))) by lia.
  rewrite (take_S_r _ _ b).
  - f_equal. unfold zupd. zcase (lg_n l <? 0); [lia|]. by rewrite take_insert_ge by lia.
  - unfold zupd. zcase (lg_n l <? 0); [lia|]. apply list_lookup_insert_eq. lia.
Qed.

Lemma zupd_same (l : list Z) i : zupd l i (znth 0 l i) = l.
Proof.
  unfold zupd, znth. zcase (i <? 0); [done|]. destruct (l !! Z.to_nat i) as [x|] eqn:Ex.
  - rewrite (nth_lookup_Some _ _ 0 _ Ex). by apply list_insert_id.
  - apply lookup_ge_None in Ex. by apply list_insert_ge.
Qed.

(** Recording a block: what the code computes with [absorb] is [recorded]. *)
Lemma absorb_recorded dev l b :
  log_geom dev l -> tx_ok l -> 0 <= b < 2147483648 ->
  let i := absorb (Z.to_nat (lg_n l)) 0 (lg_block l) b in
  (i =? lg_n l) = negb (bool_decide (b ∈ tx l)) /\
  set_blocks (zupd (lg_block l) i b) l =
    if decide (b ∈ tx l) then l else set_blocks (zupd (lg_block l) (lg_n l) b) l.
Proof.
  intros Hg Ht Hb. pose proof (lg_len _ _ Hg) as Hlen. pose proof (tx_n _ Ht) as Hn.
  destruct (absorb_run (lg_block l) b Hb (Z.to_nat (lg_n l)) 0) as (A & B & C).
  { intros j Hj. apply (tx_range _ Ht), (znth_tx dev l j Hg Ht). lia. }
  cbv zeta. set (i := absorb _ _ _ _) in *.
  destruct (decide (b ∈ tx l)) as [Hin|Hout].
  - rewrite bool_decide_eq_true_2 by done. cbn [negb].
    apply (elem_of_tx l b Hlen Hn) in Hin as (j & Hj & Ej).
    assert (i < lg_n l) as Hi by (destruct (decide (i <= j)); [lia|]; exfalso; apply (C j); lia || done).
    split; [apply Z.eqb_neq; lia|]. rewrite <- (B ltac:(lia)) at 1. rewrite zupd_same. by destruct l.
  - rewrite bool_decide_eq_false_2 by done. cbn [negb].
    assert (i = lg_n l) as ->; [|by rewrite Z.eqb_refl].
    destruct (decide (i = lg_n l)); [done|]. exfalso. apply Hout, (elem_of_tx l b Hlen Hn).
    exists i. split; [lia|]. apply B. lia.
Qed.

Lemma tx_ok_recorded dev l b :
  log_geom dev l -> tx_ok l -> 0 <= b < 2147483648 -> ~ in_log l b -> lg_n l < LOGSIZE -> lg_n l < lg_size l - 1 ->
  log_geom dev (recorded b l) /\ tx_ok (recorded b l).
Proof.
  intros Hg Ht Hb Hout Hn Hsz. pose proof (tx_n _ Ht) as Hn0. pose proof (lg_len _ _ Hg) as Hlen.
  pose proof (tx_recorded b l Hlen ltac:(lia)) as Etx. split.
  - unfold recorded. destruct (decide _); [done|]. destruct Hg. split; cbn; [done..| |done]. by rewrite length_zupd.
  - destruct (decide (b ∈ tx l)) as [Hin|Hni]; [unfold recorded; by destruct (decide _)|].
    assert (forall b', in_log (recorded b l) b' = in_log l b') as Elog by (intros; unfold recorded; by destruct (decide _)).
    split; rewrite ?Etx.
    + unfold recorded. destruct (decide _); [done|]. cbn. lia.
    + intros b' [Hx| ->%list_elem_of_singleton]%elem_of_app; [by apply Ht|done].
    + intros b' [Hx| ->%list_elem_of_singleton]%elem_of_app; rewrite Elog; [by apply Ht|done].
    + apply NoDup_app. split; [apply Ht|]. split; [intros x Hx ->%list_elem_of_singleton; done|apply NoDup_singleton].
    + unfold recorded. destruct (decide _); [done|]. cbn. lia.
Qed.

Section LogWrite.
Context (dev : Z) (Hdev : dev <> 0).
Context (c : ctx) (Hc : steady c) (Hl : no_bio_locks c).

Lemma bpin_step s L i :
  bcache_ok dev s L -> is_buf i -> 0 < b_refcnt (getb s i) < 2147483647 ->
  exists s', bpin i c s = Done tt c s' /\ bcache_ok dev s' L /\
    getb s' i = set_refcnt (b_refcnt (getb s i) + 1) (getb s i) /\
    (forall j, j <> i -> getb s' j = getb s j) /\
    (forall b', content dev s' b' = content dev s b') /\ disk s' = disk s /\ writes s' = writes s.
Proof using Hdev Hc Hl.
  intros H Hi Hr. destruct Hl as [Hbc Hsl]. pose proof (bc_buf _ _ _ H i Hi) as Hbuf.
  exists (updb i (set_refcnt (b_refcnt (getb s i) + 1)) s). split; [apply bpin_run; done || lia|].
  assert (getb (updb i (set_refcnt (b_refcnt (getb s i) + 1)) s) i = set_refcnt (b_refcnt (getb s i) + 1) (getb s i)) as Hg
    by (apply getb_updb_eq; auto with bio; apply H).
  split.
  { apply bcache_ok_updb; try done.
    - destruct Hbuf as [A B C D E]. split; cbn; try done; lia.
    - intros Hd j Hj Hne [E1 E2]. cbn in *. apply Hne, (bc_uniq _ _ _ H); congruence. }
  split; [done|]. split; [intros j Hj; by apply getb_updb_ne|]. split; [|done].
  intros b'. apply content_same; [|done]. intros j Hj.
  destruct (decide (j = i)) as [->|Hne]; [by rewrite Hg|by rewrite getb_updb_ne].
Qed.

End LogWrite.

Section LogWriteRun.
Context (dev : Z) (Hdev : dev <> 0).
Context (c : ctx) (Hc : steady c) (Hl : no_bio_locks c).

Lemma no_bio_locks_log : no_bio_locks (enter LLog c).
Proof using Hl.
  destruct Hl as [A B]. split; [|intros i]; rewrite c_held_enter; intros [E|E]%elem_of_cons; try done.
  by apply (B i).
Qed.

Lemma log_write_run l s L i b :
  LLog ∉ c_held c -> log_geom dev l -> tx_ok l -> bcache_ok dev s L -> is_buf i ->
  in_use dev (c_pid c) b (getb s i) -> 0 < b_refcnt (getb s i) < 2147483647 -> 0 <= b < 2147483648 ->
  lg_n l < LOGSIZE -> lg_n l < lg_size l - 1 -> 1 <= lg_outstanding l ->
  exists s', log_write i c (LState l s) = Done tt c (LState (recorded b l) s') /\ bcache_ok dev s' L /\
    getb s' i = set_refcnt (b_refcnt (getb s i) + if decide (b ∈ tx l) then 0 else 1) (getb s i) /\
    (forall j, j <> i -> getb s' j = getb s j) /\
    (forall b', content dev s' b' = content dev s b') /\ disk s' = disk s /\ writes s' = writes s.
Proof using Hdev Hc Hl.
  intros Hlk Hg Ht Hok Hi Huse Hr Hb Hn Hsz Ho. pose proof Hc as [Hcok Hst].
  unfold log_write. kstep (acquire_run LLog c (LState l s) Hlk). unfold mlog. krun. cbn [l_log].
  zcase (LOGSIZE <=? lg_n l); [lia|]. zcase (lg_size l - 1 <=? lg_n l); [lia|]. cbn [orb]. krun. cbn [l_log].
  zcase (lg_outstanding l <? 1); [lia|].
  erewrite bind_done; [|apply cache_done; unfold mget; reflexivity]. krun. cbn [l_log l_bio].
  destruct (iu_holds _ _ _ _ Huse) as [_ ->]. destruct (absorb_recorded dev l b Hg Ht Hb) as [Ei El].
  unfold upd_log. krun. cbn [l_log l_bio]. replace (s32 b) with b by (unfold s32; dlia). rewrite Ei, El.
  unfold recorded. destruct (decide (b ∈ tx l)) as [Hin|Hout].
  - rewrite bool_decide_eq_true_2 by done. cbn [negb when]. krun. exists s.
    rewrite (release_enter LLog c _ Hcok Hlk), Hst. split; [done|]. split; [done|].
    rewrite Z.add_0_r. split; [by destruct (getb s i)|done].
  - rewrite bool_decide_eq_false_2 by done. cbn [negb when].
    destruct (bpin_step dev Hdev (enter LLog c) (steady_enter LLog c Hcok) no_bio_locks_log s L i Hok Hi Hr)
      as (s' & R & Hrest).
    assert ((cache (bpin i) ;; modify (fun s0 => LState (set_n (lg_n (l_log s0) + 1) (l_log s0)) (l_bio s0)))
      (enter LLog c) (LState (set_blocks (zupd (lg_block l) (lg_n l) b) l) s) =
      Done tt (enter LLog c) (LState (set_n (lg_n l + 1) (set_blocks (zupd (lg_block l) (lg_n l) b) l)) s')) as R'.
    { erewrite bind_done; [|apply cache_done; exact R]. done. }
    kstep R'. exists s'. by rewrite (release_enter LLog c _ Hcok Hlk), Hst.
Qed.

End LogWriteRun.

(** ** Beginning and ending operations *)

Section Ops.
Context (dev : Z) (Hdev : dev <> 0).
Context (c : ctx) (Hc : steady c) (Hl : no_bio_locks c) (Hlk : LLog ∉ c_held c).

(** The writes of an [end_op] that finds no other operation. *)
Definition final_writes (l : logst) (s : bio) : list (Z * list Z) :=
  if lg_n l =? 0 then []
  else commit_writes (lg_start l) (content dev s (lg_start l)) (tx l) (content dev s <$> tx l).

(** What the commit of the whole transaction needs. *)
Record ready (l : logst) (s : bio) (L : list Z) : Prop := {
  rd_geom : log_geom dev l;
  rd_tx : tx_ok l;
  rd_quiet : quiet dev s L;
  rd_spare : spare s;
  rd_pinned : forall b, b ∈ tx l -> pinned dev s b;
}.

Lemma commit_any l s L :
  ready l s L ->
  exists s' L' ws, commit c (LState l s) = Done tt (woken ws c) (LState (set_n 0 l) s') /\
    quiet dev s' L' /\
    (forall j, is_buf j -> b_refcnt (getb s' j) = b_refcnt (getb s j) - unpin_count dev false s (tx l) j) /\
    wrote dev s (final_writes l s) s'.
Proof using Hdev Hc Hl.
  intros [Hg Ht Hq Hsp Hpin]. unfold final_writes. zcase (lg_n l =? 0) as En.
  - exists s, L, []. rewrite woken_nil. unfold commit, mlog. krun. cbn [l_log]. rewrite En.
    split; [cbn [Z.ltb Z.compare when]; unfold ret; do 2 f_equal; by destruct l; cbn in *; subst|].
    split; [done|]. split; [|apply wrote_nil]. intros j Hj.
    replace (tx l) with (@nil Z) by (unfold tx; by rewrite En). cbn [unpin_count existsb negb andb]. lia.
  - destruct (tx_n _ Ht). pose proof (commit_run dev Hdev c Hc Hl l [] s L Hg Ht Hq Hsp Hpin) as Hrun.
    rewrite woken_nil in Hrun. apply Hrun. lia.
Qed.

End Ops.

Lemma LLog_woken ws c : LLog ∉ c_held c -> LLog ∉ c_held (woken ws c).
Proof. by rewrite c_held_woken. Qed.

(** an operation that finds others outstanding ends without touching the disk: it
    gives back its reservation and wakes the operations waiting for log space. *)
Theorem end_op_defers c l s :
  steady c -> LLog ∉ c_held c -> lg_committing l = 0 -> lg_outstanding l <> 1 ->
  end_op c (LState l s) =
    Done tt (woken [ChLog] c) (LState (set_outstanding (lg_outstanding l - 1) l) s).
Proof.
  intros [Hok Hst] Hlk Hcm Ho. unfold end_op. kstep (acquire_run LLog c (LState l s) Hlk).
  unfold upd_log, mlog. krun. cbn [l_log l_bio set_outstanding lg_committing lg_outstanding]. rewrite Hcm. change (truth 0) with false. cbv iota.
  krun. cbn [l_log l_bio lg_outstanding set_outstanding]. zcase (lg_outstanding l - 1 =? 0); [lia|].
  set (s1 := LState _ s).
  assert ((wakeup ChLog ;; ret false) (enter LLog c) s1 = Done false (woken [ChLog] (enter LLog c)) s1) as R by done.
  kstep R. kstep (@release_enter_woken lstate LLog [ChLog] c s1 Hok Hlk). cbn [when]. unfold ret. by rewrite Hst.
Qed.

(** C15: the last operation commits: the disk receives the writes of the commit, the pins are
    dropped, the log is empty and open again. *)
Theorem end_op_commits dev c l s L :
  dev <> 0 -> steady c -> no_bio_locks c -> LLog ∉ c_held c ->
  ready dev l s L -> lg_committing l = 0 -> lg_outstanding l = 1 ->
  exists s' L' ws, end_op c (LState l s) =
      Done tt (woken ws c) (LState (set_committing 0 (set_n 0 (set_outstanding 0 l))) s') /\
    quiet dev s' L' /\
    (forall j, is_buf j -> b_refcnt (getb s' j) = b_refcnt (getb s j) - unpin_count dev false s (tx l) j) /\
    wrote dev s (final_writes dev l s) s'.
Proof.
  intros Hdev Hc Hl Hlk Hrd Hcm Ho. pose proof Hc as [Hok Hst]. unfold end_op. kstep (acquire_run LLog c (LState l s) Hlk).
  unfold upd_log, mlog. krun. cbn [l_log l_bio set_outstanding lg_committing lg_outstanding]. rewrite Hcm. change (truth 0) with false. cbv iota.
  krun. cbn [l_log l_bio lg_outstanding set_outstanding]. rewrite Ho. cbn [Z.sub Z.add Z.opp Z.pos_sub Z.eqb].
  set (l1 := set_committing 1 (set_outstanding 0 l)).
  match goal with |- context [bind ?m ?f (enter LLog c) ?s0] =>
    assert (m (enter LLog c) s0 = Done true (enter LLog c) (LState l1 s)) as R by done end.
  kstep R. kstep (@release_enter lstate LLog c (LState l1 s) Hok Hlk). rewrite Hst. cbn [when].
  assert (ready dev l1 s L) as Hrd1 by (by destruct Hrd as [[? ? ? ?] [? ? ? ? ?] ? ? ?]).
  destruct (commit_any dev Hdev c Hc Hl l1 s L Hrd1) as (s' & L' & ws & Rc & Hq' & Href & Hw).
  kstep Rc. set (c1 := woken ws c) in *. assert (steady c1) as [Hok1 Hst1] by (by apply steady_woken).
  kstep (@acquire_run lstate LLog c1 (LState (set_n 0 l1) s') (LLog_woken ws c Hlk)). krun. cbn [l_log l_bio].
  kstep (@wakeup_run lstate ChLog). exists s', L', (ws ++ [ChLog]).
  rewrite release_enter_woken by (done || by apply LLog_woken). rewrite Hst1. unfold c1. by rewrite woken_woken.
Qed.

(** an operation is admitted when no commit is running and the log has room for
    [MAXOPBLOCKS] blocks of each outstanding operation and of this one. *)
Theorem begin_op_admits c l s :
  steady c -> LLog ∉ c_held c -> lg_committing l = 0 ->
  lg_n l + (lg_outstanding l + 1) * MAXOPBLOCKS <= LOGSIZE ->
  begin_op c (LState l s) = Done tt c (LState (set_outstanding (lg_outstanding l + 1) l) s).
Proof.
  intros [Hok Hst] Hlk Hcm Hroom. unfold begin_op. kstep (acquire_run LLog c (LState l s) Hlk).
  kstep (sleep_while_false begin_wait ChLog LLog (enter LLog c) (LState l s)).
  - unfold upd_log. krun. cbn [l_log l_bio]. by rewrite (release_enter LLog c _ Hok Hlk), Hst.
  - unfold begin_wait. cbn [l_log]. rewrite Hcm. change (truth 0) with false. cbn [orb]. apply Z.ltb_ge. lia.
Qed.

(** otherwise it sleeps on the log, with nothing changed, and is admitted when it is
    woken and there is room. *)
Theorem begin_op_waits c l s :
  steady c -> c_noff c = 0 -> c_held c = [] -> (0 < c_fuel c)%nat ->
  lg_committing l <> 0 \/ LOGSIZE < lg_n l + (lg_outstanding l + 1) * MAXOPBLOCKS ->
  exists k, begin_op c (LState l s) = Sleep ChLog (enter (LProc (c_proc c)) c) (LState l s) k /\
    forall l' s', lg_committing l' = 0 -> lg_n l' + (lg_outstanding l' + 1) * MAXOPBLOCKS <= LOGSIZE ->
      k (LState l' s') = Done tt c (LState (set_outstanding (lg_outstanding l' + 1) l') s').
Proof.
  intros Hc Hn Hh Hf Hw. pose proof Hc as [Hok Hst].
  assert (forall lk, lk ∉ c_held c) as Hno by (intros lk; rewrite Hh; apply not_elem_of_nil).
  unfold begin_op. kstep (acquire_run LLog c (LState l s) (Hno _)).
  assert (begin_wait (LState l s) = true) as Hb.
  { unfold begin_wait, truth. cbn [l_log]. zcase (lg_committing l =? 0); [|done]. cbn [negb orb]. apply Z.ltb_lt. lia. }
  destruct (sleep_while_true begin_wait ChLog LLog c (LState l s) Hc Hn (Hno _) (Hno _) ltac:(done) Hf Hb) as (k & Hrun & Hk).
  unfold bind at 1. rewrite Hrun. cbn [obind]. eexists. split; [reflexivity|].
  intros l' s' Hcm Hroom. cbn beta. rewrite Hk.
  - cbn [obind]. unfold upd_log. krun. cbn [l_log l_bio]. by rewrite (release_enter LLog c _ Hok (Hno _)), Hst.
  - unfold begin_wait. cbn [l_log]. rewrite Hcm. change (truth 0) with false. cbn [orb]. apply Z.ltb_ge. lia.
Qed.

(** ** Recovery and crashes *)

Definition disk_ok (d : blocks) : Prop := forall b x, d !! b = Some x -> length x = 1024%nat.

Definition writes_ok (ws : list (Z * list Z)) : Prop := forall w, w ∈ ws -> length w.2 = 1024%nat.

Lemma length_disk_blk d b : disk_ok d -> length (blk d b) = 1024%nat.
Proof. intros H. unfold blk. destruct (d !! b) as [x|] eqn:Ex; cbn [default]; [by eapply H|apply length_zero_block]. Qed.

Lemma disk_ok_apply ws d : disk_ok d -> writes_ok ws -> disk_ok (apply_writes ws d).
Proof.
  revert d. induction ws as [|w ws IH]; intros d Hd Hw; [done|]. simpl. apply IH; [|intros w' Hw'; apply Hw; by right].
  intros b x [[_ <-]|[_ Hx]]%lookup_insert_Some; [apply Hw; left|by eapply Hd].
Qed.

Lemma writes_ok_prefix ws ws' : ws `prefix_of` ws' -> writes_ok ws' -> writes_ok ws.
Proof. intros Hp Hw w Hin. apply Hw. by eapply elem_of_prefix. Qed.

Lemma writes_ok_app ws ws' : writes_ok ws -> writes_ok ws' -> writes_ok (ws ++ ws').
Proof. intros H H' w [Hw|Hw]%elem_of_app; auto. Qed.

Lemma writes_ok_one b d : length d = 1024%nat -> writes_ok [(b, d)].
Proof. by intros H w ->%list_elem_of_singleton. Qed.

Lemma writes_ok_log a vs : (forall v, v ∈ vs -> length v = 1024%nat) -> writes_ok (log_copies a vs).
Proof.
  revert a. induction vs as [|v vs IH]; intros a H w Hw; simpl in *; [by apply elem_of_nil in Hw|].
  apply elem_of_cons in Hw as [->|Hw]; [apply H; left|]. eapply IH; [|exact Hw]. intros v' Hv'. apply H. by right.
Qed.

Lemma writes_ok_zip (bl : list Z) vs : (forall v, v ∈ vs -> length v = 1024%nat) -> writes_ok (zip bl vs).
Proof.
  intros H [b v] Hw. simpl. apply H. by apply elem_of_zip_r in Hw.
Qed.

Lemma writes_ok_commit start h bl vs :
  length h = 1024%nat -> zlen bl <= LOGSIZE -> (forall v, v ∈ vs -> length v = 1024%nat) ->
  writes_ok (commit_writes start h bl vs).
Proof.
  intros Hh Hbl Hvs. unfold commit_writes. pose proof (length_header h bl Hh Hbl).
  repeat apply writes_ok_app; auto using writes_ok_log, writes_ok_zip, writes_ok_one, length_hdr_set_n.
Qed.

Lemma writes_ok_installs f a bl : (forall b, length (f b) = 1024%nat) -> writes_ok (installs f a bl).
Proof.
  intros H. revert a. induction bl as [|b bl IH]; intros a w Hw; simpl in *; [by apply elem_of_nil in Hw|].
  apply elem_of_cons in Hw as [->|Hw]; [apply H|]. by eapply IH.
Qed.

Lemma writes_ok_recover start d : disk_ok d -> writes_ok (recover_writes start d).
Proof.
  intros H. unfold recover_writes. apply writes_ok_app;
    auto using writes_ok_one, writes_ok_installs, length_hdr_set_n, length_disk_blk.
Qed.

Lemma interrupted_disk_ok start d d' : disk_ok d -> interrupted start d d' -> disk_ok d'.
Proof.
  intros Hd Hi. induction Hi as [|d' ws Hi IH Hws]; [done|]. apply disk_ok_apply; [done|].
  eapply writes_ok_prefix; [done|]. by apply writes_ok_recover.
Qed.

Lemma elem_of_zip_fmap {A B} (f : A -> B) (l : list A) x : x ∈ l -> (x, f x) ∈ zip l (f <$> l).
Proof.
  intros (i & Hi)%list_elem_of_lookup. apply list_elem_of_lookup. exists i.
  by rewrite lookup_zip_with, list_lookup_fmap, Hi.
Qed.

Lemma initlock_run {S} lk c (s : S) : lk ∉ c_held c -> initlock lk c s = Done tt c s.
Proof.
  intros H. unfold initlock, modify_ctx. rewrite remove_lock_notin by done. by destruct c.
Qed.

(** The cache of a machine that has just booted. *)
Lemma fresh_quiet dev d : dev <> 0 -> disk_ok d -> quiet dev (fresh_bio d) (reverse (seqZ 0 NBUF)).
Proof.
  intros Hdev Hd. split; [by apply fresh_ok|..]; intros i Hi; rewrite getb_fresh by done; [done|].
  unfold few. cbn. lia.
Qed.

Lemma initlog_run dev c l0 start nlog d :
  dev <> 0 -> steady c -> no_bio_locks c -> LLog ∉ c_held c -> length (lg_block l0) = 30%nat ->
  0 <= start < 1073741824 -> 0 < s32 nlog -> disk_ok d -> hdr_ok start (s32 nlog) (blk d start) ->
  exists l' s' L' ws, initlog dev start nlog c (LState l0 (fresh_bio d)) = Done tt (woken ws c) (LState l' s') /\
    lg_start l' = start /\ lg_size l' = s32 nlog /\ log_geom dev l' /\ lg_n l' = 0 /\ quiet dev s' L' /\
    writes s' = recover_writes start d /\ disk s' = recovered start d.
Proof.
  intros Hdev Hc Hl Hlk Hlen Hst Hnl Hd Hh. unfold initlog. change (BSIZE <=? 4 + 4 * LOGSIZE) with false. cbv iota.
  set (l1 := set_geometry start (s32 nlog) dev l0).
  kstep (initlock_run LLog c (LState l0 (fresh_bio d)) Hlk). unfold upd_log. krun. cbn [l_log l_bio].
  replace (s32 start) with start by (unfold s32; dlia). fold l1.
  assert (log_geom dev l1) as Hg by (by split).
  destruct (recover_run dev Hdev c Hc Hl l1 [] (fresh_bio d) _ Hg (fresh_quiet dev d Hdev Hd))
    as (s' & L' & ws & block & R & Hlb & Hq & _ & Hw); [intros j Hj; by rewrite getb_fresh|done|].
  rewrite woken_nil in R. eexists _, s', L', ws. split; [exact R|]. cbn. destruct Hw as [W1 W2 _].
  repeat (split; [done|]). done.
Qed.

(** C16: the boot after a crash runs recovery to the end: it installs exactly the blocks
    the header names, in order, then clears the header, and leaves an empty log. *)
Theorem initlog_recovers dev c l0 start nlog d :
  dev <> 0 -> steady c -> no_bio_locks c -> LLog ∉ c_held c -> length (lg_block l0) = 30%nat ->
  0 <= start < 1073741824 -> 0 < s32 nlog -> disk_ok d -> hdr_ok start (s32 nlog) (blk d start) ->
  exists l' s' L' ws, initlog dev start nlog c (LState l0 (fresh_bio d)) = Done tt (woken ws c) (LState l' s') /\
    log_geom dev l' /\ lg_n l' = 0 /\ quiet dev s' L' /\
    writes s' = installs (blk d) (start + 1) (hdr_list (blk d start)) ++ [(start, hdr_set_n (blk d start) 0)] /\
    (forall b, blk (disk s') b = over (writes s') (blk d) b).
Proof.
  intros Hdev Hc Hl Hlk Hlen Hst Hnl Hd Hh.
  destruct (initlog_run dev c l0 start nlog d Hdev Hc Hl Hlk Hlen Hst Hnl Hd Hh)
    as (l' & s' & L' & ws & R & _ & _ & Hg & Hn & Hq & Hw & Hds).
  exists l', s', L', ws. split; [done|]. split; [done|]. split; [done|]. split; [done|]. split; [done|].
  intros b. rewrite Hds, Hw. apply blk_apply_writes.
Qed.

(** C1: a transaction is atomic under crashes.  The power may fail between any two disk
    writes of the commit, and any number of times during the recoveries that follow; the
    boot that finally completes recovery leaves every block outside the log as it was
    before the transaction, or every block as the transaction left it. *)
Theorem commit_crash_atomic dev c l s L :
  dev <> 0 -> steady c -> no_bio_locks c -> ready dev l s L -> 0 < lg_n l ->
  hdr_n (blk (disk s) (lg_start l)) = 0 -> lg_size l < 2147483648 ->
  exists c' s' cw, commit c (LState l s) = Done tt c' (LState (set_n 0 l) s') /\ writes s' = writes s ++ cw /\
  forall ws d, ws `prefix_of` cw -> interrupted (lg_start l) (apply_writes ws (disk s)) d ->
  forall cb l0, steady cb -> no_bio_locks cb -> LLog ∉ c_held cb -> length (lg_block l0) = 30%nat ->
  exists cb' l1 s1, initlog dev (lg_start l) (lg_size l) cb (LState l0 (fresh_bio d)) = Done tt cb' (LState l1 s1) /\
    ((forall b, home (lg_start l) (lg_size l) b -> blk (disk s1) b = blk (disk s) b) \/
     (forall b, home (lg_start l) (lg_size l) b ->
        blk (disk s1) b = if decide (b ∈ tx l) then content dev s b else blk (disk s) b)).
Proof.
  intros Hdev Hc Hl Hrd Hn Hh Hlsz. pose proof Hrd as [Hg Ht Hq Hsp Hpin]. pose proof Hq as [Hok _ _].
  destruct (commit_any dev Hdev c Hc Hl l s L Hrd) as (s' & L' & wk & R & _ & _ & [W1 W2 _]).
  unfold final_writes in W1, W2. zcase (lg_n l =? 0); [lia|].
  eexists _, s', _. split; [exact R|]. split; [exact W1|]. intros ws d Hws Hint cb l0 Hcb Hlb Hlkb Hlen.
  set (vs := content dev s <$> tx l) in *. set (h := content dev s (lg_start l)) in *.
  assert (length h = 1024%nat) as Hlh by (by eapply length_content).
  assert (zlen (tx l) <= LOGSIZE) as Hlt by (unfold zlen; rewrite (length_tx dev l Hg Ht); destruct (tx_n _ Ht); lia).
  assert (zlen (tx l) < lg_size l) as Hcap by (unfold zlen; rewrite (length_tx dev l Hg Ht); destruct (tx_n _ Ht); pose proof (tx_cap _ Ht); lia).
  assert (s32 (lg_size l) = lg_size l) as Esz by (pose proof (lg_size_pos _ _ Hg); apply s32_small; lia).
  assert (disk_ok (disk s)) as Hd0 by (exact (bc_disk _ _ _ Hok)).
  assert (disk_ok (apply_writes ws (disk s))) as Hd1.
  { apply disk_ok_apply; [done|]. eapply writes_ok_prefix; [exact Hws|]. apply writes_ok_commit; [done..|].
    intros v (b & -> & _)%list_elem_of_fmap. by eapply length_content. }
  destruct (crash_cases (lg_start l) (lg_size l) (disk s) h (tx l) vs Hlh Hh Hlt Hcap (length_fmap _ _) (tx_range _ Ht) (tx_out _ Ht)
    (tx_nodup _ Ht) ws Hws) as [Hho Hcase].
  destruct (interrupted_same (lg_start l) (lg_size l) (lg_size_pos _ _ Hg) _ d (conj (length_disk_blk _ _ Hd1) Hho) Hint) as [[_ Hho'] Hsame].
  rewrite <- Esz in Hho'.
  destruct (initlog_run dev cb l0 (lg_start l) (lg_size l) d Hdev Hcb Hlb Hlkb Hlen (lg_start_range _ _ Hg)
    ltac:(rewrite Esz; apply (lg_size_pos _ _ Hg)) (interrupted_disk_ok _ _ _ Hd1 Hint) Hho') as (l1 & s1 & L1 & wk1 & R1 & _ & _ & _ & _ & _ & _ & Hds).
  exists (woken wk1 cb), l1, s1. split; [exact R1|]. rewrite Hds.
  destruct Hcase as [Hold|Hnew]; [left|right]; intros b Hb; rewrite Hsame by done; [by apply Hold|].
  rewrite Hnew by done. unfold vs. destruct (decide (b ∈ tx l)) as [Hin|Hout].
  - apply over_in; [rewrite fst_zip by (rewrite length_fmap; lia); apply Ht|by apply elem_of_zip_fmap].
  - apply over_notin. by rewrite fst_zip by (rewrite length_fmap; lia).
Qed.

(** [log_write] of a buffer its caller holds records the block once: a block already in
    the transaction is absorbed, a new one is appended and its buffer pinned, so that
    every block of the transaction stays cached until the commit.  Nothing is written. *)
Theorem log_write_correct dev c l s L i b :
  dev <> 0 -> steady c -> no_bio_locks c -> LLog ∉ c_held c -> log_geom dev l -> tx_ok l -> bcache_ok dev s L ->
  is_buf i -> in_use dev (c_pid c) b (getb s i) -> 0 < b_refcnt (getb s i) < 2147483647 ->
  0 <= b < 2147483648 -> ~ in_log l b -> (forall b', b' ∈ tx l -> pinned dev s b') ->
  lg_n l < LOGSIZE -> lg_n l < lg_size l - 1 -> 1 <= lg_outstanding l ->
  exists l' s', log_write i c (LState l s) = Done tt c (LState l' s') /\
    log_geom dev l' /\ tx_ok l' /\ bcache_ok dev s' L /\
    tx l' = (if decide (b ∈ tx l) then tx l else tx l ++ [b]) /\
    (forall b', b' ∈ tx l' -> pinned dev s' b') /\
    b_refcnt (getb s' i) = b_refcnt (getb s i) + (if decide (b ∈ tx l) then 0 else 1) /\
    (forall b', content dev s' b' = content dev s b') /\ disk s' = disk s /\ writes s' = writes s.
Proof.
  intros Hdev Hc Hl Hlk Hg Ht Hok Hi Huse Hr Hb Hout Hpin Hn Hsz Ho.
  destruct (log_write_run dev Hdev c Hc Hl l s L i b Hlk Hg Ht Hok Hi Huse Hr Hb Hn Hsz Ho)
    as (s' & R & Hok' & Gi & Gj & Hct & Hds & Hws).
  destruct (tx_ok_recorded dev l b Hg Ht Hb Hout Hn Hsz) as [Hg' Ht'].
  pose proof (tx_recorded b l (lg_len _ _ Hg) ltac:(destruct (tx_n _ Ht); lia)) as Etx.
  exists (recorded b l), s'. split; [exact R|]. split; [done|]. split; [done|]. split; [done|]. split; [done|].
  split; [|by rewrite Gi].
  assert (forall b' j, pinned_at dev s b' j -> pinned_at dev s' b' j) as Hkeep.
  { intros b' j (P1 & [P2 P2'] & P3 & P4). split; [done|]. destruct (decide (j = i)) as [->|Hne].
    - rewrite Gi. cbn. split; [done|]. split; [destruct (decide (b ∈ tx l)); lia|done].
    - rewrite Gj by done. done. }
  intros b' Hb'. rewrite Etx in Hb'. destruct (decide (b ∈ tx l)) as [Hin|Hni].
  - destruct (Hpin b' Hb') as [j Hj]. exists j. auto.
  - apply elem_of_app in Hb' as [Hb'| ->%list_elem_of_singleton]; [destruct (Hpin b' Hb') as [j Hj]; exists j; auto|].
    exists i. apply Hkeep. destruct Huse as [Hh _ Hv]. split; [done|]. split; [done|]. split; [lia|done].
Qed.


(** ** The capacity of the log *)

(** A system call's use of a block: read it, record it, release it. *)
Definition touch (dev b : Z) : M lstate unit :=
  i <- cache (bread dev b) ;; log_write i ;; cache (brelse i).

Fixpoint touch_all (dev : Z) (bs : list Z) : M lstate unit :=
  match bs with
  | [] => ret tt
  | b :: bs' => touch dev b ;; touch_all dev bs'
  end.

Definition log0 : logst := Log 0 0 0 0 0 0 (replicate 30 0).

(** Boot with the log that mkfs lays out (30 blocks from block 2), then three operations
    of at most [MAXOPBLOCKS] blocks each. *)
Definition three_ops (last : list Z) : M lstate unit :=
  initlog 1 2 30 ;;
  begin_op ;; begin_op ;; begin_op ;;
  touch_all 1 (seqZ 100 10) ;; touch_all 1 (seqZ 110 10) ;; touch_all 1 last ;;
  end_op ;; end_op ;; end_op.

(** Whether a run ends with an empty log, and the number of disk writes. *)
Definition committed_with (o : outcome lstate unit) : option nat :=
  match o with
  | Done _ _ s => if lg_n (l_log s) =? 0 then Some (length (writes (l_bio s))) else None
  | _ => None
  end.

Lemma committed_with_Some o n :
  committed_with o = Some n ->
  exists c s, o = Done tt c s /\ lg_n (l_log s) = 0 /\ length (writes (l_bio s)) = n.
Proof.
  destruct o as [[] c s| | |]; cbn; try done. zcase (lg_n (l_log s) =? 0); [|done]. intros [= <-]. eauto.
Qed.


(** ** A transaction of one block *)

(** Block 45 was changed, recorded and released: its buffer is pinned and newer than the disk. *)
Definition pinned_buf (refs : Z) (lk : sleeplock) (x : buf) : buf :=
  Buf 1 0 1 45 lk refs (b_prev x) (b_next x) (replicate 1024 9).
Definition tx_bio (refs : Z) (lk : sleeplock) : bio := updb 0 (pinned_buf refs lk) (fresh_bio ∅).
Definition tx_log (outstanding : Z) : logst := Log 2 30 outstanding 0 1 1 (45 :: replicate 29 0).
Definition idle_log (outstanding : Z) : logst := Log 2 30 outstanding 0 1 0 (replicate 30 0).

Lemma getb_tx refs lk i :
  is_buf i -> getb (tx_bio refs lk) i = if 0 =? i then pinned_buf refs lk (fresh_buf 0) else fresh_buf i.
Proof.
  intros Hi. unfold tx_bio. rewrite getb_updb by (reflexivity || apply is_buf_node, is_buf_0).
  rewrite !getb_fresh by (done || apply is_buf_0). done.
Qed.

Lemma tx_bio_ok refs lk : 0 < refs < 10 -> bcache_ok 1 (tx_bio refs lk) (reverse (seqZ 0 NBUF)).
Proof.
  intros Hr. apply bcache_ok_updb; [apply fresh_ok; [lia|intros ? ? []%lookup_empty_Some]|apply is_buf_0|done..| |].
  - split; cbn [b_dev b_valid b_refcnt b_data pinned_buf unlocked]; [by left|lia|lia|lia|apply length_replicate].
  - intros _ j Hj Hne [E _]. rewrite getb_fresh in E by done. done.
Qed.

Lemma tx_log_geom o : log_geom 1 (tx_log o).
Proof. by split. Qed.

Lemma tx_log_ok o : tx_ok (tx_log o).
Proof.
  assert (tx (tx_log o) = [45]) as E by reflexivity.
  split; [cbn; unfold LOGSIZE, MAXOPBLOCKS; lia|rewrite E..|rewrite E; apply NoDup_singleton|cbn; lia].
  - intros b ->%list_elem_of_singleton. lia.
  - intros b ->%list_elem_of_singleton. unfold in_log, LOGSIZE, MAXOPBLOCKS. cbn. lia.
Qed.

Lemma tx_pinned refs lk : 0 < refs -> pinned 1 (tx_bio refs lk) 45.
Proof.
  intros Hr. exists 0. split; [apply is_buf_0|]. rewrite getb_tx by apply is_buf_0. cbn. split; [done|]. lia.
Qed.

Lemma tx_ready o : ready 1 (tx_log o) (tx_bio 1 sl_free) (reverse (seqZ 0 NBUF)).
Proof.
  split; [apply tx_log_geom|apply tx_log_ok| | |].
  - split; [apply tx_bio_ok; lia|..]; intros i Hi; rewrite getb_tx by done; unfold unlocked, few;
      destruct (0 =? i); cbn; lia || done.
  - exists 1. split; [unfold is_buf, NBUF, MAXOPBLOCKS; lia|]. by rewrite getb_tx by (unfold is_buf, NBUF, MAXOPBLOCKS; lia).
  - intros b ->%list_elem_of_singleton. apply tx_pinned. lia.
Qed.

Lemma user_ctx_log : LLog ∉ c_held user_ctx.
Proof. apply not_elem_of_nil. Qed.

Lemma commit_crash_atomic_witness : exists c' s' cw,
  commit user_ctx (LState (tx_log 0) (tx_bio 1 sl_free)) = Done tt c' (LState (set_n 0 (tx_log 0)) s') /\ writes s' = cw /\
  forall ws, ws `prefix_of` cw -> exists cb' l1 s1,
    initlog 1 2 30 user_ctx (LState log0 (fresh_bio (apply_writes ws ∅))) = Done tt cb' (LState l1 s1) /\
    (blk (disk s1) 45 = zero_block \/ blk (disk s1) 45 = replicate 1024 9).
Proof.
  destruct (commit_crash_atomic 1 user_ctx (tx_log 0) (tx_bio 1 sl_free) _ ltac:(lia) user_ctx_steady user_ctx_locks
    (tx_ready 0)) as (c' & s' & cw & R & Hw & H); [cbn; lia|reflexivity|cbn; lia|].
  exists c', s', cw. split; [exact R|]. split; [exact Hw|]. intros ws Hws.
  destruct (H ws _ Hws (int_none _ _) user_ctx log0 user_ctx_steady user_ctx_locks user_ctx_log eq_refl)
    as (cb' & l1 & s1 & R1 & Hcase).
  exists cb', l1, s1. split; [exact R1|].
  destruct Hcase as [Hc|Hc]; [left|right]; rewrite (Hc 45) by (unfold home, LOGSIZE, MAXOPBLOCKS; cbn; lia); reflexivity.
Defined.

Lemma initlog_recovers_witness : exists l' s' ws,
  initlog 1 2 30 user_ctx (LState log0 (fresh_bio {[ 2 := header zero_block [45]; 3 := replicate 1024 9 ]})) =
    Done tt (woken ws user_ctx) (LState l' s') /\ blk (disk s') 45 = replicate 1024 9.
Proof.
  set (d := {[ 2 := header zero_block [45]; 3 := replicate 1024 9 ]} : blocks).
  destruct (initlog_recovers 1 user_ctx log0 2 30 d) as (l' & s' & L' & ws & R & _ & _ & _ & Hw & Hd).
  - lia.
  - apply user_ctx_steady.
  - apply user_ctx_locks.
  - apply user_ctx_log.
  - reflexivity.
  - lia.
  - reflexivity.
  - intros b x [[_ <-]|[_ [_ <-]%lookup_singleton_Some]]%lookup_insert_Some; reflexivity.
  - assert (hdr_list (blk d 2) = [45]) as E by (vm_compute; reflexivity).
    split; [vm_compute; split; discriminate|rewrite E..|rewrite E; apply NoDup_singleton|vm_compute; reflexivity].
    + intros b ->%list_elem_of_singleton. lia.
    + intros b ->%list_elem_of_singleton. unfold home. change (s32 30) with 30. lia.
  - exists l', s', ws. split; [exact R|]. rewrite Hd, Hw. vm_compute. reflexivity.
Defined.

Lemma end_op_commits_witness : exists s' ws, end_op user_ctx (LState (tx_log 1) (tx_bio 1 sl_free)) =
  Done tt (woken ws user_ctx) (LState (set_committing 0 (set_n 0 (set_outstanding 0 (tx_log 1)))) s') /\
  blk (disk s') 45 = replicate 1024 9 /\ b_refcnt (getb s' 0) = 0.
Proof.
  destruct (end_op_commits 1 user_ctx (tx_log 1) (tx_bio 1 sl_free) _ ltac:(lia) user_ctx_steady user_ctx_locks
    user_ctx_log (tx_ready 1) eq_refl eq_refl) as (s' & L' & ws & R & _ & Href & Hw).
  exists s', ws. split; [exact R|]. split; [rewrite (wr_disk _ _ _ _ Hw)|rewrite Href by apply is_buf_0]; vm_compute; reflexivity.
Defined.

Lemma end_op_defers_witness :
  end_op user_ctx (LState (tx_log 2) (tx_bio 1 sl_free)) =
  Done tt (woken [ChLog] user_ctx) (LState (tx_log 1) (tx_bio 1 sl_free)).
Proof.
  apply (end_op_defers user_ctx (tx_log 2)); [apply user_ctx_steady|apply user_ctx_log|reflexivity|cbn; lia].
Defined.

Lemma begin_op_admits_witness :
  begin_op user_ctx (LState (tx_log 1) (tx_bio 1 sl_free)) = Done tt user_ctx (LState (tx_log 2) (tx_bio 1 sl_free)).
Proof.
  apply (begin_op_admits user_ctx (tx_log 1)); [apply user_ctx_steady|apply user_ctx_log|reflexivity|].
  unfold LOGSIZE, MAXOPBLOCKS. cbn. lia.
Defined.

Lemma begin_op_waits_witness : exists k,
  begin_op user_ctx (LState (tx_log 2) (tx_bio 1 sl_free)) =
    Sleep ChLog (enter (LProc 3) user_ctx) (LState (tx_log 2) (tx_bio 1 sl_free)) k /\
  k (LState (idle_log 0) (fresh_bio ∅)) = Done tt user_ctx (LState (idle_log 1) (fresh_bio ∅)).
Proof.
  destruct (begin_op_waits user_ctx (tx_log 2) (tx_bio 1 sl_free)) as (k & R & Hk);
    [apply user_ctx_steady|done|done|cbn; lia|right; unfold LOGSIZE, MAXOPBLOCKS; cbn; lia|].
  exists k. split; [exact R|]. apply (Hk (idle_log 0)); [done|]. unfold LOGSIZE, MAXOPBLOCKS. cbn. lia.
Defined.

Lemma log_write_correct_witness : exists l' s',
  log_write 0 user_ctx (LState (idle_log 1) (tx_bio 1 (SleepLock 1 5))) = Done tt user_ctx (LState l' s') /\
  tx l' = [45] /\ b_refcnt (getb s' 0) = 2.
Proof.
  destruct (log_write_correct 1 user_ctx (idle_log 1) (tx_bio 1 (SleepLock 1 5)) (reverse (seqZ 0 NBUF)) 0 45)
    as (l' & s' & R & _ & _ & _ & Ht & _ & Hr & _).
  - lia.
  - apply user_ctx_steady.
  - apply user_ctx_locks.
  - apply user_ctx_log.
  - by split.
  - split; [cbn; unfold LOGSIZE, MAXOPBLOCKS; lia|intros b Hb; by apply elem_of_nil in Hb..|apply NoDup_nil_2|cbn; lia].
  - apply tx_bio_ok. lia.
  - apply is_buf_0.
  - rewrite getb_tx by apply is_buf_0. by split.
  - rewrite getb_tx by apply is_buf_0. cbn. lia.
  - lia.
  - unfold in_log, LOGSIZE, MAXOPBLOCKS. cbn. lia.
  - intros b Hb. by apply elem_of_nil in Hb.
  - cbn. unfold LOGSIZE, MAXOPBLOCKS. lia.
  - cbn. lia.
  - cbn. lia.
  - exists l', s'. split; [exact R|]. split; [exact Ht|]. rewrite Hr, getb_tx by apply is_buf_0. reflexivity.
Defined.

