(* ===== verification/Wp.v ===== *)
(** * Total correctness of kernel code

    [wp m c s Q]: run by the thread [c] in the state [s], [m] returns, with the thread's
    locks and interrupt state as they were (it may have called [wakeup]), and [Q] holds of
    the result and the state.  [wpc] also gives the context at the end. *)
From S2P Require Import Prelude Machine.

(** The same thread, up to its calls of [wakeup]. *)
Definition same_ctx (c c' : ctx) : Prop := exists ws, c' = woken ws c.

Lemma same_ctx_refl c : same_ctx c c.
Proof. exists []. by rewrite woken_nil. Qed.

Lemma same_ctx_woken ws c : same_ctx c (woken ws c).
Proof. by exists ws. Qed.

Lemma same_ctx_trans c1 c2 c3 : same_ctx c1 c2 -> same_ctx c2 c3 -> same_ctx c1 c3.
Proof. intros [a ->] [b ->]. exists (a ++ b). by rewrite woken_woken. Qed.

(** The thread, through the steps since it started. *)
Ltac same_thread :=
  lazymatch goal with |- same_ctx ?a ?b =>
    first [ assumption | apply same_ctx_refl
          | match goal with H : same_ctx ?x b |- _ => apply (same_ctx_trans a x b); [same_thread | exact H] end ]
  end.

(** A thread outside every critical section: all the code of a system call is run by one. *)
Record idle (c : ctx) : Prop := { id_steady : steady c; id_held : c_held c = [] }.

Lemma idle_same c c' : same_ctx c c' -> idle c -> idle c'.
Proof.
  intros [ws ->] [[Hok Hst] Hh]. split.
  - split; [by apply ctx_ok_woken|]. rewrite settle_woken. by f_equal.
  - by rewrite c_held_woken.
Qed.

Lemma idle_nolock c lk : idle c -> lk ∉ c_held c.
Proof. intros [_ ->]. apply not_elem_of_nil. Qed.

Lemma idle_ok c : idle c -> ctx_ok c.
Proof. by intros [[? _] _]. Qed.

Lemma idle_settle c : idle c -> settle c = c.
Proof. by intros [[_ ?] _]. Qed.

Lemma same_pid c c' : same_ctx c c' -> c_pid c' = c_pid c.
Proof. intros [ws ->]. apply c_pid_woken. Qed.

Lemma same_proc c c' : same_ctx c c' -> c_proc c' = c_proc c.
Proof. intros [ws ->]. apply c_proc_woken. Qed.

Create HintDb wp.
#[export] Hint Resolve same_ctx_refl same_ctx_woken idle_nolock idle_ok id_steady : wp.

Section Wp.
Context {S : Type}.

Definition wpc {A} (m : M S A) (c : ctx) (s : S) (Q : A -> ctx -> S -> Prop) : Prop :=
  match m c s with
  | Done a c' s' => Q a c' s'
  | _ => False
  end.

Definition wp {A} (m : M S A) (c : ctx) (s : S) (Q : A -> S -> Prop) : Prop :=
  wpc m c s (fun a c' s' => same_ctx c c' /\ Q a s').

Lemma wpc_bind {A B} (m : M S A) (f : A -> M S B) c s Q :
  wpc m c s (fun a c1 s1 => wpc (f a) c1 s1 Q) -> wpc (bind m f) c s Q.
Proof. unfold wpc, bind. by destruct (m c s). Qed.

Lemma wpc_mono {A} (m : M S A) c s (P Q : A -> ctx -> S -> Prop) :
  wpc m c s P -> (forall a c' s', P a c' s' -> Q a c' s') -> wpc m c s Q.
Proof. unfold wpc. destruct (m c s); auto. Qed.

Lemma wpc_done {A} (m : M S A) c s a c' s' (Q : A -> ctx -> S -> Prop) :
  m c s = Done a c' s' -> Q a c' s' -> wpc m c s Q.
Proof. unfold wpc. by intros ->. Qed.

Lemma wp_mono {A} (m : M S A) c s (P Q : A -> S -> Prop) :
  wp m c s P -> (forall a s', P a s' -> Q a s') -> wp m c s Q.
Proof. intros H HPQ. eapply wpc_mono; [exact H|]. simpl. intros a c' s' [? ?]. auto. Qed.

Lemma wp_done {A} (m : M S A) c s a ws s' (Q : A -> S -> Prop) :
  m c s = Done a (woken ws c) s' -> Q a s' -> wp m c s Q.
Proof. intros H HQ. eapply wpc_done; [exact H|]. split; [apply same_ctx_woken|done]. Qed.

Lemma wp_done0 {A} (m : M S A) c s a s' (Q : A -> S -> Prop) :
  m c s = Done a c s' -> Q a s' -> wp m c s Q.
Proof. intros H HQ. eapply wpc_done; [exact H|]. split; [apply same_ctx_refl|done]. Qed.

Lemma wp_inv {A} (m : M S A) c s (Q : A -> S -> Prop) :
  wp m c s Q -> exists a ws s', m c s = Done a (woken ws c) s' /\ Q a s'.
Proof.
  unfold wp, wpc. destruct (m c s) as [a c' s'| | |]; try done. intros [[ws ->] HQ]. eauto.
Qed.

Lemma wp_bind {A B} (m : M S A) (f : A -> M S B) c s (Q : B -> S -> Prop) :
  wp m c s (fun a s1 => forall c1, same_ctx c c1 -> wp (f a) c1 s1 Q) -> wp (bind m f) c s Q.
Proof.
  intros H. apply wpc_bind. eapply wpc_mono; [exact H|]. simpl. intros a c1 s1 [Hc1 H1].
  eapply wpc_mono; [exact (H1 c1 Hc1)|]. simpl. intros b c2 s2 [Hc2 HQ].
  split; [by eapply same_ctx_trans|done].
Qed.

(** Run [m] by its specification, then the rest. *)
Lemma wp_seq {A B} (m : M S A) (f : A -> M S B) c s (P : A -> S -> Prop) (Q : B -> S -> Prop) :
  wp m c s P -> (forall a s1 c1, same_ctx c c1 -> P a s1 -> wp (f a) c1 s1 Q) -> wp (bind m f) c s Q.
Proof. intros H HQ. apply wp_bind. eapply wp_mono; [exact H|]. auto. Qed.

Lemma wp_assoc {A B C} (m : M S A) (f : A -> M S B) (g : B -> M S C) c s (Q : C -> S -> Prop) :
  wp (bind (bind m f) g) c s Q -> wp (bind m (fun a => bind (f a) g)) c s Q.
Proof. unfold wp, wpc, bind. by destruct (m c s). Qed.

Lemma wp_ret {A} (a : A) c s (Q : A -> S -> Prop) : Q a s -> wp (ret a) c s Q.
Proof. intros H. by eapply wp_done0. Qed.

Lemma wp_gets {A B} (g : S -> A) (f : A -> M S B) c s (Q : B -> S -> Prop) :
  wp (f (g s)) c s Q -> wp (bind (gets g) f) c s Q.
Proof. done. Qed.

Lemma wp_gets_end {A} (g : S -> A) c s (Q : A -> S -> Prop) : Q (g s) s -> wp (gets g) c s Q.
Proof. intros H. by eapply wp_done0. Qed.

Lemma wp_asks {A B} (g : ctx -> A) (f : A -> M S B) c s (Q : B -> S -> Prop) :
  wp (f (g c)) c s Q -> wp (bind (asks g) f) c s Q.
Proof. done. Qed.

Lemma wp_modify {B} (g : S -> S) (f : unit -> M S B) c s (Q : B -> S -> Prop) :
  wp (f tt) c (g s) Q -> wp (bind (modify g) f) c s Q.
Proof. done. Qed.

Lemma wp_modify_end (g : S -> S) c s (Q : unit -> S -> Prop) : Q tt (g s) -> wp (modify g) c s Q.
Proof. intros H. by eapply wp_done0. Qed.

(** A critical section: the lock, the body, and the lock's release inside the body's end. *)
Lemma wp_acquire {A} lk (f : unit -> M S A) c s (Q : A -> S -> Prop) :
  lk ∉ c_held c ->
  wpc (f tt) (enter lk c) s (fun a c' s' => same_ctx c c' /\ Q a s') -> wp (bind (acquire lk) f) c s Q.
Proof. intros Hlk H. apply wpc_bind. eapply wpc_done; [by apply acquire_run|done]. Qed.

Lemma wpc_release {A} lk (f : unit -> M S A) ws c s (Q : A -> ctx -> S -> Prop) :
  steady c -> lk ∉ c_held c ->
  wpc (f tt) (woken ws c) s Q -> wpc (bind (release lk) f) (woken ws (enter lk c)) s Q.
Proof.
  intros [Hok Hst] Hlk H. apply wpc_bind. eapply wpc_done; [by apply release_enter_woken|]. by rewrite Hst.
Qed.

(** Leaving a critical section of an idle thread. *)
Lemma wpc_leave {A} lk (f : unit -> M S A) c s (Q : A -> ctx -> S -> Prop) :
  idle c -> wpc (f tt) c s Q -> wpc (bind (release lk) f) (enter lk c) s Q.
Proof.
  intros Hi H. rewrite <- (woken_nil (enter lk c)). apply wpc_release; [apply (id_steady _ Hi)|by apply idle_nolock|].
  by rewrite woken_nil.
Qed.

Lemma wpc_leave_end lk c s (Q : unit -> ctx -> S -> Prop) : idle c -> Q tt c s -> wpc (release lk) (enter lk c) s Q.
Proof.
  intros [[Hok Hst] Hh] H. eapply wpc_done; [by apply release_enter; [|rewrite Hh; apply not_elem_of_nil]|]. by rewrite Hst.
Qed.

Lemma wpc_gets {A B} (g : S -> A) (f : A -> M S B) c s Q : wpc (f (g s)) c s Q -> wpc (bind (gets g) f) c s Q.
Proof. done. Qed.

Lemma wpc_modify {B} (g : S -> S) (f : unit -> M S B) c s Q : wpc (f tt) c (g s) Q -> wpc (bind (modify g) f) c s Q.
Proof. done. Qed.

Lemma wpc_ret {A} (a : A) c s (Q : A -> ctx -> S -> Prop) : Q a c s -> wpc (ret a) c s Q.
Proof. done. Qed.

(** A specification of a call, in a body that changes the context. *)
Lemma wpc_call {A B} (m : M S A) (f : A -> M S B) c s (P : A -> S -> Prop) (Q : B -> ctx -> S -> Prop) :
  wp m c s P -> (forall a c1 s1, same_ctx c c1 -> P a s1 -> wpc (f a) c1 s1 Q) -> wpc (bind m f) c s Q.
Proof. intros H HQ. apply wpc_bind. eapply wpc_mono; [exact H|]. cbn. intros a c1 s1 [? ?]. by apply HQ. Qed.

Lemma wpc_enter {A} lk (f : unit -> M S A) c s (Q : A -> ctx -> S -> Prop) :
  idle c -> wpc (f tt) (enter lk c) s Q -> wpc (bind (acquire lk) f) c s Q.
Proof. intros Hi H. apply wpc_bind. eapply wpc_done; [by apply acquire_run, idle_nolock|done]. Qed.

Lemma wpc_enter_end lk c s (Q : unit -> ctx -> S -> Prop) : idle c -> Q tt (enter lk c) s -> wpc (acquire lk) c s Q.
Proof. intros Hi H. eapply wpc_done; [by apply acquire_run, idle_nolock|done]. Qed.

Lemma wpc_release_end lk ws c s (Q : unit -> ctx -> S -> Prop) :
  steady c -> lk ∉ c_held c -> Q tt (woken ws c) s -> wpc (release lk) (woken ws (enter lk c)) s Q.
Proof. intros [Hok Hst] Hlk H. eapply wpc_done; [by apply release_enter_woken|]. by rewrite Hst. Qed.

End Wp.

Lemma wp_zoom {S T A} (l : lens S T) (m : M T A) c s (Q : A -> S -> Prop) :
  wp m c (view l s) (fun a t => Q a (update l t s)) -> wp (zoom l m) c s Q.
Proof.
  intros (a & ws & t & H & HQ)%wp_inv. eapply wp_done; [|exact HQ]. by apply zoom_done.
Qed.

#[global] Arguments wp : simpl never.
#[global] Arguments wpc : simpl never.
