(* ===== verification/Txn.v ===== *)
(** * Blocks inside a transaction

    The state of the log and the cache while one file-system operation runs: [txn pid s H]
    says which buffers the operation holds ([H], pairs of a buffer and its block), that the
    others are referenced exactly by the transaction, and that a block the transaction has
    not recorded is on the disk as it is in the cache.  Under it, reading, changing and
    releasing blocks are reads and updates of the map [bview s] from blocks to contents. *)
From S2P Require Import Prelude Bytes Machine Sleeplock Bio BioProps BioSpec BioSteps Log LogProps LogLoops LogCrash LogCommit LogSpec Wp.

Section Txn.
Context (dev : Z) (Hdev : dev <> 0).

(** What the users of a block see. *)
Definition bview (s : lstate) (b : Z) : list Z := content dev (l_bio s) b.

Definition in_tx (l : logst) (x : buf) : bool := bool_decide (b_dev x = dev /\ b_blockno x ∈ tx l).

Definition b2z (b : bool) : Z := if b then 1 else 0.

Record txn (pid : Z) (s : lstate) (H : list (Z * Z)) : Prop := {
  tn_ok : exists L, bcache_ok dev (l_bio s) L;
  tn_geom : log_geom dev (l_log s);
  tn_tx : tx_ok (l_log s);
  tn_ref : forall i, is_buf i -> b_refcnt (getb (l_bio s) i) =
    b2z (in_tx (l_log s) (getb (l_bio s) i)) + b2z (bool_decide (i ∈ H.*1));
  tn_nodup : NoDup H.*1;
  tn_held : forall i b, (i, b) ∈ H -> is_buf i /\ in_use dev pid b (getb (l_bio s) i);
  tn_free : forall i, is_buf i -> i ∉ H.*1 -> unlocked (getb (l_bio s) i);
  tn_pin : forall b, b ∈ tx (l_log s) -> pinned dev (l_bio s) b;
  tn_clean : forall b, b ∉ tx (l_log s) -> bview s b = blk (disk (l_bio s)) b;
}.

(** A file-system operation runs, the log has room for [n] more blocks, and the cache a buffer
    besides them. *)
Definition room (s : lstate) (n : Z) : Prop :=
  1 <= lg_outstanding (l_log s) /\ lg_n (l_log s) + n < LOGSIZE /\ lg_n (l_log s) + n <= lg_size (l_log s) - 1.

Lemma room_mono s n n' : n' <= n -> room s n -> room s n'.
Proof using. unfold room. lia. Qed.

Lemma b2z_range b : 0 <= b2z b <= 1.
Proof using. destruct b; cbn; lia. Qed.

Lemma fst_in (H : list (Z * Z)) i b : (i, b) ∈ H -> i ∈ H.*1.
Proof using. intros Hin. apply list_elem_of_fmap. by exists (i, b). Qed.

Lemma length_le_submseteq {A} (l k : list A) : NoDup l -> (forall x, x ∈ l -> x ∈ k) -> (length l <= length k)%nat.
Proof using. intros Hl Hk. by apply submseteq_length, NoDup_submseteq. Qed.

(** A buffer is free as long as the transaction and the operation hold fewer than all. *)
Lemma txn_spare pid s H :
  txn pid s H -> (length (tx (l_log s)) + length H < 30)%nat -> spare (l_bio s).
Proof using.
  intros Hs Hlt. destruct (decide (Exists (fun i => b_refcnt (getb (l_bio s) i) = 0) (seqZ 0 NBUF))) as [He|Hn].
  - apply Exists_exists in He as (i & Hi & Hr). exists i. split; [|done].
    apply elem_of_seqZ in Hi. unfold is_buf. lia.
  - exfalso. destruct (tn_ok _ _ _ Hs) as [L Hok].
    pose (f := fun i => if bool_decide (i ∈ H.*1) then inl i else inr (b_blockno (getb (l_bio s) i)) : Z + Z).
    assert (length (f <$> seqZ 0 NBUF) <= length ((inl <$> H.*1) ++ (inr <$> tx (l_log s))))%nat as Hle.
    { apply length_le_submseteq.
      - apply NoDup_fmap_2_strong; [|apply NoDup_seqZ]. intros i j Hi Hj Hij.
        apply elem_of_seqZ in Hi, Hj. unfold f in Hij.
        pose proof (tn_ref _ _ _ Hs i ltac:(unfold is_buf; lia)) as Ri.
        pose proof (tn_ref _ _ _ Hs j ltac:(unfold is_buf; lia)) as Rj.
        case_bool_decide; case_bool_decide; try congruence. injection Hij as Hb.
        assert (b_refcnt (getb (l_bio s) i) <> 0 /\ b_refcnt (getb (l_bio s) j) <> 0) as [Ni Nj].
        { split; intros E; apply Hn, Exists_exists; [exists i|exists j]; (split; [apply elem_of_seqZ; lia|done]). }
        unfold in_tx in Ri, Rj. cbn in Ri, Rj.
        destruct (bool_decide_reflect (b_dev (getb (l_bio s) i) = dev /\ b_blockno (getb (l_bio s) i) ∈ tx (l_log s))) as [[Di _]|]; [|cbn in *; lia].
        destruct (bool_decide_reflect (b_dev (getb (l_bio s) j) = dev /\ b_blockno (getb (l_bio s) j) ∈ tx (l_log s))) as [[Dj _]|]; [|cbn in *; lia].
        apply (bc_uniq _ _ _ Hok); unfold is_buf; (lia || congruence).
      - intros x (i & -> & Hi)%list_elem_of_fmap. apply elem_of_seqZ in Hi. unfold f. apply elem_of_app.
        pose proof (tn_ref _ _ _ Hs i ltac:(unfold is_buf; lia)) as Ri.
        case_bool_decide; [left; by apply list_elem_of_fmap_2|right]. apply list_elem_of_fmap_2.
        unfold in_tx in Ri. case_bool_decide as Hin; [apply Hin|]. cbn in Ri. exfalso.
        apply Hn, Exists_exists. exists i. split; [apply elem_of_seqZ; lia|done]. }
    rewrite length_app, !length_fmap, length_seqZ in Hle. unfold NBUF, MAXOPBLOCKS in Hle. lia.
Qed.

Section Thread.
Context (c : ctx) (Hc : idle c).

Lemma idle_bio : no_bio_locks c.
Proof using Hc. split; [|intros i]; by apply idle_nolock. Qed.

Lemma held_not_free pid s H i b : txn pid s H -> (i, b) ∈ H -> 1 <= b_refcnt (getb (l_bio s) i) <= 2.
Proof using.
  intros Hs Hin. destruct (tn_held _ _ _ Hs i b Hin) as [Hi _]. rewrite (tn_ref _ _ _ Hs i Hi).
  rewrite (bool_decide_eq_true_2 (i ∈ H.*1)) by (by eapply fst_in). 
  pose proof (b2z_range (in_tx (l_log s) (getb (l_bio s) i))). cbn [b2z]. lia.
Qed.

Lemma bread_txn s H b :
  txn (c_pid c) s H -> b ∉ H.*2 -> (length (tx (l_log s)) + length H < 30)%nat ->
  exists i s', bread dev b c (l_bio s) = Done i c s' /\
    txn (c_pid c) (LState (l_log s) s') ((i, b) :: H) /\
    b_data (getb s' i) = bview s b /\
    (forall j, j ∈ H.*1 -> getb s' j = getb (l_bio s) j) /\
    (forall b', bview (LState (l_log s) s') b' = bview s b') /\
    disk s' = disk (l_bio s) /\ writes s' = writes (l_bio s).
Proof using Hdev Hc.
  intros Hs Hb Hlt. destruct (tn_ok _ _ _ Hs) as [L Hok].
  destruct (target_exists dev Hdev (l_bio s) L b Hok (or_intror (txn_spare _ _ _ Hs Hlt))) as [i Ht].
  pose proof (target_buf dev Hdev (l_bio s) L b i Hok Ht) as [Hi Hnone].
  assert (b_refcnt (getb (l_bio s) i) <> 0 -> holds dev b (getb (l_bio s) i)) as Hhold.
  { intros Hne. unfold target in Ht. destruct (find_buf dev (l_bio s) b) as [j|] eqn:E; [|by rewrite Hnone in Hne].
    injection Ht as ->. by apply (find_buf_Some dev _ L b i Hok) in E as [_ ?]. }
  assert (i ∉ H.*1) as Hni.
  { intros ([i' b'] & -> & Hin)%list_elem_of_fmap. cbn in *. apply Hb.
    destruct (tn_held _ _ _ Hs i' b' Hin) as [_ [[_ E] _ _]].
    pose proof (held_not_free _ _ _ _ _ Hs Hin). destruct (Hhold ltac:(lia)) as [_ E'].
    apply list_elem_of_fmap. exists (i', b'). split; [cbn; congruence|done]. }
  pose proof (tn_ref _ _ _ Hs i Hi) as Ri. rewrite (bool_decide_eq_false_2 (i ∈ H.*1)) in Ri by done. cbn [b2z] in Ri.
  pose proof (b2z_range (in_tx (l_log s) (getb (l_bio s) i))) as Hr2.
  destruct (bread_step dev Hdev c (id_steady _ Hc) idle_bio (l_bio s) L b i Hok Ht (tn_free _ _ _ Hs i Hi Hni))
    as (s' & R & Hok' & _ & Huse & Hdata & Href & _ & _ & Hoth & Hct & Hdk & Hwr); [unfold few; lia|].
  exists i, s'. split; [exact R|]. split; [|split; [exact Hdata|split; [|done]]].
  2: { intros j Hj. apply Hoth. intros ->. done. }
  destruct (iu_holds _ _ _ _ Huse) as [Ed Eb].
  split; cbn [l_log l_bio]; [eauto|apply Hs|apply Hs| | | | | |].
  - intros j Hj. cbn [fmap list_fmap fst]. destruct (decide (j = i)) as [->|Hne].
    + rewrite (bool_decide_eq_true_2 (i ∈ _ :: _)) by left. rewrite Href, Ri.
      assert (in_tx (l_log s) (getb s' i) = in_tx (l_log s) (getb (l_bio s) i)) as ->; [|cbn [b2z]; lia].
      unfold in_tx. rewrite Ed, Eb. destruct (decide (b_refcnt (getb (l_bio s) i) = 0)) as [E0|Hne0].
      * unfold in_tx in Ri. rewrite E0 in Ri. case_bool_decide; [cbn in Ri; lia|]. apply bool_decide_eq_false_2.
        intros [_ Hin]. destruct (tn_pin _ _ _ Hs b Hin) as [j Hp].
        pose proof (pinned_target dev _ _ _ _ Hok Hp) as E. rewrite Ht in E. injection E as ->.
        by destruct Hp as (_ & _ & ? & _).
      * destruct (Hhold Hne0) as [-> ->]. done.
    + rewrite (Hoth j Hne), (tn_ref _ _ _ Hs j Hj). f_equal. f_equal. apply bool_decide_ext.
      rewrite elem_of_cons. tauto.
  - cbn. apply NoDup_cons. split; [done|apply Hs].
  - intros j b' [[= -> ->]|Hin]%elem_of_cons; [done|]. rewrite Hoth; [by apply Hs|].
    intros ->. apply Hni. by eapply fst_in.
  - intros j Hj Hnj. cbn in Hnj. apply not_elem_of_cons in Hnj as [Hne Hnj]. rewrite Hoth by done. by apply Hs.
  - intros b' Hin. destruct (tn_pin _ _ _ Hs b' Hin) as [j Hp]. exists j. destruct (decide (j = i)) as [->|Hne].
    + destruct Hp as (_ & [E1 E2] & Hne0 & _). destruct (Hhold Hne0) as [_ E3].
      split; [done|]. split; [split; congruence|]. split; [lia|apply Huse].
    + destruct Hp as (P1 & P2 & P3). split; [done|]. rewrite Hoth by done. done.
  - intros b' Hb'. unfold bview. cbn [l_bio]. rewrite Hct, Hdk. by apply Hs.
Qed.

Lemma pinned_kept s s' i d :
  (forall j, j <> i -> getb s' j = getb s j) -> getb s' i = set_data d (getb s i) ->
  forall b, pinned dev s b -> pinned dev s' b.
Proof using.
  intros Ho Hi b (j & P1 & [P2 P3] & P4 & P5). exists j. split; [done|].
  destruct (decide (j = i)) as [->|Hne]; [rewrite Hi; done|by rewrite Ho].
Qed.

(** Changing a held block and recording it. *)
Lemma update_txn s H i b d :
  txn (c_pid c) s H -> (i, b) ∈ H -> length d = 1024%nat -> 0 <= b < 2147483648 -> ~ in_log (l_log s) b ->
  room s 1 ->
  exists s1 s', bset_data i d c (l_bio s) = Done tt c s1 /\
    log_write i c (LState (l_log s) s1) = Done tt c s' /\ txn (c_pid c) s' H /\
    b_data (getb (l_bio s') i) = d /\
    (forall j, j <> i -> getb (l_bio s') j = getb (l_bio s) j) /\
    l_log s' = recorded b (l_log s) /\
    (forall b', bview s' b' = if b' =? b then d else bview s b') /\
    disk (l_bio s') = disk (l_bio s) /\ writes (l_bio s') = writes (l_bio s).
Proof using Hdev Hc.
  intros Hs Hin Hlen Hb Hout (Hout1 & Hn1 & Hn2). destruct (tn_ok _ _ _ Hs) as [L Hok].
  destruct (tn_held _ _ _ Hs i b Hin) as [Hi Huse]. pose proof (held_not_free _ _ _ _ _ Hs Hin) as Hr.
  destruct (set_data_step dev Hdev c (l_bio s) L i b d Hok Hi Huse ltac:(lia) Hlen)
    as (s1 & R1 & Hok1 & Gi & Gj & Hc1 & Hd1 & Hw1).
  assert (in_use dev (c_pid c) b (getb s1 i)) as Huse1 by (rewrite Gi; by apply in_use_set_data).
  destruct (log_write_run dev Hdev c (id_steady _ Hc) idle_bio (l_log s) s1 L i b (idle_nolock _ _ Hc) (tn_geom _ _ _ Hs)
    (tn_tx _ _ _ Hs) Hok1 Hi Huse1) as (s2 & R2 & Hok2 & Gi2 & Gj2 & Hc2 & Hd2 & Hw2);
    [rewrite Gi; cbn; lia|done|lia|lia|done|].
  destruct (tx_ok_recorded dev (l_log s) b (tn_geom _ _ _ Hs) (tn_tx _ _ _ Hs) Hb Hout ltac:(lia) ltac:(lia)) as [Hg' Ht'].
  pose proof (tx_recorded b (l_log s) (lg_len _ _ (tn_geom _ _ _ Hs)) ltac:(destruct (tn_tx _ _ _ Hs) as [[] _ _ _ _]; lia)) as Etx.
  exists s1, (LState (recorded b (l_log s)) s2). split; [exact R1|]. split; [exact R2|]. cbn [l_log l_bio].
  assert (forall j, j <> i -> getb s2 j = getb (l_bio s) j) as Gj' by (intros j Hj; by rewrite Gj2, Gj).
  rewrite Gi in Gi2. cbn [b_refcnt set_data] in Gi2.
  assert (forall b', bview (LState (recorded b (l_log s)) s2) b' = if b' =? b then d else bview s b') as Hv.
  { intros b'. unfold bview. cbn [l_bio]. by rewrite Hc2, Hc1. }
  assert (forall b', b' ∈ tx (recorded b (l_log s)) <-> b' ∈ tx (l_log s) \/ b' = b) as Htx.
  { intros b'. rewrite Etx. destruct (decide (b ∈ tx (l_log s))).
    - split; [by left|]. intros [?| ->]; done.
    - by rewrite elem_of_app, list_elem_of_singleton. }
  split; [|rewrite Gi2; cbn; rewrite Hd2, Hw2; done].
  split; cbn [l_log l_bio]; [eauto|done|done| |apply Hs| | | |].
  - intros j Hj. destruct (decide (j = i)) as [->|Hne].
    + rewrite Gi2. cbn [set_refcnt set_data b_refcnt]. rewrite (tn_ref _ _ _ Hs i Hi).
      destruct (iu_holds _ _ _ _ Huse) as [E1 E2].
      unfold in_tx. cbn [b_dev b_blockno set_refcnt set_data]. rewrite E1, E2.
      rewrite (bool_decide_eq_true_2 (dev = dev /\ b ∈ tx (recorded b (l_log s)))) by (rewrite Htx; tauto).
      destruct (decide (b ∈ tx (l_log s))); [rewrite bool_decide_eq_true_2 by tauto|rewrite bool_decide_eq_false_2 by tauto];
        cbn [b2z]; lia.
    + rewrite (Gj' j Hne), (tn_ref _ _ _ Hs j Hj). f_equal. f_equal. apply bool_decide_ext. rewrite Htx.
      split; [tauto|]. intros [E1 [?|E2]]; [tauto|]. exfalso. apply Hne.
      destruct (iu_holds _ _ _ _ Huse) as [F1 F2]. apply (bc_uniq _ _ _ Hok); congruence.
  - intros j b' Hin'. destruct (tn_held _ _ _ Hs j b' Hin') as [Hj Hu]. split; [done|].
    destruct (decide (j = i)) as [->|Hne]; [|by rewrite Gj'].
    rewrite Gi2. destruct Hu as [[? ?] [? ?] ?]. split; [split|split|]; done.
  - intros j Hj Hnj. rewrite Gj'; [by apply Hs|]. intros ->. apply Hnj. by eapply fst_in.
  - intros b' Hb'. apply Htx in Hb' as [Hb'| ->].
    + destruct (tn_pin _ _ _ Hs b' Hb') as (j & P1 & P2 & P3 & P4). exists j. split; [done|].
      destruct (decide (j = i)) as [->|Hne]; [|by rewrite Gj'].
      rewrite Gi2. split; [done|]. split; [|done]. cbn. destruct (decide _); lia.
    + exists i. split; [done|]. rewrite Gi2. destruct Huse as [? ? ?]. split; [done|]. split; [|done]. cbn.
      destruct (decide _); lia.
  - intros b' Hb'. rewrite Hv, Hd2, Hd1. assert (b' <> b) as Hne by (intros ->; apply Hb', Htx; by right).
    zcase (b' =? b); [done|]. apply Hs. intros Hx. apply Hb', Htx. by left.
Qed.

Lemma brelse_txn s H i b :
  txn (c_pid c) s ((i, b) :: H) ->
  exists s', brelse i c (l_bio s) = Done tt (woken [ChBuf i] c) s' /\
    txn (c_pid c) (LState (l_log s) s') H /\
    (forall j, j ∈ H.*1 -> b_data (getb s' j) = b_data (getb (l_bio s) j)) /\
    (forall b', bview (LState (l_log s) s') b' = bview s b') /\
    disk s' = disk (l_bio s) /\ writes s' = writes (l_bio s).
Proof using Hdev Hc.
  intros Hs. destruct (tn_ok _ _ _ Hs) as [L Hok].
  destruct (tn_held _ _ _ Hs i b ltac:(left)) as [Hi Huse].
  pose proof (held_not_free _ _ _ _ _ Hs (list_elem_of_here _ _)) as Hr.
  pose proof (tn_nodup _ _ _ Hs) as Hnd. cbn in Hnd. apply NoDup_cons in Hnd as [Hni Hnd].
  pose proof (tn_ref _ _ _ Hs i Hi) as Ri. cbn in Ri. rewrite (bool_decide_eq_true_2 (i ∈ _ :: _)) in Ri by left. cbn [b2z] in Ri.
  destruct (brelse_step dev c (id_steady _ Hc) idle_bio (l_bio s) L i b Hok Hi Huse ltac:(lia))
    as (s' & L' & R & Hok' & Fi & Fj & Hct & Hdk & Hwr).
  { intros H1. destruct (iu_holds _ _ _ _ Huse) as [E1 E2].
    rewrite <- (tn_clean _ _ _ Hs b).
    - unfold bview. rewrite (content_cached dev Hdev _ L b i Hok Hi) by done.
      pose proof (iu_valid _ _ _ _ Huse). by zcase (b_valid (getb (l_bio s) i) =? 0).
    - intros Hin. rewrite H1 in Ri. unfold in_tx in Ri. rewrite E1, E2, bool_decide_eq_true_2 in Ri by done. cbn in Ri. lia. }
  exists s'. split; [exact R|]. split; [|split; [|done]].
  2: { intros j Hj. assert (j <> i) as Hne by (intros ->; done). by apply (same_buf_fields _ _ (Fj j Hne)). }
  apply same_buf_fields in Fi as (Fi1 & Fi2 & Fi3 & Fi4 & Fi5 & Fi6). cbn in Fi1, Fi2, Fi3, Fi4, Fi5, Fi6.
  split; cbn [l_log l_bio]; [eauto|apply Hs|apply Hs| |done| | | |].
  - intros j Hj. destruct (decide (j = i)) as [->|Hne].
    + rewrite Fi5, Ri, (bool_decide_eq_false_2 (i ∈ H.*1)) by done. unfold in_tx. rewrite Fi2, Fi3. cbn [b2z]. lia.
    + destruct (same_buf_fields _ _ (Fj j Hne)) as (G1 & G2 & G3 & G4 & G5 & G6).
      rewrite G5, (tn_ref _ _ _ Hs j Hj). unfold in_tx. rewrite G2, G3. f_equal. f_equal. apply bool_decide_ext.
      cbn. rewrite elem_of_cons. tauto.
  - intros j b' Hin. destruct (tn_held _ _ _ Hs j b' ltac:(by right)) as [Hj Hu]. split; [done|].
    eapply same_in_use; [apply Fj|done]. intros ->. apply Hni. by eapply fst_in.
  - intros j Hj Hnj. destruct (decide (j = i)) as [->|Hne]; [unfold unlocked; by rewrite Fi4|].
    eapply same_unlocked; [by apply Fj|]. apply Hs; [done|]. cbn. by apply not_elem_of_cons.
  - intros b' Hb'. destruct (tn_pin _ _ _ Hs b' Hb') as (j & Hp). exists j.
    destruct (decide (j = i)) as [->|Hne]; [|by eapply same_pinned; [apply Fj|]].
    destruct Hp as (P1 & [P2 P3] & P4 & P5). split; [done|]. split; [split; congruence|].
    split; [|congruence]. rewrite Fi5, Ri. unfold in_tx. rewrite bool_decide_eq_true_2 by (split; congruence). cbn. lia.
  - intros b' Hb'. unfold bview. cbn [l_bio]. rewrite Hct, Hdk. by apply Hs.
Qed.

End Thread.
End Txn.
