(* ===== verification/Kernel.v ===== *)
(** * The kernel's global state

    The tables of the upper half of the kernel - processes, open files, pipes, inodes -
    beside physical memory and the log (with the buffer cache and the disk below it).
    Pointers into a table are indices into it, null pointers are [None], a [struct pipe]
    is known by the address of its page. *)
From S2P Require Import Prelude Memory Machine Riscv Kalloc Vm Sleeplock Bio Log.

(** kernel/param.h, kernel/fs.h, kernel/stat.h, kernel/pipe.c *)
Definition NPROC : Z := 64.
Definition NCPU : Z := 8.
Definition NOFILE : Z := 16.
Definition NFILE : Z := 100.
Definition NINODE : Z := 50.
Definition NDEV : Z := 10.
Definition ROOTDEV : Z := 1.
Definition MAXARG : Z := 32.
Definition FSSIZE : Z := 2000.
Definition MAXPATH : Z := 128.
Definition ROOTINO : Z := 1.
Definition FSMAGIC : Z := 0x10203040.
Definition NDIRECT : Z := 12.
Definition NINDIRECT : Z := BSIZE / 4.
Definition MAXFILE : Z := NDIRECT + NINDIRECT.
Definition IPB : Z := BSIZE / 64.
Definition BPB : Z := BSIZE * 8.
Definition DIRSIZ : Z := 14.
Definition T_DIR : Z := 1.
Definition T_FILE : Z := 2.
Definition T_DEVICE : Z := 3.
Definition PIPESIZE : Z := 512.

Record superblock := Superblock {
  sb_magic : Z;
  sb_size : Z;
  sb_nblocks : Z;
  sb_ninodes : Z;
  sb_nlog : Z;
  sb_logstart : Z;
  sb_inodestart : Z;
  sb_bmapstart : Z;
}.

Record inode := Inode {
  i_dev : Z;
  i_inum : Z;
  i_ref : Z;
  i_lock : sleeplock;
  i_valid : Z;
  i_type : Z;
  i_major : Z;
  i_minor : Z;
  i_nlink : Z;
  i_size : Z;
  i_addrs : list Z;
}.

Inductive fdtype := FD_NONE | FD_PIPE | FD_INODE | FD_DEVICE.

#[export] Instance fdtype_eq_dec : EqDecision fdtype.
Proof. solve_decision. Defined.

(** struct file: [f_pipe] is the address of the pipe, [f_ip] an inode table index. *)
Record file := File {
  f_type : fdtype;
  f_ref : Z;
  f_readable : Z;
  f_writable : Z;
  f_pipe : Z;
  f_ip : Z;
  f_off : Z;
  f_major : Z;
}.

Record pipe := Pipe {
  pi_data : list Z;
  pi_nread : Z;
  pi_nwrite : Z;
  pi_readopen : Z;
  pi_writeopen : Z;
}.

Inductive procstate := UNUSED | USED | SLEEPING | RUNNABLE | RUNNING | ZOMBIE.

#[export] Instance procstate_eq_dec : EqDecision procstate.
Proof. solve_decision. Defined.

(** struct proc: of the saved [context], the two registers the kernel sets. *)
Record proc := Proc {
  p_state : procstate;
  p_chan : option chan;
  p_killed : Z;
  p_xstate : Z;
  p_pid : Z;
  p_parent : option Z;
  p_kstack : Z;
  p_sz : Z;
  p_pagetable : Z;
  p_trapframe : Z;
  p_ra : Z;
  p_sp : Z;
  p_ofile : list (option Z);
  p_cwd : option Z;
  p_name : list Z;
  p_mask : Z;
}.

(** Zeroed static memory. *)
Definition inode0 : inode := Inode 0 0 0 sl_free 0 0 0 0 0 0 (replicate 13 0).
Definition file0 : file := File FD_NONE 0 0 0 0 0 0 0.
Definition pipe0 : pipe := Pipe (replicate 512 0) 0 0 0 0.
Definition proc0 : proc :=
  Proc UNUSED None 0 0 0 None 0 0 0 0 0 0 (replicate 16 None) None (replicate 16 0) 0.

(** What the kernel prints: the format and its arguments. *)
Definition printed : Type := string * list Z.

Record kst := K {
  k_pm : pmem;
  k_l : lstate;
  k_sb : superblock;
  k_itab : list inode;
  k_ftab : list file;
  k_pipes : gmap Z pipe;
  k_procs : list proc;
  k_initproc : option Z;
  k_nextpid : Z;
  k_ticks : Z;
  k_out : list printed;
}.

Definition set_kpm (x : pmem) (s : kst) : kst :=
  K x (k_l s) (k_sb s) (k_itab s) (k_ftab s) (k_pipes s) (k_procs s) (k_initproc s) (k_nextpid s) (k_ticks s) (k_out s).
Definition set_kl (x : lstate) (s : kst) : kst :=
  K (k_pm s) x (k_sb s) (k_itab s) (k_ftab s) (k_pipes s) (k_procs s) (k_initproc s) (k_nextpid s) (k_ticks s) (k_out s).
Definition set_ksb (x : superblock) (s : kst) : kst :=
  K (k_pm s) (k_l s) x (k_itab s) (k_ftab s) (k_pipes s) (k_procs s) (k_initproc s) (k_nextpid s) (k_ticks s) (k_out s).
Definition set_itab (x : list inode) (s : kst) : kst :=
  K (k_pm s) (k_l s) (k_sb s) x (k_ftab s) (k_pipes s) (k_procs s) (k_initproc s) (k_nextpid s) (k_ticks s) (k_out s).
Definition set_ftab (x : list file) (s : kst) : kst :=
  K (k_pm s) (k_l s) (k_sb s) (k_itab s) x (k_pipes s) (k_procs s) (k_initproc s) (k_nextpid s) (k_ticks s) (k_out s).
Definition set_pipes (x : gmap Z pipe) (s : kst) : kst :=
  K (k_pm s) (k_l s) (k_sb s) (k_itab s) (k_ftab s) x (k_procs s) (k_initproc s) (k_nextpid s) (k_ticks s) (k_out s).
Definition set_procs (x : list proc) (s : kst) : kst :=
  K (k_pm s) (k_l s) (k_sb s) (k_itab s) (k_ftab s) (k_pipes s) x (k_initproc s) (k_nextpid s) (k_ticks s) (k_out s).
Definition set_initproc (x : option Z) (s : kst) : kst :=
  K (k_pm s) (k_l s) (k_sb s) (k_itab s) (k_ftab s) (k_pipes s) (k_procs s) x (k_nextpid s) (k_ticks s) (k_out s).
Definition set_nextpid (x : Z) (s : kst) : kst :=
  K (k_pm s) (k_l s) (k_sb s) (k_itab s) (k_ftab s) (k_pipes s) (k_procs s) (k_initproc s) x (k_ticks s) (k_out s).
Definition set_ticks (x : Z) (s : kst) : kst :=
  K (k_pm s) (k_l s) (k_sb s) (k_itab s) (k_ftab s) (k_pipes s) (k_procs s) (k_initproc s) (k_nextpid s) x (k_out s).
Definition set_out (x : list printed) (s : kst) : kst :=
  K (k_pm s) (k_l s) (k_sb s) (k_itab s) (k_ftab s) (k_pipes s) (k_procs s) (k_initproc s) (k_nextpid s) (k_ticks s) x.

(** Calls of the layers below. *)
Definition on_pm : lens kst pmem := Lens k_pm set_kpm.
Definition on_l : lens kst lstate := Lens k_l set_kl.
Definition on_cache : lens kst bio := Lens (fun s => l_bio (k_l s)) (fun b s => set_kl (LState (l_log (k_l s)) b) s).

Definition mem_ {A} (m : M pmem A) : M kst A := zoom on_pm m.
Definition log_ {A} (m : M lstate A) : M kst A := zoom on_l m.
Definition bio_ {A} (m : M bio A) : M kst A := zoom on_cache m.

Definition printf (fmt : string) (args : list Z) : M kst unit :=
  modify (fun s => set_out (k_out s ++ [(fmt, args)]) s).

(** ** Table entries *)

Definition geti (s : kst) (ip : Z) : inode := znth inode0 (k_itab s) ip.
Definition updi (ip : Z) (f : inode -> inode) (s : kst) : kst :=
  set_itab (zupd (k_itab s) ip (f (geti s ip))) s.
Definition getf (s : kst) (fp : Z) : file := znth file0 (k_ftab s) fp.
Definition updf (fp : Z) (g : file -> file) (s : kst) : kst :=
  set_ftab (zupd (k_ftab s) fp (g (getf s fp))) s.
Definition getp (s : kst) (p : Z) : proc := znth proc0 (k_procs s) p.
Definition updp (p : Z) (f : proc -> proc) (s : kst) : kst :=
  set_procs (zupd (k_procs s) p (f (getp s p))) s.
Definition getpi (s : kst) (pi : Z) : pipe := default pipe0 (k_pipes s !! pi).
Definition updpi (pi : Z) (f : pipe -> pipe) (s : kst) : kst :=
  set_pipes (<[pi := f (getpi s pi)]> (k_pipes s)) s.

Definition iget_field {A} (ip : Z) (f : inode -> A) : M kst A := gets (fun s => f (geti s ip)).
Definition iset (ip : Z) (f : inode -> inode) : M kst unit := modify (updi ip f).
Definition fget {A} (fp : Z) (f : file -> A) : M kst A := gets (fun s => f (getf s fp)).
Definition fset (fp : Z) (f : file -> file) : M kst unit := modify (updf fp f).
Definition pget {A} (p : Z) (f : proc -> A) : M kst A := gets (fun s => f (getp s p)).
Definition pset (p : Z) (f : proc -> proc) : M kst unit := modify (updp p f).
Definition piget {A} (pi : Z) (f : pipe -> A) : M kst A := gets (fun s => f (getpi s pi)).
Definition piset (pi : Z) (f : pipe -> pipe) : M kst unit := modify (updpi pi f).

Definition set_iref (x : Z) (i : inode) : inode :=
  Inode (i_dev i) (i_inum i) x (i_lock i) (i_valid i) (i_type i) (i_major i) (i_minor i) (i_nlink i) (i_size i) (i_addrs i).
Definition set_ilock (x : sleeplock) (i : inode) : inode :=
  Inode (i_dev i) (i_inum i) (i_ref i) x (i_valid i) (i_type i) (i_major i) (i_minor i) (i_nlink i) (i_size i) (i_addrs i).
Definition set_ivalid (x : Z) (i : inode) : inode :=
  Inode (i_dev i) (i_inum i) (i_ref i) (i_lock i) x (i_type i) (i_major i) (i_minor i) (i_nlink i) (i_size i) (i_addrs i).
Definition set_itype (x : Z) (i : inode) : inode :=
  Inode (i_dev i) (i_inum i) (i_ref i) (i_lock i) (i_valid i) x (i_major i) (i_minor i) (i_nlink i) (i_size i) (i_addrs i).
Definition set_idev (major minor : Z) (i : inode) : inode :=
  Inode (i_dev i) (i_inum i) (i_ref i) (i_lock i) (i_valid i) (i_type i) major minor (i_nlink i) (i_size i) (i_addrs i).
Definition set_inlink (x : Z) (i : inode) : inode :=
  Inode (i_dev i) (i_inum i) (i_ref i) (i_lock i) (i_valid i) (i_type i) (i_major i) (i_minor i) x (i_size i) (i_addrs i).
Definition set_isize (x : Z) (i : inode) : inode :=
  Inode (i_dev i) (i_inum i) (i_ref i) (i_lock i) (i_valid i) (i_type i) (i_major i) (i_minor i) (i_nlink i) x (i_addrs i).
Definition set_iaddrs (x : list Z) (i : inode) : inode :=
  Inode (i_dev i) (i_inum i) (i_ref i) (i_lock i) (i_valid i) (i_type i) (i_major i) (i_minor i) (i_nlink i) (i_size i) x.
Definition set_iident (dev inum ref valid : Z) (i : inode) : inode :=
  Inode dev inum ref (i_lock i) valid (i_type i) (i_major i) (i_minor i) (i_nlink i) (i_size i) (i_addrs i).

(** The sleep lock of inode [ip]. *)
Definition inode_lock (ip : Z) : lens kst sleeplock :=
  Lens (fun s => i_lock (geti s ip)) (fun l s => updi ip (set_ilock l) s).

(** ** The current process (kernel/proc.c, myproc) *)

Definition myproc {A} (f : proc -> A) : M kst A :=
  push_off ;;
  p <- asks c_proc ;;
  pop_off ;;
  pget p f.

(** A destination or a source is a user address or a kernel buffer; a kernel buffer is
    passed and returned by value. *)
Inductive source := USrc (va : Z) | KSrc (bytes : list Z).

Section Either.
Context {image : KernelImage}.

(** [either_copyout]: the status; the bytes that go to a kernel buffer are the caller's. *)
Definition either_copyout (dst : option Z) (src : list Z) : M kst Z :=
  pt <- myproc p_pagetable ;;
  match dst with
  | Some va => mem_ (copyout pt va src)
  | None => ret 0
  end.

(** [either_copyin]: the status and the bytes stored at [dst]. *)
Definition either_copyin (src : source) (off len : Z) : M kst (Z * list Z) :=
  pt <- myproc p_pagetable ;;
  match src with
  | USrc va => mem_ (copyin pt (u64 (va + off)) len)
  | KSrc bytes => ret (0, take (Z.to_nat len) (drop (Z.to_nat off) bytes))
  end.

End Either.
