(* ===== verification/Fs.v ===== *)
(** * The file system (kernel/fs.c): the operations

    Blocks, inodes, directories and paths over the log.  On-disk structures are bytes of
    a block; an inode of the table is known by its index.  Paths and names are lists of
    bytes without their NUL; a name buffer holds [DIRSIZ] bytes. *)
From S2P Require Import Prelude Bytes Memory Machine Kalloc Vm Sleeplock Bio Log Kernel.

Definition min_ (a b : Z) : Z := if a <? b then a else b.

Definition IBLOCK (i : Z) (sb : superblock) : Z := u32 (i / IPB + sb_inodestart sb).
Definition BBLOCK (b : Z) (sb : superblock) : Z := u32 (b / BPB + sb_bmapstart sb).

(** The superblock in a block's bytes. *)
Definition sb_of (d : list Z) : superblock :=
  Superblock (get32 d 0) (get32 d 4) (get32 d 8) (get32 d 12) (get32 d 16) (get32 d 20) (get32 d 24) (get32 d 28).

Definition readsb (dev : Z) : M kst unit :=
  bp <- bio_ (bread dev 1) ;;
  d <- bio_ (mget bp b_data) ;;
  modify (set_ksb (sb_of d)) ;;
  bio_ (brelse bp).

Definition fsinit (dev : Z) : M kst unit :=
  readsb dev ;;
  sb <- gets k_sb ;;
  if negb (sb_magic sb =? FSMAGIC) then panic "invalid file system" else
  log_ (initlog dev (sb_logstart sb) (sb_nlog sb)).

(** ** Blocks *)

Definition bzero (dev bno : Z) : M kst unit :=
  bp <- bio_ (bread dev (u32 bno)) ;;
  bio_ (bset_data bp (replicate (Z.to_nat BSIZE) 0)) ;;
  log_ (log_write bp) ;;
  bio_ (brelse bp).

Definition bit_of (bi : Z) : Z := Z.shiftl 1 (bi mod 8).

(** The inner loop of [balloc]: the first free bit of a bitmap block. *)
Fixpoint balloc_scan (k : nat) (d : list Z) (size b bi : Z) : option Z :=
  match k with
  | O => None
  | S k' =>
      if (bi <? BPB) && (b + bi <? size) then
        if Z.land (znth 0 d (bi / 8)) (bit_of bi) =? 0 then Some bi else balloc_scan k' d size b (bi + 1)
      else None
  end.

Fixpoint balloc_loop (k : nat) (dev b : Z) : M kst Z :=
  sb <- gets k_sb ;;
  if b <? sb_size sb then
    match k with
    | O => diverge
    | S k' =>
        bp <- bio_ (bread dev (BBLOCK b sb)) ;;
        d <- bio_ (mget bp b_data) ;;
        match balloc_scan (Z.to_nat BPB) d (sb_size sb) b 0 with
        | Some bi =>
            bio_ (bset_data bp (zupd d (bi / 8) (Z.lor (znth 0 d (bi / 8)) (bit_of bi)))) ;;
            log_ (log_write bp) ;;
            bio_ (brelse bp) ;;
            bzero dev (b + bi) ;;
            ret (b + bi)
        | None =>
            bio_ (brelse bp) ;;
            balloc_loop k' dev (b + BPB)
        end
    end
  else
    printf "balloc: out of blocks\n" [] ;;
    ret 0.

(** One iteration per bitmap block. *)
Definition balloc (dev : Z) : M kst Z :=
  sb <- gets k_sb ;;
  balloc_loop (Z.to_nat (sb_size sb / BPB + 1)) dev 0.

Definition bfree (dev b : Z) : M kst unit :=
  sb <- gets k_sb ;;
  bp <- bio_ (bread dev (BBLOCK b sb)) ;;
  let bi := b mod BPB in
  d <- bio_ (mget bp b_data) ;;
  if Z.land (znth 0 d (bi / 8)) (bit_of bi) =? 0 then panic "freeing free block" else
  bio_ (bset_data bp (zupd d (bi / 8) (Z.land (znth 0 d (bi / 8)) (Z.lnot (bit_of bi))))) ;;
  log_ (log_write bp) ;;
  bio_ (brelse bp).

(** ** Inodes *)

Fixpoint iinit_loop (k : nat) (i : Z) : M kst unit :=
  match k with
  | O => ret tt
  | S k' => initsleeplock (inode_lock i) (LInodeSleep i) ;; iinit_loop k' (i + 1)
  end.

Definition iinit : M kst unit :=
  initlock LItable ;;
  iinit_loop (Z.to_nat NINODE) 0.

(** [struct dinode]: type, major, minor, nlink (16 bits each), size, and 13 addresses. *)
Definition dinode_off (inum : Z) : Z := 64 * (inum mod IPB).

Definition addrs_bytes (a : list Z) : list Z := concat (map (le_bytes 4) a).

Definition dinode_bytes (i : inode) : list Z :=
  le_bytes 2 (u16 (i_type i)) ++ le_bytes 2 (u16 (i_major i)) ++ le_bytes 2 (u16 (i_minor i)) ++
  le_bytes 2 (u16 (i_nlink i)) ++ le_bytes 4 (i_size i) ++ addrs_bytes (i_addrs i).

Definition read_addrs (d : list Z) (off : Z) : list Z :=
  map (fun j => get32 d (off + 4 * j)) (seqZ 0 13).

(** The fields [ilock] loads from a dinode at [off]. *)
Definition load_dinode (d : list Z) (off : Z) (i : inode) : inode :=
  Inode (i_dev i) (i_inum i) (i_ref i) (i_lock i) (i_valid i)
    (s16 (get16 d off)) (s16 (get16 d (off + 2))) (s16 (get16 d (off + 4))) (s16 (get16 d (off + 6)))
    (get32 d (off + 8)) (read_addrs d (off + 12)).

(** The table scan of [iget]: a referenced entry for the inode, and the first free one. *)
Fixpoint iget_scan (t : list inode) (dev inum ip : Z) (empty : option Z) : option Z * option Z :=
  match t with
  | [] => (None, empty)
  | x :: t' =>
      if (0 <? i_ref x) && (i_dev x =? dev) && (i_inum x =? inum) then (Some ip, empty)
      else iget_scan t' dev inum (ip + 1)
             (match empty with
              | Some e => Some e
              | None => if i_ref x =? 0 then Some ip else None
              end)
  end.

Definition iget (dev inum : Z) : M kst Z :=
  acquire LItable ;;
  t <- gets k_itab ;;
  match iget_scan t dev inum 0 None with
  | (Some ip, _) =>
      iset ip (fun i => set_iref (i_ref i + 1) i) ;;
      release LItable ;;
      ret ip
  | (None, None) => panic "iget: no inodes"
  | (None, Some ip) =>
      iset ip (set_iident dev inum 1 0) ;;
      release LItable ;;
      ret ip
  end.

Fixpoint ialloc_loop (k : nat) (dev type inum : Z) : M kst (option Z) :=
  sb <- gets k_sb ;;
  if inum <? sb_ninodes sb then
    match k with
    | O => diverge
    | S k' =>
        bp <- bio_ (bread dev (IBLOCK inum sb)) ;;
        d <- bio_ (mget bp b_data) ;;
        if get16 d (dinode_off inum) =? 0 then
          bio_ (bset_data bp (put16 (splice d (dinode_off inum) (replicate 64 0)) (dinode_off inum) (u16 type))) ;;
          log_ (log_write bp) ;;
          bio_ (brelse bp) ;;
          ip <- iget dev inum ;;
          ret (Some ip)
        else
          bio_ (brelse bp) ;;
          ialloc_loop k' dev type (inum + 1)
    end
  else
    printf "ialloc: no inodes\n" [] ;;
    ret None.

Definition ialloc (dev type : Z) : M kst (option Z) :=
  sb <- gets k_sb ;;
  ialloc_loop (Z.to_nat (sb_ninodes sb)) dev type 1.

Definition iupdate (ip : Z) : M kst unit :=
  i <- gets (fun s => geti s ip) ;;
  sb <- gets k_sb ;;
  bp <- bio_ (bread (i_dev i) (IBLOCK (i_inum i) sb)) ;;
  d <- bio_ (mget bp b_data) ;;
  bio_ (bset_data bp (splice d (dinode_off (i_inum i)) (dinode_bytes i))) ;;
  log_ (log_write bp) ;;
  bio_ (brelse bp).

Definition idup (ip : Z) : M kst Z :=
  acquire LItable ;;
  iset ip (fun i => set_iref (i_ref i + 1) i) ;;
  release LItable ;;
  ret ip.

Definition ilock (ip : Z) : M kst unit :=
  ref <- iget_field ip i_ref ;;
  if ref <? 1 then panic "ilock" else
  acquiresleep (inode_lock ip) (LInodeSleep ip) (ChInode ip) ;;
  i <- gets (fun s => geti s ip) ;;
  if i_valid i =? 0 then
    sb <- gets k_sb ;;
    bp <- bio_ (bread (i_dev i) (IBLOCK (i_inum i) sb)) ;;
    d <- bio_ (mget bp b_data) ;;
    iset ip (load_dinode d (dinode_off (i_inum i))) ;;
    bio_ (brelse bp) ;;
    iset ip (set_ivalid 1) ;;
    type <- iget_field ip i_type ;;
    if type =? 0 then panic "ilock: no type" else ret tt
  else ret tt.

Definition iunlock (ip : Z) : M kst unit :=
  h <- holdingsleep (inode_lock ip) (LInodeSleep ip) ;;
  ref <- iget_field ip i_ref ;;
  if negb h || (ref <? 1) then panic "iunlock" else
  releasesleep (inode_lock ip) (LInodeSleep ip) (ChInode ip).

(** ** Inode content *)

Definition bmap_addr (ip j : Z) : M kst Z :=
  addr <- iget_field ip (fun i => znth 0 (i_addrs i) j) ;;
  if addr =? 0 then
    dev <- iget_field ip i_dev ;;
    addr <- balloc dev ;;
    if addr =? 0 then ret 0 else
    iset ip (fun i => set_iaddrs (zupd (i_addrs i) j addr) i) ;;
    ret addr
  else ret addr.

Definition bmap (ip bn : Z) : M kst Z :=
  if bn <? NDIRECT then bmap_addr ip bn else
  let bn := bn - NDIRECT in
  if bn <? NINDIRECT then
    addr <- bmap_addr ip NDIRECT ;;
    if addr =? 0 then ret 0 else
    dev <- iget_field ip i_dev ;;
    bp <- bio_ (bread dev addr) ;;
    a <- bio_ (mget bp b_data) ;;
    let addr := get32 a (4 * bn) in
    addr <-
      (if addr =? 0 then
         addr <- balloc dev ;;
         when (truth addr)
           (a <- bio_ (mget bp b_data) ;;
            bio_ (bset_data bp (put32 a (4 * bn) addr)) ;;
            log_ (log_write bp)) ;;
         ret addr
       else ret addr) ;;
    bio_ (brelse bp) ;;
    ret addr
  else panic "bmap: out of range".

Fixpoint itrunc_direct (k : nat) (ip i : Z) : M kst unit :=
  match k with
  | O => ret tt
  | S k' =>
      a <- iget_field ip (fun x => znth 0 (i_addrs x) i) ;;
      when (truth a)
        (dev <- iget_field ip i_dev ;;
         bfree dev a ;;
         iset ip (fun x => set_iaddrs (zupd (i_addrs x) i 0) x)) ;;
      itrunc_direct k' ip (i + 1)
  end.

Fixpoint itrunc_indirect (k : nat) (dev bp j : Z) : M kst unit :=
  match k with
  | O => ret tt
  | S k' =>
      a <- bio_ (mget bp b_data) ;;
      when (truth (get32 a (4 * j))) (bfree dev (get32 a (4 * j))) ;;
      itrunc_indirect k' dev bp (j + 1)
  end.

Definition itrunc (ip : Z) : M kst unit :=
  itrunc_direct (Z.to_nat NDIRECT) ip 0 ;;
  a <- iget_field ip (fun x => znth 0 (i_addrs x) NDIRECT) ;;
  when (truth a)
    (dev <- iget_field ip i_dev ;;
     bp <- bio_ (bread dev a) ;;
     itrunc_indirect (Z.to_nat NINDIRECT) dev bp 0 ;;
     bio_ (brelse bp) ;;
     bfree dev a ;;
     iset ip (fun x => set_iaddrs (zupd (i_addrs x) NDIRECT 0) x)) ;;
  iset ip (set_isize 0) ;;
  iupdate ip.

Definition iput (ip : Z) : M kst unit :=
  acquire LItable ;;
  i <- gets (fun s => geti s ip) ;;
  when ((i_ref i =? 1) && truth (i_valid i) && (i_nlink i =? 0))
    (acquiresleep (inode_lock ip) (LInodeSleep ip) (ChInode ip) ;;
     release LItable ;;
     itrunc ip ;;
     iset ip (set_itype 0) ;;
     iupdate ip ;;
     iset ip (set_ivalid 0) ;;
     releasesleep (inode_lock ip) (LInodeSleep ip) (ChInode ip) ;;
     acquire LItable) ;;
  iset ip (fun i => set_iref (i_ref i - 1) i) ;;
  release LItable.

Definition iunlockput (ip : Z) : M kst unit :=
  iunlock ip ;;
  iput ip.

(** [struct stat]: the copy that [stati] makes. *)
Record stat := Stat { st_dev : Z; st_ino : Z; st_type : Z; st_nlink : Z; st_size : Z }.

Definition stati (ip : Z) : M kst stat :=
  iget_field ip (fun i => Stat (s32 (i_dev i)) (i_inum i) (i_type i) (i_nlink i) (i_size i)).

(** The destination of the next chunk. *)
Definition dst_add (dst : option Z) (m : Z) : option Z := (fun va => u64 (va + m)) <$> dst.

Section Content.
Context {image : KernelImage}.

(** Returns the number of bytes, or -1, and the bytes stored in a kernel destination. *)
Fixpoint readi_loop (k : nat) (ip : Z) (dst : option Z) (off n tot : Z) (acc : list Z) : M kst (Z * list Z) :=
  if tot <? n then
    match k with
    | O => diverge
    | S k' =>
        addr <- bmap ip (off / BSIZE) ;;
        if addr =? 0 then ret (tot, acc) else
        dev <- iget_field ip i_dev ;;
        bp <- bio_ (bread dev addr) ;;
        let m := min_ (n - tot) (BSIZE - off mod BSIZE) in
        d <- bio_ (mget bp b_data) ;;
        let bytes := slice d (off mod BSIZE) m in
        r <- either_copyout dst bytes ;;
        if r =? -1 then
          bio_ (brelse bp) ;;
          ret (-1, acc)
        else
          bio_ (brelse bp) ;;
          readi_loop k' ip (dst_add dst m) (off + m) n (tot + m)
            (match dst with Some _ => acc | None => acc ++ bytes end)
    end
  else ret (tot, acc).

Definition readi (ip : Z) (dst : option Z) (off n : Z) : M kst (Z * list Z) :=
  size <- iget_field ip i_size ;;
  if (size <? off) || (u32 (off + n) <? off) then ret (0, []) else
  let n := if size <? u32 (off + n) then size - off else n in
  readi_loop (Z.to_nat n) ip dst off n 0 [].

(** Returns the number of bytes written and the offset reached. *)
Fixpoint writei_loop (k : nat) (ip : Z) (src : source) (off n tot : Z) : M kst (Z * Z) :=
  if tot <? n then
    match k with
    | O => diverge
    | S k' =>
        addr <- bmap ip (off / BSIZE) ;;
        if addr =? 0 then ret (tot, off) else
        dev <- iget_field ip i_dev ;;
        bp <- bio_ (bread dev addr) ;;
        let m := min_ (n - tot) (BSIZE - off mod BSIZE) in
        rb <- either_copyin src tot m ;;
        let '(r, bytes) := (rb : Z * list Z) in
        d <- bio_ (mget bp b_data) ;;
        bio_ (bset_data bp (splice d (off mod BSIZE) bytes)) ;;
        if r =? -1 then
          bio_ (brelse bp) ;;
          ret (tot, off)
        else
          log_ (log_write bp) ;;
          bio_ (brelse bp) ;;
          writei_loop k' ip src (off + m) n (tot + m)
    end
  else ret (tot, off).

Definition writei (ip : Z) (src : source) (off n : Z) : M kst Z :=
  size <- iget_field ip i_size ;;
  if (size <? off) || (u32 (off + n) <? off) then ret (-1) else
  if MAXFILE * BSIZE <? u32 (off + n) then ret (-1) else
  r <- writei_loop (Z.to_nat n) ip src off n 0 ;;
  let '(tot, off) := (r : Z * Z) in
  size <- iget_field ip i_size ;;
  when (size <? off) (iset ip (set_isize off)) ;;
  iupdate ip ;;
  ret tot.

(** ** Directories *)

Definition namecmp (s t : list Z) : Z := bytes_strncmp (Z.to_nat DIRSIZ) s t.

(** [struct dirent]: the inode number and the name. *)
Definition de_inum (de : list Z) : Z := get16 de 0.
Definition de_name (de : list Z) : list Z := slice de 2 DIRSIZ.
Definition dirent_bytes (inum : Z) (name : list Z) : list Z := le_bytes 2 (u16 inum) ++ name.

(** Returns the inode and the offset of the entry. *)
Fixpoint dirlookup_loop (k : nat) (dp : Z) (name : list Z) (off : Z) : M kst (option (Z * Z)) :=
  size <- iget_field dp i_size ;;
  if off <? size then
    match k with
    | O => diverge
    | S k' =>
        r <- readi dp None off 16 ;;
        let '(n, de) := (r : Z * list Z) in
        if negb (n =? 16) then panic "dirlookup read" else
        if de_inum de =? 0 then dirlookup_loop k' dp name (off + 16) else
        if namecmp name (de_name de) =? 0 then
          dev <- iget_field dp i_dev ;;
          ip <- iget dev (de_inum de) ;;
          ret (Some (ip, off))
        else dirlookup_loop k' dp name (off + 16)
    end
  else ret None.

Definition dirlookup (dp : Z) (name : list Z) : M kst (option (Z * Z)) :=
  type <- iget_field dp i_type ;;
  if negb (type =? T_DIR) then panic "dirlookup not DIR" else
  size <- iget_field dp i_size ;;
  dirlookup_loop (Z.to_nat (size / 16 + 1)) dp name 0.

(** The offset of the first empty entry, or the end of the directory. *)
Fixpoint dirlink_loop (k : nat) (dp off : Z) : M kst Z :=
  size <- iget_field dp i_size ;;
  if off <? size then
    match k with
    | O => diverge
    | S k' =>
        r <- readi dp None off 16 ;;
        let '(n, de) := (r : Z * list Z) in
        if negb (n =? 16) then panic "dirlink read" else
        if de_inum de =? 0 then ret off else dirlink_loop k' dp (off + 16)
    end
  else ret off.

Definition dirlink (dp : Z) (name : list Z) (inum : Z) : M kst Z :=
  r <- dirlookup dp name ;;
  match r with
  | Some (ip, _) => iput ip ;; ret (-1)
  | None =>
      size <- iget_field dp i_size ;;
      off <- dirlink_loop (Z.to_nat (size / 16 + 1)) dp 0 ;;
      let de := dirent_bytes inum (bytes_strncpy (Z.to_nat DIRSIZ) name) in
      n <- writei dp (KSrc de) off 16 ;;
      if negb (n =? 16) then ret (-1) else ret 0
  end.

(** ** Paths *)

Definition SLASH : Z := 47.

Fixpoint skip_slashes (path : list Z) : list Z :=
  match path with
  | [] => []
  | x :: path' => if x =? SLASH then skip_slashes path' else path
  end.

(** The first element of a path that starts with one, and what follows it. *)
Fixpoint take_elem (path : list Z) : list Z * list Z :=
  match path with
  | [] => ([], [])
  | x :: path' =>
      if x =? SLASH then ([], path)
      else let '(e, rest) := take_elem path' in (x :: e, rest)
  end.

(** The rest of the path and the contents of [name], or null. *)
Definition skipelem (path name : list Z) : option (list Z * list Z) :=
  match skip_slashes path with
  | [] => None
  | s =>
      let '(e, rest) := take_elem s in
      let name := if DIRSIZ <=? zlen e then take (Z.to_nat DIRSIZ) e else splice name 0 (e ++ [0]) in
      Some (skip_slashes rest, name)
  end.

(** Returns the inode and the contents of [name]. *)
Fixpoint namex_loop (k : nat) (ip : Z) (path : list Z) (nameiparent : bool) (name : list Z) : M kst (option Z * list Z) :=
  match skipelem path name with
  | None =>
      if nameiparent then
        iput ip ;;
        ret (None, name)
      else ret (Some ip, name)
  | Some (path, name) =>
      match k with
      | O => diverge
      | S k' =>
          ilock ip ;;
          type <- iget_field ip i_type ;;
          if negb (type =? T_DIR) then
            iunlockput ip ;;
            ret (None, name)
          else if nameiparent && match path with [] => true | _ => false end then
            iunlock ip ;;
            ret (Some ip, name)
          else
            r <- dirlookup ip name ;;
            match r with
            | None => iunlockput ip ;; ret (None, name)
            | Some (next, _) =>
                iunlockput ip ;;
                namex_loop k' next path nameiparent name
            end
      end
  end.

(** The name buffer of the callers is uninitialised; its bytes after a NUL are never read. *)
Definition name_buf : list Z := replicate (Z.to_nat DIRSIZ) 0.

Definition namex (path : list Z) (nameiparent : bool) : M kst (option Z * list Z) :=
  ip <- (if hd0 path =? SLASH then iget ROOTDEV ROOTINO
         else
           cwd <- myproc p_cwd ;;
           match cwd with
           | Some ip => idup ip
           | None => panic "kerneltrap" (* a null pointer *)
           end) ;;
  namex_loop (length path) ip path nameiparent name_buf.

Definition namei (path : list Z) : M kst (option Z) :=
  r <- namex path false ;; ret (fst (r : option Z * list Z)).

Definition nameiparent (path : list Z) : M kst (option Z * list Z) := namex path true.

End Content.
