(* ===== verification/FsSteps.v ===== *)
(** * Blocks as the file system uses them

    The operations of the cache and of the log on the kernel's state, inside a transaction:
    each is a read or an update of [kview], the map from blocks to contents. *)
From S2P Require Import Prelude Bytes Memory Machine Kalloc Vm Sleeplock Bio BioProps BioSpec BioSteps.
From S2P Require Import Log LogProps LogLoops LogCrash LogCommit LogSpec Wp Txn Kernel Fs.

Section Steps.
Context (dev : Z) (Hdev : dev <> 0).

Definition kview (k : kst) (b : Z) : list Z := bview dev (k_l k) b.
Definition kbuf (k : kst) (i : Z) : buf := getb (l_bio (k_l k)) i.
Definition klog (k : kst) : logst := l_log (k_l k).
Definition ktxn (pid : Z) (k : kst) (H : list (Z * Z)) : Prop := txn dev pid (k_l k) H.

(** Only the log, the inode table and the console output may differ. *)
Definition fs_frame (k k' : kst) : Prop :=
  k' = set_out (k_out k') (set_itab (k_itab k') (set_kl (k_l k') k)).

Lemma fs_frame_refl k : fs_frame k k.
Proof using. by destruct k. Qed.

Lemma fs_frame_trans k1 k2 k3 : fs_frame k1 k2 -> fs_frame k2 k3 -> fs_frame k1 k3.
Proof using. unfold fs_frame. intros E1 E2. rewrite E2, E1. by destruct k1, k2, k3. Qed.

Lemma fs_frame_updi k k' ip f : fs_frame k k' -> fs_frame k (updi ip f k').
Proof using. unfold fs_frame. intros E. rewrite E. by destruct k, k'. Qed.

Lemma fs_frame_sb k k' : fs_frame k k' -> k_sb k' = k_sb k.
Proof using. intros ->. by destruct k. Qed.

Lemma fs_frame_pm k k' : fs_frame k k' -> k_pm k' = k_pm k.
Proof using. intros ->. by destruct k. Qed.

Lemma fs_frame_procs k k' : fs_frame k k' -> k_procs k' = k_procs k.
Proof using. intros ->. by destruct k. Qed.

(** [k'] is [k] after the blocks of [ws] were changed and recorded. *)
Record advanced (k : kst) (ws : list (Z * list Z)) (k' : kst) : Prop := {
  av_frame : fs_frame k k';
  av_view : forall b, kview k' b = over ws (kview k) b;
  av_log : klog k' = foldl (fun l w => recorded w.1 l) (klog k) ws;
  av_disk : disk (l_bio (k_l k')) = disk (l_bio (k_l k));
  av_writes : writes (l_bio (k_l k')) = writes (l_bio (k_l k));
}.

Lemma advanced_refl k : advanced k [] k.
Proof using. split; try done. apply fs_frame_refl. Qed.

Lemma advanced_trans k1 ws1 k2 ws2 k3 :
  advanced k1 ws1 k2 -> advanced k2 ws2 k3 -> advanced k1 (ws1 ++ ws2) k3.
Proof using.
  intros [A1 B1 C1 D1 E1] [A2 B2 C2 D2 E2]. split.
  - by eapply fs_frame_trans.
  - intros b. rewrite B2, over_app. by apply over_ext.
  - by rewrite C2, C1, foldl_app.
  - congruence.
  - congruence.
Qed.

(** The inode table does not matter. *)
Lemma advanced_itab_r k ws k' t : advanced k ws k' -> advanced k ws (set_itab t k').
Proof using. intros [A B C D E]. split; try done. red in A |- *. rewrite A. by destruct k, k'. Qed.

Lemma advanced_itab_l k ws k' t : advanced (set_itab t k) ws k' -> advanced k ws k'.
Proof using. intros [A B C D E]. by split. Qed.

Lemma advanced_0l k1 k2 ws k3 : advanced k1 [] k2 -> advanced k2 ws k3 -> advanced k1 ws k3.
Proof using. apply (advanced_trans k1 []). Qed.

Lemma advanced_0r k1 k2 ws k3 : advanced k1 ws k2 -> advanced k2 [] k3 -> advanced k1 ws k3.
Proof using. intros H1 H2. rewrite <- (app_nil_r ws). by eapply advanced_trans. Qed.

Lemma advanced_sb k ws k' : advanced k ws k' -> k_sb k' = k_sb k.
Proof using. intros [H _ _ _ _]. by apply fs_frame_sb. Qed.

Lemma recorded_n b l : lg_n (recorded b l) <= lg_n l + 1 /\ lg_n l <= lg_n (recorded b l).
Proof using. unfold recorded. destruct (decide _); cbn; lia. Qed.

Lemma recorded_same b l :
  lg_start (recorded b l) = lg_start l /\ lg_size (recorded b l) = lg_size l /\
  lg_outstanding (recorded b l) = lg_outstanding l /\ lg_committing (recorded b l) = lg_committing l.
Proof using. unfold recorded. by destruct (decide _). Qed.

Lemma recorded_all_same (ws : list (Z * list Z)) l :
  let l' := foldl (fun l w => recorded w.1 l) l ws in
  lg_start l' = lg_start l /\ lg_size l' = lg_size l /\ lg_outstanding l' = lg_outstanding l /\
  lg_committing l' = lg_committing l /\ lg_n l' <= lg_n l + zlen ws.
Proof using.
  revert l. induction ws as [|w ws IH]; intros l; cbn; [unfold zlen; cbn; repeat split; lia|].
  destruct (IH (recorded w.1 l)) as (A & B & C & D & E). destruct (recorded_same w.1 l) as (F1 & F2 & F3 & F4).
  pose proof (recorded_n w.1 l). unfold zlen in *. cbn. repeat split; congruence || lia.
Qed.

Lemma advanced_start k ws k' : advanced k ws k' -> lg_start (klog k') = lg_start (klog k).
Proof using. intros H. rewrite (av_log _ _ _ H). by destruct (recorded_all_same ws (klog k)). Qed.

Lemma advanced_in_log k ws k' b : advanced k ws k' -> in_log (klog k') b <-> in_log (klog k) b.
Proof using.
  intros H. unfold in_log. rewrite (advanced_start _ _ _ H), (av_log _ _ _ H).
  by destruct (recorded_all_same ws (klog k)) as (_ & -> & _).
Qed.

(** The log is the same one, in the same operation. *)
Definition same_geom (k k' : kst) : Prop :=
  lg_start (klog k') = lg_start (klog k) /\ lg_size (klog k') = lg_size (klog k) /\
  lg_outstanding (klog k') = lg_outstanding (klog k).

Lemma advanced_geom k ws k' : advanced k ws k' -> same_geom k k'.
Proof using.
  intros H. unfold same_geom. rewrite (av_log _ _ _ H). by destruct (recorded_all_same ws (klog k)) as (? & ? & ? & _).
Qed.

Lemma same_geom_trans k1 k2 k3 : same_geom k1 k2 -> same_geom k2 k3 -> same_geom k1 k3.
Proof using. unfold same_geom. intros (? & ? & ?) (? & ? & ?). repeat split; congruence. Qed.

Lemma advanced_room k ws k' n : advanced k ws k' -> room (k_l k) (zlen ws + n) -> room (k_l k') n.
Proof using.
  intros H (R0 & R1 & R2). unfold room. fold (klog k') (klog k) in *. rewrite (av_log _ _ _ H).
  destruct (recorded_all_same ws (klog k)) as (_ & E2 & E3 & _ & E5). rewrite E2, E3. lia.
Qed.

Lemma room_tx pid k H n : ktxn pid k H -> room (k_l k) n -> Z.of_nat (length (tx (klog k))) + n < 30.
Proof using.
  intros Hs (_ & R1 & R2). unfold klog. rewrite (length_tx dev _ (tn_geom _ _ _ _ Hs) (tn_tx _ _ _ _ Hs)).
  destruct (tn_tx _ _ _ _ Hs) as [[? ?] _ _ _ _]. unfold LOGSIZE, MAXOPBLOCKS in *. lia.
Qed.

(** ** Steps *)

Section Thread.
Context (c0 : ctx) (Hc0 : idle c0).

Lemma set_kl_frame k l : fs_frame k (set_kl l k).
Proof using. by destruct k. Qed.

Lemma wp_bread c k H b (Q : Z -> kst -> Prop) :
  same_ctx c0 c -> ktxn (c_pid c0) k H -> b ∉ H.*2 -> (length (tx (klog k)) + length H < 30)%nat ->
  (forall i k', advanced k [] k' -> ktxn (c_pid c0) k' ((i, b) :: H) -> k_itab k' = k_itab k -> k_out k' = k_out k ->
     b_data (kbuf k' i) = kview k b -> (forall j, j ∈ H.*1 -> b_data (kbuf k' j) = b_data (kbuf k j)) -> Q i k') ->
  wp (bio_ (bread dev b)) c k Q.
Proof using Hdev Hc0.
  intros Hcc Hs Hb Hlt HQ. rewrite <- (same_pid _ _ Hcc) in *. pose proof (idle_same _ _ Hcc Hc0) as Hc. destruct (bread_txn dev Hdev c Hc (k_l k) H b Hs Hb Hlt) as (i & s' & R & Hs' & Hd & Hj & Hv & Hdk & Hwr).
  apply wp_zoom. eapply wp_done0; [exact R|]. cbn [update on_cache]. apply HQ; try done.
  intros j Hin. unfold kbuf. cbn. by rewrite Hj.
Qed.

Lemma wp_brelse c k H i b (Q : unit -> kst -> Prop) :
  same_ctx c0 c -> ktxn (c_pid c0) k ((i, b) :: H) ->
  (forall k', advanced k [] k' -> ktxn (c_pid c0) k' H -> k_itab k' = k_itab k -> k_out k' = k_out k ->
     (forall j, j ∈ H.*1 -> b_data (kbuf k' j) = b_data (kbuf k j)) -> Q tt k') ->
  wp (bio_ (brelse i)) c k Q.
Proof using Hdev Hc0.
  intros Hcc Hs HQ. rewrite <- (same_pid _ _ Hcc) in *. pose proof (idle_same _ _ Hcc Hc0) as Hc. destruct (brelse_txn dev Hdev c Hc (k_l k) H i b Hs) as (s' & R & Hs' & Hj & Hv & Hdk & Hwr).
  apply wp_zoom. eapply wp_done; [exact R|]. cbn [update on_cache]. by apply HQ.
Qed.

(** Read a field of the current process. *)
Lemma wp_myproc {A B} (g : proc -> A) (f : A -> M kst B) c k (Q : B -> kst -> Prop) :
  same_ctx c0 c -> wp (f (g (getp k (c_proc c0)))) c k Q -> wp (x <- myproc g ;; f x) c k Q.
Proof using Hc0.
  intros Hcc H. destruct (idle_same _ _ Hcc Hc0) as [[Hok Hst] _]. rewrite <- (same_proc _ _ Hcc) in H.
  assert (myproc g c k = Done (g (getp k (c_proc c))) c k) as E.
  { unfold myproc. rewrite (bind_done _ _ _ _ _ _ _ (push_off_run c k)). rewrite bind_asks.
    rewrite (bind_done _ _ _ _ _ _ _ (pop_off_pushed c k Hok)). by rewrite Hst. }
  unfold wp, wpc. by rewrite (bind_done _ _ _ _ _ _ _ E).
Qed.

(** Read a field of a held buffer. *)
Lemma wp_bget {A B} (g : buf -> A) (f : A -> M kst B) c k i (Q : B -> kst -> Prop) :
  wp (f (g (kbuf k i))) c k Q -> wp (x <- bio_ (mget i g) ;; f x) c k Q.
Proof using.
  unfold wp, wpc, bio_, zoom, bind, mget, gets. cbn. destruct k as [? [] ? ? ? ? ? ? ? ? ?]. done.
Qed.

(** Change a held block and record it. *)
Lemma wp_update_end c k H i b d (Q : unit -> kst -> Prop) :
  same_ctx c0 c -> ktxn (c_pid c0) k H -> (i, b) ∈ H -> length d = 1024%nat -> 0 <= b < 2147483648 -> ~ in_log (klog k) b ->
  room (k_l k) 1 ->
  (forall k', advanced k [(b, d)] k' -> ktxn (c_pid c0) k' H -> k_itab k' = k_itab k -> k_out k' = k_out k ->
     b_data (kbuf k' i) = d -> (forall j, j <> i -> b_data (kbuf k' j) = b_data (kbuf k j)) -> Q tt k') ->
  wp (bio_ (bset_data i d) ;; log_ (log_write i)) c k Q.
Proof using Hdev Hc0.
  intros Hcc Hs Hin Hlen Hb Hout Hroom HQ. rewrite <- (same_pid _ _ Hcc) in *. pose proof (idle_same _ _ Hcc Hc0) as Hc.
  destruct (update_txn dev Hdev c Hc (k_l k) H i b d Hs Hin Hlen Hb Hout Hroom)
    as (s1 & s' & R1 & R2 & Hs' & Hd & Hj & Hl & Hv & Hdk & Hwr).
  assert (bio_ (bset_data i d) c k = Done tt c (set_kl (LState (klog k) s1) k)) as E1.
  { unfold bio_. by rewrite (zoom_done on_cache _ c k tt c s1 R1). }
  eapply wp_done0.
  { rewrite (bind_done _ _ _ _ _ _ _ E1).
    exact (zoom_done on_l (log_write i) c (set_kl (LState (klog k) s1) k) tt c s' R2). }
  apply HQ; try done.
  intros j Hne. unfold kbuf. cbn. by rewrite Hj.
Qed.

Lemma wp_update {A} (f : unit -> M kst A) c k H i b d (Q : A -> kst -> Prop) :
  same_ctx c0 c -> ktxn (c_pid c0) k H -> (i, b) ∈ H -> length d = 1024%nat -> 0 <= b < 2147483648 -> ~ in_log (klog k) b ->
  room (k_l k) 1 ->
  (forall k' c1, same_ctx c0 c1 -> advanced k [(b, d)] k' -> ktxn (c_pid c0) k' H -> k_itab k' = k_itab k -> k_out k' = k_out k ->
     b_data (kbuf k' i) = d -> (forall j, j <> i -> b_data (kbuf k' j) = b_data (kbuf k j)) -> wp (f tt) c1 k' Q) ->
  wp (bio_ (bset_data i d) ;; x <- log_ (log_write i) ;; f x) c k Q.
Proof using Hdev Hc0.
  intros Hcc Hs Hin Hlen Hb Hout Hroom HQ. apply wp_assoc, wp_bind. eapply wp_update_end; [done..|].
  intros k' Ha Hs' Hit Hout' Hd Hj c1 Hc1. apply HQ; try done. by eapply same_ctx_trans.
Qed.

End Thread.
End Steps.
