(* ===== verification/FsAlloc.v ===== *)
(** * Block allocation (kernel/fs.c: balloc, bfree, bzero)

    The bitmap on the disk as the set of blocks in use: [balloc] takes the first free
    block and zeroes it, [bfree] gives one back. *)
From S2P Require Import Prelude Bytes Memory Machine Riscv Kalloc Vm Sleeplock Bio BioProps BioSpec BioSteps.
From S2P Require Import Log LogProps LogLoops LogCrash LogCommit LogSpec Wp Txn Kernel Fs FsSteps.

(** The first data block: after the boot block, the superblock, the log, the inodes and
    the bitmap. *)
Definition data_start (sb : superblock) : Z := sb_bmapstart sb + sb_size sb / BPB + 1.

(** The layout of the disk that mkfs makes. *)
Record layout (k : kst) : Prop := {
  ly_size : 0 < sb_size (k_sb k) < 1073741824;
  ly_log : 0 <= lg_start (klog k) /\ lg_start (klog k) + lg_size (klog k) <= sb_inodestart (k_sb k);
  ly_inode : 0 <= sb_ninodes (k_sb k) /\ 0 < sb_inodestart (k_sb k) /\
    sb_inodestart (k_sb k) + sb_ninodes (k_sb k) / IPB < sb_bmapstart (k_sb k);
  ly_bmap : data_start (k_sb k) <= sb_size (k_sb k);
}.

(** The bits of a bitmap block. *)
Definition map_bit (d : list Z) (bi : Z) : bool := Z.testbit (znth 0 d (bi / 8)) (bi mod 8).

Section Alloc.
Context (dev : Z) (Hdev : dev <> 0).

Abbreviation kview := (kview dev).
Abbreviation ktxn := (ktxn dev).
Abbreviation advanced := (advanced dev).

(** Block [b] is marked in the bitmap. *)
Definition used (k : kst) (b : Z) : bool :=
  map_bit (kview k (BBLOCK b (k_sb k))) (b mod BPB).

(** The blocks before the data are never free. *)
Definition meta_used (k : kst) : Prop := forall b, 0 <= b < data_start (k_sb k) -> used k b = true.

Lemma layout_advanced k ws k' : advanced k ws k' -> layout k -> layout k'.
Proof using.
  intros H [A B C D]. pose proof (advanced_sb _ _ _ _ H) as Esb. pose proof (advanced_start _ _ _ _ H) as Est.
  assert (lg_size (klog k') = lg_size (klog k)) as Esz.
  { rewrite (av_log _ _ _ _ H). by destruct (recorded_all_same ws (klog k)) as (_ & -> & _). }
  by split; rewrite ?Esb, ?Est, ?Esz.
Qed.

Lemma kview_length pid k H b : ktxn pid k H -> length (kview k b) = 1024%nat.
Proof using Hdev. intros Hs. destruct (tn_ok _ _ _ _ Hs) as [L Hok]. by eapply length_content. Qed.

Lemma BBLOCK_val k b :
  layout k -> 0 <= b < sb_size (k_sb k) ->
  BBLOCK b (k_sb k) = b / BPB + sb_bmapstart (k_sb k) /\
  sb_bmapstart (k_sb k) <= BBLOCK b (k_sb k) < data_start (k_sb k).
Proof using.
  intros [Hsz Hlg Hin Hbm] Hb. unfold BBLOCK, data_start in *. change BPB with 8192 in *. change IPB with 16 in *.
  assert (b / 8192 <= sb_size (k_sb k) / 8192) by (apply Z.div_le_mono; lia).
  assert (0 <= b / 8192) by (apply Z.div_pos; lia).
  assert (0 <= sb_ninodes (k_sb k) / 16) by (apply Z.div_pos; lia).
  rewrite u32_small by lia. lia.
Qed.

Lemma data_start_pos k : layout k -> 0 <= sb_bmapstart (k_sb k) < data_start (k_sb k).
Proof using.
  intros [Hsz Hlg Hin Hbm]. unfold data_start in *. change BPB with 8192 in *. change IPB with 16 in *.
  assert (0 <= sb_size (k_sb k) / 8192) by (apply Z.div_pos; lia).
  assert (0 <= sb_ninodes (k_sb k) / 16) by (apply Z.div_pos; lia). lia.
Qed.

(** Blocks from the bitmap on are outside the log. *)
Lemma not_in_log k b : layout k -> sb_bmapstart (k_sb k) <= b -> ~ in_log (klog k) b.
Proof using.
  intros [Hsz Hlg Hin Hbm] Hb. unfold in_log in *. change IPB with 16 in *.
  assert (0 <= sb_ninodes (k_sb k) / 16) by (apply Z.div_pos; lia). lia.
Qed.

(** ** Bits *)

Lemma bit_clear x j : (Z.land x (bit_of j) =? 0) = negb (Z.testbit x (j mod 8)).
Proof using.
  unfold bit_of. pose proof (Z.mod_pos_bound j 8). rewrite Z.shiftl_1_l.
  destruct (Z.testbit x (j mod 8)) eqn:Et; cbn [negb].
  - apply Z.eqb_neq. intros E. assert (Z.testbit (Z.land x (2 ^ (j mod 8))) (j mod 8) = true) as F.
    { rewrite Z.land_spec, Et, Z.pow2_bits_true by lia. done. }
    rewrite E, Z.bits_0 in F. done.
  - apply Z.eqb_eq, Z.bits_inj'. intros n Hn. rewrite Z.land_spec, Z.bits_0.
    destruct (decide (n = j mod 8)) as [->|Hne]; [by rewrite Et|].
    rewrite Z.pow2_bits_false by lia. apply andb_false_r.
Qed.

Lemma testbit_set x j n : 0 <= n -> Z.testbit (Z.lor x (bit_of j)) n = (n =? j mod 8) || Z.testbit x n.
Proof using.
  intros Hn. unfold bit_of. pose proof (Z.mod_pos_bound j 8). rewrite Z.lor_spec, Z.shiftl_1_l, Z.pow2_bits_eqb by lia.
  rewrite (Z.eqb_sym (j mod 8) n). apply orb_comm.
Qed.

Lemma testbit_unset x j n :
  0 <= n -> Z.testbit (Z.land x (Z.lnot (bit_of j))) n = negb (n =? j mod 8) && Z.testbit x n.
Proof using.
  intros Hn. unfold bit_of. pose proof (Z.mod_pos_bound j 8).
  rewrite Z.land_spec, Z.lnot_spec, Z.shiftl_1_l, Z.pow2_bits_eqb by lia.
  rewrite (Z.eqb_sym (j mod 8) n). apply andb_comm.
Qed.

Lemma balloc_scan_run n d size b bi :
  BPB - bi <= Z.of_nat n ->
  match balloc_scan n d size b bi with
  | Some r => bi <= r < BPB /\ b + r < size /\ map_bit d r = false /\ (forall j, bi <= j < r -> map_bit d j = true)
  | None => forall j, bi <= j < BPB -> b + j < size -> map_bit d j = true
  end.
Proof using.
  revert bi. induction n as [|n IH]; intros bi Hn; cbn [balloc_scan]; [intros; lia|].
  zcase (bi <? BPB); cbn [andb]; [|intros; lia]. zcase (b + bi <? size); [|intros; lia].
  rewrite bit_clear. fold (map_bit d bi). destruct (map_bit d bi) eqn:Eb; cbn [negb].
  - specialize (IH (bi + 1) ltac:(lia)). destruct (balloc_scan n d size b (bi + 1)) as [r|].
    + destruct IH as (A & B & C & D). split; [lia|]. split; [done|]. split; [done|].
      intros j Hj. destruct (decide (j = bi)) as [->|]; [done|apply D; lia].
    + intros j Hj Hs. destruct (decide (j = bi)) as [->|]; [done|apply IH; lia].
  - split; [lia|]. split; [lia|]. split; [done|]. intros; lia.
Qed.

Lemma map_bit_zupd d bi v j :
  0 <= bi < 8 * zlen d -> 0 <= j ->
  map_bit (zupd d (bi / 8) v) j = if bi / 8 =? j / 8 then Z.testbit v (j mod 8) else map_bit d j.
Proof using.
  intros Hbi Hj. unfold map_bit. rewrite znth_zupd by (split; [apply Z.div_pos; lia|apply Z.div_lt_upper_bound; lia]).
  by destruct (bi / 8 =? j / 8).
Qed.

Lemma set_bit_block d bi j :
  0 <= bi < 8 * zlen d -> 0 <= j ->
  map_bit (zupd d (bi / 8) (Z.lor (znth 0 d (bi / 8)) (bit_of bi))) j = (j =? bi) || map_bit d j.
Proof using.
  intros Hbi Hj. rewrite map_bit_zupd by done. pose proof (Z.mod_pos_bound j 8).
  zcase (bi / 8 =? j / 8) as Eq.
  - rewrite testbit_set by lia. unfold map_bit. rewrite Eq. f_equal.
    apply eq_true_iff_eq. rewrite !Z.eqb_eq. dlia.
  - zcase (j =? bi); [subst; done|done].
Qed.

Lemma unset_bit_block d bi j :
  0 <= bi < 8 * zlen d -> 0 <= j ->
  map_bit (zupd d (bi / 8) (Z.land (znth 0 d (bi / 8)) (Z.lnot (bit_of bi)))) j = negb (j =? bi) && map_bit d j.
Proof using.
  intros Hbi Hj. rewrite map_bit_zupd by done. pose proof (Z.mod_pos_bound j 8).
  zcase (bi / 8 =? j / 8) as Eq.
  - rewrite testbit_unset by lia. unfold map_bit. rewrite Eq. do 2 f_equal.
    apply eq_true_iff_eq. rewrite !Z.eqb_eq. dlia.
  - zcase (j =? bi); [subst; done|done].
Qed.

(** ** The view after a change *)

Lemma view1 k b d k' x : advanced k [(b, d)] k' -> kview k' x = if decide (b = x) then d else kview k x.
Proof using. intros H. rewrite (av_view _ _ _ _ H), over_one. zcase (x =? b) as E; destruct (decide _); done || congruence. Qed.

Lemma used_frame k ws k' x :
  layout k -> advanced k ws k' -> 0 <= x < sb_size (k_sb k) ->
  Forall (fun w => data_start (k_sb k) <= w.1 \/ w.1 < sb_bmapstart (k_sb k)) ws -> used k' x = used k x.
Proof using.
  intros Hly Ha Hx Hw. unfold used. rewrite (advanced_sb _ _ _ _ Ha), (av_view _ _ _ _ Ha), over_notin; [done|].
  pose proof (BBLOCK_val k x Hly Hx) as [_ ?]. intros (w & Ew & Hin)%list_elem_of_fmap.
  rewrite Forall_forall in Hw. specialize (Hw w Hin). lia.
Qed.

Lemma BBLOCK_bit k b x :
  layout k -> 0 <= b < sb_size (k_sb k) -> 0 <= x < sb_size (k_sb k) ->
  x = b <-> BBLOCK x (k_sb k) = BBLOCK b (k_sb k) /\ x mod BPB = b mod BPB.
Proof using.
  intros Hly Hb Hx. rewrite (proj1 (BBLOCK_val k b Hly Hb)), (proj1 (BBLOCK_val k x Hly Hx)).
  change BPB with 8192. dlia.
Qed.

Lemma used_set pid k H b d k' x :
  ktxn pid k H -> layout k -> 0 <= b < sb_size (k_sb k) -> 0 <= x < sb_size (k_sb k) ->
  d = kview k (BBLOCK b (k_sb k)) ->
  advanced k [(BBLOCK b (k_sb k), zupd d (b mod BPB / 8) (Z.lor (znth 0 d (b mod BPB / 8)) (bit_of (b mod BPB))))] k' ->
  used k' x = (x =? b) || used k x.
Proof using Hdev.
  intros Hs Hly Hb Hx -> Ha. unfold used. rewrite (advanced_sb _ _ _ _ Ha), (view1 _ _ _ _ _ Ha).
  pose proof (BBLOCK_bit k b x Hly Hb Hx) as E. assert (zlen (kview k (BBLOCK b (k_sb k))) = 1024) as Hl.
  { unfold zlen. by rewrite (kview_length pid k H). }
  change BPB with 8192 in *. destruct (decide _) as [Eb|Ne].
  - rewrite set_bit_block by (rewrite ?Hl; dlia). rewrite Eb. f_equal. apply eq_true_iff_eq. rewrite !Z.eqb_eq, E.
    split; [|by intros []]. by rewrite Eb.
  - zcase (x =? b) as Exb; [|done]. by subst.
Qed.

Lemma used_unset pid k H b d k' x :
  ktxn pid k H -> layout k -> 0 <= b < sb_size (k_sb k) -> 0 <= x < sb_size (k_sb k) ->
  d = kview k (BBLOCK b (k_sb k)) ->
  advanced k [(BBLOCK b (k_sb k),
    zupd d (b mod BPB / 8) (Z.land (znth 0 d (b mod BPB / 8)) (Z.lnot (bit_of (b mod BPB)))))] k' ->
  used k' x = negb (x =? b) && used k x.
Proof using Hdev.
  intros Hs Hly Hb Hx -> Ha. unfold used. rewrite (advanced_sb _ _ _ _ Ha), (view1 _ _ _ _ _ Ha).
  pose proof (BBLOCK_bit k b x Hly Hb Hx) as E. assert (zlen (kview k (BBLOCK b (k_sb k))) = 1024) as Hl.
  { unfold zlen. by rewrite (kview_length pid k H). }
  change BPB with 8192 in *. destruct (decide _) as [Eb|Ne].
  - rewrite unset_bit_block by (rewrite ?Hl; dlia). rewrite Eb. do 2 f_equal. apply eq_true_iff_eq. rewrite !Z.eqb_eq, E.
    split; [|by intros []]. by rewrite Eb.
  - zcase (x =? b) as Exb; [|done]. by subst.
Qed.

(** ** The operations *)

Context (c0 : ctx) (Hc0 : idle c0).
Abbreviation pid := (c_pid c0).

(** The blocks held during an allocation are allocated data blocks. *)
Definition held_used (k : kst) (H : list (Z * Z)) : Prop :=
  (length H <= 1)%nat /\
  forall b, b ∈ H.*2 -> data_start (k_sb k) <= b < sb_size (k_sb k) /\ used k b = true.

Definition same_held (k k' : kst) (H : list (Z * Z)) : Prop :=
  forall j, j ∈ H.*1 -> b_data (kbuf k' j) = b_data (kbuf k j).

Lemma same_held_trans k1 k2 k3 H : same_held k1 k2 H -> same_held k2 k3 H -> same_held k1 k3 H.
Proof using. intros A B j Hj. by rewrite B, A. Qed.

Lemma same_held_skip k1 k2 i b H :
  ktxn pid k1 ((i, b) :: H) -> (forall j, j <> i -> b_data (kbuf k2 j) = b_data (kbuf k1 j)) -> same_held k1 k2 H.
Proof using.
  intros Hs He j Hj. apply He. intros ->. pose proof (tn_nodup _ _ _ _ Hs) as Hnd. cbn in Hnd.
  apply NoDup_cons in Hnd as [? _]. done.
Qed.

Definition zeros : list Z := replicate (Z.to_nat BSIZE) 0.

Lemma wp_bzero c k H b (Q : unit -> kst -> Prop) :
  same_ctx c0 c -> ktxn pid k H -> layout k -> b ∉ H.*2 -> (length H <= 1)%nat -> room (k_l k) 1 ->
  sb_bmapstart (k_sb k) <= b < sb_size (k_sb k) ->
  (forall k', advanced k [(b, zeros)] k' -> ktxn pid k' H -> k_itab k' = k_itab k -> same_held k k' H -> Q tt k') ->
  wp (bzero dev b) c k Q.
Proof using Hdev Hc0.
  intros Hc Hs Hly Hb HH Hr Hrange HQ. unfold bzero. pose proof (data_start_pos k Hly).
  pose proof (ly_size k Hly). pose proof (room_tx _ _ _ _ _ Hs Hr).
  rewrite u32_small by lia. apply wp_bind. eapply (wp_bread dev Hdev c0 Hc0); [exact Hc|exact Hs|done|lia|].
  intros i k1 A1 Hs1 It1 _ _ Hh1 c1 Hc1.
  eapply (wp_update dev Hdev c0 Hc0); [by eapply same_ctx_trans|exact Hs1|left|done|lia| | |].
  { rewrite (advanced_in_log _ _ _ _ _ A1). apply not_in_log; [done|lia]. }
  { eapply advanced_room; [exact A1|]. exact Hr. }
  intros k2 c2 Hc2 A2 Hs2 It2 _ _ Hh2. eapply (wp_brelse dev Hdev c0 Hc0); [exact Hc2|exact Hs2|].
  intros k3 A3 Hs3 It3 _ Hh3. apply HQ.
  - eapply advanced_0l; [exact A1|]. by eapply advanced_0r.
  - done.
  - congruence.
  - eapply same_held_trans; [exact Hh1|]. eapply same_held_trans; [by eapply same_held_skip|exact Hh3].
Qed.

Lemma used_same k k' x :
  layout k -> advanced k [] k' -> 0 <= x < sb_size (k_sb k) -> used k' x = used k x.
Proof using. intros. by eapply used_frame. Qed.

Lemma meta_same k k' : layout k -> advanced k [] k' -> meta_used k -> meta_used k'.
Proof using.
  intros Hly A Hm x. rewrite (advanced_sb _ _ _ _ A). intros Hx. pose proof (ly_bmap k Hly).
  rewrite (used_same k) by (done || lia). by apply Hm.
Qed.

Lemma held_same k k' H : layout k -> advanced k [] k' -> held_used k H -> held_used k' H.
Proof using.
  intros Hly A [Hl Hm]. split; [done|]. intros x Hx. rewrite (advanced_sb _ _ _ _ A).
  destruct (Hm x Hx). pose proof (data_start_pos k Hly). by rewrite (used_same k) by (done || lia).
Qed.

Lemma room_same k k' n : advanced k [] k' -> room (k_l k) n -> room (k_l k') n.
Proof using. intros A R. eapply advanced_room; [exact A|exact R]. Qed.

(** What an allocation returns: no block when every block is used, or the first free
    block, marked and zeroed. *)
Inductive alloc_step (k : kst) (H : list (Z * Z)) : Z -> kst -> Prop :=
| alloc_none k' :
    (forall x, 0 <= x < sb_size (k_sb k) -> used k x = true) -> advanced k [] k' -> alloc_step k H 0 k'
| alloc_some r v k' :
    data_start (k_sb k) <= r < sb_size (k_sb k) -> used k r = false -> (forall x, 0 <= x < r -> used k x = true) ->
    advanced k [(BBLOCK r (k_sb k), v); (r, zeros)] k' ->
    (forall x, 0 <= x < sb_size (k_sb k) -> used k' x = (x =? r) || used k x) -> alloc_step k H r k'.

Definition alloc_post (k : kst) (H : list (Z * Z)) (r : Z) (k' : kst) : Prop :=
  alloc_step k H r k' /\ ktxn pid k' H /\ k_itab k' = k_itab k /\ same_held k k' H.

Lemma alloc_post_same k1 k2 H r k3 :
  layout k1 -> advanced k1 [] k2 -> k_itab k2 = k_itab k1 -> same_held k1 k2 H -> alloc_post k2 H r k3 -> alloc_post k1 H r k3.
Proof using.
  intros Hly A It Hh (St & Hs & It' & Hh'). split; [|split; [done|split; [congruence|by eapply same_held_trans]]].
  pose proof (advanced_sb _ _ _ _ A) as Esb. inversion St as [k' Hu A'|r' v k' Hr Hf Hb A' Hu']; subst; rewrite Esb in *.
  - apply alloc_none; [|by eapply advanced_0l]. intros x Hx. rewrite <- (used_same k1 k2) by done. by apply Hu.
  - apply (alloc_some _ _ r v); [done| | |by eapply advanced_0l|].
    + pose proof (data_start_pos k1 Hly). rewrite <- (used_same k1 k2) by (done || lia). done.
    + intros x Hx. rewrite <- (used_same k1 k2) by (done || lia). by apply Hb.
    + intros x Hx. rewrite <- (used_same k1 k2) by (done || lia). by apply Hu'.
Qed.

(** [balloc] found a free bit: mark it, and zero the block. *)
Lemma wp_balloc_take c k H b bi bp :
  same_ctx c0 c -> ktxn pid k ((bp, BBLOCK b (k_sb k)) :: H) -> layout k -> meta_used k -> held_used k H ->
  room (k_l k) 2 -> b_data (kbuf k bp) = kview k (BBLOCK b (k_sb k)) ->
  0 <= bi < BPB -> 0 <= b -> b mod BPB = 0 -> b + bi < sb_size (k_sb k) -> used k (b + bi) = false ->
  (forall x, 0 <= x < b + bi -> used k x = true) ->
  let d := b_data (kbuf k bp) in
  wp (bio_ (bset_data bp (zupd d (bi / 8) (Z.lor (znth 0 d (bi / 8)) (bit_of bi)))) ;;
      log_ (log_write bp) ;;
      bio_ (brelse bp) ;;
      bzero dev (b + bi) ;;
      ret (b + bi)) c k (alloc_post k H).
Proof using Hdev Hc0.
  intros Hc Hs Hly Hmeta [Hl1 Hheld] Hr Hd Hbi Hb Hmod Hsz Hfree Hbefore d. subst d. rewrite Hd.
  assert (BBLOCK b (k_sb k) = BBLOCK (b + bi) (k_sb k) /\ bi = (b + bi) mod BPB) as [EB Ebi].
  { rewrite (proj1 (BBLOCK_val k b Hly ltac:(lia))), (proj1 (BBLOCK_val k (b + bi) Hly ltac:(lia))).
    change BPB with 8192 in *. dlia. }
  assert (data_start (k_sb k) <= b + bi) as Hdata.
  { destruct (decide (data_start (k_sb k) <= b + bi)) as [|Hlt]; [done|]. rewrite Hmeta in Hfree; [done|lia]. }
  pose proof (BBLOCK_val k b Hly ltac:(lia)) as [_ HBr]. pose proof (ly_size k Hly). pose proof (ly_bmap k Hly).
  pose proof (data_start_pos k Hly). eapply (wp_update dev Hdev c0 Hc0); [done|exact Hs|left| |lia| | |].
  { rewrite length_zupd. by eapply kview_length. }
  { apply not_in_log; [done|lia]. }
  { eapply room_mono; [|exact Hr]. lia. }
  intros k1 c1' Hc1' A1 Hs1 It1 _ _ Hh1. pose proof (advanced_sb _ _ _ _ A1) as Esb1.
  apply wp_bind. eapply (wp_brelse dev Hdev c0 Hc0); [exact Hc1'|exact Hs1|]. intros k2 A2 Hs2 It2 _ Hh2 c1 Hc1.
  pose proof (advanced_0r _ _ _ _ _ A1 A2) as A12. pose proof (advanced_sb _ _ _ _ A12) as Esb2.
  apply wp_bind. eapply wp_bzero; [by eapply same_ctx_trans|exact Hs2|by eapply layout_advanced| |done| |rewrite Esb2; lia|].
  { intros Hin. destruct (Hheld _ Hin) as [_ Hu]. congruence. }
  { eapply advanced_room; [exact A12|exact Hr]. }
  intros k3 A3 Hs3 It3 Hh3 c2 Hc2. apply wp_ret.
  split; [|split; [done|split; [congruence|]]].
  - eapply alloc_some; [lia|done|done| |].
    + rewrite <- EB. exact (advanced_trans _ _ _ _ _ _ A12 A3).
    + intros x Hx. rewrite (used_frame k2 _ k3 x) with (2 := A3); [|by eapply layout_advanced|by rewrite Esb2|].
      * eapply used_set; [exact Hs|done|lia|done|reflexivity|]. rewrite <- Ebi, <- EB. exact A12.
      * rewrite Esb2. apply Forall_singleton. cbn. lia.
  - eapply same_held_trans; [by eapply same_held_skip|]. by eapply same_held_trans.
Qed.

(** Every block is used. *)
Lemma wp_balloc_none c k H :
  ktxn pid k H -> (forall x, 0 <= x < sb_size (k_sb k) -> used k x = true) ->
  wp (printf "balloc: out of blocks\n" [] ;; ret 0) c k (alloc_post k H).
Proof using.
  intros Hs Hall. unfold printf. apply wp_modify, wp_ret. split; [|done]. apply alloc_none; [done|].
  by destruct k.
Qed.

(** The bits of the bitmap block of [b] are those of the blocks from [b] on. *)
Lemma block_bits k b j :
  layout k -> 0 <= b -> b mod BPB = 0 -> 0 <= j < BPB -> b + j < sb_size (k_sb k) ->
  map_bit (kview k (BBLOCK b (k_sb k))) j = used k (b + j).
Proof using.
  intros Hly Hb Hm Hj Hs. unfold used.
  rewrite (proj1 (BBLOCK_val k (b + j) Hly ltac:(lia))), (proj1 (BBLOCK_val k b Hly ltac:(lia))).
  change BPB with 8192 in *.
  replace ((b + j) / 8192) with (b / 8192) by dlia. by replace ((b + j) mod 8192) with j by dlia.
Qed.

Lemma wp_balloc_loop n c k H b :
  same_ctx c0 c -> ktxn pid k H -> layout k -> meta_used k -> held_used k H -> room (k_l k) 2 ->
  0 <= b -> b mod BPB = 0 -> (forall x, 0 <= x < b -> x < sb_size (k_sb k) -> used k x = true) -> sb_size (k_sb k) - b < Z.of_nat n * BPB ->
  wp (balloc_loop n dev b) c k (alloc_post k H).
Proof using Hdev Hc0.
  revert c k b. induction n as [|n IH]; intros c k b Hc Hs Hly Hmeta Hheld Hr Hb Hmod Hbefore Hn;
    unfold balloc_loop; fold balloc_loop; apply wp_gets;
    (zcase (b <? sb_size (k_sb k)) as Eb; [|apply wp_balloc_none; [done|intros x Hx; apply Hbefore; lia]]); [lia|].
  pose proof (BBLOCK_val k b Hly ltac:(lia)) as [_ HBr]. pose proof (room_tx _ _ _ _ _ Hs Hr).
  apply wp_bind. eapply (wp_bread dev Hdev c0 Hc0); [exact Hc|exact Hs| |destruct Hheld; lia|].
  { intros Hin. destruct (proj2 Hheld _ Hin) as [? _]. lia. }
  intros bp k1 A1 Hs1 It1 _ Hd1 Hh1 c1 Hc1. pose proof (same_ctx_trans _ _ _ Hc Hc1) as Hc1'.
  apply wp_bget.
  assert (Hbits := fun j => block_bits k b j Hly Hb Hmod).
  pose proof (balloc_scan_run (Z.to_nat BPB) (b_data (kbuf k1 bp)) (sb_size (k_sb k)) b 0 ltac:(rewrite Z2Nat.id; done)) as Hscan.
  destruct (balloc_scan _ _ _ _ _) as [bi|]; rewrite Hd1 in Hscan.
  - destruct Hscan as (A & B & C & D). rewrite <- (advanced_sb _ _ _ _ A1) in Hs1. eapply wp_mono.
    + eapply wp_balloc_take; [done|done|by eapply layout_advanced|by eapply meta_same|by eapply held_same|
        by eapply room_same| |done|done|done| |rewrite (used_same k) by (done || lia); by rewrite <- Hbits|].
      * rewrite Hd1, (av_view _ _ _ _ A1), (advanced_sb _ _ _ _ A1). done.
      * by rewrite (advanced_sb _ _ _ _ A1).
      * intros x Hx. rewrite (used_same k) by (done || lia). destruct (decide (x < b)); [apply Hbefore; lia|].
        replace x with (b + (x - b)) by lia. rewrite <- Hbits by lia. apply D. lia.
    + intros r k2. by apply alloc_post_same.
  - apply wp_bind. eapply (wp_brelse dev Hdev c0 Hc0); [exact Hc1'|exact Hs1|]. intros k2 A2 Hs2 It2 _ Hh2 c3 Hc3.
    pose proof (advanced_0l _ _ _ _ _ A1 A2) as A12. eapply wp_mono.
    + apply IH; [by eapply same_ctx_trans|done|by eapply layout_advanced|by eapply meta_same|by eapply held_same|
        by eapply room_same| | | |].
      * change BPB with 8192. lia.
      * change BPB with 8192 in *. dlia.
      * intros x Hx. rewrite (advanced_sb _ _ _ _ A12). intros Hx'. rewrite (used_same k) by (done || lia).
        destruct (decide (x < b)); [apply Hbefore; lia|]. replace x with (b + (x - b)) by lia.
        rewrite <- Hbits by lia. apply Hscan; lia.
      * rewrite (advanced_sb _ _ _ _ A12). lia.
    + intros r k3. apply alloc_post_same; [done|done|congruence|by eapply same_held_trans].
Qed.

Theorem wp_balloc c k H :
  same_ctx c0 c -> ktxn pid k H -> layout k -> meta_used k -> held_used k H -> room (k_l k) 2 ->
  wp (balloc dev) c k (alloc_post k H).
Proof using Hdev Hc0.
  intros. unfold balloc. apply wp_gets. apply wp_balloc_loop; try done; [intros; lia|].
  pose proof (ly_size k ltac:(done)). change BPB with 8192. rewrite Z2Nat.id by dlia. dlia.
Qed.

(** [bfree] clears the bit of a used block. *)
Lemma wp_bfree c k H b :
  same_ctx c0 c -> ktxn pid k H -> layout k -> meta_used k -> held_used k H -> room (k_l k) 1 ->
  0 <= b < sb_size (k_sb k) -> used k b = true ->
  wp (bfree dev b) c k (fun _ k' =>
    (exists v, advanced k [(BBLOCK b (k_sb k), v)] k') /\
    (forall x, 0 <= x < sb_size (k_sb k) -> used k' x = negb (x =? b) && used k x) /\
    ktxn pid k' H /\ k_itab k' = k_itab k /\ same_held k k' H).
Proof using Hdev Hc0.
  intros Hc Hs Hly Hmeta Hheld Hr Hb Hu. unfold bfree. apply wp_gets.
  pose proof (BBLOCK_val k b Hly Hb) as [_ HBr]. pose proof (room_tx _ _ _ _ _ Hs Hr).
  pose proof (data_start_pos k Hly). pose proof (ly_size k Hly). pose proof (ly_bmap k Hly).
  apply wp_bind. eapply (wp_bread dev Hdev c0 Hc0); [exact Hc|exact Hs| |destruct Hheld; lia|].
  { intros Hin. destruct (proj2 Hheld _ Hin) as [? _]. lia. }
  intros bp k1 A1 Hs1 It1 _ Hd1 Hh1 c1 Hc1. pose proof (same_ctx_trans _ _ _ Hc Hc1) as Hc1'. apply wp_bget.
  rewrite bit_clear, Hd1. fold (map_bit (kview k (BBLOCK b (k_sb k))) (b mod BPB)). fold (used k b). rewrite Hu. cbn [negb].
  eapply (wp_update dev Hdev c0 Hc0); [done|exact Hs1|left| |lia| |by eapply room_same|].
  { rewrite length_zupd. by eapply kview_length. }
  { rewrite (advanced_in_log _ _ _ _ _ A1). apply not_in_log; [done|lia]. }
  intros k2 c2 Hc2' A2 Hs2 It2 _ _ Hh2. eapply (wp_brelse dev Hdev c0 Hc0); [exact Hc2'|exact Hs2|]. intros k3 A3 Hs3 It3 _ Hh3.
  pose proof (advanced_0l _ _ _ _ _ A1 (advanced_0r _ _ _ _ _ A2 A3)) as A.
  split; [eauto|]. split; [intros x Hx; eapply used_unset; [exact Hs|done|done|done|reflexivity|exact A]|]. split; [done|]. split; [congruence|].
  eapply same_held_trans; [exact Hh1|]. eapply same_held_trans; [by eapply same_held_skip|done].
Qed.

(** A block that is not marked is not freed: the kernel stops. *)
Lemma bfree_free c k H b :
  same_ctx c0 c -> ktxn pid k H -> layout k -> held_used k H -> room (k_l k) 1 ->
  0 <= b < sb_size (k_sb k) -> used k b = false -> bfree dev b c k = Panic "freeing free block".
Proof using Hdev Hc0.
  intros Hc Hs Hly Hheld Hr Hb Hu. pose proof (BBLOCK_val k b Hly Hb) as [_ HBr]. pose proof (room_tx _ _ _ _ _ Hs Hr).
  assert (wp (bio_ (bread dev (BBLOCK b (k_sb k)))) c k (fun i k' => b_data (kbuf k' i) = kview k (BBLOCK b (k_sb k)))) as W.
  { eapply (wp_bread dev Hdev c0 Hc0); [exact Hc|exact Hs| |destruct Hheld; lia|done].
    intros Hin. destruct (proj2 Hheld _ Hin) as [? _]. lia. }
  apply wp_inv in W as (bp & ws & k1 & R & Hd1). unfold bfree.
  rewrite (bind_done (gets k_sb) _ c k (k_sb k) c k eq_refl), (bind_done _ _ _ _ _ _ _ R).
  assert (forall B (f : list Z -> M kst B) c1, (d <- bio_ (mget bp b_data) ;; f d) c1 k1 = f (b_data (kbuf k1 bp)) c1 k1) as Eg.
  { intros. unfold bio_, zoom, bind, mget, gets. cbn. by destruct k1 as [? [] ? ? ? ? ? ? ? ? ?]. }
  rewrite Eg, bit_clear, Hd1. fold (map_bit (kview k (BBLOCK b (k_sb k))) (b mod BPB)). fold (used k b). by rewrite Hu.
Qed.

End Alloc.
