(* ===== verification/FsFile.v ===== *)
(** * The blocks of a file (kernel/fs.c: bmap)

    A locked inode as a map from file blocks to disk blocks, and [bmap] as the operation
    that adds a zeroed block to it: the file's content is the same before and after. *)
From S2P Require Import Prelude Bytes Memory Machine Riscv Kalloc Vm Sleeplock Bio BioProps BioSpec BioSteps.
From S2P Require Import Log LogProps LogLoops LogCrash LogCommit LogSpec Wp Txn Kernel Fs FsSteps FsAlloc.

Lemma geti_updi k ip f : 0 <= ip < zlen (k_itab k) -> geti (updi ip f k) ip = f (geti k ip).
Proof. intros H. unfold geti, updi. cbn. by rewrite znth_zupd_eq. Qed.

Lemma geti_updi_ne k ip ip' f : ip <> ip' -> geti (updi ip f k) ip' = geti k ip'.
Proof. intros H. unfold geti, updi. cbn. by rewrite znth_zupd_ne. Qed.

(** ** The record of a transaction *)

Lemma tx_foldl ws l :
  length (lg_block l) = 30%nat -> 0 <= lg_n l -> lg_n (foldl (fun l (w : Z * list Z) => recorded w.1 l) l ws) <= LOGSIZE ->
  forall b, b ∈ tx (foldl (fun l w => recorded w.1 l) l ws) <-> b ∈ tx l \/ b ∈ ws.*1.
Proof.
  revert l. induction ws as [|w ws IH]; intros l Hl Hn Hle b; cbn in *; [set_solver|].
  pose proof (recorded_n w.1 l) as [_ Hn1].
  assert (lg_n (recorded w.1 l) <= lg_n (foldl (fun l w => recorded w.1 l) (recorded w.1 l) ws)) as Hmon.
  { clear. generalize (recorded w.1 l). induction ws as [|w' ws IH]; intros m; cbn; [lia|].
    specialize (IH (recorded w'.1 m)). pose proof (recorded_n w'.1 m). lia. }
  assert (b ∈ tx (recorded w.1 l) <-> b ∈ tx l \/ b = w.1) as E.
  { destruct (decide (w.1 ∈ tx l)) as [Hin|Hni].
    - unfold recorded. rewrite decide_True by done. set_solver.
    - assert (lg_n (recorded w.1 l) = lg_n l + 1) as E by (unfold recorded; by rewrite decide_False by done).
      rewrite tx_recorded by (done || lia). rewrite decide_False by done. set_solver. }
  rewrite IH; [set_solver| |lia|done]. unfold recorded. destruct (decide _); [done|]. cbn. by rewrite length_zupd.
Qed.

Lemma zupd_id {A} (d : A) l i : 0 <= i < zlen l -> zupd l i (znth d l i) = l.
Proof.
  intros Hi. unfold zupd, zlen in *. zcase (i <? 0) as E; [done|]. apply list_insert_id.
  destruct (lookup_lt_is_Some_2 l (Z.to_nat i)) as [x Hx]; [lia|]. rewrite Hx. f_equal. symmetry. by apply znth_lookup; [lia|].
Qed.

Lemma updi_id k ip f : 0 <= ip < zlen (k_itab k) -> f (geti k ip) = geti k ip -> updi ip f k = k.
Proof. intros Hi Ef. unfold updi. rewrite Ef. unfold geti. rewrite zupd_id by done. by destruct k. Qed.

Section File.
Context (dev : Z) (Hdev : dev <> 0).

Abbreviation kview := (kview dev).
Abbreviation ktxn := (ktxn dev).
Abbreviation advanced := (advanced dev).
Abbreviation used := (used dev).
Abbreviation meta_used := (meta_used dev).

(** ** Definitions *)

(** The address of the indirect block. *)
Definition ind (k : kst) (ip : Z) : Z := znth 0 (i_addrs (geti k ip)) 12.

(** The disk block of block [bn] of the file, 0 if there is none. *)
Definition addr_of (k : kst) (ip bn : Z) : Z :=
  if bn <? 12 then znth 0 (i_addrs (geti k ip)) bn else
  if ind k ip =? 0 then 0 else get32 (kview k (ind k ip)) (4 * (bn - 12)).

Definition is_bn (bn : Z) : Prop := 0 <= bn < 268.

(** The content of block [bn] of the file; a block that is not there reads as zeros. *)
Definition fblock (k : kst) (ip bn : Z) : list Z :=
  if addr_of k ip bn =? 0 then zeros else kview k (addr_of k ip bn).

Definition is_data (k : kst) (b : Z) : Prop := data_start (k_sb k) <= b < sb_size (k_sb k).

(** An allocated data block. *)
Definition good_addr (k : kst) (a : Z) : Prop := is_data k a /\ used k a = true.

Record file_ok (k : kst) (ip : Z) : Prop := {
  fo_ip : 0 <= ip < zlen (k_itab k);
  fo_dev : i_dev (geti k ip) = dev;
  fo_len : length (i_addrs (geti k ip)) = 13%nat;
  fo_ind : ind k ip <> 0 -> good_addr k (ind k ip);
  fo_addr : forall bn, is_bn bn -> addr_of k ip bn <> 0 -> good_addr k (addr_of k ip bn);
  fo_inj : forall bn bn', is_bn bn -> is_bn bn' -> addr_of k ip bn = addr_of k ip bn' -> addr_of k ip bn <> 0 -> bn = bn';
  fo_sep : forall bn, is_bn bn -> ind k ip <> 0 -> addr_of k ip bn <> ind k ip;
}.

(** The file system: the layout of the disk, with one bitmap block (FSSIZE is 2000). *)
Record fs_ok (k : kst) : Prop := {
  fs_layout : layout k;
  fs_meta : meta_used k;
  fs_one : sb_size (k_sb k) < BPB;
}.

(** Blocks that a change of the file [ip] keeps: everything before the bitmap, and the
    allocated blocks but the file's indirect block. *)
Definition kept (k : kst) (ip b : Z) : Prop :=
  (0 <= b < sb_bmapstart (k_sb k) \/ good_addr k b) /\ b <> ind k ip.

(** Blocks were added to the file [ip]: the content is the same. *)
Record mapped (k : kst) (ip : Z) (k' : kst) : Prop := {
  mp_frame : fs_frame k k';
  mp_itab : exists a, k_itab k' = zupd (k_itab k) ip (set_iaddrs a (geti k ip));
  mp_fs : fs_ok k';
  mp_file : file_ok k' ip;
  mp_block : forall bn, is_bn bn -> fblock k' ip bn = fblock k ip bn;
  mp_addr : forall bn, is_bn bn -> addr_of k ip bn <> 0 -> addr_of k' ip bn = addr_of k ip bn;
  mp_ind : ind k ip <> 0 -> ind k' ip = ind k ip;
  mp_new_ind : forall b, kept k ip b -> b <> ind k' ip;
  mp_fresh : forall bn, is_bn bn -> addr_of k' ip bn = addr_of k ip bn \/
    (is_data k (addr_of k' ip bn) /\ used k (addr_of k' ip bn) = false);
  mp_used : forall x, 0 <= x < sb_size (k_sb k) -> used k x = true -> used k' x = true;
  mp_kept : forall b, kept k ip b -> kview k' b = kview k b;
  mp_log : same_geom k k';
}.

(** Blocks of the transaction yet to be recorded: the log's blocks, the bitmap and the
    indirect block if they are not among them. *)
Definition miss (k : kst) (b : Z) : Z := b2z (negb (bool_decide (b ∈ tx (klog k)))).
Definition pot (k : kst) (ip : Z) : Z :=
  lg_n (klog k) + miss k (sb_bmapstart (k_sb k)) + (if ind k ip =? 0 then 1 else miss k (ind k ip)).

(** The log can take [n] blocks more than [pot]. *)
Definition fits (k : kst) (ip n : Z) : Prop :=
  1 <= lg_outstanding (klog k) /\ pot k ip + n < LOGSIZE /\ pot k ip + n <= lg_size (klog k) - 1.

(** ** Accounting *)

Lemma tx_advanced pid k H ws k' H' b :
  ktxn pid k H -> ktxn pid k' H' -> advanced k ws k' -> b ∈ tx (klog k') <-> b ∈ tx (klog k) \/ b ∈ ws.*1.
Proof using.
  intros Hs Hs' Ha. rewrite (av_log _ _ _ _ Ha). apply tx_foldl.
  - apply (lg_len _ _ (tn_geom _ _ _ _ Hs)).
  - apply (tx_n _ (tn_tx _ _ _ _ Hs)).
  - rewrite <- (av_log _ _ _ _ Ha). apply (tx_n _ (tn_tx _ _ _ _ Hs')).
Qed.

Lemma lg_n_length pid k H : ktxn pid k H -> lg_n (klog k) = Z.of_nat (length (tx (klog k))).
Proof using.
  intros Hs. unfold klog. rewrite (length_tx dev _ (tn_geom _ _ _ _ Hs) (tn_tx _ _ _ _ Hs)).
  destruct (tx_n _ (tn_tx _ _ _ _ Hs)). lia.
Qed.

Lemma spent pid k H ws k' H' S :
  ktxn pid k H -> ktxn pid k' H' -> advanced k ws k' -> (forall b, b ∈ ws.*1 -> b ∈ tx (klog k) \/ b ∈ S) ->
  lg_n (klog k') <= lg_n (klog k) + Z.of_nat (length S).
Proof using Hdev.
  intros Hs Hs' Ha HS. rewrite (lg_n_length _ _ _ Hs), (lg_n_length _ _ _ Hs').
  assert (length (tx (klog k')) <= length (tx (klog k) ++ S))%nat as Hle.
  { apply length_le_submseteq; [apply (tx_nodup _ (tn_tx _ _ _ _ Hs'))|].
    intros x Hx. rewrite (tx_advanced pid k H ws k' H' x) in Hx by done. set_solver. }
  rewrite length_app in Hle. lia.
Qed.

Lemma miss_range k b : 0 <= miss k b <= 1.
Proof using. apply b2z_range. Qed.

Lemma miss_mono pid k H ws k' H' b :
  ktxn pid k H -> ktxn pid k' H' -> advanced k ws k' -> miss k' b <= miss k b.
Proof using Hdev.
  intros Hs Hs' Ha. unfold miss. destruct (bool_decide (b ∈ tx (klog k))) eqn:E; cbn; [|apply b2z_range].
  apply bool_decide_eq_true in E. rewrite bool_decide_eq_true_2; [done|]. apply (tx_advanced _ _ _ _ _ _ b Hs Hs' Ha). by left.
Qed.

Lemma miss_in pid k H ws k' H' b :
  ktxn pid k H -> ktxn pid k' H' -> advanced k ws k' -> b ∈ ws.*1 -> miss k' b = 0.
Proof using Hdev.
  intros Hs Hs' Ha Hb. unfold miss. rewrite bool_decide_eq_true_2; [done|]. apply (tx_advanced _ _ _ _ _ _ b Hs Hs' Ha). by right.
Qed.

(** The block recorded, in [miss]. *)
Lemma spent_miss pid k H b v k' H' :
  ktxn pid k H -> ktxn pid k' H' -> advanced k [(b, v)] k' -> lg_n (klog k') <= lg_n (klog k) + miss k b.
Proof using Hdev.
  intros Hs Hs' Ha. unfold miss. destruct (bool_decide (b ∈ tx (klog k))) eqn:E; cbn.
  - apply bool_decide_eq_true in E. pose proof (spent pid k H _ k' H' [] Hs Hs' Ha). cbn in H0.
    enough (forall b', b' ∈ [b] -> b' ∈ tx (klog k) \/ b' ∈ []) by (specialize (H0 H1); lia). set_solver.
  - pose proof (spent pid k H _ k' H' [b] Hs Hs' Ha). cbn in H0. apply H0. set_solver.
Qed.

(** An allocation records the bitmap and the new block. *)
Lemma spent_alloc pid k H b v r v' k' H' :
  ktxn pid k H -> ktxn pid k' H' -> advanced k [(b, v); (r, v')] k' -> lg_n (klog k') <= lg_n (klog k) + miss k b + 1.
Proof using Hdev.
  intros Hs Hs' Ha. unfold miss. destruct (bool_decide (b ∈ tx (klog k))) eqn:E; cbn.
  - apply bool_decide_eq_true in E. pose proof (spent pid k H _ k' H' [r] Hs Hs' Ha) as Hsp. cbn in Hsp.
    rewrite Z.add_0_r. apply Hsp. set_solver.
  - pose proof (spent pid k H _ k' H' [b; r] Hs Hs' Ha) as Hsp. cbn in Hsp. rewrite <- Z.add_assoc. apply Hsp. set_solver.
Qed.

(** ** A file gains a block *)

Lemma good_not_free k b r : good_addr k b -> used k r = false -> b <> r.
Proof using. intros [_ Hu] Hf ->. congruence. Qed.

(** What allocating the block [r] and linking it into the inode [ip] changes. *)
Record linked (k : kst) (ip r : Z) (k' : kst) : Prop := {
  ln_frame : fs_frame k k';
  ln_itab : exists a, k_itab k' = zupd (k_itab k) ip (set_iaddrs a (geti k ip)) /\ length a = 13%nat;
  ln_data : is_data k r;
  ln_free : used k r = false;
  ln_used : forall x, 0 <= x < sb_size (k_sb k) -> used k' x = (x =? r) || used k x;
  ln_zero : kview k' r = zeros;
  ln_kept : forall b, kept k ip b -> kview k' b = kview k b;
  ln_log : same_geom k k';
}.

Lemma linked_sb k ip r k' : linked k ip r k' -> k_sb k' = k_sb k.
Proof using. intros H. apply fs_frame_sb, (ln_frame _ _ _ _ H). Qed.

Lemma linked_inode k ip r k' :
  file_ok k ip -> linked k ip r k' ->
  zlen (k_itab k') = zlen (k_itab k) /\ exists a, length a = 13%nat /\ geti k' ip = set_iaddrs a (geti k ip).
Proof using.
  intros Hf H. destruct (ln_itab _ _ _ _ H) as (a & E & Ha). rewrite E, zlen_zupd. split; [done|]. exists a. split; [done|].
  unfold geti at 1. rewrite E, znth_zupd_eq; [done|apply (fo_ip _ _ Hf)].
Qed.

Lemma layout_frame k k' :
  k_sb k' = k_sb k -> lg_start (klog k') = lg_start (klog k) -> lg_size (klog k') = lg_size (klog k) ->
  layout k -> layout k'.
Proof using. intros E1 E2 E3 [A B C D]. by split; rewrite ?E1, ?E2, ?E3. Qed.

Lemma linked_fs k ip r k' : fs_ok k -> linked k ip r k' -> fs_ok k'.
Proof using.
  intros [Hly Hm Ho] H. pose proof (linked_sb _ _ _ _ H) as Esb. destruct (ln_log _ _ _ _ H) as (El1 & El2 & _). split.
  - by eapply layout_frame.
  - intros b Hb. rewrite Esb in Hb. pose proof (ly_bmap k Hly). rewrite (ln_used _ _ _ _ H) by lia.
    rewrite Hm by done. apply orb_true_r.
  - by rewrite Esb.
Qed.

Lemma linked_good k ip r k' a : fs_ok k -> linked k ip r k' -> good_addr k a -> good_addr k' a.
Proof using.
  intros [Hly _ _] H [Hd Hu]. unfold good_addr, is_data in *. rewrite (linked_sb _ _ _ _ H). split; [done|].
  pose proof (data_start_pos k Hly). rewrite (ln_used _ _ _ _ H), Hu by lia. apply orb_true_r.
Qed.

Lemma linked_good_new k ip r k' : fs_ok k -> linked k ip r k' -> good_addr k' r.
Proof using.
  intros [Hly _ _] H. pose proof (ln_data _ _ _ _ H) as Hd. unfold good_addr, is_data in *.
  rewrite (linked_sb _ _ _ _ H). split; [done|].
  pose proof (data_start_pos k Hly). rewrite (ln_used _ _ _ _ H) by lia. by rewrite Z.eqb_refl.
Qed.

Lemma linked_pos k ip r k' : fs_ok k -> linked k ip r k' -> r <> 0.
Proof using.
  intros [Hly _ _] H. pose proof (ln_data _ _ _ _ H) as Hd. unfold is_data in Hd. pose proof (data_start_pos k Hly). lia.
Qed.

(** The new block is block [bn0] of the file. *)
Lemma mapped_block k ip r k' bn0 :
  fs_ok k -> file_ok k ip -> linked k ip r k' -> is_bn bn0 -> addr_of k ip bn0 = 0 ->
  ind k' ip = ind k ip -> (forall bn, is_bn bn -> addr_of k' ip bn = if bn =? bn0 then r else addr_of k ip bn) ->
  mapped k ip k'.
Proof using.
  intros Hfs Hf H Hbn0 H0 Hind Haddr. destruct (linked_inode _ _ _ _ Hf H) as (Hzl & a & Ha & Ei).
  pose proof (linked_pos _ _ _ _ Hfs H) as Hr0.
  assert (forall bn, is_bn bn -> addr_of k ip bn <> 0 -> addr_of k' ip bn = addr_of k ip bn) as Hold.
  { intros bn Hbn Hne. rewrite Haddr by done. zcase (bn =? bn0); [by subst|done]. }
  split.
  - apply (ln_frame _ _ _ _ H).
  - destruct (ln_itab _ _ _ _ H) as (x & ? & _). eauto.
  - by eapply linked_fs.
  - split.
    + rewrite Hzl. apply (fo_ip _ _ Hf).
    + rewrite Ei. apply (fo_dev _ _ Hf).
    + by rewrite Ei.
    + rewrite Hind. intros Hn. eapply linked_good; [done|done|]. by apply (fo_ind _ _ Hf).
    + intros bn Hbn. rewrite Haddr by done. zcase (bn =? bn0) as E; intros Hn; [by eapply linked_good_new|].
      eapply linked_good; [done|done|]. by apply (fo_addr _ _ Hf).
    + intros bn bn' Hbn Hbn'. rewrite !Haddr by done. zcase (bn =? bn0) as E; zcase (bn' =? bn0) as E'.
      * congruence.
      * intros Er Hn. exfalso. eapply good_not_free; [|apply (ln_free _ _ _ _ H)|symmetry; exact Er].
        apply (fo_addr _ _ Hf); [done|congruence].
      * intros Er Hn. exfalso. eapply good_not_free; [|apply (ln_free _ _ _ _ H)|exact Er].
        apply (fo_addr _ _ Hf); done.
      * by apply (fo_inj _ _ Hf).
    + intros bn Hbn. rewrite Hind, Haddr by done. zcase (bn =? bn0) as E; intros Hn; [|by apply (fo_sep _ _ Hf)].
      intros Er. eapply good_not_free; [|apply (ln_free _ _ _ _ H)|symmetry; exact Er]. by apply (fo_ind _ _ Hf).
  - intros bn Hbn. unfold fblock. rewrite Haddr by done. zcase (bn =? bn0) as E.
    + subst. rewrite H0. zcase (r =? 0); [done|]. apply (ln_zero _ _ _ _ H).
    + zcase (addr_of k ip bn =? 0) as Ea; [done|]. apply (ln_kept _ _ _ _ H). split; [right; by apply (fo_addr _ _ Hf)|].
      destruct (decide (ind k ip = 0)) as [->|]; [done|by apply (fo_sep _ _ Hf)].
  - done.
  - done.
  - rewrite Hind. by intros b [].
  - intros bn Hbn. rewrite Haddr by done. destruct (bn =? bn0); [|by left].
    right. split; [apply (ln_data _ _ _ _ H)|apply (ln_free _ _ _ _ H)].
  - intros x Hx Hu. rewrite (ln_used _ _ _ _ H), Hu by done. apply orb_true_r.
  - apply (ln_kept _ _ _ _ H).
  - apply (ln_log _ _ _ _ H).
Qed.

(** The new block is the indirect block. *)
Lemma mapped_indirect k ip r k' :
  fs_ok k -> file_ok k ip -> linked k ip r k' -> ind k ip = 0 -> ind k' ip = r ->
  (forall bn, is_bn bn -> addr_of k' ip bn = addr_of k ip bn) -> mapped k ip k'.
Proof using.
  intros Hfs Hf H Hind0 Hind Haddr. destruct (linked_inode _ _ _ _ Hf H) as (Hzl & a & Ha & Ei). split.
  - apply (ln_frame _ _ _ _ H).
  - destruct (ln_itab _ _ _ _ H) as (x & ? & _). eauto.
  - by eapply linked_fs.
  - split.
    + rewrite Hzl. apply (fo_ip _ _ Hf).
    + rewrite Ei. apply (fo_dev _ _ Hf).
    + by rewrite Ei.
    + rewrite Hind. intros Hn. by eapply linked_good_new.
    + intros bn Hbn. rewrite Haddr by done. intros Hn. eapply linked_good; [done|done|]. by apply (fo_addr _ _ Hf).
    + intros bn bn' Hbn Hbn'. rewrite !Haddr by done. by apply (fo_inj _ _ Hf).
    + intros bn Hbn. rewrite Hind, Haddr by done. intros Hn Er.
      eapply good_not_free; [|apply (ln_free _ _ _ _ H)|exact Er]. apply (fo_addr _ _ Hf); [done|congruence].
  - intros bn Hbn. unfold fblock. rewrite Haddr by done. zcase (addr_of k ip bn =? 0) as Ea; [done|].
    apply (ln_kept _ _ _ _ H). split; [right; by apply (fo_addr _ _ Hf)|]. by rewrite Hind0.
  - intros bn Hbn _. by apply Haddr.
  - done.
  - rewrite Hind. intros b [[Hb|Hg] _] ->; [|by eapply good_not_free; [|apply (ln_free _ _ _ _ H)|]].
    pose proof (data_start_pos k (fs_layout _ Hfs)). destruct (ln_data _ _ _ _ H). lia.
  - intros bn Hbn. left. by apply Haddr.
  - intros x Hx Hu. rewrite (ln_used _ _ _ _ H), Hu by done. apply orb_true_r.
  - apply (ln_kept _ _ _ _ H).
  - apply (ln_log _ _ _ _ H).
Qed.

Lemma mapped_sb k ip k' : mapped k ip k' -> k_sb k' = k_sb k.
Proof using. intros H. apply fs_frame_sb, (mp_frame _ _ _ H). Qed.

Lemma mapped_inode k ip k' :
  file_ok k ip -> mapped k ip k' -> exists a, geti k' ip = set_iaddrs a (geti k ip).
Proof using.
  intros Hf H. destruct (mp_itab _ _ _ H) as (a & E). exists a. unfold geti at 1. rewrite E, znth_zupd_eq; [done|apply (fo_ip _ _ Hf)].
Qed.

Lemma kept_mapped k ip k' b : fs_ok k -> mapped k ip k' -> kept k ip b -> kept k' ip b.
Proof using.
  intros [Hly _ _] H Hk. split; [|by apply (mp_new_ind _ _ _ H)]. destruct Hk as [Hb _]. rewrite (mapped_sb _ _ _ H).
  destruct Hb as [Hb|[Hd Hu]]; [by left|]. right. unfold good_addr, is_data in *. rewrite (mapped_sb _ _ _ H).
  split; [done|]. pose proof (data_start_pos k Hly). apply (mp_used _ _ _ H); [lia|done].
Qed.

Lemma mapped_trans k1 ip k2 k3 : fs_ok k1 -> file_ok k1 ip -> mapped k1 ip k2 -> mapped k2 ip k3 -> mapped k1 ip k3.
Proof using.
  intros Hfs Hf H1 H2. pose proof (mapped_sb _ _ _ H1) as Esb. split.
  - eapply fs_frame_trans; [apply (mp_frame _ _ _ H1)|apply (mp_frame _ _ _ H2)].
  - destruct (mp_itab _ _ _ H1) as (a1 & E1). destruct (mp_itab _ _ _ H2) as (a2 & E2). exists a2.
    destruct (mapped_inode _ _ _ Hf H1) as (a & Ei). rewrite E2, Ei, E1. unfold zupd.
    destruct (_ <? _); [by destruct (geti k1 ip)|]. rewrite list_insert_insert. by rewrite decide_True by done; destruct (geti k1 ip).
  - apply (mp_fs _ _ _ H2).
  - apply (mp_file _ _ _ H2).
  - intros bn Hbn. by rewrite (mp_block _ _ _ H2), (mp_block _ _ _ H1).
  - intros bn Hbn Hn. rewrite (mp_addr _ _ _ H2), (mp_addr _ _ _ H1); try done. by rewrite (mp_addr _ _ _ H1).
  - intros Hn. rewrite (mp_ind _ _ _ H2), (mp_ind _ _ _ H1); try done. by rewrite (mp_ind _ _ _ H1).
  - intros b Hb. apply (mp_new_ind _ _ _ H2). by eapply kept_mapped.
  - intros bn Hbn. destruct (mp_fresh _ _ _ H2 bn Hbn) as [E|[Hd Hu]]; [rewrite E; by apply (mp_fresh _ _ _ H1)|].
    right. unfold is_data in *. rewrite Esb in Hd. split; [done|].
    destruct (used k1 (addr_of k3 ip bn)) eqn:Eu; [|done]. pose proof (data_start_pos k1 (fs_layout _ Hfs)).
    rewrite (mp_used _ _ _ H1) in Hu; [done|lia|done].
  - intros x Hx Hu. apply (mp_used _ _ _ H2); [by rewrite Esb|]. by apply (mp_used _ _ _ H1).
  - intros b Hb. rewrite (mp_kept _ _ _ H2) by (by eapply kept_mapped). by apply (mp_kept _ _ _ H1).
  - eapply same_geom_trans; [apply (mp_log _ _ _ H1)|apply (mp_log _ _ _ H2)].
Qed.

Lemma itab_id k ip : file_ok k ip -> k_itab k = zupd (k_itab k) ip (set_iaddrs (i_addrs (geti k ip)) (geti k ip)).
Proof using.
  intros Hf. rewrite <- (zupd_id inode0 (k_itab k) ip) at 1 by apply (fo_ip _ _ Hf). fold (geti k ip). f_equal.
  by destruct (geti k ip).
Qed.

Lemma mapped_same k ip k' :
  fs_ok k -> file_ok k ip -> advanced k [] k' -> k_itab k' = k_itab k -> mapped k ip k'.
Proof using.
  intros Hfs Hf Ha Hi. assert (geti k' ip = geti k ip) as Eg by (unfold geti; by rewrite Hi).
  assert (ind k' ip = ind k ip) as Ein by (unfold ind; by rewrite Eg).
  assert (forall bn, addr_of k' ip bn = addr_of k ip bn) as Ea.
  { intros bn. unfold addr_of. by rewrite Ein, Eg, (av_view _ _ _ _ Ha). }
  pose proof (advanced_sb _ _ _ _ Ha) as Esb. destruct Hfs as [Hly Hm Ho].
  assert (forall a, good_addr k a -> good_addr k' a) as Hg.
  { intros a [Hd Hu]. unfold good_addr, is_data in *. rewrite Esb. split; [done|].
    pose proof (data_start_pos k Hly). rewrite (used_same dev k) by (done || lia). done. }
  split.
  - apply (av_frame _ _ _ _ Ha).
  - exists (i_addrs (geti k ip)). rewrite Hi. apply (itab_id _ _ Hf).
  - split; [by eapply layout_advanced|by eapply meta_same|by rewrite Esb].
  - destruct Hf. split; rewrite ?Eg, ?Ein, ?Hi; try done.
    + auto.
    + intros bn Hbn. rewrite Ea. auto.
    + intros bn bn'. rewrite !Ea. auto.
    + intros bn. rewrite Ea. auto.
  - intros bn Hbn. unfold fblock. by rewrite Ea, (av_view _ _ _ _ Ha).
  - by intros.
  - done.
  - rewrite Ein. by intros b [].
  - intros bn _. by left.
  - intros x Hx Hu. by rewrite (used_same dev k).
  - intros b _. by rewrite (av_view _ _ _ _ Ha).
  - by eapply advanced_geom.
Qed.

End File.
