(* ===== verification/FsBmap.v ===== *)
(** * bmap (kernel/fs.c)

    [bmap] returns the disk block of a file block, adding a zeroed one when there is none,
    and 0 when the disk is full; the content of the file does not change. *)
From S2P Require Import Prelude Bytes Memory Machine Riscv Kalloc Vm Sleeplock Bio BioProps BioSpec BioSteps.
From S2P Require Import Log LogProps LogLoops LogCrash LogCommit LogSpec Wp Txn Kernel Fs FsSteps FsAlloc FsFile.

Section Bmap.
Context (dev : Z) (Hdev : dev <> 0).

Abbreviation kview := (kview dev).
Abbreviation ktxn := (ktxn dev).
Abbreviation advanced := (advanced dev).
Abbreviation used := (used dev).
Abbreviation fs_ok := (fs_ok dev).
Abbreviation file_ok := (file_ok dev).
Abbreviation mapped := (mapped dev).
Abbreviation linked := (linked dev).
Abbreviation addr_of := (addr_of dev).

Lemma BBLOCK_one k r : fs_ok k -> 0 <= r < sb_size (k_sb k) -> BBLOCK r (k_sb k) = sb_bmapstart (k_sb k).
Proof using.
  intros [Hly _ Ho] Hr. rewrite (proj1 (BBLOCK_val k r Hly Hr)). rewrite Z.div_small by lia. done.
Qed.

Lemma data_range k r : fs_ok k -> is_data k r -> 0 <= r < sb_size (k_sb k) /\ sb_bmapstart (k_sb k) < r.
Proof using. intros [Hly _ _] Hr. pose proof (data_start_pos k Hly). unfold is_data in Hr. lia. Qed.

(** A change that leaves the bitmap and the file's addresses leaves the file. *)
Lemma keep_fs k k' :
  k_sb k' = k_sb k -> same_geom k k' -> (forall x, 0 <= x < sb_size (k_sb k) -> used k' x = used k x) -> fs_ok k -> fs_ok k'.
Proof using.
  intros Esb (E1 & E2 & _) Hu [Hly Hm Ho]. split; [by eapply layout_frame| |by rewrite Esb].
  intros b Hb. rewrite Esb in Hb. pose proof (ly_bmap k Hly). rewrite Hu by lia. by apply Hm.
Qed.

Lemma keep_addr k k' ip bn :
  i_addrs (geti k' ip) = i_addrs (geti k ip) -> (ind k ip <> 0 -> kview k' (ind k ip) = kview k (ind k ip)) ->
  addr_of k' ip bn = addr_of k ip bn.
Proof using.
  intros Eg Hv.
  unfold FsFile.addr_of. assert (ind k' ip = ind k ip) as -> by (unfold ind; by rewrite Eg). rewrite Eg.
  zcase (bn <? 12) as E1; [done|]. zcase (ind k ip =? 0) as E2; [done|]. by rewrite Hv.
Qed.

Lemma keep_file k k' ip :
  zlen (k_itab k') = zlen (k_itab k) -> i_dev (geti k' ip) = i_dev (geti k ip) ->
  i_addrs (geti k' ip) = i_addrs (geti k ip) -> k_sb k' = k_sb k ->
  (ind k ip <> 0 -> kview k' (ind k ip) = kview k (ind k ip)) ->
  (forall x, 0 <= x < sb_size (k_sb k) -> used k' x = used k x) -> fs_ok k -> file_ok k ip -> file_ok k' ip.
Proof using.
  intros Hz Edv Eg Esb Hv Hu Hfs Hf.
  assert (ind k' ip = ind k ip) as Ei by (unfold ind; by rewrite Eg). assert (Ea := fun bn => keep_addr k k' ip bn Eg Hv).
  assert (forall a, good_addr dev k a -> good_addr dev k' a) as Hg.
  { intros a [Hd Hua]. pose proof (data_range k a Hfs Hd) as [? _]. unfold good_addr, is_data in *. rewrite Esb, Hu; done. }
  destruct Hf as [F1 F2 F3 F4 F5 F6 F7]. split; rewrite ?Eg, ?Ei, ?Hz, ?Edv; try done.
  - auto.
  - intros bn Hbn. rewrite Ea. auto.
  - intros bn bn'. rewrite !Ea. auto.
  - intros bn. rewrite Ea. auto.
Qed.

(** Writes to the bitmap, to a free block and to the indirect block leave the others. *)
Lemma kept_over k ip ws k' b r :
  fs_ok k -> advanced k ws k' -> used k r = false -> is_data k r ->
  Forall (fun w => w.1 = sb_bmapstart (k_sb k) \/ w.1 = r \/ w.1 = ind k ip) ws ->
  kept dev k ip b -> kview k' b = kview k b.
Proof using.
  intros Hfs Ha Hr Hd Hws [Hb Hi]. rewrite (av_view _ _ _ _ Ha), over_notin; [done|].
  intros (w & -> & Hin)%list_elem_of_fmap. rewrite Forall_forall in Hws.
  pose proof (data_range k r Hfs Hd). pose proof (data_start_pos k (fs_layout _ _ Hfs)).
  destruct (Hws _ Hin) as [E|[E|E]].
  - rewrite E in Hb. destruct Hb as [Hb|[Hb _]]; unfold is_data in *; lia.
  - rewrite E in Hb. destruct Hb as [Hb|Hb]; [lia|]. by eapply good_not_free.
  - done.
Qed.

(** ** A block in the inode *)

Lemma linked_alloc k ip r v k1 j :
  fs_ok k -> file_ok k ip -> is_data k r -> used k r = false ->
  advanced k [(BBLOCK r (k_sb k), v); (r, zeros)] k1 ->
  (forall x, 0 <= x < sb_size (k_sb k) -> used k1 x = (x =? r) || used k x) -> k_itab k1 = k_itab k ->
  linked k ip r (updi ip (fun i => set_iaddrs (zupd (i_addrs i) j r) i) k1).
Proof using.
  intros Hfs Hf Hd Hfree Ha Hu Hit. pose proof (data_range k r Hfs Hd) as [Hr Hbr]. split; try done.
  - eapply fs_frame_trans; [apply (av_frame _ _ _ _ Ha)|]. by destruct k1.
  - exists (zupd (i_addrs (geti k ip)) j r). unfold updi. cbn. assert (geti k1 ip = geti k ip) as -> by (unfold geti; by rewrite Hit).
    rewrite Hit. split; [done|]. rewrite length_zupd. apply (fo_len _ _ _ Hf).
  - change (kview k1 r = zeros). rewrite (av_view _ _ _ _ Ha). cbn. by rewrite Z.eqb_refl.
  - intros b Hb. change (kview k1 b = kview k b). eapply kept_over; try done.
    rewrite BBLOCK_one by done. apply Forall_cons; split; [by left|]. apply Forall_singleton. by right; left.
  - exact (advanced_geom _ _ _ _ Ha).
Qed.

Lemma ind_updi k ip j r k1 :
  file_ok k ip -> k_itab k1 = k_itab k -> 0 <= j <= 12 ->
  ind (updi ip (fun i => set_iaddrs (zupd (i_addrs i) j r) i) k1) ip = if j =? 12 then r else ind k ip.
Proof using.
  intros Hf Hit Hj. unfold ind. rewrite geti_updi by (rewrite Hit; apply (fo_ip _ _ _ Hf)).
  assert (geti k1 ip = geti k ip) as -> by (unfold geti; by rewrite Hit). cbn [i_addrs set_iaddrs].
  apply znth_zupd. unfold zlen. rewrite (fo_len _ _ _ Hf). lia.
Qed.

Lemma get32_zeros o : 0 <= o -> o + 4 <= 1024 -> get32 zeros o = 0.
Proof using.
  intros H1 H2. unfold getn, slice, zeros. rewrite drop_replicate, take_replicate.
  replace (_ `min` _)%nat with 4%nat; [done|]. unfold BSIZE. lia.
Qed.

(** The new block is a direct block. *)
Lemma link_direct k ip r v k1 j :
  fs_ok k -> file_ok k ip -> is_data k r -> used k r = false ->
  advanced k [(BBLOCK r (k_sb k), v); (r, zeros)] k1 ->
  (forall x, 0 <= x < sb_size (k_sb k) -> used k1 x = (x =? r) || used k x) -> k_itab k1 = k_itab k ->
  0 <= j < 12 -> addr_of k ip j = 0 ->
  let k2 := updi ip (fun i => set_iaddrs (zupd (i_addrs i) j r) i) k1 in
  mapped k ip k2 /\ addr_of k2 ip j = r /\ ind k2 ip = ind k ip.
Proof using.
  intros Hfs Hf Hd Hfree Ha Hu Hit Hj H0 k2. pose proof (linked_alloc k ip r v k1 j Hfs Hf Hd Hfree Ha Hu Hit) as Hl.
  fold k2 in Hl. assert (ind k2 ip = ind k ip) as Eind.
  { unfold k2. rewrite (ind_updi k) by (done || lia). zcase (j =? 12) as E; [lia|done]. }
  assert (forall bn, is_bn bn -> addr_of k2 ip bn = if bn =? j then r else addr_of k ip bn) as Eaddr.
  { intros bn Hbn. unfold FsFile.addr_of. rewrite Eind. zcase (bn <? 12) as E.
    - unfold k2. rewrite geti_updi by (rewrite Hit; apply (fo_ip _ _ _ Hf)).
      assert (geti k1 ip = geti k ip) as -> by (unfold geti; by rewrite Hit). cbn [i_addrs set_iaddrs].
      rewrite znth_zupd by (unfold zlen; rewrite (fo_len _ _ _ Hf); lia). by rewrite (Z.eqb_sym j bn).
    - zcase (bn =? j) as E'; [lia|]. zcase (ind k ip =? 0) as Ei; [done|]. change (kview k2) with (kview k1).
      rewrite (av_view _ _ _ _ Ha), over_notin; [done|]. rewrite BBLOCK_one by (done || apply (data_range k r Hfs Hd)).
      destruct (fo_ind _ _ _ Hf Ei) as [Hd1 Hu1]. pose proof (data_range k _ Hfs Hd1).
      change ([_; _].*1) with [sb_bmapstart (k_sb k); r]. rewrite !not_elem_of_cons.
      split; [lia|]. split; [|apply not_elem_of_nil]. intros E''. rewrite E'' in Hu1. congruence. }
  split; [apply (mapped_block dev k ip r k2 j); try done; unfold is_bn; lia|]. split; [|done].
  rewrite Eaddr by (unfold is_bn; lia). by rewrite Z.eqb_refl.
Qed.

(** The new block is the indirect block. *)
Lemma link_indirect k ip r v k1 :
  fs_ok k -> file_ok k ip -> is_data k r -> used k r = false ->
  advanced k [(BBLOCK r (k_sb k), v); (r, zeros)] k1 ->
  (forall x, 0 <= x < sb_size (k_sb k) -> used k1 x = (x =? r) || used k x) -> k_itab k1 = k_itab k ->
  ind k ip = 0 ->
  let k2 := updi ip (fun i => set_iaddrs (zupd (i_addrs i) 12 r) i) k1 in
  mapped k ip k2 /\ ind k2 ip = r.
Proof using.
  intros Hfs Hf Hd Hfree Ha Hu Hit H0 k2. pose proof (linked_alloc k ip r v k1 12 Hfs Hf Hd Hfree Ha Hu Hit) as Hl.
  fold k2 in Hl. assert (ind k2 ip = r) as Eind.
  { unfold k2. rewrite (ind_updi k) by (done || lia). done. }
  split; [|done]. apply (mapped_indirect dev k ip r k2); try done. intros bn Hbn. unfold FsFile.addr_of. rewrite Eind, H0. cbn.
  zcase (bn <? 12) as E.
  - unfold k2. rewrite geti_updi by (rewrite Hit; apply (fo_ip _ _ _ Hf)).
    assert (geti k1 ip = geti k ip) as -> by (unfold geti; by rewrite Hit). cbn [i_addrs set_iaddrs].
    rewrite znth_zupd_ne by lia. done.
  - zcase (r =? 0) as Er; [done|]. rewrite (ln_zero _ _ _ _ _ Hl). unfold is_bn in Hbn. by rewrite get32_zeros by lia.
Qed.

(** ** The operations *)

Context (c0 : ctx) (Hc0 : idle c0).
Abbreviation pid := (c_pid c0).

Definition disk_full (k : kst) : Prop := forall x, 0 <= x < sb_size (k_sb k) -> used k x = true.

Lemma fits_room k ip n : fits k ip n -> room (k_l k) n.
Proof using.
  intros (H0 & H1 & H2). unfold pot in *. pose proof (miss_range k (sb_bmapstart (k_sb k))). pose proof (miss_range k (ind k ip)).
  unfold room. fold (klog k). destruct (ind k ip =? 0); lia.
Qed.

Lemma held_nil k : held_used dev k [].
Proof using. split; [cbn; lia|]. intros b Hb. by apply not_elem_of_nil in Hb. Qed.

Lemma pot_same k ip k' :
  advanced k [] k' -> k_itab k' = k_itab k -> pot k' ip = pot k ip.
Proof using.
  intros Ha Hi. unfold pot, miss, ind, geti. rewrite Hi, (av_log _ _ _ _ Ha), (advanced_sb _ _ _ _ Ha). done.
Qed.

Lemma tx_alloc k H r v k1 H1 :
  ktxn pid k H -> ktxn pid k1 H1 -> fs_ok k -> is_data k r ->
  advanced k [(BBLOCK r (k_sb k), v); (r, zeros)] k1 ->
  lg_n (klog k1) <= lg_n (klog k) + miss k (sb_bmapstart (k_sb k)) + 1 /\
  miss k1 (sb_bmapstart (k_sb k)) = 0 /\ miss k1 r = 0 /\ (forall b, miss k1 b <= miss k b).
Proof using Hdev.
  intros Hs Hs1 Hfs Hd Ha. rewrite (BBLOCK_one k r Hfs) in Ha by apply (data_range k r Hfs Hd). split; [|split; [|split]].
  - eapply spent_alloc; [done|exact Hs|exact Hs1|exact Ha].
  - eapply miss_in; [done|exact Hs|exact Hs1|exact Ha|]. cbn. left.
  - eapply miss_in; [done|exact Hs|exact Hs1|exact Ha|]. cbn. right. left.
  - intros b. eapply miss_mono; [done|exact Hs|exact Hs1|exact Ha].
Qed.

(** The state after an allocation, and the inode's address set. *)
Lemma pot_alloc k ip r v k1 f :
  ktxn pid k [] -> ktxn pid k1 [] -> fs_ok k -> is_data k r ->
  advanced k [(BBLOCK r (k_sb k), v); (r, zeros)] k1 ->
  let k2 := updi ip f k1 in
  lg_n (klog k2) <= lg_n (klog k) + miss k (sb_bmapstart (k_sb k)) + 1 /\
  miss k2 (sb_bmapstart (k_sb k2)) = 0 /\ miss k2 r = 0 /\ (forall b, miss k2 b <= miss k b).
Proof using Hdev.
  intros Hs Hs1 Hfs Hd Ha k2. change (k_sb k2) with (k_sb k1). rewrite (advanced_sb _ _ _ _ Ha).
  exact (tx_alloc k [] r v k1 [] Hs Hs1 Hfs Hd Ha).
Qed.

Definition bmap_post (k : kst) (ip bn a : Z) (k' : kst) : Prop :=
  mapped k ip k' /\ ktxn pid k' [] /\ a = addr_of k' ip bn /\ (a = 0 -> disk_full k') /\
  pot k' ip + (if a =? 0 then 0 else miss k' a) <= pot k ip + (if a =? 0 then 0 else 1).

Lemma mapped_refl k ip : fs_ok k -> file_ok k ip -> mapped k ip k.
Proof using. intros. by apply mapped_same; [..|apply advanced_refl|]. Qed.

Lemma wp_bmap_direct c k ip j :
  same_ctx c0 c -> ktxn pid k [] -> fs_ok k -> file_ok k ip -> fits k ip 2 -> 0 <= j < 12 ->
  wp (bmap_addr ip j) c k (bmap_post k ip j).
Proof using Hdev Hc0.
  intros Hc Hs Hfs Hf Hfit Hj. unfold bmap_addr, iget_field. apply wp_gets.
  assert (znth 0 (i_addrs (geti k ip)) j = addr_of k ip j) as -> by (unfold FsFile.addr_of; zcase (j <? 12) as E; [done|lia]).
  zcase (addr_of k ip j =? 0) as E0.
  - apply wp_gets. rewrite (fo_dev _ _ _ Hf). eapply wp_seq.
    { apply (wp_balloc dev Hdev c0 Hc0); [done|done|apply Hfs|apply Hfs|apply held_nil|by eapply fits_room]. }
    intros r k1 c1 Hc1 (St & Hs1 & It1 & _). inversion St as [k' Hall A|r' v k' Hd Hfree Hbelow A Hu]; subst; cbn [Z.eqb].
    + apply wp_ret. pose proof (mapped_same dev k ip k1 Hfs Hf A It1) as Hm. split; [done|]. split; [done|].
      split; [|split].
      * unfold FsFile.addr_of in *. unfold ind, geti in *. rewrite It1, (av_view _ _ _ _ A). done.
      * intros _ x. rewrite (advanced_sb _ _ _ _ A). intros Hx. rewrite (used_same dev k); [by apply Hall|apply Hfs|done|done].
      * rewrite (pot_same k ip k1 A It1). cbn -[pot]; lia.
    + pose proof (data_range k r Hfs Hd). zcase (r =? 0) as Er; [pose proof (data_start_pos k (fs_layout _ _ Hfs)); lia|].
      unfold iset. apply wp_modify, wp_ret.
      destruct (link_direct k ip r v k1 j) as (Hm & Ea & Ei); try done.
      destruct (pot_alloc k ip r v k1 (fun i => set_iaddrs (zupd (i_addrs i) j r) i)) as (P1 & P2 & P3 & P4); try done.
      split; [done|]. split; [done|]. split; [done|]. split; [done|]. zcase (r =? 0) as Er'; [done|].
      unfold pot. rewrite P2, P3, Ei. pose proof (P4 (ind k ip)). destruct (ind k ip =? 0); lia.
  - apply wp_ret. split; [by apply mapped_refl|]. split; [done|]. split; [done|]. split; [done|].
    zcase (addr_of k ip j =? 0) as E; [done|]. pose proof (miss_range k (addr_of k ip j)). lia.
Qed.

Lemma wp_bmap_ind c k ip :
  same_ctx c0 c -> ktxn pid k [] -> fs_ok k -> file_ok k ip -> fits k ip 2 ->
  wp (bmap_addr ip 12) c k (fun a k' => mapped k ip k' /\ ktxn pid k' [] /\ a = ind k' ip /\ (a = 0 -> disk_full k') /\
    pot k' ip <= pot k ip).
Proof using Hdev Hc0.
  intros Hc Hs Hfs Hf Hfit. unfold bmap_addr, iget_field. apply wp_gets. fold (ind k ip).
  zcase (ind k ip =? 0) as E0.
  - apply wp_gets. rewrite (fo_dev _ _ _ Hf). eapply wp_seq.
    { apply (wp_balloc dev Hdev c0 Hc0); [done|done|apply Hfs|apply Hfs|apply held_nil|by eapply fits_room]. }
    intros r k1 c1 Hc1 (St & Hs1 & It1 & _). inversion St as [k' Hall A|r' v k' Hd Hfree Hbelow A Hu]; subst; cbn [Z.eqb].
    + apply wp_ret. pose proof (mapped_same dev k ip k1 Hfs Hf A It1) as Hm. split; [done|]. split; [done|].
      split; [|split].
      * unfold ind, geti in *. by rewrite It1.
      * intros _ x. rewrite (advanced_sb _ _ _ _ A). intros Hx. rewrite (used_same dev k); [by apply Hall|apply Hfs|done|done].
      * rewrite (pot_same k ip k1 A It1). lia.
    + pose proof (data_range k r Hfs Hd). zcase (r =? 0) as Er; [pose proof (data_start_pos k (fs_layout _ _ Hfs)); lia|].
      unfold iset. apply wp_modify, wp_ret.
      destruct (link_indirect k ip r v k1) as (Hm & Ei); try done.
      destruct (pot_alloc k ip r v k1 (fun i => set_iaddrs (zupd (i_addrs i) 12 r) i)) as (P1 & P2 & P3 & P4); try done.
      split; [done|]. split; [done|]. split; [done|]. split; [done|].
      unfold pot. rewrite P2, Ei, P3, E0. zcase (r =? 0) as Er'; [done|]. zcase (0 =? 0) as E00; lia.
  - apply wp_ret. split; [by apply mapped_refl|]. done.
Qed.

(** ** An entry of the indirect block *)

Lemma link_entry k H ip r v k1 k2 bn :
  ktxn pid k H -> fs_ok k -> file_ok k ip -> is_data k r -> used k r = false ->
  advanced k [(BBLOCK r (k_sb k), v); (r, zeros)] k1 ->
  (forall x, 0 <= x < sb_size (k_sb k) -> used k1 x = (x =? r) || used k x) ->
  advanced k1 [(ind k ip, put32 (kview k (ind k ip)) (4 * (bn - 12)) r)] k2 -> k_itab k2 = k_itab k ->
  ind k ip <> 0 -> 12 <= bn < 268 -> addr_of k ip bn = 0 ->
  mapped k ip k2 /\ addr_of k2 ip bn = r /\ ind k2 ip = ind k ip.
Proof using Hdev.
  intros Hs Hfs Hf Hd Hfree Ha Hu Ha2 Hit Hi Hbn H0. pose proof (advanced_trans _ _ _ _ _ _ Ha Ha2) as Ha12. cbn [app] in Ha12.
  pose proof (data_range k r Hfs Hd) as [Hr Hbr]. destruct (fo_ind _ _ _ Hf Hi) as [Hid Hiu].
  pose proof (data_range k _ Hfs Hid) as [Hir Hib]. rewrite (BBLOCK_one k r Hfs Hr) in *.
  pose proof (kview_length dev Hdev pid k H (ind k ip) Hs) as Hlen.
  assert (ind k ip <> r) as Hir' by (by eapply good_not_free).
  assert (linked k ip r k2) as Hl.
  { split; try done.
    - apply (av_frame _ _ _ _ Ha12).
    - exists (i_addrs (geti k ip)). rewrite Hit. split; [apply (itab_id _ _ _ Hf)|apply (fo_len _ _ _ Hf)].
    - intros x Hx. rewrite <- Hu by done. eapply used_frame; [eapply layout_advanced; [exact Ha|apply Hfs]|exact Ha2| |].
      + by rewrite (advanced_sb _ _ _ _ Ha).
      + apply Forall_singleton. left. rewrite (advanced_sb _ _ _ _ Ha). apply Hid.
    - rewrite (av_view _ _ _ _ Ha12). unfold over, foldl. cbn [fst snd].
      zcase (r =? ind k ip) as E; [done|]. by rewrite Z.eqb_refl.
    - intros b Hb. eapply kept_over; try done. apply Forall_cons; split; [by left|].
      apply Forall_cons; split; [by right; left|]. apply Forall_singleton. by right; right.
    - exact (advanced_geom _ _ _ _ Ha12). }
  assert (geti k2 ip = geti k ip) as Eg by (unfold geti; by rewrite Hit).
  assert (ind k2 ip = ind k ip) as Ei by (unfold ind; by rewrite Eg).
  assert (kview k2 (ind k ip) = put32 (kview k (ind k ip)) (4 * (bn - 12)) r) as Ev.
  { rewrite (av_view _ _ _ _ Ha2), over_one, Z.eqb_refl. done. }
  assert (forall bn', is_bn bn' -> addr_of k2 ip bn' = if bn' =? bn then r else addr_of k ip bn') as Eaddr.
  { intros bn' Hbn'. unfold FsFile.addr_of, is_bn in *. rewrite Ei, Eg. zcase (bn' <? 12) as E.
    - zcase (bn' =? bn) as E'; [lia|done].
    - zcase (ind k ip =? 0) as E'; [done|]. rewrite Ev. pose proof (ly_size k (fs_layout _ _ Hfs)). zcase (bn' =? bn) as Eb.
      + rewrite Eb. apply getn_putn_eq; [lia|unfold zlen; rewrite Hlen; lia|cbn; lia].
      + apply getn_putn_ne; [lia|unfold zlen; rewrite Hlen; lia|lia|lia]. }
  split; [apply (mapped_block dev k ip r k2 bn); try done; unfold is_bn; lia|]. split; [|done].
  rewrite Eaddr by (unfold is_bn; lia). by rewrite Z.eqb_refl.
Qed.

Lemma addr_same k ip k' bn : advanced k [] k' -> k_itab k' = k_itab k -> addr_of k' ip bn = addr_of k ip bn.
Proof using. intros A It. unfold FsFile.addr_of, ind, geti. by rewrite It, (av_view _ _ _ _ A). Qed.

Lemma full_same k k' : fs_ok k -> advanced k [] k' -> disk_full k -> disk_full k'.
Proof using.
  intros Hfs A Hf x. rewrite (advanced_sb _ _ _ _ A). intros Hx. rewrite (used_same dev k); [by apply Hf|apply Hfs|done|done].
Qed.

Lemma wp_bmap_entry c k ip bp bn :
  same_ctx c0 c -> ktxn pid k [(bp, ind k ip)] -> fs_ok k -> file_ok k ip -> fits k ip 2 ->
  ind k ip <> 0 -> 12 <= bn < 268 -> b_data (kbuf k bp) = kview k (ind k ip) ->
  wp (if addr_of k ip bn =? 0 then
        addr <- balloc dev ;;
        when (truth addr)
          (a <- bio_ (mget bp b_data) ;;
           bio_ (bset_data bp (put32 a (4 * (bn - 12)) addr)) ;;
           log_ (log_write bp)) ;;
        ret addr
      else ret (addr_of k ip bn)) c k (fun a k' =>
    mapped k ip k' /\ ktxn pid k' [(bp, ind k ip)] /\ a = addr_of k' ip bn /\ (a = 0 -> disk_full k') /\
    pot k' ip + (if a =? 0 then 0 else miss k' a) <= pot k ip + (if a =? 0 then 0 else 1)).
Proof using Hdev Hc0.
  intros Hc Hs Hfs Hf Hfit Hi Hbn Hd. zcase (addr_of k ip bn =? 0) as E0.
  - eapply wp_seq.
    { apply (wp_balloc dev Hdev c0 Hc0); [done|exact Hs|apply Hfs|apply Hfs| |by eapply fits_room].
      split; [done|]. intros b Hb. apply list_elem_of_singleton in Hb as ->. destruct (fo_ind _ _ _ Hf Hi). done. }
    intros r k1 c1 Hc1 (St & Hs1 & It1 & Hh1). pose proof (same_ctx_trans _ _ _ Hc Hc1) as Hc1'.
    inversion St as [k' Hall A|r' v k' Hdr Hfree Hbelow A Hu]; subst.
    + change (truth 0) with false. cbn [when]. apply wp_bind, wp_ret. intros c2 Hc2. apply wp_ret.
      split; [by apply mapped_same|]. split; [done|]. split; [by rewrite (addr_same k)|].
      split; [intros _; by eapply full_same|]. rewrite (pot_same k ip k1 A It1). cbn -[pot]. lia.
    + pose proof (data_range k r Hfs Hdr) as [Hr Hbr]. pose proof (data_start_pos k (fs_layout _ _ Hfs)).
      unfold truth. zcase (r =? 0) as Er; [lia|]. cbn [negb when].
      apply wp_bind, wp_bget. rewrite (Hh1 bp) by (cbn; left). rewrite Hd.
      pose proof (ly_size k (fs_layout _ _ Hfs)). destruct (fo_ind _ _ _ Hf Hi) as [Hid Hiu].
      pose proof (data_range k _ Hfs Hid) as [Hir Hib]. pose proof (fits_room _ _ _ Hfit) as Hroom.
      destruct (tx_alloc k _ r v k1 _ Hs Hs1 Hfs Hdr A) as (P1 & P2 & P3 & P4).
      eapply (wp_update_end dev Hdev c0 Hc0); [exact Hc1'|exact Hs1|left| |lia| | |].
      { pose proof (kview_length dev Hdev pid k _ (ind k ip) Hs) as Hlen. rewrite length_putn; [done|lia|unfold zlen; lia]. }
      { rewrite (advanced_in_log _ _ _ _ _ A). apply not_in_log; [apply Hfs|lia]. }
      { destruct Hfit as (F0 & F1 & F2). unfold pot in F1, F2. zcase (ind k ip =? 0) as E; [done|].
        pose proof (miss_range k (ind k ip)). unfold room. fold (klog k1).
        destruct (advanced_geom _ _ _ _ A) as (_ & -> & ->). lia. }
      intros k2 A2 Hs2 It2 _ _ _ c2 Hc2. apply wp_ret.
      destruct (link_entry k _ ip r v k1 k2 bn Hs Hfs Hf Hdr Hfree A Hu A2 ltac:(congruence) Hi Hbn E0) as (Hm & Ea & Ei).
      split; [done|]. split; [done|]. split; [done|]. split; [done|]. zcase (r =? 0) as Er'; [done|].
      pose proof (spent_miss dev Hdev pid k1 _ _ _ k2 _ Hs1 Hs2 A2) as Q1.
      pose proof (miss_mono dev Hdev pid k1 _ _ k2 _ (sb_bmapstart (k_sb k)) Hs1 Hs2 A2) as Q2.
      pose proof (miss_mono dev Hdev pid k1 _ _ k2 _ r Hs1 Hs2 A2) as Q3.
      pose proof (miss_in dev Hdev pid k1 _ _ k2 _ (ind k ip) Hs1 Hs2 A2 ltac:(cbn; left)) as Q4.
      pose proof (P4 (ind k ip)). unfold pot. rewrite Ei, (mapped_sb _ _ _ _ Hm). zcase (ind k ip =? 0) as E; [done|lia].
  - apply wp_ret. split; [by apply mapped_refl|]. split; [done|]. split; [done|]. split; [done|].
    zcase (addr_of k ip bn =? 0) as E; [done|]. pose proof (miss_range k (addr_of k ip bn)). lia.
Qed.

Theorem wp_bmap c k ip bn :
  same_ctx c0 c -> ktxn pid k [] -> fs_ok k -> file_ok k ip -> fits k ip 2 -> is_bn bn ->
  wp (bmap ip bn) c k (bmap_post k ip bn).
Proof using Hdev Hc0.
  intros Hc Hs Hfs Hf Hfit Hbn. unfold bmap, is_bn in *. change NDIRECT with 12. change NINDIRECT with 256.
  zcase (bn <? 12) as E1; [apply wp_bmap_direct; done || lia|]. zcase (bn - 12 <? 256) as E2; [|lia].
  eapply wp_seq; [by apply wp_bmap_ind|]. intros a k1 c1 Hc1 (Hm1 & Hs1 & -> & Hfull & Hp1).
  pose proof (same_ctx_trans _ _ _ Hc Hc1) as Hc1'. zcase (ind k1 ip =? 0) as E3.
  - apply wp_ret. split; [done|]. split; [done|]. split; [|split; [tauto|cbn -[pot]; lia]].
    unfold FsFile.addr_of. zcase (bn <? 12) as E4; [lia|]. by rewrite E3.
  - pose proof (mp_fs _ _ _ _ Hm1) as Hfs1. pose proof (mp_file _ _ _ _ Hm1) as Hf1.
    unfold iget_field. apply wp_gets. rewrite (fo_dev _ _ _ Hf1).
    assert (fits k1 ip 2) as Hfit1.
    { destruct (mp_log _ _ _ _ Hm1) as (_ & El & Eo). unfold fits in *. rewrite El, Eo. lia. }
    pose proof (room_tx _ _ _ _ _ Hs1 (fits_room _ _ _ Hfit1)).
    apply wp_bind. eapply (wp_bread dev Hdev c0 Hc0); [exact Hc1'|exact Hs1|apply not_elem_of_nil|cbn; lia|].
    intros bp k2 A2 Hs2 It2 _ Hd2 _ c2 Hc2. pose proof (same_ctx_trans _ _ _ Hc1' Hc2) as Hc2'.
    pose proof (mapped_same dev k1 ip k2 Hfs1 Hf1 A2 It2) as Hm2.
    assert (ind k2 ip = ind k1 ip) as Ei by (by apply (mp_ind _ _ _ _ Hm2)).
    apply wp_bget. rewrite Hd2. rewrite <- Ei in *.
    assert (get32 (kview k1 (ind k2 ip)) (4 * (bn - 12)) = addr_of k2 ip bn) as ->.
    { unfold FsFile.addr_of. zcase (bn <? 12) as E4; [lia|]. zcase (ind k2 ip =? 0) as E5; [done|].
      by rewrite (av_view _ _ _ _ A2). }
    eapply wp_seq; [apply (wp_bmap_entry c2 k2 ip bp bn); try done|].
    { apply (mp_fs _ _ _ _ Hm2). }
    { apply (mp_file _ _ _ _ Hm2). }
    { destruct (mp_log _ _ _ _ Hm2) as (_ & El & Eo). unfold fits in *. rewrite El, Eo, (pot_same k1 ip k2 A2 It2). lia. }
    { lia. }
    { by rewrite Hd2, (av_view _ _ _ _ A2). }
    intros a k3 c3 Hc3 (Hm3 & Hs3 & -> & Hfull3 & Hp3). pose proof (same_ctx_trans _ _ _ Hc2' Hc3) as Hc3'.
    apply wp_bind. eapply (wp_brelse dev Hdev c0 Hc0); [exact Hc3'|exact Hs3|]. intros k4 A4 Hs4 It4 _ _ c4 Hc4. apply wp_ret.
    pose proof (mapped_same dev k3 ip k4 (mp_fs _ _ _ _ Hm3) (mp_file _ _ _ _ Hm3) A4 It4) as Hm4.
    assert (addr_of k4 ip bn = addr_of k3 ip bn) as Ea by by eapply addr_same.
    split.
    { apply (mapped_trans dev k ip k1 k4); [done|done|done|]. apply (mapped_trans dev k1 ip k2 k4); [done|done|done|].
      apply (mapped_trans dev k2 ip k3 k4); [apply Hm2|apply Hm2|done|done]. }
    split; [done|]. split; [done|]. split; [intros H0; by eapply full_same; [apply Hm3|exact A4|apply Hfull3]|].
    rewrite (pot_same k3 ip k4 A4 It4). unfold miss at 1. rewrite (av_log _ _ _ _ A4). cbn [foldl].
    fold (miss k3 (addr_of k3 ip bn)). rewrite (pot_same k1 ip k2 A2 It2) in Hp3. destruct (_ =? 0); lia.
Qed.

End Bmap.
