(* ===== verification/FsInode.v ===== *)
(** * Inodes on the disk and in memory (kernel/fs.c: iupdate, ilock, iunlock, iget, idup)

    The bytes of a dinode decode to the inode they were made from; [iupdate] writes the
    inode's dinode and no other, and [ilock] reads it back. *)
From S2P Require Import Prelude Bytes Memory Machine Riscv Kalloc Vm Sleeplock Bio BioProps BioSpec BioSteps.
From S2P Require Import Log LogProps LogLoops LogCrash LogCommit LogSpec Wp Txn Kernel Fs FsSteps FsAlloc FsFile FsBmap.

(** ** The dinode *)

(** The fields that are on the disk. *)
Definition body (i : inode) := (i_type i, i_major i, i_minor i, i_nlink i, i_size i, i_addrs i).

(** An inode whose fields have the widths of the structure's. *)
Record inode_fits (i : inode) : Prop := {
  if_type : -32768 <= i_type i < 32768;
  if_major : -32768 <= i_major i < 32768;
  if_minor : -32768 <= i_minor i < 32768;
  if_nlink : -32768 <= i_nlink i < 32768;
  if_size : 0 <= i_size i < 4294967296;
  if_addrs : length (i_addrs i) = 13%nat;
  if_addr : Forall (fun a => 0 <= a < 4294967296) (i_addrs i);
}.

Lemma s16_u16 x : -32768 <= x < 32768 -> s16 (u16 x) = x.
Proof. intros. unfold s16, u16. dlia. Qed.

Lemma length_addrs_bytes a : length (addrs_bytes a) = (4 * length a)%nat.
Proof.
  unfold addrs_bytes. induction a as [|x a IH]; [done|]. cbn [map concat length].
  rewrite length_app, IH, length_le_bytes. lia.
Qed.

Lemma length_dinode_bytes i : length (i_addrs i) = 13%nat -> length (dinode_bytes i) = 64%nat.
Proof. intros H. unfold dinode_bytes. rewrite !length_app, !length_le_bytes, length_addrs_bytes, H. done. Qed.

Lemma get_addrs a j :
  Forall (fun a => 0 <= a < 4294967296) a -> 0 <= j < zlen a -> get32 (addrs_bytes a) (4 * j) = znth 0 a j.
Proof.
  revert j. induction a as [|x a IH]; intros j Hf Hj; [unfold zlen in Hj; cbn in Hj; lia|].
  apply Forall_cons in Hf as [Hx Hf]. unfold addrs_bytes. cbn [map concat]. fold (addrs_bytes a).
  destruct (decide (j = 0)) as [->|Hne]; [by apply getn_le_bytes|].
  rewrite getn_next by lia. replace (4 * j - Z.of_nat 4) with (4 * (j - 1)) by lia.
  rewrite IH; [|done|unfold zlen in *; cbn in Hj; lia]. by rewrite znth_cons_S by lia.
Qed.

Lemma read_addrs_bytes a :
  Forall (fun a => 0 <= a < 4294967296) a -> length a = 13%nat -> read_addrs (addrs_bytes a) 0 = a.
Proof.
  intros Hf Hl. unfold read_addrs. rewrite map_ext_in with (g := fun j => znth 0 a j).
  - do 14 (destruct a as [|? a]; [done || discriminate Hl|]). discriminate Hl.
  - intros j Hj%list_elem_of_In%elem_of_seqZ. rewrite Z.add_0_l. apply get_addrs; [done|]. unfold zlen. lia.
Qed.

(** A field after the fields before it. *)
Ltac dinode_field :=
  repeat rewrite getn_next by lia;
  match goal with |- context [getn ?n _ ?o] => replace o with 0 by lia end;
  apply getn_le_bytes; try apply u16_range.

Lemma dinode_fields i :
  inode_fits i ->
  get16 (dinode_bytes i) 0 = u16 (i_type i) /\ get16 (dinode_bytes i) 2 = u16 (i_major i) /\
  get16 (dinode_bytes i) 4 = u16 (i_minor i) /\ get16 (dinode_bytes i) 6 = u16 (i_nlink i) /\
  get32 (dinode_bytes i) 8 = i_size i /\
  forall j, 0 <= j < 13 -> get32 (dinode_bytes i) (12 + 4 * j) = znth 0 (i_addrs i) j.
Proof.
  intros [Ht Hma Hmi Hnl Hsz Hla Hfa]. unfold dinode_bytes. repeat split; try by dinode_field.
  intros j Hj. repeat rewrite getn_next by lia. rewrite <- (get_addrs (i_addrs i)); [f_equal; lia|done|unfold zlen; lia].
Qed.

(** A dinode's bytes decode to the inode. *)
Theorem load_dinode_bytes d off i j :
  inode_fits i -> 0 <= off -> off + 64 <= zlen d ->
  body (load_dinode (splice d off (dinode_bytes i)) off j) = body i.
Proof.
  intros Hi Ho Hd. pose proof (length_dinode_bytes i (if_addrs _ Hi)) as Hlen.
  assert (slice (splice d off (dinode_bytes i)) off 64 = dinode_bytes i) as Es.
  { replace 64 with (zlen (dinode_bytes i)) by (unfold zlen; by rewrite Hlen). apply slice_splice_eq; [done|]. unfold zlen at 1. by rewrite Hlen. }
  destruct (dinode_fields i Hi) as (F0 & F1 & F2 & F3 & F4 & F5).
  set (e := splice d off (dinode_bytes i)) in *. unfold load_dinode, body. cbn [i_type i_major i_minor i_nlink i_size i_addrs].
  replace (get16 e off) with (get16 e (off + 0)) by (by rewrite Z.add_0_r).
  rewrite !(getn_slice _ e off 64) by lia. rewrite Es, F0, F1, F2, F3, F4. destruct Hi.
  rewrite !s16_u16 by done. f_equal. rewrite <- (read_addrs_bytes (i_addrs i)) by done.
  apply map_ext_in. intros x Hx%list_elem_of_In%elem_of_seqZ. rewrite <- Z.add_assoc, (getn_slice _ e off 64) by lia.
  rewrite Es, F5 by lia. rewrite Z.add_0_l, get_addrs; [done|done|unfold zlen; lia].
Qed.

Section Inode.
Context (dev : Z) (Hdev : dev <> 0).

Abbreviation kview := (kview dev).
Abbreviation ktxn := (ktxn dev).
Abbreviation advanced := (advanced dev).
Abbreviation used := (used dev).
Abbreviation fs_ok := (fs_ok dev).
Abbreviation file_ok := (file_ok dev).
Abbreviation addr_of := (addr_of dev).
Abbreviation fblock := (fblock dev).

(** The inode [inum] on the disk, and in the cache. *)
Definition disk_inode (k : kst) (inum : Z) : inode :=
  load_dinode (kview k (IBLOCK inum (k_sb k))) (dinode_off inum) inode0.

Lemma IBLOCK_val k inum :
  layout k -> 0 <= inum < sb_ninodes (k_sb k) ->
  IBLOCK inum (k_sb k) = inum / 16 + sb_inodestart (k_sb k) /\
  sb_inodestart (k_sb k) <= IBLOCK inum (k_sb k) < sb_bmapstart (k_sb k).
Proof using.
  intros Hly Hi. pose proof (data_start_pos k Hly). pose proof (ly_size k Hly). pose proof (ly_bmap k Hly).
  destruct (ly_inode k Hly) as (? & ? & ?). unfold IBLOCK. change IPB with 16 in *.
  assert (inum / 16 <= sb_ninodes (k_sb k) / 16) by (apply Z.div_le_mono; lia).
  assert (0 <= inum / 16) by (apply Z.div_pos; lia). rewrite u32_small by lia. lia.
Qed.

Lemma dinode_off_range inum : 0 <= dinode_off inum /\ dinode_off inum + 64 <= 1024.
Proof using. unfold dinode_off. change IPB with 16. dlia. Qed.

Lemma load_dinode_body d off i j : body (load_dinode d off i) = body (load_dinode d off j).
Proof using. done. Qed.

(** A change inside a dinode's bytes leaves the others. *)
Lemma load_dinode_other d off l off' j :
  0 <= off -> off + zlen l <= zlen d -> 0 <= off' -> off' + 64 <= off \/ off + zlen l <= off' ->
  body (load_dinode (splice d off l) off' j) = body (load_dinode d off' j).
Proof using.
  intros H1 H2 H3 H4. unfold load_dinode, body, read_addrs. cbn.
  assert (forall n o, (n <= 4)%nat -> 0 <= o -> o + Z.of_nat n <= 64 -> getn n (splice d off l) (off' + o) = getn n d (off' + o)) as E.
  { intros n o Hn Ho Hno. unfold getn. rewrite slice_splice_ne by lia. done. }
  replace (get16 (splice d off l) off') with (get16 (splice d off l) (off' + 0)) by (by rewrite Z.add_0_r).
  rewrite !E by lia. rewrite Z.add_0_r. f_equal. apply map_ext_in. intros x Hx%list_elem_of_In%elem_of_seqZ.
  rewrite <- !Z.add_assoc. by rewrite E by lia.
Qed.

Context (c0 : ctx) (Hc0 : idle c0).
Abbreviation pid := (c_pid c0).

(** The inode [inum] was written, and nothing else. *)
Record wrote_inode (k : kst) (inum : Z) (i : inode) (k' : kst) : Prop := {
  wi_adv : exists d, advanced k [(IBLOCK inum (k_sb k), d)] k';
  wi_self : inode_fits i -> body (disk_inode k' inum) = body i;
  wi_other : forall n, 0 <= n < sb_ninodes (k_sb k) -> n <> inum -> body (disk_inode k' n) = body (disk_inode k n);
}.

Lemma wrote_inode_splice k inum i k' :
  layout k -> 0 <= inum < sb_ninodes (k_sb k) -> (forall b, length (kview k b) = 1024%nat) -> length (i_addrs i) = 13%nat ->
  advanced k [(IBLOCK inum (k_sb k), splice (kview k (IBLOCK inum (k_sb k))) (dinode_off inum) (dinode_bytes i))] k' ->
  wrote_inode k inum i k'.
Proof using.
  intros Hly Hi Hlen Hla Ha. pose proof (advanced_sb _ _ _ _ Ha) as Esb. destruct (dinode_off_range inum) as [Ho1 Ho2].
  assert (zlen (dinode_bytes i) = 64) as Hz by (unfold zlen; by rewrite length_dinode_bytes).
  split; [eauto| |].
  - intros Hf. unfold disk_inode. rewrite Esb, (view1 _ _ _ _ _ _ Ha), decide_True by done.
    apply load_dinode_bytes; [done|done|]. unfold zlen. rewrite Hlen. lia.
  - intros n Hn Hne. unfold disk_inode. rewrite Esb, (view1 _ _ _ _ _ _ Ha). destruct (decide _) as [E|]; [|done].
    rewrite <- E. destruct (dinode_off_range n). apply load_dinode_other; [done|unfold zlen in *; rewrite Hlen; lia|done|].
    rewrite Hz. rewrite (proj1 (IBLOCK_val k n Hly Hn)), (proj1 (IBLOCK_val k inum Hly Hi)) in E.
    unfold dinode_off. change IPB with 16. assert (inum / 16 = n / 16) by lia. dlia.
Qed.

Lemma wp_iupdate c k ip :
  same_ctx c0 c -> ktxn pid k [] -> layout k -> room (k_l k) 1 ->
  i_dev (geti k ip) = dev -> 0 <= i_inum (geti k ip) < sb_ninodes (k_sb k) -> length (i_addrs (geti k ip)) = 13%nat ->
  wp (iupdate ip) c k (fun _ k' =>
    wrote_inode k (i_inum (geti k ip)) (geti k ip) k' /\ ktxn pid k' [] /\ k_itab k' = k_itab k).
Proof using Hdev Hc0.
  intros Hc Hs Hly Hr Hd Hi Hla. unfold iupdate. do 2 apply wp_gets. rewrite Hd.
  destruct (IBLOCK_val k _ Hly Hi) as [_ HI]. pose proof (room_tx _ _ _ _ _ Hs Hr). pose proof (ly_size k Hly).
  pose proof (ly_bmap k Hly). pose proof (data_start_pos k Hly). destruct (dinode_off_range (i_inum (geti k ip))) as [Ho1 Ho2].
  assert (forall b, length (kview k b) = 1024%nat) as Hlen by (intros; by eapply kview_length).
  pose proof (ly_inode k Hly) as (? & ? & _).
  apply wp_bind. eapply (wp_bread dev Hdev c0 Hc0); [exact Hc|exact Hs|apply not_elem_of_nil|cbn; lia|].
  intros bp k1 A1 Hs1 It1 _ Hd1 _ c1 Hc1. apply wp_bget. rewrite Hd1.
  eapply (wp_update dev Hdev c0 Hc0); [by eapply same_ctx_trans|exact Hs1|left| |lia| |by eapply room_same|].
  { rewrite length_splice; [apply Hlen|done|]. unfold zlen. rewrite Hlen, length_dinode_bytes by done. lia. }
  { rewrite (advanced_in_log _ _ _ _ _ A1). pose proof (ly_log k Hly). unfold in_log. lia. }
  intros k2 c2 Hc2 A2 Hs2 It2 _ _ _. eapply (wp_brelse dev Hdev c0 Hc0); [exact Hc2|exact Hs2|].
  intros k3 A3 Hs3 It3 _ _. split; [|split; [done|congruence]].
  apply wrote_inode_splice; [done|done|done|done|]. eapply advanced_0l; [exact A1|]. eapply advanced_0r; [exact A2|exact A3].
Qed.

End Inode.
