(* ===== verification/FsContent.v ===== *)
(** * The content of files (kernel/fs.c: readi, writei)

    A file as the sequence of its bytes: [readi] returns them, and [writei] replaces them
    and extends the file. *)
From S2P Require Import Prelude Bytes Memory Machine Riscv Kalloc Vm Sleeplock Bio BioProps BioSpec BioSteps.
From S2P Require Import Log LogProps LogLoops LogCrash LogCommit LogSpec Wp Txn Kernel Fs FsSteps FsAlloc FsFile FsBmap FsInode.

Lemma seqZ_split off m n : 0 <= m -> 0 <= n -> seqZ off (m + n) = seqZ off m ++ seqZ (off + m) n.
Proof. intros. rewrite seqZ_app by done. done. Qed.

Lemma slice_znth (d : list Z) o m :
  0 <= o -> 0 <= m -> o + m <= zlen d -> slice d o m = znth 0 d <$> seqZ o m.
Proof.
  intros Ho Hm Hl. apply list_eq. intros i. rewrite list_lookup_fmap. unfold slice, zlen in *.
  destruct (decide (i < Z.to_nat m)%nat) as [Hi|Hi].
  - rewrite lookup_take_lt, lookup_drop by done. rewrite lookup_seqZ_lt by lia. cbn.
    destruct (lookup_lt_is_Some_2 d (Z.to_nat o + i)) as [x Hx]; [lia|]. rewrite Hx. f_equal. symmetry.
    apply znth_lookup; [lia|]. rewrite <- Hx. f_equal. lia.
  - rewrite lookup_take_ge by lia. rewrite lookup_seqZ_ge by lia. done.
Qed.

Section Content.
Context (dev : Z) (Hdev : dev <> 0).

Abbreviation kview := (kview dev).
Abbreviation ktxn := (ktxn dev).
Abbreviation advanced := (advanced dev).
Abbreviation used := (used dev).
Abbreviation fs_ok := (fs_ok dev).
Abbreviation file_ok := (file_ok dev).
Abbreviation addr_of := (addr_of dev).
Abbreviation fblock := (fblock dev).
Abbreviation mapped := (mapped dev).

(** The byte at offset [p] of the file, and the bytes from [off]. *)
Definition fbyte (k : kst) (ip p : Z) : Z := znth 0 (fblock k ip (p / 1024)) (p mod 1024).
Definition frange (k : kst) (ip off n : Z) : list Z := fbyte k ip <$> seqZ off n.

(** Every block below the size is there. *)
Record file_full (k : kst) (ip : Z) : Prop := {
  ff_size : 0 <= i_size (geti k ip) <= 268 * 1024;
  ff_addr : forall bn, 0 <= bn -> bn * 1024 < i_size (geti k ip) -> addr_of k ip bn <> 0;
}.

Context (c0 : ctx) (Hc0 : idle c0).
Abbreviation pid := (c_pid c0).

Lemma length_fblock pid' k H ip bn : ktxn pid' k H -> length (fblock k ip bn) = 1024%nat.
Proof using Hdev. intros Hs. unfold FsFile.fblock. destruct (_ =? 0); [done|by eapply kview_length]. Qed.

(** Bytes inside one block. *)
Lemma frange_block pid' k H ip off m :
  ktxn pid' k H -> 0 <= off -> 0 <= m -> off mod 1024 + m <= 1024 ->
  slice (fblock k ip (off / 1024)) (off mod 1024) m = frange k ip off m.
Proof using Hdev.
  intros Hs Ho Hm Hb. rewrite slice_znth; [|dlia|done|unfold zlen; rewrite (length_fblock pid' k H) by done; lia].
  unfold frange. replace off with ((off - off mod 1024) + off mod 1024) at 3 by lia. rewrite <- fmap_add_seqZ, <- list_fmap_compose.
  apply list_fmap_ext. intros i x [-> Hx]%lookup_seqZ. unfold fbyte. cbn. f_equal; [f_equal|]; dlia.
Qed.

(** [bmap] of a block that is there reads. *)
Lemma wp_bmap_present c k ip bn :
  same_ctx c0 c -> ktxn pid k [] -> file_ok k ip -> is_bn bn -> addr_of k ip bn <> 0 ->
  (length (tx (klog k)) + 1 < 30)%nat ->
  wp (bmap ip bn) c k (fun a k' => a = addr_of k ip bn /\ advanced k [] k' /\ ktxn pid k' [] /\ k_itab k' = k_itab k).
Proof using Hdev Hc0.
  intros Hc Hs Hf Hbn Ha Hlt. unfold bmap, is_bn in *. change NDIRECT with 12. change NINDIRECT with 256.
  unfold FsFile.addr_of in *. zcase (bn <? 12) as E1.
  - unfold bmap_addr, iget_field. apply wp_gets. zcase (znth 0 (i_addrs (geti k ip)) bn =? 0) as E2; [done|].
    apply wp_ret. split; [done|]. split; [apply advanced_refl|done].
  - zcase (bn - 12 <? 256) as E2; [|lia]. zcase (ind k ip =? 0) as Ei; [done|].
    unfold bmap_addr, iget_field. apply wp_bind. apply wp_gets. fold (ind k ip).
    zcase (ind k ip =? 0) as Ei'; [done|]. apply wp_ret. intros c1 Hc1. zcase (ind k ip =? 0) as Ei''; [done|].
    apply wp_gets. rewrite (fo_dev _ _ _ Hf). apply wp_bind.
    eapply (wp_bread dev Hdev c0 Hc0); [same_thread|exact Hs|apply not_elem_of_nil|cbn; lia|].
    intros bp k1 A1 Hs1 It1 _ Hd1 _ c2 Hc2. apply wp_bget. rewrite Hd1.
    zcase (get32 (kview k (ind k ip)) (4 * (bn - 12)) =? 0) as E3; [done|].
    apply wp_bind, wp_ret. intros c3 Hc3. apply wp_bind.
    eapply (wp_brelse dev Hdev c0 Hc0); [same_thread|exact Hs1|].
    intros k2 A2 Hs2 It2 _ _ c4 Hc4. apply wp_ret. split; [done|]. split; [by eapply advanced_0l|]. split; [done|congruence].
Qed.

Lemma frange_split k ip off m n :
  0 <= m -> 0 <= n -> frange k ip off (m + n) = frange k ip off m ++ frange k ip (off + m) n.
Proof using. intros. unfold frange. by rewrite seqZ_split, fmap_app. Qed.

Lemma length_frange k ip off n : length (frange k ip off n) = Z.to_nat n.
Proof using. unfold frange. by rewrite length_fmap, length_seqZ. Qed.

(** A state that differs in the cache only. *)
Lemma frange_same k ip k' off n :
  advanced k [] k' -> k_itab k' = k_itab k -> frange k' ip off n = frange k ip off n.
Proof using.
  intros A It. unfold frange. apply list_fmap_ext. intros i x _. unfold fbyte, FsFile.fblock.
  by rewrite (addr_same dev k ip k' _ A It), (av_view _ _ _ _ A).
Qed.

Lemma full_same_file k ip k' : advanced k [] k' -> k_itab k' = k_itab k -> file_full k ip -> file_full k' ip.
Proof using.
  intros A It [H1 H2]. assert (geti k' ip = geti k ip) as E by (unfold geti; by rewrite It).
  split; rewrite E; [done|]. intros bn. rewrite (addr_same dev k ip k' _ A It). apply H2.
Qed.

Definition read_only (k k' : kst) : Prop := advanced k [] k' /\ ktxn pid k' [] /\ k_itab k' = k_itab k.

Lemma read_only_trans k1 k2 k3 : read_only k1 k2 -> read_only k2 k3 -> read_only k1 k3.
Proof using.
  intros (A1 & _ & I1) (A2 & S2 & I2). split; [by eapply advanced_0l|]. split; [done|congruence].
Qed.

Lemma read_only_file k ip k' :
  read_only k k' -> fs_ok k -> file_ok k ip -> file_full k ip -> fs_ok k' /\ file_ok k' ip /\ file_full k' ip.
Proof using.
  intros (A & _ & It) Hfs Hf Hff. pose proof (mapped_same dev k ip k' Hfs Hf A It) as Hm.
  split; [apply Hm|]. split; [apply Hm|by eapply full_same_file].
Qed.

Lemma tx_same k k' : advanced k [] k' -> tx (klog k') = tx (klog k).
Proof using. intros A. by rewrite (av_log _ _ _ _ A). Qed.

(** The chunk of a block from [off], at most [n] bytes. *)
Lemma chunk_range off n :
  0 <= off -> 0 < n -> let m := min_ n (BSIZE - off mod BSIZE) in 0 < m <= n /\ off mod 1024 + m <= 1024.
Proof using. intros Ho Hn. unfold min_, BSIZE. zcase (n <? 1024 - off mod 1024) as E; split; dlia. Qed.

Lemma wp_readi_loop fuel c k ip off n tot acc :
  same_ctx c0 c -> ktxn pid k [] -> fs_ok k -> file_ok k ip -> file_full k ip ->
  (length (tx (klog k)) + 1 < 30)%nat -> 0 <= off -> 0 <= tot <= n -> off + (n - tot) <= i_size (geti k ip) ->
  n - tot <= Z.of_nat fuel ->
  wp (readi_loop fuel ip None off n tot acc) c k (fun r k' =>
    r = (n, acc ++ frange k ip off (n - tot)) /\ read_only k k').
Proof using Hdev Hc0.
  revert c k off tot acc. induction fuel as [|fuel IH]; intros c k off tot acc Hc Hs Hfs Hf Hff Htx Ho Ht Hsz Hfu;
    unfold readi_loop; fold readi_loop; (zcase (tot <? n) as E;
      [|apply wp_ret; replace tot with n by lia; rewrite Z.sub_diag, app_nil_r; split; [done|]; split; [apply advanced_refl|done]]);
    [lia|].
  destruct (chunk_range off (n - tot)) as [Hm Hb]; [done|lia|]. set (m := min_ (n - tot) (BSIZE - off mod BSIZE)) in *.
  pose proof (ff_size _ _ Hff). assert (addr_of k ip (off / 1024) <> 0) as Ha.
  { apply (ff_addr _ _ Hff); dlia. }
  change BSIZE with 1024 in *. eapply wp_seq.
  { apply wp_bmap_present; [done|done|done|unfold is_bn; dlia|exact Ha|done]. }
  intros a k1 c1 Hc1 (-> & A1 & Hs1 & It1). zcase (addr_of k ip (off / 1024) =? 0) as Ea; [done|].
  unfold iget_field. apply wp_gets. assert (geti k1 ip = geti k ip) as Eg by (unfold geti; by rewrite It1).
  rewrite Eg, (fo_dev _ _ _ Hf). apply wp_bind.
  eapply (wp_bread dev Hdev c0 Hc0); [same_thread|exact Hs1|apply not_elem_of_nil|rewrite (tx_same _ _ A1); cbn; lia|].
  intros bp k2 A2 Hs2 It2 _ Hd2 _ c2 Hc2. apply wp_bget. rewrite Hd2, (av_view _ _ _ _ A1). cbn [over foldl].
  unfold either_copyout. apply wp_bind, (wp_myproc c0 Hc0); [same_thread|]. apply wp_ret. intros c3 Hc3.
  change (0 =? -1) with false. cbn iota. apply wp_bind.
  eapply (wp_brelse dev Hdev c0 Hc0); [same_thread|exact Hs2|]. intros k3 A3 Hs3 It3 _ _ c4 Hc4.
  assert (read_only k k3) as Hro.
  { split; [|split; [done|congruence]]. eapply advanced_0l; [exact A1|]. by eapply advanced_0l. }
  destruct (read_only_file k ip k3 Hro Hfs Hf Hff) as (Hfs3 & Hf3 & Hff3). destruct Hro as (A13 & _ & It13).
  assert (geti k3 ip = geti k ip) as Eg3 by (unfold geti; by rewrite It13).
  eapply wp_mono; [apply IH; [same_thread|done|done|done|done|by rewrite (tx_same _ _ A13)|lia|lia|rewrite Eg3; lia|lia]|].
  intros r k4 [-> Hro4]. split; [|by eapply read_only_trans].
  f_equal. rewrite (frange_same k ip k3 _ _ A13 It13), <- app_assoc. f_equal.
  replace (n - tot) with (m + (n - (tot + m))) by lia. rewrite frange_split by lia. f_equal.
  rewrite <- (frange_block pid k [] ip off m) by (done || lia). unfold FsFile.fblock.
  zcase (addr_of k ip (off / 1024) =? 0) as Ea'; [done|]. done.
Qed.

(** The number of bytes that a read of [n] bytes at [off] returns. *)
Definition read_count (size off n : Z) : Z :=
  if (size <? off) || (4294967296 <=? off + n) then 0 else Z.min n (size - off).

Lemma wp_readi c k ip off n :
  same_ctx c0 c -> ktxn pid k [] -> fs_ok k -> file_ok k ip -> file_full k ip ->
  (length (tx (klog k)) + 1 < 30)%nat -> 0 <= off < 4294967296 -> 0 <= n < 4294967296 ->
  let m := read_count (i_size (geti k ip)) off n in
  wp (readi ip None off n) c k (fun r k' => r = (m, frange k ip off m) /\ read_only k k').
Proof using Hdev Hc0.
  intros Hc Hs Hfs Hf Hff Htx Ho Hn m. unfold readi, iget_field. apply wp_gets. pose proof (ff_size _ _ Hff).
  unfold read_count in m. set (size := i_size (geti k ip)) in *.
  assert ((u32 (off + n) <? off) = (4294967296 <=? off + n)) as ->.
  { unfold u32. apply eq_true_iff_eq. rewrite Z.ltb_lt, Z.leb_le. dlia. }
  destruct ((size <? off) || (4294967296 <=? off + n)) eqn:E.
  { apply wp_ret. split; [done|]. split; [apply advanced_refl|done]. }
  apply orb_false_iff in E as [E1%Z.ltb_ge E2%Z.leb_gt]. rewrite u32_small by lia.
  assert ((if size <? off + n then size - off else n) = m) as -> by (unfold m; zcase (size <? off + n); lia).
  eapply wp_mono; [apply wp_readi_loop; try done; unfold m; fold size; lia|]. intros r k' [-> Hro].
  rewrite Z.sub_0_r, app_nil_l. done.
Qed.

End Content.
