(* ===== verification/FsWrite.v ===== *)
(** * Writing a file (kernel/fs.c: writei)

    [writei] replaces the bytes of the file from [off], adding blocks as it goes; it stops
    early only when the disk is full. *)
From S2P Require Import Prelude Bytes Memory Machine Riscv Kalloc Vm Sleeplock Bio BioProps BioSpec BioSteps.
From S2P Require Import Log LogProps LogLoops LogCrash LogCommit LogSpec Wp Txn Kernel Fs FsSteps FsAlloc FsFile FsBmap FsInode FsContent.

Section Write.
Context (dev : Z) (Hdev : dev <> 0).

Abbreviation kview := (kview dev).
Abbreviation ktxn := (ktxn dev).
Abbreviation advanced := (advanced dev).
Abbreviation used := (used dev).
Abbreviation fs_ok := (fs_ok dev).
Abbreviation file_ok := (file_ok dev).
Abbreviation addr_of := (addr_of dev).
Abbreviation fblock := (fblock dev).
Abbreviation fbyte := (fbyte dev).
Abbreviation mapped := (mapped dev).

(** A block that belongs to the file. *)
Definition own (k : kst) (ip b : Z) : Prop :=
  b <> 0 /\ (b = ind k ip \/ exists bn, is_bn bn /\ b = addr_of k ip bn).

(** Blocks before the bitmap, and the allocated blocks of the other files. *)
Definition outside (k : kst) (ip b : Z) : Prop :=
  (0 < b < sb_bmapstart (k_sb k) \/ good_addr dev k b) /\ ~ own k ip b.

(** The bytes of the file [ip] from [off] are [bytes]; the other bytes, the inode but its
    addresses, and the blocks of the other files are the same. *)
Record wrote (k : kst) (ip off : Z) (bytes : list Z) (k' : kst) : Prop := {
  wt_frame : fs_frame k k';
  wt_itab : exists a, k_itab k' = zupd (k_itab k) ip (set_iaddrs a (geti k ip));
  wt_fs : fs_ok k';
  wt_file : file_ok k' ip;
  wt_byte : forall p, 0 <= p < 268 * 1024 -> fbyte k' ip p =
    if (off <=? p) && (p <? off + zlen bytes) then znth 0 bytes (p - off) else fbyte k ip p;
  wt_addr : forall bn, is_bn bn -> addr_of k ip bn <> 0 -> addr_of k' ip bn = addr_of k ip bn;
  wt_there : forall p, 0 <= p < 268 * 1024 -> off <= p < off + zlen bytes -> addr_of k' ip (p / 1024) <> 0;
  wt_used : forall x, 0 <= x < sb_size (k_sb k) -> used k x = true -> used k' x = true;
  wt_own : forall b, outside k ip b -> ~ own k' ip b;
  wt_outside : forall b, outside k ip b -> kview k' b = kview k b;
  wt_log : same_geom k k';
}.

Lemma wrote_sb k ip off bytes k' : wrote k ip off bytes k' -> k_sb k' = k_sb k.
Proof using. intros H. apply fs_frame_sb, (wt_frame _ _ _ _ _ H). Qed.

Lemma wrote_inode_is k ip off bytes k' :
  file_ok k ip -> wrote k ip off bytes k' -> exists a, geti k' ip = set_iaddrs a (geti k ip).
Proof using.
  intros Hf H. destruct (wt_itab _ _ _ _ _ H) as (a & E). exists a. unfold geti at 1.
  rewrite E, znth_zupd_eq; [done|apply (fo_ip _ _ _ Hf)].
Qed.

Lemma outside_wrote k ip off bytes k' b :
  fs_ok k -> wrote k ip off bytes k' -> outside k ip b -> outside k' ip b.
Proof using.
  intros Hfs H Hb. split; [|by apply (wt_own _ _ _ _ _ H)]. destruct Hb as [Hb _].
  rewrite (wrote_sb _ _ _ _ _ H). destruct Hb as [Hb|[Hd Hu]]; [by left|right].
  pose proof (data_range dev k b Hfs Hd) as [? _].
  unfold good_addr, is_data in *. rewrite (wrote_sb _ _ _ _ _ H). split; [done|]. by apply (wt_used _ _ _ _ _ H).
Qed.

Lemma file_wrote_trans k1 ip off b1 k2 b2 k3 :
  fs_ok k1 -> file_ok k1 ip -> wrote k1 ip off b1 k2 -> wrote k2 ip (off + zlen b1) b2 k3 -> wrote k1 ip off (b1 ++ b2) k3.
Proof using.
  intros Hfs Hf H1 H2. assert (zlen (b1 ++ b2) = zlen b1 + zlen b2) as Hz by (unfold zlen; rewrite length_app; lia).
  assert (0 <= zlen b1 /\ 0 <= zlen b2) as [Hz1 Hz2] by (unfold zlen; lia). split.
  - eapply fs_frame_trans; [apply (wt_frame _ _ _ _ _ H1)|apply (wt_frame _ _ _ _ _ H2)].
  - destruct (wt_itab _ _ _ _ _ H1) as (a1 & E1). destruct (wt_itab _ _ _ _ _ H2) as (a2 & E2). exists a2.
    destruct (wrote_inode_is _ _ _ _ _ Hf H1) as (a & Ei). rewrite E2, Ei, E1. unfold zupd.
    destruct (_ <? _); [by destruct (geti k1 ip)|]. rewrite list_insert_insert. by rewrite decide_True by done; destruct (geti k1 ip).
  - apply (wt_fs _ _ _ _ _ H2).
  - apply (wt_file _ _ _ _ _ H2).
  - intros p Hp. rewrite (wt_byte _ _ _ _ _ H2), (wt_byte _ _ _ _ _ H1), Hz by done.
    zcase (off + zlen b1 <=? p) as E1; zcase (p <? off + zlen b1 + zlen b2) as E2; zcase (off <=? p) as E3;
      zcase (p <? off + zlen b1) as E4; zcase (p <? off + (zlen b1 + zlen b2)) as E5; cbn [andb]; try lia; try done.
    + rewrite znth_app_r by lia. f_equal. lia.
    + by rewrite znth_app_l by lia.
  - intros bn Hbn Hn. rewrite (wt_addr _ _ _ _ _ H2), (wt_addr _ _ _ _ _ H1); try done. by rewrite (wt_addr _ _ _ _ _ H1).
  - intros p Hp Hr. rewrite Hz in Hr. destruct (decide (p < off + zlen b1)).
    + assert (addr_of k2 ip (p / 1024) <> 0) by (apply (wt_there _ _ _ _ _ H1); lia).
      rewrite (wt_addr _ _ _ _ _ H2); [done|unfold is_bn; dlia|done].
    + apply (wt_there _ _ _ _ _ H2); lia.
  - intros x Hx Hu. apply (wt_used _ _ _ _ _ H2); [by rewrite (wrote_sb _ _ _ _ _ H1)|]. by apply (wt_used _ _ _ _ _ H1).
  - intros b Hb. apply (wt_own _ _ _ _ _ H2). by eapply outside_wrote.
  - intros b Hb. rewrite (wt_outside _ _ _ _ _ H2) by (by eapply outside_wrote). by apply (wt_outside _ _ _ _ _ H1).
  - eapply same_geom_trans; [apply (wt_log _ _ _ _ _ H1)|apply (wt_log _ _ _ _ _ H2)].
Qed.

(** ** One block *)

Lemma mapped_own k ip k1 b : fs_ok k -> mapped k ip k1 -> outside k ip b -> ~ own k1 ip b.
Proof using.
  intros Hfs Hm [Hb Ho] [Hb0 Ho1]. assert (kept dev k ip b) as Hk.
  { split; [destruct Hb; [left; lia|by right]|]. intros E. apply Ho. split; [done|by left]. }
  destruct Ho1 as [E|(bn & Hbn & E)]; [by apply (mp_new_ind _ _ _ _ Hm b Hk)|].
  destruct (mp_fresh _ _ _ _ Hm bn Hbn) as [E'|[Hd Hu]].
  - apply Ho. split; [done|]. right. exists bn. split; [done|congruence].
  - rewrite <- E in Hd, Hu. destruct Hb as [Hb|[_ Hb]]; [|congruence].
    pose proof (data_range dev k b Hfs Hd). lia.
Qed.

(** The bytes of the file after the block of [off] is changed. *)
Lemma wrote_byte pid k ip k1 k2 off bytes p :
  ktxn pid k1 [] -> file_ok k1 ip -> mapped k ip k1 -> (forall bn, addr_of k2 ip bn = addr_of k1 ip bn) ->
  0 <= off -> off mod 1024 + zlen bytes <= 1024 -> is_bn (off / 1024) -> 0 <= p < 268 * 1024 ->
  let a := addr_of k1 ip (off / 1024) in a <> 0 ->
  kview k2 a = splice (kview k1 a) (off mod 1024) bytes -> (forall b, b <> a -> kview k2 b = kview k1 b) ->
  fbyte k2 ip p = if (off <=? p) && (p <? off + zlen bytes) then znth 0 bytes (p - off) else fbyte k ip p.
Proof using Hdev.
  intros Hs1 Hf1 Hm Ea Ho Hfit Hbn Hp a Ha Hva Hv.
  assert (fbyte k ip p = znth 0 (fblock k1 ip (p / 1024)) (p mod 1024)) as ->.
  { unfold FsContent.fbyte. rewrite (mp_block _ _ _ _ Hm); [done|]. unfold is_bn. dlia. }
  unfold FsContent.fbyte, FsFile.fblock. rewrite Ea.
  destruct (decide (p / 1024 = off / 1024)) as [E|Hne].
  - rewrite E. fold a. zcase (a =? 0) as E0; [done|].
    rewrite Hva, znth_splice; [|dlia|unfold zlen in *; rewrite (kview_length dev Hdev pid k1 [] a Hs1); lia|dlia].
    replace ((off mod 1024 <=? p mod 1024) && (p mod 1024 <? off mod 1024 + zlen bytes))
      with ((off <=? p) && (p <? off + zlen bytes)).
    + destruct (_ && _); [f_equal; dlia|done].
    + f_equal; apply eq_true_iff_eq; rewrite ?Z.leb_le, ?Z.ltb_lt; dlia.
  - replace ((off <=? p) && (p <? off + zlen bytes)) with false.
    + zcase (addr_of k1 ip (p / 1024) =? 0) as E0; [done|]. rewrite Hv; [done|]. intros E. apply Hne.
      apply (fo_inj _ _ _ Hf1); [unfold is_bn; dlia|done|done|done].
    + symmetry. apply andb_false_iff. rewrite Z.leb_gt, Z.ltb_ge. assert (0 <= zlen bytes) by (unfold zlen; lia). dlia.
Qed.

Lemma wrote_block pid k ip k1 k2 off bytes :
  ktxn pid k1 [] -> fs_ok k -> file_ok k ip -> mapped k ip k1 ->
  0 <= off -> off mod 1024 + zlen bytes <= 1024 -> is_bn (off / 1024) ->
  let a := addr_of k1 ip (off / 1024) in a <> 0 ->
  advanced k1 [(a, splice (kview k1 a) (off mod 1024) bytes)] k2 -> k_itab k2 = k_itab k1 ->
  wrote k ip off bytes k2.
Proof using Hdev.
  intros Hs1 Hfs Hf Hm Ho Hfit Hbn a Ha A2 It2.
  pose proof (mp_fs _ _ _ _ Hm) as Hfs1. pose proof (mp_file _ _ _ _ Hm) as Hf1.
  destruct (fo_addr _ _ _ Hf1 _ Hbn Ha) as [Had Hau]. fold a in Had, Hau. pose proof (data_range dev k1 a Hfs1 Had) as [Har Hab].
  pose proof (mapped_sb _ _ _ _ Hm) as Esb. pose proof (advanced_sb _ _ _ _ A2) as Esb2.
  assert (forall b, b <> a -> kview k2 b = kview k1 b) as Hv.
  { intros b Hne. rewrite (view1 _ _ _ _ _ _ A2). by destruct (decide _). }
  assert (ind k1 ip <> 0 -> kview k2 (ind k1 ip) = kview k1 (ind k1 ip)) as Hvi.
  { intros Hi. apply Hv. intros E. by apply (fo_sep _ _ _ Hf1 (off / 1024) Hbn Hi). }
  assert (geti k2 ip = geti k1 ip) as Eg by (unfold geti; by rewrite It2).
  assert (Ea := fun bn => keep_addr dev k1 k2 ip bn ltac:(by rewrite Eg) Hvi).
  assert (forall x, 0 <= x < sb_size (k_sb k1) -> used k2 x = used k1 x) as Hu.
  { intros x Hx. eapply used_frame; [apply Hfs1|exact A2|done|]. apply Forall_singleton. left. apply Had. }
  split.
  - eapply fs_frame_trans; [apply (mp_frame _ _ _ _ Hm)|apply (av_frame _ _ _ _ A2)].
  - rewrite It2. apply (mp_itab _ _ _ _ Hm).
  - eapply keep_fs; [exact Esb2|by eapply advanced_geom|done|done].
  - eapply keep_file; [by rewrite It2|by rewrite Eg..|exact Esb2|done|done|done|done].
  - intros p Hp. apply (wrote_byte pid k ip k1 k2 off bytes p); try done.
    rewrite (view1 _ _ _ _ _ _ A2). by rewrite decide_True.
  - intros bn Hb Hn. rewrite Ea. by apply (mp_addr _ _ _ _ Hm).
  - intros p Hp Hr. rewrite Ea. by replace (p / 1024) with (off / 1024) by dlia.
  - intros x Hx Hxu. rewrite Hu by (by rewrite Esb). by apply (mp_used _ _ _ _ Hm).
  - intros b Hb [Hb0 Hown]. apply (mapped_own k ip k1 b Hfs Hm Hb). split; [done|].
    assert (ind k2 ip = ind k1 ip) as Ei by (unfold ind, geti; by rewrite It2). rewrite Ei in Hown.
    destruct Hown as [?|(bn & ? & E)]; [by left|right]. exists bn. by rewrite <- Ea.
  - intros b Hb. rewrite Hv.
    + apply (mp_kept _ _ _ _ Hm). destruct Hb as [Hb Ho']. split; [destruct Hb; [left; lia|by right]|].
      intros E. apply Ho'. split; [|by left]. destruct Hb as [|[Hd _]]; [lia|]. pose proof (data_range dev k b Hfs Hd).
      pose proof (data_start_pos k (fs_layout _ _ Hfs)). lia.
    + intros E. apply (mapped_own k ip k1 b Hfs Hm Hb). split; [by rewrite E|]. right. by exists (off / 1024).
  - eapply same_geom_trans; [apply (mp_log _ _ _ _ Hm)|by eapply advanced_geom].
Qed.

(** Blocks were added, and no bytes written. *)
Lemma file_wrote_nil k ip k1 off : fs_ok k -> file_ok k ip -> mapped k ip k1 -> wrote k ip off [] k1.
Proof using.
  intros Hfs Hf Hm. split; try apply Hm.
  - intros p Hp. unfold zlen. cbn [length]. zcase (off <=? p) as E1; zcase (p <? off + Z.of_nat 0) as E2; try lia; cbn [andb];
      unfold FsContent.fbyte; (rewrite (mp_block _ _ _ _ Hm); [done|unfold is_bn; dlia]).
  - intros p Hp. unfold zlen. cbn. lia.
  - intros b Hb. by eapply mapped_own.
  - intros b [Hb Ho]. apply (mp_kept _ _ _ _ Hm). split; [destruct Hb; [left; lia|by right]|].
    intros E. apply Ho. split; [|by left]. destruct Hb as [|[Hd _]]; [lia|].
    pose proof (data_range dev k b Hfs Hd). pose proof (data_start_pos k (fs_layout _ _ Hfs)). lia.
Qed.

(** ** The loop *)

(** The number of blocks that the bytes from [off] are in. *)
Definition chunks (off n : Z) : Z := if n <=? 0 then 0 else (off + n - 1) / 1024 - off / 1024 + 1.

Lemma chunks_step off n :
  0 <= off -> 0 < n -> let m := min_ n (BSIZE - off mod BSIZE) in chunks (off + m) (n - m) = chunks off n - 1.
Proof using.
  intros Ho Hn. unfold min_, chunks, BSIZE. zcase (n <=? 0) as E0; [lia|].
  zcase (n <? 1024 - off mod 1024) as E; [zcase (n - n <=? 0) as E1; dlia|].
  zcase (n - (1024 - off mod 1024) <=? 0) as E1; dlia.
Qed.

Lemma chunks_pos off n : 0 <= off -> 0 < n -> 1 <= chunks off n.
Proof using. intros. unfold chunks. zcase (n <=? 0) as E; [lia|]. dlia. Qed.

Lemma slice_app (d : list Z) o m n :
  0 <= o -> 0 <= m -> 0 <= n -> slice d o (m + n) = slice d o m ++ slice d (o + m) n.
Proof using.
  intros. unfold slice. rewrite !Z2Nat.inj_add by lia. rewrite <- drop_drop. symmetry. apply take_take_drop.
Qed.

Context (c0 : ctx) (Hc0 : idle c0).
Abbreviation pid := (c_pid c0).

Definition wrote_some (k : kst) (ip off : Z) (bytes : list Z) (k' : kst) : Prop :=
  wrote k ip off bytes k' /\ ktxn pid k' [] /\ fits k' ip 1.

(** One block of the loop, once the block is read. *)
Lemma wp_write_block {A} (f : unit -> M kst A) c k ip k1 k2 bp off bytes (Q : A -> kst -> Prop) :
  let a := addr_of k1 ip (off / 1024) in
  same_ctx c0 c -> ktxn pid k1 [] -> fs_ok k -> file_ok k ip -> mapped k ip k1 ->
  0 <= off -> off mod 1024 + zlen bytes <= 1024 -> is_bn (off / 1024) -> a <> 0 -> room (k_l k1) 1 ->
  advanced k1 [] k2 -> ktxn pid k2 [(bp, a)] -> k_itab k2 = k_itab k1 -> b_data (kbuf k2 bp) = kview k1 a ->
  (forall k' c1, same_ctx c0 c1 -> ktxn pid k' [] -> wrote k ip off bytes k' -> ind k' ip = ind k1 ip ->
     lg_n (klog k') <= lg_n (klog k1) + miss k1 a -> (forall b, miss k' b <= miss k1 b) -> wp (f tt) c1 k' Q) ->
  wp (d <- bio_ (mget bp b_data) ;;
      bio_ (bset_data bp (splice d (off mod 1024) bytes)) ;;
      log_ (log_write bp) ;;
      x <- bio_ (brelse bp) ;; f x) c k2 Q.
Proof using Hdev Hc0.
  intros a Hc Hs Hfs Hf Hm Ho Hfit Hbn Ha Hr A2 Hs2 It2 Hd2 HQ.
  pose proof (mp_fs _ _ _ _ Hm) as Hfs1. pose proof (mp_file _ _ _ _ Hm) as Hf1.
  destruct (fo_addr _ _ _ Hf1 _ Hbn Ha) as [Had _]. fold a in Had. pose proof (data_range dev k1 a Hfs1 Had) as [Har Hab].
  pose proof (ly_size k1 (fs_layout _ _ Hfs1)). apply wp_bget. rewrite Hd2.
  pose proof (kview_length dev Hdev pid k1 [] a Hs) as Hlen.
  eapply (wp_update dev Hdev c0 Hc0); [same_thread|exact Hs2|left| |lia| |by eapply room_same|].
  { rewrite length_splice; [done|dlia|]. unfold zlen in *. lia. }
  { rewrite (advanced_in_log _ _ _ _ _ A2). apply not_in_log; [apply Hfs1|lia]. }
  intros k3 c3 Hc3 A3 Hs3 It3 _ _ _. apply wp_bind.
  eapply (wp_brelse dev Hdev c0 Hc0); [same_thread|exact Hs3|]. intros k4 A4 Hs4 It4 _ _ c4 Hc4.
  pose proof (advanced_0l _ _ _ _ _ A2 (advanced_0r _ _ _ _ _ A3 A4)) as A'. assert (k_itab k4 = k_itab k1) as It by congruence.
  apply HQ; [same_thread|done| | | |].
  - exact (wrote_block pid k ip k1 k4 off bytes Hs Hfs Hf Hm Ho Hfit Hbn Ha A' It).
  - unfold ind, geti. by rewrite It.
  - eapply (spent_miss dev Hdev); [exact Hs|exact Hs4|exact A'].
  - intros b. eapply (miss_mono dev Hdev); [exact Hs|exact Hs4|exact A'].
Qed.

Lemma wp_writei_loop fuel c k ip src off n tot :
  same_ctx c0 c -> ktxn pid k [] -> fs_ok k -> file_ok k ip ->
  0 <= off -> 0 <= tot <= n -> off + (n - tot) <= 268 * 1024 -> n <= zlen src -> n - tot <= Z.of_nat fuel ->
  fits k ip (chunks off (n - tot) + 1) ->
  wp (writei_loop fuel ip (KSrc src) off n tot) c k (fun r k' =>
    exists m, 0 <= m <= n - tot /\ r = (tot + m, off + m) /\ wrote_some k ip off (slice src tot m) k' /\
      pot k' ip <= pot k ip + chunks off (n - tot) /\
      (m = n - tot \/ disk_full dev k')).
Proof using Hdev Hc0.
  revert c k off tot. induction fuel as [|fuel IH]; intros c k off tot Hc Hs Hfs Hf Ho Ht Hsz Hsrc Hfu Hfit;
    unfold writei_loop; fold writei_loop; (zcase (tot <? n) as E;
      [|apply wp_ret; exists 0; split; [lia|]; split; [f_equal; lia|];
        replace (n - tot) with 0 in * by lia; cbn in Hfit |- *; split; [|split; [lia|left; lia]];
        split; [apply file_wrote_nil; [done|done|by apply mapped_refl]|split; done]]); [lia|].
  destruct (chunk_range off (n - tot)) as [Hm Hb]; [done|lia|]. pose proof (chunks_step off (n - tot) Ho ltac:(lia)) as Hch.
  pose proof (chunks_pos off (n - tot) Ho ltac:(lia)) as Hcp.
  set (m := min_ (n - tot) (BSIZE - off mod BSIZE)) in *. change BSIZE with 1024 in *.
  assert (is_bn (off / 1024)) as Hbn by (unfold is_bn; dlia). eapply wp_seq.
  { apply (wp_bmap dev Hdev c0 Hc0); [done|done|done|done| |exact Hbn]. unfold fits in *. lia. }
  intros a k1 c1 Hc1 (Hm1 & Hs1 & -> & Hfull & Hpot). zcase (addr_of k1 ip (off / 1024) =? 0) as Ea.
  { apply wp_ret. exists 0. split; [lia|]. split; [f_equal; lia|]. split; [|split; [lia|right; by apply Hfull]].
    split; [by apply file_wrote_nil|]. split; [done|]. destruct (mp_log _ _ _ _ Hm1) as (_ & E1 & E2).
    unfold fits in *. rewrite E1, E2. lia. }
  pose proof (mp_file _ _ _ _ Hm1) as Hf1. destruct (mp_log _ _ _ _ Hm1) as (_ & E1 & E2).
  assert (fits k1 ip 1) as Hfit1.
  { unfold fits in *. rewrite E1, E2. pose proof (miss_range k1 (addr_of k1 ip (off / 1024))). lia. }
  pose proof (fits_room _ _ _ Hfit1) as Hr1. pose proof (room_tx _ _ _ _ _ Hs1 Hr1).
  unfold iget_field. apply wp_gets. rewrite (fo_dev _ _ _ Hf1). apply wp_bind.
  eapply (wp_bread dev Hdev c0 Hc0); [same_thread|exact Hs1|apply not_elem_of_nil|cbn; lia|].
  intros bp k2 A2 Hs2 It2 _ Hd2 _ c2 Hc2.
  unfold either_copyin. apply wp_bind, (wp_myproc c0 Hc0); [same_thread|]. apply wp_ret. intros c3 Hc3.
  change (0 =? -1) with false. cbn iota beta. fold (slice src tot m).
  assert (zlen (slice src tot m) = m) as Hzm by (unfold zlen; rewrite length_slice by lia; lia).
  apply (wp_write_block _ c3 k ip k1 k2 bp off (slice src tot m)); try done; [same_thread|by rewrite Hzm|].
  intros k4 c4 Hc4 Hs4 Hw Hi4 Hlg Hmiss.
  destruct (wt_log _ _ _ _ _ Hw) as (_ & E3 & E4).
  assert (pot k4 ip <= pot k ip + 1) as Hpot4.
  { unfold pot at 1. unfold pot at 1 in Hpot. rewrite Hi4, (wrote_sb _ _ _ _ _ Hw), <- (mapped_sb _ _ _ _ Hm1).
    pose proof (Hmiss (sb_bmapstart (k_sb k1))). pose proof (Hmiss (ind k1 ip)). zcase (addr_of k1 ip (off / 1024) =? 0) as Ea'; [done|].
    destruct (ind k1 ip =? 0); lia. }
  eapply wp_mono; [apply IH; [done|done|apply Hw|apply Hw|lia|lia|lia|done|lia|]|].
  { replace (n - (tot + m)) with (n - tot - m) by lia. unfold fits in *. rewrite E3, E4, Hch. lia. }
  intros r k5 (m' & Hm' & -> & (Hw' & Hs5 & Hfit5) & Hpot5 & Hend). exists (m + m'). split; [lia|]. split; [f_equal; lia|].
  split; [|split; [replace (n - (tot + m)) with (n - tot - m) in Hpot5 by lia; rewrite Hch in Hpot5; lia|destruct Hend; [left; lia|by right]]].
  split; [|done]. rewrite slice_app by lia.
  eapply file_wrote_trans; [done|done|exact Hw|]. by rewrite Hzm.
Qed.

(** ** writei *)

(** The file [ip] after a write of [bytes] at [off], on the disk and in memory. *)
Record written (k : kst) (ip off : Z) (bytes : list Z) (k' : kst) : Prop := {
  wr_frame : fs_frame k k';
  wr_inode : exists a, geti k' ip =
    set_isize (Z.max (i_size (geti k ip)) (off + zlen bytes)) (set_iaddrs a (geti k ip));
  wr_others : forall ip', ip' <> ip -> geti k' ip' = geti k ip';
  wr_fs : fs_ok k';
  wr_file : file_ok k' ip;
  wr_full : file_full dev k' ip;
  wr_byte : forall p, 0 <= p < 268 * 1024 -> fbyte k' ip p =
    if (off <=? p) && (p <? off + zlen bytes) then znth 0 bytes (p - off) else fbyte k ip p;
  wr_dinode : body (disk_inode dev k' (i_inum (geti k ip))) = body (geti k' ip);
  wr_dinodes : forall n, 0 <= n < sb_ninodes (k_sb k) -> n <> i_inum (geti k ip) ->
    body (disk_inode dev k' n) = body (disk_inode dev k n);
  wr_blocks : forall b, good_addr dev k b -> ~ own k ip b -> kview k' b = kview k b /\ good_addr dev k' b;
  wr_txn : ktxn pid k' [];
}.

(** The size and the addresses of a file fit their fields. *)
Lemma file_fits k ip size :
  fs_ok k -> file_ok k ip -> inode_fits (set_iaddrs (replicate 13 0) (geti k ip)) -> 0 <= size <= 268 * 1024 ->
  inode_fits (set_isize size (geti k ip)).
Proof using.
  intros Hfs Hf [H1 H2 H3 H4 _ _ _] Hsz. split; try done; [cbn; lia|apply (fo_len _ _ _ Hf)|].
  cbn. apply Forall_forall. intros a Ha. pose proof (ly_size k (fs_layout _ _ Hfs)).
  assert (a = 0 \/ good_addr dev k a) as [->|[Hd _]]; [|lia|pose proof (data_range dev k a Hfs Hd); lia].
  apply list_elem_of_lookup in Ha as [j Hj]. pose proof (lookup_lt_Some _ _ _ Hj) as Hjl. rewrite (fo_len _ _ _ Hf) in Hjl.
  assert (znth 0 (i_addrs (geti k ip)) (Z.of_nat j) = a) as Ez by (apply znth_lookup; [lia|by rewrite Nat2Z.id]).
  destruct (decide (a = 0)) as [|Hn]; [by left|right]. destruct (decide (j = 12%nat)) as [->|Hne].
  - rewrite <- Ez. apply (fo_ind _ _ _ Hf). unfold ind. by change 12 with (Z.of_nat 12) ; rewrite Ez.
  - assert (addr_of k ip (Z.of_nat j) = a) as Ea by (unfold FsFile.addr_of; zcase (Z.of_nat j <? 12) as E; [done|lia]).
    rewrite <- Ea. apply (fo_addr _ _ _ Hf); [unfold is_bn; lia|by rewrite Ea].
Qed.

(** Setting the size changes nothing else of the file. *)
Lemma sized_file k ip s :
  let k' := updi ip (set_isize s) k in
  fs_ok k -> file_ok k ip ->
  fs_ok k' /\ file_ok k' ip /\ (forall bn, addr_of k' ip bn = addr_of k ip bn) /\ (forall p, fbyte k' ip p = fbyte k ip p).
Proof using.
  intros k' Hfs Hf. pose proof (fo_ip _ _ _ Hf) as Hip. assert (geti k' ip = set_isize s (geti k ip)) as Eg by (by apply geti_updi).
  assert (forall bn, addr_of k' ip bn = addr_of k ip bn) as Ea by (intros; by apply keep_addr; [rewrite Eg|]).
  split; [by apply (keep_fs dev k k')|]. split.
  { apply (keep_file dev k k'); try done; [unfold k', updi; cbn; by rewrite zlen_zupd|by rewrite Eg..]. }
  split; [done|]. intros p. unfold FsContent.fbyte, FsFile.fblock. rewrite Ea. done.
Qed.

Definition may_write (k : kst) (ip : Z) : Prop :=
  fs_ok k /\ file_ok k ip /\ file_full dev k ip /\ 0 <= i_inum (geti k ip) < sb_ninodes (k_sb k) /\
  inode_fits (set_iaddrs (replicate 13 0) (geti k ip)).

(** A change of a block before the bitmap leaves the files. *)
Lemma meta_write k ip b d k' :
  fs_ok k -> file_ok k ip -> advanced k [(b, d)] k' -> b < sb_bmapstart (k_sb k) -> k_itab k' = k_itab k ->
  fs_ok k' /\ file_ok k' ip /\ (forall bn, addr_of k' ip bn = addr_of k ip bn) /\
  (forall p, 0 <= p < 268 * 1024 -> fbyte k' ip p = fbyte k ip p) /\
  (forall x, 0 <= x < sb_size (k_sb k) -> used k' x = used k x) /\ (forall x, is_data k x -> kview k' x = kview k x).
Proof using.
  intros Hfs Hf A Hb It. assert (geti k' ip = geti k ip) as Eg by (unfold geti; by rewrite It).
  assert (forall x, 0 <= x < sb_size (k_sb k) -> used k' x = used k x) as Hu.
  { intros x Hx. eapply used_frame; [apply Hfs|exact A|done|]. apply Forall_singleton. by right. }
  assert (forall x, is_data k x -> kview k' x = kview k x) as Hv.
  { intros x Hx. rewrite (view1 _ _ _ _ _ _ A). destruct (decide _) as [->|]; [|done].
    pose proof (data_range dev k x Hfs Hx). lia. }
  assert (ind k ip <> 0 -> kview k' (ind k ip) = kview k (ind k ip)) as Hi.
  { intros Hn. apply Hv, (fo_ind _ _ _ Hf Hn). }
  assert (forall bn, addr_of k' ip bn = addr_of k ip bn) as Ea by (intros; apply keep_addr; [by rewrite Eg|done]).
  pose proof (advanced_sb _ _ _ _ A) as Esb.
  split; [eapply keep_fs; [exact Esb|by eapply advanced_geom|done|done]|].
  split; [eapply keep_file; [by rewrite It|by rewrite Eg..|done|done|done|done|done]|].
  split; [done|]. split; [|done]. intros p Hp. unfold FsContent.fbyte, FsFile.fblock. rewrite Ea.
  zcase (addr_of k ip (p / 1024) =? 0) as E; [done|]. rewrite Hv; [done|].
  apply (fo_addr _ _ _ Hf); [unfold is_bn; dlia|done].
Qed.

Lemma own_data k ip b : fs_ok k -> file_ok k ip -> own k ip b -> is_data k b.
Proof using.
  intros Hfs Hf [Hn [->|(bn & Hbn & ->)]]; [by apply (fo_ind _ _ _ Hf)|by apply (fo_addr _ _ _ Hf)].
Qed.

Lemma disk_inode_wrote k ip off bytes k1 n :
  fs_ok k -> file_ok k ip -> wrote k ip off bytes k1 -> 0 <= n < sb_ninodes (k_sb k) -> disk_inode dev k1 n = disk_inode dev k n.
Proof using.
  intros Hfs Hf Hw Hn. unfold disk_inode. rewrite (wrote_sb _ _ _ _ _ Hw), (wt_outside _ _ _ _ _ Hw); [done|].
  destruct (IBLOCK_val k n (fs_layout _ _ Hfs) Hn) as [_ HI]. pose proof (ly_inode k (fs_layout _ _ Hfs)) as (_ & H0 & _).
  split; [left; lia|]. intros Hown%(own_data k ip _ Hfs Hf). pose proof (data_range dev k _ Hfs Hown). lia.
Qed.

(** The state at the end, from the state after the loop. *)
Lemma written_end k ip off bytes k1 k3 :
  let s := Z.max (i_size (geti k ip)) (off + zlen bytes) in
  let k2 := updi ip (set_isize s) k1 in
  may_write k ip -> 0 <= off <= i_size (geti k ip) -> off + zlen bytes <= 268 * 1024 -> wrote k ip off bytes k1 ->
  wrote_inode dev k2 (i_inum (geti k2 ip)) (geti k2 ip) k3 -> ktxn pid k3 [] -> k_itab k3 = k_itab k2 ->
  written k ip off bytes k3.
Proof using.
  intros s k2 (Hfs & Hf & Hff & Hinum & Hfits) Ho Hend Hw Hwi Hs3 It3.
  pose proof (wt_fs _ _ _ _ _ Hw) as Hfs1. pose proof (wt_file _ _ _ _ _ Hw) as Hf1. pose proof (ff_size _ _ _ Hff) as Hsz.
  destruct (wrote_inode_is _ _ _ _ _ Hf Hw) as (a & Ei). destruct (wt_itab _ _ _ _ _ Hw) as (a' & Eit).
  destruct (sized_file k1 ip s Hfs1 Hf1) as (Hfs2 & Hf2 & Ea2 & Eb2). fold k2 in Hfs2, Hf2, Ea2, Eb2.
  assert (geti k2 ip = set_isize s (geti k1 ip)) as Eg by (apply geti_updi, (fo_ip _ _ _ Hf1)).
  assert (i_inum (geti k2 ip) = i_inum (geti k ip)) as Einum by (by rewrite Eg, Ei). rewrite Einum in Hwi.
  assert (k_sb k2 = k_sb k) as Esb2 by exact (wrote_sb _ _ _ _ _ Hw).
  destruct (wi_adv _ _ _ _ _ Hwi) as [d A3]. destruct (IBLOCK_val k2 (i_inum (geti k ip)) (fs_layout _ _ Hfs2) ltac:(by rewrite Esb2)) as [_ HI].
  destruct (meta_write k2 ip _ d k3 Hfs2 Hf2 A3 ltac:(lia) It3) as (Hfs3 & Hf3 & Ea3 & Eb3 & Hu3 & Hv3).
  assert (geti k3 ip = geti k2 ip) as Eg3 by (unfold geti; by rewrite It3).
  assert (forall p, 0 <= p < 268 * 1024 -> fbyte k3 ip p = fbyte k1 ip p) as Eb by (intros; by rewrite Eb3, Eb2).
  split; try done.
  - eapply fs_frame_trans; [apply (wt_frame _ _ _ _ _ Hw)|]. eapply fs_frame_trans; [|apply (av_frame _ _ _ _ A3)]. by destruct k1.
  - exists a. by rewrite Eg3, Eg, Ei.
  - intros ip' Hne. unfold geti at 1. rewrite It3. unfold k2, updi. cbn [k_itab set_itab].
    rewrite znth_zupd_ne by done. rewrite Eit. by rewrite znth_zupd_ne.
  - split; rewrite Eg3, Eg; cbn [i_size set_isize]; [unfold s; lia|]. intros bn Hbn Hlt. rewrite Ea3, Ea2.
    destruct (decide (bn * 1024 < i_size (geti k ip))) as [Hl|Hl].
    + pose proof (ff_addr _ _ _ Hff bn Hbn Hl) as Hn. rewrite (wt_addr _ _ _ _ _ Hw); [done|unfold is_bn; unfold s in Hlt; lia|done].
    + pose proof (wt_there _ _ _ _ _ Hw (bn * 1024)) as Ht. rewrite Z.div_mul in Ht by lia. unfold s in Hlt. apply Ht; lia.
  - intros p Hp. rewrite Eb by done. by apply (wt_byte _ _ _ _ _ Hw).
  - rewrite Eg3. apply (wi_self _ _ _ _ _ Hwi). rewrite Eg. apply file_fits; [done|done| |unfold s; lia]. by rewrite Ei.
  - intros n Hn Hne. rewrite (wi_other _ _ _ _ _ Hwi) by (done || by rewrite Esb2).
    change (disk_inode dev k2 n) with (disk_inode dev k1 n). by rewrite (disk_inode_wrote k ip off bytes k1 n).
  - intros b [Hd Hu] Hno. pose proof (data_range dev k b Hfs Hd) as [Hb _].
    assert (outside k ip b) as Hout by (split; [by right|done]). assert (is_data k2 b) as Hd2 by (unfold is_data in *; by rewrite Esb2).
    split; [rewrite Hv3 by done; exact (wt_outside _ _ _ _ _ Hw b Hout)|].
    pose proof (advanced_sb _ _ _ _ A3) as Esb3. unfold good_addr, is_data in *. rewrite Esb3. split; [done|].
    rewrite Hu3 by (by rewrite Esb2). exact (wt_used _ _ _ _ _ Hw b Hb Hu).
Qed.

(** The end of [writei]: the size and the inode. *)
Lemma wp_writei_end {A} (f : unit -> M kst A) c k ip off bytes k1 (Q : A -> kst -> Prop) :
  same_ctx c0 c -> may_write k ip -> 0 <= off <= i_size (geti k ip) -> off + zlen bytes <= 268 * 1024 ->
  wrote_some k ip off bytes k1 ->
  (forall k' c', same_ctx c0 c' -> written k ip off bytes k' -> (disk_full dev k1 -> disk_full dev k') ->
     lg_n (klog k') <= pot k1 ip + 1 -> wp (f tt) c' k' Q) ->
  wp (size <- iget_field ip i_size ;;
      when (size <? off + zlen bytes) (iset ip (set_isize (off + zlen bytes))) ;;
      x <- iupdate ip ;; f x) c k1 Q.
Proof using Hdev Hc0.
  intros Hc Hmay Ho Hend (Hw & Hs1 & Hfit1) HQ. pose proof Hmay as (Hfs & Hf & Hff & Hinum & Hfits).
  pose proof (wt_fs _ _ _ _ _ Hw) as Hfs1. pose proof (wt_file _ _ _ _ _ Hw) as Hf1. pose proof (ff_size _ _ _ Hff) as Hsz.
  destruct (wrote_inode_is _ _ _ _ _ Hf Hw) as (a & Ei). set (s := Z.max (i_size (geti k ip)) (off + zlen bytes)).
  unfold iget_field. apply wp_gets. replace (i_size (geti k1 ip)) with (i_size (geti k ip)) by (by rewrite Ei).
  set (k2 := updi ip (set_isize s) k1).
  enough (forall c', same_ctx c0 c' -> wp (x <- iupdate ip ;; f x) c' k2 Q) as Hup.
  { zcase (i_size (geti k ip) <? off + zlen bytes) as E; cbn [when]; unfold iset.
    - apply wp_modify. replace (off + zlen bytes) with s by (unfold s; lia). by apply Hup.
    - apply wp_bind, wp_ret. intros c1 Hc1. assert (k2 = k1) as E2.
      { apply updi_id; [apply (fo_ip _ _ _ Hf1)|]. rewrite Ei. unfold s. rewrite Z.max_l by lia. by destruct (geti k ip). }
      rewrite <- E2. apply Hup. same_thread. }
  intros c' Hc'. destruct (sized_file k1 ip s Hfs1 Hf1) as (Hfs2 & Hf2 & Ea2 & Eb2). fold k2 in Hfs2, Hf2, Ea2, Eb2.
  assert (geti k2 ip = set_isize s (geti k1 ip)) as Eg by (apply geti_updi, (fo_ip _ _ _ Hf1)).
  eapply wp_seq; [apply (wp_iupdate dev Hdev c0 Hc0); [done|exact Hs1|apply Hfs2| | | |]|].
  - exact (fits_room _ _ _ Hfit1).
  - apply (fo_dev _ _ _ Hf2).
  - rewrite Eg, Ei. cbn [i_inum set_isize set_iaddrs]. change (k_sb k2) with (k_sb k1). by rewrite (wrote_sb _ _ _ _ _ Hw).
  - apply (fo_len _ _ _ Hf2).
  - intros [] k3 c3 Hc3 (Hwi & Hs3 & It3). destruct (wi_adv _ _ _ _ _ Hwi) as [d A3].
    apply HQ; [same_thread|by eapply written_end| |].
    2: { pose proof (spent_miss dev Hdev pid k2 [] _ _ k3 [] Hs1 Hs3 A3). pose proof (miss_range k2 (IBLOCK (i_inum (geti k2 ip)) (k_sb k2))).
      unfold pot. pose proof (miss_range k1 (sb_bmapstart (k_sb k1))). pose proof (miss_range k1 (ind k1 ip)).
      change (klog k2) with (klog k1) in *. destruct (ind k1 ip =? 0); lia. }
    intros Hfull x Hx. rewrite (advanced_sb _ _ _ _ A3) in Hx.
    destruct (IBLOCK_val k2 (i_inum (geti k2 ip)) (fs_layout _ _ Hfs2)) as [_ HI].
    { rewrite Eg, Ei. change (k_sb k2) with (k_sb k1). by rewrite (wrote_sb _ _ _ _ _ Hw). }
    destruct (meta_write k2 ip _ d k3 Hfs2 Hf2 A3 ltac:(lia) It3) as (_ & _ & _ & _ & Hu3 & _). rewrite Hu3 by done. by apply Hfull.
Qed.

(** A write that starts inside the file and ends within the largest file: every byte is
    written, unless the disk is full. *)
Theorem wp_writei c k ip src off n :
  same_ctx c0 c -> ktxn pid k [] -> may_write k ip ->
  0 <= off <= i_size (geti k ip) -> 0 <= n -> off + n <= 268 * 1024 -> n <= zlen src ->
  fits k ip (chunks off n + 1) ->
  wp (writei ip (KSrc src) off n) c k (fun m k' =>
    0 <= m <= n /\ (m = n \/ disk_full dev k') /\ written k ip off (slice src 0 m) k' /\
    lg_n (klog k') <= lg_n (klog k) + chunks off n + 3).
Proof using Hdev Hc0.
  intros Hc Hs Hmay Ho Hn Hend Hsrc Hfit. pose proof Hmay as (Hfs & Hf & Hff & Hinum & Hfits). pose proof (ff_size _ _ _ Hff).
  unfold writei, iget_field. apply wp_gets. rewrite u32_small by lia. change (MAXFILE * BSIZE) with 274432.
  zcase (i_size (geti k ip) <? off) as E1; [lia|]. zcase (off + n <? off) as E2; [lia|]. cbn [orb].
  zcase (274432 <? off + n) as E3; [lia|]. eapply wp_seq.
  { apply wp_writei_loop; [done|done|done|done|lia|lia|lia|done|lia|]. by rewrite Z.sub_0_r. }
  intros r k1 c1 Hc1 (m & Hm & -> & Hws & Hpot & Hfull). rewrite Z.sub_0_r in Hm, Hpot, Hfull. rewrite Z.add_0_l.
  assert (zlen (slice src 0 m) = m) as Hz by (unfold zlen; rewrite length_slice by lia; lia).
  replace (off + m) with (off + zlen (slice src 0 m)) by (by rewrite Hz).
  apply (wp_writei_end _ c1 k ip off (slice src 0 m) k1); [same_thread|done|done|lia|done|].
  intros k2 c2 Hc2 Hwr Hfull2 Hlg. apply wp_ret. split; [lia|].
  split; [destruct Hfull; [by left|right; by apply Hfull2]|]. split; [done|].
  unfold pot at 2 in Hpot. pose proof (miss_range k (sb_bmapstart (k_sb k))). pose proof (miss_range k (ind k ip)).
  destruct (ind k ip =? 0); lia.
Qed.

End Write.
