(* ===== verification/FsTrunc.v ===== *)
(** * Truncation (kernel/fs.c: itrunc)

    [itrunc] gives every block of the file back to the bitmap, and no other, and records
    an empty inode. *)
From S2P Require Import Prelude Bytes Memory Machine Riscv Kalloc Vm Sleeplock Bio BioProps BioSpec BioSteps.
From S2P Require Import Log LogProps LogLoops LogCrash LogCommit LogSpec Wp Txn Kernel Fs FsSteps FsAlloc FsFile FsBmap FsInode FsContent FsWrite.

Section Trunc.
Context (dev : Z) (Hdev : dev <> 0).

Abbreviation kview := (kview dev).
Abbreviation ktxn := (ktxn dev).
Abbreviation advanced := (advanced dev).
Abbreviation used := (used dev).
Abbreviation fs_ok := (fs_ok dev).
Abbreviation file_ok := (file_ok dev).
Abbreviation addr_of := (addr_of dev).
Abbreviation own := (own dev).

(** The blocks of [F] were given back; only the bitmap changed. *)
Record freed (k : kst) (F : Z -> Prop) (k' : kst) : Prop := {
  fd_frame : fs_frame k k';
  fd_used : forall x, 0 <= x < sb_size (k_sb k) -> used k' x = true <-> used k x = true /\ ~ F x;
  fd_view : forall b, b <> sb_bmapstart (k_sb k) -> kview k' b = kview k b;
  fd_geom : same_geom k k';
  fd_cost : lg_n (klog k') + miss k' (sb_bmapstart (k_sb k)) <= lg_n (klog k) + miss k (sb_bmapstart (k_sb k));
}.

(** The log has room for the bitmap block and one more. *)
Definition froom (k : kst) : Prop :=
  1 <= lg_outstanding (klog k) /\ lg_n (klog k) + miss k (sb_bmapstart (k_sb k)) + 1 < LOGSIZE /\
  lg_n (klog k) + miss k (sb_bmapstart (k_sb k)) + 1 <= lg_size (klog k) - 1.

Lemma freed_sb k F k' : freed k F k' -> k_sb k' = k_sb k.
Proof using. intros H. apply fs_frame_sb, (fd_frame _ _ _ H). Qed.

Lemma froom_freed k F k' : freed k F k' -> froom k -> froom k'.
Proof using.
  intros H. pose proof (fd_cost _ _ _ H). destruct (fd_geom _ _ _ H) as (_ & E1 & E2). unfold froom.
  rewrite (freed_sb _ _ _ H), E1, E2. lia.
Qed.

Lemma froom_room k : froom k -> room (k_l k) 1.
Proof using. unfold froom, room. fold (klog k). pose proof (miss_range k (sb_bmapstart (k_sb k))). lia. Qed.

Lemma freed_none k k' : fs_ok k -> advanced k [] k' -> freed k (fun _ => False) k'.
Proof using.
  intros Hfs A. split.
  - apply (av_frame _ _ _ _ A).
  - intros x Hx. rewrite (used_same dev k) by (apply Hfs || done). tauto.
  - intros b _. by rewrite (av_view _ _ _ _ A).
  - by eapply advanced_geom.
  - unfold miss. rewrite (av_log _ _ _ _ A). done.
Qed.

Lemma freed_trans k1 F1 k2 F2 k3 :
  freed k1 F1 k2 -> freed k2 F2 k3 -> freed k1 (fun x => F1 x \/ F2 x) k3.
Proof using.
  intros H1 H2. pose proof (freed_sb _ _ _ H1) as Esb. split.
  - eapply fs_frame_trans; [apply (fd_frame _ _ _ H1)|apply (fd_frame _ _ _ H2)].
  - intros x Hx. rewrite (fd_used _ _ _ H2), (fd_used _ _ _ H1) by (rewrite ?Esb; done). tauto.
  - intros b Hb. rewrite (fd_view _ _ _ H2) by (by rewrite Esb). by apply (fd_view _ _ _ H1).
  - eapply same_geom_trans; [apply (fd_geom _ _ _ H1)|apply (fd_geom _ _ _ H2)].
  - pose proof (fd_cost _ _ _ H1). pose proof (fd_cost _ _ _ H2). rewrite Esb in *. lia.
Qed.

Lemma freed_ext k (F G : Z -> Prop) k' : (forall x, F x <-> G x) -> freed k F k' -> freed k G k'.
Proof using.
  intros E [A B C D G']. split; try done. intros x Hx. rewrite B by done. by rewrite E.
Qed.

(** Changes of the inode table do not matter. *)
Lemma freed_updi k F k' ip f : freed k F k' -> freed k F (updi ip f k').
Proof using.
  intros [A B C D E]. split; try done. eapply fs_frame_trans; [exact A|]. by destruct k'.
Qed.

Lemma freed_fs k F k' : fs_ok k -> freed k F k' -> (forall x, F x -> is_data k x) -> fs_ok k'.
Proof using.
  intros [Hly Hm Ho] H HF. pose proof (freed_sb _ _ _ H) as Esb. destruct (fd_geom _ _ _ H) as (E1 & E2 & _).
  split; [by eapply layout_frame| |by rewrite Esb].
  intros b Hb. rewrite Esb in Hb. pose proof (ly_bmap k Hly). apply (fd_used _ _ _ H); [lia|]. split; [by apply Hm|].
  intros Hf%HF. unfold is_data in Hf. lia.
Qed.

Lemma freed_good k F k' a : fs_ok k -> freed k F k' -> good_addr dev k a -> ~ F a -> good_addr dev k' a.
Proof using.
  intros Hfs H [Hd Hu] Hn. pose proof (data_range dev k a Hfs Hd) as [? _]. unfold good_addr, is_data in *.
  rewrite (freed_sb _ _ _ H). split; [done|]. by apply (fd_used _ _ _ H).
Qed.

Context (c0 : ctx) (Hc0 : idle c0).
Abbreviation pid := (c_pid c0).

Lemma wp_free c k H b :
  same_ctx c0 c -> ktxn pid k H -> fs_ok k -> held_used dev k H -> froom k -> good_addr dev k b ->
  wp (bfree dev b) c k (fun _ k' =>
    freed k (fun x => x = b) k' /\ ktxn pid k' H /\ k_itab k' = k_itab k /\ same_held k k' H).
Proof using Hdev Hc0.
  intros Hc Hs Hfs Hh Hr [Hd Hu]. pose proof (data_range dev k b Hfs Hd) as [Hb _].
  eapply wp_mono; [apply (wp_bfree dev Hdev c0 Hc0); [done|done|apply Hfs|apply Hfs|done|by apply froom_room|done|done]|].
  intros [] k' ((v & A) & Hu' & Hs' & It & Hsh). split; [|done]. rewrite (BBLOCK_one dev k b Hfs Hb) in A. split.
  - apply (av_frame _ _ _ _ A).
  - intros x Hx. rewrite Hu' by done. rewrite andb_true_iff, negb_true_iff, Z.eqb_neq. tauto.
  - intros x Hx. rewrite (view1 _ _ _ _ _ _ A). by destruct (decide _).
  - by eapply advanced_geom.
  - pose proof (spent_miss dev Hdev pid k _ _ _ k' _ Hs Hs' A).
    pose proof (miss_in dev Hdev pid k _ _ k' _ (sb_bmapstart (k_sb k)) Hs Hs' A ltac:(cbn; left)). lia.
Qed.

(** ** The direct blocks *)

Lemma unlink_block k ip j k1 :
  fs_ok k -> file_ok k ip -> 0 <= j < 12 -> addr_of k ip j <> 0 ->
  freed k (fun x => x = addr_of k ip j) k1 -> k_itab k1 = k_itab k ->
  let k2 := updi ip (fun x => set_iaddrs (zupd (i_addrs x) j 0) x) k1 in
  fs_ok k2 /\ file_ok k2 ip /\ ind k2 ip = ind k ip /\
  (forall bn, is_bn bn -> addr_of k2 ip bn = if bn =? j then 0 else addr_of k ip bn).
Proof using.
  intros Hfs Hf Hj Ha Hfr It k2. assert (is_bn j) as Hbj by (unfold is_bn; lia).
  destruct (fo_addr _ _ _ Hf j Hbj Ha) as [Had Hau].
  assert (fs_ok k2) as Hfs2 by (eapply freed_fs; [exact Hfs|by apply freed_updi|by intros x ->]). pose proof (fo_ip _ _ _ Hf) as Hip.
  assert (geti k2 ip = set_iaddrs (zupd (i_addrs (geti k ip)) j 0) (geti k ip)) as Eg.
  { unfold k2. rewrite geti_updi by (by rewrite It). unfold geti. by rewrite It. }
  assert (ind k2 ip = ind k ip) as Ei.
  { unfold k2. rewrite (ind_updi dev k) by (done || lia). zcase (j =? 12) as E; [lia|done]. }
  assert (forall b, is_data k b -> kview k2 b = kview k b) as Hv.
  { intros b Hb. apply (fd_view _ _ _ Hfr). pose proof (data_range dev k b Hfs Hb). lia. }
  assert (forall bn, is_bn bn -> addr_of k2 ip bn = if bn =? j then 0 else addr_of k ip bn) as Eaddr.
  { intros bn Hbn. unfold FsFile.addr_of. rewrite Ei, Eg. cbn [i_addrs set_iaddrs]. zcase (bn <? 12) as E.
    - rewrite znth_zupd by (unfold zlen; rewrite (fo_len _ _ _ Hf); lia). by rewrite (Z.eqb_sym j bn).
    - zcase (bn =? j) as E'; [lia|]. zcase (ind k ip =? 0) as Ei0; [done|]. by rewrite Hv by apply (fo_ind _ _ _ Hf Ei0). }
  assert (forall a, good_addr dev k a -> a <> addr_of k ip j -> good_addr dev k2 a) as Hg.
  { intros a Ha' Hne. eapply freed_good; [exact Hfs|by apply freed_updi|done|done]. }
  split; [exact Hfs2|]. split; [|done]. split.
  - unfold k2, updi. cbn. by rewrite zlen_zupd, It.
  - rewrite Eg. apply (fo_dev _ _ _ Hf).
  - rewrite Eg. cbn. rewrite length_zupd. apply (fo_len _ _ _ Hf).
  - rewrite Ei. intros Hn. apply Hg; [by apply (fo_ind _ _ _ Hf)|]. apply not_eq_sym. by apply (fo_sep _ _ _ Hf).
  - intros bn Hbn. rewrite Eaddr by done. zcase (bn =? j) as E; [done|]. intros Hn. apply Hg; [by apply (fo_addr _ _ _ Hf)|].
    intros Eq. apply E. by apply (fo_inj _ _ _ Hf).
  - intros bn bn' Hbn Hbn'. rewrite !Eaddr by done. zcase (bn =? j) as E; [done|]. zcase (bn' =? j) as E'; [done|].
    by apply (fo_inj _ _ _ Hf).
  - intros bn Hbn. rewrite Ei, Eaddr by done. zcase (bn =? j) as E; [congruence|]. by apply (fo_sep _ _ _ Hf).
Qed.

(** The blocks [i] to 11 of the file were freed. *)
Record direct_freed (k : kst) (ip i : Z) (k' : kst) : Prop := {
  df_freed : freed k (fun x => x <> 0 /\ exists j, i <= j < 12 /\ x = addr_of k ip j) k';
  df_txn : ktxn pid k' [];
  df_fs : fs_ok k';
  df_file : file_ok k' ip;
  df_ind : ind k' ip = ind k ip;
  df_addr : forall bn, is_bn bn -> addr_of k' ip bn = if (i <=? bn) && (bn <? 12) then 0 else addr_of k ip bn;
  df_itab : exists a, k_itab k' = zupd (k_itab k) ip (set_iaddrs a (geti k ip));
}.

Lemma wp_itrunc_direct n c k ip i :
  same_ctx c0 c -> ktxn pid k [] -> fs_ok k -> file_ok k ip -> froom k -> 0 <= i -> i + Z.of_nat n = 12 ->
  wp (itrunc_direct n ip i) c k (fun _ k' => direct_freed k ip i k').
Proof using Hdev Hc0.
  revert c k i. induction n as [|n IH]; intros c k i Hc Hs Hfs Hf Hr Hi Hn; unfold itrunc_direct; fold itrunc_direct.
  - apply wp_ret. split; try done.
    + eapply freed_ext; [|apply freed_none; [done|apply advanced_refl]]. intros x. cbn. split; [done|]. intros (_ & j & ? & _). lia.
    + intros bn Hbn. zcase (i <=? bn) as E1; zcase (bn <? 12) as E2; done || lia.
    + eexists. by apply (itab_id dev).
  - unfold iget_field. apply wp_gets. assert (is_bn i) as Hbi by (unfold is_bn; lia).
    assert (znth 0 (i_addrs (geti k ip)) i = addr_of k ip i) as -> by (unfold FsFile.addr_of; zcase (i <? 12) as E; [done|lia]).
    unfold truth. zcase (addr_of k ip i =? 0) as E0; cbn [negb when].
    + apply wp_bind, wp_ret. intros c1 Hc1. eapply wp_mono; [apply IH; [same_thread|done|done|done|done|lia|lia]|].
      intros [] k' [A B C D E F G]. split; try done.
      * eapply freed_ext; [|exact A]. intros x. split; intros (Hx & j & Hj & ->); (split; [done|]); exists j; (split; [|done]);
          [lia|]. destruct (decide (j = i)) as [->|]; [done|lia].
      * intros bn Hbn. rewrite F by done. destruct (decide (bn = i)) as [->|].
        -- zcase (i + 1 <=? i) as E1; [lia|]. zcase (i <=? i) as E2; [|lia]. zcase (i <? 12) as E3; done.
        -- zcase (i + 1 <=? bn) as E1; zcase (i <=? bn) as E2; zcase (bn <? 12) as E3; done || lia.
    + apply wp_bind, wp_gets. rewrite (fo_dev _ _ _ Hf). eapply wp_seq.
      { apply wp_free; [done|done|done|apply held_nil|done|by apply (fo_addr _ _ _ Hf)]. }
      intros [] k1 c1 Hc1 (Hfr & Hs1 & It1 & _). unfold iset. apply wp_modify_end. intros c2 Hc2.
      destruct (unlink_block k ip i k1 Hfs Hf ltac:(lia) E0 Hfr It1) as (Hfs2 & Hf2 & Ei2 & Ea2).
      set (k2 := updi ip _ k1) in *. pose proof (freed_updi _ _ _ ip (fun x => set_iaddrs (zupd (i_addrs x) i 0) x) Hfr) as Hfr2. fold k2 in Hfr2.
      eapply wp_mono; [apply IH; [same_thread|exact Hs1|done|done|by eapply froom_freed|lia|lia]|].
      intros [] k' [A B C D E F G]. split; try done; [|by rewrite E| |].
      * eapply freed_ext; [|exact (freed_trans _ _ _ _ _ Hfr2 A)]. intros x. cbn. split.
        -- intros [->|(Hx & j & Hj & ->)]; [split; [done|]; exists i; split; [lia|done]|]. split; [done|].
           rewrite Ea2 in Hx |- * by (unfold is_bn; lia). exists j. split; [lia|]. zcase (j =? i) as E'; [lia|done].
        -- intros (Hx & j & Hj & ->). destruct (decide (j = i)) as [->|]; [by left|right]. split; [done|].
           exists j. split; [lia|]. rewrite Ea2 by (unfold is_bn; lia). zcase (j =? i) as E'; [lia|done].
      * intros bn Hbn. rewrite F, Ea2 by done. zcase (bn =? i) as E1; zcase (i + 1 <=? bn) as E2; zcase (i <=? bn) as E3;
          zcase (bn <? 12) as E4; cbn [andb]; done || lia.
      * destruct G as [a Ga]. exists a. rewrite Ga. unfold k2 at 1, updi at 1. cbn [k_itab set_itab].
        rewrite zupd_zupd, It1. f_equal. unfold k2. rewrite geti_updi by (rewrite It1; apply (fo_ip _ _ _ Hf)).
        unfold geti. by rewrite It1.
Qed.

(** ** The indirect blocks *)

Definition entry (d : list Z) (i : Z) : Z := get32 d (4 * i).

Lemma wp_itrunc_indirect n c k bp ib d j :
  same_ctx c0 c -> ktxn pid k [(bp, ib)] -> fs_ok k -> froom k -> good_addr dev k ib -> b_data (kbuf k bp) = d ->
  0 <= j -> j + Z.of_nat n = 256 ->
  (forall i, j <= i < 256 -> entry d i <> 0 -> good_addr dev k (entry d i) /\ entry d i <> ib) ->
  (forall i i', j <= i < 256 -> j <= i' < 256 -> entry d i = entry d i' -> entry d i <> 0 -> i = i') ->
  wp (itrunc_indirect n dev bp j) c k (fun _ k' =>
    freed k (fun x => x <> 0 /\ exists i, j <= i < 256 /\ x = entry d i) k' /\ ktxn pid k' [(bp, ib)] /\
    k_itab k' = k_itab k).
Proof using Hdev Hc0.
  revert c k j. induction n as [|n IH]; intros c k j Hc Hs Hfs Hr Hib Hd Hj Hn Hent Hinj; unfold itrunc_indirect; fold itrunc_indirect.
  - apply wp_ret. split; [|done]. eapply freed_ext; [|apply freed_none; [done|apply advanced_refl]].
    intros x. cbn. split; [done|]. intros (_ & i & ? & _). lia.
  - apply wp_bget. rewrite Hd. fold (entry d j). unfold truth. zcase (entry d j =? 0) as E0; cbn [negb when].
    + apply wp_bind, wp_ret. intros c1 Hc1. eapply wp_mono; [apply IH; [same_thread|done|done|done|done|done|lia|lia|..]|].
      * intros i Hi. apply Hent. lia.
      * intros i i' Hi Hi'. apply Hinj; lia.
      * intros [] k' (A & B & C). split; [|done]. eapply freed_ext; [|exact A].
        intros x. split; intros (Hx & i & Hi & ->); (split; [done|]); exists i; (split; [|done]);
          [lia|]. destruct (decide (i = j)) as [->|]; [done|lia].
    + destruct (Hent j ltac:(lia) E0) as [Hg Hne]. eapply wp_seq.
      { apply wp_free; [done|exact Hs|done| |done|exact Hg]. split; [done|]. intros b Hb.
        apply list_elem_of_singleton in Hb as ->. destruct Hib. done. }
      intros [] k1 c1 Hc1 (Hfr & Hs1 & It1 & Hsh). pose proof (freed_sb _ _ _ Hfr) as Esb.
      assert (forall a, good_addr dev k a -> a <> entry d j -> good_addr dev k1 a) as Hgk.
      { intros a Ha Hna. by eapply freed_good. }
      eapply wp_mono; [apply IH; [same_thread|exact Hs1| |by eapply froom_freed| | |lia|lia|..]|].
      * eapply freed_fs; [exact Hfs|exact Hfr|]. intros x ->. apply Hg.
      * apply Hgk; [done|]. by apply not_eq_sym.
      * rewrite (Hsh bp) by (cbn; left). done.
      * intros i Hi Hn0. destruct (Hent i ltac:(lia) Hn0) as [Hgi Hni]. split; [|done]. apply Hgk; [done|].
        intros E. assert (i = j) by (apply Hinj; done || lia). lia.
      * intros i i' Hi Hi'. apply Hinj; lia.
      * intros [] k' (A & B & C). split; [|split; [done|congruence]].
        eapply freed_ext; [|exact (freed_trans _ _ _ _ _ Hfr A)]. intros x. cbn. split.
        -- intros [->|(Hx & i & Hi & ->)]; (split; [done|]); [exists j; split; [lia|done]|exists i; split; [lia|done]].
        -- intros (Hx & i & Hi & ->). destruct (decide (i = j)) as [->|]; [by left|right]. split; [done|].
           exists i. split; [lia|done].
Qed.

(** ** itrunc *)

(** The file [ip] was emptied, on the disk and in memory. *)
Record truncated (k : kst) (ip : Z) (k' : kst) : Prop := {
  tr_frame : fs_frame k k';
  tr_inode : geti k' ip = set_isize 0 (set_iaddrs (replicate 13 0) (geti k ip));
  tr_len : zlen (k_itab k') = zlen (k_itab k);
  tr_others : forall ip', ip' <> ip -> geti k' ip' = geti k ip';
  tr_fs : fs_ok k';
  tr_used : forall x, 0 <= x < sb_size (k_sb k) -> used k' x = true <-> used k x = true /\ ~ own k ip x;
  tr_blocks : forall b, is_data k b -> kview k' b = kview k b;
  tr_dinode : body (disk_inode dev k' (i_inum (geti k ip))) = body (geti k' ip);
  tr_dinodes : forall n, 0 <= n < sb_ninodes (k_sb k) -> n <> i_inum (geti k ip) ->
    body (disk_inode dev k' n) = body (disk_inode dev k n);
  tr_txn : ktxn pid k' [];
  tr_geom : same_geom k k';
  tr_cost : lg_n (klog k') <= lg_n (klog k) + miss k (sb_bmapstart (k_sb k)) + 1;
}.

(** The blocks are free and the addresses are zero. *)
Record emptied (k : kst) (ip : Z) (k' : kst) : Prop := {
  em_freed : freed k (own k ip) k';
  em_txn : ktxn pid k' [];
  em_inode : geti k' ip = set_iaddrs (replicate 13 0) (geti k ip);
  em_others : forall ip', ip' <> ip -> geti k' ip' = geti k ip';
  em_len : zlen (k_itab k') = zlen (k_itab k);
}.

Lemma zero_addrs a : length a = 13%nat -> (forall j, 0 <= j < 13 -> znth 0 a j = 0) -> a = replicate 13 0.
Proof using.
  intros Hl Hz. apply list_eq. intros i. destruct (decide (i < 13)%nat) as [Hi|Hi].
  - rewrite lookup_replicate_2 by done. destruct (lookup_lt_is_Some_2 a i) as [x Hx]; [lia|].
    rewrite Hx. f_equal. rewrite <- (Hz (Z.of_nat i)) by lia. symmetry. apply znth_lookup; [lia|]. by rewrite Nat2Z.id.
  - rewrite !lookup_ge_None_2; [done|by rewrite length_replicate; lia|lia].
Qed.

Lemma direct_inode k ip k1 :
  file_ok k ip -> direct_freed k ip 0 k1 -> exists a, geti k1 ip = set_iaddrs a (geti k ip) /\
    length a = 13%nat /\ znth 0 a 12 = ind k ip /\ forall j, 0 <= j < 12 -> znth 0 a j = 0.
Proof using.
  intros Hf H. destruct (df_itab _ _ _ _ H) as [a Ea]. exists a.
  assert (geti k1 ip = set_iaddrs a (geti k ip)) as Eg by (unfold geti at 1; rewrite Ea, znth_zupd_eq; [done|apply (fo_ip _ _ _ Hf)]).
  split; [done|]. pose proof (fo_len _ _ _ (df_file _ _ _ _ H)) as Hl. rewrite Eg in Hl. cbn in Hl. split; [done|].
  pose proof (df_ind _ _ _ _ H) as Ei. unfold ind at 1 in Ei. rewrite Eg in Ei. split; [exact Ei|]. intros j Hj.
  pose proof (df_addr _ _ _ _ H j ltac:(unfold is_bn; lia)) as Ej. unfold FsFile.addr_of at 1 in Ej.
  zcase (j <? 12) as E; [|lia]. zcase (0 <=? j) as E'; [|lia]. rewrite Eg in Ej. exact Ej.
Qed.

Lemma direct_others k ip i k1 ip' : direct_freed k ip i k1 -> ip' <> ip -> geti k1 ip' = geti k ip'.
Proof using. intros H Hne. destruct (df_itab _ _ _ _ H) as [a Ea]. unfold geti. rewrite Ea. by rewrite znth_zupd_ne. Qed.

Lemma direct_len k ip i k1 : direct_freed k ip i k1 -> zlen (k_itab k1) = zlen (k_itab k).
Proof using. intros H. destruct (df_itab _ _ _ _ H) as [a Ea]. by rewrite Ea, zlen_zupd. Qed.

(** No indirect block: the direct ones were all. *)
Lemma emptied_direct k ip k1 :
  file_ok k ip -> direct_freed k ip 0 k1 -> ind k ip = 0 -> emptied k ip k1.
Proof using.
  intros Hf H Hi. destruct (direct_inode _ _ _ Hf H) as (a & Eg & Hl & H12 & Hz). split.
  - eapply freed_ext; [|apply (df_freed _ _ _ _ H)]. intros x. unfold FsWrite.own. rewrite Hi. split.
    + intros (Hx & j & Hj & ->). split; [done|]. right. exists j. split; [unfold is_bn; lia|done].
    + intros (Hx & [->|(bn & Hbn & ->)]); [done|]. split; [done|]. exists bn. split; [|done].
      unfold FsFile.addr_of in Hx. zcase (bn <? 12) as E; [unfold is_bn in Hbn; lia|]. rewrite Hi in Hx. done.
  - apply (df_txn _ _ _ _ H).
  - rewrite Eg. f_equal. apply zero_addrs; [done|]. intros j Hj. destruct (decide (j = 12)) as [->|]; [by rewrite H12|apply Hz; lia].
  - intros ip' Hne. by eapply direct_others.
  - by eapply direct_len.
Qed.

(** The entries and the indirect block are freed after the direct blocks. *)
Lemma emptied_indirect k ip k1 k5 :
  fs_ok k -> file_ok k ip -> direct_freed k ip 0 k1 -> ind k ip <> 0 ->
  let d := kview k1 (ind k ip) in
  freed k1 (fun x => (x <> 0 /\ exists i, 0 <= i < 256 /\ x = entry d i) \/ x = ind k ip) k5 -> ktxn pid k5 [] ->
  k_itab k5 = k_itab k1 ->
  emptied k ip (updi ip (fun x => set_iaddrs (zupd (i_addrs x) 12 0) x) k5).
Proof using.
  intros Hfs Hf H Hi d Hfr Hs5 It5. destruct (direct_inode _ _ _ Hf H) as (a & Eg & Hl & H12 & Hz).
  pose proof (fo_ip _ _ _ Hf) as Hip. pose proof (direct_len _ _ _ _ H) as Hlen.
  assert (d = kview k (ind k ip)) as Ed.
  { apply (fd_view _ _ _ (df_freed _ _ _ _ H)). pose proof (data_range dev k _ Hfs (proj1 (fo_ind _ _ _ Hf Hi))). lia. }
  assert (forall bn, 12 <= bn < 268 -> addr_of k ip bn = entry d (bn - 12)) as Ea.
  { intros bn Hbn. unfold FsFile.addr_of, entry. zcase (bn <? 12) as E; [lia|]. zcase (ind k ip =? 0) as E'; [done|]. by rewrite Ed. }
  split.
  - apply freed_updi. eapply freed_ext; [|exact (freed_trans _ _ _ _ _ (df_freed _ _ _ _ H) Hfr)]. intros x. unfold FsWrite.own. cbn. split.
    + intros [(Hx & j & Hj & ->)|[(Hx & i & Hi' & ->)| ->]].
      * split; [done|]. right. exists j. split; [unfold is_bn; lia|done].
      * split; [done|]. right. exists (i + 12). split; [unfold is_bn; lia|]. rewrite Ea by lia. f_equal. lia.
      * split; [done|by left].
    + intros (Hx & [->|(bn & Hbn & ->)]); [by right; right|]. unfold is_bn in Hbn. destruct (decide (bn < 12)).
      * left. split; [done|]. exists bn. split; [lia|done].
      * right. left. split; [done|]. exists (bn - 12). split; [lia|]. apply Ea. lia.
  - exact Hs5.
  - rewrite geti_updi by (rewrite It5, Hlen; done). assert (geti k5 ip = geti k1 ip) as -> by (unfold geti; by rewrite It5).
    rewrite Eg. cbn [i_addrs set_iaddrs]. rewrite (zero_addrs (zupd a 12 0)); [by destruct (geti k ip)|by rewrite length_zupd|].
    intros j Hj. rewrite znth_zupd by (unfold zlen; rewrite Hl; lia). zcase (12 =? j) as E; [done|]. apply Hz. lia.
  - intros ip' Hne. rewrite geti_updi_ne by done. rewrite <- (direct_others _ _ _ _ _ H Hne). unfold geti. by rewrite It5.
  - unfold updi. cbn. by rewrite zlen_zupd, It5, Hlen.
Qed.

Lemma wp_itrunc_rest c k ip k1 :
  same_ctx c0 c -> fs_ok k -> file_ok k ip -> froom k -> direct_freed k ip 0 k1 ->
  wp (when (truth (ind k1 ip))
        (dev <- iget_field ip i_dev ;;
         bp <- bio_ (bread dev (ind k1 ip)) ;;
         itrunc_indirect (Z.to_nat NINDIRECT) dev bp 0 ;;
         bio_ (brelse bp) ;;
         bfree dev (ind k1 ip) ;;
         iset ip (fun x => set_iaddrs (zupd (i_addrs x) NDIRECT 0) x))) c k1 (fun _ k' => emptied k ip k').
Proof using Hdev Hc0.
  intros Hc Hfs Hf Hr H. rewrite (df_ind _ _ _ _ H). unfold truth. zcase (ind k ip =? 0) as E; cbn [negb when].
  - apply wp_ret. by apply emptied_direct.
  - pose proof (df_fs _ _ _ _ H) as Hfs1. pose proof (df_file _ _ _ _ H) as Hf1. pose proof (df_ind _ _ _ _ H) as Ei.
    pose proof (froom_freed _ _ _ (df_freed _ _ _ _ H) Hr) as Hr1. pose proof (df_txn _ _ _ _ H) as Hs1.
    pose proof (room_tx _ _ _ _ _ Hs1 (froom_room _ Hr1)). unfold iget_field. apply wp_gets. rewrite (fo_dev _ _ _ Hf1).
    assert (good_addr dev k1 (ind k ip)) as Hgi by (rewrite <- Ei; apply (fo_ind _ _ _ Hf1); by rewrite Ei).
    apply wp_bind. eapply (wp_bread dev Hdev c0 Hc0); [done|exact Hs1|apply not_elem_of_nil|cbn; lia|].
    intros bp k2 A2 Hs2 It2 _ Hd2 _ c2 Hc2. pose proof (freed_none k1 k2 Hfs1 A2) as F2.
    assert (fs_ok k2) as Hfs2 by (eapply freed_fs; [exact Hfs1|exact F2|done]).
    assert (forall a, good_addr dev k1 a -> good_addr dev k2 a) as Hg2.
    { intros a Ha. eapply freed_good; [exact Hfs1|exact F2|done|tauto]. }
    set (d := kview k1 (ind k ip)) in *.
    assert (forall i, 0 <= i < 256 -> entry d i = addr_of k1 ip (i + 12)) as Ee.
    { intros i Hi. unfold FsFile.addr_of, entry. zcase (i + 12 <? 12) as E1; [lia|]. rewrite Ei. zcase (ind k ip =? 0) as E2; [done|].
      unfold d. f_equal. lia. }
    eapply wp_seq; [apply (wp_itrunc_indirect _ c2 k2 bp (ind k ip) d 0); [same_thread|exact Hs2|done|by eapply froom_freed|by apply Hg2|exact Hd2|lia|done|..]|].
    { intros i Hi Hn. rewrite Ee in * by done. split; [apply Hg2, (fo_addr _ _ _ Hf1); [unfold is_bn; lia|done]|].
      rewrite <- Ei. apply (fo_sep _ _ _ Hf1); [unfold is_bn; lia|by rewrite Ei]. }
    { intros i i' Hi Hi'. rewrite !Ee by done. intros Eq Hn. enough (i + 12 = i' + 12) by lia.
      apply (fo_inj _ _ _ Hf1); [unfold is_bn; lia..|done|done]. }
    intros [] k3 c3 Hc3 (F3 & Hs3 & It3). apply wp_bind.
    eapply (wp_brelse dev Hdev c0 Hc0); [same_thread|exact Hs3|]. intros k4 A4 Hs4 It4 _ _ c4 Hc4.
    pose proof (freed_trans _ _ _ _ _ F2 F3) as F13.
    assert (forall x, (x <> 0 /\ exists i, 0 <= i < 256 /\ x = entry d i) -> is_data k1 x) as Hdata.
    { intros x (Hx & i & Hi & ->). rewrite Ee in * by done. apply (fo_addr _ _ _ Hf1); [unfold is_bn; lia|done]. }
    assert (fs_ok k3) as Hfs3 by (eapply freed_fs; [exact Hfs1|exact F13|]; intros x [[]|]; by apply Hdata).
    pose proof (freed_trans _ _ _ _ _ F13 (freed_none k3 k4 Hfs3 A4)) as F14.
    assert (fs_ok k4) as Hfs4 by (eapply freed_fs; [exact Hfs1|exact F14|]; intros x [[[]|]|[]]; by apply Hdata).
    eapply wp_seq.
    { apply wp_free; [same_thread|exact Hs4|done|apply held_nil|by eapply froom_freed|].
      eapply freed_good; [exact Hfs1|exact F14|done|]. intros [[[]|(Hx & i & Hi & Eq)]|[]]. rewrite Ee in Eq by done.
      eapply (fo_sep _ _ _ Hf1 (i + 12)); [unfold is_bn; lia|by rewrite Ei|by rewrite Ei]. }
    intros [] k5 c5 Hc5 (F5 & Hs5 & It5 & _). unfold iset. apply wp_modify_end. change NDIRECT with 12.
    apply (emptied_indirect k ip k1 k5); try done; [|congruence].
    eapply freed_ext; [|exact (freed_trans _ _ _ _ _ F14 F5)]. intros x. cbn. tauto.
Qed.

(** The end of [itrunc]: the inode of the empty file is on the disk. *)
Lemma truncated_end k ip k3 k4 :
  fs_ok k -> 0 <= i_inum (geti k ip) < sb_ninodes (k_sb k) -> inode_fits (set_iaddrs (replicate 13 0) (geti k ip)) ->
  freed k (own k ip) k3 -> fs_ok k3 -> geti k3 ip = set_isize 0 (set_iaddrs (replicate 13 0) (geti k ip)) ->
  (forall ip', ip' <> ip -> geti k3 ip' = geti k ip') -> zlen (k_itab k3) = zlen (k_itab k) ->
  wrote_inode dev k3 (i_inum (geti k ip)) (geti k3 ip) k4 -> ktxn pid k3 [] -> ktxn pid k4 [] -> k_itab k4 = k_itab k3 ->
  truncated k ip k4.
Proof using Hdev.
  intros Hfs Hinum Hfits F3 Hfs3 Eg Eo Hz Hwi Hs3 Hs4 It4. destruct (wi_adv _ _ _ _ _ Hwi) as [d A4].
  pose proof (freed_sb _ _ _ F3) as Esb. destruct (IBLOCK_val k3 (i_inum (geti k ip)) (fs_layout _ _ Hfs3) ltac:(by rewrite Esb)) as [_ HI].
  assert (forall x, 0 <= x < sb_size (k_sb k3) -> used k4 x = used k3 x) as Hu.
  { intros x Hx. eapply used_frame; [apply Hfs3|exact A4|done|]. apply Forall_singleton. right. cbn. lia. }
  assert (forall ip', geti k4 ip' = geti k3 ip') as E4 by (intros; unfold geti; by rewrite It4).
  split; try done.
  - eapply fs_frame_trans; [apply (fd_frame _ _ _ F3)|apply (av_frame _ _ _ _ A4)].
  - by rewrite E4.
  - by rewrite It4.
  - intros ip' Hne. rewrite E4. by apply Eo.
  - eapply keep_fs; [by eapply advanced_sb|by eapply advanced_geom|exact Hu|done].
  - intros x Hx. rewrite Hu by (by rewrite Esb). by apply (fd_used _ _ _ F3).
  - intros b Hb. pose proof (data_range dev k b Hfs Hb) as [_ Hb']. rewrite (view1 _ _ _ _ _ _ A4).
    rewrite Esb in HI. destruct (decide _) as [E|]; [rewrite Esb in E; lia|]. apply (fd_view _ _ _ F3). lia.
  - rewrite E4. apply (wi_self _ _ _ _ _ Hwi). rewrite Eg. destruct Hfits. by split.
  - intros n Hn Hne. rewrite (wi_other _ _ _ _ _ Hwi) by (done || by rewrite Esb). unfold disk_inode. rewrite Esb, (fd_view _ _ _ F3); [done|].
    destruct (IBLOCK_val k n (fs_layout _ _ Hfs) Hn) as [_ ?]. lia.
  - eapply same_geom_trans; [apply (fd_geom _ _ _ F3)|by eapply advanced_geom].
  - pose proof (spent_miss dev Hdev pid k3 [] _ _ k4 [] Hs3 Hs4 A4) as Hsp.
    pose proof (miss_range k3 (IBLOCK (i_inum (geti k ip)) (k_sb k3))). pose proof (miss_range k3 (sb_bmapstart (k_sb k))).
    pose proof (fd_cost _ _ _ F3). lia.
Qed.

Theorem wp_itrunc c k ip :
  same_ctx c0 c -> ktxn pid k [] -> may_write dev k ip -> froom k ->
  wp (itrunc ip) c k (fun _ k' => truncated k ip k').
Proof using Hdev Hc0.
  intros Hc Hs (Hfs & Hf & Hff & Hinum & Hfits) Hr. unfold itrunc. eapply wp_seq.
  { apply wp_itrunc_direct; [done|done|done|done|done|lia|done]. }
  intros [] k1 c1 Hc1 H1. unfold iget_field at 1. apply wp_gets. fold (ind k1 ip). eapply wp_seq.
  { apply (wp_itrunc_rest c1 k ip k1); [same_thread|done|done|done|done]. }
  intros [] k2 c2 Hc2 He. unfold iset. apply wp_modify. pose proof (fo_ip _ _ _ Hf) as Hip.
  set (k3 := updi ip (set_isize 0) k2). pose proof (freed_updi _ _ _ ip (set_isize 0) (em_freed _ _ _ He)) as F3. fold k3 in F3.
  assert (geti k3 ip = set_isize 0 (set_iaddrs (replicate 13 0) (geti k ip))) as Eg.
  { unfold k3. rewrite geti_updi by (rewrite (em_len _ _ _ He); done). by rewrite (em_inode _ _ _ He). }
  assert (forall ip', ip' <> ip -> geti k3 ip' = geti k ip') as Eo.
  { intros ip' Hne. unfold k3. rewrite geti_updi_ne by done. by apply (em_others _ _ _ He). }
  assert (fs_ok k3) as Hfs3 by (eapply freed_fs; [exact Hfs|exact F3|]; intros x Hx; by eapply own_data).
  pose proof (freed_sb _ _ _ F3) as Esb. eapply wp_mono.
  { apply (wp_iupdate dev Hdev c0 Hc0); [same_thread|exact (em_txn _ _ _ He)|apply Hfs3| |by rewrite Eg; apply (fo_dev _ _ _ Hf)| |by rewrite Eg].
    - apply froom_room. by eapply froom_freed.
    - rewrite Eg, Esb. exact Hinum. }
  intros [] k4 (Hwi & Hs4 & It4). replace (i_inum (geti k3 ip)) with (i_inum (geti k ip)) in Hwi by (by rewrite Eg).
  eapply truncated_end; try done; [|exact (em_txn _ _ _ He)]. unfold k3, updi. cbn. rewrite zlen_zupd. apply (em_len _ _ _ He).
Qed.

End Trunc.
