(* ===== verification/FsTable.v ===== *)
(** * The inode table (kernel/fs.c: iget, idup, iput, ilock, iunlock)

    At most one entry of the table stands for an inode; [iget] finds it or takes a free
    entry, [idup] and [iput] count its references, and the last [iput] of an inode with no
    links frees it on the disk. *)
From S2P Require Import Prelude Bytes Memory Machine Riscv Kalloc Vm Sleeplock Bio BioProps BioSpec BioSteps.
From S2P Require Import Log LogProps LogLoops LogCrash LogCommit LogSpec Wp Txn Kernel Fs FsSteps FsAlloc FsFile FsBmap FsInode FsContent FsWrite FsTrunc.

(** ** The invariant of the table *)

Record itab_ok (k : kst) : Prop := {
  it_ref : forall i, 0 <= i < zlen (k_itab k) -> 0 <= i_ref (geti k i);
  it_uniq : forall i j, 0 <= i < zlen (k_itab k) -> 0 <= j < zlen (k_itab k) ->
    0 < i_ref (geti k i) -> 0 < i_ref (geti k j) ->
    i_dev (geti k i) = i_dev (geti k j) -> i_inum (geti k i) = i_inum (geti k j) -> i = j;
}.

(** The entry [i] stands for the inode [inum]. *)
Definition caches (k : kst) (dev inum i : Z) : Prop :=
  0 <= i < zlen (k_itab k) /\ 0 < i_ref (geti k i) /\ i_dev (geti k i) = dev /\ i_inum (geti k i) = inum.

(** What [iget] returns, and the table after it. *)
Inductive igot (k : kst) (dev inum : Z) : Z -> kst -> Prop :=
| igot_cached i :
    caches k dev inum i -> igot k dev inum i (updi i (fun x => set_iref (i_ref x + 1) x) k)
| igot_fresh i :
    (forall j, ~ caches k dev inum j) -> 0 <= i < zlen (k_itab k) -> i_ref (geti k i) = 0 ->
    (forall j, 0 <= j < i -> i_ref (geti k j) <> 0) ->
    igot k dev inum i (updi i (set_iident dev inum 1 0) k).

Lemma zlen_updi k i f : zlen (k_itab (updi i f k)) = zlen (k_itab k).
Proof. unfold updi. cbn. apply zlen_zupd. Qed.

Lemma geti_updi_case k i f j :
  0 <= i < zlen (k_itab k) -> geti (updi i f k) j = if decide (i = j) then f (geti k j) else geti k j.
Proof. intros Hi. destruct (decide (i = j)) as [<-|Hne]; [by apply geti_updi|by apply geti_updi_ne]. Qed.

(** Changing the count of an entry in use. *)
Lemma itab_ref k i f :
  itab_ok k -> 0 <= i < zlen (k_itab k) -> (forall x, i_dev (f x) = i_dev x /\ i_inum (f x) = i_inum x) ->
  0 < i_ref (geti k i) -> 0 <= i_ref (f (geti k i)) -> itab_ok (updi i f k).
Proof.
  intros [Hr Hu] Hi Hf Hpos Hnn. split; rewrite zlen_updi.
  - intros j Hj. rewrite geti_updi_case by done. destruct (decide _) as [<-|]; [done|by apply Hr].
  - intros j j' Hj Hj'. rewrite !geti_updi_case by done.
    destruct (decide (i = j)) as [<-|], (decide (i = j')) as [<-|]; intros H1 H2; [done|..];
      rewrite ?(proj1 (Hf _)), ?(proj2 (Hf _)); intros H3 H4; apply Hu; done.
Qed.

Lemma itab_igot k dev inum i k' : itab_ok k -> igot k dev inum i k' -> itab_ok k' /\ caches k' dev inum i.
Proof.
  intros Hok Hg. destruct Hg as [i (Hi & Hr & Hd & Hn)|i Hno Hi Hr Hmin].
  - split; [apply itab_ref; try done; cbn; lia|]. unfold caches. rewrite zlen_updi, geti_updi by done. cbn. split; [done|]. split; [lia|done].
  - split; [|unfold caches; rewrite zlen_updi, geti_updi by done; done].
    destruct Hok as [Hr' Hu]. split; rewrite zlen_updi.
    + intros j Hj. rewrite geti_updi_case by done. destruct (decide _); [cbn; lia|by apply Hr'].
    + intros j j' Hj Hj'. rewrite !geti_updi_case by done.
      destruct (decide (i = j)) as [<-|], (decide (i = j')) as [<-|]; intros H1 H2; cbn; [done| | |by apply Hu].
      * intros H3 H4. exfalso. by apply (Hno j').
      * intros H3 H4. exfalso. by apply (Hno j).
Qed.

(** ** The scan *)

Lemma iget_scan_run t dev inum ip empty :
  let '(r, e) := iget_scan t dev inum ip empty in
  match r with
  | Some i => ip <= i < ip + zlen t /\ 0 < i_ref (znth inode0 t (i - ip)) /\
      i_dev (znth inode0 t (i - ip)) = dev /\ i_inum (znth inode0 t (i - ip)) = inum
  | None =>
      (forall j, 0 <= j < zlen t -> ~ (0 < i_ref (znth inode0 t j) /\ i_dev (znth inode0 t j) = dev /\ i_inum (znth inode0 t j) = inum)) /\
      match e with
      | Some i => empty = Some i \/ (empty = None /\ ip <= i < ip + zlen t /\ i_ref (znth inode0 t (i - ip)) = 0 /\
          forall j, 0 <= j < i - ip -> i_ref (znth inode0 t j) <> 0)
      | None => empty = None /\ forall j, 0 <= j < zlen t -> i_ref (znth inode0 t j) <> 0
      end
  end.
Proof.
  revert ip empty. induction t as [|x t IH]; intros ip empty; cbn [iget_scan].
  - split; [intros j Hj; unfold zlen in Hj; cbn in Hj; lia|]. destruct empty; [by left|]. split; [done|]. intros j Hj. unfold zlen in Hj. cbn in Hj. lia.
  - assert (zlen (x :: t) = zlen t + 1) as Hz by (unfold zlen; cbn; lia). assert (0 <= zlen t) by (unfold zlen; lia).
    assert (forall j, 0 <= j < zlen (x :: t) -> j = 0 \/ (0 <= j - 1 < zlen t /\ znth inode0 (x :: t) j = znth inode0 t (j - 1))) as Hc.
    { intros j Hj. destruct (decide (j = 0)); [by left|right]. split; [lia|]. by rewrite znth_cons_S by lia. }
    destruct ((0 <? i_ref x) && (i_dev x =? dev) && (i_inum x =? inum)) eqn:E.
    + apply andb_true_iff in E as [[E1%Z.ltb_lt E2%Z.eqb_eq]%andb_true_iff E3%Z.eqb_eq]. rewrite Z.sub_diag, znth_cons_0. split; [lia|done].
    + set (e0 := match empty with Some e => Some e | None => if i_ref x =? 0 then Some ip else None end).
      specialize (IH (ip + 1) e0). destruct (iget_scan t dev inum (ip + 1) e0) as [r e]. destruct r as [i|].
      * destruct IH as (A & B). rewrite znth_cons_S by lia. replace (i - ip - 1) with (i - (ip + 1)) by lia. split; [lia|done].
      * destruct IH as [A B]. split.
        -- intros j Hj [H1 [H2 H3]]. destruct (Hc j Hj) as [->|[Hj' Ej]].
           ++ rewrite znth_cons_0 in *. apply andb_false_iff in E as [E|E%Z.eqb_neq]; [|done].
              apply andb_false_iff in E as [E%Z.ltb_ge|E%Z.eqb_neq]; [lia|done].
           ++ rewrite Ej in *. by apply (A (j - 1) Hj').
        -- destruct empty as [e1|]; cbn in e0.
           { destruct e as [i|]; [|by destruct B]. destruct B as [B|[B _]]; [by left|done]. }
           zcase (i_ref x =? 0) as Ex.
           ++ destruct e as [i|]; [|by destruct B]. right. destruct B as [B|[B _]]; [|done].
              injection B as <-. split; [done|]. split; [lia|]. rewrite Z.sub_diag, znth_cons_0. split; [done|]. intros; lia.
           ++ destruct e as [i|].
              ** right. destruct B as [B|(_ & B1 & B2 & B3)]; [done|]. split; [done|]. split; [lia|].
                 rewrite znth_cons_S by lia. replace (i - ip - 1) with (i - (ip + 1)) by lia. split; [done|].
                 intros j Hj. destruct (Hc j ltac:(lia)) as [->|[Hj' ->]]; [by rewrite znth_cons_0|]. apply B3. lia.
              ** destruct B as [_ B]. split; [done|]. intros j Hj. destruct (Hc j Hj) as [->|[Hj' ->]]; [by rewrite znth_cons_0|by apply B].
Qed.

(** A free entry. *)
Definition slot (k : kst) (j : Z) : Prop := 0 <= j < zlen (k_itab k) /\ i_ref (geti k j) = 0.

(** The scan decides whether there is an entry to return. *)
Lemma iget_dec k dev inum :
  (exists j, caches k dev inum j \/ slot k j) \/ ((forall j, ~ caches k dev inum j) /\ forall j, ~ slot k j).
Proof.
  pose proof (iget_scan_run (k_itab k) dev inum 0 None) as Hscan.
  destruct (iget_scan (k_itab k) dev inum 0 None) as [[i|] e].
  - left. destruct Hscan as (Hi & H). rewrite Z.sub_0_r in H. exists i. left. split; [lia|done].
  - destruct Hscan as [Hno He]. destruct e as [e|].
    + left. destruct He as [He|(_ & H1 & H2 & _)]; [done|]. rewrite Z.sub_0_r in H2. exists e. right. split; [lia|done].
    + right. destruct He as [_ He]. split; intros j (Hj & H); [by apply (Hno j Hj)|by apply (He j Hj)].
Qed.

Section Table.
Context (c0 : ctx) (Hc0 : idle c0).
Abbreviation pid := (c_pid c0).

Lemma wp_iget c k dev inum :
  same_ctx c0 c -> (exists j, caches k dev inum j \/ slot k j) ->
  wp (iget dev inum) c k (igot k dev inum).
Proof using Hc0.
  intros Hc Hex. pose proof (idle_same _ _ Hc Hc0) as Hi. unfold iget. apply wp_acquire; [by apply idle_nolock|].
  apply wpc_gets. pose proof (iget_scan_run (k_itab k) dev inum 0 None) as Hscan.
  destruct (iget_scan (k_itab k) dev inum 0 None) as [[i|] e].
  - destruct Hscan as (Hi1 & Hi2). rewrite Z.sub_0_r in *. unfold iset. apply wpc_modify, wpc_leave; [done|].
    apply wpc_ret. split; [apply same_ctx_refl|]. apply igot_cached. split; [lia|done].
  - destruct Hscan as [Hno He]. destruct e as [e|].
    + destruct He as [He|(_ & He1 & He2 & He3)]; [done|]. rewrite Z.sub_0_r in *. unfold iset. apply wpc_modify, wpc_leave; [done|].
      apply wpc_ret. split; [apply same_ctx_refl|]. apply igot_fresh; try done. intros j (Hj & H). by apply (Hno j Hj).
    + destruct He as [_ Hfull].
      destruct Hex as (j & [(Hj & H)|(Hj & Hr)]); [by destruct (Hno j Hj)|by destruct (Hfull j Hj)].
Qed.

(** No entry for the inode and no free one: the kernel stops. *)
Lemma iget_none k dev inum :
  (forall j, ~ caches k dev inum j) -> (forall j, ~ slot k j) -> iget dev inum c0 k = Panic "iget: no inodes".
Proof using Hc0.
  intros Hno Hfull. unfold iget. kstep (acquire_run LItable c0 k (idle_nolock c0 LItable Hc0)). krun.
  pose proof (iget_scan_run (k_itab k) dev inum 0 None) as Hscan.
  destruct (iget_scan (k_itab k) dev inum 0 None) as [[i|] [e|]]; [..|done].
  1,2: destruct Hscan as (Hi1 & Hi2); rewrite Z.sub_0_r in *; by destruct (Hno i); split; [lia|].
  destruct Hscan as [_ [He|(_ & He1 & He2 & _)]]; [done|]. rewrite Z.sub_0_r in *. by destruct (Hfull e); split.
Qed.

Lemma wp_idup c k ip :
  same_ctx c0 c -> wp (idup ip) c k (fun r k' => r = ip /\ k' = updi ip (fun x => set_iref (i_ref x + 1) x) k).
Proof using Hc0.
  intros Hc. pose proof (idle_same _ _ Hc Hc0) as Hi. unfold idup, iset. apply wp_acquire; [by apply idle_nolock|].
  apply wpc_modify, wpc_leave; [done|]. apply wpc_ret. by split; [apply same_ctx_refl|].
Qed.

(** [iput] of an inode that stays: the count goes down. *)
Lemma wp_iput_keep c k ip :
  same_ctx c0 c ->
  ((i_ref (geti k ip) =? 1) && truth (i_valid (geti k ip)) && (i_nlink (geti k ip) =? 0)) = false ->
  wp (iput ip) c k (fun _ k' => k' = updi ip (fun x => set_iref (i_ref x - 1) x) k).
Proof using Hc0.
  intros Hc Hk. pose proof (idle_same _ _ Hc Hc0) as Hi. unfold iput. apply wp_acquire; [by apply idle_nolock|].
  apply wpc_gets. rewrite Hk. cbn [when]. apply wpc_bind, wpc_ret. unfold iset. apply wpc_modify, wpc_leave_end; [done|].
  by split; [apply same_ctx_refl|].
Qed.

(** ** Locking *)

Context (dev : Z) (Hdev : dev <> 0).
Abbreviation ktxn := (ktxn dev).

Lemma wp_acquire_inode {A} (f : unit -> M kst A) c k ip (Q : A -> kst -> Prop) :
  same_ctx c0 c -> sl_locked (i_lock (geti k ip)) = 0 ->
  (forall c1, same_ctx c0 c1 -> wp (f tt) c1 (updi ip (set_ilock (SleepLock 1 pid)) k) Q) ->
  wp (x <- acquiresleep (inode_lock ip) (LInodeSleep ip) (ChInode ip) ;; f x) c k Q.
Proof using Hc0.
  intros Hc Hfree HQ. pose proof (idle_same _ _ Hc Hc0) as Hi.
  apply wp_bind. eapply wp_done0; [apply acquiresleep_free; [apply (id_steady _ Hi)|by apply idle_nolock|done]|].
  intros c1 Hc1. rewrite (same_pid _ _ Hc). apply HQ. same_thread.
Qed.

Lemma wp_release_inode c k ip (Q : unit -> kst -> Prop) :
  same_ctx c0 c -> Q tt (updi ip (set_ilock (SleepLock 0 0)) k) ->
  wp (releasesleep (inode_lock ip) (LInodeSleep ip) (ChInode ip)) c k Q.
Proof using Hc0.
  intros Hc HQ. pose proof (idle_same _ _ Hc Hc0) as Hi.
  eapply wp_done; [apply releasesleep_run; [apply (id_steady _ Hi)|by apply idle_nolock]|done].
Qed.

(** The inode of an entry of the table, with the fields of the disk. *)
Definition loaded (k : kst) (ip : Z) : inode :=
  let i := geti k ip in
  if i_valid i =? 0 then
    set_ivalid 1 (load_dinode (FsSteps.kview dev k (IBLOCK (i_inum i) (k_sb k))) (dinode_off (i_inum i)) i)
  else i.

(** [ilock] locks the entry; the first one after [iget] reads the inode. *)
Lemma wp_ilock c k ip :
  same_ctx c0 c -> ktxn pid k [] -> (length (tx (klog k)) + 1 < 30)%nat -> 0 <= ip < zlen (k_itab k) ->
  1 <= i_ref (geti k ip) -> sl_locked (i_lock (geti k ip)) = 0 -> i_dev (geti k ip) = dev ->
  (i_valid (geti k ip) = 0 -> i_type (loaded k ip) <> 0) ->
  wp (ilock ip) c k (fun _ k' =>
    exists k1, advanced dev k [] k1 /\ ktxn pid k1 [] /\ k_itab k1 = k_itab k /\
      k' = updi ip (fun _ => set_ilock (SleepLock 1 pid) (loaded k ip)) k1).
Proof using Hc0 Hdev.
  intros Hc Hs Htx Hip Href Hfree Hd Hty. unfold ilock, iget_field. apply wp_gets. zcase (i_ref (geti k ip) <? 1) as E; [lia|].
  apply wp_acquire_inode; [done|done|]. intros c1 Hc1. apply wp_gets. rewrite geti_updi by done. unfold loaded in *.
  cbn [i_valid i_dev i_inum set_ilock]. zcase (i_valid (geti k ip) =? 0) as Ev.
  - apply wp_gets. rewrite Hd. apply wp_bind.
    eapply (wp_bread dev Hdev c0 Hc0 c1 (updi ip (set_ilock (SleepLock 1 pid)) k) []); [done|exact Hs|apply not_elem_of_nil|change (klog (updi _ _ k)) with (klog k); cbn; lia|].
    intros bp k2 A2 Hs2 It2 _ Hd2 _ c2 Hc2. apply wp_bget. rewrite Hd2. unfold iset. apply wp_modify, wp_bind.
    eapply (wp_brelse dev Hdev c0 Hc0 c2 _ [] bp); [same_thread|exact Hs2|].
    intros k3 A3 Hs3 It3 _ _ c3 Hc3. apply wp_modify, wp_gets.
    set (d := FsSteps.kview dev _ _) in *. set (off := dinode_off _) in *.
    assert (zlen (k_itab k2) = zlen (k_itab k)) as Hz2 by (by rewrite It2, zlen_updi).
    assert (geti k2 ip = set_ilock (SleepLock 1 pid) (geti k ip)) as G2 by (unfold geti at 1; rewrite It2; by apply geti_updi).
    assert (geti k3 ip = load_dinode d off (set_ilock (SleepLock 1 pid) (geti k ip))) as G3.
    { unfold geti at 1. rewrite It3. rewrite <- G2. apply geti_updi. by rewrite Hz2. }
    assert (zlen (k_itab k3) = zlen (k_itab k)) as Hz3 by (by rewrite It3, zlen_updi).
    rewrite geti_updi by (by rewrite Hz3). rewrite G3. specialize (Hty Ev). cbn in Hty |- *.
    zcase (s16 (get16 d off) =? 0) as E'; [done|]. apply wp_ret. exists (set_itab (k_itab k) k3).
    split; [|split; [exact Hs3|split; [done|]]].
    + apply advanced_itab_r. eapply advanced_0l; [exact (advanced_itab_l _ _ _ _ _ A2)|exact (advanced_itab_l _ _ _ _ _ A3)].
    + unfold updi. rewrite G3, It3. cbn [k_itab set_itab]. unfold updi at 1. cbn [k_itab set_itab]. rewrite zupd_zupd, It2. unfold updi at 1. cbn [k_itab set_itab].
      rewrite zupd_zupd. by destruct k3.
  - apply wp_ret. exists k. split; [apply advanced_refl|]. split; [done|]. split; [done|]. unfold updi. do 2 f_equal.
Qed.

Lemma wp_iunlock c k ip :
  same_ctx c0 c -> sl_locked (i_lock (geti k ip)) = 1 -> sl_pid (i_lock (geti k ip)) = pid -> 1 <= i_ref (geti k ip) ->
  wp (iunlock ip) c k (fun _ k' => k' = updi ip (set_ilock (SleepLock 0 0)) k).
Proof using Hc0.
  intros Hc Hl Hp Hr. pose proof (idle_same _ _ Hc Hc0) as Hi. unfold iunlock, iget_field. apply wp_bind.
  eapply wp_done0; [apply holdingsleep_run; [apply (id_steady _ Hi)|by apply idle_nolock]|]. intros c1 Hc1. apply wp_gets.
  cbn [view inode_lock]. rewrite Hl, Hp, (same_pid _ _ Hc), Z.eqb_refl. zcase (i_ref (geti k ip) <? 1) as E; [lia|].
  cbn. apply wp_release_inode; [same_thread|done].
Qed.

(** ** The last reference to an unlinked inode *)

Abbreviation used := (used dev).
Abbreviation own := (own dev).

(** A change of the entry that keeps what is on the disk. *)
Lemma may_write_updi k ip f :
  may_write dev k ip -> (forall x, body (f x) = body x /\ i_dev (f x) = i_dev x /\ i_inum (f x) = i_inum x) ->
  may_write dev (updi ip f k) ip /\ (forall x, own (updi ip f k) ip x <-> own k ip x).
Proof using.
  intros (Hfs & Hf & Hff & Hinum & Hfits) Hk. pose proof (fo_ip _ _ _ Hf) as Hip.
  destruct (Hk (geti k ip)) as (Hb & Hd & Hn). unfold body in Hb. injection Hb as B1 B2 B3 B4 B5 B6.
  set (k' := updi ip f k). assert (geti k' ip = f (geti k ip)) as Eg by (by apply geti_updi).
  assert (i_addrs (geti k' ip) = i_addrs (geti k ip)) as Ea by (by rewrite Eg).
  assert (ind k' ip = ind k ip) as Ei by (unfold ind; by rewrite Ea).
  assert (forall bn, addr_of dev k' ip bn = addr_of dev k ip bn) as Eaddr by (intros; by apply keep_addr).
  split.
  - split; [by apply (keep_fs dev k k')|]. split; [apply (keep_file dev k k'); try done; [apply zlen_updi|by rewrite Eg]|].
    split; [|split].
    + destruct Hff as [H1 H2]. split; rewrite Eg, B5; [done|]. intros bn. rewrite Eaddr. apply H2.
    + rewrite Eg, Hn. exact Hinum.
    + rewrite Eg. destruct Hfits. split; cbn in *; rewrite ?B1, ?B2, ?B3, ?B4, ?B5; done.
  - intros x. unfold FsWrite.own. rewrite Ei. split; intros (Hx & [?|(bn & ? & E)]); (split; [done|]); [by left|right|by left|right];
      exists bn; [rewrite <- Eaddr|rewrite Eaddr]; done.
Qed.

(** The inode is free: on the disk, and its entry in the table. *)
Record inode_freed (k : kst) (ip : Z) (k' : kst) : Prop := {
  ir_frame : fs_frame k k';
  ir_entry : geti k' ip = set_iref 0 (set_ilock (SleepLock 0 0) (set_ivalid 0 (set_itype 0 (set_isize 0 (set_iaddrs (replicate 13 0) (geti k ip))))));
  ir_others : forall ip', ip' <> ip -> geti k' ip' = geti k ip';
  ir_used : forall x, 0 <= x < sb_size (k_sb k) -> used k' x = true <-> used k x = true /\ ~ own k ip x;
  ir_blocks : forall b, is_data k b -> FsSteps.kview dev k' b = FsSteps.kview dev k b;
  ir_dinode : i_type (disk_inode dev k' (i_inum (geti k ip))) = 0;
  ir_dinodes : forall n, 0 <= n < sb_ninodes (k_sb k) -> n <> i_inum (geti k ip) ->
    body (disk_inode dev k' n) = body (disk_inode dev k n);
  ir_txn : ktxn pid k' [];
}.

(** The last steps, after [itrunc]: the type is 0 on the disk, and the entry is free. *)
Lemma inode_freed_end k ip k2 k4 l :
  let k1 := updi ip (set_ilock l) k in
  let k3 := updi ip (set_itype 0) k2 in
  may_write dev k ip -> i_ref (geti k ip) = 1 -> truncated dev c0 k1 ip k2 ->
  wrote_inode dev k3 (i_inum (geti k3 ip)) (geti k3 ip) k4 -> ktxn pid k4 [] -> k_itab k4 = k_itab k3 ->
  inode_freed k ip (updi ip (fun x => set_iref (i_ref x - 1) x) (updi ip (set_ilock (SleepLock 0 0)) (updi ip (set_ivalid 0) k4))).
Proof using.
  intros k1 k3 Hmay Hr Ht Hwi Hs4 It4. pose proof Hmay as (Hfs & Hf & Hff & Hinum & Hfits). pose proof (fo_ip _ _ _ Hf) as Hip.
  destruct (may_write_updi k ip (set_ilock l) Hmay ltac:(done)) as [_ Hown]. fold k1 in Hown.
  assert (geti k1 ip = set_ilock l (geti k ip)) as G1 by (by apply geti_updi).
  pose proof (tr_inode _ _ _ _ _ Ht) as G2. rewrite G1 in G2.
  assert (zlen (k_itab k2) = zlen (k_itab k)) as Z2 by (rewrite (tr_len _ _ _ _ _ Ht); apply zlen_updi).
  assert (geti k3 ip = set_itype 0 (geti k2 ip)) as G3 by (apply geti_updi; by rewrite Z2).
  assert (zlen (k_itab k4) = zlen (k_itab k)) as Z4 by (rewrite It4; unfold k3; by rewrite zlen_updi).
  assert (geti k4 ip = geti k3 ip) as G4 by (unfold geti; by rewrite It4).
  assert (i_inum (geti k3 ip) = i_inum (geti k ip)) as En by (by rewrite G3, G2). rewrite En in Hwi.
  destruct (wi_adv _ _ _ _ _ Hwi) as [d A4].
  pose proof (tr_fs _ _ _ _ _ Ht) as Hfs2. assert (fs_ok dev k3) as Hfs3 by (by apply (keep_fs dev k2 k3)).
  assert (k_sb k3 = k_sb k) as Esb by exact (fs_frame_sb _ _ (tr_frame _ _ _ _ _ Ht)).
  destruct (IBLOCK_val k3 (i_inum (geti k ip)) (fs_layout _ _ Hfs3) ltac:(by rewrite Esb)) as [_ HI].
  split.
  - do 3 apply fs_frame_updi. eapply fs_frame_trans; [|apply (av_frame _ _ _ _ A4)]. apply fs_frame_updi.
    eapply fs_frame_trans; [|apply (tr_frame _ _ _ _ _ Ht)]. apply fs_frame_updi, fs_frame_refl.
  - rewrite !geti_updi by (by rewrite ?zlen_updi, Z4). rewrite G4, G3, G2. cbn. unfold set_iref. cbn. rewrite Hr. by destruct (geti k ip).
  - intros ip' Hne. rewrite !geti_updi_ne by done. replace (geti k4 ip') with (geti k3 ip') by (unfold geti; by rewrite It4).
    unfold k3. rewrite geti_updi_ne by done. rewrite (tr_others _ _ _ _ _ Ht) by done. unfold k1. by rewrite geti_updi_ne.
  - intros x Hx. change (used k4 x = true <-> used k x = true /\ ~ own k ip x).
    rewrite (used_frame dev k3 _ k4 x (fs_layout _ _ Hfs3) A4) by ((by rewrite Esb) || (apply Forall_singleton; right; apply HI)).
    change (used k2 x = true <-> used k x = true /\ ~ own k ip x). rewrite (tr_used _ _ _ _ _ Ht) by done. by rewrite Hown.
  - intros b Hb. change (FsSteps.kview dev k4 b = FsSteps.kview dev k b). pose proof (data_range dev k b Hfs Hb) as [_ ?].
    rewrite (view1 _ _ _ _ _ _ A4). rewrite Esb in HI. destruct (decide _) as [E|]; [rewrite Esb in E; lia|].
    change (FsSteps.kview dev k2 b = FsSteps.kview dev k b). by rewrite (tr_blocks _ _ _ _ _ Ht).
  - change (i_type (disk_inode dev k4 (i_inum (geti k ip))) = 0). assert (inode_fits (geti k3 ip)) as Hfit3.
    { rewrite G3, G2. destruct Hfits. by split. }
    pose proof (wi_self _ _ _ _ _ Hwi Hfit3) as Hb. transitivity (i_type (geti k3 ip)); [|by rewrite G3].
    unfold body in Hb. congruence.
  - intros n Hn Hne. change (body (disk_inode dev k4 n) = body (disk_inode dev k n)).
    rewrite (wi_other _ _ _ _ _ Hwi) by (done || by rewrite Esb).
    change (body (disk_inode dev k2 n) = body (disk_inode dev k n)). rewrite (tr_dinodes _ _ _ _ _ Ht); [done|done|by rewrite G1].
  - exact Hs4.
Qed.

Theorem wp_iput_last c k ip :
  same_ctx c0 c -> ktxn pid k [] -> may_write dev k ip ->
  i_ref (geti k ip) = 1 -> i_valid (geti k ip) = 1 -> i_nlink (geti k ip) = 0 -> sl_locked (i_lock (geti k ip)) = 0 ->
  1 <= lg_outstanding (klog k) -> lg_n (klog k) + miss k (sb_bmapstart (k_sb k)) + 2 < LOGSIZE ->
  lg_n (klog k) + miss k (sb_bmapstart (k_sb k)) + 2 <= lg_size (klog k) - 1 ->
  wp (iput ip) c k (fun _ k' => inode_freed k ip k').
Proof using Hc0 Hdev.
  intros Hc Hs Hmay Hr Hv Hn Hl Hout R1 R2. pose proof (idle_same _ _ Hc Hc0) as Hi. pose proof Hmay as (Hfs & Hf & _).
  pose proof (fo_ip _ _ _ Hf) as Hip.
  unfold iput. apply wp_acquire; [by apply idle_nolock|]. apply wpc_gets. rewrite Hr, Hv, Hn. cbn [Z.eqb truth negb andb when].
  change (truth 1) with true. cbn [Pos.eqb andb when]. apply wpc_bind, wpc_bind.
  eapply wpc_done; [apply acquiresleep_free; [apply steady_enter, (idle_ok _ Hi)|rewrite c_held_enter, (id_held _ Hi)|done]|].
  { rewrite not_elem_of_cons. split; [done|apply not_elem_of_nil]. }
  apply wpc_leave; [done|]. rewrite c_pid_enter, (same_pid _ _ Hc). cbn [update inode_lock].
  set (k1 := updi ip (set_ilock (SleepLock 1 pid)) k).
  destruct (may_write_updi k ip (set_ilock (SleepLock 1 pid)) Hmay ltac:(done)) as [Hmay1 _]. fold k1 in Hmay1.
  pose proof (miss_range k (sb_bmapstart (k_sb k))).
  eapply wpc_call; [apply (wp_itrunc dev Hdev c0 Hc0 c k1 ip); [done|exact Hs|done|]|].
  { unfold froom. change (klog k1) with (klog k). change (miss k1 _) with (miss k (sb_bmapstart (k_sb k))). lia. }
  intros [] c2 k2 Hc2 Ht. unfold iset at 1. apply wpc_modify. set (k3 := updi ip (set_itype 0) k2).
  pose proof (tr_inode _ _ _ _ _ Ht) as G2. unfold k1 in G2. rewrite geti_updi in G2 by done.
  assert (geti k3 ip = set_itype 0 (geti k2 ip)) as G3.
  { apply geti_updi. rewrite (tr_len _ _ _ _ _ Ht). unfold k1. by rewrite zlen_updi. }
  assert (k_sb k2 = k_sb k) as Esb by exact (fs_frame_sb _ _ (tr_frame _ _ _ _ _ Ht)).
  assert (fs_ok dev k3) as Hfs3 by (apply (keep_fs dev k2 k3); try done; apply (tr_fs _ _ _ _ _ Ht)).
  destruct (tr_geom _ _ _ _ _ Ht) as (_ & Es & Eo). pose proof (tr_cost _ _ _ _ _ Ht) as Hcost.
  change (klog k1) with (klog k) in *. change (miss k1 _) with (miss k (sb_bmapstart (k_sb k))) in Hcost.
  pose proof Hmay as (_ & _ & _ & Hinum & _).
  eapply wpc_call; [apply (wp_iupdate dev Hdev c0 Hc0 c2 k3 ip); [same_thread|exact (tr_txn _ _ _ _ _ Ht)|apply Hfs3| | | |]|].
  { unfold room. change (l_log (k_l k3)) with (klog k2). rewrite Es, Eo. lia. }
  { rewrite G3, G2. apply (fo_dev _ _ _ Hf). }
  { rewrite G3, G2. change (k_sb k3) with (k_sb k2). by rewrite Esb. }
  { by rewrite G3, G2. }
  intros [] c3 k4 Hc3 (Hwi & Hs4 & It4). unfold iset at 1. apply wpc_modify.
  eapply wpc_call; [apply (wp_release_inode c3 (updi ip (set_ivalid 0) k4) ip (fun _ k' => k' = updi ip (set_ilock (SleepLock 0 0)) (updi ip (set_ivalid 0) k4))); [same_thread|done]|].
  intros [] c4 k6 Hc4 ->. assert (same_ctx c0 c4) as Hc4' by same_thread. pose proof (idle_same _ _ Hc4' Hc0) as Hi4.
  apply wpc_enter_end; [done|]. unfold iset. apply wpc_modify, wpc_leave_end; [done|]. split; [same_thread|].
  by eapply inode_freed_end.
Qed.

End Table.
