(* ===== verification/FsDir.v ===== *)
(** * Directories (kernel/fs.c: dirlookup, dirlink)

    A directory as the list of its entries: [dirlookup] finds the first entry with the
    name, [dirlink] puts a new one in the first empty place. *)
From S2P Require Import Prelude Bytes Memory Machine Riscv Kalloc Vm Sleeplock Bio BioProps BioSpec BioSteps.
From S2P Require Import Log LogProps LogLoops LogCrash LogCommit LogSpec Wp Txn Kernel Fs FsSteps FsAlloc FsFile FsBmap FsInode.
From S2P Require Import FsContent FsWrite FsTrunc FsTable.

(** ** The reference operations *)

(** The entry [de] is in use and has the name. *)
Definition hit (name de : list Z) : bool := negb (de_inum de =? 0) && (namecmp name (de_name de) =? 0).

Definition dir_find (name : list Z) (ents : list (list Z)) : option (nat * list Z) :=
  list_find (fun de => hit name de = true) ents.

Definition dir_insert (de : list Z) (ents : list (list Z)) : list (list Z) :=
  match list_find (fun e => de_inum e = 0) ents with
  | Some (j, _) => <[j := de]> ents
  | None => ents ++ [de]
  end.

(** The new entry is found. *)
Lemma dir_find_insert name de ents :
  dir_find name ents = None -> hit name de = true ->
  exists j, dir_find name (dir_insert de ents) = Some (j, de).
Proof.
  unfold dir_find, dir_insert. intros Hno Hde. apply list_find_None in Hno.
  destruct (list_find (fun e => de_inum e = 0) ents) as [[j e]|] eqn:E.
  - apply list_find_Some in E as (Hj & _ & _). pose proof (lookup_lt_Some _ _ _ Hj). exists j. apply list_find_Some.
    split; [by apply list_lookup_insert_eq|]. split; [done|]. intros i x Hx Hij Hh. rewrite list_lookup_insert_ne in Hx by lia.
    rewrite Forall_forall in Hno. apply (Hno x); [by eapply list_elem_of_lookup_2|done].
  - exists (length ents). apply list_find_Some. split; [by rewrite lookup_app_r, Nat.sub_diag|]. split; [done|].
    intros i x Hx Hij Hh. rewrite lookup_app_l in Hx by done. rewrite Forall_forall in Hno. apply (Hno x); [by eapply list_elem_of_lookup_2|done].
Qed.

(** Names that are not the new entry's find what they found. *)
Lemma dir_find_other name de ents :
  hit name de = false -> dir_find name (dir_insert de ents) = dir_find name ents.
Proof.
  intros Hde. unfold dir_find, dir_insert. destruct (list_find (fun e => de_inum e = 0) ents) as [[j e]|] eqn:E.
  - apply list_find_Some in E as (Hj & He & _). assert (hit name e = false) as Hhe by (unfold hit; by rewrite He).
    revert j Hj. induction ents as [|x ents IH]; intros j Hj; [done|]. destruct j as [|j]; cbn in *.
    + injection Hj as ->. by rewrite Hhe, Hde.
    + destruct (decide (hit name x = true)); [done|]. by rewrite IH.
  - induction ents as [|x ents IH]; cbn in *; [by rewrite Hde|]. destruct (decide (de_inum x = 0)) eqn:Ex; [done|].
    destruct (list_find _ ents) as [[]|] eqn:E2 in E; [done|]. rewrite E2 in IH.
    destruct (decide (hit name x = true)); [done|]. by rewrite IH.
Qed.

Section Dir.
Context (dev : Z) (Hdev : dev <> 0) (c0 : ctx) (Hc0 : idle c0).
Abbreviation pid := (c_pid c0).
Abbreviation ktxn := (ktxn dev).
Abbreviation frange := (frange dev).
Abbreviation read_only := (read_only dev c0).

(** The entries of the directory [dp]. *)
Definition dent (k : kst) (dp i : Z) : list Z := frange k dp (16 * i) 16.
Definition dents (k : kst) (dp : Z) : list (list Z) := dent k dp <$> seqZ 0 (i_size (geti k dp) / 16).

(** A locked directory that can be read. *)
Record dir_ok (k : kst) (dp : Z) : Prop := {
  do_fs : fs_ok dev k;
  do_file : file_ok dev k dp;
  do_full : file_full dev k dp;
  do_txn : ktxn pid k [];
  do_tx : (length (tx (klog k)) + 1 < 30)%nat;
  do_type : i_type (geti k dp) = T_DIR;
  do_size : i_size (geti k dp) mod 16 = 0;
}.

Lemma dir_ok_read k dp k' : dir_ok k dp -> read_only k k' -> dir_ok k' dp.
Proof using.
  intros [H1 H2 H3 H4 H5 H6 H7] Hro. destruct (read_only_file dev c0 k dp k' Hro H1 H2 H3) as (A & B & C).
  destruct Hro as (Ha & Hs & It). assert (geti k' dp = geti k dp) as E by (unfold geti; by rewrite It).
  split; rewrite ?E; try done. by rewrite (tx_same dev k k' Ha).
Qed.

Lemma dent_read k dp k' i : read_only k k' -> dent k' dp i = dent k dp i.
Proof using. intros (Ha & _ & It). unfold dent. by apply frange_same. Qed.

Lemma dents_read k dp k' : read_only k k' -> dents k' dp = dents k dp.
Proof using.
  intros Hro. pose proof Hro as (_ & _ & It). unfold dents. assert (geti k' dp = geti k dp) as -> by (unfold geti; by rewrite It).
  apply list_fmap_ext. intros i x _. by apply dent_read.
Qed.

Lemma read_only_refl k dp : dir_ok k dp -> read_only k k.
Proof using. intros H. split; [apply advanced_refl|]. split; [apply H|done]. Qed.

(** One entry is read. *)
Lemma wp_read_dent c k dp i :
  same_ctx c0 c -> dir_ok k dp -> 0 <= i < i_size (geti k dp) / 16 ->
  wp (readi dp None (16 * i) 16) c k (fun r k' => r = (16, dent k dp i) /\ read_only k k').
Proof using Hdev Hc0.
  intros Hc [H1 H2 H3 H4 H5 H6 H7] Hi. pose proof (ff_size _ _ _ H3).
  eapply wp_mono; [apply (wp_readi dev Hdev c0 Hc0 c k dp (16 * i) 16); try done; dlia|].
  intros r k' [-> Hro]. assert (read_count (i_size (geti k dp)) (16 * i) 16 = 16) as ->; [|done].
  unfold read_count. zcase (i_size (geti k dp) <? 16 * i) as E1; [dlia|]. zcase (4294967296 <=? 16 * i + 16) as E2; [dlia|]. cbn [orb]. dlia.
Qed.

(** ** dirlookup *)

Definition lookup_post (k : kst) (dp : Z) (name : list Z) (i : Z) (r : option (Z * Z)) (k' : kst) : Prop :=
  match dir_find name (drop (Z.to_nat i) (dents k dp)) with
  | Some (j, de) => exists ip k1, r = Some (ip, 16 * (i + Z.of_nat j)) /\ read_only k k1 /\ igot k1 dev (de_inum de) ip k'
  | None => r = None /\ read_only k k'
  end.

Lemma drop_dents k dp i :
  0 <= i < i_size (geti k dp) / 16 -> drop (Z.to_nat i) (dents k dp) = dent k dp i :: drop (Z.to_nat (i + 1)) (dents k dp).
Proof using.
  intros Hi. replace (Z.to_nat (i + 1)) with (S (Z.to_nat i)) by lia. apply drop_S. unfold dents.
  rewrite list_lookup_fmap, lookup_seqZ_lt by lia. cbn. do 2 f_equal. lia.
Qed.

Lemma drop_dents_end k dp i : i_size (geti k dp) / 16 <= i -> drop (Z.to_nat i) (dents k dp) = [].
Proof using. intros Hi. apply drop_ge. unfold dents. rewrite length_fmap, length_seqZ. lia. Qed.

Lemma lookup_post_read k dp name i r k1 k' : read_only k k1 -> lookup_post k1 dp name i r k' -> lookup_post k dp name i r k'.
Proof using.
  intros Hro. unfold lookup_post. rewrite (dents_read k dp k1 Hro). destruct (dir_find _ _) as [[j de]|].
  - intros (ip & k2 & E & Hro2 & Hg). exists ip, k2. split; [done|]. split; [by eapply read_only_trans|done].
  - intros [E Hro2]. split; [done|by eapply read_only_trans].
Qed.

Lemma wp_dirlookup_loop n c k dp name i :
  same_ctx c0 c -> dir_ok k dp -> (exists j, slot k j) -> 0 <= i ->
  i_size (geti k dp) / 16 - i <= Z.of_nat n ->
  wp (dirlookup_loop n dp name (16 * i)) c k (lookup_post k dp name i).
Proof using Hdev Hc0.
  revert c k i. induction n as [|n IH]; intros c k i Hc Hd Hslot Hi Hn; unfold dirlookup_loop; fold dirlookup_loop;
    unfold iget_field at 1; apply wp_gets; pose proof (do_size _ _ Hd) as Hsz; (zcase (16 * i <? i_size (geti k dp)) as E;
      [|apply wp_ret; unfold lookup_post; rewrite drop_dents_end by dlia; split; [done|by eapply read_only_refl]]).
  - dlia.
  - assert (0 <= i < i_size (geti k dp) / 16) as Hir by dlia. eapply wp_seq; [by apply wp_read_dent|].
    intros r k1 c1 Hc1 [-> Hro]. cbn [Z.eqb Pos.eqb negb]. change (negb (16 =? 16)) with false. cbn iota.
    assert ((exists j, slot k1 j)) as Hslot1.
    { destruct Hro as (_ & _ & It). destruct Hslot as [j [Hj Hr]]. exists j. split; [by rewrite It|]. unfold geti. by rewrite It. }
    assert (forall m, wp (dirlookup_loop n dp name (16 * i + 16)) c1 k1 (lookup_post k1 dp name (i + 1)) -> 
      hit name (dent k dp i) = false -> m = dirlookup_loop n dp name (16 * i + 16) -> wp m c1 k1 (lookup_post k dp name i)) as Hnext.
    { intros m Hm Hh ->. eapply wp_mono; [exact Hm|]. intros r k2 Hr. apply (lookup_post_read k dp name (i + 1) r k1 k2 Hro) in Hr.
      unfold lookup_post in *. rewrite (drop_dents k dp i Hir). unfold dir_find in *. cbn [list_find]. rewrite Hh. cbn.
      destruct (list_find _ (drop (Z.to_nat (i + 1)) (dents k dp))) as [[j de]|]; [|done]. cbn.
      destruct Hr as (ip & k3 & -> & Hr). exists ip, k3. split; [|done]. do 3 f_equal. lia. }
    assert (wp (dirlookup_loop n dp name (16 * i + 16)) c1 k1 (lookup_post k1 dp name (i + 1))) as Hrec.
    { replace (16 * i + 16) with (16 * (i + 1)) by lia. apply IH; [same_thread|by eapply dir_ok_read|done|lia|].
      destruct Hro as (_ & _ & It). assert (geti k1 dp = geti k dp) as -> by (unfold geti; by rewrite It). lia. }
    zcase (de_inum (dent k dp i) =? 0) as E0; [apply Hnext; [done|unfold hit; by rewrite E0|done]|].
    zcase (namecmp name (de_name (dent k dp i)) =? 0) as E1; [|apply Hnext; [done| |done]].
    + apply wp_gets. pose proof (dir_ok_read k dp k1 Hd Hro) as Hd1. rewrite (fo_dev _ _ _ (do_file _ _ Hd1)). eapply wp_seq.
      { apply (wp_iget c0 Hc0); [same_thread|]. destruct Hslot1 as [j Hj]. exists j. by right. }
      intros ip k2 c2 Hc2 Hg. apply wp_ret. unfold lookup_post, dir_find. rewrite (drop_dents k dp i Hir). cbn [list_find].
      rewrite decide_True. 2: { unfold hit. apply Z.eqb_neq in E0. rewrite E0, E1. done. }
      exists ip, k1. split; [do 3 f_equal; lia|]. split; [done|exact Hg].
    + unfold hit. apply Z.eqb_neq in E0, E1. by rewrite E0, E1.
Qed.

Theorem wp_dirlookup c k dp name :
  same_ctx c0 c -> dir_ok k dp -> (exists j, slot k j) ->
  wp (dirlookup dp name) c k (lookup_post k dp name 0).
Proof using Hdev Hc0.
  intros Hc Hd Hslot. unfold dirlookup, iget_field. apply wp_gets. rewrite (do_type _ _ Hd). cbn. apply wp_gets.
  replace 0 with (16 * 0) at 1 by lia. apply wp_dirlookup_loop; try done. pose proof (ff_size _ _ _ (do_full _ _ Hd)).
  rewrite Z2Nat.id by dlia. lia.
Qed.

(** ** dirlink *)

(** The place of the new entry. *)
Definition free_index (ents : list (list Z)) : Z :=
  match list_find (fun e => de_inum e = 0) ents with
  | Some (j, _) => Z.of_nat j
  | None => zlen ents
  end.

Lemma zlen_dents k dp : file_full dev k dp -> zlen (dents k dp) = i_size (geti k dp) / 16.
Proof using.
  intros Hf. pose proof (ff_size _ _ _ Hf). unfold zlen, dents. rewrite length_fmap, length_seqZ. rewrite Z2Nat.id; [done|dlia].
Qed.

Lemma wp_dirlink_loop n c k dp i :
  same_ctx c0 c -> dir_ok k dp -> 0 <= i <= i_size (geti k dp) / 16 -> i_size (geti k dp) / 16 - i <= Z.of_nat n ->
  wp (dirlink_loop n dp (16 * i)) c k (fun off k' =>
    off = 16 * (i + free_index (drop (Z.to_nat i) (dents k dp))) /\ read_only k k').
Proof using Hdev Hc0.
  revert c k i. induction n as [|n IH]; intros c k i Hc Hd Hi Hn; unfold dirlink_loop; fold dirlink_loop;
    unfold iget_field at 1; apply wp_gets; pose proof (do_size _ _ Hd) as Hsz; (zcase (16 * i <? i_size (geti k dp)) as E;
      [|apply wp_ret; rewrite drop_dents_end by dlia; change (free_index []) with 0; split; [lia|by eapply read_only_refl]]).
  - dlia.
  - assert (0 <= i < i_size (geti k dp) / 16) as Hir by dlia. eapply wp_seq; [by apply wp_read_dent|].
    intros r k1 c1 Hc1 [-> Hro]. change (negb (16 =? 16)) with false. cbn iota. rewrite (drop_dents k dp i Hir).
    zcase (de_inum (dent k dp i) =? 0) as E0.
    + apply wp_ret. unfold free_index. cbn [list_find]. rewrite decide_True by done. split; [lia|done].
    + replace (16 * i + 16) with (16 * (i + 1)) by lia. pose proof Hro as (_ & _ & It).
      assert (geti k1 dp = geti k dp) as Eg by (unfold geti; by rewrite It).
      eapply wp_mono; [apply IH; [same_thread|by eapply dir_ok_read|rewrite Eg; lia|rewrite Eg; lia]|].
      intros off k2 [-> Hro2]. split; [|by eapply read_only_trans]. rewrite (dents_read k dp k1 Hro).
      unfold free_index. cbn [list_find]. rewrite decide_False by done.
      destruct (list_find _ (drop (Z.to_nat (i + 1)) (dents k dp))) as [[j e]|].
      { change (prod_map S id <$> Some (j, e)) with (Some (S j, e)). cbn iota. lia. }
      change (prod_map S id <$> None) with (@None (nat * list Z)). cbn iota.
      unfold zlen. cbn [length]. lia.
Qed.

Lemma free_index_range ents : 0 <= free_index ents <= zlen ents.
Proof using.
  unfold free_index, zlen. destruct (list_find _ ents) as [[j e]|] eqn:E; [|lia].
  apply list_find_Some in E as (Hj & _). apply lookup_lt_Some in Hj. lia.
Qed.

Lemma length_strncpy n t : length (bytes_strncpy n t) = n.
Proof using. revert t. induction n as [|n IH]; intros t; cbn; [done|]. destruct (_ =? 0); cbn; [by rewrite length_replicate|by rewrite IH]. Qed.

(** The entry that [dirlink] writes. *)
Definition new_dent (name : list Z) (inum : Z) : list Z := dirent_bytes inum (bytes_strncpy (Z.to_nat DIRSIZ) name).

Lemma zlen_new_dent name inum : zlen (new_dent name inum) = 16.
Proof using. unfold new_dent, dirent_bytes, zlen. rewrite length_app, length_strncpy, length_le_bytes. done. Qed.

Lemma slice_fits d n : zlen d = n -> slice d 0 n = d.
Proof using. intros <-. apply slice_all. Qed.

(** The directory after 16 bytes are written at a place of an entry. *)
Lemma dents_written k dp j de k' :
  dir_ok k dp -> zlen de = 16 -> 0 <= j <= i_size (geti k dp) / 16 -> 16 * j + 16 <= 268 * 1024 ->
  written dev c0 k dp (16 * j) de k' ->
  dents k' dp = if j =? i_size (geti k dp) / 16 then dents k dp ++ [de] else <[Z.to_nat j := de]> (dents k dp).
Proof using.
  intros Hd Hz Hj Hmax Hw. destruct (wr_inode _ _ _ _ _ _ _ Hw) as [a Ei]. pose proof (ff_size _ _ _ (do_full _ _ Hd)) as Hsz.
  pose proof (do_size _ _ Hd) as Hmod. set (n := i_size (geti k dp) / 16) in *.
  assert (i_size (geti k' dp) = Z.max (i_size (geti k dp)) (16 * j + 16)) as Es by (by rewrite Ei, Hz).
  assert (forall i, 0 <= i -> 16 * i + 16 <= 268 * 1024 -> dent k' dp i = if i =? j then de else dent k dp i) as Hent.
  { intros i Hi Hb. assert (length (if i =? j then de else dent k dp i) = 16%nat) as Hl.
    { destruct (i =? j); [unfold zlen in Hz; lia|]. unfold dent. by rewrite length_frange. }
    apply list_eq_same_length with (n := 16%nat); [done|unfold dent; by rewrite length_frange|].
    intros q x y Hq Hx Hy. unfold dent in Hx at 1. unfold FsContent.frange in Hx.
    rewrite list_lookup_fmap, lookup_seqZ_lt in Hx by lia. cbn in Hx. injection Hx as <-.
    rewrite (wr_byte _ _ _ _ _ _ _ Hw), Hz by lia. zcase (i =? j) as E.
    - subst. zcase (16 * j <=? 16 * j + Z.of_nat q) as E1; [|lia]. zcase (16 * j + Z.of_nat q <? 16 * j + 16) as E2; [|lia].
      cbn [andb]. apply znth_lookup; [lia|]. rewrite <- Hy. f_equal. lia.
    - replace ((16 * j <=? 16 * i + Z.of_nat q) && (16 * i + Z.of_nat q <? 16 * j + 16)) with false.
      + unfold dent, FsContent.frange in Hy. rewrite list_lookup_fmap, lookup_seqZ_lt in Hy by lia. cbn in Hy. by injection Hy.
      + symmetry. apply andb_false_iff. rewrite Z.leb_gt, Z.ltb_ge. lia. }
  unfold dents. rewrite Es. zcase (j =? n) as E.
  - replace (Z.max (i_size (geti k dp)) (16 * j + 16) / 16) with (n + 1) by (unfold n in *; dlia).
    rewrite seqZ_split, fmap_app by dlia. f_equal.
    + apply list_fmap_ext. intros i x [-> Hx]%lookup_seqZ. rewrite Hent by (unfold n in *; dlia). zcase (0 + Z.of_nat i =? j) as E'; [lia|done].
    + assert (seqZ (0 + n) 1 = [n]) as -> by (unfold seqZ; cbn; f_equal; lia). cbn [fmap list_fmap].
      rewrite Hent by (unfold n in *; dlia). zcase (n =? j) as E'; [done|lia].
  - replace (Z.max (i_size (geti k dp)) (16 * j + 16) / 16) with n by (unfold n in *; dlia). fold n.
    apply list_eq. intros i. rewrite list_lookup_fmap. destruct (decide (Z.of_nat i < n)) as [Hi|Hi].
    + rewrite lookup_seqZ_lt by lia. cbn [fmap option_fmap option_map]. rewrite Z.add_0_l, Hent by (unfold n in *; dlia). zcase (Z.of_nat i =? j) as E'.
      * subst j. rewrite Nat2Z.id. rewrite list_lookup_insert_eq; [done|]. rewrite length_fmap, length_seqZ. lia.
      * rewrite list_lookup_insert_ne by lia. rewrite list_lookup_fmap, lookup_seqZ_lt by lia. done.
    + rewrite lookup_seqZ_ge by lia. cbn. rewrite list_lookup_insert_ne by lia. rewrite list_lookup_fmap, lookup_seqZ_ge by lia. done.
Qed.

Lemma dir_insert_index de ents :
  dir_insert de ents = if free_index ents =? zlen ents then ents ++ [de] else <[Z.to_nat (free_index ents) := de]> ents.
Proof using.
  unfold dir_insert, free_index. destruct (list_find _ ents) as [[j e]|] eqn:E; [|by rewrite Z.eqb_refl].
  apply list_find_Some in E as (Hj & _). apply lookup_lt_Some in Hj. unfold zlen.
  zcase (Z.of_nat j =? Z.of_nat (length ents)) as E'; [lia|]. by rewrite Nat2Z.id.
Qed.

Lemma may_write_read k ip k' : read_only k k' -> may_write dev k ip -> may_write dev k' ip.
Proof using.
  intros Hro (H1 & H2 & H3 & H4 & H5). destruct (read_only_file dev c0 k ip k' Hro H1 H2 H3) as (A & B & C).
  destruct Hro as (Ha & _ & It). assert (geti k' ip = geti k ip) as E by (unfold geti; by rewrite It).
  unfold may_write. rewrite E, (advanced_sb _ _ _ _ Ha). done.
Qed.

Lemma fits_read k ip k' n : read_only k k' -> fits k ip n -> fits k' ip n.
Proof using.
  intros (Ha & _ & It). destruct (advanced_geom _ _ _ _ Ha) as (_ & E1 & E2). unfold fits. by rewrite E1, E2, (pot_same dev k ip k' Ha It).
Qed.

(** The new entry, in the first empty place. *)
Theorem wp_dirlink c k dp name inum :
  same_ctx c0 c -> dir_ok k dp -> may_write dev k dp -> (exists j, slot k j) ->
  dir_find name (dents k dp) = None -> i_size (geti k dp) + 16 <= 268 * 1024 -> fits k dp 2 ->
  wp (dirlink dp name inum) c k (fun r k' =>
    (r = 0 /\ dents k' dp = dir_insert (new_dent name inum) (dents k dp) /\
      exists k1, read_only k k1 /\ written dev c0 k1 dp (16 * free_index (dents k dp)) (new_dent name inum) k') \/
    (r = -1 /\ disk_full dev k')).
Proof using Hdev Hc0.
  intros Hc Hd Hmay Hslot Hno Hmax Hfit. unfold dirlink. eapply wp_seq; [by apply wp_dirlookup|].
  intros r k1 c1 Hc1 Hl. unfold lookup_post in Hl. change (Z.to_nat 0) with 0%nat in Hl. rewrite drop_0, Hno in Hl. destruct Hl as [-> Hro1].
  pose proof (dir_ok_read _ _ _ Hd Hro1) as Hd1. unfold iget_field. apply wp_gets.
  pose proof (ff_size _ _ _ (do_full _ _ Hd1)) as Hsz. pose proof (do_size _ _ Hd) as Hmod.
  assert (geti k1 dp = geti k dp) as Eg by (destruct Hro1 as (_ & _ & It); unfold geti; by rewrite It). eapply wp_seq.
  { replace 0 with (16 * 0) by lia. apply wp_dirlink_loop; [same_thread|done|dlia|rewrite Z2Nat.id by dlia; lia]. }
  intros off k2 c2 Hc2 [-> Hro2]. change (Z.to_nat 0) with 0%nat. rewrite drop_0, Z.add_0_l, (dents_read k dp k1 Hro1).
  pose proof (read_only_trans _ _ _ _ _ Hro1 Hro2) as Hro. pose proof (dir_ok_read _ _ _ Hd Hro) as Hd2.
  assert (geti k2 dp = geti k dp) as Eg2 by (destruct Hro as (_ & _ & It); unfold geti; by rewrite It).
  fold (new_dent name inum). set (j := free_index (dents k dp)). set (de := new_dent name inum).
  assert (0 <= j <= i_size (geti k dp) / 16) as Hj.
  { rewrite <- (zlen_dents k dp (do_full _ _ Hd)). apply free_index_range. }
  eapply wp_seq.
  { apply (wp_writei dev Hdev c0 Hc0 c2 k2 dp de (16 * j) 16); [same_thread|apply Hd2|by eapply may_write_read| | | | |].
    - rewrite Eg2. dlia.
    - lia.
    - dlia.
    - unfold de. by rewrite zlen_new_dent.
    - replace (chunks (16 * j) 16 + 1) with 2; [by eapply fits_read|]. unfold chunks. cbn. dlia. }
  intros m k3 c3 Hc3 (Hm & Hend & Hw & _). zcase (m =? 16) as E; cbn [negb]; apply wp_ret.
  - subst m. left. rewrite slice_fits in Hw by apply zlen_new_dent. split; [done|]. split; [|eauto].
    rewrite (dents_written k2 dp j de k3 Hd2) by (done || (rewrite ?Eg2; dlia) || apply zlen_new_dent).
    rewrite Eg2, (dents_read k dp k2 Hro), dir_insert_index, (zlen_dents k dp (do_full _ _ Hd)). done.
  - right. split; [done|]. by destruct Hend.
Qed.

(** The name is taken: nothing changes but the counts of the table, and back. *)
Theorem wp_dirlink_taken c k dp name inum j de :
  same_ctx c0 c -> dir_ok k dp -> itab_ok k -> (exists j, slot k j) -> dir_find name (dents k dp) = Some (j, de) ->
  wp (dirlink dp name inum) c k (fun r k' => r = -1 /\ fs_frame k k' /\ forall b, kview dev k' b = kview dev k b).
Proof using Hdev Hc0.
  intros Hc Hd Hit Hslot Hf. unfold dirlink. eapply wp_seq; [by apply wp_dirlookup|].
  intros r k1 c1 Hc1 Hl. unfold lookup_post in Hl. change (Z.to_nat 0) with 0%nat in Hl. rewrite drop_0, Hf in Hl.
  destruct Hl as (ip & k2 & -> & (Ha & Hs2 & It2) & Hg).
  assert (fs_frame k k1 /\ (forall b, kview dev k1 b = kview dev k b)) as [Hfr Hv].
  { destruct Hg; (split; [apply fs_frame_updi, (av_frame _ _ _ _ Ha)|]); intros b; exact (av_view _ _ _ _ Ha b). }
  eapply wp_seq; [apply (wp_iput_keep c0 Hc0); [same_thread|]|].
  - assert (itab_ok k2) as Hit2.
    { destruct Hit as [I1 I2]. unfold geti in *. rewrite <- It2 in I1, I2. by split. }
    destruct Hg as [i (Hi & Hr & _)|i _ Hi Hr _]; rewrite geti_updi by done; cbn [i_ref set_iref set_iident i_valid]; [|by rewrite andb_false_r].
    zcase (i_ref (geti k2 i) + 1 =? 1) as E; [lia|done].
  - intros [] k3 c3 Hc3 ->. apply wp_ret. split; [done|]. split; [by apply fs_frame_updi|]. intros b. apply Hv.
Qed.

End Dir.
