(* ===== verification/FsPath.v ===== *)
(** * Names and paths (kernel/fs.c: namecmp, skipelem)

    [namecmp] is equality of the first DIRSIZ bytes of the strings, and [skipelem] splits
    off the first element of a path. *)
From S2P Require Import Prelude Bytes Memory Machine Riscv Kalloc Vm Sleeplock Bio BioProps BioSpec BioSteps.
From S2P Require Import Log LogProps LogLoops LogCrash LogCommit LogSpec Wp Txn Kernel Fs FsSteps FsAlloc FsFile FsBmap FsInode.
From S2P Require Import FsContent FsWrite FsTrunc FsTable FsDir.

(** ** Names *)

Lemma cstr_cons x l : cstr (x :: l) = if x =? 0 then [] else x :: cstr l.
Proof. done. Qed.

Lemma hd0_cstr l : hd0 l = 0 <-> cstr l = [].
Proof. destruct l as [|x l]; cbn; [done|]. zcase (x =? 0) as E; split; congruence. Qed.

Lemma cstr_tail l : hd0 l <> 0 -> cstr l = hd0 l :: cstr (tail l).
Proof. destruct l as [|x l]; cbn; [done|]. zcase (x =? 0) as E; done. Qed.

(** strncmp returns 0 exactly for strings with the same first [n] bytes. *)
Lemma strncmp_cstr n p q : bytes_strncmp n p q = 0 <-> take n (cstr p) = take n (cstr q).
Proof.
  revert p q. induction n as [|n IH]; intros p q; cbn [bytes_strncmp take]; [done|].
  unfold truth. zcase (hd0 p =? 0) as E1; cbn [negb andb].
  - rewrite E1. apply hd0_cstr in E1. rewrite E1. split.
    + intros E2. assert (hd0 q = 0) as ->%hd0_cstr by lia. done.
    + intros E2. destruct (decide (hd0 q = 0)) as [->|Hne]; [done|]. rewrite (cstr_tail q Hne) in E2. done.
  - rewrite (cstr_tail p E1). zcase (hd0 p =? hd0 q) as E2.
    + rewrite (cstr_tail q) by congruence. rewrite IH. cbn. rewrite E2. split; [by intros ->|by intros [=]].
    + split; [intros; lia|]. destruct (decide (hd0 q = 0)) as [E3%hd0_cstr|Hne]; [by rewrite E3|].
      rewrite (cstr_tail q Hne). cbn. by intros [=].
Qed.

Lemma cstr_strncpy n t : cstr (bytes_strncpy n t) = take n (cstr t).
Proof.
  revert t. induction n as [|n IH]; intros t; [done|]. cbn [bytes_strncpy]. zcase (hd0 t =? 0) as E.
  - apply hd0_cstr in E. rewrite E. done.
  - rewrite (cstr_tail t E). cbn. zcase (hd0 t =? 0) as E'; [done|]. by rewrite IH.
Qed.

(** The entry that [dirlink] writes has the name and the number. *)
Lemma de_new name inum :
  de_inum (new_dent name inum) = u16 inum /\ de_name (new_dent name inum) = bytes_strncpy (Z.to_nat DIRSIZ) name.
Proof.
  unfold new_dent, de_inum, de_name, dirent_bytes. split; [apply getn_le_bytes, u16_range|].
  unfold slice. change (Z.to_nat 2) with 2%nat.
  rewrite drop_app_ge by (by rewrite length_le_bytes). rewrite length_le_bytes. cbn [Nat.sub]. rewrite drop_0. apply take_ge. by rewrite length_strncpy.
Qed.

Lemma hit_new name inum : u16 inum <> 0 -> hit name (new_dent name inum) = true.
Proof.
  intros Hi. unfold hit. destruct (de_new name inum) as [-> ->]. apply andb_true_iff. split; [by apply negb_true_iff, Z.eqb_neq|].
  apply Z.eqb_eq. unfold namecmp. rewrite strncmp_cstr, cstr_strncpy, take_take. by rewrite Nat.min_id.
Qed.

(** Other names do not match it. *)
Lemma hit_new_other name name' inum :
  take 14 (cstr name') <> take 14 (cstr name) -> hit name' (new_dent name inum) = false.
Proof.
  intros Hne. unfold hit. destruct (de_new name inum) as [_ ->]. apply andb_false_iff. right. apply Z.eqb_neq. unfold namecmp.
  rewrite strncmp_cstr, cstr_strncpy, take_take. change (Z.to_nat DIRSIZ) with 14%nat. by rewrite Nat.min_id.
Qed.

(** ** Paths *)

(** The elements of a path: the parts between the slashes that are not empty. *)
Fixpoint elements_from (cur path : list Z) : list (list Z) :=
  match path with
  | [] => match cur with [] => [] | _ => [cur] end
  | x :: path' =>
      if x =? SLASH then (match cur with [] => [] | _ => [cur] end) ++ elements_from [] path'
      else elements_from (cur ++ [x]) path'
  end.

Definition elements (path : list Z) : list (list Z) := elements_from [] path.

Lemma elements_skip path : elements (skip_slashes path) = elements path.
Proof.
  induction path as [|x path IH]; [done|]. cbn [skip_slashes]. zcase (x =? SLASH) as E; [|done].
  rewrite IH. unfold elements. cbn. rewrite E. done.
Qed.

Lemma skip_slashes_hd path x rest : skip_slashes path = x :: rest -> x <> SLASH.
Proof.
  induction path as [|y path IH]; cbn [skip_slashes]; [done|]. zcase (y =? SLASH) as E; [apply IH|]. intros [= <- _]. done.
Qed.

Lemma take_elem_run path cur :
  let '(e, rest) := take_elem path in
  path = e ++ rest /\ Forall (fun x => x <> SLASH) e /\ (rest = [] \/ hd0 rest = SLASH) /\
  (cur ++ e <> [] -> elements_from cur path = (cur ++ e) :: elements rest).
Proof.
  revert cur. induction path as [|x path IH]; intros cur; cbn [take_elem].
  - split; [done|]. split; [constructor|]. split; [by left|]. rewrite app_nil_r. cbn. by destruct cur.
  - zcase (x =? SLASH) as E.
    + split; [done|]. split; [constructor|]. split; [right; done|]. rewrite app_nil_r. intros Hc. cbn [elements_from].
      unfold elements. cbn [elements_from]. zcase (x =? SLASH) as E'; [|done]. destruct cur; done.
    + specialize (IH (cur ++ [x])). destruct (take_elem path) as [e rest]. destruct IH as (-> & H2 & H3 & H4).
      split; [done|]. split; [by constructor|]. split; [done|]. intros _. cbn [elements_from]. zcase (x =? SLASH) as E'; [done|].
      rewrite H4, <- app_assoc; [done|]. rewrite <- app_assoc. by destruct cur.
Qed.

Lemma length_skip_slashes path : (length (skip_slashes path) <= length path)%nat.
Proof. induction path as [|x path IH]; cbn [skip_slashes length]; [done|]. destruct (_ =? _); cbn [length]; lia. Qed.

Lemma skip_slashes_suffix path : exists pre, path = pre ++ skip_slashes path.
Proof.
  induction path as [|x path [pre IH]]; [by exists []|]. cbn [skip_slashes]. destruct (_ =? _); [|by exists []].
  exists (x :: pre). cbn. by rewrite <- IH.
Qed.

Lemma hd0_skip path : hd0 (skip_slashes path) <> SLASH.
Proof.
  destruct (skip_slashes path) as [|x s] eqn:E; [done|]. cbn. by eapply skip_slashes_hd.
Qed.

Lemma cstr_app_nul e l : Forall (fun x => x <> 0) e -> cstr (e ++ 0 :: l) = e.
Proof. induction 1 as [|x e Hx He IH]; [done|]. cbn. zcase (x =? 0) as E; [done|]. by rewrite IH. Qed.

Lemma cstr_nonzero e : Forall (fun x => x <> 0) e -> cstr e = e.
Proof. induction 1 as [|x e Hx He IH]; [done|]. cbn. zcase (x =? 0) as E; [done|]. by rewrite IH. Qed.

(** The bytes that [skipelem] stores in [name]. *)
Lemma skipelem_name e name :
  Forall (fun x => x <> 0) e ->
  take 14 (cstr (if DIRSIZ <=? zlen e then take (Z.to_nat DIRSIZ) e else splice name 0 (e ++ [0]))) = take 14 e.
Proof.
  intros He. zcase (DIRSIZ <=? zlen e) as E.
  - rewrite cstr_nonzero by (by apply Forall_take). rewrite take_take. done.
  - unfold splice. change (Z.to_nat 0) with 0%nat. rewrite take_0, app_nil_l, <- app_assoc. cbn [app]. by rewrite cstr_app_nul.
Qed.

(** [skipelem] returns null for a path with no elements; otherwise it returns the rest of
    the path, and the first 14 bytes of the first element are in [name]. *)
Lemma skipelem_run path name :
  Forall (fun x => x <> 0) path ->
  match skipelem path name with
  | None => elements path = []
  | Some (rest, name') => exists e, elements path = e :: elements rest /\ take 14 (cstr name') = take 14 e /\
      e <> [] /\ hd0 rest <> SLASH /\ (length rest < length path)%nat
  end.
Proof.
  intros Hp. unfold skipelem. destruct (skip_slashes path) as [|x s] eqn:E.
  - by rewrite <- elements_skip, E.
  - pose proof (skip_slashes_hd _ _ _ E) as Hx. pose proof (take_elem_run (x :: s) []) as Hr.
    destruct (take_elem (x :: s)) as [e rest] eqn:Et. destruct Hr as (H1 & H2 & H3 & H4). cbn [app] in H4.
    assert (e <> []) as He.
    { intros ->. cbn [take_elem] in Et. zcase (x =? SLASH) as Ex; [done|]. by destruct (take_elem s). }
    assert (Forall (fun x => x <> 0) e) as Hz.
    { destruct (skip_slashes_suffix path) as [pre Hpre]. rewrite Hpre, E, H1 in Hp.
      apply Forall_app in Hp as [_ Hp]. by apply Forall_app in Hp as [Hp _]. }
    exists e. rewrite elements_skip. split; [by rewrite <- elements_skip, E; apply H4|]. split; [by apply skipelem_name|].
    split; [done|]. split; [apply hd0_skip|]. pose proof (length_skip_slashes path) as L1. pose proof (length_skip_slashes rest) as L2.
    rewrite E, H1, length_app in L1. destruct e; [done|]. cbn [length] in L1. lia.
Qed.
