(* ===== verification/FsSpec.v ===== *)
(** * The file system

    What the operations of kernel/fs.c do inside a transaction, as theorems about their
    runs, with a small file system on which each of them applies. *)
From S2P Require Import Prelude Bytes Memory Machine Riscv Kalloc Vm Sleeplock Bio BioProps BioSpec BioSteps.
From S2P Require Import Log LogProps LogLoops LogCrash LogCommit LogSpec Wp Txn Kernel Fs FsSteps FsAlloc FsFile FsBmap FsInode.
From S2P Require Import FsContent FsWrite FsTrunc FsTable FsDir FsPath.

(** ** A small file system

    The layout that mkfs makes for FSSIZE blocks: 30 blocks of log, the inodes from 32, the
    bitmap in 45 and the data from 46.  Block 46 holds a directory with two entries. *)

Definition demo_sb : superblock := Superblock 0x10203040 2000 1954 200 30 2 32 45.

Definition demo_dir : list Z := new_dent [46] 1 ++ new_dent [46; 46] 1 ++ replicate 992 0.
Definition demo_bitmap : list Z := replicate 5 255 ++ [127] ++ replicate 1018 0.
Definition demo_disk : blocks := <[45 := demo_bitmap]> (<[46 := demo_dir]> ∅).

(** The first entry of the inode table is the directory, locked by process 5. *)
Definition demo_inode (type nlink : Z) (lk : sleeplock) : inode :=
  Inode 1 1 1 lk 1 type 0 0 nlink 32 (46 :: replicate 12 0).
Definition demo_k (type nlink : Z) (lk : sleeplock) : kst :=
  K (PMem ∅ 0) (LState (idle_log 1) (fresh_bio demo_disk)) demo_sb (demo_inode type nlink lk :: replicate 49 inode0)
    (replicate 100 file0) ∅ (replicate 64 proc0) None 1 0 [].

Section Demo.
Context (type nlink : Z) (lk : sleeplock).
Abbreviation k := (demo_k type nlink lk).

Lemma demo_disk_ok : disk_ok demo_disk.
Proof using.
  intros b d. unfold demo_disk. rewrite !lookup_insert_Some, lookup_empty.
  intros [[_ <-]|[_ [[_ <-]|[_ ?]]]]; [done|done|done].
Qed.

Lemma demo_view b : kview 1 k b = blk demo_disk b.
Proof using.
  apply (content_uncached 1 ltac:(lia) _ _ _ (fresh_ok 1 demo_disk ltac:(lia) demo_disk_ok)). intros i Hi.
  change (l_bio (k_l k)) with (fresh_bio demo_disk). rewrite getb_fresh by done. intros []. done.
Qed.

Lemma demo_txn : ktxn 1 (c_pid user_ctx) k [].
Proof using.
  unfold ktxn. change (k_l k) with (LState (idle_log 1) (fresh_bio demo_disk)). split; cbn [l_bio l_log].
  - exists (reverse (seqZ 0 NBUF)). apply fresh_ok; [lia|apply demo_disk_ok].
  - split; cbn; done || lia.
  - split; [cbn; unfold LOGSIZE, MAXOPBLOCKS; lia|intros b Hb; by apply elem_of_nil in Hb..|apply NoDup_nil_2|cbn; lia].
  - intros i Hi. rewrite getb_fresh by done. done.
  - apply NoDup_nil_2.
  - intros i b Hb. by apply elem_of_nil in Hb.
  - intros i Hi _. by rewrite getb_fresh by done.
  - intros b Hb. by apply elem_of_nil in Hb.
  - intros b _. apply demo_view.
Qed.

Lemma demo_used b : used 1 k b = map_bit (blk demo_disk (BBLOCK b demo_sb)) (b mod BPB).
Proof using. unfold used. by rewrite demo_view. Qed.

Lemma demo_fs : fs_ok 1 k.
Proof using.
  split.
  - split; vm_compute; repeat split; congruence.
  - intros b Hb. rewrite demo_used. change (data_start (k_sb k)) with 46 in Hb.
    assert (forallb (fun b => map_bit (blk demo_disk (BBLOCK b demo_sb)) (b mod BPB)) (seqZ 0 46) = true) as H by (vm_compute; reflexivity).
    rewrite forallb_forall in H. apply H. apply list_elem_of_In, elem_of_seqZ. lia.
  - done.
Qed.

Lemma demo_addr bn : is_bn bn -> addr_of 1 k 0 bn = if bn =? 0 then 46 else 0.
Proof using.
  intros Hbn. unfold addr_of. change (i_addrs (geti k 0)) with (46 :: replicate 12 0). change (ind k 0) with 0.
  zcase (bn <? 12) as E; [|zcase (bn =? 0) as E'; [lia|done]]. zcase (bn =? 0) as E'; [by subst|].
  rewrite znth_cons_S by (unfold is_bn in Hbn; lia). apply znth_replicate. unfold is_bn in Hbn. lia.
Qed.

Lemma demo_good : good_addr 1 k 46.
Proof using. split; [by vm_compute|]. rewrite demo_used. by vm_compute. Qed.

Lemma demo_file : file_ok 1 k 0.
Proof using.
  split.
  - by vm_compute.
  - done.
  - done.
  - done.
  - intros bn Hbn. rewrite demo_addr by done. zcase (bn =? 0) as E; [intros _; apply demo_good|done].
  - intros bn bn' Hbn Hbn'. rewrite !demo_addr by done. zcase (bn =? 0) as E; zcase (bn' =? 0) as E'; done || congruence.
  - done.
Qed.

Lemma demo_full : file_full 1 k 0.
Proof using.
  split; [by vm_compute|]. change (i_size (geti k 0)) with 32. intros bn H1 H2. rewrite demo_addr by (unfold is_bn; lia).
  zcase (bn =? 0) as E; [done|lia].
Qed.

Lemma demo_may_write : -32768 <= type < 32768 -> -32768 <= nlink < 32768 -> may_write 1 k 0.
Proof using.
  intros Ht Hn. split; [apply demo_fs|]. split; [apply demo_file|]. split; [apply demo_full|]. split; [by vm_compute|].
  split; try done. apply (Forall_replicate (fun a => 0 <= a < 4294967296) 13 0). lia.
Qed.

Lemma demo_slot : exists j, slot k j.
Proof using. exists 1. by vm_compute. Qed.

End Demo.

Lemma user_ctx_idle : idle user_ctx.
Proof. split; [apply user_ctx_steady|done]. Qed.

(** ** The theorems *)

Section Theorems.
Context (dev : Z) (c : ctx) (k : kst).

(** C12: balloc, called in a transaction on a consistent file system, implements a block
    allocator: when some block is free it returns the first free one, marks it in the bitmap
    (and no other), records the block as zeroed, and leaves every other block; when none is
    free it returns 0 and changes no block. *)
Theorem balloc_refines H :
  dev <> 0 -> idle c -> ktxn dev (c_pid c) k H -> layout k -> meta_used dev k -> held_used dev k H -> room (k_l k) 2 ->
  exists r ws k', balloc dev c k = Done r (woken ws c) k' /\ ktxn dev (c_pid c) k' H /\
    ((r = 0 /\ (forall x, 0 <= x < sb_size (k_sb k) -> used dev k x = true) /\ forall b, kview dev k' b = kview dev k b) \/
     (data_start (k_sb k) <= r < sb_size (k_sb k) /\ used dev k r = false /\ (forall x, 0 <= x < r -> used dev k x = true) /\
      (forall x, 0 <= x < sb_size (k_sb k) -> used dev k' x = (x =? r) || used dev k x) /\
      kview dev k' r = zeros /\ (forall b, b <> r -> b <> BBLOCK r (k_sb k) -> kview dev k' b = kview dev k b))).
Proof using.
  intros Hdev Hc Hs Hly Hm Hh Hr.
  destruct (wp_inv _ _ _ _ (wp_balloc dev Hdev c Hc c k H (same_ctx_refl c) Hs Hly Hm Hh Hr)) as (r & ws & k' & R & St & Hs' & _).
  exists r, ws, k'. split; [exact R|]. split; [done|]. inversion St as [k1 Hall A|r' v k1 Hd Hf Hb A Hu]; subst.
  - left. split; [done|]. split; [done|]. apply (av_view _ _ _ _ A).
  - right. do 4 (split; [done|]). split; [rewrite (av_view _ _ _ _ A); cbn; by rewrite Z.eqb_refl|].
    intros b H1 H2. rewrite (av_view _ _ _ _ A). apply over_notin. cbn. rewrite !not_elem_of_cons.
    split; [done|]. split; [done|apply not_elem_of_nil].
Qed.

(** bfree of a marked block clears its bit and changes nothing else; bfree of a block
    that is not marked stops the kernel. *)
Theorem bfree_correct b :
  dev <> 0 -> idle c -> ktxn dev (c_pid c) k [] -> layout k -> meta_used dev k -> room (k_l k) 1 -> 0 <= b < sb_size (k_sb k) ->
  if used dev k b then
    exists ws k', bfree dev b c k = Done tt (woken ws c) k' /\ ktxn dev (c_pid c) k' [] /\
      (forall x, 0 <= x < sb_size (k_sb k) -> used dev k' x = negb (x =? b) && used dev k x) /\
      (forall x, x <> BBLOCK b (k_sb k) -> kview dev k' x = kview dev k x)
  else bfree dev b c k = Panic "freeing free block".
Proof using.
  intros Hdev Hc Hs Hly Hm Hr Hb. pose proof (held_nil dev k) as Hh. destruct (used dev k b) eqn:Hu.
  - destruct (wp_inv _ _ _ _ (wp_bfree dev Hdev c Hc c k [] b (same_ctx_refl c) Hs Hly Hm Hh Hr Hb Hu))
      as ([] & ws & k' & R & (v & A) & Hu' & Hs' & _).
    exists ws, k'. split; [exact R|]. split; [done|]. split; [done|]. intros x Hx. rewrite (view1 _ _ _ _ _ _ A). by destruct (decide _).
  - by apply (bfree_free dev Hdev c Hc c k [] b (same_ctx_refl c)).
Qed.

(** bmap of a block of a file returns the disk block that holds it, adding a zeroed block
    (and an indirect block) where there is none, and 0 only when the disk is full; the content
    of the file, the blocks of the other files and the inodes on the disk do not change. *)
Theorem bmap_correct ip bn :
  dev <> 0 -> idle c -> ktxn dev (c_pid c) k [] -> fs_ok dev k -> file_ok dev k ip -> fits k ip 2 -> is_bn bn ->
  exists a ws k', bmap ip bn c k = Done a (woken ws c) k' /\ ktxn dev (c_pid c) k' [] /\ fs_ok dev k' /\ file_ok dev k' ip /\
    a = addr_of dev k' ip bn /\ (a = 0 -> disk_full dev k') /\
    (forall j, is_bn j -> fblock dev k' ip j = fblock dev k ip j) /\
    (forall b, kept dev k ip b -> kview dev k' b = kview dev k b).
Proof using.
  intros Hdev Hc Hs Hfs Hf Hfit Hbn.
  destruct (wp_inv _ _ _ _ (wp_bmap dev Hdev c Hc c k ip bn (same_ctx_refl c) Hs Hfs Hf Hfit Hbn)) as (a & ws & k' & R & Hm & Hs' & Ha & Hfull & _).
  exists a, ws, k'. split; [exact R|]. split; [done|]. split; [apply Hm|]. split; [apply Hm|]. split; [done|]. split; [done|].
  split; apply Hm.
Qed.


(** C11: what writei wrote, readi reads back: if writei of [n] bytes at [off] returns [n], then
    readi of the same range returns [n] and the bytes written. *)
Theorem writei_readi_roundtrip ip src off n m c' k' :
  dev <> 0 -> idle c -> ktxn dev (c_pid c) k [] -> may_write dev k ip ->
  0 <= off <= i_size (geti k ip) -> 0 <= n -> off + n <= 268 * 1024 -> n = zlen src -> fits k ip (chunks off n + 1) ->
  writei ip (KSrc src) off n c k = Done m c' k' -> m = n -> lg_n (klog k') + 1 < 30 ->
  exists c2 k2, readi ip None off n c' k' = Done (n, src) c2 k2.
Proof using.
  intros Hdev Hc Hs Hmay Ho Hn He Hsrc Hfit Hrun -> Hlg.
  destruct (wp_inv _ _ _ _ (wp_writei dev Hdev c Hc c k ip src off n (same_ctx_refl c) Hs Hmay Ho Hn He ltac:(lia) Hfit))
    as (m & ws & k1 & R & Hm & Hend & Hw & _).
  rewrite R in Hrun. injection Hrun as -> <- <-. rewrite slice_fits in Hw by done.
  pose proof (wr_txn _ _ _ _ _ _ _ Hw) as Hs1. destruct (wr_inode _ _ _ _ _ _ _ Hw) as [a Ei].
  assert (lg_n (klog k1) = Z.of_nat (length (tx (klog k1)))) as El by by eapply lg_n_length.
  assert (wp (readi ip None off n) (woken ws c) k1 (fun r _ => r = (n, src))) as W.
  { eapply wp_mono; [apply (wp_readi dev Hdev c Hc (woken ws c) k1 ip off n); [apply same_ctx_woken|done|apply Hw|apply Hw|apply Hw|lia|lia|lia]|].
    intros r k2 [-> _]. assert (read_count (i_size (geti k1 ip)) off n = n) as ->.
    { rewrite Ei. cbn [i_size set_isize]. unfold read_count. destruct Hmay as (_ & _ & Hff & _). pose proof (ff_size _ _ _ Hff).
      zcase (Z.max (i_size (geti k ip)) (off + zlen src) <? off) as E1; [lia|]. zcase (4294967296 <=? off + n) as E2; [lia|]. cbn [orb]. lia. }
    f_equal. transitivity (slice src 0 n); [|by apply slice_fits]. rewrite slice_znth by lia. unfold frange.
    rewrite <- (Z.add_0_r off) at 1. rewrite <- fmap_add_seqZ, <- list_fmap_compose. apply list_fmap_ext.
    intros i x [-> Hx]%lookup_seqZ. rewrite Z.add_0_l. cbn. rewrite (wr_byte _ _ _ _ _ _ _ Hw) by lia.
    zcase (off <=? off + Z.of_nat i) as E1; [|lia]. zcase (off + Z.of_nat i <? off + zlen src) as E2; [|lia]. cbn [andb]. f_equal. lia. }
  apply wp_inv in W as (r & ws2 & k2 & R2 & ->). eauto.
Qed.

(** C31: itrunc gives back exactly the blocks of the file: afterwards a block is marked if and
    only if it was marked before and does not belong to the file, the inode is empty in memory
    and on the disk, and the other inodes and the data blocks are as before. *)
Theorem itrunc_correct ip :
  dev <> 0 -> idle c -> ktxn dev (c_pid c) k [] -> may_write dev k ip -> froom k ->
  exists ws k', itrunc ip c k = Done tt (woken ws c) k' /\ truncated dev c k ip k'.
Proof using.
  intros Hdev Hc Hs Hmay Hr.
  destruct (wp_inv _ _ _ _ (wp_itrunc dev Hdev c Hc c k ip (same_ctx_refl c) Hs Hmay Hr)) as ([] & ws & k' & R & Ht). eauto.
Qed.

(** the last iput of an inode with no links frees it: its blocks are back in the bitmap,
    its type on the disk is 0, and its entry of the table is free and unlocked. *)
Theorem iput_frees ip :
  dev <> 0 -> idle c -> ktxn dev (c_pid c) k [] -> may_write dev k ip ->
  i_ref (geti k ip) = 1 -> i_valid (geti k ip) = 1 -> i_nlink (geti k ip) = 0 -> sl_locked (i_lock (geti k ip)) = 0 ->
  1 <= lg_outstanding (klog k) -> lg_n (klog k) + miss k (sb_bmapstart (k_sb k)) + 2 < LOGSIZE ->
  lg_n (klog k) + miss k (sb_bmapstart (k_sb k)) + 2 <= lg_size (klog k) - 1 ->
  exists ws k', iput ip c k = Done tt (woken ws c) k' /\ inode_freed c dev k ip k'.
Proof using.
  intros Hdev Hc Hs Hmay Hr Hv Hn Hl Ho R1 R2.
  destruct (wp_inv _ _ _ _ (wp_iput_last c Hc dev Hdev c k ip (same_ctx_refl c) Hs Hmay Hr Hv Hn Hl Ho R1 R2)) as ([] & ws & k' & R & Ht). eauto.
Qed.

(** C32: the inode table holds at most one entry per inode, and iget keeps it so: it returns the
    entry of the inode with one reference more, or the first free entry, and stops the kernel
    only when neither exists. *)
Theorem iget_invariant inum :
  idle c -> itab_ok k ->
  (exists ip ws k', iget dev inum c k = Done ip (woken ws c) k' /\ igot k dev inum ip k' /\ itab_ok k' /\ caches k' dev inum ip) \/
  (iget dev inum c k = Panic "iget: no inodes" /\ (forall j, ~ caches k dev inum j) /\ forall j, ~ slot k j).
Proof using.
  intros Hc Hit. destruct (iget_dec k dev inum) as [Hex|[Hno Hfull]].
  - left. destruct (wp_inv _ _ _ _ (wp_iget c Hc c k dev inum (same_ctx_refl c) Hex)) as (ip & ws & k' & R & Hg).
    destruct (itab_igot k dev inum ip k' Hit Hg). exists ip, ws, k'. done.
  - right. split; [by apply iget_none|done].
Qed.

(** iupdate and ilock are inverse on the fields of an inode: after iupdate, loading the
    inode from the disk gives the fields of the inode in memory, and the other inodes on the
    disk load as before. *)
Theorem iupdate_roundtrip ip :
  dev <> 0 -> idle c -> ktxn dev (c_pid c) k [] -> layout k -> room (k_l k) 1 ->
  i_dev (geti k ip) = dev -> 0 <= i_inum (geti k ip) < sb_ninodes (k_sb k) -> inode_fits (geti k ip) ->
  exists ws k', iupdate ip c k = Done tt (woken ws c) k' /\
    (forall i, body (load_dinode (kview dev k' (IBLOCK (i_inum (geti k ip)) (k_sb k'))) (dinode_off (i_inum (geti k ip))) i) = body (geti k ip)) /\
    (forall n, 0 <= n < sb_ninodes (k_sb k) -> n <> i_inum (geti k ip) -> body (disk_inode dev k' n) = body (disk_inode dev k n)).
Proof using.
  intros Hdev Hc Hs Hly Hr Hd Hi Hf.
  destruct (wp_inv _ _ _ _ (wp_iupdate dev Hdev c Hc c k ip (same_ctx_refl c) Hs Hly Hr Hd Hi (if_addrs _ Hf))) as ([] & ws & k' & R & Hw & _).
  exists ws, k'. split; [exact R|]. split; [|apply Hw]. intros i. exact (wi_self _ _ _ _ _ Hw Hf).
Qed.

(** C30: dirlookup finds the first entry of the directory that is in use and has the name: it
    returns its inode, from iget, and its offset, and null exactly when there is no such
    entry; no block changes. *)
Theorem dirlookup_correct dp name :
  dev <> 0 -> idle c -> dir_ok dev c k dp -> (exists j, slot k j) ->
  exists r ws k', dirlookup dp name c k = Done r (woken ws c) k' /\
    match dir_find name (dents dev k dp) with
    | Some (j, de) => exists ip k1, r = Some (ip, 16 * Z.of_nat j) /\ read_only dev c k k1 /\ igot k1 dev (de_inum de) ip k'
    | None => r = None /\ read_only dev c k k'
    end.
Proof using.
  intros Hdev Hc Hd Hslot.
  destruct (wp_inv _ _ _ _ (wp_dirlookup dev Hdev c Hc c k dp name (same_ctx_refl c) Hd Hslot)) as (r & ws & k' & R & Hl).
  exists r, ws, k'. split; [exact R|]. unfold lookup_post in Hl. change (Z.to_nat 0) with 0%nat in Hl. rewrite drop_0 in Hl.
  by destruct (dir_find name (dents dev k dp)) as [[]|].
Qed.

(** C29: dirlink of a new name puts the entry in the first empty place of the directory, or
    fails on a full disk; afterwards a lookup of the name finds the inode, and the lookups of
    all other names find what they found before. *)
Theorem dirlink_correct dp name inum :
  dev <> 0 -> idle c -> dir_ok dev c k dp -> may_write dev k dp -> (exists j, slot k j) ->
  dir_find name (dents dev k dp) = None -> i_size (geti k dp) + 16 <= 268 * 1024 -> fits k dp 2 -> 0 < inum < 65536 ->
  exists r ws k', dirlink dp name inum c k = Done r (woken ws c) k' /\
    ((r = 0 /\ dents dev k' dp = dir_insert (new_dent name inum) (dents dev k dp) /\
      (exists j de, dir_find name (dents dev k' dp) = Some (j, de) /\ de_inum de = inum) /\
      (forall name', take 14 (cstr name') <> take 14 (cstr name) ->
         dir_find name' (dents dev k' dp) = dir_find name' (dents dev k dp))) \/
     (r = -1 /\ disk_full dev k')).
Proof using.
  intros Hdev Hc Hd Hmay Hslot Hno Hmax Hfit Hinum.
  destruct (wp_inv _ _ _ _ (wp_dirlink dev Hdev c Hc c k dp name inum (same_ctx_refl c) Hd Hmay Hslot Hno Hmax Hfit)) as (r & ws & k' & R & Hl).
  exists r, ws, k'. split; [exact R|]. destruct Hl as [(-> & He & _)|Hl]; [left|by right].
  assert (u16 inum = inum) as Eu by (unfold u16; apply Z.mod_small; lia).
  split; [done|]. split; [done|]. rewrite He. split.
  - destruct (dir_find_insert name (new_dent name inum) (dents dev k dp) Hno) as [j Hj]; [apply hit_new; lia|].
    exists j, (new_dent name inum). split; [done|]. by rewrite (proj1 (de_new name inum)).
  - intros name' Hne. by apply dir_find_other, hit_new_other.
Qed.

End Theorems.

(** skipelem agrees with splitting the path at its slashes: it returns null exactly when
    the path has no elements, and otherwise the rest of the path, which does not begin with a
    slash and is shorter, and the first 14 bytes of the first element in [name]. *)
Theorem skipelem_correct path name :
  Forall (fun x => x <> 0) path ->
  match skipelem path name with
  | None => elements path = []
  | Some (rest, name') => exists e, elements path = e :: elements rest /\ take 14 (cstr name') = take 14 e /\
      e <> [] /\ hd0 rest <> SLASH /\ (length rest < length path)%nat
  end.
Proof. apply skipelem_run. Qed.

(** ** Witnesses *)

Lemma balloc_refines_witness : exists ws k',
  balloc 1 user_ctx (demo_k T_DIR 1 sl_free) = Done 47 (woken ws user_ctx) k' /\ used 1 k' 47 = true.
Proof.
  destruct (balloc_refines 1 user_ctx (demo_k T_DIR 1 sl_free) []) as (r & ws & k' & R & _ & [(_ & Hall & _)|(Hr & Hf & Hb & Hu & _)]).
  - lia.
  - apply user_ctx_idle.
  - apply demo_txn.
  - apply demo_fs.
  - apply demo_fs.
  - apply held_nil.
  - by vm_compute.
  - specialize (Hall 47 ltac:(cbn; lia)). rewrite demo_used in Hall. vm_compute in Hall. discriminate Hall.
  - assert (r = 47) as ->.
    { clear R. destruct (Z.lt_trichotomy r 47) as [Hlt|[->|Hgt]]; [exfalso|reflexivity|exfalso].
      - change (data_start (k_sb (demo_k T_DIR 1 sl_free))) with 46 in Hr. assert (r = 46) as -> by lia.
        rewrite demo_used in Hf. vm_compute in Hf. discriminate Hf.
      - specialize (Hb 47 ltac:(lia)). rewrite demo_used in Hb. vm_compute in Hb. discriminate Hb. }
    exists ws, k'. split; [exact R|]. clear R. rewrite Hu; [reflexivity|cbn; lia].
Defined.

Lemma bfree_correct_witness : exists ws k', bfree 1 46 user_ctx (demo_k T_DIR 1 sl_free) = Done tt (woken ws user_ctx) k'.
Proof.
  pose proof (bfree_correct 1 user_ctx (demo_k T_DIR 1 sl_free) 46 ltac:(lia) user_ctx_idle (demo_txn _ _ _)
    (fs_layout _ _ (demo_fs _ _ _)) (fs_meta _ _ (demo_fs _ _ _)) ltac:(by vm_compute) ltac:(by vm_compute)) as H.
  rewrite demo_used in H. destruct H as (ws & k' & R & _). exists ws, k'. exact R.
Defined.

Lemma bmap_correct_witness : exists a ws k',
  bmap 0 1 user_ctx (demo_k T_FILE 1 sl_free) = Done a (woken ws user_ctx) k' /\ a = addr_of 1 k' 0 1.
Proof.
  destruct (bmap_correct 1 user_ctx (demo_k T_FILE 1 sl_free) 0 1 ltac:(lia) user_ctx_idle (demo_txn _ _ _) (demo_fs _ _ _)
    (demo_file _ _ _) ltac:(by vm_compute) ltac:(by vm_compute)) as (a & ws & k' & R & _ & _ & _ & Ha & _).
  exists a, ws, k'. split; [exact R|exact Ha].
Defined.


(** A write of two bytes at the end of the directory. *)
Lemma demo_write : let k := demo_k T_FILE 1 sl_free in
  match writei 0 (KSrc [104; 105]) 30 2 user_ctx k with Done m _ k' => (m =? 2) && (lg_n (klog k') =? 2) | _ => false end = true.
Proof. vm_compute. reflexivity. Qed.

Lemma demo_write_fits : let k := demo_k T_FILE 1 sl_free in
  0 <= 30 <= i_size (geti k 0) /\ 2 = zlen [104; 105] /\ fits k 0 (chunks 30 2 + 1) /\ may_write 1 k 0.
Proof.
  split; [by vm_compute|]. split; [done|]. split; [by vm_compute|]. apply demo_may_write; unfold T_FILE; lia.
Qed.

Lemma writei_readi_roundtrip_witness : exists k' c' c2 k2,
  writei 0 (KSrc [104; 105]) 30 2 user_ctx (demo_k T_FILE 1 sl_free) = Done 2 c' k' /\
  readi 0 None 30 2 c' k' = Done (2, [104; 105]) c2 k2.
Proof.
  destruct demo_write_fits as (F1 & F2 & F3 & F4). pose proof demo_write as W. cbv zeta in W.
  assert (forall m c' k', writei 0 (KSrc [104; 105]) 30 2 user_ctx (demo_k T_FILE 1 sl_free) = Done m c' k' ->
    m = 2 -> lg_n (klog k') + 1 < 30 -> exists c2 k2, readi 0 None 30 2 c' k' = Done (2, [104; 105]) c2 k2) as H.
  { intros m c' k'. apply (writei_readi_roundtrip 1 user_ctx _ 0 [104; 105] 30 2 m c' k' ltac:(lia) user_ctx_idle (demo_txn _ _ _) F4 F1
      ltac:(lia) ltac:(lia) F2 F3). }
  destruct (writei 0 (KSrc [104; 105]) 30 2 user_ctx (demo_k T_FILE 1 sl_free)) as [m c' k'| | |]; [|discriminate W..].
  apply andb_true_iff in W as [E1%Z.eqb_eq E2%Z.eqb_eq].
  destruct (H m c' k' eq_refl E1 ltac:(rewrite E2; lia)) as (c2 & k2 & R2). exists k', c', c2, k2. rewrite E1. split; [reflexivity|exact R2].
Defined.

Lemma itrunc_correct_witness : exists ws k', itrunc 0 user_ctx (demo_k T_FILE 1 sl_free) = Done tt (woken ws user_ctx) k' /\
  i_size (geti k' 0) = 0.
Proof.
  destruct (itrunc_correct 1 user_ctx (demo_k T_FILE 1 sl_free) 0 ltac:(lia) user_ctx_idle (demo_txn _ _ _)
    (demo_may_write T_FILE 1 sl_free ltac:(unfold T_FILE; lia) ltac:(lia)) ltac:(by vm_compute)) as (ws & k' & R & Ht).
  exists ws, k'. split; [exact R|]. rewrite (tr_inode _ _ _ _ _ Ht). reflexivity.
Defined.

Lemma iput_frees_witness : exists ws k', iput 0 user_ctx (demo_k T_FILE 0 sl_free) = Done tt (woken ws user_ctx) k' /\
  i_ref (geti k' 0) = 0.
Proof.
  destruct (iput_frees 1 user_ctx (demo_k T_FILE 0 sl_free) 0 ltac:(lia) user_ctx_idle (demo_txn _ _ _)
    (demo_may_write T_FILE 0 sl_free ltac:(unfold T_FILE; lia) ltac:(lia)) eq_refl eq_refl eq_refl eq_refl
    ltac:(by vm_compute) ltac:(by vm_compute) ltac:(by vm_compute)) as (ws & k' & R & Ht).
  exists ws, k'. split; [exact R|]. rewrite (ir_entry _ _ _ _ _ Ht). reflexivity.
Defined.

Lemma demo_itab : itab_ok (demo_k T_DIR 1 sl_free).
Proof.
  set (k := demo_k T_DIR 1 sl_free). assert (forall i, i <> 0 -> i_ref (geti k i) = 0) as H0.
  { intros i Hi. unfold geti. destruct (decide (0 < i)) as [Hp|Hp]; [|by rewrite znth_neg by lia].
    change (k_itab k) with (demo_inode T_DIR 1 sl_free :: replicate 49 inode0). rewrite znth_cons_S by lia.
    destruct (decide (i - 1 < 49)); [by rewrite znth_replicate by lia|]. rewrite znth_overflow; [done|]. unfold zlen. rewrite length_replicate. lia. }
  split.
  - intros i _. destruct (decide (i = 0)) as [->|Hi]; [by vm_compute|]. by rewrite H0.
  - intros i j _ _ Hi Hj _ _. destruct (decide (i = 0)) as [->|Hi']; [|rewrite H0 in Hi by done; lia].
    destruct (decide (j = 0)) as [->|Hj']; [done|rewrite H0 in Hj by done; lia].
Qed.

Lemma iget_invariant_witness : exists ip ws k', iget 1 1 user_ctx (demo_k T_DIR 1 sl_free) = Done ip (woken ws user_ctx) k' /\ itab_ok k'.
Proof.
  destruct (iget_invariant 1 user_ctx (demo_k T_DIR 1 sl_free) 1 user_ctx_idle demo_itab) as [(ip & ws & k' & R & _ & H & _)|(_ & _ & H)].
  - exists ip, ws, k'. split; [exact R|exact H].
  - exfalso. apply (H 1). by vm_compute.
Defined.

Lemma demo_inode_fits : inode_fits (demo_inode T_DIR 1 sl_free).
Proof.
  split; cbn [i_type i_major i_minor i_nlink i_size i_addrs demo_inode]; [unfold T_DIR; lia|lia|lia|lia|lia|reflexivity|].
  apply Forall_cons. split; [lia|]. apply (Forall_replicate (fun a => 0 <= a < 4294967296) 12 0). lia.
Qed.

Lemma iupdate_roundtrip_witness : exists ws k', iupdate 0 user_ctx (demo_k T_DIR 1 sl_free) = Done tt (woken ws user_ctx) k' /\
  body (disk_inode 1 k' 1) = body (demo_inode T_DIR 1 sl_free).
Proof.
  destruct (iupdate_roundtrip 1 user_ctx (demo_k T_DIR 1 sl_free) 0 ltac:(lia) user_ctx_idle (demo_txn _ _ _)
    (fs_layout _ _ (demo_fs _ _ _)) ltac:(by vm_compute) eq_refl ltac:(by vm_compute) demo_inode_fits) as (ws & k' & R & H & _).
  exists ws, k'. split; [exact R|exact (H inode0)].
Defined.

Lemma demo_dir_ok : dir_ok 1 user_ctx (demo_k T_DIR 1 sl_free) 0.
Proof.
  split; [apply demo_fs|apply demo_file|apply demo_full|apply demo_txn|vm_compute; lia|done|done].
Qed.

Lemma dirlookup_correct_witness : exists ip ws k',
  dirlookup 0 [46] user_ctx (demo_k T_DIR 1 sl_free) = Done (Some (ip, 0)) (woken ws user_ctx) k'.
Proof.
  destruct (dirlookup_correct 1 user_ctx (demo_k T_DIR 1 sl_free) 0 [46] ltac:(lia) user_ctx_idle demo_dir_ok (demo_slot _ _ _))
    as (r & ws & k' & R & H).
  assert (exists de, dir_find [46] (dents 1 (demo_k T_DIR 1 sl_free) 0) = Some (0%nat, de)) as [de E].
  { eexists. vm_compute. reflexivity. }
  rewrite E in H. destruct H as (ip & k1 & -> & _). exists ip, ws, k'. exact R.
Defined.

Lemma dirlink_correct_witness : exists r ws k',
  dirlink 0 [120] 7 user_ctx (demo_k T_DIR 1 sl_free) = Done r (woken ws user_ctx) k'.
Proof.
  destruct (dirlink_correct 1 user_ctx (demo_k T_DIR 1 sl_free) 0 [120] 7 ltac:(lia) user_ctx_idle demo_dir_ok
    (demo_may_write T_DIR 1 sl_free ltac:(unfold T_DIR; lia) ltac:(lia)) (demo_slot _ _ _) ltac:(by vm_compute)
    ltac:(by vm_compute) ltac:(by vm_compute) ltac:(lia)) as (r & ws & k' & R & _).
  exists r, ws, k'. exact R.
Defined.

(** [a//bb/c] *)
Lemma skipelem_correct_witness : skipelem [97; 47; 47; 98; 98; 47; 99] name_buf <> None /\
  exists e, elements [97; 47; 47; 98; 98; 47; 99] = e :: elements [98; 98; 47; 99].
Proof.
  split; [by vm_compute|].
  assert (Forall (fun x => x <> 0) [97; 47; 47; 98; 98; 47; 99]) as H by (by repeat constructor).
  destruct (skipelem_correct [97; 47; 47; 98; 98; 47; 99] name_buf H) as (e & E & _). exists e. exact E.
Defined.
