(* ===== verification/Pipe.v ===== *)
(** * Pipes and open files (kernel/pipe.c, kernel/file.c): the operations *)
From S2P Require Import Prelude Bytes Memory Machine Kalloc Vm Bio Log Kernel Fs.

Definition set_pdata (x : list Z) (p : pipe) : pipe := Pipe x (pi_nread p) (pi_nwrite p) (pi_readopen p) (pi_writeopen p).
Definition set_nread (x : Z) (p : pipe) : pipe := Pipe (pi_data p) x (pi_nwrite p) (pi_readopen p) (pi_writeopen p).
Definition set_nwrite (x : Z) (p : pipe) : pipe := Pipe (pi_data p) (pi_nread p) x (pi_readopen p) (pi_writeopen p).
Definition set_readopen (x : Z) (p : pipe) : pipe := Pipe (pi_data p) (pi_nread p) (pi_nwrite p) x (pi_writeopen p).
Definition set_writeopen (x : Z) (p : pipe) : pipe := Pipe (pi_data p) (pi_nread p) (pi_nwrite p) (pi_readopen p) x.

(** kernel/proc.c, killed *)
Definition killed (p : Z) : M kst Z :=
  acquire (LProc p) ;;
  k <- pget p p_killed ;;
  release (LProc p) ;;
  ret k.

Section Pipe.
Context {image : KernelImage}.

(** The pipe's page goes back to the allocator; the structure in it is gone. *)
Definition pipe_free (pi : Z) : M kst unit :=
  mem_ (kfree pi) ;;
  modify (fun s => set_pipes (delete pi (k_pipes s)) s).

Definition pipeclose (pi writable : Z) : M kst unit :=
  acquire (LPipe pi) ;;
  (if truth writable then
     piset pi (set_writeopen 0) ;;
     wakeup (ChPipeRead pi)
   else
     piset pi (set_readopen 0) ;;
     wakeup (ChPipeWrite pi)) ;;
  p <- gets (fun s => getpi s pi) ;;
  if (pi_readopen p =? 0) && (pi_writeopen p =? 0) then
    release (LPipe pi) ;;
    pipe_free pi
  else release (LPipe pi).

(** The loop of [pipewrite]: [None] when it returns -1 at once. *)
Fixpoint pipewrite_loop (k : nat) (pi addr n i : Z) : M kst (option Z) :=
  if i <? n then
    match k with
    | O => diverge
    | S k' =>
        pr <- asks c_proc ;;
        ro <- piget pi pi_readopen ;;
        dead <- (if ro =? 0 then ret 1 else killed pr) ;;
        if truth dead then
          release (LPipe pi) ;;
          ret None
        else
          p <- gets (fun s => getpi s pi) ;;
          if pi_nwrite p =? u32 (pi_nread p + PIPESIZE) then
            wakeup (ChPipeRead pi) ;;
            sleep (ChPipeWrite pi) (LPipe pi) ;;
            pipewrite_loop k' pi addr n i
          else
            pt <- pget pr p_pagetable ;;
            r <- mem_ (copyin pt (u64 (addr + i)) 1) ;;
            let '(r, ch) := (r : Z * list Z) in
            if r =? -1 then ret (Some i) else
            piset pi (fun p => set_nwrite (u32 (pi_nwrite p + 1))
                                 (set_pdata (zupd (pi_data p) (pi_nwrite p mod PIPESIZE) (hd0 ch)) p)) ;;
            pipewrite_loop k' pi addr n (i + 1)
    end
  else ret (Some i).

(** At most [n] bytes and [c_fuel] wake-ups. *)
Definition pipewrite (pi addr n : Z) : M kst Z :=
  fuel <- asks c_fuel ;;
  acquire (LPipe pi) ;;
  r <- pipewrite_loop (Z.to_nat n + fuel) pi addr n 0 ;;
  match r with
  | None => ret (-1)
  | Some i =>
      wakeup (ChPipeRead pi) ;;
      release (LPipe pi) ;;
      ret i
  end.

(** Waits for data or for the writers to close; false when killed. *)
Fixpoint piperead_wait (k : nat) (pi : Z) : M kst bool :=
  p <- gets (fun s => getpi s pi) ;;
  if (pi_nread p =? pi_nwrite p) && truth (pi_writeopen p) then
    match k with
    | O => diverge
    | S k' =>
        pr <- asks c_proc ;;
        dead <- killed pr ;;
        if truth dead then
          release (LPipe pi) ;;
          ret false
        else
          sleep (ChPipeRead pi) (LPipe pi) ;;
          piperead_wait k' pi
    end
  else ret true.

Fixpoint piperead_loop (k : nat) (pi addr i : Z) : M kst Z :=
  match k with
  | O => ret i
  | S k' =>
      p <- gets (fun s => getpi s pi) ;;
      if pi_nread p =? pi_nwrite p then ret i else
      piset pi (set_nread (u32 (pi_nread p + 1))) ;;
      pr <- asks c_proc ;;
      pt <- pget pr p_pagetable ;;
      r <- mem_ (copyout pt (u64 (addr + i)) [znth 0 (pi_data p) (pi_nread p mod PIPESIZE)]) ;;
      if r =? -1 then ret i else piperead_loop k' pi addr (i + 1)
  end.

Definition piperead (pi addr n : Z) : M kst Z :=
  fuel <- asks c_fuel ;;
  acquire (LPipe pi) ;;
  ok <- piperead_wait fuel pi ;;
  if negb ok then ret (-1) else
  i <- piperead_loop (Z.to_nat n) pi addr 0 ;;
  wakeup (ChPipeWrite pi) ;;
  release (LPipe pi) ;;
  ret i.

End Pipe.

(** ** Open files *)

Definition set_ftype (x : fdtype) (f : file) : file :=
  File x (f_ref f) (f_readable f) (f_writable f) (f_pipe f) (f_ip f) (f_off f) (f_major f).
Definition set_fref (x : Z) (f : file) : file :=
  File (f_type f) x (f_readable f) (f_writable f) (f_pipe f) (f_ip f) (f_off f) (f_major f).
Definition set_fmode (r w : Z) (f : file) : file :=
  File (f_type f) (f_ref f) r w (f_pipe f) (f_ip f) (f_off f) (f_major f).
Definition set_fpipe (x : Z) (f : file) : file :=
  File (f_type f) (f_ref f) (f_readable f) (f_writable f) x (f_ip f) (f_off f) (f_major f).
Definition set_fip (x : Z) (f : file) : file :=
  File (f_type f) (f_ref f) (f_readable f) (f_writable f) (f_pipe f) x (f_off f) (f_major f).
Definition set_foff (x : Z) (f : file) : file :=
  File (f_type f) (f_ref f) (f_readable f) (f_writable f) (f_pipe f) (f_ip f) x (f_major f).
Definition set_fmajor (x : Z) (f : file) : file :=
  File (f_type f) (f_ref f) (f_readable f) (f_writable f) (f_pipe f) (f_ip f) (f_off f) x.

(** The device switch: the read and write routines a device has registered, called with
    [user = 1], a user address and a count. *)
Class DevSw := {
  devsw_read : Z -> option (Z -> Z -> M kst Z);
  devsw_write : Z -> option (Z -> Z -> M kst Z);
}.

(** Bytes of an uninitialised local variable. *)
Class StackJunk := { stack_junk : nat -> list Z; stack_junk_length : forall n, length (stack_junk n) = n }.

Definition fileinit : M kst unit := initlock LFtable.

(** The first entry with no references. *)
Fixpoint filealloc_scan (t : list file) (fp : Z) : option Z :=
  match t with
  | [] => None
  | f :: t' => if f_ref f =? 0 then Some fp else filealloc_scan t' (fp + 1)
  end.

Definition filealloc : M kst (option Z) :=
  acquire LFtable ;;
  t <- gets k_ftab ;;
  match filealloc_scan t 0 with
  | Some f =>
      fset f (set_fref 1) ;;
      release LFtable ;;
      ret (Some f)
  | None =>
      release LFtable ;;
      ret None
  end.

Definition filedup (f : Z) : M kst Z :=
  acquire LFtable ;;
  ref <- fget f f_ref ;;
  if ref <? 1 then panic "filedup" else
  fset f (fun x => set_fref (f_ref x + 1) x) ;;
  release LFtable ;;
  ret f.

Section File.
Context {image : KernelImage} {dsw : DevSw} {junk : StackJunk}.

Definition fileclose (f : Z) : M kst unit :=
  acquire LFtable ;;
  ref <- fget f f_ref ;;
  if ref <? 1 then panic "fileclose" else
  fset f (set_fref (ref - 1)) ;;
  if 0 <? ref - 1 then release LFtable else
  ff <- gets (fun s => getf s f) ;;
  fset f (fun x => set_ftype FD_NONE (set_fref 0 x)) ;;
  release LFtable ;;
  match f_type ff with
  | FD_PIPE => pipeclose (f_pipe ff) (f_writable ff)
  | FD_INODE | FD_DEVICE =>
      log_ begin_op ;;
      iput (f_ip ff) ;;
      log_ end_op
  | FD_NONE => ret tt
  end.

(** [struct stat] in memory: 4 bytes of padding before [size]. *)
Definition stat_bytes (st : stat) : list Z :=
  le_bytes 4 (u32 (st_dev st)) ++ le_bytes 4 (st_ino st) ++ le_bytes 2 (u16 (st_type st)) ++
  le_bytes 2 (u16 (st_nlink st)) ++ stack_junk 4 ++ le_bytes 8 (st_size st).

Definition filestat (f addr : Z) : M kst Z :=
  x <- gets (fun s => getf s f) ;;
  match f_type x with
  | FD_INODE | FD_DEVICE =>
      ilock (f_ip x) ;;
      st <- stati (f_ip x) ;;
      iunlock (f_ip x) ;;
      pt <- myproc p_pagetable ;;
      r <- mem_ (copyout pt addr (stat_bytes st)) ;;
      if r <? 0 then ret (-1) else ret 0
  | _ => ret (-1)
  end.

Definition fileread (f addr n : Z) : M kst Z :=
  x <- gets (fun s => getf s f) ;;
  if f_readable x =? 0 then ret (-1) else
  match f_type x with
  | FD_PIPE => piperead (f_pipe x) addr n
  | FD_DEVICE =>
      if (f_major x <? 0) || (NDEV <=? f_major x) then ret (-1) else
      match devsw_read (f_major x) with
      | None => ret (-1)
      | Some read => read addr n
      end
  | FD_INODE =>
      ilock (f_ip x) ;;
      rb <- readi (f_ip x) (Some addr) (f_off x) (u32 n) ;;
      let r := fst (rb : Z * list Z) in
      when (0 <? r) (fset f (fun y => set_foff (u32 (f_off y + r)) y)) ;;
      iunlock (f_ip x) ;;
      ret r
  | FD_NONE => panic "fileread"
  end.

Definition filewrite_max : Z := ((MAXOPBLOCKS - 1 - 1 - 2) / 2) * BSIZE.

(** Returns [i] at the end of the loop. *)
Fixpoint filewrite_loop (k : nat) (f ip addr n i : Z) : M kst Z :=
  if i <? n then
    match k with
    | O => diverge
    | S k' =>
        let n1 := if filewrite_max <? n - i then filewrite_max else n - i in
        log_ begin_op ;;
        ilock ip ;;
        off <- fget f f_off ;;
        r <- writei ip (USrc (u64 (addr + i))) off n1 ;;
        when (0 <? r) (fset f (fun y => set_foff (u32 (f_off y + r)) y)) ;;
        iunlock ip ;;
        log_ end_op ;;
        if negb (r =? n1) then ret i else filewrite_loop k' f ip addr n (i + r)
    end
  else ret i.

Definition filewrite (f addr n : Z) : M kst Z :=
  x <- gets (fun s => getf s f) ;;
  if f_writable x =? 0 then ret (-1) else
  match f_type x with
  | FD_PIPE => pipewrite (f_pipe x) addr n
  | FD_DEVICE =>
      if (f_major x <? 0) || (NDEV <=? f_major x) then ret (-1) else
      match devsw_write (f_major x) with
      | None => ret (-1)
      | Some write => write addr n
      end
  | FD_INODE =>
      i <- filewrite_loop (Z.to_nat n) f (f_ip x) addr n 0 ;;
      ret (if i =? n then n else -1)
  | FD_NONE => panic "filewrite"
  end.

Definition pipealloc_bad (pi : Z) (f0 f1 : option Z) : M kst (Z * option Z * option Z) :=
  when (truth pi) (mem_ (kfree pi)) ;;
  match f0 with Some f => fileclose f | None => ret tt end ;;
  match f1 with Some f => fileclose f | None => ret tt end ;;
  ret (-1, f0, f1).

(** The status and the two files. *)
Definition pipealloc : M kst (Z * option Z * option Z) :=
  f0 <- filealloc ;;
  match f0 with
  | None => pipealloc_bad 0 None None
  | Some r =>
      f1 <- filealloc ;;
      match f1 with
      | None => pipealloc_bad 0 f0 None
      | Some w =>
          pi <- mem_ kalloc ;;
          if pi =? 0 then pipealloc_bad 0 f0 f1 else
          (* the data bytes are what kalloc left *)
          modify (fun s => set_pipes (<[pi := Pipe (replicate 512 5) 0 0 1 1]> (k_pipes s)) s) ;;
          initlock (LPipe pi) ;;
          fset r (fun x => set_fpipe pi (set_fmode 1 0 (set_ftype FD_PIPE x))) ;;
          fset w (fun x => set_fpipe pi (set_fmode 0 1 (set_ftype FD_PIPE x))) ;;
          ret (0, Some r, Some w)
      end
  end.

End File.
