(* ===== verification/PipeSpec.v ===== *)
(** * Pipes are bounded queues (kernel/pipe.c)

    The ring buffer and its two counters, which wrap at 32 bits, as a queue of at most
    PIPESIZE bytes: [pipewrite] appends the bytes of the writer's memory, [piperead] takes
    them off in order, and each wakes the other side. *)
From S2P Require Import Prelude Bytes Memory Machine Riscv Kalloc Vm VmProps VmUser VmSpace VmFree VmSpec Sleeplock Bio BioProps BioSpec Log LogSpec Wp Kernel Fs FsSpec Pipe.

(** ** The queue *)

Record pipe_ok (p : pipe) : Prop := {
  po_data : length (pi_data p) = 512%nat;
  po_read : 0 <= pi_nread p < 4294967296;
  po_write : 0 <= pi_nwrite p < 4294967296;
  po_len : u32 (pi_nwrite p - pi_nread p) <= 512;
}.

Definition qlen (p : pipe) : Z := u32 (pi_nwrite p - pi_nread p).
Definition qbyte (p : pipe) (j : Z) : Z := znth 0 (pi_data p) ((pi_nread p + j) mod 512).
Definition queue (p : pipe) : list Z := qbyte p <$> seqZ 0 (qlen p).

Lemma zlen_queue p : zlen (queue p) = qlen p.
Proof. unfold zlen, queue, qlen, u32. rewrite length_fmap, length_seqZ. rewrite Z2Nat.id; [done|dlia]. Qed.

(** The test for a full pipe. *)
Lemma full_iff p : pipe_ok p -> (pi_nwrite p =? u32 (pi_nread p + PIPESIZE)) = (qlen p =? 512).
Proof.
  intros [_ H1 H2 H3]. unfold qlen, u32, PIPESIZE in *. apply eq_true_iff_eq. rewrite !Z.eqb_eq. dlia.
Qed.

(** The test for an empty pipe. *)
Lemma empty_iff p : pipe_ok p -> (pi_nread p =? pi_nwrite p) = (qlen p =? 0).
Proof. intros [_ H1 H2 H3]. unfold qlen, u32 in *. apply eq_true_iff_eq. rewrite !Z.eqb_eq. dlia. Qed.

Definition put_byte (b : Z) (p : pipe) : pipe :=
  set_nwrite (u32 (pi_nwrite p + 1)) (set_pdata (zupd (pi_data p) (pi_nwrite p mod PIPESIZE) b) p).
Definition drop_byte (p : pipe) : pipe := set_nread (u32 (pi_nread p + 1)) p.

Lemma put_byte_queue b p :
  pipe_ok p -> qlen p <> 512 -> pipe_ok (put_byte b p) /\ queue (put_byte b p) = queue p ++ [b].
Proof.
  intros [H0 H1 H2 H3] Hne. change PIPESIZE with 512 in *. unfold qlen in Hne.
  assert (qlen (put_byte b p) = qlen p + 1) as El by (unfold qlen, put_byte, u32 in *; cbn; dlia).
  split.
  - split; cbn; [by rewrite length_zupd|done|unfold u32; dlia|]. fold (qlen (put_byte b p)).
    change (u32 (u32 (pi_nwrite p + 1) - pi_nread p)) with (qlen (put_byte b p)). rewrite El. unfold qlen. lia.
  - assert (0 <= qlen p) by (unfold qlen, u32; dlia). unfold queue. rewrite El, seqZ_app by lia. rewrite fmap_app. f_equal.
    + apply list_fmap_ext. intros i x [-> Hx]%lookup_seqZ. unfold qbyte, put_byte. cbn. apply znth_zupd_ne.
      unfold qlen, u32, PIPESIZE in *. dlia.
    + assert (seqZ (0 + qlen p) 1 = [qlen p]) as -> by (unfold seqZ; cbn; f_equal; lia). cbn [fmap list_fmap]. f_equal.
      unfold qbyte, put_byte. cbn [pi_data pi_nread set_nwrite set_pdata].
      replace ((pi_nread p + qlen p) mod 512) with (pi_nwrite p mod PIPESIZE) by (unfold qlen, u32, PIPESIZE in *; dlia).
      apply znth_zupd_eq. unfold zlen. rewrite H0. unfold PIPESIZE. dlia.
Qed.

Lemma drop_byte_queue p :
  pipe_ok p -> qlen p <> 0 ->
  pipe_ok (drop_byte p) /\ queue p = znth 0 (pi_data p) (pi_nread p mod PIPESIZE) :: queue (drop_byte p).
Proof.
  intros [H0 H1 H2 H3] Hne. unfold qlen in Hne.
  assert (qlen p = 1 + qlen (drop_byte p)) as El by (unfold qlen, drop_byte, u32 in *; cbn; dlia).
  assert (0 <= qlen (drop_byte p)) by (unfold qlen, u32; dlia).
  split.
  - split; cbn; [done|unfold u32; dlia|done|]. change (u32 (pi_nwrite p - u32 (pi_nread p + 1))) with (qlen (drop_byte p)).
    unfold qlen in El |- *. lia.
  - unfold queue. rewrite El, seqZ_app, fmap_app by lia.
    assert (seqZ 0 1 = [0]) as -> by done. cbn [fmap list_fmap app]. f_equal.
    + unfold qbyte. rewrite Z.add_0_r. done.
    + change (0 + 1) with 1. rewrite <- (Z.add_0_r 1). rewrite <- fmap_add_seqZ. rewrite <- list_fmap_compose. apply list_fmap_ext.
      intros i x [-> Hx]%lookup_seqZ. unfold qbyte, drop_byte. cbn. f_equal. unfold u32. dlia.
Qed.

(** ** The operations *)

Lemma killed_run c k p :
  ctx_ok c -> LProc p ∉ c_held c -> settle c = c -> killed p c k = Done (p_killed (getp k p)) c k.
Proof.
  intros Hok Hh Hst. unfold killed, pget. kstep (acquire_run (LProc p) c k Hh). rewrite bind_gets.
  kstep (release_enter (LProc p) c k Hok Hh). by rewrite Hst.
Qed.

Section Ops.
Context {image : KernelImage} (c : ctx) (Hc : idle c) (T : ptree) (l F : list Z) (root : Z) (Hroot : T !! [] = Some root).
Context (pi : Z).
Abbreviation cl := (enter (LPipe pi) c).
Abbreviation pr := (c_proc c).

Lemma copyin_byte c1 s va :
  uspace s T l F -> 0 <= va < MAXVA -> user_pa (leaf (pm s) T) va <> 0 ->
  copyin root va 1 c1 s = Done (0, [uload (pm s) (leaf (pm s) T) va]) c1 s.
Proof using Hroot.
  intros Hu Hv Hp. destruct (copyin_loop_run c1 T l F root Hroot (Z.to_nat 1) s [] va 1 Hu) as (r & n & R & [[-> ->]|(_ & Hn & E)]);
    [lia|lia|lia|lia|..].
  - unfold copyin. rewrite R. done.
  - replace n with 0 in E by lia. rewrite Z.add_0_r in E. done.
Qed.

Lemma copyout_byte c1 s va b :
  uspace s T l F -> 0 <= va < MAXVA -> user_pa (leaf (pm s) T) va <> 0 -> is_byte b ->
  exists s', copyout root va [b] c1 s = Done 0 c1 s' /\ uspace s' T l F /\
    (forall x, leaf (pm s') T x = leaf (pm s) T x) /\
    (forall x, 0 <= x < MAXVA -> user_pa (leaf (pm s) T) x <> 0 ->
       uload (pm s') (leaf (pm s') T) x = uwrite (uload (pm s) (leaf (pm s) T)) va [b] x).
Proof using Hroot.
  intros Hu Hv Hp Hb. destruct (copyout_loop_run c1 T l F root Hroot (length [b]) s va [b] Hu) as (s' & r & n & R & Hu' & Hl & Hw & _ & [[-> ->]|(_ & Hn & E)]);
    [done|by constructor|lia|unfold zlen; cbn; lia|..].
  - exists s'. split; [exact R|]. split; [done|]. split; [done|]. exact Hw.
  - unfold zlen in Hn. cbn in Hn. replace n with 0 in E by lia. rewrite Z.add_0_r in E. done.
Qed.

(** A process that runs in its address space. *)
Record runs (k : kst) : Prop := {
  rn_pt : p_pagetable (getp k pr) = root;
  rn_alive : p_killed (getp k pr) = 0;
  rn_space : uspace (k_pm k) T l F;
  rn_pipe : is_Some (k_pipes k !! pi);
}.

Definition mapped_range (k : kst) (va n : Z) : Prop :=
  0 <= va /\ va + n <= MAXVA /\ forall i, 0 <= i < n -> user_pa (leaf (pm (k_pm k)) T) (va + i) <> 0.

Definition mem_bytes (k : kst) (va n : Z) : list Z := uloads (pm (k_pm k)) (leaf (pm (k_pm k)) T) va (Z.to_nat n).

Lemma getpi_updpi k f : getpi (updpi pi f k) pi = f (getpi k pi).
Proof using. unfold getpi, updpi. cbn. by rewrite lookup_insert_eq. Qed.

Lemma updpi_id k : is_Some (k_pipes k !! pi) -> updpi pi (fun _ => getpi k pi) k = k.
Proof using.
  intros [p Hp]. unfold updpi, getpi. rewrite Hp. cbn. rewrite insert_id by done. by destruct k.
Qed.

Lemma updpi_updpi k f p : updpi pi (fun _ => p) (updpi pi f k) = updpi pi (fun _ => p) k.
Proof using. unfold updpi. cbn. by rewrite insert_insert_eq. Qed.

Lemma mem_run {A} (m : M pmem A) c1 k a s' : m c1 (k_pm k) = Done a c1 s' -> mem_ m c1 k = Done a c1 (set_kpm s' k).
Proof using. intros H. exact (zoom_done on_pm m c1 k a c1 s' H). Qed.

Lemma set_kpm_id k : set_kpm (k_pm k) k = k.
Proof using. by destruct k. Qed.

(** One turn of the loop of [pipewrite] with room in the pipe. *)
Lemma pipewrite_loop_run fuel k addr n i :
  runs k -> pipe_ok (getpi k pi) -> pi_readopen (getpi k pi) <> 0 -> 0 <= i <= n -> n - i <= Z.of_nat fuel ->
  qlen (getpi k pi) + (n - i) <= 512 -> 0 <= addr -> mapped_range k (addr + i) (n - i) ->
  exists p', pipewrite_loop fuel pi addr n i cl k = Done (Some n) cl (updpi pi (fun _ => p') k) /\
    pipe_ok p' /\ queue p' = queue (getpi k pi) ++ mem_bytes k (addr + i) (n - i) /\
    pi_readopen p' = pi_readopen (getpi k pi) /\ pi_writeopen p' = pi_writeopen (getpi k pi).
Proof using Hc Hroot.
  revert k i. induction fuel as [|fuel IH]; intros k i Hr Hp Ho Hi Hf Hq Ha Hm; unfold pipewrite_loop; fold pipewrite_loop.
  all: zcase (i <? n) as E; [|exists (getpi k pi); replace i with n by lia; split;
    [unfold ret; by rewrite updpi_id by apply Hr|]; split; [done|]; rewrite Z.sub_diag; cbn; by rewrite app_nil_r].
  - lia.
  - pose proof Hr as [Hpt Hal Hsp Hpi]. unfold piget. rewrite bind_asks, bind_gets. change (c_proc cl) with pr.
    zcase (pi_readopen (getpi k pi) =? 0) as Eo; [done|].
    assert (killed pr cl k = Done 0 cl k) as Hk.
    { rewrite killed_run; [by rewrite Hal|apply ctx_ok_enter, (idle_ok _ Hc)| |apply settle_enter, (idle_ok _ Hc)].
      rewrite c_held_enter, (id_held _ Hc). rewrite not_elem_of_cons. split; [done|apply not_elem_of_nil]. }
    kstep Hk. change (truth 0) with false. cbn iota. rewrite bind_gets, full_iff by done. zcase (qlen (getpi k pi) =? 512) as Eq; [lia|].
    unfold pget. rewrite bind_gets, Hpt. destruct Hm as (M1 & M2 & M3).
    assert (u64 (addr + i) = addr + i) as ->.
    { unfold u64. apply Z.mod_small. rewrite MAXVA_val in *. lia. }
    assert (user_pa (leaf (pm (k_pm k)) T) (addr + i) <> 0) as Hpa by (rewrite <- (Z.add_0_r (addr + i)); apply M3; lia).
    pose proof (copyin_byte cl (k_pm k) (addr + i) Hsp ltac:(lia) Hpa) as Hcp. apply mem_run in Hcp. rewrite set_kpm_id in Hcp.
    kstep Hcp. cbn beta iota. change (0 =? -1) with false. cbn iota. unfold piset. rewrite bind_modify. cbn [hd0].
    set (b := uload _ _ _). set (k1 := updpi pi _ k).
    destruct (put_byte_queue b (getpi k pi) Hp Eq) as [Hp1 Hq1].
    assert (getpi k1 pi = put_byte b (getpi k pi)) as G1 by (unfold k1; by rewrite getpi_updpi).
    assert (zlen (queue (put_byte b (getpi k pi))) = qlen (getpi k pi) + 1) as Hl1.
    { rewrite Hq1. unfold zlen. rewrite length_app. cbn. fold (zlen (queue (getpi k pi))). rewrite Nat2Z.inj_add. fold (zlen (queue (getpi k pi))).
      rewrite zlen_queue. done. }
    rewrite zlen_queue in Hl1. destruct (IH k1 (i + 1)) as (p' & R & H1 & H2 & H3 & H4).
    + split; try done. unfold k1, updpi. cbn. rewrite lookup_insert_eq. by eexists.
    + by rewrite G1.
    + by rewrite G1.
    + lia.
    + lia.
    + rewrite G1, Hl1. lia.
    + done.
    + split; [lia|]. split; [lia|]. intros j Hj. replace (addr + (i + 1) + j) with (addr + i + (j + 1)) by lia. apply M3. lia.
    + exists p'. split; [rewrite R; unfold k1; by rewrite updpi_updpi|]. split; [done|]. rewrite G1 in H2, H3, H4. split; [|done].
      rewrite H2, Hq1, <- app_assoc. f_equal. unfold mem_bytes. change (k_pm k1) with (k_pm k).
      replace (Z.to_nat (n - i)) with (S (Z.to_nat (n - (i + 1)))) by lia. cbn. do 2 f_equal. lia.
Qed.

Lemma pipewrite_run k addr n :
  runs k -> pipe_ok (getpi k pi) -> pi_readopen (getpi k pi) <> 0 -> 0 <= n ->
  qlen (getpi k pi) + n <= 512 -> mapped_range k addr n ->
  exists p', pipewrite pi addr n c k = Done n (woken [ChPipeRead pi] c) (updpi pi (fun _ => p') k) /\
    pipe_ok p' /\ queue p' = queue (getpi k pi) ++ mem_bytes k addr n /\
    pi_readopen p' = pi_readopen (getpi k pi) /\ pi_writeopen p' = pi_writeopen (getpi k pi).
Proof using Hc Hroot.
  intros Hr Hp Ho Hn Hq Hm. pose proof Hm as (M1 & M2 & M3).
  destruct (pipewrite_loop_run (Z.to_nat n + c_fuel c) k addr n 0) as (p' & R & H1 & H2 & H3);
    [done|done|done|lia|lia|lia|lia|by rewrite Z.add_0_r, Z.sub_0_r|].
  rewrite Z.add_0_r, Z.sub_0_r in H2. exists p'. split; [|done]. unfold pipewrite. rewrite bind_asks.
  kstep (acquire_run (LPipe pi) c k (idle_nolock c (LPipe pi) Hc)). kstep R. cbn iota beta.
  kstep (wakeup_run (ChPipeRead pi) cl (updpi pi (fun _ => p') k)).
  kstep (release_enter_woken (LPipe pi) [ChPipeRead pi] c (updpi pi (fun _ => p') k) (idle_ok _ Hc) (idle_nolock c (LPipe pi) Hc)).
  by rewrite (idle_settle _ Hc).
Qed.

(** On a full pipe the writer wakes the readers and sleeps with the pipe's lock given up;
    resumed in any state with room in the pipe, it does what it would have done there. *)
Lemma pipewrite_sleeps k addr n :
  runs k -> pipe_ok (getpi k pi) -> pi_readopen (getpi k pi) <> 0 -> qlen (getpi k pi) = 512 -> 0 < n ->
  c_noff c = 0 -> (0 < c_fuel c)%nat ->
  exists kont, pipewrite pi addr n c k = Sleep (ChPipeWrite pi) (woken [ChPipeRead pi] (enter (LProc pr) c)) k kont /\
    forall k', kont k' = (r <- pipewrite_loop (Z.to_nat n + c_fuel c - 1) pi addr n 0 ;;
      match r with None => ret (-1) | Some i => wakeup (ChPipeRead pi) ;; release (LPipe pi) ;; ret i end) (woken [ChPipeRead pi] cl) k'.
Proof using Hc.
  intros Hr Hp Ho Hq Hn Hnoff Hfuel. pose proof Hr as [Hpt Hal Hsp Hpi].
  set (c1 := woken [ChPipeRead pi] c).
  assert (idle c1) as Hc1 by (eapply idle_same; [apply same_ctx_woken|done]).
  destruct (sleep_enter (ChPipeWrite pi) (LPipe pi) c1 k (id_steady _ Hc1)) as (kont & Hs & Hk);
    [done|apply (idle_nolock _ _ Hc1)|apply (idle_nolock _ _ Hc1)|done|].
  assert (exists kont, pipewrite_loop (Z.to_nat n + c_fuel c) pi addr n 0 cl k = Sleep (ChPipeWrite pi) (enter (LProc pr) c1) k kont /\
    forall k', kont k' = pipewrite_loop (Z.to_nat n + c_fuel c - 1) pi addr n 0 (enter (LPipe pi) c1) k') as (kont1 & R & Hk1).
  { destruct (Z.to_nat n + c_fuel c)%nat as [|fuel] eqn:Ef; [lia|]. unfold pipewrite_loop; fold pipewrite_loop.
    zcase (0 <? n) as E; [|lia]. unfold piget. rewrite bind_asks, bind_gets. change (c_proc cl) with pr.
    zcase (pi_readopen (getpi k pi) =? 0) as Eo; [done|].
    assert (killed pr cl k = Done 0 cl k) as Hkl.
    { rewrite killed_run; [by rewrite Hal|apply ctx_ok_enter, (idle_ok _ Hc)| |apply settle_enter, (idle_ok _ Hc)].
      rewrite c_held_enter, (id_held _ Hc). rewrite not_elem_of_cons. split; [done|apply not_elem_of_nil]. }
    kstep Hkl. change (truth 0) with false. cbn iota. rewrite bind_gets, full_iff by done. rewrite Hq. change (512 =? 512) with true. cbn iota.
    kstep (wakeup_run (ChPipeRead pi) cl k). rewrite <- enter_woken. fold c1. unfold bind at 1. rewrite Hs. cbn [obind].
    eexists. split; [reflexivity|]. intros k'. cbn beta. rewrite Hk. cbn [obind]. by replace (S fuel - 1)%nat with fuel by lia. }
  eexists. split.
  - unfold pipewrite. rewrite bind_asks. kstep (acquire_run (LPipe pi) c k (idle_nolock c (LPipe pi) Hc)).
    unfold bind at 1. rewrite R. cbn [obind]. rewrite <- enter_woken. reflexivity.
  - intros k'. cbn beta. rewrite Hk1. unfold bind at 4. rewrite <- enter_woken. reflexivity.
Qed.

(** ** Reading *)

Lemma piperead_loop_run fuel k addr i :
  runs k -> pipe_ok (getpi k pi) -> Forall is_byte (pi_data (getpi k pi)) -> 0 <= i -> 0 <= addr -> mapped_range k (addr + i) (Z.of_nat fuel) ->
  exists s' p' bytes, piperead_loop fuel pi addr i cl k = Done (i + zlen bytes) cl (updpi pi (fun _ => p') (set_kpm s' k)) /\
    pipe_ok p' /\ queue (getpi k pi) = bytes ++ queue p' /\ zlen bytes = Z.min (Z.of_nat fuel) (qlen (getpi k pi)) /\
    uspace s' T l F /\ (forall x, leaf (pm s') T x = leaf (pm (k_pm k)) T x) /\
    (forall x, 0 <= x < MAXVA -> user_pa (leaf (pm (k_pm k)) T) x <> 0 ->
       uload (pm s') (leaf (pm s') T) x = uwrite (uload (pm (k_pm k)) (leaf (pm (k_pm k)) T)) (addr + i) bytes x).
Proof using Hc Hroot.
  revert k i. induction fuel as [|fuel IH]; intros k i Hr Hp Hb Hi Ha Hm; pose proof Hr as [Hpt Hal Hsp Hpi]; cbn [piperead_loop].
  - exists (k_pm k), (getpi k pi), []. unfold ret. rewrite set_kpm_id, updpi_id by done. change (zlen []) with 0. rewrite Z.add_0_r.
    assert (0 <= qlen (getpi k pi)) by (unfold qlen, u32; dlia).
    split; [done|]. split; [done|]. split; [done|]. split; [lia|]. split; [done|]. split; [done|]. intros x _ _. by rewrite uwrite_nil.
  - rewrite bind_gets, empty_iff by done. zcase (qlen (getpi k pi) =? 0) as Eq.
    { exists (k_pm k), (getpi k pi), []. unfold ret. rewrite set_kpm_id, updpi_id by done. change (zlen []) with 0. rewrite Z.add_0_r.
      split; [done|]. split; [done|]. split; [done|]. split; [lia|]. split; [done|]. split; [done|]. intros x _ _. by rewrite uwrite_nil. }
    destruct (drop_byte_queue (getpi k pi) Hp Eq) as [Hp1 Hq1]. set (b := znth 0 (pi_data (getpi k pi)) (pi_nread (getpi k pi) mod PIPESIZE)) in *.
    unfold piset, pget. rewrite bind_modify, bind_asks, bind_gets. change (c_proc cl) with pr. set (k1 := updpi pi _ k).
    change (getp k1 pr) with (getp k pr). rewrite Hpt. destruct Hm as (M1 & M2 & M3).
    assert (u64 (addr + i) = addr + i) as -> by (unfold u64; apply Z.mod_small; rewrite MAXVA_val in *; lia).
    assert (user_pa (leaf (pm (k_pm k)) T) (addr + i) <> 0) as Hpa by (rewrite <- (Z.add_0_r (addr + i)); apply M3; lia).
    assert (is_byte b) as Hib.
    { unfold b, znth. pose proof (Z.mod_pos_bound (pi_nread (getpi k pi)) PIPESIZE). unfold PIPESIZE in *. zcase (pi_nread (getpi k pi) mod 512 <? 0) as E; [lia|].
      rewrite Forall_forall in Hb. apply Hb, list_elem_of_In, nth_In. rewrite (po_data _ Hp). lia. }
    destruct (copyout_byte cl (k_pm k1) (addr + i) b Hsp ltac:(lia) Hpa Hib) as (s1 & Rc & Hu1 & Hl1 & Hw1). apply mem_run in Rc.
    kstep Rc. change (0 =? -1) with false. cbn iota. set (k2 := set_kpm s1 k1).
    assert (getpi k2 pi = drop_byte (getpi k pi)) as G2 by (change (getpi k2 pi) with (getpi k1 pi); unfold k1; by rewrite getpi_updpi).
    assert (forall x, user_pa (leaf (pm s1) T) x = user_pa (leaf (pm (k_pm k)) T) x) as Hpa1 by (intros x; unfold user_pa; by rewrite Hl1).
    destruct (IH k2 (i + 1)) as (s' & p' & bytes & R & H1 & H2 & H3 & H4 & H5 & H6).
    + split; try done. change (is_Some (k_pipes k1 !! pi)). unfold k1, updpi. cbn. rewrite lookup_insert_eq. by eexists.
    + by rewrite G2.
    + by rewrite G2.
    + lia.
    + done.
    + split; [lia|]. split; [lia|]. intros j Hj. change (k_pm k2) with s1. rewrite Hpa1.
      replace (addr + (i + 1) + j) with (addr + i + (j + 1)) by lia. apply M3. lia.
    + exists s', p', (b :: bytes). rewrite G2 in H2, H3. change (k_pm k2) with s1 in *.
      assert (qlen (getpi k pi) = 1 + qlen (drop_byte (getpi k pi))) as Hql.
      { rewrite <- !zlen_queue, Hq1. unfold zlen. cbn [length]. lia. }
      assert (zlen (b :: bytes) = 1 + zlen bytes) as Hz by (unfold zlen; cbn [length]; lia).
      split; [|split; [done|split; [by rewrite Hq1, H2|split; [lia|split; [done|split]]]]].
      * rewrite R, Hz. replace (i + 1 + zlen bytes) with (i + (1 + zlen bytes)) by lia. f_equal. unfold k2, k1.
        change (set_kpm s' (set_kpm s1 (updpi pi ?f k))) with (updpi pi f (set_kpm s' k)). by rewrite updpi_updpi.
      * intros x. by rewrite H5.
      * intros x Hx Hpx. rewrite H6 by (done || by rewrite Hpa1).
        assert (uwrite (uload (pm s1) (leaf (pm s1) T)) (addr + (i + 1)) bytes x =
          uwrite (uwrite (uload (pm (k_pm k)) (leaf (pm (k_pm k)) T)) (addr + i) [b]) (addr + i + zlen [b]) bytes x) as ->.
        { unfold uwrite at 1 2. change (zlen [b]) with 1. replace (addr + i + 1) with (addr + (i + 1)) by lia.
          destruct (_ && _); [done|]. by apply Hw1. }
        by rewrite uwrite_app.
Qed.

Lemma piperead_run k addr n :
  runs k -> pipe_ok (getpi k pi) -> Forall is_byte (pi_data (getpi k pi)) -> 0 <= n -> mapped_range k addr n ->
  qlen (getpi k pi) <> 0 \/ pi_writeopen (getpi k pi) = 0 ->
  exists s' p' bytes, piperead pi addr n c k = Done (zlen bytes) (woken [ChPipeWrite pi] c) (updpi pi (fun _ => p') (set_kpm s' k)) /\
    pipe_ok p' /\ queue (getpi k pi) = bytes ++ queue p' /\ zlen bytes = Z.min n (qlen (getpi k pi)) /\
    uspace s' T l F /\ (forall x, leaf (pm s') T x = leaf (pm (k_pm k)) T x) /\
    (forall x, 0 <= x < MAXVA -> user_pa (leaf (pm (k_pm k)) T) x <> 0 ->
       uload (pm s') (leaf (pm s') T) x = uwrite (uload (pm (k_pm k)) (leaf (pm (k_pm k)) T)) addr bytes x).
Proof using Hc Hroot.
  intros Hr Hp Hb Hn Hm Hq. pose proof Hm as (M1 & M2 & M3).
  destruct (piperead_loop_run (Z.to_nat n) k addr 0) as (s' & p' & bytes & R & H1 & H2 & H3 & H4);
    [done|done|done|lia|lia|by rewrite Z.add_0_r, Z2Nat.id by lia|].
  rewrite Z2Nat.id in H3 by lia. rewrite Z.add_0_r in H4. exists s', p', bytes. split; [|done]. unfold piperead. rewrite bind_asks.
  kstep (acquire_run (LPipe pi) c k (idle_nolock c (LPipe pi) Hc)).
  assert (piperead_wait (c_fuel c) pi cl k = Done true cl k) as Hw.
  { destruct (c_fuel c); cbn [piperead_wait]; rewrite bind_gets, empty_iff by done;
      (replace ((qlen (getpi k pi) =? 0) && truth (pi_writeopen (getpi k pi))) with false; [done|]);
      symmetry; apply andb_false_iff; rewrite Z.eqb_neq; (destruct Hq as [?|E]; [by left|right]); unfold truth; by rewrite E. }
  kstep Hw. cbn [negb]. kstep R. rewrite Z.add_0_l. set (k' := updpi pi _ _).
  kstep (wakeup_run (ChPipeWrite pi) cl k').
  kstep (release_enter_woken (LPipe pi) [ChPipeWrite pi] c k' (idle_ok _ Hc) (idle_nolock c (LPipe pi) Hc)).
  by rewrite (idle_settle _ Hc).
Qed.

End Ops.

(** ** The theorems *)

Section Theorems.
Context {image : KernelImage} (c : ctx) (T : ptree) (l F : list Z) (root pi : Z) (k : kst).

(** C18: pipewrite to a pipe with room appends the bytes of the writer's memory, in order, to
    the bytes in the pipe, wakes the readers and returns the number of bytes; counters that
    wrap at 32 bits make no difference. *)
Theorem pipewrite_enqueues addr n :
  T !! [] = Some root -> idle c -> runs c T l F root pi k -> pipe_ok (getpi k pi) -> pi_readopen (getpi k pi) <> 0 -> 0 <= n ->
  zlen (queue (getpi k pi)) + n <= 512 -> mapped_range T k addr n ->
  exists p', pipewrite pi addr n c k = Done n (woken [ChPipeRead pi] c) (updpi pi (fun _ => p') k) /\ pipe_ok p' /\
    queue p' = queue (getpi k pi) ++ mem_bytes T k addr n.
Proof using.
  intros Hroot Hc Hr Hp Ho Hn Hq Hm. rewrite zlen_queue in Hq.
  destruct (pipewrite_run c Hc T l F root Hroot pi k addr n Hr Hp Ho Hn Hq Hm) as (p' & R & H1 & H2 & _). exists p'. done.
Qed.


(** pipewrite to a full pipe wakes the readers and sleeps on the pipe's write channel with
    the pipe's lock released; woken in any later state with room, it still appends all of
    its bytes and returns. *)
Theorem pipewrite_waits addr n :
  T !! [] = Some root -> idle c -> runs c T l F root pi k -> pipe_ok (getpi k pi) -> pi_readopen (getpi k pi) <> 0 -> 0 < n ->
  zlen (queue (getpi k pi)) = 512 -> c_noff c = 0 -> (0 < c_fuel c)%nat ->
  exists kont, pipewrite pi addr n c k = Sleep (ChPipeWrite pi) (woken [ChPipeRead pi] (enter (LProc (c_proc c)) c)) k kont /\
    forall k', runs c T l F root pi k' -> pipe_ok (getpi k' pi) -> pi_readopen (getpi k' pi) <> 0 ->
      zlen (queue (getpi k' pi)) + n <= 512 -> mapped_range T k' addr n ->
      exists p', kont k' = Done n (woken [ChPipeRead pi; ChPipeRead pi] c) (updpi pi (fun _ => p') k') /\
        queue p' = queue (getpi k' pi) ++ mem_bytes T k' addr n.
Proof using.
  intros Hroot Hc Hr Hp Ho Hn Hq Hnoff Hfuel. rewrite zlen_queue in Hq.
  destruct (pipewrite_sleeps c Hc T l F root pi k addr n Hr Hp Ho Hq Hn Hnoff Hfuel) as (kont & R & Hk).
  exists kont. split; [done|]. intros k' Hr' Hp' Ho' Hq' Hm'. rewrite zlen_queue in Hq'. rewrite Hk.
  set (c1 := woken [ChPipeRead pi] c).
  assert (idle c1) as Hc1 by (eapply idle_same; [apply same_ctx_woken|done]).
  assert (runs c1 T l F root pi k') as Hr1 by (destruct Hr'; by constructor).
  destruct Hm' as (M1 & M2 & M3).
  destruct (pipewrite_loop_run c1 Hc1 T l F root Hroot pi (Z.to_nat n + c_fuel c - 1) k' addr n 0) as (p' & R' & H1 & H2 & H3);
    [done|done|done|lia|lia|lia|lia|rewrite Z.add_0_r, Z.sub_0_r; done|].
  rewrite Z.add_0_r, Z.sub_0_r in H2. exists p'. split; [|done].
  rewrite <- enter_woken. fold c1. kstep R'. cbn iota beta.
  kstep (wakeup_run (ChPipeRead pi) (enter (LPipe pi) c1) (updpi pi (fun _ => p') k')).
  kstep (release_enter_woken (LPipe pi) [ChPipeRead pi] c1 (updpi pi (fun _ => p') k') (idle_ok _ Hc1) (idle_nolock c1 (LPipe pi) Hc1)).
  rewrite (idle_settle _ Hc1). unfold c1. by rewrite woken_woken.
Qed.

End Theorems.

(** ** Applications *)

(** A kernel whose process 3 runs with memory [s] and holds a pipe, at page 0x87000000,
    whose counters are about to wrap. *)
Definition demo_pipe (len : Z) : pipe := Pipe (replicate 512 7) 4294967290 (u32 (4294967290 + len)) 1 1.
Definition demo_kp (s : pmem) (len : Z) : kst :=
  K s (LState (idle_log 1) (fresh_bio demo_disk)) demo_sb [] [] {[0x87000000 := demo_pipe len]}
    (<[Z.to_nat (c_proc user_ctx) := Proc RUNNING None 0 0 3 None 0 8192 0x80022000 0 0 0 [] None [] 0]> (replicate 64 proc0)) None 1 0 [].

Lemma demo_runs s T l F len : uspace s T l F -> runs user_ctx T l F 0x80022000 0x87000000 (demo_kp s len).
Proof. intros H. split; [done|done|done|by eexists]. Qed.

Lemma demo_pipe_ok s len : 0 <= len <= 512 ->
  pipe_ok (getpi (demo_kp s len) 0x87000000) /\ zlen (queue (getpi (demo_kp s len) 0x87000000)) = len.
Proof.
  intros H. rewrite zlen_queue. change (getpi (demo_kp s len) 0x87000000) with (demo_pipe len).
  unfold demo_pipe. split; [split|]; unfold qlen; cbn -[u32 replicate]; unfold u32; [done|lia|dlia|dlia|dlia].
Qed.

Lemma demo_mapped s T len : (forall j, 0 <= j < 2 -> zero_page s T (uvm_perm PTE_W) j) ->
  mapped_range T (demo_kp s len) 4090 10.
Proof.
  intros Hz. split; [lia|]. split; [rewrite MAXVA_val; lia|]. intros i Hi. apply (demo_user_pa s T _ Hz). lia.
Qed.

Lemma pipewrite_enqueues_witness : exists s T p',
  pipewrite 0x87000000 4090 10 user_ctx (demo_kp s 4) = Done 10 (woken [ChPipeRead 0x87000000] user_ctx) (updpi 0x87000000 (fun _ => p') (demo_kp s 4)) /\
  queue p' = queue (demo_pipe 4) ++ mem_bytes T (demo_kp s 4) 4090 10.
Proof.
  destruct demo_space as (s & T & l & Htp & Hroot & Hz & _).
  destruct (demo_pipe_ok s 4) as [Hp Hq]; [lia|].
  destruct (pipewrite_enqueues user_ctx T l _ 0x80022000 0x87000000 (demo_kp s 4) 4090 10 Hroot user_ctx_idle
    (demo_runs _ _ _ _ 4 (proc_mem_uspace _ _ _ _ (tp_old _ _ _ _ _ _ Htp))) Hp ltac:(discriminate) ltac:(lia) ltac:(lia) (demo_mapped s T 4 Hz))
    as (p' & R & _ & Hq').
  exists s, T, p'. split; [exact R|exact Hq'].
Defined.


Lemma pipewrite_waits_witness : exists s kont,
  pipewrite 0x87000000 4090 10 user_ctx (demo_kp s 512) = Sleep (ChPipeWrite 0x87000000)
    (woken [ChPipeRead 0x87000000] (enter (LProc (c_proc user_ctx)) user_ctx)) (demo_kp s 512) kont /\
  exists p', kont (demo_kp s 4) = Done 10 (woken [ChPipeRead 0x87000000; ChPipeRead 0x87000000] user_ctx) (updpi 0x87000000 (fun _ => p') (demo_kp s 4)).
Proof.
  destruct demo_space as (s & T & l & Htp & Hroot & Hz & _).
  destruct (demo_pipe_ok s 512) as [Hp Hq]; [lia|]. destruct (demo_pipe_ok s 4) as [Hp4 Hq4]; [lia|].
  pose proof (proc_mem_uspace _ _ _ _ (tp_old _ _ _ _ _ _ Htp)) as Hus.
  destruct (pipewrite_waits user_ctx T l _ 0x80022000 0x87000000 (demo_kp s 512) 4090 10 Hroot user_ctx_idle
    (demo_runs _ _ _ _ 512 Hus) Hp ltac:(discriminate) ltac:(lia) Hq ltac:(reflexivity) ltac:(cbn; lia)) as (kont & R & Hk).
  exists s, kont. split; [exact R|].
  destruct (Hk (demo_kp s 4) (demo_runs _ _ _ _ 4 Hus) Hp4 ltac:(discriminate) ltac:(lia) (demo_mapped s T 4 Hz)) as (p' & R' & _).
  exists p'. exact R'.
Defined.
