(* ===== verification/Proc.v ===== *)
(** * Processes (kernel/proc.c): the operations

    The process table as one kernel thread sees it; [Sched] models the scheduler and the
    interleaving of threads. *)
From S2P Require Import Prelude Bytes Memory Machine Riscv Kalloc Vm Bio Log Kernel Fs Pipe.

Definition set_pstate (x : procstate) (p : proc) : proc :=
  Proc x (p_chan p) (p_killed p) (p_xstate p) (p_pid p) (p_parent p) (p_kstack p) (p_sz p) (p_pagetable p)
    (p_trapframe p) (p_ra p) (p_sp p) (p_ofile p) (p_cwd p) (p_name p) (p_mask p).
Definition set_pchan (x : option chan) (p : proc) : proc :=
  Proc (p_state p) x (p_killed p) (p_xstate p) (p_pid p) (p_parent p) (p_kstack p) (p_sz p) (p_pagetable p)
    (p_trapframe p) (p_ra p) (p_sp p) (p_ofile p) (p_cwd p) (p_name p) (p_mask p).
Definition set_pkilled (x : Z) (p : proc) : proc :=
  Proc (p_state p) (p_chan p) x (p_xstate p) (p_pid p) (p_parent p) (p_kstack p) (p_sz p) (p_pagetable p)
    (p_trapframe p) (p_ra p) (p_sp p) (p_ofile p) (p_cwd p) (p_name p) (p_mask p).
Definition set_pxstate (x : Z) (p : proc) : proc :=
  Proc (p_state p) (p_chan p) (p_killed p) x (p_pid p) (p_parent p) (p_kstack p) (p_sz p) (p_pagetable p)
    (p_trapframe p) (p_ra p) (p_sp p) (p_ofile p) (p_cwd p) (p_name p) (p_mask p).
Definition set_ppid (x : Z) (p : proc) : proc :=
  Proc (p_state p) (p_chan p) (p_killed p) (p_xstate p) x (p_parent p) (p_kstack p) (p_sz p) (p_pagetable p)
    (p_trapframe p) (p_ra p) (p_sp p) (p_ofile p) (p_cwd p) (p_name p) (p_mask p).
Definition set_pparent (x : option Z) (p : proc) : proc :=
  Proc (p_state p) (p_chan p) (p_killed p) (p_xstate p) (p_pid p) x (p_kstack p) (p_sz p) (p_pagetable p)
    (p_trapframe p) (p_ra p) (p_sp p) (p_ofile p) (p_cwd p) (p_name p) (p_mask p).
Definition set_pkstack (x : Z) (p : proc) : proc :=
  Proc (p_state p) (p_chan p) (p_killed p) (p_xstate p) (p_pid p) (p_parent p) x (p_sz p) (p_pagetable p)
    (p_trapframe p) (p_ra p) (p_sp p) (p_ofile p) (p_cwd p) (p_name p) (p_mask p).
Definition set_psz (x : Z) (p : proc) : proc :=
  Proc (p_state p) (p_chan p) (p_killed p) (p_xstate p) (p_pid p) (p_parent p) (p_kstack p) x (p_pagetable p)
    (p_trapframe p) (p_ra p) (p_sp p) (p_ofile p) (p_cwd p) (p_name p) (p_mask p).
Definition set_ppagetable (x : Z) (p : proc) : proc :=
  Proc (p_state p) (p_chan p) (p_killed p) (p_xstate p) (p_pid p) (p_parent p) (p_kstack p) (p_sz p) x
    (p_trapframe p) (p_ra p) (p_sp p) (p_ofile p) (p_cwd p) (p_name p) (p_mask p).
Definition set_ptrapframe (x : Z) (p : proc) : proc :=
  Proc (p_state p) (p_chan p) (p_killed p) (p_xstate p) (p_pid p) (p_parent p) (p_kstack p) (p_sz p) (p_pagetable p)
    x (p_ra p) (p_sp p) (p_ofile p) (p_cwd p) (p_name p) (p_mask p).
Definition set_pcontext (ra sp : Z) (p : proc) : proc :=
  Proc (p_state p) (p_chan p) (p_killed p) (p_xstate p) (p_pid p) (p_parent p) (p_kstack p) (p_sz p) (p_pagetable p)
    (p_trapframe p) ra sp (p_ofile p) (p_cwd p) (p_name p) (p_mask p).
Definition set_pofile (x : list (option Z)) (p : proc) : proc :=
  Proc (p_state p) (p_chan p) (p_killed p) (p_xstate p) (p_pid p) (p_parent p) (p_kstack p) (p_sz p) (p_pagetable p)
    (p_trapframe p) (p_ra p) (p_sp p) x (p_cwd p) (p_name p) (p_mask p).
Definition set_pcwd (x : option Z) (p : proc) : proc :=
  Proc (p_state p) (p_chan p) (p_killed p) (p_xstate p) (p_pid p) (p_parent p) (p_kstack p) (p_sz p) (p_pagetable p)
    (p_trapframe p) (p_ra p) (p_sp p) (p_ofile p) x (p_name p) (p_mask p).
Definition set_pname (x : list Z) (p : proc) : proc :=
  Proc (p_state p) (p_chan p) (p_killed p) (p_xstate p) (p_pid p) (p_parent p) (p_kstack p) (p_sz p) (p_pagetable p)
    (p_trapframe p) (p_ra p) (p_sp p) (p_ofile p) (p_cwd p) x (p_mask p).
Definition set_pmask (x : Z) (p : proc) : proc :=
  Proc (p_state p) (p_chan p) (p_killed p) (p_xstate p) (p_pid p) (p_parent p) (p_kstack p) (p_sz p) (p_pagetable p)
    (p_trapframe p) (p_ra p) (p_sp p) (p_ofile p) (p_cwd p) (p_name p) x.

(** Addresses of code and data the linker places. *)
Class KernelSymbols := {
  sym_forkret : Z;
  sym_initcode : Z;
  sym_kernelvec : Z;
  sym_usertrap : Z;
  sym_uservec : Z;
  sym_userret : Z;
}.

(** Offsets in [struct trapframe] (kernel/proc.h). *)
Definition TF_kernel_satp : Z := 0.
Definition TF_kernel_sp : Z := 8.
Definition TF_kernel_trap : Z := 16.
Definition TF_epc : Z := 24.
Definition TF_kernel_hartid : Z := 32.
Definition TF_sp : Z := 48.
Definition TF_a0 : Z := 112.
Definition TF_a1 : Z := 120.
Definition TF_a7 : Z := 168.
Definition TF_size : Z := 288.

Definition tf_get (p off : Z) : M kst Z :=
  tf <- pget p p_trapframe ;; mem_ (mload64 (tf + off)).
Definition tf_set (p off v : Z) : M kst unit :=
  tf <- pget p p_trapframe ;; mem_ (mstore64 (tf + off) (u64 v)).

(** ** The table *)

Fixpoint procinit_loop (k : nat) (p : Z) : M kst unit :=
  match k with
  | O => ret tt
  | S k' =>
      initlock (LProc p) ;;
      pset p (set_pstate UNUSED) ;;
      pset p (set_pkstack (KSTACK p)) ;;
      procinit_loop k' (p + 1)
  end.

Definition procinit : M kst unit :=
  initlock LPid ;;
  initlock LWait ;;
  procinit_loop (Z.to_nat NPROC) 0.

Definition allocpid : M kst Z :=
  acquire LPid ;;
  pid <- gets k_nextpid ;;
  modify (set_nextpid (s32 (pid + 1))) ;;
  release LPid ;;
  ret pid.

(** The search for an UNUSED entry, which is returned locked. *)
Fixpoint allocproc_scan (k : nat) (p : Z) : M kst (option Z) :=
  match k with
  | O => ret None
  | S k' =>
      acquire (LProc p) ;;
      st <- pget p p_state ;;
      if decide (st = UNUSED) then ret (Some p)
      else
        release (LProc p) ;;
        allocproc_scan k' (p + 1)
  end.

Section Proc.
Context {image : KernelImage} {dsw : DevSw} {syms : KernelSymbols}.

Fixpoint proc_mapstacks_loop (k : nat) (kpgtbl p : Z) : M kst unit :=
  match k with
  | O => ret tt
  | S k' =>
      pa <- mem_ kalloc ;;
      if pa =? 0 then panic "kalloc" else
      mem_ (kvmmap kpgtbl (KSTACK p) pa PGSIZE (Z.lor PTE_R PTE_W)) ;;
      proc_mapstacks_loop k' kpgtbl (p + 1)
  end.

Definition proc_mapstacks (kpgtbl : Z) : M kst unit := proc_mapstacks_loop (Z.to_nat NPROC) kpgtbl 0.

Definition proc_pagetable (trapframe : Z) : M pmem Z :=
  pagetable <- uvmcreate ;;
  if pagetable =? 0 then ret 0 else
  r <- mappages pagetable TRAMPOLINE PGSIZE k_trampoline (Z.lor PTE_R PTE_X) ;;
  if r <? 0 then
    uvmfree pagetable 0 ;;
    ret 0
  else
    r <- mappages pagetable TRAPFRAME PGSIZE trapframe (Z.lor PTE_R PTE_W) ;;
    if r <? 0 then
      uvmunmap pagetable TRAMPOLINE 1 false ;;
      uvmfree pagetable 0 ;;
      ret 0
    else ret pagetable.

Definition proc_freepagetable (pagetable sz : Z) : M pmem unit :=
  uvmunmap pagetable TRAMPOLINE 1 false ;;
  uvmunmap pagetable TRAPFRAME 1 false ;;
  uvmfree pagetable sz.

Definition freeproc (p : Z) : M kst unit :=
  tf <- pget p p_trapframe ;;
  when (truth tf) (mem_ (kfree tf)) ;;
  pset p (set_ptrapframe 0) ;;
  pt <- pget p p_pagetable ;;
  sz <- pget p p_sz ;;
  when (truth pt) (mem_ (proc_freepagetable pt sz)) ;;
  pset p (set_ppagetable 0) ;;
  pset p (set_psz 0) ;;
  pset p (set_ppid 0) ;;
  pset p (set_pparent None) ;;
  pset p (fun x => set_pname (zupd (p_name x) 0 0) x) ;;
  pset p (set_pchan None) ;;
  pset p (set_pkilled 0) ;;
  pset p (set_pxstate 0) ;;
  pset p (set_pstate UNUSED).

Definition allocproc : M kst (option Z) :=
  f <- allocproc_scan (Z.to_nat NPROC) 0 ;;
  match f with
  | None => ret None
  | Some p =>
      pid <- allocpid ;;
      pset p (set_ppid pid) ;;
      pset p (set_pstate USED) ;;
      tf <- mem_ kalloc ;;
      pset p (set_ptrapframe tf) ;;
      if tf =? 0 then
        freeproc p ;;
        release (LProc p) ;;
        ret None
      else
        pt <- mem_ (proc_pagetable tf) ;;
        pset p (set_ppagetable pt) ;;
        if pt =? 0 then
          freeproc p ;;
          release (LProc p) ;;
          ret None
        else
          kstack <- pget p p_kstack ;;
          pset p (set_pcontext sym_forkret (kstack + PGSIZE)) ;;
          ret (Some p)
  end.

(** The bytes of the first user program, at [sym_initcode] in the kernel image. *)
Definition initcode : list Z :=
  [0x17; 0x05; 0x00; 0x00; 0x13; 0x05; 0x45; 0x02;
   0x97; 0x05; 0x00; 0x00; 0x93; 0x85; 0x35; 0x02;
   0x93; 0x08; 0x70; 0x00; 0x73; 0x00; 0x00; 0x00;
   0x93; 0x08; 0x20; 0x00; 0x73; 0x00; 0x00; 0x00;
   0xef; 0xf0; 0x9f; 0xff; 0x2f; 0x69; 0x6e; 0x69;
   0x74; 0x00; 0x00; 0x24; 0x00; 0x00; 0x00; 0x00;
   0x00; 0x00; 0x00; 0x00].

Definition str_initcode : list Z := [105; 110; 105; 116; 99; 111; 100; 101].

Definition userinit : M kst unit :=
  f <- allocproc ;;
  match f with
  | None => panic "kerneltrap" (* a null pointer *)
  | Some p =>
      modify (set_initproc (Some p)) ;;
      pt <- pget p p_pagetable ;;
      mem_ (uvmfirst pt sym_initcode (zlen initcode)) ;;
      pset p (set_psz PGSIZE) ;;
      tf_set p TF_epc 0 ;;
      tf_set p TF_sp PGSIZE ;;
      pset p (fun x => set_pname (bytes_safestrcpy (p_name x) str_initcode 16) x) ;;
      cwd <- namei [SLASH] ;;
      pset p (set_pcwd cwd) ;;
      pset p (set_pstate RUNNABLE) ;;
      release (LProc p)
  end.

Definition growproc (n : Z) : M kst Z :=
  p <- asks c_proc ;;
  sz <- pget p p_sz ;;
  pt <- pget p p_pagetable ;;
  if 0 <? n then
    sz <- mem_ (uvmalloc pt sz (u64 (sz + n)) PTE_W) ;;
    if sz =? 0 then ret (-1) else
    pset p (set_psz sz) ;;
    ret 0
  else if n <? 0 then
    sz <- mem_ (uvmdealloc pt sz (u64 (sz + n))) ;;
    pset p (set_psz sz) ;;
    ret 0
  else
    pset p (set_psz sz) ;;
    ret 0.

(** ** fork *)

Fixpoint fork_files (k : nat) (p np i : Z) : M kst unit :=
  match k with
  | O => ret tt
  | S k' =>
      f <- pget p (fun x => znth None (p_ofile x) i) ;;
      match f with
      | Some f =>
          g <- filedup f ;;
          pset np (fun x => set_pofile (zupd (p_ofile x) i (Some g)) x)
      | None => ret tt
      end ;;
      fork_files k' p np (i + 1)
  end.

Definition copy_trapframe (p np : Z) : M kst unit :=
  src <- pget p p_trapframe ;;
  dst <- pget np p_trapframe ;;
  mem_ (modify (fun s => set_pm (wr_list (pm s) dst (rd_list (pm s) src (Z.to_nat TF_size))) s)).

Definition fork : M kst Z :=
  p <- asks c_proc ;;
  f <- allocproc ;;
  match f with
  | None => ret (-1)
  | Some np =>
      pt <- pget p p_pagetable ;;
      npt <- pget np p_pagetable ;;
      sz <- pget p p_sz ;;
      r <- mem_ (uvmcopy pt npt sz) ;;
      if r <? 0 then
        freeproc np ;;
        release (LProc np) ;;
        ret (-1)
      else
        pset np (set_psz sz) ;;
        mask <- pget p p_mask ;;
        pset np (set_pmask mask) ;;
        pset np (set_pparent (Some p)) ;;
        copy_trapframe p np ;;
        tf_set np TF_a0 0 ;;
        fork_files (Z.to_nat NOFILE) p np 0 ;;
        cwd <- pget p p_cwd ;;
        match cwd with
        | None => panic "kerneltrap" (* a null pointer *)
        | Some ip =>
            ip <- idup ip ;;
            pset np (set_pcwd (Some ip)) ;;
            name <- pget p p_name ;;
            pset np (fun x => set_pname (bytes_safestrcpy (p_name x) name 16) x) ;;
            pid <- pget np p_pid ;;
            release (LProc np) ;;
            acquire LWait ;;
            pset np (set_pparent (Some p)) ;;
            release LWait ;;
            acquire (LProc np) ;;
            pset np (set_pstate RUNNABLE) ;;
            release (LProc np) ;;
            ret pid
        end
  end.

(** ** exit and wait *)

Fixpoint reparent_loop (k : nat) (p pp : Z) : M kst unit :=
  match k with
  | O => ret tt
  | S k' =>
      parent <- pget pp p_parent ;;
      if decide (parent = Some p) then
        init <- gets k_initproc ;;
        pset pp (set_pparent init) ;;
        match init with Some i => wakeup (ChProc i) | None => ret tt end ;;
        reparent_loop k' p (pp + 1)
      else reparent_loop k' p (pp + 1)
  end.

Definition reparent (p : Z) : M kst unit := reparent_loop (Z.to_nat NPROC) p 0.

(** [sched] with the check of [p->state]; the thread resumes when it is chosen again. *)
Definition sched : M kst unit :=
  p <- asks c_proc ;;
  h <- holding (LProc p) ;;
  if negb h then panic "sched p->lock" else
  noff <- asks c_noff ;;
  if negb (noff =? 1) then panic "sched locks" else
  st <- pget p p_state ;;
  if decide (st = RUNNING) then panic "sched running" else
  i <- intr_get ;;
  if (i : bool) then panic "sched interruptible" else
  (fun c s => Sleep ChSched c s (fun s' => Done tt c s')).

Definition yield : M kst unit :=
  p <- asks c_proc ;;
  acquire (LProc p) ;;
  pset p (set_pstate RUNNABLE) ;;
  sched ;;
  release (LProc p).

Fixpoint exit_files (k : nat) (p fd : Z) : M kst unit :=
  match k with
  | O => ret tt
  | S k' =>
      f <- pget p (fun x => znth None (p_ofile x) fd) ;;
      match f with
      | Some f =>
          fileclose f ;;
          pset p (fun x => set_pofile (zupd (p_ofile x) fd None) x)
      | None => ret tt
      end ;;
      exit_files k' p (fd + 1)
  end.

Definition exit {A} (status : Z) : M kst A :=
  p <- asks c_proc ;;
  init <- gets k_initproc ;;
  if decide (init = Some p) then panic "init exiting" else
  exit_files (Z.to_nat NOFILE) p 0 ;;
  log_ begin_op ;;
  cwd <- pget p p_cwd ;;
  match cwd with
  | None => panic "kerneltrap" (* a null pointer *)
  | Some ip =>
      iput ip ;;
      log_ end_op ;;
      pset p (set_pcwd None) ;;
      acquire LWait ;;
      reparent p ;;
      parent <- pget p p_parent ;;
      match parent with Some q => wakeup (ChProc q) | None => ret tt end ;;
      acquire (LProc p) ;;
      pset p (set_pxstate status) ;;
      pset p (set_pstate ZOMBIE) ;;
      release LWait ;;
      sched ;;
      panic "zombie exit"
  end.

(** One scan of the table by [wait]: [inl r] when [wait] returns [r], [inr havekids]
    otherwise. *)
Fixpoint wait_scan (k : nat) (p addr pp : Z) (havekids : bool) : M kst (Z + bool) :=
  match k with
  | O => ret (inr havekids)
  | S k' =>
      parent <- pget pp p_parent ;;
      if decide (parent = Some p) then
        acquire (LProc pp) ;;
        st <- pget pp p_state ;;
        if decide (st = ZOMBIE) then
          pid <- pget pp p_pid ;;
          r <- (if addr =? 0 then ret 0
                else
                  pt <- pget p p_pagetable ;;
                  x <- pget pp p_xstate ;;
                  mem_ (copyout pt addr (le_bytes 4 (u32 x)))) ;;
          if r <? 0 then
            release (LProc pp) ;;
            release LWait ;;
            ret (inl (-1))
          else
            freeproc pp ;;
            release (LProc pp) ;;
            release LWait ;;
            ret (inl pid)
        else
          release (LProc pp) ;;
          wait_scan k' p addr (pp + 1) true
      else wait_scan k' p addr (pp + 1) havekids
  end.

Fixpoint wait_loop (fuel : nat) (p addr : Z) : M kst Z :=
  r <- wait_scan (Z.to_nat NPROC) p addr 0 false ;;
  match r with
  | inl r => ret r
  | inr havekids =>
      dead <- (if negb havekids then ret 1 else killed p) ;;
      if truth dead then
        release LWait ;;
        ret (-1)
      else
        match fuel with
        | O => diverge
        | S fuel' =>
            sleep (ChProc p) LWait ;;
            wait_loop fuel' p addr
        end
  end.

Definition wait (addr : Z) : M kst Z :=
  p <- asks c_proc ;;
  fuel <- asks c_fuel ;;
  acquire LWait ;;
  wait_loop fuel p addr.

(** ** kill *)

Fixpoint kill_loop (k : nat) (pid p : Z) : M kst Z :=
  match k with
  | O => ret (-1)
  | S k' =>
      acquire (LProc p) ;;
      x <- gets (fun s => getp s p) ;;
      if p_pid x =? pid then
        pset p (set_pkilled 1) ;;
        when (bool_decide (p_state x = SLEEPING)) (pset p (set_pstate RUNNABLE)) ;;
        release (LProc p) ;;
        ret 0
      else
        release (LProc p) ;;
        kill_loop k' pid (p + 1)
  end.

Definition kill (pid : Z) : M kst Z := kill_loop (Z.to_nat NPROC) pid 0.

Definition setkilled (p : Z) : M kst unit :=
  acquire (LProc p) ;;
  pset p (set_pkilled 1) ;;
  release (LProc p).

End Proc.
