(* ===== verification/Exec.v ===== *)
(** * Loading a program (kernel/exec.c, kernel/elf.h) *)
From S2P Require Import Prelude Bytes Memory Machine Riscv Kalloc Vm Bio Log Kernel Fs Pipe Proc.

Definition ELF_MAGIC : Z := 0x464C457F.
Definition ELF_PROG_LOAD : Z := 1.

Abbreviation get64 := (getn 8).

(** struct elfhdr: 64 bytes. *)
Definition elf_size : Z := 64.
Definition elf_magic (d : list Z) : Z := get32 d 0.
Definition elf_entry (d : list Z) : Z := get64 d 24.
Definition elf_phoff (d : list Z) : Z := get64 d 32.
Definition elf_phnum (d : list Z) : Z := get16 d 56.

(** struct proghdr: 56 bytes. *)
Definition ph_size : Z := 56.
Definition ph_type (d : list Z) : Z := get32 d 0.
Definition ph_flags (d : list Z) : Z := get32 d 4.
Definition ph_off (d : list Z) : Z := get64 d 8.
Definition ph_vaddr (d : list Z) : Z := get64 d 16.
Definition ph_filesz (d : list Z) : Z := get64 d 32.
Definition ph_memsz (d : list Z) : Z := get64 d 40.

Definition flags2perm (flags : Z) : Z :=
  let perm := if truth (Z.land flags 1) then PTE_X else 0 in
  if truth (Z.land flags 2) then Z.lor perm PTE_W else perm.

(** The program name: what follows the last slash. *)
Fixpoint last_elem (path last : list Z) : list Z :=
  match path with
  | [] => last
  | x :: path' => if x =? SLASH then last_elem path' path' else last_elem path' last
  end.

Section Exec.
Context {image : KernelImage} {dsw : DevSw} {syms : KernelSymbols}.

(** The destination of [readi] is the page at [pa]. *)
Fixpoint loadseg_loop (k : nat) (pagetable va ip offset sz i : Z) : M kst Z :=
  if i <? sz then
    match k with
    | O => diverge
    | S k' =>
        pa <- mem_ (walkaddr pagetable (u64 (va + i))) ;;
        if pa =? 0 then panic "loadseg: address should exist" else
        let n := if sz - i <? PGSIZE then sz - i else PGSIZE in
        r <- readi ip None (u32 (offset + i)) n ;;
        let '(r, bytes) := (r : Z * list Z) in
        mem_ (modify (fun s => set_pm (wr_list (pm s) pa bytes) s)) ;;
        if negb (r =? n) then ret (-1) else
        loadseg_loop k' pagetable va ip offset sz (i + PGSIZE)
    end
  else ret 0.

Definition loadseg (pagetable va ip offset sz : Z) : M kst Z :=
  loadseg_loop (Z.to_nat (sz / PGSIZE + 1)) pagetable va ip offset sz 0.

Definition exec_bad (pagetable sz : Z) (ip : option Z) : M kst Z :=
  when (truth pagetable) (mem_ (proc_freepagetable pagetable sz)) ;;
  match ip with
  | Some ip => iunlockput ip ;; log_ end_op
  | None => ret tt
  end ;;
  ret (-1).

(** The loop over the program headers: the size reached, and whether to go on. *)
Fixpoint exec_segments (k : nat) (pagetable ip off sz : Z) : M kst (Z * bool) :=
  match k with
  | O => ret (sz, true)
  | S k' =>
      r <- readi ip None (u32 off) ph_size ;;
      let '(r, ph) := (r : Z * list Z) in
      if negb (r =? ph_size) then ret (sz, false) else
      if negb (ph_type ph =? ELF_PROG_LOAD) then exec_segments k' pagetable ip (s32 (off + ph_size)) sz else
      if ph_memsz ph <? ph_filesz ph then ret (sz, false) else
      if u64 (ph_vaddr ph + ph_memsz ph) <? ph_vaddr ph then ret (sz, false) else
      if negb (ph_vaddr ph mod PGSIZE =? 0) then ret (sz, false) else
      sz1 <- mem_ (uvmalloc pagetable sz (u64 (ph_vaddr ph + ph_memsz ph)) (flags2perm (ph_flags ph))) ;;
      if sz1 =? 0 then ret (sz, false) else
      r <- loadseg pagetable (ph_vaddr ph) ip (u32 (ph_off ph)) (u32 (ph_filesz ph)) ;;
      if r <? 0 then ret (sz1, false) else
      exec_segments k' pagetable ip (s32 (off + ph_size)) sz1
  end.

(** The argument strings are pushed: the stack pointer and [ustack]. *)
Fixpoint exec_args (pagetable stackbase sp argc : Z) (argv : list (list Z)) (ustack : list Z) : M kst (option (Z * list Z)) :=
  match argv with
  | [] => ret (Some (sp, ustack))
  | a :: argv' =>
      if MAXARG <=? argc then ret None else
      let sp := u64 (sp - (zlen a + 1)) in
      let sp := sp - sp mod 16 in
      if sp <? stackbase then ret None else
      r <- mem_ (copyout pagetable sp (a ++ [0])) ;;
      if r <? 0 then ret None else
      exec_args pagetable stackbase sp (argc + 1) argv' (ustack ++ [sp])
  end.

(** From the loaded segments on: the stack, the arguments, and the switch of images. *)
Definition exec_image (path : list Z) (argv : list (list Z)) (elf : list Z) (pagetable sz : Z) : M kst Z :=
  p <- asks c_proc ;;
  oldsz <- pget p p_sz ;;
  let sz := PGROUNDUP sz in
  sz1 <- mem_ (uvmalloc pagetable sz (u64 (sz + 2 * PGSIZE)) PTE_W) ;;
  if sz1 =? 0 then exec_bad pagetable sz None else
  let sz := sz1 in
  mem_ (uvmclear pagetable (sz - 2 * PGSIZE)) ;;
  let stackbase := sz - PGSIZE in
  a <- exec_args pagetable stackbase sz 0 argv [] ;;
  match a with
  | None => exec_bad pagetable sz None
  | Some (sp, ustack) =>
      let argc := zlen argv in
      let sp := u64 (sp - (argc + 1) * 8) in
      let sp := sp - sp mod 16 in
      if sp <? stackbase then exec_bad pagetable sz None else
      r <- mem_ (copyout pagetable sp (concat (map (le_bytes 8) (ustack ++ [0])))) ;;
      if r <? 0 then exec_bad pagetable sz None else
      tf_set p TF_a1 sp ;;
      pset p (fun x => set_pname (bytes_safestrcpy (p_name x) (last_elem path path) 16) x) ;;
      oldpagetable <- pget p p_pagetable ;;
      pset p (set_ppagetable pagetable) ;;
      pset p (set_psz sz) ;;
      tf_set p TF_epc (elf_entry elf) ;;
      tf_set p TF_sp sp ;;
      mem_ (proc_freepagetable oldpagetable oldsz) ;;
      ret argc
  end.

Definition exec (path : list Z) (argv : list (list Z)) : M kst Z :=
  p <- asks c_proc ;;
  log_ begin_op ;;
  i <- namei path ;;
  match i with
  | None =>
      log_ end_op ;;
      ret (-1)
  | Some ip =>
      ilock ip ;;
      r <- readi ip None 0 elf_size ;;
      let '(r, elf) := (r : Z * list Z) in
      if negb (r =? elf_size) then exec_bad 0 0 (Some ip) else
      if negb (elf_magic elf =? ELF_MAGIC) then exec_bad 0 0 (Some ip) else
      tf <- pget p p_trapframe ;;
      pagetable <- mem_ (proc_pagetable tf) ;;
      if pagetable =? 0 then exec_bad 0 0 (Some ip) else
      r <- exec_segments (Z.to_nat (elf_phnum elf)) pagetable ip (s32 (elf_phoff elf)) 0 ;;
      let '(sz, ok) := (r : Z * bool) in
      if negb ok then exec_bad pagetable sz (Some ip) else
      iunlockput ip ;;
      log_ end_op ;;
      exec_image path argv elf pagetable sz
  end.

End Exec.
