(* ===== verification/Sys.v ===== *)
(** * System calls (kernel/syscall.c, kernel/sysproc.c, kernel/sysfile.c) *)
From S2P Require Import Prelude Bytes Memory Machine Riscv Kalloc Vm Bio Log Kernel Fs Pipe Proc Exec.

(** kernel/fcntl.h *)
Definition O_RDONLY : Z := 0x000.
Definition O_WRONLY : Z := 0x001.
Definition O_RDWR : Z := 0x002.
Definition O_CREATE : Z := 0x200.
Definition O_TRUNC : Z := 0x400.

Section Args.
Context {image : KernelImage}.

(** ** Arguments *)

(** The status and the value. *)
Definition fetchaddr (addr : Z) : M kst (Z * Z) :=
  p <- asks c_proc ;;
  sz <- pget p p_sz ;;
  if (sz <=? addr) || (sz <? u64 (addr + 8)) then ret (-1, 0) else
  pt <- pget p p_pagetable ;;
  r <- mem_ (copyin pt addr 8) ;;
  let '(r, bytes) := (r : Z * list Z) in
  if negb (r =? 0) then ret (-1, 0) else ret (0, le_val bytes).

(** The status and the string. *)
Definition fetchstr (addr max : Z) : M kst (Z * list Z) :=
  p <- asks c_proc ;;
  pt <- pget p p_pagetable ;;
  r <- mem_ (copyinstr pt addr max) ;;
  let '(r, buf) := (r : Z * list Z) in
  if r <? 0 then ret (-1, []) else ret (zlen (cstr buf), cstr buf).

Definition argraw (n : Z) : M kst Z :=
  p <- asks c_proc ;;
  if (0 <=? n) && (n <=? 5) then tf_get p (TF_a0 + 8 * n) else panic "argraw".

Definition argint (n : Z) : M kst Z := x <- argraw n ;; ret (s32 x).
Definition argaddr (n : Z) : M kst Z := argraw n.

Definition argstr (n max : Z) : M kst (Z * list Z) :=
  addr <- argaddr n ;;
  fetchstr addr max.

(** The descriptor and the file. *)
Definition argfd (n : Z) : M kst (option (Z * Z)) :=
  fd <- argint n ;;
  if (fd <? 0) || (NOFILE <=? fd) then ret None else
  f <- myproc (fun p => znth None (p_ofile p) fd) ;;
  match f with
  | None => ret None
  | Some f => ret (Some (fd, f))
  end.

(** The first free descriptor from [fd] on. *)
Fixpoint fdalloc_loop (k : nat) (f fd : Z) : M kst Z :=
  match k with
  | O => ret (-1)
  | S k' =>
      p <- asks c_proc ;;
      x <- pget p (fun p => znth None (p_ofile p) fd) ;;
      match x with
      | None =>
          pset p (fun p => set_pofile (zupd (p_ofile p) fd (Some f)) p) ;;
          ret fd
      | Some _ => fdalloc_loop k' f (fd + 1)
      end
  end.

Definition fdalloc (f : Z) : M kst Z := fdalloc_loop (Z.to_nat NOFILE) f 0.

Definition fdclear (fd : Z) : M kst unit :=
  p <- asks c_proc ;;
  pset p (fun p => set_pofile (zupd (p_ofile p) fd None) p).

End Args.

(** ** Processes *)

Section Sys.
Context {image : KernelImage} {dsw : DevSw} {syms : KernelSymbols} {junk : StackJunk}.

Definition sys_exit : M kst Z := n <- argint 0 ;; exit n.
Definition sys_getpid : M kst Z := myproc p_pid.
Definition sys_fork : M kst Z := fork.
Definition sys_wait : M kst Z := p <- argaddr 0 ;; wait p.

Definition sys_sbrk : M kst Z :=
  n <- argint 0 ;;
  addr <- myproc p_sz ;;
  r <- growproc n ;;
  if r <? 0 then ret (-1) else ret addr.

(** [ticks - ticks0 < n] compares unsigned. *)
Fixpoint sys_sleep_loop (fuel : nat) (ticks0 n : Z) : M kst Z :=
  ticks <- gets k_ticks ;;
  if u32 (ticks - ticks0) <? u32 n then
    p <- asks c_proc ;;
    dead <- killed p ;;
    if truth dead then
      release LTicks ;;
      ret (-1)
    else
      match fuel with
      | O => diverge
      | S fuel' =>
          sleep ChTicks LTicks ;;
          sys_sleep_loop fuel' ticks0 n
      end
  else
    release LTicks ;;
    ret 0.

Definition sys_sleep : M kst Z :=
  n <- argint 0 ;;
  fuel <- asks c_fuel ;;
  acquire LTicks ;;
  ticks0 <- gets k_ticks ;;
  sys_sleep_loop fuel ticks0 n.

Definition sys_kill : M kst Z := pid <- argint 0 ;; kill pid.

Definition sys_uptime : M kst Z :=
  acquire LTicks ;;
  xticks <- gets k_ticks ;;
  release LTicks ;;
  ret xticks.

Definition sys_trace : M kst Z :=
  mask <- argint 0 ;;
  p <- asks c_proc ;;
  pset p (set_pmask mask) ;;
  ret 0.

(** ** Files *)

Definition sys_dup : M kst Z :=
  a <- argfd 0 ;;
  match a with
  | None => ret (-1)
  | Some (_, f) =>
      fd <- fdalloc f ;;
      if fd <? 0 then ret (-1) else
      filedup f ;;
      ret fd
  end.

Definition sys_read : M kst Z :=
  p <- argaddr 1 ;;
  n <- argint 2 ;;
  a <- argfd 0 ;;
  match a with
  | None => ret (-1)
  | Some (_, f) => fileread f p n
  end.

Definition sys_write : M kst Z :=
  p <- argaddr 1 ;;
  n <- argint 2 ;;
  a <- argfd 0 ;;
  match a with
  | None => ret (-1)
  | Some (_, f) => filewrite f p n
  end.

Definition sys_close : M kst Z :=
  a <- argfd 0 ;;
  match a with
  | None => ret (-1)
  | Some (fd, f) =>
      fdclear fd ;;
      fileclose f ;;
      ret 0
  end.

Definition sys_fstat : M kst Z :=
  st <- argaddr 1 ;;
  a <- argfd 0 ;;
  match a with
  | None => ret (-1)
  | Some (_, f) => filestat f st
  end.

(** The exits of the file-system calls. *)
Definition end_with (r : Z) : M kst Z := log_ end_op ;; ret r.
Definition put_and_end (ip r : Z) : M kst Z := iunlockput ip ;; end_with r.

Definition add_nlink (ip d : Z) : M kst unit :=
  iset ip (fun i => set_inlink (s16 (i_nlink i + d)) i) ;;
  iupdate ip.

Definition link_bad (ip : Z) : M kst Z :=
  ilock ip ;;
  add_nlink ip (-1) ;;
  put_and_end ip (-1).

Definition sys_link : M kst Z :=
  a <- argstr 0 MAXPATH ;;
  if fst (a : Z * list Z) <? 0 then ret (-1) else
  b <- argstr 1 MAXPATH ;;
  if fst (b : Z * list Z) <? 0 then ret (-1) else
  log_ begin_op ;;
  i <- namei (snd a) ;;
  match i with
  | None => end_with (-1)
  | Some ip =>
      ilock ip ;;
      type <- iget_field ip i_type ;;
      if type =? T_DIR then put_and_end ip (-1) else
      add_nlink ip 1 ;;
      iunlock ip ;;
      d <- nameiparent (snd b) ;;
      match d with
      | (None, _) => link_bad ip
      | (Some dp, name) =>
          ilock dp ;;
          ddev <- iget_field dp i_dev ;;
          idev <- iget_field ip i_dev ;;
          inum <- iget_field ip i_inum ;;
          r <- (if negb (ddev =? idev) then ret (-1) else dirlink dp name inum) ;;
          if r <? 0 then
            iunlockput dp ;;
            link_bad ip
          else
            iunlockput dp ;;
            iput ip ;;
            end_with 0
      end
  end.

Fixpoint isdirempty_loop (k : nat) (dp off : Z) : M kst bool :=
  size <- iget_field dp i_size ;;
  if off <? size then
    match k with
    | O => diverge
    | S k' =>
        r <- readi dp None off 16 ;;
        let '(n, de) := (r : Z * list Z) in
        if negb (n =? 16) then panic "isdirempty: readi" else
        if negb (de_inum de =? 0) then ret false else isdirempty_loop k' dp (off + 16)
    end
  else ret true.

Definition isdirempty (dp : Z) : M kst bool :=
  size <- iget_field dp i_size ;;
  isdirempty_loop (Z.to_nat (size / 16 + 1)) dp 32.

Definition DOT : list Z := [46].
Definition DOTDOT : list Z := [46; 46].

Definition sys_unlink : M kst Z :=
  a <- argstr 0 MAXPATH ;;
  if fst (a : Z * list Z) <? 0 then ret (-1) else
  log_ begin_op ;;
  d <- nameiparent (snd a) ;;
  match d with
  | (None, _) => end_with (-1)
  | (Some dp, name) =>
      ilock dp ;;
      if (namecmp name DOT =? 0) || (namecmp name DOTDOT =? 0) then put_and_end dp (-1) else
      e <- dirlookup dp name ;;
      match e with
      | None => put_and_end dp (-1)
      | Some (ip, off) =>
          ilock ip ;;
          nlink <- iget_field ip i_nlink ;;
          if nlink <? 1 then panic "unlink: nlink < 1" else
          type <- iget_field ip i_type ;;
          empty <- (if type =? T_DIR then isdirempty ip else ret true) ;;
          if negb empty then
            iunlockput ip ;;
            put_and_end dp (-1)
          else
            n <- writei dp (KSrc (replicate 16 0)) off 16 ;;
            if negb (n =? 16) then panic "unlink: writei" else
            when (type =? T_DIR) (add_nlink dp (-1)) ;;
            iunlockput dp ;;
            add_nlink ip (-1) ;;
            iunlockput ip ;;
            end_with 0
      end
  end.

Definition create_fail (ip dp : Z) : M kst (option Z) :=
  iset ip (set_inlink 0) ;;
  iupdate ip ;;
  iunlockput ip ;;
  iunlockput dp ;;
  ret None.

(** Returns the new or the existing inode, locked. *)
Definition create (path : list Z) (type major minor : Z) : M kst (option Z) :=
  d <- nameiparent path ;;
  match d with
  | (None, _) => ret None
  | (Some dp, name) =>
      ilock dp ;;
      e <- dirlookup dp name ;;
      match e with
      | Some (ip, _) =>
          iunlockput dp ;;
          ilock ip ;;
          t <- iget_field ip i_type ;;
          if (type =? T_FILE) && ((t =? T_FILE) || (t =? T_DEVICE)) then ret (Some ip)
          else
            iunlockput ip ;;
            ret None
      | None =>
          ddev <- iget_field dp i_dev ;;
          i <- ialloc ddev type ;;
          match i with
          | None =>
              iunlockput dp ;;
              ret None
          | Some ip =>
              ilock ip ;;
              iset ip (fun i => set_inlink 1 (set_idev major minor i)) ;;
              iupdate ip ;;
              inum <- iget_field ip i_inum ;;
              dinum <- iget_field dp i_inum ;;
              r <- (if type =? T_DIR then
                      r <- dirlink ip DOT inum ;;
                      if r <? 0 then ret r else dirlink ip DOTDOT dinum
                    else ret 0) ;;
              if r <? 0 then create_fail ip dp else
              r <- dirlink dp name inum ;;
              if r <? 0 then create_fail ip dp else
              when (type =? T_DIR) (add_nlink dp 1) ;;
              iunlockput dp ;;
              ret (Some ip)
          end
      end
  end.

(** The rest of [sys_open], with [ip] locked. *)
Definition open_inode (ip omode : Z) : M kst Z :=
  i <- gets (fun s => geti s ip) ;;
  if (i_type i =? T_DEVICE) && ((i_major i <? 0) || (NDEV <=? i_major i)) then put_and_end ip (-1) else
  f <- filealloc ;;
  match f with
  | None => put_and_end ip (-1)
  | Some f =>
      fd <- fdalloc f ;;
      if fd <? 0 then
        fileclose f ;;
        put_and_end ip (-1)
      else
        (if i_type i =? T_DEVICE then fset f (fun x => set_fmajor (i_major i) (set_ftype FD_DEVICE x))
         else fset f (fun x => set_foff 0 (set_ftype FD_INODE x))) ;;
        fset f (fun x =>
          set_fmode (int_of_bool (negb (truth (Z.land omode O_WRONLY))))
            (int_of_bool (truth (Z.land omode O_WRONLY) || truth (Z.land omode O_RDWR)))
            (set_fip ip x)) ;;
        when (truth (Z.land omode O_TRUNC) && (i_type i =? T_FILE)) (itrunc ip) ;;
        iunlock ip ;;
        end_with fd
  end.

Definition sys_open : M kst Z :=
  omode <- argint 1 ;;
  a <- argstr 0 MAXPATH ;;
  if fst (a : Z * list Z) <? 0 then ret (-1) else
  log_ begin_op ;;
  if truth (Z.land omode O_CREATE) then
    i <- create (snd a) T_FILE 0 0 ;;
    match i with
    | None => end_with (-1)
    | Some ip => open_inode ip omode
    end
  else
    i <- namei (snd a) ;;
    match i with
    | None => end_with (-1)
    | Some ip =>
        ilock ip ;;
        type <- iget_field ip i_type ;;
        if (type =? T_DIR) && negb (omode =? O_RDONLY) then put_and_end ip (-1) else
        open_inode ip omode
    end.

Definition sys_mkdir : M kst Z :=
  log_ begin_op ;;
  a <- argstr 0 MAXPATH ;;
  if fst (a : Z * list Z) <? 0 then end_with (-1) else
  i <- create (snd a) T_DIR 0 0 ;;
  match i with
  | None => end_with (-1)
  | Some ip => put_and_end ip 0
  end.

Definition sys_mknod : M kst Z :=
  log_ begin_op ;;
  major <- argint 1 ;;
  minor <- argint 2 ;;
  a <- argstr 0 MAXPATH ;;
  if fst (a : Z * list Z) <? 0 then end_with (-1) else
  i <- create (snd a) T_DEVICE (s16 major) (s16 minor) ;;
  match i with
  | None => end_with (-1)
  | Some ip => put_and_end ip 0
  end.

Definition sys_chdir : M kst Z :=
  log_ begin_op ;;
  a <- argstr 0 MAXPATH ;;
  if fst (a : Z * list Z) <? 0 then end_with (-1) else
  i <- namei (snd a) ;;
  match i with
  | None => end_with (-1)
  | Some ip =>
      ilock ip ;;
      type <- iget_field ip i_type ;;
      if negb (type =? T_DIR) then put_and_end ip (-1) else
      iunlock ip ;;
      cwd <- myproc p_cwd ;;
      match cwd with
      | None => panic "kerneltrap" (* a null pointer *)
      | Some old =>
          iput old ;;
          log_ end_op ;;
          p <- asks c_proc ;;
          pset p (set_pcwd (Some ip)) ;;
          ret 0
      end
  end.

Fixpoint kfree_all (pages : list Z) : M kst unit :=
  match pages with
  | [] => ret tt
  | pa :: pages' => mem_ (kfree pa) ;; kfree_all pages'
  end.

(** The argument vector: whether it was fetched, its pages and its strings. *)
Fixpoint exec_fetch (k : nat) (uargv i : Z) (pages : list Z) (argv : list (list Z)) : M kst (bool * list Z * list (list Z)) :=
  match k with
  | O => ret (false, pages, argv)
  | S k' =>
      a <- fetchaddr (u64 (uargv + 8 * i)) ;;
      let '(r, uarg) := (a : Z * Z) in
      if r <? 0 then ret (false, pages, argv) else
      if uarg =? 0 then ret (true, pages, argv) else
      pa <- mem_ kalloc ;;
      if pa =? 0 then ret (false, pages, argv) else
      s <- fetchstr uarg PGSIZE ;;
      let '(n, str) := (s : Z * list Z) in
      if n <? 0 then ret (false, pages ++ [pa], argv) else
      exec_fetch k' uargv (i + 1) (pages ++ [pa]) (argv ++ [str])
  end.

Definition sys_exec : M kst Z :=
  uargv <- argaddr 1 ;;
  a <- argstr 0 MAXPATH ;;
  if fst (a : Z * list Z) <? 0 then ret (-1) else
  v <- exec_fetch (Z.to_nat MAXARG) uargv 0 [] [] ;;
  let '(ok, pages, argv) := (v : bool * list Z * list (list Z)) in
  if negb ok then
    kfree_all pages ;;
    ret (-1)
  else
    r <- exec (snd a) argv ;;
    kfree_all pages ;;
    ret r.

Definition sys_pipe : M kst Z :=
  p <- asks c_proc ;;
  fdarray <- argaddr 0 ;;
  a <- pipealloc ;;
  match a with
  | (0, Some rf, Some wf) =>
      fd0 <- fdalloc rf ;;
      if fd0 <? 0 then
        fileclose rf ;;
        fileclose wf ;;
        ret (-1)
      else
        fd1 <- fdalloc wf ;;
        if fd1 <? 0 then
          fdclear fd0 ;;
          fileclose rf ;;
          fileclose wf ;;
          ret (-1)
        else
          pt <- pget p p_pagetable ;;
          r <- mem_ (copyout pt fdarray (le_bytes 4 (u32 fd0))) ;;
          r <- (if r <? 0 then ret r else mem_ (copyout pt (u64 (fdarray + 4)) (le_bytes 4 (u32 fd1)))) ;;
          if r <? 0 then
            fdclear fd0 ;;
            fdclear fd1 ;;
            fileclose rf ;;
            fileclose wf ;;
            ret (-1)
          else ret 0
  | _ => ret (-1)
  end.

(** ** Dispatch *)

Definition syscalls (num : Z) : option (M kst Z) :=
  match num with
  | 1 => Some sys_fork
  | 2 => Some sys_exit
  | 3 => Some sys_wait
  | 4 => Some sys_pipe
  | 5 => Some sys_read
  | 6 => Some sys_kill
  | 7 => Some sys_exec
  | 8 => Some sys_fstat
  | 9 => Some sys_chdir
  | 10 => Some sys_dup
  | 11 => Some sys_getpid
  | 12 => Some sys_sbrk
  | 13 => Some sys_sleep
  | 14 => Some sys_uptime
  | 15 => Some sys_open
  | 16 => Some sys_write
  | 17 => Some sys_mknod
  | 18 => Some sys_unlink
  | 19 => Some sys_link
  | 20 => Some sys_mkdir
  | 21 => Some sys_close
  | 22 => Some sys_trace
  | _ => None
  end.

Definition NSYSCALLS : Z := 23.

Definition syscall : M kst unit :=
  p <- asks c_proc ;;
  a7 <- tf_get p TF_a7 ;;
  let num := s32 a7 in
  match (if (0 <? num) && (num <? NSYSCALLS) then syscalls num else None) with
  | Some f =>
      r <- f ;;
      tf_set p TF_a0 r ;;
      mask <- pget p p_mask ;;
      when (truth (Z.land (s32 (Z.shiftl 1 num)) mask))
        (pid <- pget p p_pid ;;
         name <- pget p p_name ;;
         a0 <- tf_get p TF_a0 ;;
         printf "%d: syscall %s -> %d\n" (pid :: name ++ [s32 a0]))
  | None =>
      pid <- pget p p_pid ;;
      name <- pget p p_name ;;
      printf "%d %s: unknown sys call %d\n" (pid :: name ++ [num]) ;;
      tf_set p TF_a0 (-1)
  end.

End Sys.
