(* ===== verification/Sched.v ===== *)
(** * Processes on several CPUs (kernel/proc.c)

    The scheduler of every CPU, the kernel thread of every process and the interrupt
    handlers that run on top of either, at the granularity of the writes to [p->state],
    [p->chan] and [c->proc].  A CPU runs a stack of calls: the scheduler's own, or that
    of the process it has switched to; [swtch] changes which.  [hart_step] is the next
    step of a CPU inside scheduler(), sched(), sleep(), wakeup(), yield(), forkret() or
    the end of exit(); [step] adds what the rest of the kernel does between such calls.
    Spinlocks are taken and released in one step, which [Spinlock] justifies. *)
From S2P Require Import Prelude Machine Kernel.

(** ** The world *)

(** What a call to sched() returns to. *)
Inductive after := A_sleep (ch : chan) (lk : lockid) | A_yield | A_exit.

(** Where a call is, named after what it does next. *)
Inductive pc :=
| Code                               (* kernel or user code outside these functions *)
| Handler                            (* an interrupt handler *)
| D_on                               (* scheduler: intr_on() *)
| D_lock (p : Z)                     (* acquire(&p->lock), or the end of the loop *)
| D_check (p : Z)                    (* if(p->state == RUNNABLE) *)
| D_run (p : Z)                      (* p->state = RUNNING *)
| D_cpu (p : Z)                      (* c->proc = p *)
| D_swtch (p : Z)                    (* swtch(&c->context, &p->context) *)
| D_in (p : Z)                       (* the CPU runs p *)
| D_out (p : Z)                      (* c->proc = 0 *)
| D_unlock (p : Z)                   (* release(&p->lock) *)
| F_unlock                           (* forkret: release(&myproc()->lock) *)
| S_lock (ch : chan) (lk : lockid)   (* sleep: acquire(&p->lock) *)
| S_unlock (ch : chan) (lk : lockid) (* release(lk) *)
| S_chan (ch : chan) (lk : lockid)   (* p->chan = chan *)
| S_state (ch : chan) (lk : lockid)  (* p->state = SLEEPING *)
| S_tidy (lk : lockid)               (* p->chan = 0 *)
| S_unlockp (lk : lockid)            (* release(&p->lock) *)
| S_relock (lk : lockid)             (* acquire(lk) *)
| C_check (k : after)                (* sched: the four checks, and intena = mycpu()->intena *)
| C_swtch (k : after) (intena : bool) (* swtch(&p->context, &mycpu()->context) *)
| C_back (k : after) (intena : bool) (* mycpu()->intena = intena *)
| Y_lock                             (* yield: acquire(&p->lock) *)
| Y_state                            (* p->state = RUNNABLE *)
| Y_unlock                           (* release(&p->lock) *)
| W_loop (ch : chan) (q : Z)         (* wakeup: the next turn of the loop *)
| W_check (ch : chan) (q : Z)        (* if(p->state == SLEEPING && p->chan == chan) p->state = RUNNABLE *)
| W_unlock (ch : chan) (q : Z)       (* release(&p->lock) *)
| X_lock                             (* exit: acquire(&p->lock) *)
| X_state                            (* p->state = ZOMBIE *)
| X_unlock                           (* release(&wait_lock) *)
| X_zombie                           (* panic("zombie exit") *)
| Stop (msg : string).               (* panicked *)

(** The fields of [struct proc] that matter here, and the process's kernel stack:
    its calls, innermost first. *)
Record sproc := SProc { sp_state : procstate; sp_chan : option chan; sp_stack : list pc }.

(** [struct cpu] with the interrupt-enable bit, the scheduler's stack and the stack the
    CPU is on: the scheduler's (None) or a process's.  [h_held] is a ghost: the locks
    the CPU holds, latest first. *)
Record hart := Hart {
  h_noff : Z; h_intena : bool; h_sie : bool; h_proc : option Z;
  h_cur : option Z; h_stack : list pc; h_held : list lockid;
}.

(** The process table, the CPUs, and the CPU that holds each lock. *)
Record world := World {
  w_procs : Z -> sproc; w_harts : nat -> hart; w_lock : lockid -> option nat;
}.

Definition upd {A B} `{EqDecision A} (a : A) (b : B) (f : A -> B) : A -> B :=
  fun x => if decide (x = a) then b else f x.

Definition setp (p : Z) (x : sproc) (w : world) : world := World (upd p x (w_procs w)) (w_harts w) (w_lock w).
Definition seth (i : nat) (x : hart) (w : world) : world := World (w_procs w) (upd i x (w_harts w)) (w_lock w).
Definition setl (l : lockid) (x : option nat) (w : world) : world := World (w_procs w) (w_harts w) (upd l x (w_lock w)).

Definition set_state (st : procstate) (x : sproc) : sproc := SProc st (sp_chan x) (sp_stack x).
Definition set_chan (ch : option chan) (x : sproc) : sproc := SProc (sp_state x) ch (sp_stack x).
Definition set_stack (s : list pc) (x : sproc) : sproc := SProc (sp_state x) (sp_chan x) s.

Definition with_proc (p : option Z) (h : hart) : hart :=
  Hart (h_noff h) (h_intena h) (h_sie h) p (h_cur h) (h_stack h) (h_held h).
Definition with_cur (p : option Z) (h : hart) : hart :=
  Hart (h_noff h) (h_intena h) (h_sie h) (h_proc h) p (h_stack h) (h_held h).
Definition with_stack (s : list pc) (h : hart) : hart :=
  Hart (h_noff h) (h_intena h) (h_sie h) (h_proc h) (h_cur h) s (h_held h).
Definition with_intena (b : bool) (h : hart) : hart :=
  Hart (h_noff h) b (h_sie h) (h_proc h) (h_cur h) (h_stack h) (h_held h).
Definition with_sie (b : bool) (h : hart) : hart :=
  Hart (h_noff h) (h_intena h) b (h_proc h) (h_cur h) (h_stack h) (h_held h).

(** The stack CPU [i] is on. *)
Definition live (w : world) (i : nat) : list pc :=
  match h_cur (w_harts w i) with
  | None => h_stack (w_harts w i)
  | Some p => sp_stack (w_procs w p)
  end.

Definition set_live (i : nat) (s : list pc) (w : world) : world :=
  match h_cur (w_harts w i) with
  | None => seth i (with_stack s (w_harts w i)) w
  | Some p => setp p (set_stack s (w_procs w p)) w
  end.

Definition goto (i : nat) (x : pc) (w : world) : world := set_live i (x :: tail (live w i)) w.
Definition call (i : nat) (x : pc) (w : world) : world := set_live i (x :: live w i) w.
Definition return_ (i : nat) (w : world) : world := set_live i (tail (live w i)) w.

(** ** Locks *)

(** push_off() and the atomic swap; the release of the lock and pop_off(). *)
Definition took (i : nat) (l : lockid) (w : world) : world :=
  let h := w_harts w i in
  setl l (Some i) (seth i (Hart (h_noff h + 1) (if h_noff h =? 0 then h_sie h else h_intena h) false
                             (h_proc h) (h_cur h) (h_stack h) (l :: h_held h)) w).

Definition dropped (i : nat) (l : lockid) (w : world) : world :=
  let h := w_harts w i in
  setl l None (seth i (Hart (h_noff h - 1) (h_intena h) ((h_noff h - 1 =? 0) && h_intena h)
                         (h_proc h) (h_cur h) (h_stack h) (remove_lock l (h_held h))) w).

(** A CPU that finds the lock taken stays where it is. *)
Definition wacquire (i : nat) (l : lockid) (x : pc) (w : world) : world :=
  match w_lock w l with
  | None => goto i x (took i l w)
  | Some j => if decide (j = i) then goto i (Stop "acquire") w else w
  end.

Definition wrelease (i : nat) (l : lockid) (next : world -> world) (w : world) : world :=
  if decide (w_lock w l = Some i) then
    if h_sie (w_harts w i) then goto i (Stop "pop_off - interruptible") w
    else if h_noff (w_harts w i) <? 1 then goto i (Stop "pop_off") w
    else next (dropped i l w)
  else goto i (Stop "release") w.

(** ** The functions *)

Definition state (w : world) (p : Z) : procstate := sp_state (w_procs w p).
Definition write_state (p : Z) (st : procstate) (w : world) : world := setp p (set_state st (w_procs w p)) w.
Definition write_chan (p : Z) (ch : option chan) (w : world) : world := setp p (set_chan ch (w_procs w p)) w.
Definition write_cproc (i : nat) (p : option Z) (w : world) : world := seth i (with_proc p (w_harts w i)) w.
Definition myproc (w : world) (i : nat) : option Z := h_proc (w_harts w i).

(** scheduler(), after [c->proc = 0]. *)
Definition scheduler_step (i : nat) (x : pc) (w : world) : world :=
  match x with
  | D_on => goto i (D_lock 0) (seth i (with_sie true (w_harts w i)) w)
  | D_lock p => if p <? NPROC then wacquire i (LProc p) (D_check p) w else goto i D_on w
  | D_check p => goto i (if decide (state w p = RUNNABLE) then D_run p else D_unlock p) w
  | D_run p => goto i (D_cpu p) (write_state p RUNNING w)
  | D_cpu p => goto i (D_swtch p) (write_cproc i (Some p) w)
  | D_swtch p =>
      let w1 := goto i (D_in p) w in
      seth i (with_cur (Some p) (w_harts w1 i)) w1
  | D_out p => goto i (D_unlock p) (write_cproc i None w)
  | D_unlock p => wrelease i (LProc p) (goto i (D_lock (p + 1))) w
  | _ => w
  end.

(** The scheduler's stack after the swtch() that ran a process returns. *)
Definition resume (s : list pc) : list pc := match s with D_in q :: r => D_out q :: r | _ => s end.

(** sched(), called by process [p]; [swtch] leaves the CPU on the scheduler's stack. *)
Definition sched_step (i : nat) (p : Z) (x : pc) (w : world) : world :=
  let h := w_harts w i in
  match x with
  | C_check k =>
      if decide (w_lock w (LProc p) = Some i) then
        if h_noff h =? 1 then
          if decide (state w p = RUNNING) then goto i (Stop "sched running") w
          else if h_sie h then goto i (Stop "sched interruptible") w
          else goto i (C_swtch k (h_intena h)) w
        else goto i (Stop "sched locks") w
      else goto i (Stop "sched p->lock") w
  | C_swtch k b =>
      let w1 := goto i (C_back k b) w in
      seth i (with_cur None (with_stack (resume (h_stack h)) h)) w1
  | C_back k b =>
      goto i (match k with A_sleep ch lk => S_tidy lk | A_yield => Y_unlock | A_exit => X_zombie end)
        (seth i (with_intena b h) w)
  | _ => w
  end.

Definition sleep_step (i : nat) (p : Z) (x : pc) (w : world) : world :=
  match x with
  | S_lock ch lk => wacquire i (LProc p) (S_unlock ch lk) w
  | S_unlock ch lk => wrelease i lk (goto i (S_chan ch lk)) w
  | S_chan ch lk => goto i (S_state ch lk) (write_chan p (Some ch) w)
  | S_state ch lk => goto i (C_check (A_sleep ch lk)) (write_state p SLEEPING w)
  | S_tidy lk => goto i (S_unlockp lk) (write_chan p None w)
  | S_unlockp lk => wrelease i (LProc p) (goto i (S_relock lk)) w
  | S_relock lk =>
      match w_lock w lk with
      | None => return_ i (took i lk w)
      | Some j => if decide (j = i) then goto i (Stop "acquire") w else w
      end
  | _ => w
  end.

Definition yield_step (i : nat) (p : Z) (x : pc) (w : world) : world :=
  match x with
  | Y_lock => wacquire i (LProc p) Y_state w
  | Y_state => goto i (C_check A_yield) (write_state p RUNNABLE w)
  | Y_unlock => wrelease i (LProc p) (return_ i) w
  | _ => w
  end.

(** wakeup(), on a process's stack or in a handler on the scheduler's. *)
Definition wakeup_step (i : nat) (x : pc) (w : world) : world :=
  match x with
  | W_loop ch q =>
      if q <? NPROC then
        if decide (myproc w i = Some q) then goto i (W_loop ch (q + 1)) w
        else wacquire i (LProc q) (W_check ch q) w
      else return_ i w
  | W_check ch q =>
      goto i (W_unlock ch q)
        (if decide (state w q = SLEEPING /\ sp_chan (w_procs w q) = Some ch) then write_state q RUNNABLE w else w)
  | W_unlock ch q => wrelease i (LProc q) (goto i (W_loop ch (q + 1))) w
  | _ => w
  end.

(** forkret() up to the release of the lock scheduler() took. *)
Definition forkret_step (i : nat) (x : pc) (w : world) : world :=
  match x, myproc w i with
  | F_unlock, Some p => wrelease i (LProc p) (goto i Code) w
  | _, _ => w
  end.

(** exit(), from [acquire(&p->lock)] on. *)
Definition exit_step (i : nat) (p : Z) (x : pc) (w : world) : world :=
  match x with
  | X_lock => wacquire i (LProc p) X_state w
  | X_state => goto i X_unlock (write_state p ZOMBIE w)
  | X_unlock => wrelease i LWait (goto i (C_check A_exit)) w
  | X_zombie => goto i (Stop "zombie exit") w
  | _ => w
  end.

(** The next step of CPU [i]; code outside these functions is left to [step]. *)
Definition hart_step (i : nat) (w : world) : world :=
  match live w i with
  | [] => w
  | x :: _ =>
      match x, h_cur (w_harts w i) with
      | (Code | Handler | D_in _ | Stop _), _ => w
      | (D_on | D_lock _ | D_check _ | D_run _ | D_cpu _ | D_swtch _ | D_out _ | D_unlock _), _ => scheduler_step i x w
      | F_unlock, _ => forkret_step i x w
      | (W_loop _ _ | W_check _ _ | W_unlock _ _), _ => wakeup_step i x w
      | (S_lock _ _ | S_unlock _ _ | S_chan _ _ | S_state _ _ | S_tidy _ | S_unlockp _ | S_relock _), Some p => sleep_step i p x w
      | (C_check _ | C_swtch _ _ | C_back _ _), Some p => sched_step i p x w
      | (Y_lock | Y_state | Y_unlock), Some p => yield_step i p x w
      | (X_lock | X_state | X_unlock | X_zombie), Some p => exit_step i p x w
      | _, None => w
      end
  end.

(** ** The rest of the kernel *)

Definition is_proc_lock (l : lockid) : bool := match l with LProc _ => true | _ => false end.
Definition no_proc_locks (held : list lockid) : Prop := Forall (fun l => is_proc_lock l = false) held.

Definition is_code (x : pc) : bool := match x with Code | Handler => true | _ => false end.

(** What the kernel may call, holding the locks [held]: sleep() with its condition's lock
    and no other; yield() with none, and in a handler only over a running process;
    wakeup() without any process's lock; the end of exit() with [wait_lock]. *)
Definition may_call (w : world) (i : nat) (from to : pc) : Prop :=
  let h := w_harts w i in
  match to with
  | S_lock ch lk => from = Code /\ h_held h = [lk] /\ is_proc_lock lk = false
  | Y_lock => h_held h = [] /\ exists p, h_cur h = Some p /\ (from = Handler -> state w p = RUNNING)
  | W_loop ch q => q = 0 /\ no_proc_locks (h_held h)
  | X_lock => from = Code /\ h_held h = [LWait]
  | _ => False
  end.

(** The other writes of proc.c to a process's state, each under the process's lock:
    allocproc(), fork() and userinit(), freeproc(), kill(). *)
Inductive table_write : sproc -> sproc -> Prop :=
| tw_alloc ch s : table_write (SProc UNUSED ch s) (SProc USED ch [F_unlock])
| tw_ready ch s : table_write (SProc USED ch s) (SProc RUNNABLE ch s)
| tw_free st ch s : st = USED \/ st = ZOMBIE -> table_write (SProc st ch s) (SProc UNUSED None s)
| tw_kill ch s : table_write (SProc SLEEPING ch s) (SProc RUNNABLE ch s).

(** What CPU [i] may do next. *)
Inductive action (i : nat) : world -> world -> Prop :=
| act_hart w : action i w (hart_step i w)
| act_interrupt w : h_sie (w_harts w i) = true ->
    action i w (call i Handler (seth i (with_sie false (w_harts w i)) w))
| act_iret w r : live w i = Handler :: r -> h_held (w_harts w i) = [] ->
    action i w (return_ i (seth i (with_sie true (w_harts w i)) w))
| act_call w x r y : live w i = x :: r -> is_code x -> may_call w i x y -> action i w (call i y w)
| act_intr w r b : live w i = Code :: r -> (b = true -> h_held (w_harts w i) = []) ->
    action i w (seth i (with_sie b (w_harts w i)) w)
| act_acquire w x r l : live w i = x :: r -> is_code x -> w_lock w l = None -> action i w (took i l w)
| act_release w x r l : live w i = x :: r -> is_code x -> w_lock w l = Some i -> action i w (dropped i l w)
| act_table w x r q y : live w i = x :: r -> is_code x -> w_lock w (LProc q) = Some i ->
    table_write (w_procs w q) y -> action i w (setp q y w).

Definition ncpu : nat := Z.to_nat NCPU.
Definition step (w w' : world) : Prop := exists i, (i < ncpu)%nat /\ action i w w'.

(** At boot every CPU enters scheduler() with no locks, and the first process is ready. *)
Definition initial (w : world) : Prop :=
  (forall l, w_lock w l = None) /\
  (forall i, let h := w_harts w i in
     h_noff h = 0 /\ h_proc h = None /\ h_cur h = None /\ h_stack h = [D_on] /\ h_held h = []) /\
  (forall p, state w p = UNUSED /\ sp_stack (w_procs w p) = [] \/ state w p = RUNNABLE /\ sp_stack (w_procs w p) = [F_unlock]).

Inductive reachable : world -> Prop :=
| reach_init w : initial w -> reachable w
| reach_step w w' : reachable w -> step w w' -> reachable w'.

(** ** The invariant *)

Lemma fupd_eq {A B} `{EqDecision A} (a : A) (b : B) f : upd a b f a = b.
Proof. unfold upd. by rewrite decide_True. Qed.
Lemma fupd_ne {A B} `{EqDecision A} (a x : A) (b : B) f : x <> a -> upd a b f x = f x.
Proof. intros. unfold upd. by rewrite decide_False. Qed.

Abbreviation held w i := (h_held (w_harts w i)).
Abbreviation cur w i := (h_cur (w_harts w i)).

(** No CPU is on process [p]'s stack. *)
Definition off (w : world) (p : Z) : Prop := forall i, cur w i <> Some p.

Definition st_after (k : after) : procstate :=
  match k with A_sleep _ _ => SLEEPING | A_yield => RUNNABLE | A_exit => ZOMBIE end.
Definition cond_after (k : after) : Prop :=
  match k with A_sleep _ lk => is_proc_lock lk = false | _ => True end.

(** The locks held at each place; [me] is the process whose stack it is. *)
Definition pc_ok (me : option Z) (held : list lockid) (x : pc) : Prop :=
  match x, me with
  | Code, Some _ | Handler, _ => True
  | (D_on | D_lock _), None => held = []
  | (D_check p | D_run p | D_cpu p | D_swtch p | D_out p | D_unlock p), None => held = [LProc p]
  | (F_unlock | Y_state | Y_unlock), Some p => held = [LProc p]
  | S_lock ch lk, Some _ => held = [lk] /\ is_proc_lock lk = false
  | S_unlock ch lk, Some p => held = [LProc p; lk] /\ is_proc_lock lk = false
  | (S_chan _ lk | S_state _ lk | S_tidy lk | S_unlockp lk), Some p => held = [LProc p] /\ is_proc_lock lk = false
  | S_relock lk, Some _ => held = [] /\ is_proc_lock lk = false
  | C_back A_exit _, _ => False
  | (C_check k | C_swtch k _ | C_back k _), Some p => held = [LProc p] /\ cond_after k
  | Y_lock, Some _ => held = []
  | W_loop _ _, _ => no_proc_locks held
  | (W_check _ q | W_unlock _ q), _ => exists h, held = LProc q :: h /\ no_proc_locks h
  | X_lock, Some _ => held = [LWait]
  | (X_state | X_unlock), Some p => held = [LProc p; LWait]
  | _, _ => False
  end.

(** Calls below the innermost: the caller's code, and what a handler interrupted. *)
Fixpoint stack_ok (me : option Z) (held : list lockid) (s : list pc) : Prop :=
  match s with
  | [] => False
  | x :: r =>
      pc_ok me held x /\
      match x with
      | Code | D_on | D_lock _ | D_check _ | D_run _ | D_cpu _ | D_swtch _ | D_out _ | D_unlock _ | F_unlock => r = []
      | Handler => stack_ok me [] r
      | _ => match r with
             | [Code] => is_Some me
             | Handler :: r' => stack_ok me [] r'
             | _ => False
             end
      end
  end.

Definition top (s : list pc) : pc := hd Code s.

(** The state and channel of a process on a CPU. *)
Definition run_state (x : pc) : procstate :=
  match x with C_check k | C_swtch k _ => st_after k | X_unlock => ZOMBIE | _ => RUNNING end.
Definition run_chan (x : pc) (ch : option chan) : Prop :=
  match x with
  | S_state c _ | C_check (A_sleep c _) | C_swtch (A_sleep c _) _ => ch = Some c
  | _ => True
  end.

Record thread_ok (w : world) (i : nat) (p : Z) : Prop := {
  th_proc : h_proc (w_harts w i) = Some p;
  th_sched : h_stack (w_harts w i) = [D_in p];
  th_stack : stack_ok (Some p) (held w i) (sp_stack (w_procs w p));
  th_state : state w p = run_state (top (sp_stack (w_procs w p)));
  th_chan : run_chan (top (sp_stack (w_procs w p))) (sp_chan (w_procs w p));
}.

Definition sched_ok (w : world) (i : nat) : Prop :=
  stack_ok None (held w i) (h_stack (w_harts w i)) /\
  match top (h_stack (w_harts w i)) with
  | D_run p => off w p /\ state w p = RUNNABLE /\ h_proc (w_harts w i) = None
  | D_cpu p => off w p /\ state w p = RUNNING /\ h_proc (w_harts w i) = None
  | D_swtch p => off w p /\ state w p = RUNNING /\ h_proc (w_harts w i) = Some p
  | D_out _ => True
  | _ => h_proc (w_harts w i) = None
  end.

Definition hart_ok (w : world) (i : nat) : Prop :=
  match cur w i with Some p => thread_ok w i p | None => sched_ok w i end.

(** A process no CPU runs can be resumed where it gave up its CPU. *)
Definition resumable (p : Z) (s : list pc) : Prop :=
  stack_ok (Some p) [LProc p] s /\ (s = [F_unlock] \/ exists k b r, s = C_back k b :: r).

Definition early (x : pc) : bool := match x with S_chan _ _ | S_state _ _ => true | _ => false end.

Definition parked (p : Z) (x : sproc) : Prop :=
  match sp_state x with
  | UNUSED | ZOMBIE => early (top (sp_stack x)) = false
  | USED => sp_stack x = [F_unlock]
  | SLEEPING => resumable p (sp_stack x) /\
      exists ch lk b r, sp_stack x = C_back (A_sleep ch lk) b :: r /\ sp_chan x = Some ch
  | RUNNABLE | RUNNING => resumable p (sp_stack x)
  end.

(** The process has given up [lk] in sleep(ch, lk) and has not been woken. *)
Definition waiting (ch : chan) (lk : lockid) (x : sproc) : Prop :=
  match top (sp_stack x) with
  | S_chan c l | S_state c l => c = ch /\ l = lk
  | C_check (A_sleep c l) | C_swtch (A_sleep c l) _ | C_back (A_sleep c l) _ => c = ch /\ l = lk /\ sp_state x = SLEEPING
  | _ => False
  end.

(** The channel of a wakeup() and how far its loop has come. *)
Definition waker (x : pc) : option (chan * Z) :=
  match x with
  | W_loop ch q | W_check ch q => Some (ch, q)
  | W_unlock ch q => Some (ch, q + 1)
  | _ => None
  end.

Definition wake_ok (w : world) (i : nat) : Prop :=
  forall ch q lk p, waker (top (live w i)) = Some (ch, q) -> is_proc_lock lk = false -> w_lock w lk = Some i ->
    0 <= p < q -> ~ waiting ch lk (w_procs w p).

(** A CPU and the locks it holds. *)
Record lock_ok (w : world) (i : nat) : Prop := {
  lo_held : forall l, w_lock w l = Some i <-> l ∈ held w i;
  lo_nodup : NoDup (held w i);
  lo_noff : h_noff (w_harts w i) = zlen (held w i);
  lo_sie : h_sie (w_harts w i) = true -> held w i = [];
}.

Record inv (w : world) : Prop := {
  inv_lock : forall i, lock_ok w i;
  inv_hart : forall i, hart_ok w i;
  inv_uniq : forall i j p, cur w i = Some p -> cur w j = Some p -> i = j;
  inv_park : forall p, off w p -> parked p (w_procs w p);
  inv_wake : forall i, wake_ok w i;
  inv_ncpu : forall i p, cur w i = Some p -> (i < ncpu)%nat;
}.

(** The shape of a step of CPU [i]: it changes its own fields, the locks it takes or
    holds, its own process and processes whose lock it holds and no CPU runs. *)
Lemma inv_step w w' i :
  inv w -> (i < ncpu)%nat -> (forall j, j <> i -> w_harts w' j = w_harts w j) ->
  (forall l, w_lock w' l = w_lock w l \/ w_lock w l = None /\ w_lock w' l = Some i \/ w_lock w l = Some i /\ w_lock w' l = None) ->
  lock_ok w' i ->
  (forall p, w_procs w' p = w_procs w p \/ cur w i = Some p \/ w_lock w (LProc p) = Some i /\ off w p) ->
  (forall p, cur w' i = Some p -> cur w i = Some p \/ w_lock w (LProc p) = Some i /\ off w p) ->
  hart_ok w' i ->
  (forall p, off w' p -> off w p /\ w_procs w' p = w_procs w p \/ parked p (w_procs w' p)) ->
  wake_ok w' i ->
  (forall p ch lk, waiting ch lk (w_procs w' p) -> waiting ch lk (w_procs w p) \/ w_lock w lk = Some i) ->
  inv w'.
Proof.
  intros [H1 H2 H3 H4 H5 H6] Hi Hh Hl Hlo Hp Hc Hok Hpk Hwk Hwt.
  assert (forall j l, j <> i -> w_lock w' l = Some j <-> w_lock w l = Some j) as Hlj.
  { intros j l Hj. destruct (Hl l) as [->|[[E1 E2]|[E1 E2]]]; [done| |]; rewrite E1, E2; split; congruence. }
  assert (forall j p, j <> i -> cur w j = Some p -> w_procs w' p = w_procs w p) as Hpj.
  { intros j p Hj Hcj. destruct (Hp p) as [?|[E|[_ E]]]; [done| |]; [by destruct Hj; apply (H3 _ _ p)|by destruct (E j)]. }
  assert (forall j p, j <> i -> w_lock w (LProc p) = Some j -> off w p -> w_procs w' p = w_procs w p /\ off w' p) as Hlp.
  { intros j p Hj Hjl Ho. split.
    - destruct (Hp p) as [?|[E|[E _]]]; [done|by destruct (Ho i)|congruence].
    - intros k Hk. destruct (decide (k = i)) as [->|Hki]; [|rewrite Hh in Hk by done; by apply (Ho k)].
      destruct (Hc p Hk) as [E|[E _]]; [by apply (Ho i)|congruence]. }
  assert (forall j p, j <> i -> LProc p ∈ held w j -> off w p -> w_procs w' p = w_procs w p /\ off w' p) as Hlp'.
  { intros j p Hj Hin. apply (Hlp j); [done|]. by apply (lo_held _ _ (H1 j)). }
  split.
  - intros j. destruct (decide (j = i)) as [->|Hj]; [done|]. destruct (H1 j) as [A B C D].
    split; rewrite ?Hh by done; [|done..]. intros l. by rewrite Hlj.
  - intros j. destruct (decide (j = i)) as [->|Hj]; [done|]. specialize (H2 j). unfold hart_ok in *. rewrite Hh by done.
    destruct (cur w j) as [p|] eqn:Ec.
    + destruct H2 as [A B C D E]. pose proof (Hpj j p Hj Ec) as Ep. unfold state in *. split; unfold state; rewrite ?Hh, ?Ep by done; done.
    + destruct H2 as [A B]. unfold sched_ok, state in *. rewrite Hh by done. split; [done|].
      destruct (h_stack (w_harts w j)) as [|x r]; [done|]. destruct A as [A _]. cbn in *.
      destruct x as [| | | | |p|p|p| | | | | | | | | | | | | | | | | | | | | | | | |]; try done;
        destruct B as [B1 B2]; destruct (Hlp' j p Hj) as [Ep Eo]; try done; try (rewrite A; left); rewrite Ep; done.
  - intros a b p Ha Hb. destruct (decide (a = i)) as [->|Hai], (decide (b = i)) as [->|Hbi]; [done| | |].
    + rewrite Hh in Hb by done. destruct (Hc p Ha) as [E|[_ E]]; [by apply (H3 _ _ p)|by destruct (E b)].
    + rewrite Hh in Ha by done. destruct (Hc p Hb) as [E|[_ E]]; [by apply (H3 _ _ p)|by destruct (E a)].
    + rewrite Hh in Ha, Hb by done. by apply (H3 _ _ p).
  - intros p Ho. destruct (Hpk p Ho) as [[Eo ->]|E]; [by apply H4|done].
  - intros j. destruct (decide (j = i)) as [->|Hj]; [done|]. intros ch q lk p Hw Hlk Hj' Hpq Hwait.
    assert (live w' j = live w j) as El.
    { unfold live. rewrite Hh by done. destruct (cur w j) as [p'|] eqn:Ec; [|done]. by rewrite (Hpj j p'). }
    rewrite El in Hw. rewrite Hlj in Hj' by done.
    destruct (Hwt _ _ _ Hwait) as [Hx|Hx]; [by apply (H5 j ch q lk p)|congruence].
  - intros j p Hj. destruct (decide (j = i)) as [->|Hji]; [done|]. rewrite Hh in Hj by done. by apply (H6 _ p).
Qed.

(** ** Steps that preserve it *)

#[global] Arguments upd : simpl never.

Definition lock_step (w w' : world) (i : nat) : Prop :=
  (forall l, w_lock w' l = w_lock w l \/ w_lock w l = None /\ w_lock w' l = Some i \/ w_lock w l = Some i /\ w_lock w' l = None) /\
  lock_ok w' i.

Lemma lock_same w w' i :
  lock_ok w i -> w_lock w' = w_lock w -> held w' i = held w i -> h_noff (w_harts w' i) = h_noff (w_harts w i) ->
  (h_sie (w_harts w' i) = true -> held w i = []) -> lock_step w w' i.
Proof.
  intros [A B C D] El Eh En Hs. split; [intros l; left; by rewrite El|].
  split; rewrite ?El, ?Eh, ?En; done.
Qed.

Lemma lock_took w w' i l :
  lock_ok w i -> w_lock w l = None -> w_lock w' = upd l (Some i) (w_lock w) -> held w' i = l :: held w i ->
  h_noff (w_harts w' i) = h_noff (w_harts w i) + 1 -> h_sie (w_harts w' i) = false -> lock_step w w' i.
Proof.
  intros [A B C D] Hl El Eh En Hs. split.
  - intros k. rewrite El. destruct (decide (k = l)) as [->|]; [rewrite fupd_eq; by right; left|rewrite fupd_ne by done; by left].
  - assert (l ∉ held w i) as Hin by (intros Hin%A; congruence).
    split; rewrite ?Eh, ?En, ?Hs; [|by constructor|rewrite C; unfold zlen; cbn [length]; lia|done].
    intros k. rewrite El, elem_of_cons. destruct (decide (k = l)) as [->|]; [rewrite fupd_eq; naive_solver|].
    rewrite fupd_ne, A by done. naive_solver.
Qed.

Lemma remove_lock_in l k h : k ∈ remove_lock l h <-> k ∈ h /\ k <> l.
Proof. unfold remove_lock. rewrite list_elem_of_filter. naive_solver. Qed.

Lemma length_remove_lock l h : NoDup h -> l ∈ h -> length h = S (length (remove_lock l h)).
Proof.
  induction h as [|x h IH]; [by intros _ ?%elem_of_nil|]. intros [Hx Hn]%NoDup_cons [->|Hin]%elem_of_cons.
  - by rewrite remove_lock_head.
  - unfold remove_lock. rewrite filter_cons_True by (intros ->; done). cbn [length]. f_equal. by apply IH.
Qed.

Lemma lock_drop w w' i l :
  lock_ok w i -> w_lock w l = Some i -> w_lock w' = upd l None (w_lock w) -> held w' i = remove_lock l (held w i) ->
  h_noff (w_harts w' i) = h_noff (w_harts w i) - 1 ->
  h_sie (w_harts w' i) = (h_noff (w_harts w i) - 1 =? 0) && h_intena (w_harts w i) -> lock_step w w' i.
Proof.
  intros [A B C D] Hl El Eh En Hs. pose proof (proj1 (A l) Hl) as Hin. pose proof (length_remove_lock l _ B Hin) as Hlen. split.
  - intros k. rewrite El. destruct (decide (k = l)) as [->|]; [rewrite fupd_eq; by right; right|rewrite fupd_ne by done; by left].
  - split; rewrite ?Eh, ?En, ?Hs, ?C; unfold zlen in *.
    + intros k. rewrite El, remove_lock_in. destruct (decide (k = l)) as [->|]; [rewrite fupd_eq; naive_solver|].
      rewrite fupd_ne, A by done. naive_solver.
    + unfold remove_lock. by apply NoDup_filter.
    + lia.
    + intros [E _]%andb_prop. apply Z.eqb_eq in E. apply length_zero_iff_nil. lia.
Qed.

(** A step that stays on the same stack and changes no other process. *)
Lemma world_inv_local w w' i :
  inv w -> (i < ncpu)%nat -> (forall j, j <> i -> w_harts w' j = w_harts w j) ->
  (forall q, cur w i <> Some q -> w_procs w' q = w_procs w q) -> lock_step w w' i -> cur w' i = cur w i ->
  hart_ok w' i -> wake_ok w' i ->
  (forall p ch lk, cur w i = Some p -> waiting ch lk (w_procs w' p) -> waiting ch lk (w_procs w p) \/ w_lock w lk = Some i) ->
  inv w'.
Proof.
  intros H Hi Hh Hp [Hl Hlo] Hc Hok Hwk Hwt. apply (inv_step w w' i H); try done.
  - intros p. destruct (decide (cur w i = Some p)); [by right; left|]. left. by apply Hp.
  - intros p. rewrite Hc. by left.
  - intros p Ho. left. assert (off w p) as Ho'.
    { intros j. destruct (decide (j = i)) as [->|Hj]; [rewrite <- Hc; apply Ho|rewrite <- Hh by done; apply Ho]. }
    split; [done|]. apply Hp, Ho'.
  - intros p ch lk Hw. destruct (decide (cur w i = Some p)) as [E|E]; [by apply Hwt|]. left. by rewrite Hp in Hw.
Qed.

(** A step of a process's thread. *)
Lemma inv_thread w w' i p :
  inv w -> cur w i = Some p -> (forall j, j <> i -> w_harts w' j = w_harts w j) ->
  (forall q, q <> p -> w_procs w' q = w_procs w q) -> lock_step w w' i -> cur w' i = Some p ->
  h_proc (w_harts w' i) = h_proc (w_harts w i) -> h_stack (w_harts w' i) = h_stack (w_harts w i) ->
  stack_ok (Some p) (held w' i) (sp_stack (w_procs w' p)) ->
  state w' p = run_state (top (sp_stack (w_procs w' p))) ->
  run_chan (top (sp_stack (w_procs w' p))) (sp_chan (w_procs w' p)) ->
  wake_ok w' i ->
  (forall ch lk, waiting ch lk (w_procs w' p) -> waiting ch lk (w_procs w p) \/ w_lock w lk = Some i) ->
  inv w'.
Proof.
  intros H Hc Hh Hp Hl Hc' E1 E2 H1 H2 H3 Hwk Hwt.
  pose proof (inv_hart _ H i) as Ht. unfold hart_ok in Ht. rewrite Hc in Ht. destruct Ht as [A B _ _ _].
  apply (world_inv_local w w' i H (inv_ncpu _ H _ _ Hc)); try done.
  - intros q Hq. apply Hp. congruence.
  - congruence.
  - unfold hart_ok. rewrite Hc'. split; [congruence|congruence|done..].
  - intros q ch lk. rewrite Hc. intros [= <-]. apply Hwt.
Qed.

(** A step of the scheduler on its own stack. *)
Lemma inv_sched w w' i :
  inv w -> (i < ncpu)%nat -> cur w i = None -> (forall j, j <> i -> w_harts w' j = w_harts w j) ->
  w_procs w' = w_procs w -> lock_step w w' i -> cur w' i = None -> sched_ok w' i -> wake_ok w' i -> inv w'.
Proof.
  intros H Hi Hc Hh Hp Hl Hc' Hok Hwk. apply (world_inv_local w w' i H); try done.
  - intros q _. by rewrite Hp.
  - congruence.
  - unfold hart_ok. by rewrite Hc'.
  - intros p ch lk. by rewrite Hc.
Qed.

Lemma wake_none w i : waker (top (live w i)) = None -> wake_ok w i.
Proof. intros H ch q lk p Hw. congruence. Qed.

Lemma goto_thread w i p x : cur w i = Some p ->
  goto i x w = setp p (set_stack (x :: tail (sp_stack (w_procs w p))) (w_procs w p)) w.
Proof. intros H. unfold goto, set_live, live. by rewrite H. Qed.
Lemma goto_sched w i x : cur w i = None ->
  goto i x w = seth i (with_stack (x :: tail (h_stack (w_harts w i))) (w_harts w i)) w.
Proof. intros H. unfold goto, set_live, live. by rewrite H. Qed.

(** Evaluating a world at the CPU and the process a step is about. *)
Ltac wsimp := unfold state, live; cbn; rewrite ?fupd_eq; cbn.
Ltac others := intros; cbn; rewrite ?fupd_ne by done; cbn; try done; try congruence.

Definition caller (me : option Z) (r : list pc) : Prop :=
  match r with [Code] => is_Some me | Handler :: r' => stack_ok me [] r' | _ => False end.

Record plain (r : list pc) : Prop := {
  pl_state : run_state (top r) = RUNNING;
  pl_chan : forall ch, run_chan (top r) ch;
  pl_waker : waker (top r) = None;
  pl_wait : forall ch lk x, sp_stack x = r -> ~ waiting ch lk x;
}.

Lemma caller_plain me h r : caller me r -> stack_ok me h r /\ plain r.
Proof.
  intros Hr. destruct r as [|x r]; [done|]. destruct x; try done; [destruct r; [|done]|]; (split; [|split; try done; intros ch lk x E Hw; unfold waiting in Hw; by rewrite E in Hw]).
  - cbn in Hr. destruct Hr as [q ->]. done.
  - done.
Qed.

Section Thread.
Context (w : world) (i : nat) (p : Z) (H : inv w) (Hc : cur w i = Some p).
Abbreviation x0 := (w_procs w p).
Abbreviation waits x := (forall ch lk, waiting ch lk x -> waiting ch lk x0 \/ w_lock w lk = Some i).

Lemma thread_facts : thread_ok w i p.
Proof using H Hc. pose proof (inv_hart _ H i) as Ht. unfold hart_ok in Ht. by rewrite Hc in Ht. Qed.

Lemma live_thread : live w i = sp_stack x0.
Proof using Hc. unfold live. by rewrite Hc. Qed.

(** The thread's own stack, state and channel change. *)
Lemma inv_own x :
  stack_ok (Some p) (held w i) (sp_stack x) -> sp_state x = run_state (top (sp_stack x)) ->
  run_chan (top (sp_stack x)) (sp_chan x) -> waker (top (sp_stack x)) = None -> waits x -> inv (setp p x w).
Proof using H Hc.
  intros H1 H2 H3 H4 H5. eapply (inv_thread w _ i p H Hc); try done; try (by others); try (by wsimp).
  - apply lock_same; try done; apply (inv_lock _ H i).
  - apply wake_none. unfold live. wsimp. rewrite Hc. by wsimp.
Qed.

(** The same with a lock taken or released. *)
Lemma inv_own_took l x : w_lock w l = None ->
  stack_ok (Some p) (l :: held w i) (sp_stack x) -> sp_state x = run_state (top (sp_stack x)) ->
  run_chan (top (sp_stack x)) (sp_chan x) -> waker (top (sp_stack x)) = None -> waits x -> inv (setp p x (took i l w)).
Proof using H Hc.
  intros Hl H1 H2 H3 H4 H5. eapply (inv_thread w _ i p H Hc); try done; try (by others); try (by wsimp).
  - apply (lock_took _ _ _ l); try done; try (by wsimp). apply (inv_lock _ H i).
  - apply wake_none. unfold live. wsimp. rewrite Hc. by wsimp.
Qed.

Lemma inv_own_dropped l x : w_lock w l = Some i ->
  stack_ok (Some p) (remove_lock l (held w i)) (sp_stack x) -> sp_state x = run_state (top (sp_stack x)) ->
  run_chan (top (sp_stack x)) (sp_chan x) -> waker (top (sp_stack x)) = None -> waits x -> inv (setp p x (dropped i l w)).
Proof using H Hc.
  intros Hl H1 H2 H3 H4 H5. eapply (inv_thread w _ i p H Hc); try done; try (by others); try (by wsimp).
  - apply (lock_drop _ _ _ l); try done; try (by wsimp). apply (inv_lock _ H i).
  - apply wake_none. unfold live. wsimp. rewrite Hc. by wsimp.
Qed.

Lemma goto_took l y : goto i y (took i l w) = setp p (set_stack (y :: tail (sp_stack x0)) x0) (took i l w).
Proof using Hc. rewrite (goto_thread _ _ p); [done|]. wsimp. done. Qed.
Lemma goto_dropped l y : goto i y (dropped i l w) = setp p (set_stack (y :: tail (sp_stack x0)) x0) (dropped i l w).
Proof using Hc. rewrite (goto_thread _ _ p); [done|]. wsimp. done. Qed.
Lemma goto_write x y : goto i y (setp p x w) = setp p (set_stack (y :: tail (sp_stack x)) x) (setp p x w).
Proof using Hc. rewrite (goto_thread _ _ p); [|done]. wsimp. done. Qed.
Lemma return_took l : return_ i (took i l w) = setp p (set_stack (tail (sp_stack x0)) x0) (took i l w).
Proof using Hc. unfold return_, set_live. wsimp. by rewrite Hc. Qed.
Lemma return_dropped l : return_ i (dropped i l w) = setp p (set_stack (tail (sp_stack x0)) x0) (dropped i l w).
Proof using Hc. unfold return_, set_live. wsimp. by rewrite Hc. Qed.

(** acquire() and release() in the thread. *)
Lemma inv_wacquire l y : l ∉ held w i ->
  stack_ok (Some p) (l :: held w i) (y :: tail (sp_stack x0)) -> state w p = run_state y -> run_chan y (sp_chan x0) ->
  waker y = None -> waits (set_stack (y :: tail (sp_stack x0)) x0) -> inv (wacquire i l y w).
Proof using H Hc.
  intros Hl H1 H2 H3 H4 H5. unfold wacquire. destruct (w_lock w l) as [j|] eqn:E.
  - case_decide as Ej; [|done]. subst. by apply (lo_held _ _ (inv_lock _ H i)) in E.
  - rewrite goto_took. by apply inv_own_took.
Qed.

Lemma wrelease_eq l (next : world -> world) : l ∈ held w i -> wrelease i l next w = next (dropped i l w).
Proof using H.
  intros Hl. destruct (inv_lock _ H i) as [A B C D]. unfold wrelease. rewrite decide_True by by apply A.
  destruct (h_sie (w_harts w i)); [rewrite D in Hl by done; by apply elem_of_nil in Hl|].
  rewrite C, (proj2 (Z.ltb_ge _ _)); [done|]. unfold zlen. destruct (held w i); [by apply elem_of_nil in Hl|cbn; lia].
Qed.

Lemma inv_wrelease l y : l ∈ held w i ->
  stack_ok (Some p) (remove_lock l (held w i)) (y :: tail (sp_stack x0)) -> state w p = run_state y -> run_chan y (sp_chan x0) ->
  waker y = None -> waits (set_stack (y :: tail (sp_stack x0)) x0) -> inv (wrelease i l (goto i y) w).
Proof using H Hc.
  intros Hl H1 H2 H3 H4 H5. rewrite wrelease_eq, goto_dropped by done. apply inv_own_dropped; try done.
  by apply (lo_held _ _ (inv_lock _ H i)).
Qed.

Lemma remove1 (l : lockid) : remove_lock l [l] = [].
Proof using. apply remove_lock_head. apply not_elem_of_nil. Qed.
Lemma remove2 (q : Z) (l : lockid) : is_proc_lock l = false -> remove_lock l [LProc q; l] = [LProc q].
Proof using.
  intros Hl. unfold remove_lock. rewrite filter_cons_True by (intros <-; done).
  rewrite filter_cons_False by (intros ?; done). done.
Qed.

(** Two writes of the thread to its own process, and one to its CPU. *)
Lemma inv_own2 x y :
  stack_ok (Some p) (held w i) (sp_stack x) -> sp_state x = run_state (top (sp_stack x)) ->
  run_chan (top (sp_stack x)) (sp_chan x) -> waker (top (sp_stack x)) = None -> waits x -> inv (setp p x (setp p y w)).
Proof using H Hc.
  intros H1 H2 H3 H4 H5. eapply (inv_thread w _ i p H Hc); try done; try (by others); try (by wsimp).
  - apply lock_same; try done; apply (inv_lock _ H i).
  - apply wake_none. unfold live. wsimp. rewrite Hc. by wsimp.
Qed.

Lemma inv_own_intena x b :
  stack_ok (Some p) (held w i) (sp_stack x) -> sp_state x = run_state (top (sp_stack x)) ->
  run_chan (top (sp_stack x)) (sp_chan x) -> waker (top (sp_stack x)) = None -> waits x ->
  inv (setp p x (seth i (with_intena b (w_harts w i)) w)).
Proof using H Hc.
  intros H1 H2 H3 H4 H5. eapply (inv_thread w _ i p H Hc); try done; try (by others); try (by wsimp).
  - apply lock_same; try done; try (by wsimp); [apply (inv_lock _ H i)|wsimp; apply (inv_lock _ H i)].
  - apply wake_none. unfold live. wsimp. rewrite Hc. by wsimp.
Qed.

Abbreviation H0 := (not_elem_of_nil (A := lockid)).

(** The call returns, with a lock released or taken. *)
Lemma inv_return_dropped l : l ∈ held w i -> state w p = RUNNING -> caller (Some p) (tail (sp_stack x0)) ->
  inv (wrelease i l (return_ i) w).
Proof using H Hc.
  intros Hl Hst Hr. destruct (caller_plain _ (remove_lock l (held w i)) _ Hr) as [H1 [H2 H3 H4 H5]].
  rewrite wrelease_eq, return_dropped by done. apply inv_own_dropped; try done.
  - by apply (lo_held _ _ (inv_lock _ H i)).
  - cbn [sp_state sp_stack set_stack]. by rewrite H2.
  - intros ch lk Hw. by apply H5 in Hw.
Qed.

Lemma inv_return_took l : l ∉ held w i -> state w p = RUNNING -> caller (Some p) (tail (sp_stack x0)) ->
  w_lock w l = None -> inv (return_ i (took i l w)).
Proof using H Hc.
  intros Hl Hst Hr Hn. destruct (caller_plain _ (l :: held w i) _ Hr) as [H1 [H2 H3 H4 H5]].
  rewrite return_took. apply inv_own_took; try done.
  - cbn [sp_state sp_stack set_stack]. by rewrite H2.
  - intros ch lk Hw. by apply H5 in Hw.
Qed.

Lemma inv_yield x r : sp_stack x0 = x :: r -> inv (yield_step i p x w).
Proof using H Hc.
  intros Hs. destruct thread_facts as [_ _ C D E]. rewrite Hs in C, D, E. destruct x; try done; cbn in C, D, E; destruct C as [C1 C2].
  - apply inv_wacquire; rewrite ?C1, ?Hs; try done. apply H0.
  - unfold yield_step, write_state. rewrite goto_write. apply inv_own2; cbn; rewrite ?C1, ?Hs; done.
  - apply inv_return_dropped; rewrite ?C1, ?Hs; [left|done|done].
Qed.

Lemma inv_exit x r : sp_stack x0 = x :: r -> inv (exit_step i p x w).
Proof using H Hc.
  intros Hs. destruct thread_facts as [_ _ C D E]. rewrite Hs in C, D, E. destruct x; try done; cbn in C, D, E; destruct C as [C1 C2]; try done.
  - apply inv_wacquire; rewrite ?C1, ?Hs; try done. rewrite not_elem_of_cons. split; [done|apply H0].
  - unfold exit_step, write_state. rewrite goto_write. apply inv_own2; cbn; rewrite ?C1, ?Hs; done.
  - apply inv_wrelease; rewrite ?C1, ?Hs, ?remove2 by done; try done. right. left.
Qed.

Lemma inv_sleep x r : sp_stack x0 = x :: r -> inv (sleep_step i p x w).
Proof using H Hc.
  intros Hs. destruct thread_facts as [_ _ C D E]. rewrite Hs in C, D, E. destruct x; try done; cbn in C, D, E; destruct C as [[C1 Cl] C2].
  - apply inv_wacquire; rewrite ?C1, ?Hs; try done. rewrite not_elem_of_cons. split; [by intros <-|apply H0].
  - apply inv_wrelease; rewrite ?C1, ?Hs, ?remove2 by done; try done; [right; left|].
    intros c l [-> ->]. right. apply (lo_held _ _ (inv_lock _ H i)). rewrite C1. right. left.
  - unfold sleep_step, write_chan. rewrite goto_write. apply inv_own2; cbn; rewrite ?C1, ?Hs; try done.
    intros c l Hw. left. unfold waiting in *. by rewrite Hs.
  - unfold sleep_step, write_state. rewrite goto_write. apply inv_own2; cbn; rewrite ?C1, ?Hs; try done.
    intros c l Hw. left. unfold waiting in *. rewrite Hs. by destruct Hw as (? & ? & _).
  - unfold sleep_step, write_chan. rewrite goto_write. apply inv_own2; cbn; rewrite ?C1, ?Hs; done.
  - apply inv_wrelease; rewrite ?C1, ?Hs, ?remove1; try done. left.
  - unfold sleep_step. destruct (w_lock w lk) as [j|] eqn:Ej.
    + case_decide as Ek; [|done]. subst. apply (lo_held _ _ (inv_lock _ H i)) in Ej. rewrite C1 in Ej. by apply H0 in Ej.
    + apply inv_return_took; rewrite ?C1, ?Hs; try done. apply H0.
Qed.

Lemma inv_forkret x r : sp_stack x0 = x :: r -> inv (forkret_step i x w).
Proof using H Hc.
  intros Hs. destruct thread_facts as [A _ C D E]. rewrite Hs in C, D, E. destruct x; try done; cbn in C, D, E; destruct C as [C1 ->].
  unfold forkret_step, myproc. rewrite A. apply inv_wrelease; rewrite ?C1, ?Hs; try done. left.
Qed.

(** [swtch] back to the scheduler parks the process. *)
Lemma inv_swtch k b r : sp_stack x0 = C_swtch k b :: r -> inv (sched_step i p (C_swtch k b) w).
Proof using H Hc.
  intros Hs. destruct thread_facts as [A B C D E]. rewrite Hs in C, D, E. cbn in C, D, E. destruct C as [[C1 Ck] C2].
  pose proof (inv_lock _ H i) as Hlo.
  unfold sched_step. rewrite (goto_thread _ _ p) by done. rewrite Hs, B. cbn [tail resume].
  eapply (inv_step w _ i H (inv_ncpu _ H _ _ Hc)).
  - by others.
  - by left.
  - destruct Hlo as [L1 L2 L3 L4]. split; wsimp; done.
  - intros q. cbn. destruct (decide (q = p)) as [->|]; [by right; left|]. left. by rewrite fupd_ne.
  - intros q. by wsimp.
  - unfold hart_ok. wsimp. unfold sched_ok. wsimp. rewrite C1. done.
  - intros q Hq. cbn. destruct (decide (q = p)) as [->|Hne].
    + right. rewrite fupd_eq. unfold parked. cbn [sp_state sp_stack set_stack sp_chan]. unfold state in D. rewrite D.
      assert (k = A_exit \/ resumable p (C_back k b :: r)) as [->|Hr]; [|done|].
      { destruct k; [right|right|by left]; (split; [done|right; by eauto]). }
      destruct k; cbn; [split; [done|]; by eauto 10|done|done].
    + left. rewrite fupd_ne by done. split; [|done]. intros j Hj. apply (Hq j). destruct (decide (j = i)) as [->|]; [congruence|]. by others.
  - apply wake_none. wsimp. done.
  - intros q ch lk. cbn. destruct (decide (q = p)) as [->|]; [rewrite fupd_eq|rewrite fupd_ne by done; by left].
    intros Hw. left. unfold waiting in *. rewrite Hs. by destruct k.
Qed.

Lemma inv_sched_call x r : sp_stack x0 = x :: r -> inv (sched_step i p x w).
Proof using H Hc.
  intros Hs. destruct thread_facts as [A B C D E]. rewrite Hs in C, D, E. destruct x; try done; cbn in C, D, E.
  - destruct C as [[C1 Ck] C2]. destruct (inv_lock _ H i) as [L1 L2 L3 L4]. unfold sched_step.
    rewrite decide_True by (apply L1; rewrite C1; left). rewrite L3, C1. change (zlen [LProc p] =? 1) with true. cbv iota.
    rewrite decide_False by (rewrite D; by destruct k).
    destruct (h_sie (w_harts w i)) eqn:Es; [rewrite C1 in L4; specialize (L4 eq_refl); done|].
    rewrite (goto_thread _ _ p) by done. rewrite Hs. apply inv_own; cbn; rewrite ?C1; try done.
    intros ch lk Hw. left. unfold waiting in *. rewrite Hs. by destruct k.
  - by apply (inv_swtch _ _ r).
  - destruct k; destruct C as [C1 C2]; try done; destruct C1 as [C1 Ck]; unfold sched_step.
    all: rewrite (goto_thread _ _ p) by (wsimp; done); cbn [w_procs seth]; rewrite Hs; apply inv_own_intena; cbn; rewrite ?C1; try done.
Qed.

End Thread.

(** ** The scheduler *)

Lemma off_or_on w p : inv w -> off w p \/ exists j, cur w j = Some p.
Proof.
  intros H. destruct (decide (Exists (fun j => cur w j = Some p) (seq 0 ncpu))) as [E|E].
  - right. apply Exists_exists in E as (j & _ & Hj). by exists j.
  - left. intros j Hj. apply E, Exists_exists. exists j. split; [|done].
    apply elem_of_seq. pose proof (inv_ncpu _ H _ _ Hj). lia.
Qed.

(** A process that is not RUNNING and whose lock CPU [i] holds is on no other CPU. *)
Lemma locked_off w i p : inv w -> w_lock w (LProc p) = Some i -> state w p <> RUNNING -> cur w i <> Some p -> off w p.
Proof.
  intros H Hl Hs Hc j Hj. destruct (decide (j = i)) as [->|Hne]; [done|].
  pose proof (inv_hart _ H j) as Ht. unfold hart_ok in Ht. rewrite Hj in Ht. destruct Ht as [_ _ C D _].
  assert (LProc p ∈ held w j) as Hin.
  { rewrite D in Hs. destruct (sp_stack (w_procs w p)) as [|x r]; [done|]. destruct C as [C _]. cbn in Hs, C.
    destruct x; try done; first [rewrite C; left | rewrite (proj1 C); left]. }
  apply (lo_held _ _ (inv_lock _ H j)) in Hin. congruence.
Qed.

Section Scheduler.
Context (w : world) (i : nat) (H : inv w) (Hi : (i < ncpu)%nat) (Hc : cur w i = None).
Abbreviation h0 := (w_harts w i).

Lemma sched_facts : sched_ok w i.
Proof using H Hc. pose proof (inv_hart _ H i) as Ht. unfold hart_ok in Ht. by rewrite Hc in Ht. Qed.

(** The scheduler's own stack and CPU fields change. *)
Lemma inv_sown w' h :
  w_harts w' i = h -> (forall j, j <> i -> w_harts w' j = w_harts w j) -> w_procs w' = w_procs w -> lock_step w w' i ->
  h_cur h = None -> stack_ok None (h_held h) (h_stack h) ->
  match top (h_stack h) with
  | D_run p => off w p /\ state w p = RUNNABLE /\ h_proc h = None
  | D_cpu p => off w p /\ state w p = RUNNING /\ h_proc h = None
  | D_swtch p => off w p /\ state w p = RUNNING /\ h_proc h = Some p
  | D_out _ => True
  | _ => h_proc h = None
  end -> waker (top (h_stack h)) = None -> inv w'.
Proof using H Hi Hc.
  intros Eh Ej Ep El Ec H1 H2 H3.
  assert (forall q, off w q -> off w' q) as Hoff.
  { intros q Hq j. destruct (decide (j = i)) as [->|Hj]; [rewrite Eh; by rewrite Ec|]. rewrite Ej by done. apply Hq. }
  eapply (inv_sched w _ i H Hi Hc); try done.
  - by rewrite Eh.
  - unfold sched_ok, state in *. rewrite Eh, Ep. split; [done|].
    destruct (top (h_stack h)); try done; destruct H2 as [? ?]; auto.
  - apply wake_none. unfold live. by rewrite Eh, Ec.
Qed.

Lemma goto_seth h y : h_cur h = None -> goto i y (seth i h w) = seth i (with_stack (y :: tail (h_stack h)) h) (seth i h w).
Proof using. intros E. rewrite goto_sched; wsimp; done. Qed.

Ltac sown := eapply inv_sown; [reflexivity|by others|reflexivity| |wsimp; try done|wsimp|wsimp; try done|wsimp; try done].

(** scheduler() on its own stack, the choice of a process apart. *)
Lemma inv_scheduler_plain x r : h_stack h0 = x :: r ->
  match x with D_on | D_lock _ | D_check _ | D_cpu _ | D_out _ | D_unlock _ => True | _ => False end ->
  inv (scheduler_step i x w).
Proof using H Hi Hc.
  intros Hs Hx. destruct sched_facts as [C D]. rewrite Hs in C, D. pose proof (inv_lock _ H i) as Hlo. pose proof Hlo as [L1 L2 L3 L4].
  destruct x as [| | |p|p|p|p|p|p|p|p| | | | | | | | | | | | | | | | | | | | | |]; try done; clear Hx; cbn in C, D; destruct C as [C ->]; cbn [scheduler_step].
  - rewrite goto_seth by done. cbn [h_stack with_sie]. rewrite Hs. sown.
    + apply lock_same; wsimp; done.
    + wsimp. by rewrite C.
  - zcase (p <? NPROC) as E.
    + unfold wacquire. destruct (w_lock w (LProc p)) as [j|] eqn:Ej.
      { case_decide as Ek; [|done]. subst. apply L1 in Ej. rewrite C in Ej. by apply not_elem_of_nil in Ej. }
      rewrite goto_sched by (wsimp; done). sown.
      * apply (lock_took _ _ _ (LProc p)); wsimp; try done.
      * wsimp. rewrite C, Hs. done.
    + rewrite goto_sched by done. rewrite Hs. sown.
      * apply lock_same; wsimp; done.
      * wsimp. by rewrite C.
  - rewrite goto_sched by done. rewrite Hs. sown.
    + apply lock_same; wsimp; done.
    + wsimp. rewrite C. by case_decide.
    + case_decide as Es; [|done]. split; [|done]. apply (locked_off _ i); [done|apply L1; rewrite C; left|unfold state; by rewrite Es|by rewrite Hc].
    + wsimp. by case_decide.
  - unfold write_cproc. rewrite goto_seth by done. cbn [h_stack with_proc]. rewrite Hs. sown.
    + apply lock_same; wsimp; done.
    + wsimp. by rewrite C.
    + destruct D as (? & ? & ?). done.
  - unfold write_cproc. rewrite goto_seth by done. cbn [h_stack with_proc]. rewrite Hs. sown.
    + apply lock_same; wsimp; done.
    + wsimp. by rewrite C.
  - rewrite (wrelease_eq _ _ H) by (rewrite C; left). rewrite goto_sched by (wsimp; done). sown.
    + apply (lock_drop _ _ _ (LProc p)); wsimp; try done. apply L1. rewrite C. left.
    + wsimp. rewrite C, Hs. cbn. by rewrite decide_False by (intros ?; done).
Qed.

(** [p->state = RUNNING] under the process's lock. *)
Lemma inv_pick p r : h_stack h0 = D_run p :: r -> inv (scheduler_step i (D_run p) w).
Proof using H Hi Hc.
  intros Hs. destruct sched_facts as [C D]. rewrite Hs in C, D. cbn in C, D. destruct C as [C ->]. destruct D as (Ho & Hr & Hm).
  pose proof (inv_lock _ H i) as Hlo. assert (w_lock w (LProc p) = Some i) as Hl by (apply (lo_held _ _ Hlo); rewrite C; left).
  cbn [scheduler_step]. unfold write_state. rewrite goto_sched by done. cbn [w_harts setp]. rewrite Hs.
  assert (off (seth i (with_stack [D_cpu p] h0) (setp p (set_state RUNNING (w_procs w p)) w)) p) as Ho'.
  { intros j. destruct (decide (j = i)) as [->|Hj]; [wsimp; by rewrite Hc|cbn; rewrite fupd_ne by done; apply Ho]. }
  eapply (inv_step w _ i H Hi).
  - by others.
  - by left.
  - destruct Hlo as [L1 L2 L3 L4]. split; wsimp; done.
  - intros q. cbn. destruct (decide (q = p)) as [->|]; [by right; right|left; by rewrite fupd_ne].
  - intros q. wsimp. by left.
  - unfold hart_ok. wsimp. rewrite Hc. unfold sched_ok. wsimp. rewrite C. split; [done|]. split; [exact Ho'|]. split; [by wsimp|done].
  - intros q Hq. cbn. destruct (decide (q = p)) as [->|Hne].
    + right. rewrite fupd_eq. pose proof (inv_park _ H p Ho) as Hp. unfold parked, state in *. rewrite Hr in Hp. done.
    + left. rewrite fupd_ne by done. split; [|done]. intros j Hj. apply (Hq j).
      destruct (decide (j = i)) as [->|]; [congruence|]. by others.
  - apply wake_none. wsimp. by rewrite Hc.
  - intros q ch lk. cbn. destruct (decide (q = p)) as [->|]; [rewrite fupd_eq|rewrite fupd_ne by done; by left].
    pose proof (inv_park _ H p Ho) as Hp. unfold parked, state in *. rewrite Hr in Hp. destruct Hp as [_ [E|(k & b & r & E)]];
      unfold waiting; cbn; rewrite E; cbn; [done|]. destruct k; [|done..]. by intros (_ & _ & ?).
Qed.

(** [swtch] to the process. *)
Lemma inv_switch p r : h_stack h0 = D_swtch p :: r -> inv (scheduler_step i (D_swtch p) w).
Proof using H Hi Hc.
  intros Hs. destruct sched_facts as [C D]. rewrite Hs in C, D. cbn in C, D. destruct C as [C ->]. destruct D as (Ho & Hr & Hm).
  pose proof (inv_lock _ H i) as Hlo. assert (w_lock w (LProc p) = Some i) as Hl by (apply (lo_held _ _ Hlo); rewrite C; left).
  cbn [scheduler_step]. rewrite goto_sched by done. rewrite Hs.
  pose proof (inv_park _ H p Ho) as Hp. unfold parked, state in *. rewrite Hr in Hp. destruct Hp as [Hst Hb].
  assert (run_state (top (sp_stack (w_procs w p))) = RUNNING /\ (forall ch, run_chan (top (sp_stack (w_procs w p))) ch) /\
    waker (top (sp_stack (w_procs w p))) = None) as (Q1 & Q2 & Q3).
  { destruct Hb as [->|(k & b & r & ->)]; cbn; [done|]. by destruct k. }
  eapply (inv_step w _ i H Hi).
  - by others.
  - by left.
  - destruct Hlo as [L1 L2 L3 L4]. split; wsimp; done.
  - by left.
  - intros q. wsimp. intros [= <-]. by right.
  - unfold hart_ok. wsimp. split; wsimp; try done; [by rewrite C|by rewrite Q1].
  - intros q Hq. left. split; [|done]. intros j Hj. apply (Hq j). destruct (decide (j = i)) as [->|]; [congruence|]. by others.
  - apply wake_none. wsimp. done.
  - intros q ch lk. by left.
Qed.

Lemma inv_scheduler x r : h_stack h0 = x :: r -> inv (scheduler_step i x w).
Proof using H Hi Hc.
  intros Hs. destruct x; try done; try by eapply inv_scheduler_plain. - by eapply inv_pick. - by eapply inv_switch.
Qed.

End Scheduler.

(** ** Steps on whichever stack the CPU is on *)

(** Places that say nothing about a process's state. *)
Definition neutral (x : pc) : bool :=
  match x with
  | C_check _ | C_swtch _ _ | X_unlock | S_state _ _ | D_run _ | D_cpu _ | D_swtch _ | D_out _ => false
  | _ => true
  end.

Lemma neutral_facts x : neutral x -> run_state x = RUNNING /\ (forall ch, run_chan x ch).
Proof. by destruct x. Qed.

Section Live.
Context (w : world) (i : nat) (H : inv w) (Hi : (i < ncpu)%nat).

Lemma live_stack_ok : stack_ok (cur w i) (held w i) (live w i).
Proof using H.
  pose proof (inv_hart _ H i) as Ht. unfold hart_ok, live in *. destruct (cur w i); [apply Ht|apply Ht].
Qed.

(** The stack changes between neutral places, and locks are taken or released. *)
Lemma inv_set_live w1 s :
  w_procs w1 = w_procs w -> (forall j, j <> i -> w_harts w1 j = w_harts w j) -> lock_step w w1 i ->
  cur w1 i = cur w i -> h_proc (w_harts w1 i) = h_proc (w_harts w i) -> h_stack (w_harts w1 i) = h_stack (w_harts w i) ->
  neutral (top (live w i)) -> stack_ok (cur w i) (held w1 i) s -> neutral (top s) ->
  (forall ch lk x, sp_stack x = s -> ~ waiting ch lk x) ->
  (forall ch q lk p, waker (top s) = Some (ch, q) -> is_proc_lock lk = false -> w_lock w1 lk = Some i -> 0 <= p < q ->
     cur w i <> Some p -> ~ waiting ch lk (w_procs w p)) ->
  inv (set_live i s w1).
Proof using H Hi.
  intros Ep Ej [El Elo] Ec Eh Es Hn Hs Hn' Hw Hwk. unfold set_live. rewrite Ec.
  pose proof (inv_hart _ H i) as Ht. unfold hart_ok in Ht. destruct (neutral_facts _ Hn') as [N1 N2].
  destruct (cur w i) as [p|] eqn:Hc.
  - destruct Ht as [A B C D E]. unfold live in Hn. rewrite Hc in Hn. destruct (neutral_facts _ Hn) as [N3 _]. rewrite N3 in D.
    eapply (inv_thread w _ i p H Hc); try done.
    + intros q Hq. cbn. rewrite fupd_ne by done. by rewrite Ep.
    + split; [done|]. by destruct Elo.
    + cbn. rewrite fupd_eq. done.
    + wsimp. unfold state in D. by rewrite Ep, D, N1.
    + cbn. rewrite fupd_eq. apply N2.
    + intros ch q lk p' Hwq Hl1 Hl2 Hpq. unfold live in Hwq. cbn in Hwq. rewrite Ec, fupd_eq in Hwq. cbn in Hwq. cbn.
      destruct (decide (p' = p)) as [->|Hne]; [rewrite fupd_eq; by apply Hw|rewrite fupd_ne by done; rewrite Ep].
      eapply (Hwk ch q lk p'); try done. congruence.
    + intros ch lk Hw'. cbn in Hw'. rewrite fupd_eq in Hw'. by apply Hw in Hw'.
  - assert (h_proc (w_harts w i) = None) as Em.
    { unfold live in Hn. rewrite Hc in Hn. destruct Ht as [_ Ht]. by destruct (top (h_stack (w_harts w i))). }
    eapply (inv_sched w _ i H Hi Hc); try done.
    + intros j Hj. cbn. rewrite fupd_ne by done. by apply Ej.
    + split; [done|]. destruct Elo as [L1 L2 L3 L4]. split; wsimp; done.
    + by wsimp.
    + unfold sched_ok. wsimp. split; [done|]. rewrite Eh, Em. by destruct (top s).
    + intros ch q lk p' Hwq Hl1 Hl2 Hpq. unfold live in Hwq. cbn in Hwq. rewrite fupd_eq in Hwq. cbn in Hwq. rewrite Ec in Hwq. cbn in Hwq. cbn.
      rewrite Ep. by eapply (Hwk ch q lk p').
Qed.

Lemma lock_step_same : lock_step w w i.
Proof using H. apply lock_same; try done; apply (inv_lock _ H i). Qed.
Lemma lock_step_took l : w_lock w l = None -> lock_step w (took i l w) i.
Proof using H. intros. apply (lock_took _ _ _ l); wsimp; try done. apply (inv_lock _ H i). Qed.
Lemma lock_step_dropped l : w_lock w l = Some i -> lock_step w (dropped i l w) i.
Proof using H. intros. apply (lock_drop _ _ _ l); wsimp; try done. apply (inv_lock _ H i). Qed.
Lemma lock_step_sie b : (b = true -> held w i = []) -> lock_step w (seth i (with_sie b (w_harts w i)) w) i.
Proof using H. intros. apply lock_same; wsimp; try done; apply (inv_lock _ H i). Qed.

Lemma live_took l : live (took i l w) i = live w i.
Proof using. by wsimp. Qed.
Lemma live_dropped l : live (dropped i l w) i = live w i.
Proof using. by wsimp. Qed.

(** What a wakeup() whose CPU holds a process's lock can find: the process is not
    between giving up its condition's lock and falling asleep. *)
Lemma locked_waiting q ch lk : w_lock w (LProc q) = Some i -> cur w i <> Some q ->
  waiting ch lk (w_procs w q) -> state w q = SLEEPING /\ sp_chan (w_procs w q) = Some ch.
Proof using H.
  intros Hl Hc Hw. destruct (off_or_on w q H) as [Ho|[j Hj]].
  - pose proof (inv_park _ H q Ho) as Hp. unfold parked, state, waiting in *.
    destruct (sp_state (w_procs w q)) eqn:Es.
    + destruct (top (sp_stack (w_procs w q))); try done; destruct k; naive_solver.
    + by rewrite Hp in Hw.
    + destruct Hp as (_ & c & l & b & r & E1 & E2). rewrite E1 in Hw. cbn in Hw. by destruct Hw as (<- & _).
    + destruct Hp as [_ [E|(k & b & r & E)]]; rewrite E in Hw; cbn in Hw; [done|]. destruct k; naive_solver.
    + destruct Hp as [_ [E|(k & b & r & E)]]; rewrite E in Hw; cbn in Hw; [done|]. destruct k; naive_solver.
    + destruct (top (sp_stack (w_procs w q))); try done; destruct k; naive_solver.
  - destruct (decide (j = i)) as [->|Hne]; [done|]. exfalso.
    pose proof (inv_hart _ H j) as Ht. unfold hart_ok in Ht. rewrite Hj in Ht. destruct Ht as [_ _ C D _].
    assert (LProc q ∈ held w j) as Hin.
    { unfold waiting in Hw. destruct (sp_stack (w_procs w q)) as [|x r]; [done|]. destruct C as [C _]. cbn in Hw, C.
      destruct x; try done; first [rewrite C; left | rewrite (proj1 C); left | destruct k; rewrite (proj1 C) || done; left]. }
    apply (lo_held _ _ (inv_lock _ H j)) in Hin. congruence.
Qed.

(** On a neutral place [myproc()] is the process whose stack it is. *)
Lemma myproc_cur : neutral (top (live w i)) -> myproc w i = cur w i.
Proof using H.
  intros Hn. pose proof (inv_hart _ H i) as Ht. unfold hart_ok, live, myproc in *. destruct (cur w i); [apply Ht|].
  destruct Ht as [_ Ht]. by destruct (top (h_stack (w_harts w i))).
Qed.

Ltac plain_wait := by intros ? ? y Ey Hy; unfold waiting in Hy; rewrite Ey in Hy.

(** wakeup(), the writes to a process's state apart. *)
Lemma inv_wakeup_plain x r : live w i = x :: r ->
  match x with W_loop _ _ | W_unlock _ _ => True | _ => False end -> inv (wakeup_step i x w).
Proof using H Hi.
  intros Hs Hx. pose proof live_stack_ok as C. rewrite Hs in C. pose proof (inv_lock _ H i) as [L1 L2 L3 L4].
  pose proof (inv_wake _ H i) as Hwk. unfold wake_ok in Hwk. rewrite Hs in Hwk. cbn [top hd] in Hwk.
  destruct x as [| | | | | | | | | | | | | | | | | | | | | | | | |ch q|ch q|ch q| | | | |]; try done; clear Hx; destruct C as [C1 C2]; cbn [wakeup_step waker] in *.
  - zcase (q <? NPROC) as E; [case_decide as Em|].
    + unfold goto. rewrite Hs. apply inv_set_live; rewrite ?Hs; try done; [apply lock_step_same|plain_wait|].
      intros c q' lk p [= <- <-] Hlk Hl Hpq Hc. destruct (decide (p = q)) as [->|]; [|apply (Hwk ch q lk); try done; lia].
      rewrite myproc_cur in Em by by rewrite Hs. done.
    + unfold wacquire. destruct (w_lock w (LProc q)) as [j|] eqn:Ej.
      { case_decide as Ek; [|done]. subst. apply L1 in Ej. cbn in C1. unfold no_proc_locks in C1. rewrite Forall_forall in C1. by apply C1 in Ej. }
      unfold goto. rewrite live_took, Hs. apply inv_set_live; rewrite ?Hs; try done; try (by wsimp); try (by others); [by apply lock_step_took| |plain_wait|].
      * wsimp. split; [by eauto|done].
      * intros c q' lk p [= <- <-] Hlk Hl Hpq Hc. cbn in Hl. rewrite fupd_ne in Hl by (intros ->; done). by apply (Hwk ch q lk).
    + unfold return_. rewrite Hs. destruct (caller_plain _ (held w i) _ C2) as [S1 [S2 S3 S4 S5]].
      apply inv_set_live; rewrite ?Hs; try done; [apply lock_step_same| |].
      * destruct r as [|[] [|]]; done.
      * cbn [tail]. by rewrite S4.
  - destruct C1 as (h & Eh & Hh). rewrite (wrelease_eq _ _ H) by (rewrite Eh; left).
    assert (w_lock w (LProc q) = Some i) as Hlq by (apply L1; rewrite Eh; left).
    assert (LProc q ∉ h) as Hq. { intros Hin. unfold no_proc_locks in Hh. rewrite Forall_forall in Hh. by apply Hh in Hin. }
    unfold goto. rewrite live_dropped, Hs. apply inv_set_live; rewrite ?Hs; try done; try (by wsimp); try (by others); [by apply lock_step_dropped| |plain_wait|].
    + wsimp. rewrite Eh, remove_lock_head by done. done.
    + intros c q' lk p [= <- <-] Hlk Hl Hpq Hc. cbn in Hl. rewrite fupd_ne in Hl by (intros ->; done). by apply (Hwk ch (q + 1) lk).
Qed.

(** A write to the state of a process whose lock the CPU holds. *)
Lemma inv_table q y : w_lock w (LProc q) = Some i -> cur w i <> Some q -> neutral (top (live w i)) ->
  table_write (w_procs w q) y -> inv (setp q y w).
Proof using H Hi.
  intros Hl Hc Hn Ht.
  assert (off w q) as Ho.
  { apply (locked_off _ i); try done. unfold state. inversion Ht as [? ? E|? ? E|st ? ? Hst E|? ? E]; cbn; try done. by destruct Hst as [-> | ->]. }
  pose proof (inv_park _ H q Ho) as Hp. unfold parked in Hp.
  assert (parked q y /\ forall ch lk, ~ waiting ch lk y) as [Hpk Hnw].
  { unfold parked, waiting. inversion Ht as [? ? E|? ? E|st ? ? Hst E|? ? E]; rewrite <- E in Hp; cbn in *.
    - split; [done|tauto].
    - rewrite Hp. split; [|cbn; tauto]. split; [done|by left].
    - assert (early (top s) = false) as Es by by destruct Hst as [-> | ->]; rewrite ?Hp. split; [done|].
      intros c l. destruct (top s) as [| | | | | | | | | | | | | | | | | | |k|k ?|k ?| | | | | | | | | | |]; try done; try tauto; destruct k; naive_solver.
    - destruct Hp as [Hr (c & l & b & r & -> & _)]. split; [done|]. intros ? ?. cbn. naive_solver. }
  assert (forall p, cur w i = Some p -> w_procs (setp q y w) p = w_procs w p) as Hown.
  { intros p Hpc. cbn. apply fupd_ne. congruence. }
  assert (live (setp q y w) i = live w i) as Elive.
  { unfold live. cbn [w_harts setp]. destruct (cur w i) as [p|] eqn:Ec; [|done]. by rewrite Hown. }
  eapply (inv_step w _ i H Hi); try (by left); try done.
  - by destruct (inv_lock _ H i).
  - intros p. cbn. destruct (decide (p = q)) as [->|]; [by right; right|left; by rewrite fupd_ne].
  - pose proof (inv_hart _ H i) as Hh. unfold hart_ok, live in *. cbn [w_harts setp]. destruct (cur w i) as [p|] eqn:Ec.
    + specialize (Hown p eq_refl). destruct Hh as [A B C D E]. unfold state in *. split; unfold state; rewrite ?Hown; done.
    + destruct Hh as [A B]. split; [done|]. cbn [w_harts setp]. by destruct (top (h_stack (w_harts w i))).
  - intros p Hp'. destruct (decide (p = q)) as [->|Hne]; [right; cbn; by rewrite fupd_eq|left].
    split; [exact Hp'|]. cbn. by rewrite fupd_ne.
  - intros ch q' lk p Hw Hlk Hl' Hpq. rewrite Elive in Hw. cbn. destruct (decide (p = q)) as [->|Hne]; [rewrite fupd_eq; apply Hnw|].
    rewrite fupd_ne by done. by apply (inv_wake _ H i ch q' lk).
  - intros p ch lk. cbn. destruct (decide (p = q)) as [->|Hne]; [rewrite fupd_eq; intros Hw; by apply Hnw in Hw|rewrite fupd_ne by done; by left].
Qed.

(** After the check the process is not asleep on the channel. *)
Lemma inv_wakeup_next ch q r : live w i = W_check ch q :: r ->
  ~ (state w q = SLEEPING /\ sp_chan (w_procs w q) = Some ch) -> inv (goto i (W_unlock ch q) w).
Proof using H Hi.
  intros Hs Hns. pose proof live_stack_ok as C. rewrite Hs in C. destruct C as [(h & Eh & Hh) C2].
  assert (w_lock w (LProc q) = Some i) as Hlq by (apply (lo_held _ _ (inv_lock _ H i)); rewrite Eh; left).
  pose proof (inv_wake _ H i) as Hwk. unfold wake_ok in Hwk. rewrite Hs in Hwk. cbn [waker top hd] in Hwk.
  unfold goto. rewrite Hs. apply inv_set_live; rewrite ?Hs; try done; [apply lock_step_same|split; [by exists h|done]|plain_wait|].
  intros c q' lk p [= <- <-] Hlk Hl Hpq Hc. destruct (decide (p = q)) as [->|]; [|apply (Hwk ch q lk); try done; lia].
  intros Hw. by destruct Hns; apply (locked_waiting q ch lk).
Qed.

End Live.

Lemma inv_wakeup w i x r : inv w -> (i < ncpu)%nat -> live w i = x :: r -> inv (wakeup_step i x w).
Proof.
  intros H Hi Hs. destruct x as [| | | | | | | | | | | | | | | | | | | | | | | | |ch q|ch q|ch q| | | | |]; try done; try by eapply inv_wakeup_plain.
  pose proof (live_stack_ok w i H) as C. rewrite Hs in C. destruct C as [(h & Eh & Hh) C2].
  assert (w_lock w (LProc q) = Some i) as Hlq by (apply (lo_held _ _ (inv_lock _ H i)); rewrite Eh; left).
  cbn [wakeup_step]. case_decide as Ed; [|by eapply inv_wakeup_next]. destruct Ed as [E1 E2].
  assert (cur w i <> Some q) as Hne.
  { intros Hc. destruct (thread_facts w i q H Hc) as [_ _ _ D _]. unfold live in Hs. rewrite Hc in Hs. rewrite Hs, E1 in D. done. }
  assert (inv (write_state q RUNNABLE w)) as H'.
  { unfold write_state. apply (inv_table w i H Hi); try done; [by rewrite Hs|].
    unfold state in E1. destruct (w_procs w q) as [st c s]. cbn in E1, E2. subst. constructor. }
  apply (inv_wakeup_next _ i H' Hi _ _ r).
  - unfold live in *. cbn [write_state w_harts setp w_procs]. destruct (cur w i) as [p|] eqn:Ec; [|done]. rewrite fupd_ne; [done|congruence].
  - unfold state, write_state. cbn. rewrite fupd_eq. by intros [? _].
Qed.

(** ** Every step preserves the invariant *)

Lemma inv_hart_step w i : inv w -> (i < ncpu)%nat -> inv (hart_step i w).
Proof.
  intros H Hi. unfold hart_step. destruct (live w i) as [|x r] eqn:Hs; [done|].
  pose proof (live_stack_ok w i H) as C. rewrite Hs in C. destruct C as [C _].
  destruct (cur w i) as [p|] eqn:Hc; unfold live in Hs; rewrite Hc in Hs.
  - destruct x; try done; try (by eapply inv_sleep); try (by eapply inv_sched_call); try (by eapply inv_yield);
      try (by eapply inv_exit); try (by eapply inv_forkret);
      try (eapply inv_wakeup; [done|done|unfold live; by rewrite Hc]).
  - destruct x; try done; try (by eapply inv_scheduler); try (eapply inv_wakeup; [done|done|unfold live; by rewrite Hc]).
Qed.

(** Places with no lock held. *)
Lemma unlocked_plain me s : stack_ok me [] s ->
  neutral (top s) /\ (forall ch lk x, sp_stack x = s -> ~ waiting ch lk x).
Proof.
  destruct s as [|x r]; [done|]. intros [C _]. unfold waiting. split.
  - destruct x, me; try done; try (by destruct C as [? _]); try (by destruct C as (? & ? & _)); destruct k; naive_solver.
  - intros ch lk y ->. cbn. destruct x, me; cbn in C; try done; try tauto; try (by destruct C as [? _]); destruct k; naive_solver.
Qed.

(** Code outside the functions changes only its locks and its interrupt-enable bit. *)
Lemma inv_code w w1 i x r : inv w -> (i < ncpu)%nat -> live w i = x :: r -> is_code x ->
  w_procs w1 = w_procs w -> (forall j, j <> i -> w_harts w1 j = w_harts w j) -> lock_step w w1 i ->
  cur w1 i = cur w i -> h_proc (w_harts w1 i) = h_proc (w_harts w i) -> h_stack (w_harts w1 i) = h_stack (w_harts w i) -> inv w1.
Proof.
  intros H Hi Hs Hx Ep Ej El Ec Eh Es. pose proof (live_stack_ok w i H) as C. rewrite Hs in C.
  assert (stack_ok (cur w i) (held w1 i) (live w i)) as C'.
  { rewrite Hs. destruct C as [C1 C2]. by destruct x. }
  assert (live w1 i = live w i) as Elive by (unfold live; by rewrite Ec, Es, Ep).
  apply (world_inv_local w w1 i H Hi); try done.
  - intros q _. by rewrite Ep.
  - pose proof (inv_hart _ H i) as Hh. unfold hart_ok, live in *. rewrite Ec. destruct (cur w i) as [p|] eqn:Hc.
    + destruct Hh as [A B _ D E]. split; rewrite ?Eh, ?Es, ?Ep; try done. unfold state in *. by rewrite Ep.
    + destruct Hh as [_ B]. unfold sched_ok. rewrite Es, Eh. split; [done|]. rewrite Hs in *. by destruct x.
  - apply wake_none. rewrite Elive, Hs. by destruct x.
  - intros p ch lk Hc. rewrite Ep. by left.
Qed.

Lemma inv_action w w' i : inv w -> (i < ncpu)%nat -> action i w w' -> inv w'.
Proof.
  intros H Hi Ha. destruct Ha as [w|w Hsie|w r Hs Hh|w x r y Hs Hx Hy|w r b Hs Hb|w x r l Hs Hx Hl|w x r l Hs Hx Hl|w x r q y Hs Hx Hl Ht].
  - by apply inv_hart_step.
  - pose proof (lo_sie _ _ (inv_lock _ H i) Hsie) as Hh. pose proof (live_stack_ok w i H) as C. rewrite Hh in C.
    destruct (unlocked_plain _ _ C) as [N1 N2]. unfold call. replace (live _ i) with (live w i) by (by wsimp).
    apply (inv_set_live w i H Hi); try done; try (by wsimp); try (by others); [by apply lock_step_sie|by intros ? ? y E Hy; unfold waiting in Hy; rewrite E in Hy].
  - pose proof (live_stack_ok w i H) as C. rewrite Hs in C. destruct C as [_ C]. destruct (unlocked_plain _ _ C) as [N1 N2].
    unfold return_. replace (live _ i) with (live w i) by (by wsimp). rewrite Hs. cbn [tail].
    apply (inv_set_live w i H Hi); try done; try (by wsimp); try (by others); [by apply lock_step_sie|by rewrite Hs|wsimp; by rewrite Hh|].
    intros ch q lk p _ _ Hl. cbn in Hl. apply (lo_held _ _ (inv_lock _ H i)) in Hl. rewrite Hh in Hl. by apply not_elem_of_nil in Hl.
  - unfold call. rewrite Hs. pose proof (live_stack_ok w i H) as C. rewrite Hs in C. destruct C as [C1 C2].
    assert (caller (cur w i) (x :: r)) as Hcl.
    { destruct x; try done. cbn in C1, C2. subst. by destruct (cur w i); [eexists|]. }
    apply (inv_set_live w i H Hi); rewrite ?Hs; try done; try (by destruct x); [apply (lock_step_same w i H)| | | |].
    + assert (x = Code -> is_Some (cur w i)) as Hsome by (intros ->; by destruct (cur w i); [eexists|]).
      destruct y; try done; cbn [may_call] in Hy.
      * destruct Hy as (Hx' & Hh & Hlk). destruct (Hsome Hx') as [p Hp]. rewrite Hp in *. done.
      * destruct Hy as (Hh & p & Hp & _). rewrite Hp in *. done.
      * destruct Hy as [_ Hh]. done.
      * destruct Hy as (Hx' & Hh). destruct (Hsome Hx') as [p Hp]. rewrite Hp in *. done.
    + by destruct y.
    + intros ch lk z E Hz. unfold waiting in Hz. rewrite E in Hz. by destruct y.
    + intros ch q lk p Hw. destruct y; try done. cbn in Hw. destruct Hy as [-> _]. injection Hw as <- <-. lia.
  - apply (inv_code w _ i Code r H Hi Hs); try done; try (by wsimp); try (by others). by apply lock_step_sie.
  - apply (inv_code w _ i x r H Hi Hs); try done; try (by wsimp); try (by others). by apply lock_step_took.
  - apply (inv_code w _ i x r H Hi Hs); try done; try (by wsimp); try (by others). by apply lock_step_dropped.
  - apply (inv_table w i H Hi); try done.
    + intros Hc. destruct (thread_facts w i q H Hc) as [_ _ _ D _]. unfold live in Hs. rewrite Hc in Hs. rewrite Hs in D.
      unfold state in D. assert (sp_state (w_procs w q) = RUNNING) as E by (rewrite D; by destruct x).
      inversion Ht as [? ? E'|? ? E'|st ? ? Hst E'|? ? E']; rewrite <- E' in E; cbn in E; try done. destruct Hst; congruence.
    + rewrite Hs. by destruct x.
Qed.

Lemma world_initial_inv w : initial w -> inv w.
Proof.
  intros (Hl & Hh & Hp).
  assert (forall i, live w i = [D_on]) as Hlive.
  { intros i. destruct (Hh i) as (_ & _ & Hc & Hs & _). unfold live. by rewrite Hc. }
  split.
  - intros i. destruct (Hh i) as (Hn & _ & _ & _ & He). split; rewrite ?He, ?Hn; try done; [|constructor].
    intros l. rewrite Hl. split; [done|by intros ?%not_elem_of_nil].
  - intros i. destruct (Hh i) as (_ & Hm & Hc & Hs & He). unfold hart_ok, sched_ok. by rewrite Hc, Hs, He.
  - intros i j p Hi. destruct (Hh i) as (_ & _ & Hc & _). congruence.
  - intros p _. unfold parked. destruct (Hp p) as [[Hs Hk]|[Hs Hk]]; unfold state in Hs; rewrite Hs, Hk; [done|]. split; [done|by left].
  - intros i. apply wake_none. by rewrite Hlive.
  - intros i p Hi. destruct (Hh i) as (_ & _ & Hc & _). congruence.
Qed.

Lemma world_reachable_inv w : reachable w -> inv w.
Proof.
  induction 1 as [w Hw|w w' _ IH (i & Hi & Ha)]; [by apply world_initial_inv|by eapply inv_action].
Qed.

(** ** The scheduler finds work *)

Abbreviation run n i w := (Nat.iter n (hart_step i) w).

(** CPU [i] is about to look at process [p], in a table that has not changed. *)
Record scanning (w0 w : world) (i : nat) (p : Z) : Prop := {
  sc_procs : w_procs w = w_procs w0;
  sc_free : forall q, w_lock w (LProc q) = None;
  sc_cur : cur w i = None;
  sc_stack : h_stack (w_harts w i) = [D_lock p];
  sc_noff : h_noff (w_harts w i) = 0;
}.

Section Scan.
Context (w0 w : world) (i : nat) (p : Z) (S0 : scanning w0 w i p) (Hp : p < NPROC).

Lemma hart_step_sched w' x r : cur w' i = None -> h_stack (w_harts w' i) = x :: r ->
  match x with D_on | D_lock _ | D_check _ | D_run _ | D_cpu _ | D_swtch _ | D_out _ | D_unlock _ => True | _ => False end ->
  hart_step i w' = scheduler_step i x w'.
Proof using. intros Hc Hs Hx. unfold hart_step, live. rewrite Hc, Hs. by destruct x. Qed.

(** The lock of the process is taken. *)
Lemma scan_lock : hart_step i w = goto i (D_check p) (took i (LProc p) w).
Proof using S0 Hp.
  destruct S0 as [A B C D E]. rewrite (hart_step_sched w _ [] C D) by done. cbn [scheduler_step].
  rewrite (proj2 (Z.ltb_lt _ _) Hp). unfold wacquire. by rewrite B.
Qed.

Abbreviation w1 := (goto i (D_check p) (took i (LProc p) w)).

Lemma scan_at : w_procs w1 = w_procs w0 /\ cur w1 i = None /\ h_stack (w_harts w1 i) = [D_check p] /\
  h_noff (w_harts w1 i) = 1 /\ h_sie (w_harts w1 i) = false /\ w_lock w1 (LProc p) = Some i /\
  forall q, q <> p -> w_lock w1 (LProc q) = None.
Proof using S0.
  destruct S0 as [A B C D E]. rewrite goto_sched by (wsimp; done). wsimp. rewrite D, E.
  repeat split; try done. intros q Hq. rewrite fupd_ne by congruence. apply B.
Qed.

(** A process that cannot run is passed over in three steps. *)
Lemma scan_next : state w0 p <> RUNNABLE -> scanning w0 (run 3 i w) i (p + 1).
Proof using S0 Hp.
  intros Hst. change (run 3 i w) with (hart_step i (hart_step i (hart_step i w))). rewrite scan_lock. destruct scan_at as (A & B & C & D & E & F & G).
  rewrite (hart_step_sched w1 _ [] B C) by done. cbn [scheduler_step].
  rewrite decide_False by (unfold state; rewrite A; done).
  rewrite (goto_sched w1) by done. rewrite C. cbn [tail]. set (w2 := seth i _ _).
  rewrite (hart_step_sched w2 (D_unlock p) []) by (unfold w2; wsimp; done).
  cbn [scheduler_step]. unfold wrelease.
  rewrite decide_True by done. replace (h_sie (w_harts w2 i)) with false by (unfold w2; wsimp; done).
  replace (h_noff (w_harts w2 i)) with 1 by (unfold w2; wsimp; done). cbn [Z.ltb Z.compare Pos.compare Pos.compare_cont].
  rewrite goto_sched by (unfold w2; wsimp; done).
  split; unfold w2; wsimp; try done.
  - intros q. destruct (decide (q = p)) as [->|Hq]; [by rewrite fupd_eq|]. rewrite fupd_ne by congruence. by apply G.
  - by rewrite D.
Qed.

(** One that can is run after five. *)
Lemma scan_hit : state w0 p = RUNNABLE -> cur (run 5 i w) i = Some p.
Proof using S0 Hp.
  intros Hst. change (run 5 i w) with (hart_step i (hart_step i (hart_step i (hart_step i (hart_step i w))))). rewrite scan_lock. destruct scan_at as (A & B & C & D & E & F & G).
  rewrite (hart_step_sched w1 _ [] B C) by done. cbn [scheduler_step].
  rewrite decide_True by (unfold state; rewrite A; done).
  rewrite (goto_sched w1) by done. rewrite C. cbn [tail]. set (w2 := seth i _ _).
  rewrite (hart_step_sched w2 (D_run p) []) by (unfold w2; wsimp; done). cbn [scheduler_step]. unfold write_state.
  rewrite goto_sched by (unfold w2; wsimp; done). set (w3 := seth i _ _).
  rewrite (hart_step_sched w3 (D_cpu p) []) by (unfold w3, w2; wsimp; done). cbn [scheduler_step]. unfold write_cproc.
  rewrite goto_sched by (unfold w3, w2; wsimp; done). set (w4 := seth i _ _).
  rewrite (hart_step_sched w4 (D_swtch p) []) by (unfold w4, w3, w2; wsimp; done). cbn [scheduler_step]. wsimp. done.
Qed.
End Scan.

(** At the end of the table the loop starts over. *)
Lemma scan_wrap w0 w i : scanning w0 w i NPROC -> scanning w0 (run 2 i w) i 0.
Proof.
  intros [A B C D E]. change (run 2 i w) with (hart_step i (hart_step i w)). rewrite (hart_step_sched i w _ [] C D) by done. cbn [scheduler_step]. rewrite Z.ltb_irrefl.
  rewrite goto_sched by done. rewrite D. cbn [tail]. set (w1 := seth i _ _).
  rewrite (hart_step_sched i w1 D_on []) by (unfold w1; wsimp; done). cbn [scheduler_step].
  rewrite goto_sched by (unfold w1; wsimp; done). split; unfold w1; wsimp; done.
Qed.

Lemma run_add n m i w : run (n + m) i w = run n i (run m i w).
Proof. apply Nat.iter_add. Qed.

(** From [p] on, the first process that can run is run. *)
Lemma scan_from w0 i d : forall w p q, scanning w0 w i p -> q = p + Z.of_nat d -> q < NPROC -> state w0 q = RUNNABLE ->
  exists n r, (n <= 3 * d + 5)%nat /\ p <= r <= q /\ state w0 r = RUNNABLE /\ cur (run n i w) i = Some r.
Proof.
  induction d as [|d IH]; intros w p q Hs Hq Hlt Hst.
  - exists 5%nat, p. assert (q = p) as -> by lia. split; [lia|]. split; [lia|]. split; [done|]. by eapply scan_hit.
  - destruct (decide (state w0 p = RUNNABLE)) as [E|E].
    { exists 5%nat, p. split; [lia|]. split; [lia|]. split; [done|]. eapply scan_hit; try done. lia. }
    destruct (IH (run 3 i w) (p + 1) q) as (n & r & Hn & Hr & Hsr & Hc); [|lia|done|done|].
    { apply scan_next; [done|lia|done]. }
    exists (n + 3)%nat, r. rewrite run_add. split; [lia|]. split; [lia|]. done.
Qed.

(** To the end of the table with nothing to run. *)
Lemma scan_rest w0 i d : forall w p, scanning w0 w i p -> NPROC = p + Z.of_nat d ->
  (forall q, p <= q < NPROC -> state w0 q <> RUNNABLE) -> scanning w0 (run (3 * d) i w) i NPROC.
Proof.
  induction d as [|d IH]; intros w p Hs Hd Hno.
  - cbn. by replace NPROC with p by lia.
  - replace (3 * S d)%nat with (3 * d + 3)%nat by lia. rewrite run_add. apply (IH _ (p + 1)); [|lia|intros; apply Hno; lia].
    apply scan_next; [done|lia|apply Hno; lia].
Qed.

(** ** The theorems *)

(** C5: no reachable interleaving of the CPUs panics in scheduler(), sched(), sleep(),
    wakeup(), yield(), forkret(), exit() or in the locks they take: sched() always finds
    its process's lock held and no other, the state changed and interrupts off, a lock is
    never acquired twice or released by a CPU that does not hold it, and a zombie is
    never run. *)
Theorem sched_never_panics w i msg r : reachable w -> live w i <> Stop msg :: r.
Proof.
  intros H E. pose proof (live_stack_ok w i (world_reachable_inv w H)) as C. rewrite E in C. by destruct C.
Qed.

(** C4: a process is never on two CPUs; the one that runs it has it as [c->proc] with state
    RUNNING, except between a change of state under the process's lock and the switch. *)
Theorem process_on_one_cpu w i j p : reachable w -> cur w i = Some p ->
  (cur w j = Some p -> i = j) /\ myproc w i = Some p /\ (state w p = RUNNING \/ w_lock w (LProc p) = Some i).
Proof.
  intros Hr Hc. pose proof (world_reachable_inv w Hr) as H. split; [by intros; apply (inv_uniq _ H _ _ p)|].
  destruct (thread_facts w i p H Hc) as [A _ C D _]. split; [done|]. rewrite D.
  destruct (sp_stack (w_procs w p)) as [|x r]; [done|]. destruct C as [C _].
  assert (run_state x = RUNNING \/ LProc p ∈ held w i) as [E|E]; [|by left|by right; apply (lo_held _ _ (inv_lock _ H i))].
  destruct x; try (by left); right; cbn in C; first [rewrite C; left|rewrite (proj1 C); left].
Qed.

(** C3: no lost wakeup. When a wakeup(ch) has gone through the process table while its CPU
    holds [lk], no process is still asleep, or on its way to sleep, in a sleep(ch, lk). *)
Theorem no_lost_wakeup w i ch lk r p : reachable w -> live w i = W_loop ch NPROC :: r ->
  is_proc_lock lk = false -> w_lock w lk = Some i -> 0 <= p < NPROC -> ~ waiting ch lk (w_procs w p).
Proof.
  intros H Hs Hlk Hl Hp. apply (inv_wake _ (world_reachable_inv w H) i ch NPROC lk p); try done. by rewrite Hs.
Qed.


(** C37: a scheduler that is not interrupted finds a process to run: if some process is
    RUNNABLE and no process is locked, a CPU anywhere in its loop over the table switches
    to a RUNNABLE process after at most [3 * NPROC + 3 * NPROC + 7] steps of its own. *)
Theorem scheduler_finds w i p q : h_stack (w_harts w i) = [D_lock p] -> cur w i = None -> h_noff (w_harts w i) = 0 ->
  (forall x, w_lock w (LProc x) = None) -> 0 <= p <= NPROC -> 0 <= q < NPROC -> state w q = RUNNABLE ->
  exists n r, (n <= 2 * 3 * Z.to_nat NPROC + 7)%nat /\ state w r = RUNNABLE /\ cur (run n i w) i = Some r.
Proof.
  intros Hs Hc Hn Hl Hp Hq Hst.
  assert (scanning w w i p) as Hsc by by split.
  destruct (decide (p <= q)) as [E|E].
  - destruct (scan_from w i (Z.to_nat (q - p)) w p q) as (n & r & Hn' & _ & H1 & H2); [done|lia|lia|done|].
    exists n, r. split; [|done]. lia.
  - destruct (decide (Exists (fun x => state w x = RUNNABLE) (seqZ p (NPROC - p)))) as [Ex|Ex].
    + apply Exists_exists in Ex as (x & Hx & Hsx). apply elem_of_seqZ in Hx.
      destruct (scan_from w i (Z.to_nat (x - p)) w p x) as (n & r & Hn' & _ & H1 & H2); [done|lia|lia|done|].
      exists n, r. split; [|done]. lia.
    + assert (scanning w (run (2 + 3 * Z.to_nat (NPROC - p)) i w) i 0) as Hs0.
      { rewrite run_add. apply scan_wrap, (scan_rest w i (Z.to_nat (NPROC - p)) w p); [done|lia|].
        intros x Hx Hsx. apply Ex, Exists_exists. exists x. split; [apply elem_of_seqZ; lia|done]. }
      destruct (scan_from w i (Z.to_nat q) _ 0 q Hs0) as (n & r & Hn' & _ & H1 & H2); [lia|lia|done|].
      exists (n + (2 + 3 * Z.to_nat (NPROC - p)))%nat, r. rewrite run_add. split; [|done]. lia.
Qed.

(** ** Applications *)

(** Two processes ready to run, as after the first fork. *)
Definition boot : world :=
  World (fun p => if (p =? 0) || (p =? 1) then SProc RUNNABLE None [F_unlock] else SProc UNUSED None [])
    (fun _ => Hart 0 false false None None [D_on] []) (fun _ => None).

Lemma boot_initial : initial boot.
Proof.
  split; [done|]. split; [done|]. intros p. unfold boot, state. cbn.
  destruct ((p =? 0) || (p =? 1)); [by right|by left].
Qed.

Lemma reach_run n i w : (i < ncpu)%nat -> reachable w -> reachable (run n i w).
Proof.
  intros Hi Hw. induction n as [|n IH]; [done|]. apply (reach_step (run n i w)); [done|]. exists i. split; [done|constructor].
Qed.

(** Process 0 sleeps on [ticks]; process 1 takes [tickslock] and calls wakeup(&ticks). *)
Definition waits_ticks : world := run 12 0 (call 0 (S_lock ChTicks LTicks) (took 0 LTicks (run 7 0 boot))).
Definition wakes_ticks : world := run 190 0 (call 0 (W_loop ChTicks 0) (took 0 LTicks (run 2 0 waits_ticks))).

Lemma reach_act w w' : reachable w -> action 0 w w' -> reachable w'.
Proof. intros Hw Ha. apply (reach_step w); [done|]. exists 0%nat. split; [unfold ncpu, NCPU; lia|done]. Qed.

Lemma cpu0 : (0 < ncpu)%nat.
Proof. apply Nat.ltb_lt. reflexivity. Qed.

Lemma waits_reachable : reachable (run 2 0 waits_ticks).
Proof.
  apply (reach_run 2 0 _ cpu0), (reach_run 12 0 _ cpu0).
  assert (reachable (took 0 LTicks (run 7 0 boot))) as R.
  { apply (reach_act (run 7 0 boot)); [apply (reach_run 7 0 _ cpu0), reach_init, boot_initial|].
    apply (act_acquire 0 _ Code []); by vm_compute. }
  apply (reach_act _ _ R), (act_call 0 _ Code []); try done; by vm_compute.
Qed.

Lemma wakes_reachable : reachable wakes_ticks.
Proof.
  apply (reach_run 190 0 _ cpu0).
  assert (reachable (took 0 LTicks (run 2 0 waits_ticks))) as R.
  { apply (reach_act _ _ waits_reachable), (act_acquire 0 _ Code []); by vm_compute. }
  apply (reach_act _ _ R), (act_call 0 _ Code []); try (by vm_compute). split; [done|].
  replace (h_held _) with [LTicks] by (by vm_compute). by apply Forall_singleton.
Qed.

Lemma sched_never_panics_witness : live wakes_ticks 0 <> [Stop "sched locks"].
Proof. apply (sched_never_panics wakes_ticks 0 "sched locks" []). apply wakes_reachable. Defined.

Lemma process_on_one_cpu_witness : cur wakes_ticks 0 = Some 1 /\ myproc wakes_ticks 0 = Some 1.
Proof.
  split; [by vm_compute|]. apply (process_on_one_cpu wakes_ticks 0 0 1 wakes_reachable). by vm_compute.
Defined.

Lemma no_lost_wakeup_witness : waiting ChTicks LTicks (w_procs waits_ticks 0) /\ ~ waiting ChTicks LTicks (w_procs wakes_ticks 0).
Proof.
  split; [by vm_compute|]. apply (no_lost_wakeup wakes_ticks 0 ChTicks LTicks [Code] 0 wakes_reachable).
  - by vm_compute.
  - done.
  - by vm_compute.
  - unfold NPROC. lia.
Defined.

Lemma scheduler_finds_witness : exists n r, state (run 1 0 boot) r = RUNNABLE /\ cur (run n 0 (run 1 0 boot)) 0 = Some r.
Proof.
  destruct (scheduler_finds (run 1 0 boot) 0 0 1) as (n & r & _ & H1 & H2); try done.
  exists n, r. split; [exact H1|exact H2].
Defined.
