(* ===== verification/User.v ===== *)
(** * User programs (user/user.h, user/usys.S)

    A user program is a sequence of system calls: [prog] is the tree of what it does for
    each result the kernel gives.  Buffers are passed by value: [read] returns the bytes it
    stores and [write] takes the bytes it is given; strings are the bytes before the NUL.
    [exec_prog] runs a program against a kernel, a function from calls to results. *)
From Stdlib Require Export Ascii.
From S2P Require Import Prelude Kernel Fs.

(** ** Characters *)

Definition chr (c : ascii) : Z := Z.of_N (N_of_ascii c).
Fixpoint str (s : string) : list Z :=
  match s with
  | EmptyString => []
  | String c s' => chr c :: str s'
  end.
Definition newline : Z := 10.
Definition line (s : string) : list Z := str s ++ [newline].

(** A [char*] is the string that starts there; reading through it. *)
Definition deref (s : list Z) : Z := match s with [] => 0 | c :: _ => c end.

(** The C string in an array. *)
Fixpoint until_nul (l : list Z) : list Z :=
  match l with
  | c :: l' => if c =? 0 then [] else c :: until_nul l'
  | [] => []
  end.

(** ** System calls *)

Inductive sys : Type -> Type :=
| UFork : sys Z
| UWait : sys (Z * Z)                         (* pid, status *)
| UPipe : sys (Z * (Z * Z))                   (* result, p[0], p[1] *)
| URead (fd n : Z) : sys (Z * list Z)         (* result, the bytes read *)
| UWrite (fd : Z) (b : list Z) : sys Z
| UClose (fd : Z) : sys Z
| UKill (pid : Z) : sys Z
| UExec (path : list Z) (argv : list (list Z)) : sys Z
| UOpen (path : list Z) (mode : Z) : sys Z
| UMknod (path : list Z) (major minor : Z) : sys Z
| UUnlink (path : list Z) : sys Z
| UFstat (fd : Z) : sys (Z * stat)
| ULink (old new : list Z) : sys Z
| UMkdir (path : list Z) : sys Z
| UChdir (path : list Z) : sys Z
| UDup (fd : Z) : sys Z
| UGetpid : sys Z
| USbrk (n : Z) : sys Z
| USleep (n : Z) : sys Z
| UUptime : sys Z
| UTrace (mask : Z) : sys Z.

(** A program returns, makes a call, exits, runs out of the fuel of a loop, or does what C
    leaves undefined. *)
Inductive prog (A : Type) : Type :=
| Ret (a : A)
| Vis {X : Type} (e : sys X) (k : X -> prog A)
| Halt (status : Z)
| OutOfFuel
| Undefined.
Arguments Ret {A} a.
Arguments Vis {A X} e k.
Arguments Halt {A} status.
Arguments OutOfFuel {A}.
Arguments Undefined {A}.

Fixpoint pbind {A B} (p : prog A) (f : A -> prog B) : prog B :=
  match p with
  | Ret a => f a
  | Vis e k => Vis e (fun x => pbind (k x) f)
  | Halt st => Halt st
  | OutOfFuel => OutOfFuel
  | Undefined => Undefined
  end.

Definition call {X} (e : sys X) : prog X := Vis e Ret.

Declare Scope prog_scope.
Delimit Scope prog_scope with prog.
Notation "x <- p ;; q" := (pbind p (fun x => q)) (at level 100, p at next level, right associativity) : prog_scope.
Notation "p ;; q" := (pbind p (fun _ => q)) (at level 100, right associativity) : prog_scope.
Bind Scope prog_scope with prog.

(** ** Running *)

Inductive result A := RRet (a : A) | RHalt (status : Z) | RFuel | RUndefined.
Arguments RRet {A} a.
Arguments RHalt {A} status.
Arguments RFuel {A}.
Arguments RUndefined {A}.

Definition kernel (W : Type) : Type := forall X, sys X -> W -> X * W.

Fixpoint exec_prog {W A} (h : kernel W) (p : prog A) (w : W) : result A * W :=
  match p with
  | Ret a => (RRet a, w)
  | Vis e k => let '(x, w') := h _ e w in exec_prog h (k x) w'
  | Halt st => (RHalt st, w)
  | OutOfFuel => (RFuel, w)
  | Undefined => (RUndefined, w)
  end.

Lemma exec_bind {W A B} (h : kernel W) (p : prog A) (f : A -> prog B) w :
  exec_prog h (pbind p f) w =
  match exec_prog h p w with
  | (RRet a, w') => exec_prog h (f a) w'
  | (RHalt st, w') => (RHalt st, w')
  | (RFuel, w') => (RFuel, w')
  | (RUndefined, w') => (RUndefined, w')
  end.
Proof.
  revert w. induction p as [a|X e k IH|st| |]; intros w; cbn; try done.
  destruct (h X e w) as [x w']. apply IH.
Qed.

Lemma exec_call {W X} (h : kernel W) (e : sys X) w :
  exec_prog h (call e) w = (RRet (h X e w).1, (h X e w).2).
Proof. cbn. by destruct (h X e w). Qed.

(** ** What a filter relies on

    The kernel's promise to a program that reads [fd] and writes to [ofd]: [src] is the
    input that is left and [out] what has been written.  A read returns the next bytes, at
    least one unless the input is at its end; a write takes all its bytes. *)
Class Stream (W : Type) (h : kernel W) (fd ofd : Z) := {
  src : W -> list Z;
  out : W -> list Z;
  stream_read : forall n w, 0 < n -> exists b w',
    h _ (URead fd n) w = ((zlen b, b), w') /\ src w = b ++ src w' /\ zlen b <= n /\
    (b = [] -> src w = []) /\ out w' = out w;
  stream_write : forall b w, exists w',
    h _ (UWrite ofd b) w = (zlen b, w') /\ src w' = src w /\ out w' = out w ++ b;
}.

(** A kernel that keeps the promise: an input delivered at most [chunk] bytes at a time. *)
Record pipes := Pipes { pp_in : list Z; pp_out : list Z }.

Definition pipe_kernel (chunk : nat) (fd ofd : Z) : kernel pipes :=
  fun X e => match e in sys X return pipes -> X * pipes with
  | URead f n => fun w =>
      if f =? fd then
        let k := (Nat.min chunk (Z.to_nat n)) in
        ((zlen (take k (pp_in w)), take k (pp_in w)), Pipes (drop k (pp_in w)) (pp_out w))
      else ((-1, []), w)
  | UWrite f b => fun w => if f =? ofd then (zlen b, Pipes (pp_in w) (pp_out w ++ b)) else (-1, w)
  | UFork => fun w => (-1, w)
  | UWait => fun w => ((-1, 0), w)
  | UPipe => fun w => ((-1, (0, 0)), w)
  | UClose _ => fun w => (0, w)
  | UKill _ | UExec _ _ | UOpen _ _ | UMknod _ _ _ | UUnlink _ | ULink _ _ | UMkdir _ | UChdir _
  | UDup _ | UGetpid | USbrk _ | USleep _ | UUptime | UTrace _ => fun w => (-1, w)
  | UFstat _ => fun w => ((-1, Stat 0 0 0 0 0), w)
  end.

#[export] Instance pipe_stream chunk fd ofd : (0 < chunk)%nat -> Stream pipes (pipe_kernel chunk fd ofd) fd ofd.
Proof.
  intros Hc. refine {| src := pp_in; out := pp_out |}.
  - intros n w Hn. cbn. rewrite Z.eqb_refl. eexists _, _. split; [reflexivity|]. cbn. split; [by rewrite take_drop|].
    split; [unfold zlen; rewrite length_take; lia|]. split; [|done].
    intros E. destruct (pp_in w) as [|x l]; [done|]. destruct (chunk `min` Z.to_nat n)%nat eqn:Ek; [lia|done].
  - intros b w. cbn. rewrite Z.eqb_refl. by eexists.
Defined.

(** ** Programs that only write

    [emits fd p l a]: with every write taken in full, [p] writes exactly the bytes [l] to
    [fd], makes no other call and returns [a]. *)
Inductive emits {A} (fd : Z) : prog A -> list Z -> A -> Prop :=
| em_ret a : emits fd (Ret a) [] a
| em_write b k l a : emits fd (k (zlen b)) l a -> emits fd (Vis (UWrite fd b) k) (b ++ l) a.

Lemma emits_bind {A B} fd (p : prog A) (f : A -> prog B) l1 l2 a b :
  emits fd p l1 a -> emits fd (f a) l2 b -> emits fd (pbind p f) (l1 ++ l2) b.
Proof.
  intros H1 H2. induction H1 as [a|b' k l a H1 IH]; cbn; [done|]. rewrite <- app_assoc. constructor. by apply IH.
Qed.

(** On a kernel that keeps its promise to a filter, the bytes are appended to the output. *)
Lemma emits_exec {W A} (h : kernel W) fd ofd `{!Stream W h fd ofd} (p : prog A) l a w :
  emits ofd p l a -> exists w', exec_prog h p w = (RRet a, w') /\ src w' = src w /\ out w' = out w ++ l.
Proof.
  intros He. revert w. induction He as [a|b k l a He IH]; intros w; cbn.
  - exists w. by rewrite app_nil_r.
  - destruct (stream_write b w) as (w1 & -> & Hs & Ho). destruct (IH w1) as (w2 & -> & Hs2 & Ho2).
    exists w2. split; [done|]. split; [congruence|]. by rewrite Ho2, Ho, app_assoc.
Qed.
