(* ===== verification/Ulib.v ===== *)
(** * The user library (user/ulib.c)

    A [char*] that is only read is the string that starts there; the routines that write
    through a pointer work on flat memory.  [char] is unsigned on RISC-V.  The loops that
    write have fuel: strcpy() copies a string of the length given, and gets() reads at
    most [max] bytes. *)
From S2P Require Import Prelude Memory Kernel Fs Sys User.

Fixpoint strcpy (fuel : nat) (m : mem) (s t : Z) : option mem :=
  match fuel with
  | O => None
  | S f =>
      let b := rd m t in
      let m1 := wr m s b in
      if truth b then strcpy f m1 (s + 1) (t + 1) else Some m1
  end.

Fixpoint strcmp (p q : list Z) : Z :=
  match p with
  | c :: p' => if truth c && (c =? deref q) then strcmp p' (tail q) else c - deref q
  | [] => 0 - deref q
  end.

Fixpoint strlen (s : list Z) : Z :=
  match s with
  | c :: s' => if truth c then u32 (1 + strlen s') else 0
  | [] => 0
  end.

Fixpoint memset_loop (m : mem) (cdst c i : Z) (k : nat) : mem :=
  match k with
  | O => m
  | S k' => memset_loop (wr m (cdst + i) c) cdst c (i + 1) k'
  end.

Definition memset (m : mem) (dst c n : Z) : mem := memset_loop m dst c 0 (Z.to_nat (u32 n)).

Fixpoint strchr (s : list Z) (c : Z) : option (list Z) :=
  match s with
  | x :: s' => if truth x then (if x =? c then Some s else strchr s' c) else None
  | [] => None
  end.

(** The bytes gets() stores before the NUL. *)
Fixpoint gets_loop (k : nat) (i max : Z) : prog (list Z) :=
  if i + 1 <? max then
    match k with
    | O => OutOfFuel
    | S k' =>
        (r <- call (URead 0 1) ;;
         let '(cc, b) := (r : Z * list Z) in
         if cc <? 1 then Ret [] else
         let c := deref b in
         if (c =? newline) || (c =? 13) then Ret [c] else
         l <- gets_loop k' (i + 1) max ;;
         Ret (c :: l))%prog
    end
  else Ret [].

Definition gets (max : Z) : prog (list Z) := gets_loop (Z.to_nat max) 0 max.

Definition ustat (n : list Z) : prog (Z * option stat) :=
  (fd <- call (UOpen n O_RDONLY) ;;
   if fd <? 0 then Ret (-1, None) else
   r <- call (UFstat fd) ;;
   let '(r, st) := (r : Z * stat) in
   call (UClose fd) ;;
   Ret (r, Some st))%prog.

(** [n = n*10 + *s++ - '0'] on [int]. *)
Fixpoint atoi_loop (n : Z) (s : list Z) : Z :=
  match s with
  | c :: s' => if (48 <=? c) && (c <=? 57) then atoi_loop (s32 (n * 10 + c - 48)) s' else n
  | [] => n
  end.

Definition atoi (s : list Z) : Z := atoi_loop 0 s.

Fixpoint memmove_up (m : mem) (d s : Z) (n : nat) : mem :=
  match n with
  | O => m
  | S n' => memmove_up (wr m d (rd m s)) (d + 1) (s + 1) n'
  end.

Fixpoint memmove_down (m : mem) (d s : Z) (n : nat) : mem :=
  match n with
  | O => m
  | S n' => memmove_down (wr m (d - 1) (rd m (s - 1))) (d - 1) (s - 1) n'
  end.

(** [n] is an [int]: nothing moves when it is not positive. *)
Definition memmove (m : mem) (vdst vsrc n : Z) : mem :=
  if vdst <? vsrc then memmove_up m vdst vsrc (Z.to_nat n)
  else memmove_down m (vdst + n) (vsrc + n) (Z.to_nat n).

Fixpoint memcmp_loop (m : mem) (p1 p2 : Z) (n : nat) : Z :=
  match n with
  | O => 0
  | S n' =>
      if negb (rd m p1 =? rd m p2) then rd m p1 - rd m p2
      else memcmp_loop m (p1 + 1) (p2 + 1) n'
  end.

Definition memcmp (m : mem) (s1 s2 n : Z) : Z := memcmp_loop m s1 s2 (Z.to_nat (u32 n)).

Definition memcpy (m : mem) (dst src n : Z) : mem := memmove m dst src (s32 n).

(** ** Strings *)

(** The bytes of a C string. *)
Definition cstring (s : list Z) : Prop := Forall (fun c => 0 < c < 256) s.

Lemma cstring_check s : forallb (fun c => (0 <? c) && (c <? 256)) s = true -> cstring s.
Proof.
  intros H. apply Forall_forall. intros c Hc. apply list_elem_of_In in Hc. rewrite forallb_forall in H. specialize (H c Hc). zbool. lia.
Qed.

Lemma cstring_bytes s : cstring s -> Forall is_byte s.
Proof. intros H. eapply Forall_impl; [exact H|]. unfold is_byte. cbn. lia. Qed.

Lemma strlen_len s : cstring s -> zlen s < 4294967296 -> strlen s = zlen s.
Proof.
  induction s as [|c s IH]; [done|]. intros [Hc Hs]%Forall_cons. unfold zlen in *. cbn [strlen length]. intros Hl.
  rewrite IH by first [done|lia]. unfold truth. zcase (c =? 0); [lia|]. cbn. rewrite u32_small; lia.
Qed.

Lemma strcmp_zero s t : cstring s -> cstring t -> (strcmp s t = 0 <-> s = t).
Proof.
  revert t. induction s as [|c s IH]; intros t Hs Ht.
  - destruct t as [|d t]; [done|]. apply Forall_cons in Ht as [Hd _]. cbn. split; [lia|done].
  - apply Forall_cons in Hs as [Hc Hs]. cbn [strcmp]. unfold truth. zcase (c =? 0); [lia|]. cbn [negb andb].
    destruct t as [|d t]; cbn [deref tail].
    + zcase (c =? 0) as E0; [lia|]. split; [lia|done].
    + apply Forall_cons in Ht as [Hd Ht]. zcase (c =? d) as E0; [subst; rewrite IH by done; naive_solver|]. split; [lia|congruence].
Qed.

(** strchr() returns the string from the first occurrence on. *)
Lemma strchr_some s c t : cstring s -> strchr s c = Some t ->
  exists pre, s = pre ++ t /\ (c ∉ pre) /\ t <> [] /\ deref t = c.
Proof.
  induction s as [|x s IH]; intros Hs H; [done|]. apply Forall_cons in Hs as [Hx Hs]. cbn [strchr] in H. unfold truth in H.
  zcase (x =? 0) as E0; [lia|]. cbn in H. zcase (x =? c) as E1.
  - injection H as <-. exists []. split; [done|]. split; [apply not_elem_of_nil|]. done.
  - destruct (IH Hs H) as (pre & -> & Hn & Ht). exists (x :: pre). split; [done|]. split; [|done].
    rewrite not_elem_of_cons. done.
Qed.

Lemma strchr_none s c : cstring s -> (strchr s c = None <-> c ∉ s).
Proof.
  induction s as [|x s IH]; intros Hs; [split; [intros _; apply not_elem_of_nil|done]|]. apply Forall_cons in Hs as [Hx Hs]. cbn [strchr]. unfold truth.
  zcase (x =? 0) as E0; [lia|]. cbn. rewrite not_elem_of_cons. zcase (x =? c) as E1; [naive_solver|]. rewrite IH by done. naive_solver.
Qed.

(** ** Numbers *)

Definition is_digit (c : Z) : Prop := 48 <= c <= 57.

(** The value of a string of digits. *)
Definition dec (s : list Z) : Z := fold_left (fun n c => n * 10 + (c - 48)) s 0.

Lemma atoi_loop_digits s n r : Forall is_digit s -> 0 <= n ->
  fold_left (fun n c => n * 10 + (c - 48)) s n < 2147483648 -> (deref r < 48 \/ 57 < deref r) ->
  atoi_loop n (s ++ r) = fold_left (fun n c => n * 10 + (c - 48)) s n.
Proof.
  revert n. induction s as [|c s IH]; intros n Hs Hn Hlt Hr; cbn [app fold_left] in *.
  - destruct r as [|d r]; [done|]. cbn in *. zcase (48 <=? d) as E1; [zcase (d <=? 57) as E2; [lia|done]|done].
  - apply Forall_cons in Hs as [Hc Hs]. unfold is_digit in Hc. cbn [atoi_loop].
    zcase (48 <=? c) as E1; [|lia]. zcase (c <=? 57) as E2; [|lia]. cbn [andb].
    assert (forall l m, Forall is_digit l -> 0 <= m -> m <= fold_left (fun n c => n * 10 + (c - 48)) l m) as Hmono.
    { induction l as [|d l IHl]; intros m Hl Hm; cbn; [lia|]. apply Forall_cons in Hl as [Hd Hl]. unfold is_digit in Hd.
      specialize (IHl (m * 10 + (d - 48)) Hl). lia. }
    pose proof (Hmono s (n * 10 + (c - 48)) Hs ltac:(lia)).
    rewrite s32_small by lia. replace (n * 10 + c - 48) with (n * 10 + (c - 48)) by lia. apply IH; [done|lia|done|done].
Qed.

(** atoi() of digits that fit an [int] is their value. *)
Lemma atoi_dec s r : Forall is_digit s -> dec s < 2147483648 -> (deref r < 48 \/ 57 < deref r) -> atoi (s ++ r) = dec s.
Proof. intros. by apply atoi_loop_digits. Qed.

(** ** Memory *)

Lemma rd_umemmove_up n : forall m d s x, d <= s ->
  rd (memmove_up m d s n) x = if (d <=? x) && (x <? d + Z.of_nat n) then u8 (rd m (s + (x - d))) else rd m x.
Proof.
  induction n as [|n IH]; intros m d s x H; cbn [memmove_up].
  - zcase (d <=? x) as Ea; [zcase (x <? d + Z.of_nat 0) as Eb; [lia|done]|done].
  - rewrite IH by lia. rewrite !rd_wr.
    zcase (d + 1 <=? x) as E1; zcase (x <? d + 1 + Z.of_nat n) as E2; zcase (d <=? x) as E3; zcase (x <? d + Z.of_nat (S n)) as E4; cbn [andb]; try lia.
    + zcase (d =? s + 1 + (x - (d + 1))) as E5; [lia|]. f_equal. f_equal. lia.
    + zcase (d =? x) as E5; [lia|done].
    + zcase (d =? x) as E5; [|lia]. f_equal. f_equal. lia.
    + zcase (d =? x) as E5; [lia|done].
Qed.

Lemma rd_umemmove_down n : forall m d s x, s <= d ->
  rd (memmove_down m d s n) x = if (d - Z.of_nat n <=? x) && (x <? d) then u8 (rd m (s - d + x)) else rd m x.
Proof.
  induction n as [|n IH]; intros m d s x H; cbn [memmove_down].
  - zcase (d - Z.of_nat 0 <=? x) as Ea; [zcase (x <? d) as Eb; [lia|done]|done].
  - rewrite IH by lia. rewrite !rd_wr.
    zcase (d - 1 - Z.of_nat n <=? x) as E1; zcase (x <? d - 1) as E2; zcase (d - Z.of_nat (S n) <=? x) as E3; zcase (x <? d) as E4; cbn [andb]; try lia.
    + zcase (d - 1 =? s - 1 - (d - 1) + x) as E5; [lia|]. f_equal. f_equal. lia.
    + zcase (d - 1 =? x) as E5; [|lia]. f_equal. f_equal. lia.
    + zcase (d - 1 =? x) as E5; [lia|done].
    + zcase (d - 1 =? x) as E5; [lia|done].
Qed.

(** memmove() copies the block as it was, however the two overlap. *)
Lemma rd_umemmove m d s n x : mem_ok m ->
  rd (memmove m d s n) x = if (d <=? x) && (x <? d + n) then rd m (s + (x - d)) else rd m x.
Proof.
  intros Hm. unfold memmove. assert (forall y, u8 (rd m y) = rd m y) as Hu by (intros y; apply u8_small, Hm).
  destruct (decide (n <= 0)) as [Hn|Hn].
  - replace (Z.to_nat n) with 0%nat by lia. zcase (d <=? x) as E1; zcase (x <? d + n) as E2; cbn [andb]; try lia; by destruct (d <? s).
  - zcase (d <? s) as E.
    + rewrite rd_umemmove_up, Hu by lia. by rewrite Z2Nat.id by lia.
    + rewrite rd_umemmove_down, Hu by lia. rewrite Z2Nat.id by lia. replace (d + n - n) with d by lia.
      by replace (s + n - (d + n) + x) with (s + (x - d)) by lia.
Qed.

(** strcpy() copies the string and its NUL to a place that does not overlap it. *)
Lemma strcpy_copies s : forall fuel m d t, cstring s -> (length s < fuel)%nat ->
  (forall i, 0 <= i < zlen s -> rd m (t + i) = znth 0 s i) -> rd m (t + zlen s) = 0 -> (d + zlen s < t \/ t + zlen s < d) ->
  exists m', strcpy fuel m d t = Some m' /\
    (forall i, 0 <= i < zlen s -> rd m' (d + i) = znth 0 s i) /\ rd m' (d + zlen s) = 0 /\
    (forall x, x < d \/ d + zlen s < x -> rd m' x = rd m x).
Proof.
  induction s as [|c s IH]; intros fuel m d t Hs Hf Hr H0 Hov; (destruct fuel as [|f]; [cbn in Hf; lia|]); cbn [strcpy].
  - change (zlen (@nil Z)) with 0 in *. rewrite Z.add_0_r in *. rewrite H0. cbn. eexists. split; [reflexivity|].
    split; [lia|]. rewrite rd_wr, Z.eqb_refl. split; [done|]. intros x Hx. rewrite rd_wr. zcase (d =? x); [lia|done].
  - apply Forall_cons in Hs as [Hc Hs]. assert (zlen (c :: s) = zlen s + 1) as El by (unfold zlen; cbn [length]; lia). rewrite El in *.
    assert (rd m t = c) as Et. { rewrite <- (Z.add_0_r t), Hr; [apply znth_cons_0|unfold zlen in *; lia]. }
    rewrite Et. unfold truth. zcase (c =? 0); [lia|]. cbn [negb].
    destruct (IH f (wr m d c) (d + 1) (t + 1)) as (m' & R & H1 & H2 & H3).
    + done.
    + cbn in Hf. lia.
    + intros i Hi. rewrite rd_wr. zcase (d =? t + 1 + i); [lia|]. replace (t + 1 + i) with (t + (i + 1)) by lia.
      rewrite Hr by lia. rewrite znth_cons_S by lia. f_equal. lia.
    + rewrite rd_wr. unfold zlen in *. zcase (d =? t + 1 + Z.of_nat (length s)); [lia|]. replace (t + 1 + Z.of_nat (length s)) with (t + (Z.of_nat (length s) + 1)) by lia. done.
    + lia.
    + exists m'. split; [done|]. split.
      * intros i Hi. destruct (decide (i = 0)) as [->|Hi0].
        { rewrite Z.add_0_r, znth_cons_0, H3 by lia. rewrite rd_wr, Z.eqb_refl. apply u8_small. lia. }
        rewrite znth_cons_S by lia. replace (d + i) with (d + 1 + (i - 1)) by lia. apply H1. lia.
      * split; [by replace (d + (zlen s + 1)) with (d + 1 + zlen s) by lia|].
        intros x Hx. pose proof (Zle_0_nat (length s)) as Hz. fold (zlen s) in Hz. rewrite H3 by lia. rewrite rd_wr. zcase (d =? x); [lia|done].
Qed.
