(* ===== verification/Uprintf.v ===== *)
(** * Formatted output (user/printf.c)

    printint(), printptr() and vprintf(), as programs that write one byte at a time, and
    what they print: [numeral] and [format] say it without the loops.  printint() has a
    buffer of 16 bytes; writing past it is [Undefined]. *)
From S2P Require Import Prelude Kernel Fs User Ulib.

Definition digits : list Z := str "0123456789ABCDEF".

Definition putc (fd c : Z) : prog unit := (call (UWrite fd [u8 c]) ;; Ret tt)%prog.

(** [do buf[i++] = digits[x % base]; while((x /= base) != 0)], with [k] bytes of the
    buffer left and the byte stored last in front. *)
Fixpoint printint_loop (k : nat) (x base : Z) (buf : list Z) : option (list Z) :=
  match k with
  | O => None
  | S k' =>
      let buf := znth 0 digits (x mod u32 base) :: buf in
      let x := x / u32 base in
      if truth x then printint_loop k' x base buf else Some buf
  end.

(** [while(--i >= 0) putc(fd, buf[i])] *)
Fixpoint putbuf (fd : Z) (buf : list Z) : prog unit :=
  match buf with
  | [] => Ret tt
  | c :: buf' => (putc fd c ;; putbuf fd buf')%prog
  end.

Definition printint (fd xx base sgn : Z) : prog unit :=
  let neg := truth sgn && (xx <? 0) in
  let x := if neg then u32 (- xx) else u32 xx in
  match printint_loop 16 x base [] with
  | None => Undefined
  | Some buf =>
      if neg then
        if zlen buf <? 16 then putbuf fd (chr "-" :: buf) else Undefined
      else putbuf fd buf
  end.

Fixpoint printptr_loop (k : nat) (fd x : Z) : prog unit :=
  match k with
  | O => Ret tt
  | S k' => (putc fd (znth 0 digits (Z.shiftr x 60)) ;; printptr_loop k' fd (u64 (Z.shiftl x 4)))%prog
  end.

Definition printptr (fd x : Z) : prog unit :=
  (putc fd (chr "0") ;; putc fd (chr "x") ;; printptr_loop 16 fd x)%prog.

(** The variable arguments: an integer, or a string (null is None). *)
Inductive varg := VInt (z : Z) | VStr (s : option (list Z)).

Definition null_string : list Z := str "(null)".

(** [state] is 0, or '%' after a percent sign. *)
Fixpoint vprintf_loop (fd state : Z) (fmt : list Z) (ap : list varg) : prog unit :=
  match fmt with
  | [] => Ret tt
  | f :: fmt' =>
      let c := Z.land f 255 in
      (if state =? 0 then
         if c =? chr "%" then vprintf_loop fd (chr "%") fmt' ap
         else putc fd c ;; vprintf_loop fd state fmt' ap
       else if state =? chr "%" then
         if c =? chr "d" then
           match ap with VInt z :: ap => printint fd (s32 z) 10 1 ;; vprintf_loop fd 0 fmt' ap | _ => Undefined end
         else if c =? chr "l" then
           match ap with VInt z :: ap => printint fd (s32 (u64 z)) 10 0 ;; vprintf_loop fd 0 fmt' ap | _ => Undefined end
         else if c =? chr "x" then
           match ap with VInt z :: ap => printint fd (s32 z) 16 0 ;; vprintf_loop fd 0 fmt' ap | _ => Undefined end
         else if c =? chr "p" then
           match ap with VInt z :: ap => printptr fd (u64 z) ;; vprintf_loop fd 0 fmt' ap | _ => Undefined end
         else if c =? chr "s" then
           match ap with
           | VStr s :: ap => putbuf fd (default null_string s) ;; vprintf_loop fd 0 fmt' ap
           | _ => Undefined
           end
         else if c =? chr "c" then
           match ap with VInt z :: ap => putc fd (u32 z) ;; vprintf_loop fd 0 fmt' ap | _ => Undefined end
         else if c =? chr "%" then putc fd c ;; vprintf_loop fd 0 fmt' ap
         else putc fd (chr "%") ;; putc fd c ;; vprintf_loop fd 0 fmt' ap
       else vprintf_loop fd state fmt' ap)%prog
  end.

Definition vprintf (fd : Z) (fmt : list Z) (ap : list varg) : prog unit := vprintf_loop fd 0 fmt ap.
Definition fprintf (fd : Z) (fmt : list Z) (ap : list varg) : prog unit := vprintf fd fmt ap.
Definition printf (fmt : list Z) (ap : list varg) : prog unit := vprintf 1 fmt ap.

(** ** What is printed *)

(** The [k] lowest digits of [x], highest first. *)
Definition digs (base : Z) (k : nat) (x : Z) : list Z :=
  map (fun j => x / base ^ Z.of_nat j mod base) (rev (seq 0 k)).

(** Without leading zeros, but for the last digit. *)
Fixpoint trim (l : list Z) : list Z :=
  match l with
  | d :: (_ :: _) as r => if d =? 0 then trim r else l
  | _ => l
  end.

Definition digit (d : Z) : Z := znth 0 digits d.
#[global] Arguments digs : simpl never.
Definition numeral (base x : Z) : list Z := map digit (trim (digs base 16 x)).
Definition signed (x : Z) : list Z := if x <? 0 then chr "-" :: numeral 10 (- x) else numeral 10 x.
Definition pointer (x : Z) : list Z := str "0x" ++ map digit (digs 16 16 x).

(** A directive and its argument. *)
Definition directive (d : Z) (ap : list varg) : option (list Z * list varg) :=
  if bool_decide (d ∈ str "dlxpc") then
    match ap with
    | VInt z :: ap' =>
        Some ((if d =? chr "d" then signed (s32 z)
               else if d =? chr "l" then numeral 10 (u32 z)
               else if d =? chr "x" then numeral 16 (u32 z)
               else if d =? chr "p" then pointer (u64 z)
               else [u8 z]), ap')
    | _ => None
    end
  else if d =? chr "s" then
    match ap with VStr s :: ap' => Some (default null_string s, ap') | _ => None end
  else if d =? chr "%" then Some (str "%", ap)
  else Some ([chr "%"; d], ap).

(** A format: text and directives; a percent sign at the end prints nothing. *)
Fixpoint format (fmt : list Z) (ap : list varg) : option (list Z) :=
  match fmt with
  | [] => Some []
  | c :: r =>
      if c =? chr "%" then
        match r with
        | [] => Some []
        | d :: r' => match directive d ap with
                     | Some (l, ap') => l' ← format r' ap'; Some (l ++ l')
                     | None => None
                     end
        end
      else l ← format r ap; Some (c :: l)
  end.

(** ** Numbers *)

Lemma digs_S base k x : 0 < base -> digs base (S k) x = digs base k (x / base) ++ [x mod base].
Proof.
  intros Hb. unfold digs. cbn [seq rev]. rewrite map_app. cbn [map]. rewrite Z.div_1_r. f_equal.
  rewrite <- seq_shift, <- map_rev, map_map. apply map_ext. intros j.
  rewrite Nat2Z.inj_succ, Z.pow_succ_r by lia. by rewrite Z.div_div by lia.
Qed.

Lemma div_lt_pow base k x : 2 <= base -> 0 <= x < base ^ Z.of_nat (S k) -> 0 <= x / base < base ^ Z.of_nat k.
Proof.
  intros Hb Hx. rewrite Nat2Z.inj_succ, Z.pow_succ_r in Hx by lia. split; [apply Z.div_pos; lia|apply Z.div_lt_upper_bound; lia].
Qed.

Lemma forallb_digs base k x : 2 <= base -> 0 <= x < base ^ Z.of_nat k -> forallb (Z.eqb 0) (digs base k x) = (x =? 0).
Proof.
  intros Hb. revert x. induction k as [|k IH]; intros x Hx.
  - cbn in Hx. assert (x = 0) as -> by lia. done.
  - rewrite digs_S, forallb_app, IH by (lia || by apply div_lt_pow). cbn [forallb]. rewrite andb_true_r.
    pose proof (Z.div_mod x base ltac:(lia)). pose proof (Z.mod_pos_bound x base ltac:(lia)).
    zcase (x / base =? 0) as E1; zcase (0 =? x mod base) as E2; zcase (x =? 0) as E3; cbn; try done; exfalso.
    + nia.
    + rewrite E3, Z.mod_0_l in E2 by lia. lia.
    + rewrite E3, Z.div_0_l in E1 by lia. lia.
    + rewrite E3, Z.div_0_l in E1 by lia. lia.
Qed.

Lemma trim_snoc l d : trim (l ++ [d]) = if forallb (Z.eqb 0) l then [d] else trim l ++ [d].
Proof.
  induction l as [|x l IH]; [done|]. cbn [forallb].
  destruct l as [|y l].
  - cbn [app trim forallb]. rewrite andb_true_r, (Z.eqb_sym 0 x). by destruct (x =? 0).
  - change (trim ((x :: y :: l) ++ [d])) with (if x =? 0 then trim ((y :: l) ++ [d]) else (x :: y :: l) ++ [d]).
    change (trim (x :: y :: l)) with (if x =? 0 then trim (y :: l) else x :: y :: l).
    rewrite (Z.eqb_sym 0 x). destruct (x =? 0); [|done]. cbn [andb]. apply IH.
Qed.

(** The loop of printint() produces the numeral. *)
Lemma printint_loop_run base k x buf : 2 <= base <= 16 -> 0 <= x < base ^ Z.of_nat k -> (0 < k)%nat ->
  printint_loop k x base buf = Some (map digit (trim (digs base k x)) ++ buf).
Proof.
  intros Hb. revert x buf. induction k as [|k IH]; intros x buf Hx Hk; [lia|].
  cbn [printint_loop]. rewrite (u32_small base) by lia. pose proof (div_lt_pow base k x ltac:(lia) Hx) as Hd.
  rewrite digs_S, trim_snoc, forallb_digs by (lia || done). unfold truth.
  zcase (x / base =? 0) as E; cbn [negb]; [done|].
  rewrite IH; [|done|]. 2: { destruct k; [cbn in Hd; lia|lia]. }
  rewrite map_app. cbn. by rewrite <- app_assoc.
Qed.

Lemma printint_loop_len k x base buf b : printint_loop k x base buf = Some b -> zlen b <= zlen buf + Z.of_nat k.
Proof.
  revert x buf. induction k as [|k IH]; intros x buf H; cbn [printint_loop] in H; [done|].
  destruct (truth _); [apply IH in H|injection H as <-]; unfold zlen in *; cbn [length] in *; lia.
Qed.

Lemma printint_loop_more k j x base buf b : printint_loop k x base buf = Some b -> printint_loop (k + j) x base buf = Some b.
Proof.
  revert x buf. induction k as [|k IH]; intros x buf H; cbn [printint_loop Nat.add] in *; [done|].
  destruct (truth _); [by apply IH|done].
Qed.

(** The digits of an [unsigned int] fit the buffer with a sign. *)
Lemma numeral_len base x : 10 <= base <= 16 -> 0 <= x < 4294967296 ->
  printint_loop 16 x base [] = Some (numeral base x) /\ zlen (numeral base x) <= 10.
Proof.
  intros Hb Hx. assert (x < base ^ Z.of_nat 10) as H10.
  { apply Z.lt_le_trans with (10 ^ 10); [lia|]. apply Z.pow_le_mono_l. lia. }
  assert (x < base ^ Z.of_nat 16) as H16.
  { apply Z.lt_le_trans with (base ^ Z.of_nat 10); [lia|]. apply Z.pow_le_mono_r; lia. }
  pose proof (printint_loop_run base 16 x [] ltac:(lia) ltac:(lia) ltac:(lia)) as R. rewrite app_nil_r in R.
  split; [done|].
  pose proof (printint_loop_run base 10 x [] ltac:(lia) ltac:(lia) ltac:(lia)) as R10. rewrite app_nil_r in R10.
  pose proof (printint_loop_more 10 6 _ _ _ _ R10) as R16. change (10 + 6)%nat with 16%nat in R16.
  apply printint_loop_len in R10. unfold numeral.
  assert (map digit (trim (digs base 16 x)) = map digit (trim (digs base 10 x))) as -> by congruence. done.
Qed.

(** ** Output *)

Lemma emits_putc_u8 fd c : emits fd (putc fd c) [u8 c] tt.
Proof. apply (em_write fd [u8 c] _ []), em_ret. Qed.

Lemma emits_putc fd c : is_byte c -> emits fd (putc fd c) [c] tt.
Proof. intros H. pose proof (emits_putc_u8 fd c) as R. by rewrite u8_small in R. Qed.

Lemma emits_putbuf fd l : Forall is_byte l -> emits fd (putbuf fd l) l tt.
Proof.
  induction l as [|c l IH]; intros Hl; [constructor|]. apply Forall_cons in Hl as [Hc Hl].
  apply (emits_bind fd _ _ [c] l tt tt); [by apply emits_putc|by apply IH].
Qed.

Lemma digit_byte d : is_byte (digit d).
Proof.
  unfold digit, znth. destruct (d <? 0); [unfold is_byte; lia|]. generalize (Z.to_nat d). intros n.
  do 16 (destruct n as [|n]; [vm_compute; split; congruence|]). destruct n; vm_compute; split; congruence.
Qed.

Lemma numeral_bytes base x : Forall is_byte (numeral base x).
Proof. unfold numeral. apply Forall_forall. intros c (d & -> & _)%list_elem_of_fmap. apply digit_byte. Qed.

Lemma emits_printint fd xx base sgn : base = 10 \/ base = 16 -> -2147483648 <= xx < 2147483648 ->
  emits fd (printint fd xx base sgn)
    (if truth sgn && (xx <? 0) then chr "-" :: numeral base (- xx) else numeral base (u32 xx)) tt.
Proof.
  intros Hb Hx. unfold printint. destruct (truth sgn && (xx <? 0)) eqn:En.
  - zbool. rewrite u32_small by lia. destruct (numeral_len base (- xx)) as [-> Hl]; [lia|lia|].
    zcase (zlen (numeral base (- xx)) <? 16) as El; [|lia]. apply emits_putbuf. constructor; [vm_compute; split; congruence|apply numeral_bytes].
  - destruct (numeral_len base (u32 xx)) as [-> Hl]; [lia|apply u32_range|]. apply emits_putbuf, numeral_bytes.
Qed.

(** The top hexadecimal digit of what is left of [x]. *)
Lemma shift_top k x : 0 <= x < 16 ^ Z.of_nat (S k) -> (k < 16)%nat ->
  let y := x * 16 ^ Z.of_nat (15 - k) in
  Z.shiftr y 60 = x / 16 ^ Z.of_nat k mod 16 /\ u64 (Z.shiftl y 4) = (x mod 16 ^ Z.of_nat k) * 16 ^ Z.of_nat (16 - k).
Proof.
  intros Hx Hk y. assert (16 ^ Z.of_nat k * 16 ^ Z.of_nat (15 - k) = 2 ^ 60) as E.
  { rewrite <- Z.pow_add_r by lia. replace (Z.of_nat k + Z.of_nat (15 - k)) with 15 by lia. done. }
  assert (0 < 16 ^ Z.of_nat k) as Hp by lia. assert (0 < 16 ^ Z.of_nat (15 - k)) as Hq by lia.
  rewrite Nat2Z.inj_succ, Z.pow_succ_r in Hx by lia. split.
  - rewrite Z.shiftr_div_pow2, <- E by lia. unfold y. rewrite Z.div_mul_cancel_r by lia.
    symmetry. apply Z.mod_small. split; [apply Z.div_pos; lia|apply Z.div_lt_upper_bound; lia].
  - rewrite Z.shiftl_mul_pow2 by lia. unfold u64, y.
    replace 18446744073709551616 with (16 ^ Z.of_nat k * 16 ^ Z.of_nat (16 - k)).
    2: { rewrite <- Z.pow_add_r by lia. replace (Z.of_nat k + Z.of_nat (16 - k)) with 16 by lia. done. }
    replace (16 - k)%nat with (S (15 - k)) by lia. rewrite Nat2Z.inj_succ, Z.pow_succ_r by lia.
    replace (x * 16 ^ Z.of_nat (15 - k) * 2 ^ 4) with (x * (16 * 16 ^ Z.of_nat (15 - k))) by (change (2 ^ 4) with 16; lia).
    rewrite Z.mul_mod_distr_r by lia. done.
Qed.

Lemma digs_top k x : 0 <= x -> digs 16 (S k) x = x / 16 ^ Z.of_nat k mod 16 :: digs 16 k (x mod 16 ^ Z.of_nat k).
Proof.
  intros Hx. unfold digs. rewrite seq_S, rev_app_distr. cbn [rev app map Nat.add]. f_equal.
  apply map_ext_in. intros j Hj. apply in_rev in Hj. apply in_seq in Hj.
  pose proof (Z.div_mod x (16 ^ Z.of_nat k) ltac:(lia)) as E. set (r := x mod 16 ^ Z.of_nat k) in *. set (q := x / 16 ^ Z.of_nat k) in *.
  replace (16 ^ Z.of_nat k) with (16 ^ Z.of_nat j * (16 * 16 ^ Z.of_nat (k - 1 - j))) in E.
  2: { rewrite <- Z.pow_succ_r, <- Z.pow_add_r by lia. f_equal. lia. }
  rewrite E. replace (_ * q + r) with (r + (16 ^ Z.of_nat (k - 1 - j) * q * 16) * 16 ^ Z.of_nat j) by lia.
  rewrite Z.div_add by lia. by rewrite Z.mod_add by lia.
Qed.

Lemma printptr_loop_run k fd x : 0 <= x < 16 ^ Z.of_nat k -> (k <= 16)%nat ->
  emits fd (printptr_loop k fd (x * 16 ^ Z.of_nat (16 - k))) (map digit (digs 16 k x)) tt.
Proof.
  revert x. induction k as [|k IH]; intros x Hx Hk; [constructor|]. cbn [printptr_loop].
  destruct (shift_top k x Hx) as [E1 E2]; [lia|]. replace (16 - S k)%nat with (15 - k)%nat by lia. rewrite E1, E2.
  rewrite digs_top by lia. cbn [map]. apply (emits_bind fd _ _ [digit _] _ tt tt); [apply emits_putc, digit_byte|].
  apply IH; [|lia]. apply Z.mod_pos_bound. lia.
Qed.

Lemma emits_printptr fd x : 0 <= x < 18446744073709551616 -> emits fd (printptr fd x) (pointer x) tt.
Proof.
  intros Hx. unfold printptr, pointer. change (str "0x") with ([chr "0"] ++ [chr "x"]). rewrite <- app_assoc.
  apply (emits_bind fd _ _ [chr "0"] _ tt tt); [by apply emits_putc|].
  apply (emits_bind fd _ _ [chr "x"] _ tt tt); [by apply emits_putc|].
  pose proof (printptr_loop_run 16 fd x) as R. change (16 - 16)%nat with 0%nat in R. rewrite Z.pow_0_r, Z.mul_1_r in R.
  apply R; [|lia]. change (16 ^ Z.of_nat 16) with 18446744073709551616. done.
Qed.

(** ** Formats *)

(** Arguments whose strings are made of bytes. *)
Definition arg_ok (a : varg) : Prop := match a with VStr (Some s) => Forall is_byte s | _ => True end.

(** One directive, and what follows it. *)
Lemma emits_directive fd d fmt ap l ap' l' : is_byte d -> Forall arg_ok ap ->
  directive d ap = Some (l, ap') -> emits fd (vprintf_loop fd 0 fmt ap') l' tt ->
  Forall arg_ok ap' /\ emits fd (vprintf_loop fd (chr "%") (d :: fmt) ap) (l ++ l') tt.
Proof.
  intros Hd Ha H He. unfold directive in H. cbn [vprintf_loop].
  replace (Z.land d 255) with d by (change 255 with (Z.ones 8); rewrite Z.land_ones by lia; symmetry; apply Z.mod_small; unfold is_byte in Hd; lia).
  change (chr "%" =? 0) with false. rewrite Z.eqb_refl. cbv iota.
  assert (forall z ap0, ap = VInt z :: ap0 -> Forall arg_ok ap0) as Hint by (intros z ap0 ->; by apply Forall_cons in Ha as [_ ?]).
  destruct (bool_decide (d ∈ str "dlxpc")) eqn:Em.
  - apply bool_decide_eq_true_1 in Em. destruct ap as [|[z|s] ap0]; try done. injection H as <- <-. split; [by apply (Hint z)|].
    pose proof (s32_range z) as Hz. pose proof (u64_range z) as Hz'.
    repeat (apply elem_of_cons in Em as [->|Em]); [..|by apply elem_of_nil in Em]; cbv - [signed numeral pointer u32 u64 s32 u8 printint printptr putc vprintf_loop pbind app].
    + apply (emits_bind fd _ _ _ l' tt tt); [|done]. pose proof (emits_printint fd (s32 z) 10 1 ltac:(by left) Hz) as R.
      unfold signed. cbn [truth Z.eqb negb andb] in R. destruct (s32 z <? 0) eqn:En; [done|]. zbool. by rewrite u32_small in R by lia.
    + apply (emits_bind fd _ _ _ l' tt tt); [|done]. pose proof (emits_printint fd (s32 (u64 z)) 10 0 ltac:(by left) (s32_range _)) as R.
      cbn [truth Z.eqb negb andb] in R. rewrite u32_s32 in R. by replace (u32 (u64 z)) with (u32 z) in R by (unfold u32, u64; dlia).
    + apply (emits_bind fd _ _ _ l' tt tt); [|done]. pose proof (emits_printint fd (s32 z) 16 0 ltac:(by right) Hz) as R.
      cbn [truth Z.eqb negb andb] in R. by rewrite u32_s32 in R.
    + apply (emits_bind fd _ _ _ l' tt tt); [|done]. by apply emits_printptr.
    + apply (emits_bind fd _ _ [u8 z] l' tt tt); [|done]. replace (u8 z) with (u8 (u32 z)) by (unfold u8, u32; dlia).
      apply emits_putc_u8.
  - apply bool_decide_eq_false_1 in Em.
    assert (d <> 100 /\ d <> 108 /\ d <> 120 /\ d <> 112 /\ d <> 99) as (N1 & N2 & N3 & N4 & N5).
    { repeat split; intros ->; apply Em; cbv; repeat (first [left|right]). }
    zcase (d =? chr "d"); [done|]. zcase (d =? chr "l"); [done|]. zcase (d =? chr "x"); [done|]. zcase (d =? chr "p"); [done|].
    destruct (d =? chr "s") eqn:Es.
    + destruct ap as [|[z|s] ap0]; try done. injection H as <- <-. apply Forall_cons in Ha as [Hs Ha]. split; [done|].
      apply (emits_bind fd _ _ _ l' tt tt); [|done]. apply emits_putbuf. destruct s as [s|]; [done|].
      cbv - [is_byte]. repeat (constructor; [unfold is_byte; lia|]). constructor.
    + zcase (d =? chr "c"); [done|]. destruct (d =? chr "%") eqn:Ep; injection H as <- <-; (split; [done|]).
      * apply Z.eqb_eq in Ep. subst. apply (emits_bind fd _ _ [_] l' tt tt); [|done]. by apply emits_putc.
      * change ([chr "%"; d] ++ l') with ([chr "%"] ++ [d] ++ l'). apply (emits_bind fd _ _ [_] _ tt tt); [by apply emits_putc|].
        apply (emits_bind fd _ _ [_] _ tt tt); [|done]. by apply emits_putc.
Qed.

Lemma vprintf_run fd fmt : Forall is_byte fmt -> forall ap l, Forall arg_ok ap ->
  (format fmt ap = Some l -> emits fd (vprintf_loop fd 0 fmt ap) l tt) /\
  (format (chr "%" :: fmt) ap = Some l -> emits fd (vprintf_loop fd (chr "%") fmt ap) l tt).
Proof.
  induction fmt as [|c fmt IH]; intros Hf ap l Ha.
  - split; intros H; cbn in H; injection H as <-; constructor.
  - apply Forall_cons in Hf as [Hc Hf]. split; intros H.
    + cbn [format vprintf_loop] in *.
      replace (Z.land c 255) with c by (change 255 with (Z.ones 8); rewrite Z.land_ones by lia; symmetry; apply Z.mod_small; unfold is_byte in Hc; lia).
      change (0 =? 0) with true. cbv iota. destruct (c =? chr "%") eqn:E.
      * apply (proj2 (IH Hf ap l Ha)). by apply Z.eqb_eq in E.
      * destruct (format fmt ap) as [l0|] eqn:E0; [|done]. injection H as <-.
        apply (emits_bind fd _ _ [c] l0 tt tt); [by apply emits_putc|]. by apply IH.
    + change (format (chr "%" :: c :: fmt) ap) with
        (match directive c ap with Some (l, ap') => l' ← format fmt ap'; Some (l ++ l') | None => None end) in H.
      destruct (directive c ap) as [[l1 ap']|] eqn:Ed; [|done]. destruct (format fmt ap') as [l2|] eqn:E2; [|done]. injection H as <-.
      assert (Forall arg_ok ap') as Ha' by (eapply (emits_directive fd c [] ap l1 ap' []); try done; constructor).
      by apply (emits_directive fd c fmt ap l1 ap' l2 Hc Ha Ed), IH.
Qed.

(** ** Reading numbers back *)

Lemma digit_dec d : 0 <= d < 10 -> digit d = 48 + d.
Proof.
  intros H. assert (d = 0 \/ d = 1 \/ d = 2 \/ d = 3 \/ d = 4 \/ d = 5 \/ d = 6 \/ d = 7 \/ d = 8 \/ d = 9) as Hd by lia.
  repeat (destruct Hd as [->|Hd]; [done|]). by subst.
Qed.

Lemma digs_range k x : Forall (fun d => 0 <= d < 10) (digs 10 k x).
Proof. unfold digs. apply Forall_forall. intros d (j & -> & _)%list_elem_of_fmap. apply Z.mod_pos_bound. lia. Qed.

Lemma trim_incl l d : d ∈ trim l -> d ∈ l.
Proof.
  induction l as [|x [|y l] IH]; [done|done|]. change (trim (x :: y :: l)) with (if x =? 0 then trim (y :: l) else x :: y :: l). destruct (x =? 0); [|done]. intros H. right. by apply IH.
Qed.

Lemma dec_snoc l c : dec (l ++ [c]) = dec l * 10 + (c - 48).
Proof. unfold dec. by rewrite fold_left_app. Qed.

Lemma dec_zero l : dec (48 :: l) = dec l.
Proof. done. Qed.

Lemma dec_trim l : dec (map digit (trim l)) = dec (map digit l).
Proof.
  induction l as [|x [|y l] IH]; [done|done|]. change (trim (x :: y :: l)) with (if x =? 0 then trim (y :: l) else x :: y :: l). zcase (x =? 0) as E; [|done]. subst. rewrite IH.
  change (map digit (0 :: y :: l)) with (48 :: map digit (y :: l)). by rewrite dec_zero.
Qed.

Lemma dec_digs k x : 0 <= x < 10 ^ Z.of_nat k -> dec (map digit (digs 10 k x)) = x.
Proof.
  revert x. induction k as [|k IH]; intros x Hx; [change (10 ^ Z.of_nat 0) with 1 in Hx; change (dec _) with 0; lia|].
  rewrite digs_S, map_app by lia. change (map digit [x mod 10]) with [digit (x mod 10)].
  rewrite dec_snoc, IH by (by apply div_lt_pow). rewrite digit_dec by (apply Z.mod_pos_bound; lia).
  pose proof (Z.div_mod x 10 ltac:(lia)). lia.
Qed.

Lemma dec_numeral x : 0 <= x < 10 ^ 16 -> dec (numeral 10 x) = x /\ Forall is_digit (numeral 10 x).
Proof.
  intros Hx. unfold numeral. split; [by rewrite dec_trim, dec_digs|].
  apply Forall_forall. intros c (d & -> & Hd)%list_elem_of_fmap. apply trim_incl in Hd.
  pose proof (digs_range 16 x) as Hr. rewrite Forall_forall in Hr. specialize (Hr d Hd). unfold is_digit. rewrite digit_dec by done. lia.
Qed.

(** ** The theorems *)


(** atoi() reads back what printint() prints: the text of every non-negative [int], with
    anything but a digit after it, is read as that number. *)
Theorem atoi_printint fd x r : 0 <= x < 2147483648 -> (deref r < 48 \/ 57 < deref r) ->
  exists l, emits fd (printint fd x 10 1) l tt /\ atoi (l ++ r) = x.
Proof.
  intros Hx Hr. exists (numeral 10 x). destruct (dec_numeral x) as [Hd Hdig]; [lia|]. split.
  - pose proof (emits_printint fd x 10 1 ltac:(by left) ltac:(lia)) as R. cbn [truth Z.eqb negb andb] in R.
    destruct (x <? 0) eqn:E; zbool; [lia|]. by rewrite u32_small in R by lia.
  - rewrite atoi_dec; [done|done|lia|done].
Qed.


Lemma atoi_printint_witness : exists l, emits 1 (printint 1 2147483647 10 1) l tt /\ atoi (l ++ [32]) = 2147483647.
Proof. apply (atoi_printint 1 2147483647 [32]); [lia|left; cbn; lia]. Defined.
