(* ===== verification/Grep.v ===== *)
(** * grep (user/grep.c)

    The matcher of match(), matchhere() and matchstar() on strings, compared with regular
    expressions as a relation, and the loop of grep(), which refills a buffer of 1024 bytes
    and prints the lines that match. *)
From S2P Require Import Prelude Kernel Fs Sys User Ulib Uprintf.

(** The loop over the text, with [here] for [matchhere re]. *)
Fixpoint matchstar (here : list Z -> bool) (c : Z) (text : list Z) : bool :=
  if here text then true else
  match text with
  | [] => false
  | t :: text' => if truth t && ((t =? c) || (c =? chr ".")) then matchstar here c text' else false
  end.

Fixpoint matchhere (re text : list Z) {struct re} : bool :=
  match re with
  | [] => true
  | c :: re1 =>
      match re1 with
      | d :: re2 =>
          if d =? chr "*" then matchstar (matchhere re2) c text
          else if truth (deref text) && ((c =? chr ".") || (c =? deref text)) then matchhere re1 (tail text)
          else false
      | [] =>
          if c =? chr "$" then deref text =? 0
          else if truth (deref text) && ((c =? chr ".") || (c =? deref text)) then matchhere re1 (tail text)
          else false
      end
  end.

(** The loop of match(), which looks at the empty string too. *)
Fixpoint match_loop (re text : list Z) : bool :=
  if matchhere re text then true else
  match text with
  | [] => false
  | t :: text' => if truth t then match_loop re text' else false
  end.

Definition match_ (re text : list Z) : bool :=
  if deref re =? chr "^" then matchhere (tail re) text else match_loop re text.

(** while((q = strchr(p, '\n')) != 0): the lines in the buffer from [p] on; what is left. *)
Fixpoint grep_lines (fuel : nat) (pattern p : list Z) : prog (list Z) :=
  match fuel with
  | O => OutOfFuel
  | S f =>
      match strchr p newline with
      | None => Ret p
      | Some q =>
          let l := take (length p - length q) p in
          ((if match_ pattern l then call (UWrite 1 (l ++ [newline])) ;; Ret tt else Ret tt) ;;
           grep_lines f pattern (tail q))%prog
      end
  end.

Definition bufsize : Z := 1024.

(** [buf] holds the [m] bytes of [held]. *)
Fixpoint grep_loop (fuel : nat) (pattern : list Z) (fd : Z) (held : list Z) : prog unit :=
  match fuel with
  | O => OutOfFuel
  | S f =>
      (r <- call (URead fd (bufsize - zlen held - 1)) ;;
       let '(n, b) := (r : Z * list Z) in
       if 0 <? n then
         let p := held ++ b in
         held' <- grep_lines (S (length p)) pattern p ;;
         grep_loop f pattern fd held'
       else Ret tt)%prog
  end.

Definition grep (fuel : nat) (pattern : list Z) (fd : Z) : prog unit := grep_loop fuel pattern fd [].

Fixpoint grep_files (fuel : nat) (pattern : list Z) (files : list (list Z)) : prog unit :=
  match files with
  | [] => Halt 0
  | a :: files' =>
      (fd <- call (UOpen a 0) ;;
       if fd <? 0 then printf (str "grep: cannot open %s" ++ [newline]) [VStr (Some a)] ;; Halt 1
       else grep fuel pattern fd ;; call (UClose fd) ;; grep_files fuel pattern files')%prog
  end.

(** main(), with [argv]. *)
Definition grep_main (fuel : nat) (argv : list (list Z)) : prog unit :=
  (match argv with
   | _ :: pattern :: files =>
       match files with
       | [] => grep fuel pattern 0 ;; Halt 0
       | _ => grep_files fuel pattern files
       end
   | _ => fprintf 2 (line "usage: grep pattern [file ...]") [] ;; Halt 1
   end)%prog.

(** ** Regular expressions *)

(** A pattern: characters, starred characters, and an end of line. *)
Inductive regex := Empty | End | One (c : Z) (r : regex) | Star (c : Z) (r : regex).

Fixpoint parse (re : list Z) : regex :=
  match re with
  | [] => Empty
  | c :: re1 =>
      match re1 with
      | d :: re2 => if d =? chr "*" then Star c (parse re2) else One c (parse re1)
      | [] => if c =? chr "$" then End else One c (parse re1)
      end
  end.

(** What a character of the pattern stands for. *)
Definition atom (c x : Z) : Prop := c = chr "." \/ c = x.

(** The pattern matches at the beginning of the text. *)
Inductive matches : regex -> list Z -> Prop :=
| m_empty t : matches Empty t
| m_end : matches End []
| m_one c x r t : atom c x -> matches r t -> matches (One c r) (x :: t)
| m_star c l r t : Forall (atom c) l -> matches r t -> matches (Star c r) (l ++ t).

Lemma matchstar_spec here r c text : cstring text -> (forall t, cstring t -> here t = true <-> matches r t) ->
  matchstar here c text = true <-> matches (Star c r) text.
Proof.
  intros Ht Hh. induction text as [|t text IH]; cbn [matchstar].
  - split.
    + destruct (here []) eqn:E; [|done]. intros _. apply (m_star c [] r []); [done|]. by apply Hh.
    + intros H. inversion H as [| | |? l ? t' Hl Hm E1 E2]; subst. apply app_eq_nil in E2 as [-> ->].
      cbn [app]. by rewrite (proj2 (Hh [] Ht) Hm).
  - pose proof Ht as Htt. apply Forall_cons in Htt as [Hc Htx]. split.
    + destruct (here (t :: text)) eqn:E; [intros _; apply (m_star c []); [done|by apply Hh]|].
      unfold truth. zcase (t =? 0) as E0; [lia|]. cbn [negb andb]. destruct ((t =? c) || (c =? chr ".")) eqn:Ea; [|done].
      rewrite (IH Htx). intros H. inversion H as [| | |? l ? t' Hl Hm E1 E2]; subst. apply (m_star c (t :: l)); [|done].
      constructor; [|done]. apply orb_true_iff in Ea as [Ea|Ea]; apply Z.eqb_eq in Ea; [by right|by left].
    + intros H. destruct (here (t :: text)) eqn:E; [done|].
      inversion H as [| | |? l ? t' Hl Hm E1 E2]; subst. destruct l as [|x l]; cbn in E2.
      { subst. rewrite (proj2 (Hh _ Ht) Hm) in E. done. }
      injection E2 as -> <-. apply Forall_cons in Hl as [Hx Hl]. unfold truth. zcase (t =? 0) as E0; [lia|]. cbn [negb andb].
      replace ((t =? c) || (c =? chr ".")) with true.
      2: { symmetry. apply orb_true_iff. rewrite !Z.eqb_eq. destruct Hx; auto. }
      apply IH; [done|]. by apply m_star.
Qed.

(** A single character at the front of the text. *)
Lemma matchone c r re1 text : cstring text -> (forall t, cstring t -> matchhere re1 t = true <-> matches r t) ->
  (if truth (deref text) && ((c =? chr ".") || (c =? deref text)) then matchhere re1 (tail text) else false) = true <->
  matches (One c r) text.
Proof.
  intros Ht IH. destruct text as [|t text]; cbn [deref tail].
  - split; [done|]. intros H. inversion H.
  - apply Forall_cons in Ht as [Hc Ht]. unfold truth. zcase (t =? 0) as E0; [lia|]. cbn [negb andb].
    destruct ((c =? chr ".") || (c =? t)) eqn:Ea.
    + rewrite IH by done. apply orb_true_iff in Ea. rewrite !Z.eqb_eq in Ea. split.
      * intros H. by constructor.
      * intros H. by inversion H.
    + split; [done|]. intros H. inversion H as [| |? ? ? ? Ha| ]; subst. apply orb_false_iff in Ea. rewrite !Z.eqb_neq in Ea. destruct Ha, Ea; done.
Qed.

Lemma matchhere_spec re : cstring re -> forall text, cstring text -> matchhere re text = true <-> matches (parse re) text.
Proof.
  induction re as [re IH] using (induction_ltof1 _ (@length Z)). unfold ltof in IH. intros Hre text Ht.
  destruct re as [|c [|d re2]].
  - split; [intros _; constructor|done].
  - cbn [matchhere parse]. destruct (c =? chr "$") eqn:E.
    + destruct text as [|t text]; cbn [deref].
      * split; [intros _; constructor|done].
      * apply Forall_cons in Ht as [Hc _]. split; [intros H; zbool; lia|]. intros H. inversion H.
    + change (parse []) with Empty. apply (matchone c Empty [] text Ht). intros t _. split; [intros _; constructor|done].
  - apply Forall_cons in Hre as [Hc Hre]. pose proof Hre as Hre1. apply Forall_cons in Hre1 as [Hd Hre2].
    change (matchhere (c :: d :: re2) text) with
      (if d =? chr "*" then matchstar (matchhere re2) c text
       else if truth (deref text) && ((c =? chr ".") || (c =? deref text)) then matchhere (d :: re2) (tail text) else false).
    change (parse (c :: d :: re2)) with (if d =? chr "*" then Star c (parse re2) else One c (parse (d :: re2))).
    destruct (d =? chr "*").
    + apply matchstar_spec; [done|]. intros t Htt. apply IH; [cbn; lia|done|done].
    + apply matchone; [done|]. intros t Htt. apply IH; [cbn; lia|done|done].
Qed.

(** The pattern matches somewhere in the text, or at its beginning after a caret. *)
Definition found (re text : list Z) : Prop :=
  if deref re =? chr "^" then matches (parse (tail re)) text
  else exists pre t, text = pre ++ t /\ matches (parse re) t.

Lemma match_spec re text : cstring re -> cstring text -> match_ re text = true <-> found re text.
Proof.
  intros Hre Ht. unfold match_, found. destruct (deref re =? chr "^").
  - apply matchhere_spec; [|done]. destruct re; [done|]. by apply Forall_cons in Hre as [_ ?].
  - induction text as [|t text IH]; cbn [match_loop].
    + destruct (matchhere re []) eqn:E.
      * split; [|done]. intros _. exists [], []. split; [done|]. by apply matchhere_spec.
      * split; [done|]. intros (pre & t & Ep & Hm). symmetry in Ep. apply app_eq_nil in Ep as [-> ->].
        apply matchhere_spec in Hm; [congruence|done|done].
    + destruct (matchhere re (t :: text)) eqn:E.
      * split; [|done]. intros _. exists [], (t :: text). split; [done|]. by apply matchhere_spec.
      * pose proof Ht as Htt. apply Forall_cons in Htt as [Hc Htx]. unfold truth. zcase (t =? 0) as E0; [lia|]. cbn [negb].
        rewrite IH by done. split.
        -- intros (pre & s & -> & Hm). by exists (t :: pre), s.
        -- intros (pre & s & Ep & Hm). destruct pre as [|x pre]; cbn in Ep.
           ++ subst. apply matchhere_spec in Hm; [congruence|done|done].
           ++ injection Ep as -> ->. by exists pre, s.
Qed.

(** ** The lines of the input *)

(** What grep() is to print of the input [s] when the line it is in began with [cur]. *)
Fixpoint selected (pattern cur s : list Z) : list Z :=
  match s with
  | [] => []
  | c :: s' =>
      if c =? newline then (if match_ pattern cur then cur ++ [newline] else []) ++ selected pattern [] s'
      else selected pattern (cur ++ [c]) s'
  end.

(** The unfinished line at its end. *)
Fixpoint unfinished (cur s : list Z) : list Z :=
  match s with
  | [] => cur
  | c :: s' => if c =? newline then unfinished [] s' else unfinished (cur ++ [c]) s'
  end.

(** No line is longer than the buffer. *)
Fixpoint fits (cur : list Z) (s : list Z) : Prop :=
  zlen cur < bufsize - 1 /\
  match s with
  | [] => True
  | c :: s' => if c =? newline then fits [] s' else fits (cur ++ [c]) s'
  end.

Lemma selected_app pattern a b : forall cur,
  selected pattern cur (a ++ b) = selected pattern cur a ++ selected pattern (unfinished cur a) b.
Proof.
  induction a as [|c a IH]; intros cur; [done|]. cbn. destruct (c =? newline); [by rewrite IH, app_assoc|apply IH].
Qed.

Lemma unfinished_app a b : forall cur, unfinished cur (a ++ b) = unfinished (unfinished cur a) b.
Proof. induction a as [|c a IH]; intros cur; [done|]. cbn. destruct (c =? newline); apply IH. Qed.

Lemma fits_app a b : forall cur, fits cur (a ++ b) -> fits (unfinished cur a) b.
Proof.
  induction a as [|c a IH]; intros cur; [done|]. cbn. intros [_ H]. destruct (c =? newline); by apply IH.
Qed.

Lemma fits_len cur s : fits cur s -> zlen cur < bufsize - 1.
Proof. destruct s; by intros [? _]. Qed.

(** Within a line nothing is printed. *)
Lemma no_newline pattern a : newline ∉ a -> forall cur, selected pattern cur a = [] /\ unfinished cur a = cur ++ a.
Proof.
  induction a as [|c a IH]; intros Ha cur; [by rewrite app_nil_r|]. rewrite not_elem_of_cons in Ha. destruct Ha as [Hc Ha].
  cbn. zcase (c =? newline) as E; [congruence|]. destruct (IH Ha (cur ++ [c])) as [-> ->]. by rewrite <- app_assoc.
Qed.

Lemma unfinished_line s : forall cur, newline ∉ cur -> newline ∉ unfinished cur s.
Proof.
  induction s as [|c s IH]; intros cur Hc; [done|]. cbn. zcase (c =? newline) as E; apply IH; [apply not_elem_of_nil|].
  rewrite not_elem_of_app, not_elem_of_cons. split; [done|]. split; [congruence|apply not_elem_of_nil].
Qed.

Lemma unfinished_cstring s : forall cur, cstring cur -> cstring s -> cstring (unfinished cur s).
Proof.
  induction s as [|c s IH]; intros cur Hc Hs; [done|]. cbn. apply Forall_cons in Hs as [Hx Hs].
  destruct (c =? newline); apply IH; try done; [constructor|]. apply Forall_app. split; [done|by constructor].
Qed.

(** grep() on a full buffer prints the matching lines and keeps the unfinished one. *)
Lemma grep_lines_run pattern p : forall fuel, cstring p -> (length p < fuel)%nat ->
  emits 1 (grep_lines fuel pattern p) (selected pattern [] p) (unfinished [] p).
Proof.
  induction p as [p IH] using (induction_ltof1 _ (@length Z)). unfold ltof in IH. intros fuel Hp Hf.
  destruct fuel as [|f]; [lia|]. cbn [grep_lines]. destruct (strchr p newline) as [q|] eqn:Eq.
  - destruct (strchr_some _ _ _ Hp Eq) as (pre & Epq & Hpre & Hq & Hd). destruct q as [|c q']; [done|]. cbn in Hd. subst c.
    replace (take (length p - length (newline :: q')) p) with pre.
    2: { rewrite Epq, length_app. replace (length pre + length (newline :: q') - length (newline :: q'))%nat with (length pre) by lia. by rewrite take_app_length. }
    rewrite Epq, selected_app, unfinished_app. destruct (no_newline pattern pre Hpre []) as [-> ->]. cbn [app tail selected unfinished].
    rewrite Z.eqb_refl. eapply emits_bind.
    + destruct (match_ pattern pre); [|constructor].
      pose proof (em_write 1 (pre ++ [newline]) (fun _ => Ret tt) [] tt (em_ret _ tt)) as R. rewrite app_nil_r in R. exact R.
    + apply IH.
      * rewrite Epq, length_app. cbn. lia.
      * unfold cstring in *. rewrite Epq in Hp. apply Forall_app in Hp as [_ Hp]. by apply Forall_cons in Hp as [_ ?].
      * rewrite Epq, length_app in Hf. cbn in Hf. lia.
  - apply (strchr_none p newline Hp) in Eq. destruct (no_newline pattern p Eq []) as [-> ->]. constructor.
Qed.

Section Run.
Context {W : Type} (h : kernel W) (fd : Z) `{!Stream W h fd 1} (pattern : list Z).

Lemma grep_loop_run n : forall fuel held w, (length (src w) < fuel)%nat -> (length (src w) <= n)%nat ->
  cstring held -> cstring (src w) -> newline ∉ held -> fits held (src w) ->
  exists w', exec_prog h (grep_loop fuel pattern fd held) w = (RRet tt, w') /\ src w' = [] /\
    out w' = out w ++ selected pattern held (src w).
Proof.
  induction n as [|n IH]; intros fuel held w Hf Hn Hh Hs Hnl Hfit; (destruct fuel as [|f]; [lia|]); cbn [grep_loop].
  all: pose proof (fits_len _ _ Hfit) as Hlen; destruct (stream_read (bufsize - zlen held - 1) w ltac:(lia)) as (b & w1 & Er & Es & Hb & Hne & Ho).
  all: rewrite exec_bind, exec_call, Er; cbn [fst snd].
  - assert (src w = []) as E0 by (destruct (src w); [done|cbn in Hn; lia]). rewrite E0 in Es. symmetry in Es. apply app_eq_nil in Es as [-> Es].
    cbn. exists w1. rewrite E0. cbn. split; [done|]. split; [done|]. by rewrite app_nil_r, Ho.
  - destruct b as [|c b].
    { cbn. exists w1. rewrite (Hne eq_refl). cbn. split; [done|]. split; [by rewrite (Hne eq_refl) in Es|]. by rewrite app_nil_r, Ho. }
    change (0 <? zlen (c :: b)) with true. cbv iota zeta.
    assert (cstring (held ++ c :: b)) as Hp.
    { unfold cstring in *. apply Forall_app. split; [done|]. rewrite Es in Hs. by apply Forall_app in Hs as [? _]. }
    pose proof (grep_lines_run pattern (held ++ c :: b) (S (length (held ++ c :: b))) Hp ltac:(lia)) as He.
    destruct (emits_exec h fd 1 _ _ _ w1 He) as (w2 & Ee & Es2 & Eo2). rewrite exec_bind, Ee.
    assert (unfinished [] (held ++ c :: b) = unfinished held (c :: b) /\ selected pattern [] (held ++ c :: b) = selected pattern held (c :: b)) as [Eu Esel].
    { rewrite selected_app, unfinished_app. destruct (no_newline pattern held Hnl []) as [-> ->]. done. }
    rewrite Eu in *. rewrite Esel in *.
    destruct (IH f (unfinished held (c :: b)) w2) as (w' & E' & Es' & Eo').
    + rewrite Es2. rewrite Es, length_app in Hf. cbn in Hf. lia.
    + rewrite Es2. rewrite Es, length_app in Hn. cbn in Hn. lia.
    + rewrite <- Eu. apply unfinished_cstring; [constructor|done].
    + rewrite Es2. unfold cstring in *. rewrite Es in Hs. by apply Forall_app in Hs as [_ ?].
    + by apply unfinished_line.
    + rewrite Es2. apply fits_app. by rewrite <- Es.
    + exists w'. split; [done|]. split; [done|]. rewrite Eo', Eo2, Ho, Es2, Es, selected_app. by rewrite app_assoc.
Qed.
End Run.

(** ** The theorems *)

(** C22: the matcher of grep implements the regular expressions its comment promises: a line
    matches exactly when the pattern, with its dots, stars, end of line and a caret at the
    front, matches somewhere in it. *)
Theorem grep_match_correct re text : cstring re -> cstring text -> match_ re text = true <-> found re text.
Proof. apply match_spec. Qed.

(** C23: grep prints, in order, exactly the complete lines of its input that match, whatever
    sizes the reads return, and stops at the end of the input; the input holds no NUL and
    no line of 1023 bytes or more. *)
Theorem grep_prints_matches {W} (h : kernel W) fd `{!Stream W h fd 1} pattern w fuel :
  cstring (src w) -> fits [] (src w) -> (length (src w) < fuel)%nat ->
  exists w', exec_prog h (grep fuel pattern fd) w = (RRet tt, w') /\ src w' = [] /\
    out w' = out w ++ selected pattern [] (src w).
Proof.
  intros Hs Hf Hfuel. apply (grep_loop_run h fd pattern (length (src w))); try done; [constructor|apply not_elem_of_nil].
Qed.

Lemma grep_match_correct_witness : found (str "^a.*b$") (str "axxb").
Proof. apply grep_match_correct; [by apply cstring_check|by apply cstring_check|by vm_compute]. Defined.

(** Three lines, delivered four bytes at a time. *)
Definition demo_text : list Z := line "abc" ++ line "hello" ++ line "cab".

Lemma grep_prints_matches_witness : exists w', exec_prog (pipe_kernel 4 0 1) (grep 20 (str "ab") 0) (Pipes demo_text []) = (RRet tt, w') /\
  pp_out w' = line "abc" ++ line "cab".
Proof.
  destruct (@grep_prints_matches pipes (pipe_kernel 4 0 1) 0 (pipe_stream 4 0 1 ltac:(lia)) (str "ab") (Pipes demo_text []) 20) as (w' & E & _ & Ho).
  - by apply cstring_check.
  - cbv. repeat (split; [reflexivity|]). done.
  - cbv. lia.
  - exists w'. split; [exact E|]. cbn in Ho. rewrite Ho. by vm_compute.
Defined.
