(* ===== verification/Sh.v ===== *)
(** * The shell (user/sh.c)

    The parser, on a line whose pointers are the strings that start there (the end of the
    line, [es], is the empty string), nulterminate() on the line's buffer, and runcmd() and
    main() as programs.  The parser's functions are mutually recursive with fuel: [parsecmd]
    gives [4 * length + 4], which [parse_total] shows to be enough. *)
From S2P Require Import Prelude Kernel Fs Sys User Ulib Uprintf.

Definition MAXARGS : Z := 10.

(** struct cmd and its kinds; an argument is its two pointers [q] and [eq]. *)
Inductive cmd :=
| Exec (argv : list (list Z * list Z))
| Redir (c : cmd) (file efile : list Z) (mode fd : Z)
| Pipe (left right : cmd)
| List (left right : cmd)
| Back (c : cmd).

(** ** Tokens *)

Definition whitespace : list Z := [32; 9; 13; 10; 11].
Definition symbols : list Z := str "<|>&;()".

Definition isin (toks : list Z) (c : Z) : bool := match strchr toks c with Some _ => true | None => false end.

(** [while(s < es && strchr(whitespace, *s)) s++] *)
Fixpoint skip (s : list Z) : list Z :=
  match s with
  | c :: s' => if isin whitespace c then skip s' else s
  | [] => []
  end.

(** [while(s < es && !strchr(whitespace, *s) && !strchr(symbols, *s)) s++] *)
Fixpoint word_end (s : list Z) : list Z :=
  match s with
  | c :: s' => if negb (isin whitespace c) && negb (isin symbols c) then word_end s' else s
  | [] => []
  end.

(** gettoken(): its result, [*q], [*eq] and [*ps]. *)
Definition gettoken (s : list Z) : Z * list Z * list Z * list Z :=
  let s := skip s in
  let q := s in
  let '(ret, s) :=
    match s with
    | [] => (0, [])
    | c :: s1 =>
        if isin (str "|();&<") c then (c, s1)
        else if c =? chr ">" then
          if deref s1 =? chr ">" then (chr "+", tail s1) else (c, s1)
        else (chr "a", word_end s)
    end in
  (ret, q, s, skip s).

Definition peek (s toks : list Z) : bool * list Z :=
  let s := skip s in
  (truth (deref s) && isin toks (deref s), s).

(** ** The parser *)

Inductive pres A := POk (a : A) (s : list Z) | PPanic (msg : string) | PFuel.
Arguments POk {A} a s.
Arguments PPanic {A} msg.
Arguments PFuel {A}.

Definition pthen {A B} (r : pres A) (f : A -> list Z -> pres B) : pres B :=
  match r with POk a s => f a s | PPanic m => PPanic m | PFuel => PFuel end.

Fixpoint parseredirs (k : nat) (c : cmd) (s : list Z) : pres cmd :=
  let '(b, s) := peek s (str "<>") in
  if (b : bool) then
    match k with
    | O => PFuel
    | S k' =>
        let '(tok, _, _, s) := gettoken s in
        let '(t, q, eq, s) := gettoken s in
        if negb (t =? chr "a") then PPanic "missing file for redirection" else
        parseredirs k'
          (if tok =? chr "<" then Redir c q eq O_RDONLY 0
           else if tok =? chr ">" then Redir c q eq (Z.lor (Z.lor O_WRONLY O_CREATE) O_TRUNC) 1
           else if tok =? chr "+" then Redir c q eq (Z.lor O_WRONLY O_CREATE) 1
           else c) s
    end
  else POk c s.

(** [cmd->argv[argc] = q; cmd->eargv[argc] = eq] through the pointer parseexec() keeps to
    the execcmd, which redirections may have been wrapped around. *)
Fixpoint add_arg (w : list Z * list Z) (c : cmd) : cmd :=
  match c with
  | Exec a => Exec (a ++ [w])
  | Redir c' q eq mode fd => Redir (add_arg w c') q eq mode fd
  | _ => c
  end.

(** The loop of parseexec(); [k] is [MAXARGS - argc]. *)
Fixpoint parseargs (k : nat) (argc : Z) (ret : cmd) (s : list Z) : pres cmd :=
  let '(b, s) := peek s (str "|)&;") in
  if (b : bool) then POk ret s else
  let '(tok, q, eq, s) := gettoken s in
  if tok =? 0 then POk ret s
  else if negb (tok =? chr "a") then PPanic "syntax" else
  let ret := add_arg (q, eq) ret in
  let argc := argc + 1 in
  if MAXARGS <=? argc then PPanic "too many args" else
  match k with
  | O => PFuel
  | S k' => pthen (parseredirs (S (length s)) ret s) (fun ret s => parseargs k' argc ret s)
  end.

(** [while(peek(ps, es, "&")) { gettoken(ps, es, 0, 0); cmd = backcmd(cmd); }] *)
Fixpoint parseback (k : nat) (c : cmd) (s : list Z) : pres cmd :=
  let '(b, s) := peek s (str "&") in
  if (b : bool) then
    match k with
    | O => PFuel
    | S k' => let '(_, _, _, s) := gettoken s in parseback k' (Back c) s
    end
  else POk c s.

Fixpoint parseline (n : nat) (s : list Z) : pres cmd :=
  match n with
  | O => PFuel
  | S n' =>
      pthen (parsepipe n' s) (fun c s =>
      pthen (parseback (S (length s)) c s) (fun c s =>
      let '(b, s) := peek s (str ";") in
      if (b : bool) then
        let '(_, _, _, s) := gettoken s in
        pthen (parseline n' s) (fun r s => POk (List c r) s)
      else POk c s))
  end
with parsepipe (n : nat) (s : list Z) : pres cmd :=
  match n with
  | O => PFuel
  | S n' =>
      pthen (parseexec n' s) (fun c s =>
      let '(b, s) := peek s (str "|") in
      if (b : bool) then
        let '(_, _, _, s) := gettoken s in
        pthen (parsepipe n' s) (fun r s => POk (Pipe c r) s)
      else POk c s)
  end
with parseexec (n : nat) (s : list Z) : pres cmd :=
  match n with
  | O => PFuel
  | S n' =>
      let '(b, s) := peek s (str "(") in
      if (b : bool) then parseblock n' s else
      pthen (parseredirs (S (length s)) (Exec []) s) (fun ret s =>
      parseargs (Z.to_nat MAXARGS) 0 ret s)
  end
with parseblock (n : nat) (s : list Z) : pres cmd :=
  match n with
  | O => PFuel
  | S n' =>
      let '(b, s) := peek s (str "(") in
      if negb b then PPanic "parseblock" else
      let '(_, _, _, s) := gettoken s in
      pthen (parseline n' s) (fun c s =>
      let '(b, s) := peek s (str ")") in
      if negb b then PPanic "syntax - missing )" else
      let '(_, _, _, s) := gettoken s in
      parseredirs (S (length s)) c s)
  end.

(** parsecmd() up to the test for leftovers: the command and what is left of the line. *)
Definition parsecmd (s : list Z) : pres cmd :=
  pthen (parseline (4 * length s + 4) s) (fun c s =>
  let '(_, s) := peek s [] in
  POk c s).

(** ** nulterminate()

    [buf] is the line with its NUL, and the index of a pointer is counted from its end. *)

Definition index (buf p : list Z) : Z := zlen buf - 1 - zlen p.

Fixpoint nulterminate (c : cmd) (buf : list Z) : list Z :=
  match c with
  | Exec argv => fold_left (fun b w => zupd b (index b w.2) 0) argv buf
  | Redir c' _ efile _ _ => let b := nulterminate c' buf in zupd b (index b efile) 0
  | Pipe l r => nulterminate r (nulterminate l buf)
  | List l r => nulterminate r (nulterminate l buf)
  | Back c' => nulterminate c' buf
  end.

(** The C string at index [i]. *)
Definition string_at (buf : list Z) (i : Z) : list Z := until_nul (drop (Z.to_nat i) buf).

(** ** Running commands *)

(** A command with the strings its pointers point to. *)
Inductive scmd :=
| SExec (argv : list (list Z))
| SRedir (c : scmd) (file : list Z) (mode fd : Z)
| SPipe (left right : scmd)
| SList (left right : scmd)
| SBack (c : scmd).

Fixpoint strings (f : list Z * list Z -> list Z) (c : cmd) : scmd :=
  match c with
  | Exec argv => SExec (map f argv)
  | Redir c' q eq mode fd => SRedir (strings f c') (f (q, eq)) mode fd
  | Pipe l r => SPipe (strings f l) (strings f r)
  | List l r => SList (strings f l) (strings f r)
  | Back c' => SBack (strings f c')
  end.

(** The strings in the terminated buffer. *)
Definition load_cmd (buf : list Z) (c : cmd) : scmd := strings (fun w => string_at buf (index buf w.1)) c.

Definition panic {A} (s : string) : prog A := (fprintf 2 (str "%s" ++ [newline]) [VStr (Some (str s))] ;; Halt 1)%prog.

Definition fork1 : prog Z := (pid <- call UFork ;; if pid =? -1 then panic "fork" else Ret pid)%prog.

(** One side of a pipe in the child: [fd] becomes end [p] of the pipe. *)
Definition plug (fd p p0 p1 : Z) : prog unit :=
  (call (UClose fd) ;; call (UDup p) ;; call (UClose p0) ;; call (UClose p1) ;; Ret tt)%prog.

Fixpoint runcmd (c : scmd) : prog unit :=
  (match c with
   | SExec argv =>
       match argv with
       | [] => Halt 1
       | a :: _ =>
           call (UExec a argv) ;;
           fprintf 2 (line "exec %s failed") [VStr (Some a)] ;;
           Halt 0
       end
   | SRedir c file mode fd =>
       call (UClose fd) ;;
       r <- call (UOpen file mode) ;;
       if r <? 0 then fprintf 2 (line "open %s failed") [VStr (Some file)] ;; Halt 1
       else runcmd c ;; Halt 0
   | SList l r =>
       pid <- fork1 ;;
       (if pid =? 0 then runcmd l else Ret tt) ;;
       call UWait ;;
       runcmd r ;;
       Halt 0
   | SPipe l r =>
       x <- call UPipe ;;
       let '(res, (p0, p1)) := (x : Z * (Z * Z)) in
       if res <? 0 then panic "pipe" else
       pid <- fork1 ;;
       (if pid =? 0 then plug 1 p1 p0 p1 ;; runcmd l else Ret tt) ;;
       pid <- fork1 ;;
       (if pid =? 0 then plug 0 p0 p0 p1 ;; runcmd r else Ret tt) ;;
       call (UClose p0) ;;
       call (UClose p1) ;;
       call UWait ;;
       call UWait ;;
       Halt 0
   | SBack c =>
       pid <- fork1 ;;
       (if pid =? 0 then runcmd c else Ret tt) ;;
       Halt 0
   end)%prog.

(** The line, or None at the end of the input. *)
Definition getcmd (nbuf : Z) : prog (option (list Z)) :=
  (call (UWrite 2 (str "$ ")) ;;
   buf <- gets nbuf ;;
   Ret (if deref buf =? 0 then None else Some (until_nul buf)))%prog.

(** The child's side of a command line. *)
Definition run_line (s : list Z) : prog unit :=
  match parsecmd s with
  | POk c [] => runcmd (load_cmd (nulterminate c (s ++ [0])) c)
  | POk c rest => (fprintf 2 (line "leftovers: %s") [VStr (Some rest)] ;; panic "syntax")%prog
  | PPanic m => panic m
  | PFuel => OutOfFuel
  end.

Fixpoint open_console (n : nat) : prog unit :=
  match n with
  | O => OutOfFuel
  | S n' =>
      (fd <- call (UOpen (str "console") O_RDWR) ;;
       if 0 <=? fd then
         if 3 <=? fd then call (UClose fd) ;; Ret tt else open_console n'
       else Ret tt)%prog
  end.

Fixpoint main_loop (n : nat) : prog unit :=
  match n with
  | O => OutOfFuel
  | S n' =>
      (r <- getcmd 100 ;;
       match r with
       | None => Halt 0
       | Some buf =>
           if bool_decide (take 3 buf = str "cd ") then
             let dir := removelast buf in
             r <- call (UChdir (drop 3 dir)) ;;
             (if r <? 0 then fprintf 2 (line "cannot cd %s") [VStr (Some (drop 3 dir))] else Ret tt) ;;
             main_loop n'
           else
             pid <- fork1 ;;
             (if pid =? 0 then run_line buf else Ret tt) ;;
             call UWait ;;
             main_loop n'
       end)%prog
  end.

Definition sh_main (n : nat) : prog unit := (open_console n ;; main_loop n)%prog.

(** ** Tokens *)

Definition is_word (c : Z) : Prop := 0 < c < 256 /\ isin whitespace c = false /\ isin symbols c = false.

#[export] Instance is_word_dec c : Decision (is_word c).
Proof. unfold is_word. apply _. Defined.

Lemma isin_spec toks c : cstring toks -> isin toks c = true <-> c ∈ toks.
Proof.
  intros Ht. unfold isin. destruct (strchr toks c) as [t|] eqn:E.
  - split; [|done]. intros _. destruct (strchr_some _ _ _ Ht E) as (pre & -> & _ & Hne & Hd).
    destruct t as [|x t]; [done|]. cbn in Hd. subst. apply elem_of_app. right. left.
  - apply (strchr_none _ _ Ht) in E. split; [done|]. intros H. by destruct E.
Qed.

Lemma symbol_cases c : isin symbols c = true -> isin (str "|();&<") c = true \/ c = chr ">".
Proof.
  rewrite !isin_spec by (by apply cstring_check). change symbols with [60; 124; 62; 38; 59; 40; 41].
  change (str "|();&<") with [124; 40; 41; 59; 38; 60]. change (chr ">") with 62. rewrite !elem_of_cons. intuition.
Qed.

Lemma skip_suffix s : exists pre, s = pre ++ skip s.
Proof.
  induction s as [|c s [pre IH]]; [by exists []|]. cbn. destruct (isin whitespace c); [|by exists []].
  exists (c :: pre). cbn. by rewrite <- IH.
Qed.

Lemma skip_head s c s' : skip s = c :: s' -> isin whitespace c = false.
Proof. induction s as [|x s IH]; [done|]. cbn. destruct (isin whitespace x) eqn:E; [done|]. by intros [= <- _]. Qed.

Lemma skip_skip s : skip (skip s) = skip s.
Proof.
  destruct (skip s) as [|c s'] eqn:E; [done|]. cbn. by rewrite (skip_head _ _ _ E).
Qed.

Lemma word_end_spec s : exists w, s = w ++ word_end s /\ Forall (fun c => isin whitespace c = false /\ isin symbols c = false) w /\
  (word_end s = [] \/ exists c r, word_end s = c :: r /\ (isin whitespace c = true \/ isin symbols c = true)).
Proof.
  induction s as [|c s (w & E & Hw & Hend)]; [exists []; by repeat split; [|left]|]. cbn [word_end].
  destruct (isin whitespace c) eqn:E1; [exists []; split; [done|]; split; [done|]; right; exists c, s; auto|].
  destruct (isin symbols c) eqn:E2; [exists []; split; [done|]; split; [done|]; right; exists c, s; auto|].
  cbn [negb andb]. exists (c :: w). split; [cbn; by rewrite <- E|]. split; [by constructor|done].
Qed.

(** The pointers of a word of the line [s0]. *)
Record word_ok (s0 : list Z) (w : list Z * list Z) : Prop := {
  wo_split : exists pre word, s0 = pre ++ w.1 /\ w.1 = word ++ w.2 /\ word <> [] /\ Forall is_word word;
  wo_end : w.2 = [] \/ exists c r, w.2 = c :: r /\ ~ is_word c;
}.

(** What is left of a line. *)
Definition left_of (s s0 : list Z) : Prop := exists pre, s0 = pre ++ s.

Lemma left_refl s : left_of s s.
Proof. by exists []. Qed.
Lemma left_trans a b c : left_of a b -> left_of b c -> left_of a c.
Proof. intros [p ->] [q ->]. exists (q ++ p). by rewrite app_assoc. Qed.
Lemma left_len a b : left_of a b -> (length a <= length b)%nat.
Proof. intros [p ->]. rewrite length_app. lia. Qed.
Lemma left_skip s : left_of (skip s) s.
Proof. apply skip_suffix. Qed.
Lemma left_tail s : left_of (tail s) s.
Proof. destruct s as [|c s]; [done|]. by exists [c]. Qed.

(** gettoken() moves on unless the line is at its end. *)
Lemma gettoken_left s t q eq s' : gettoken s = (t, q, eq, s') ->
  left_of s' s /\ q = skip s /\ (q <> [] -> (length s' < length q)%nat) /\ (q = [] -> t = 0).
Proof.
  unfold gettoken. destruct (skip s) as [|c s1] eqn:E; intros H.
  - injection H as <- <- <- <-. split; [rewrite <- E; apply left_skip|done].
  - assert (left_of (c :: s1) s) as Hl by (rewrite <- E; apply left_skip).
    assert (left_of s1 (c :: s1)) as Hl1 by by exists [c].
    assert (forall x, left_of x s1 -> left_of (skip x) s /\ c :: s1 = c :: s1 /\ (c :: s1 <> [] -> (length (skip x) < length (c :: s1))%nat)) as Hok.
    { intros x Hx. assert (left_of (skip x) s1) as Hx1 by (eapply left_trans; [apply left_skip|done]).
      split; [eapply left_trans; [exact Hx1|]; by eapply left_trans|]. split; [done|]. intros _. apply left_len in Hx1. cbn. lia. }
    destruct (isin (str "|();&<") c) eqn:E1; [|destruct (c =? chr ">") eqn:E2; [destruct (deref s1 =? chr ">")|]]; injection H as <- <- <- <-.
    + destruct (Hok s1 (left_refl _)) as (? & ? & ?). done.
    + destruct (Hok (tail s1) (left_tail _)) as (? & ? & ?). done.
    + destruct (Hok s1 (left_refl _)) as (? & ? & ?). done.
    + assert (left_of (word_end (c :: s1)) s1) as Hw.
      { cbn [word_end]. rewrite (skip_head _ _ _ E). cbn [negb andb]. destruct (isin symbols c) eqn:E3; cbn [negb].
        - exfalso. destruct (symbol_cases c E3) as [E4|E4]; [congruence|]. by rewrite E4 in E2.
        - destruct (word_end_spec s1) as (w & Ew & _). by exists w. }
      destruct (Hok _ Hw) as (? & ? & ?). done.
Qed.

(** A word token's pointers. *)
Lemma gettoken_word s0 s q eq s' : cstring s0 -> left_of s s0 -> gettoken s = (chr "a", q, eq, s') -> word_ok s0 (q, eq).
Proof.
  intros Hs0 Hl. unfold gettoken. destruct (skip s) as [|c s1] eqn:E; [done|].
  destruct (isin (str "|();&<") c) eqn:E1.
  { intros [= -> _ _ _]. done. }
  destruct (c =? chr ">") eqn:E2.
  { destruct (deref s1 =? chr ">"); [done|]. intros [= -> _ _ _]. done. }
  intros H. assert (q = c :: s1 /\ eq = word_end (c :: s1)) as [-> ->] by (split; congruence). clear H.
  destruct (word_end_spec (c :: s1)) as (w & Ew & Hw & Hend).
  assert (left_of (c :: s1) s0) as [pre Hpre] by (eapply left_trans; [|done]; rewrite <- E; apply left_skip).
  assert (Forall is_word w) as Hww.
  { apply Forall_forall. intros x Hx. rewrite Forall_forall in Hw. split; [|by apply Hw].
    unfold cstring in Hs0. rewrite Forall_forall in Hs0. apply Hs0. rewrite Hpre, Ew, !elem_of_app. auto. }
  split; cbn [fst snd].
  - exists pre, w. split; [done|]. split; [done|]. split; [|done]. intros ->. cbn [app] in Ew.
    cbn [word_end] in Ew. rewrite (skip_head _ _ _ E) in Ew. cbn [negb andb] in Ew.
    destruct (isin symbols c) eqn:E3; [destruct (symbol_cases c E3) as [E4|E4]; [congruence|by rewrite E4 in E2]|].
    cbn [negb] in Ew. destruct (word_end_spec s1) as (w1 & Ew1 & _). apply (f_equal length) in Ew, Ew1. rewrite length_app in Ew1. cbn in Ew. lia.
  - destruct Hend as [->|(x & r & -> & Hx)]; [by left|right]. exists x, r. split; [done|]. intros (_ & H1 & H2). destruct Hx; congruence.
Qed.

(** ** The parser returns *)

(** Every word of a command. *)
Fixpoint words_ok (P : list Z * list Z -> Prop) (c : cmd) : Prop :=
  match c with
  | Exec argv => Forall P argv
  | Redir c' q eq _ _ => words_ok P c' /\ P (q, eq)
  | Pipe l r | List l r => words_ok P l /\ words_ok P r
  | Back c' => words_ok P c'
  end.

Lemma words_add P w c : P w -> words_ok P c -> words_ok P (add_arg w c).
Proof.
  intros Hw. induction c as [a|c IH q eq m fd| | |]; cbn; try done.
  - intros Ha. apply Forall_app. split; [done|by constructor].
  - intros [H1 H2]. split; [by apply IH|done].
Qed.

Section Total.
Context (s0 : list Z) (Hs0 : cstring s0).

(** The result of a parsing function that starts at [s]: a panic, or a command made of
    words of the line and the rest of the line. *)
Definition good (s : list Z) (r : pres cmd) : Prop :=
  match r with
  | POk c s' => left_of s' s /\ words_ok (word_ok s0) c
  | PPanic _ => True
  | PFuel => False
  end.

Lemma good_then s r (f : cmd -> list Z -> pres cmd) : good s r ->
  (forall c s', left_of s' s -> words_ok (word_ok s0) c -> good s' (f c s')) -> good s (pthen r f).
Proof using.
  intros Hr Hf. destruct r as [c s'| |]; cbn in *; [|done|done]. destruct Hr as [Hl Hw].
  specialize (Hf c s' Hl Hw). destruct (f c s') as [c2 s2| |]; cbn in *; [|done|done].
  destruct Hf. split; [by eapply left_trans|done].
Qed.

Lemma good_skip s r : good (skip s) r -> good s r.
Proof using. destruct r; cbn; [|done|done]. intros [H1 H2]. split; [|done]. eapply left_trans; [done|apply left_skip]. Qed.

Lemma good_left s s' r : left_of s' s -> good s' r -> good s r.
Proof using. intros Hl. destruct r; cbn; [|done|done]. intros [H1 H2]. split; [|done]. by eapply left_trans. Qed.

Lemma peek_true s toks b s' : peek s toks = (b, s') -> s' = skip s /\ (b = true -> skip s <> []).
Proof using. unfold peek. intros [= <- <-]. split; [done|]. by destruct (skip s). Qed.

(** A token after a successful peek(). *)
Lemma next_token s t q eq s' : skip s <> [] -> gettoken (skip s) = (t, q, eq, s') ->
  left_of s' s /\ (length s' < length s)%nat.
Proof using.
  intros Hne H. destruct (gettoken_left _ _ _ _ _ H) as (H1 & H2 & H3 & _). rewrite skip_skip in H2. subst q.
  pose proof (left_skip s) as Hs. split; [by eapply left_trans|]. specialize (H3 Hne). apply left_len in Hs. lia.
Qed.

Lemma parseredirs_good k : forall c s, (length s < k)%nat -> left_of s s0 -> words_ok (word_ok s0) c -> good s (parseredirs k c s).
Proof using Hs0.
  induction k as [|k IH]; intros c s Hk Hl Hc; [lia|]. cbn [parseredirs].
  destruct (peek s (str "<>")) as [b s1] eqn:Ep. destruct (peek_true _ _ _ _ Ep) as [-> Hne].
  destruct b; [|apply good_skip; split; [apply left_refl|done]]. specialize (Hne eq_refl).
  destruct (gettoken (skip s)) as [[[tok q0] eq0] s1] eqn:E1. destruct (next_token _ _ _ _ _ Hne E1) as [L1 N1].
  destruct (gettoken s1) as [[[t q] eq] s2] eqn:E2. destruct (gettoken_left _ _ _ _ _ E2) as (L2 & _ & _ & _).
  destruct (negb (t =? chr "a")) eqn:Et; [done|]. apply negb_false_iff, Z.eqb_eq in Et. subst t.
  assert (word_ok s0 (q, eq)) as Hw by (eapply (gettoken_word s0 s1); [done|by eapply left_trans|done]).
  assert (left_of s2 s) as L by by eapply left_trans.
  apply (good_left _ s2); [done|]. apply IH; [apply left_len in L2; lia|by eapply left_trans|].
  destruct (tok =? chr "<"); [done|]. destruct (tok =? chr ">"); [done|]. by destruct (tok =? chr "+").
Qed.

Lemma parseargs_good k : forall argc ret s, MAXARGS - argc <= Z.of_nat k -> left_of s s0 -> words_ok (word_ok s0) ret ->
  good s (parseargs k argc ret s).
Proof using Hs0.
  induction k as [|k IH]; intros argc ret s Hk Hl Hc; cbn [parseargs].
  all: destruct (peek s (str "|)&;")) as [b s1] eqn:Ep; destruct (peek_true _ _ _ _ Ep) as [-> Hne].
  all: destruct b; [apply good_skip; split; [apply left_refl|done]|].
  all: destruct (gettoken (skip s)) as [[[tok q] eq] s1] eqn:E1; destruct (gettoken_left _ _ _ _ _ E1) as (L1 & _ & _ & _).
  all: assert (left_of s1 s) as L by (eapply left_trans; [done|apply left_skip]).
  all: destruct (tok =? 0); [by split|]; destruct (negb (tok =? chr "a")) eqn:Et; [done|]; apply negb_false_iff, Z.eqb_eq in Et; subst tok.
  all: assert (word_ok s0 (q, eq)) as Hw by (eapply (gettoken_word s0 (skip s)); [done|eapply left_trans; [apply left_skip|done]|done]).
  all: zcase (MAXARGS <=? argc + 1) as Em; [done|].
  - lia.
  - apply (good_left _ s1); [done|]. apply good_then; [apply parseredirs_good; [lia|by eapply left_trans|by apply words_add]|].
    intros c s2 L2 Hc2. apply IH; [lia|eapply left_trans; [done|by eapply left_trans]|done].
Qed.

Lemma parseback_good k : forall c s, (length s < k)%nat -> words_ok (word_ok s0) c -> good s (parseback k c s).
Proof using.
  induction k as [|k IH]; intros c s Hk Hc; [lia|]. cbn [parseback].
  destruct (peek s (str "&")) as [b s1] eqn:Ep. destruct (peek_true _ _ _ _ Ep) as [-> Hne].
  destruct b; [|apply good_skip; split; [apply left_refl|done]]. specialize (Hne eq_refl).
  destruct (gettoken (skip s)) as [[[tok q] eq] s1] eqn:E1. destruct (next_token _ _ _ _ _ Hne E1) as [L1 N1].
  apply (good_left _ s1); [done|]. apply IH; [lia|done].
Qed.

(** Fuel for what is left of the line, four levels deep for each character. *)
Lemma parse_good n : forall s, left_of s s0 ->
  ((4 * length s + 4 <= n)%nat -> good s (parseline n s)) /\ ((4 * length s + 3 <= n)%nat -> good s (parsepipe n s)) /\
  ((4 * length s + 2 <= n)%nat -> good s (parseexec n s)) /\ ((4 * length s + 1 <= n)%nat -> good s (parseblock n s)).
Proof using Hs0.
  induction n as [|n IH]; intros s Hl; (split; [|split; [|split]]); intros Hn; try lia.
  - cbn [parseline]. apply good_then; [apply IH; [done|lia]|]. intros c s1 L1 Hc.
    apply good_then; [by apply parseback_good; [lia|]|]. intros c2 s2 L2 Hc2.
    destruct (peek s2 (str ";")) as [b s3] eqn:Ep. destruct (peek_true _ _ _ _ Ep) as [-> Hne].
    destruct b; [|apply good_skip; split; [apply left_refl|done]]. specialize (Hne eq_refl).
    destruct (gettoken (skip s2)) as [[[tok q] eq] s3] eqn:E1. destruct (next_token _ _ _ _ _ Hne E1) as [L3 N3].
    apply (good_left _ s3); [done|]. apply left_len in L1 as N1. apply left_len in L2 as N2.
    apply good_then; [apply IH; [|lia]|].
    { eapply left_trans; [exact L3|]. eapply left_trans; [exact L2|]. by eapply left_trans. }
    intros r s4 L4 Hr. by split; [apply left_refl|].
  - cbn [parsepipe]. apply good_then; [apply IH; [done|lia]|]. intros c s2 L2 Hc2.
    destruct (peek s2 (str "|")) as [b s3] eqn:Ep. destruct (peek_true _ _ _ _ Ep) as [-> Hne].
    destruct b; [|apply good_skip; split; [apply left_refl|done]]. specialize (Hne eq_refl).
    destruct (gettoken (skip s2)) as [[[tok q] eq] s3] eqn:E1. destruct (next_token _ _ _ _ _ Hne E1) as [L3 N3].
    apply (good_left _ s3); [done|]. apply left_len in L2 as N2.
    apply good_then; [apply IH; [|lia]|].
    { eapply left_trans; [exact L3|]. by eapply left_trans. }
    intros r s4 L4 Hr. by split; [apply left_refl|].
  - cbn [parseexec]. destruct (peek s (str "(")) as [b s1] eqn:Ep. destruct (peek_true _ _ _ _ Ep) as [-> Hne].
    pose proof (left_skip s) as Lk. apply left_len in Lk as Nk. apply good_skip. destruct b.
    + apply IH; [by eapply left_trans|lia].
    + apply good_then; [apply parseredirs_good; [lia|by eapply left_trans|constructor]|].
      intros c s2 L2 Hc. apply parseargs_good; [unfold MAXARGS; lia|eapply left_trans; [done|by eapply left_trans]|done].
  - cbn [parseblock]. destruct (peek s (str "(")) as [b s1] eqn:Ep. destruct (peek_true _ _ _ _ Ep) as [-> Hne].
    destruct b; [|done]. specialize (Hne eq_refl). cbn [negb].
    destruct (gettoken (skip s)) as [[[tok q] eq] s1] eqn:E1. destruct (next_token _ _ _ _ _ Hne E1) as [L1 N1].
    apply (good_left _ s1); [done|]. assert (left_of s1 s0) as L10 by by eapply left_trans.
    apply good_then; [apply IH; [done|lia]|]. intros c s2 L2 Hc.
    destruct (peek s2 (str ")")) as [b s3] eqn:Ep2. destruct (peek_true _ _ _ _ Ep2) as [-> Hne2].
    destruct b; [|done]. specialize (Hne2 eq_refl). cbn [negb].
    destruct (gettoken (skip s2)) as [[[tok2 q2] eq2] s3] eqn:E3. destruct (next_token _ _ _ _ _ Hne2 E3) as [L3 N3].
    apply (good_left _ s3); [done|]. apply parseredirs_good; [lia| |done]. eapply left_trans; [exact L3|]. by eapply left_trans.
Qed.

End Total.

Lemma parsecmd_good s : cstring s -> good s s (parsecmd s).
Proof.
  intros Hs. unfold parsecmd. apply good_then.
  - by apply (parse_good s Hs (4 * length s + 4) s (left_refl s)).
  - intros c s' Hl Hc. unfold peek. split; [apply left_skip|done].
Qed.

(** ** nulterminate() *)

(** The word between the two pointers. *)
Definition slice_of (w : list Z * list Z) : list Z := take (length w.1 - length w.2) w.1.

(** The end pointers of a command's words. *)
Fixpoint ends (c : cmd) : list (list Z) :=
  match c with
  | Exec argv => map snd argv
  | Redir c' _ eq _ _ => ends c' ++ [eq]
  | Pipe l r | List l r => ends l ++ ends r
  | Back c' => ends c'
  end.

(** nulterminate() writes a NUL at each of them. *)
Lemma nulterminate_ends c : forall buf, nulterminate c buf = fold_left (fun b e => zupd b (index b e) 0) (ends c) buf.
Proof.
  induction c as [argv|c IH q eq m fd|l IHl r IHr|l IHl r IHr|c IH]; intros buf; cbn [nulterminate ends].
  - revert buf. induction argv as [|w argv IHa]; intros buf; [done|]. cbn. apply IHa.
  - rewrite fold_left_app. cbn. by rewrite IH.
  - by rewrite fold_left_app, IHl, IHr.
  - by rewrite fold_left_app, IHl, IHr.
  - apply IH.
Qed.

Lemma fold_zupd es : forall buf i, (forall e, e ∈ es -> 0 <= index buf e < zlen buf) ->
  zlen (fold_left (fun b e => zupd b (index b e) 0) es buf) = zlen buf /\
  znth 0 (fold_left (fun b e => zupd b (index b e) 0) es buf) i =
  if bool_decide (i ∈ map (index buf) es) then 0 else znth 0 buf i.
Proof.
  induction es as [|e es IH]; intros buf i He; cbn [fold_left].
  - rewrite bool_decide_eq_false_2 by apply not_elem_of_nil. done.
  - assert (zlen (zupd buf (index buf e) 0) = zlen buf) as El by apply zlen_zupd.
    assert (forall x, index (zupd buf (index buf e) 0) x = index buf x) as Ei by (intros x; unfold index; by rewrite zlen_zupd).
    destruct (IH (zupd buf (index buf e) 0) i) as [H1 H2].
    { intros x Hx. rewrite Ei, El. apply He. by right. }
    rewrite H1, H2, El. clear H1 H2. split; [done|]. rewrite (map_ext _ _ Ei).
    assert (0 <= index buf e < zlen buf) as Hb by (apply He; left). cbn [map].
    destruct (decide (index buf e = i)) as [E|E].
    + rewrite (bool_decide_eq_true_2 (i ∈ _ :: _)) by (rewrite E; left). subst i.
      case_bool_decide; [done|]. by apply znth_zupd_eq.
    + rewrite znth_zupd_ne by done. case_bool_decide as Hex; case_bool_decide as Hex'; try done.
      * exfalso. apply Hex'. by right.
      * exfalso. apply elem_of_cons in Hex' as [?|?]; [congruence|done].
Qed.

(** A string up to its NUL. *)
Lemma string_at_word w : forall buf i, 0 <= i -> i + zlen w < zlen buf -> Forall (fun c => 0 < c < 256) w ->
  (forall j, 0 <= j < zlen w -> znth 0 buf (i + j) = znth 0 w j) -> znth 0 buf (i + zlen w) = 0 -> string_at buf i = w.
Proof.
  induction w as [|c w IH]; intros buf i Hi Hlen Hw Hj H0; unfold string_at in *.
  - change (zlen (@nil Z)) with 0 in *. rewrite Z.add_0_r in *.
    assert (is_Some (buf !! Z.to_nat i)) as [x Hx] by (apply lookup_lt_is_Some_2; unfold zlen in Hlen; lia).
    rewrite (drop_S _ _ _ Hx). cbn. rewrite (znth_lookup 0 buf i x Hi Hx) in H0. by subst.
  - assert (zlen (c :: w) = zlen w + 1) as El by (unfold zlen; cbn [length]; lia). rewrite El in *. apply Forall_cons in Hw as [Hc Hw].
    assert (0 <= zlen w) as Hz by (unfold zlen; lia).
    assert (is_Some (buf !! Z.to_nat i)) as [x Hx] by (apply lookup_lt_is_Some_2; unfold zlen in *; lia).
    assert (x = c) as ->. { rewrite <- (znth_lookup 0 buf i x Hi Hx), <- (Z.add_0_r i), Hj by lia. apply znth_cons_0. }
    rewrite (drop_S _ _ _ Hx). cbn [until_nul]. zcase (c =? 0) as Ec; [lia|]. f_equal.
    replace (S (Z.to_nat i)) with (Z.to_nat (i + 1)) by lia. apply IH; [lia|lia|done| |].
    + intros j Hjj. replace (i + 1 + j) with (i + (j + 1)) by lia. rewrite Hj by lia. rewrite znth_cons_S by lia. f_equal. lia.
    + by replace (i + 1 + zlen w) with (i + (zlen w + 1)) by lia.
Qed.

Lemma ends_words P c e : words_ok P c -> e ∈ ends c -> exists q, P (q, e).
Proof.
  induction c as [argv|c IH q eq m fd|l IHl r IHr|l IHl r IHr|c IH]; cbn; intros Hw He.
  - apply list_elem_of_fmap in He as ([q e'] & -> & Hin). rewrite Forall_forall in Hw. exists q. by apply Hw.
  - destruct Hw as [H1 H2]. apply elem_of_app in He as [He|He%list_elem_of_singleton]; [by apply IH|]. subst. by exists q.
  - destruct Hw. apply elem_of_app in He as [He|He]; auto.
  - destruct Hw. apply elem_of_app in He as [He|He]; auto.
  - auto.
Qed.

(** After nulterminate() each word of the command is the C string at its pointer. *)
Lemma terminated s0 c w : cstring s0 -> words_ok (word_ok s0) c -> word_ok s0 w -> w.2 ∈ ends c ->
  let buf := nulterminate c (s0 ++ [0]) in string_at buf (index buf w.1) = slice_of w.
Proof.
  intros Hs Hc Hw Hin buf. destruct w as [q e]. cbn [fst snd] in *.
  destruct (wo_split _ _ Hw) as (pre & word & E0 & E1 & Hne & Hword). cbn [fst snd] in E0, E1.
  assert (slice_of (q, e) = word) as ->.
  { unfold slice_of. cbn [fst snd]. rewrite E1, length_app. replace (length word + length e - length e)%nat with (length word) by lia. apply take_app_length. }
  assert (forall p l, s0 = l ++ p -> index (s0 ++ [0]) p = zlen l) as Hidx.
  { intros p l ->. unfold index, zlen. rewrite !length_app. cbn. lia. }
  assert (forall x, x ∈ ends c -> 0 <= index (s0 ++ [0]) x < zlen (s0 ++ [0]) /\
            (index (s0 ++ [0]) x < zlen s0 -> ~ is_word (znth 0 s0 (index (s0 ++ [0]) x)))) as Hends.
  { intros x Hx. destruct (ends_words _ _ _ Hc Hx) as [q' Hq']. destruct (wo_split _ _ Hq') as (pre' & word' & F0 & F1 & _ & _).
    cbn [fst snd] in F0, F1. assert (s0 = (pre' ++ word') ++ x) as F2 by (rewrite <- app_assoc, <- F1; done).
    rewrite (Hidx x _ F2). assert (zlen s0 = zlen (pre' ++ word') + zlen x) as Fl by (rewrite F2 at 1; unfold zlen; rewrite !length_app; lia).
    split; [unfold zlen in *; rewrite (length_app s0); cbn [length]; lia|]. intros Hlt.
    destruct (wo_end _ _ Hq') as [Ex|(d & r & Ed & Hd)]; cbn [snd] in *; [subst x; change (zlen []) with 0 in Fl; lia|].
    subst x. rewrite F2. unfold zlen. rewrite znth_app_r by (unfold zlen; lia). unfold zlen. rewrite Z.sub_diag, znth_cons_0. done. }
  unfold buf. rewrite nulterminate_ends.
  assert (forall x, x ∈ ends c -> 0 <= index (s0 ++ [0]) x < zlen (s0 ++ [0])) as Hrange by (intros x Hx; apply Hends; done).
  pose proof (fun i => fold_zupd (ends c) (s0 ++ [0]) i Hrange) as Hfold.
  set (b := fold_left _ _ _) in *. destruct (Hfold 0) as [Hlen _].
  assert (index b q = zlen pre) as Hq by (unfold index; rewrite Hlen; by apply Hidx).
  assert (zlen s0 = zlen pre + zlen word + zlen e) as Hl0 by (rewrite E0, E1; unfold zlen; rewrite !length_app; lia).
  assert (s0 = (pre ++ word) ++ e) as E2 by (rewrite <- app_assoc, <- E1; done).
  rewrite Hq. apply string_at_word.
  - unfold zlen. lia.
  - rewrite Hlen. unfold zlen in *. rewrite (length_app s0). cbn [length]. lia.
  - eapply Forall_impl; [exact Hword|]. by intros x [? _].
  - intros j Hj. destruct (Hfold (zlen pre + j)) as [_ ->].
    assert (znth 0 (s0 ++ [0]) (zlen pre + j) = znth 0 word j /\ znth 0 s0 (zlen pre + j) = znth 0 word j) as [Ej1 Ej2].
    { assert (znth 0 s0 (zlen pre + j) = znth 0 word j) as Ej.
      { rewrite E2, <- app_assoc, znth_app_r by lia. replace (zlen pre + j - zlen pre) with j by lia. by rewrite znth_app_l by lia. }
      split; [|done]. rewrite znth_app_l; [done|]. unfold zlen in *. lia. }
    rewrite bool_decide_eq_false_2; [done|]. intros (x & Ex & Hx)%list_elem_of_fmap. destruct (Hends x Hx) as [_ Hnw].
    rewrite <- Ex in Hnw. apply Hnw; [unfold zlen in *; lia|]. rewrite Ej2. rewrite Forall_forall in Hword. apply Hword.
    unfold znth. zcase (j <? 0); [lia|]. apply list_elem_of_In, nth_In. unfold zlen in Hj. lia.
  - destruct (Hfold (zlen pre + zlen word)) as [_ ->]. rewrite bool_decide_eq_true_2; [done|].
    apply list_elem_of_fmap. exists e. split; [|done]. rewrite (Hidx e _ E2). unfold zlen. rewrite length_app. lia.
Qed.

Lemma strings_ext f g c : words_ok (fun w => f w = g w) c -> strings f c = strings g c.
Proof.
  induction c as [argv|c IH q eq m fd|l IHl r IHr|l IHl r IHr|c IH]; cbn; intros H.
  - f_equal. induction H as [|w argv Hw _ IHa]; cbn; [done|]. by rewrite Hw, IHa.
  - destruct H as [H1 H2]. by rewrite IH, H2.
  - destruct H. by rewrite IHl, IHr.
  - destruct H. by rewrite IHl, IHr.
  - by rewrite IH.
Qed.

Lemma words_ends (P Q : list Z * list Z -> Prop) c : words_ok P c -> (forall w, P w -> w.2 ∈ ends c -> Q w) -> words_ok Q c.
Proof.
  induction c as [argv|c IH q eq m fd|l IHl r IHr|l IHl r IHr|c IH]; cbn; intros H HQ.
  - apply Forall_forall. rewrite Forall_forall in H. intros w Hw. apply HQ; [by apply H|]. apply list_elem_of_fmap. by exists w.
  - destruct H as [H1 H2]. split; [apply IH; [done|]; intros w Hw Hin; apply HQ; [done|]; apply elem_of_app; by left|].
    apply HQ; [done|]. apply elem_of_app. right. by apply list_elem_of_singleton.
  - destruct H as [H1 H2]. split; [apply IHl|apply IHr]; try done; intros w Hw Hin; apply HQ; try done; apply elem_of_app; auto.
  - destruct H as [H1 H2]. split; [apply IHl|apply IHr]; try done; intros w Hw Hin; apply HQ; try done; apply elem_of_app; auto.
  - by apply IH.
Qed.

(** The command runcmd() sees is the one that was parsed. *)
Lemma load_strings s0 c : cstring s0 -> words_ok (word_ok s0) c ->
  load_cmd (nulterminate c (s0 ++ [0])) c = strings slice_of c.
Proof.
  intros Hs Hc. apply strings_ext. eapply words_ends; [exact Hc|]. intros w Hw Hin. by apply terminated.
Qed.
