(* ===== verification/ShSpec.v ===== *)
(** * The shell's grammar

    [unparse] writes a command as text, with parentheses where the grammar needs them; the
    parser of [Sh] reads the text back as the same command.  Then the theorems about the
    shell. *)
From S2P Require Import Prelude Kernel Fs Sys User Ulib Uprintf Sh.

(** ** Text *)

Inductive level := LLine | LBack | LPipe | LExec.

Definition space : Z := 32.
(** A symbol and a space. *)
Definition sym (c : ascii) : list Z := [chr c; space].
Definition paren (t : list Z) : list Z := sym "(" ++ t ++ sym ")".
Definition words (argv : list (list Z)) : list Z := concat (map (fun w => w ++ [space]) argv).

Definition O_CREATE_TRUNC : Z := Z.lor (Z.lor O_WRONLY O_CREATE) O_TRUNC.
Definition O_APPEND : Z := Z.lor O_WRONLY O_CREATE.

Definition redir (file : list Z) (mode fd : Z) : list Z :=
  (if mode =? O_RDONLY then sym "<" else if mode =? O_CREATE_TRUNC then sym ">" else chr ">" :: sym ">") ++ file ++ [space].

Fixpoint unparse (l : level) (c : scmd) : list Z :=
  match c with
  | SExec argv => words argv
  | SRedir c file mode fd => unparse LExec c ++ redir file mode fd
  | SPipe a b =>
      let t := unparse LExec a ++ sym "|" ++ unparse LPipe b in
      match l with LExec => paren t | _ => t end
  | SBack a =>
      let t := unparse LBack a ++ sym "&" in
      match l with LLine | LBack => t | _ => paren t end
  | SList a b =>
      let t := unparse LBack a ++ sym ";" ++ unparse LLine b in
      match l with LLine => t | _ => paren t end
  end.

(** Commands the grammar has: words of ordinary characters, fewer than MAXARGS of them,
    and the three redirections. *)
Definition word (w : list Z) : Prop := w <> [] /\ Forall is_word w.

Fixpoint wf (c : scmd) : Prop :=
  match c with
  | SExec argv => Forall word argv /\ zlen argv < MAXARGS
  | SRedir c file mode fd => wf c /\ word file /\
      (mode = O_RDONLY /\ fd = 0 \/ (mode = O_CREATE_TRUNC \/ mode = O_APPEND) /\ fd = 1)
  | SPipe a b | SList a b => wf a /\ wf b
  | SBack a => wf a
  end.

(** ** Tokens of the text *)

(** The text starts with one of the symbols, or is at its end. *)
Definition stops (toks : list Z) (s : list Z) : Prop :=
  s = [] \/ exists c r, s = c :: r /\ c ∈ toks /\ c ∈ symbols.

Definition clean (s : list Z) : Prop := skip s = s.

Lemma symbols_cstring : cstring symbols.
Proof. by apply cstring_check. Qed.

Lemma symbol_facts c : c ∈ symbols -> 0 < c < 256 /\ isin whitespace c = false /\ isin symbols c = true.
Proof.
  intros H. split; [pose proof symbols_cstring as Hs; unfold cstring in Hs; rewrite Forall_forall in Hs; by apply Hs|].
  split; [|by apply isin_spec; [apply symbols_cstring|]].
  change symbols with [60; 124; 62; 38; 59; 40; 41] in H. repeat (apply elem_of_cons in H as [->|H]; [done|]). by apply elem_of_nil in H.
Qed.

Lemma clean_stops toks s : stops toks s -> clean s.
Proof.
  intros [->|(c & r & -> & _ & Hs)]; [done|]. destruct (symbol_facts c Hs) as (_ & H & _). unfold clean. cbn [skip]. by rewrite H.
Qed.

Lemma clean_word w s : word w -> clean (w ++ s).
Proof.
  intros [Hne Hw]. destruct w as [|c w]; [done|]. apply Forall_cons in Hw as [(_ & H & _) _]. unfold clean. cbn [app skip]. by rewrite H.
Qed.

Lemma clean_symbol c s : c ∈ symbols -> clean (c :: s).
Proof. intros H. destruct (symbol_facts c H) as (_ & E & _). unfold clean. cbn [skip]. by rewrite E. Qed.

Lemma peek_nil toks : peek [] toks = (false, []).
Proof. done. Qed.

Lemma peek_clean c s toks : clean (c :: s) -> 0 < c -> peek (c :: s) toks = (isin toks c, c :: s).
Proof. intros Hc H. unfold peek. rewrite Hc. cbn [deref]. unfold truth. zcase (c =? 0); [lia|]. done. Qed.

(** peek() for symbols other than the one the text stops at. *)
Lemma peek_no toks' toks s : stops toks s -> cstring toks' -> (forall c, c ∈ toks -> c ∉ toks') -> peek s toks' = (false, s).
Proof.
  intros [->|(c & r & -> & Hc & Hs)] Ht Hno; [done|]. destruct (symbol_facts c Hs) as (H1 & _ & _).
  rewrite peek_clean; [|by apply clean_symbol|lia]. f_equal. apply not_true_is_false. rewrite isin_spec by done. by apply Hno.
Qed.

Lemma peek_word toks w s : word w -> cstring toks -> (forall c, c ∈ toks -> c ∈ symbols) -> peek (w ++ s) toks = (false, w ++ s).
Proof.
  intros Hw Ht Hno. pose proof (clean_word w s Hw) as Hcl. destruct Hw as [Hne Hw]. destruct w as [|c w]; [done|].
  apply Forall_cons in Hw as [(H1 & H2 & H3) _]. cbn [app] in *. rewrite peek_clean; [|done|lia]. f_equal.
  apply not_true_is_false. rewrite isin_spec by done. intros Hin%Hno. apply (isin_spec _ _ symbols_cstring) in Hin. congruence.
Qed.

Lemma skip_space s : clean s -> skip (space :: s) = s.
Proof. intros H. done. Qed.

Lemma gettoken_sym c s : clean s -> isin (str "|();&<") c = true -> c ∈ symbols ->
  gettoken (c :: space :: s) = (c, c :: space :: s, space :: s, s).
Proof.
  intros Hs Hc Hsym. unfold gettoken. cbv zeta. rewrite !(clean_symbol c _ Hsym), Hc. by rewrite skip_space.
Qed.

Lemma gt_symbol : chr ">" ∈ symbols.
Proof. change symbols with [60; 124; 62; 38; 59; 40; 41]. change (chr ">") with 62. right. right. left. Qed.

Lemma gettoken_gt s : clean s -> gettoken (chr ">" :: space :: s) = (chr ">", chr ">" :: space :: s, space :: s, s).
Proof.
  intros Hs. unfold gettoken. cbv zeta. rewrite !(clean_symbol (chr ">") _ gt_symbol). change (isin _ (chr ">")) with false.
  rewrite Z.eqb_refl. change (deref (space :: s) =? chr ">") with false. cbv iota. by rewrite skip_space.
Qed.

Lemma gettoken_gtgt s : clean s -> gettoken (chr ">" :: chr ">" :: space :: s) = (chr "+", chr ">" :: chr ">" :: space :: s, space :: s, s).
Proof.
  intros Hs. unfold gettoken. cbv zeta. rewrite !(clean_symbol (chr ">") _ gt_symbol). change (isin _ (chr ">")) with false.
  rewrite Z.eqb_refl. change (deref (chr ">" :: space :: s) =? chr ">") with true. cbv iota. cbn [tail]. by rewrite skip_space.
Qed.

Lemma word_end_word w s : Forall is_word w -> word_end (w ++ space :: s) = space :: s.
Proof.
  induction w as [|c w IH]; intros Hw; [done|]. apply Forall_cons in Hw as [(_ & H1 & H2) Hw]. cbn [app word_end].
  rewrite H1, H2. by apply IH.
Qed.

Lemma gettoken_text w s : word w -> clean s -> gettoken (w ++ space :: s) = (chr "a", w ++ space :: s, space :: s, s).
Proof.
  intros Hw Hs. unfold gettoken. cbv zeta. rewrite !(clean_word w _ Hw). destruct Hw as [Hne Hw]. rewrite (word_end_word w s Hw).
  destruct w as [|c w]; [done|]. apply Forall_cons in Hw as [(_ & _ & H2) _]. cbn [app].
  assert (c ∉ symbols) as Hn by (rewrite <- isin_spec by apply symbols_cstring; congruence).
  destruct (isin (str "|();&<") c) eqn:E1.
  { exfalso. apply Hn. apply isin_spec in E1; [|by apply cstring_check]. revert E1.
    change symbols with [60; 124; 62; 38; 59; 40; 41]. change (str "|();&<") with [124; 40; 41; 59; 38; 60]. rewrite !elem_of_cons. intuition. }
  zcase (c =? chr ">") as E2; [exfalso; apply Hn; subst; apply gt_symbol|].
  by rewrite skip_space.
Qed.

(** ** Redirections *)

Definition rdir : Type := list Z * Z * Z.
Definition rtext (rs : list rdir) : list Z := concat (map (fun r => redir r.1.1 r.1.2 r.2) rs).
Definition wrap (c : scmd) (r : rdir) : scmd := SRedir c r.1.1 r.1.2 r.2.
Definition rok (r : rdir) : Prop :=
  word r.1.1 /\ (r.1.2 = O_RDONLY /\ r.2 = 0 \/ (r.1.2 = O_CREATE_TRUNC \/ r.1.2 = O_APPEND) /\ r.2 = 1).

(** The symbols that end a simple command. *)
Abbreviation ctl := (str "|)&;").

Lemma slice_word w s : slice_of (w ++ space :: s, space :: s) = w.
Proof.
  unfold slice_of. cbn [fst snd]. rewrite length_app. replace (_ + _ - _)%nat with (length w) by lia. apply take_app_length.
Qed.

Lemma lt_symbol : chr "<" ∈ symbols.
Proof. change symbols with [60; 124; 62; 38; 59; 40; 41]. left. Qed.

Lemma redir_head f m fd s : clean (redir f m fd ++ s) /\
  exists c r, redir f m fd ++ s = c :: r /\ 0 < c /\ isin (str "<>") c = true /\ isin ctl c = false /\ isin (str "(") c = false.
Proof.
  unfold redir. destruct (m =? O_RDONLY); [|destruct (m =? O_CREATE_TRUNC)]; cbn [sym app].
  - split; [apply clean_symbol, lt_symbol|]. by eexists _, _.
  - split; [apply clean_symbol, gt_symbol|]. by eexists _, _.
  - split; [apply clean_symbol, gt_symbol|]. by eexists _, _.
Qed.

Lemma clean_rtext rs s : clean s -> clean (rtext rs ++ s).
Proof.
  intros Hs. destruct rs as [|[[f m] fd] rs]; [done|]. unfold rtext. cbn [map concat]. rewrite <- app_assoc. apply redir_head.
Qed.

Lemma parseredirs_none k c s : peek s (str "<>") = (false, s) -> parseredirs k c s = POk c s.
Proof. intros H. destruct k; cbn [parseredirs]; by rewrite H. Qed.

Lemma parseredirs_one k c f m fd s : rok (f, m, fd) -> clean s ->
  exists q eq, parseredirs (S k) c (redir f m fd ++ s) = parseredirs k (Redir c q eq m fd) s /\ slice_of (q, eq) = f.
Proof.
  intros [Hf Hm] Hs. cbn [fst snd] in *. destruct (redir_head f m fd s) as (Hcl & c0 & r & E & H0 & Hin & _).
  cbn [parseredirs]. rewrite E, (peek_clean c0 r (str "<>")) by (congruence || done). rewrite Hin, <- E. clear c0 r E H0 Hin.
  exists (f ++ space :: s), (space :: s). split; [|apply slice_word].
  pose proof (clean_word f (space :: s) Hf) as Hfc. unfold redir in *.
  destruct Hm as [[-> ->]|[[-> | ->] ->]].
  - change (O_RDONLY =? O_RDONLY) with true. cbv iota. rewrite <- !app_assoc. cbn [app sym].
    rewrite (gettoken_sym (chr "<")) by (done || apply lt_symbol). rewrite (gettoken_text f s Hf Hs). done.
  - change (O_CREATE_TRUNC =? O_RDONLY) with false. rewrite Z.eqb_refl. cbv iota. rewrite <- !app_assoc. cbn [app sym].
    rewrite gettoken_gt by done. rewrite (gettoken_text f s Hf Hs). done.
  - change (O_APPEND =? O_RDONLY) with false. change (O_APPEND =? O_CREATE_TRUNC) with false. cbv iota. rewrite <- !app_assoc. cbn [app sym].
    rewrite gettoken_gtgt by done. rewrite (gettoken_text f s Hf Hs). done.
Qed.

Lemma parseredirs_text rs : forall k c s, Forall rok rs -> clean s -> peek s (str "<>") = (false, s) -> (length rs <= k)%nat ->
  exists c', parseredirs k c (rtext rs ++ s) = POk c' s /\ strings slice_of c' = fold_left wrap rs (strings slice_of c).
Proof.
  induction rs as [|[[f m] fd] rs IH]; intros k c s Hrs Hs Hp Hk.
  - exists c. split; [by apply parseredirs_none|done].
  - apply Forall_cons in Hrs as [Hr Hrs]. destruct k as [|k]; [cbn in Hk; lia|].
    unfold rtext. cbn [map concat fst snd]. fold (rtext rs). rewrite <- app_assoc.
    destruct (parseredirs_one k c f m fd (rtext rs ++ s) Hr (clean_rtext rs s Hs)) as (q & eq & -> & Eq).
    destruct (IH k (Redir c q eq m fd) s Hrs Hs Hp) as (c' & -> & Ec); [cbn in Hk; lia|].
    exists c'. split; [done|]. rewrite Ec. cbn [strings fold_left wrap fst snd]. by rewrite Eq.
Qed.

(** ** Simple commands *)

Lemma ctl_cstring : cstring ctl.
Proof. by apply cstring_check. Qed.

Lemma ctl_symbols c : c ∈ ctl -> c ∈ symbols.
Proof.
  change ctl with [124; 41; 38; 59]. change symbols with [60; 124; 62; 38; 59; 40; 41]. rewrite !elem_of_cons. intuition.
Qed.

Lemma peek_ctl s : stops ctl s -> s <> [] -> peek s ctl = (true, s).
Proof.
  intros [->|(c & r & -> & Hc & Hs)] Hne; [done|]. destruct (symbol_facts c Hs) as (H1 & _ & _).
  rewrite peek_clean; [|by apply clean_symbol|lia]. f_equal. by apply isin_spec; [apply ctl_cstring|].
Qed.

Lemma stops_no_redir s : stops ctl s -> peek s (str "<>") = (false, s).
Proof.
  intros H. apply (peek_no _ ctl); [done|by apply cstring_check|]. intros c.
  change ctl with [124; 41; 38; 59]. change (str "<>") with [60; 62]. rewrite !elem_of_cons, !elem_of_nil. intuition lia.
Qed.

Lemma parseargs_stop k argc ret s : stops ctl s -> parseargs k argc ret s = POk ret s.
Proof.
  intros H. destruct s as [|c r].
  - by destruct k.
  - destruct k; cbn [parseargs]; by rewrite (peek_ctl _ H).
Qed.

Lemma clean_words argv s : Forall word argv -> clean s -> clean (words argv ++ s).
Proof.
  intros Ha Hs. destruct argv as [|w argv]; [done|]. apply Forall_cons in Ha as [Hw _]. unfold words. cbn [map concat].
  rewrite <- !app_assoc. by apply clean_word.
Qed.

Lemma length_rtext rs : (length rs <= length (rtext rs))%nat.
Proof.
  induction rs as [|[[f m] fd] rs IH]; [done|]. unfold rtext in *. cbn [map concat length fst snd]. rewrite length_app.
  destruct (redir_head f m fd []) as (_ & c & r & E & _). rewrite app_nil_r in E. rewrite E. cbn [length]. lia.
Qed.

(** One argument. *)
Lemma parseargs_one k argc a w s : word w -> clean s -> argc + 1 < MAXARGS ->
  parseargs (S k) argc (Exec a) (w ++ space :: s) =
  pthen (parseredirs (S (length s)) (Exec (a ++ [(w ++ space :: s, space :: s)])) s) (fun ret s => parseargs k (argc + 1) ret s).
Proof.
  intros Hw Hs Hn. cbn [parseargs]. rewrite (peek_word ctl w) by (done || apply ctl_cstring || apply ctl_symbols).
  rewrite (gettoken_text w s Hw Hs). change (chr "a" =? 0) with false. change (negb (chr "a" =? chr "a")) with false. cbv iota.
  zcase (MAXARGS <=? argc + 1) as Em; [lia|]. done.
Qed.

(** The arguments, the redirections after the last of them, and the end of the command. *)
Lemma parseargs_words argv : forall w k argc a rs s, Forall word (w :: argv) -> Forall rok rs -> stops ctl s ->
  zlen argv + 1 + argc < MAXARGS -> 0 <= argc -> zlen argv + 1 <= Z.of_nat k ->
  exists c', parseargs k argc (Exec a) (words (w :: argv) ++ rtext rs ++ s) = POk c' s /\
    strings slice_of c' = fold_left wrap rs (SExec (map slice_of a ++ w :: argv)).
Proof.
  induction argv as [|w2 argv IH]; intros w k argc a rs s Hw Hrs Hs Hlen Hargc Hk; apply Forall_cons in Hw as [Hw Hargv].
  all: pose proof (clean_stops _ _ Hs) as Hcs; pose proof (clean_rtext rs s Hcs) as Hcr.
  all: unfold words; cbn [map concat]; destruct k as [|k]; [unfold zlen in Hk; lia|].
  - change (zlen (@nil (list Z))) with 0 in *. rewrite app_nil_r, <- app_assoc. cbn [app].
    rewrite parseargs_one by (done || lia).
    destruct (parseredirs_text rs (S (length (rtext rs ++ s))) (Exec (a ++ [(w ++ space :: rtext rs ++ s, space :: rtext rs ++ s)])) s Hrs Hcs
      (stops_no_redir s Hs)) as (c' & -> & Ec); [rewrite length_app; pose proof (length_rtext rs); lia|].
    cbn [pthen]. rewrite parseargs_stop by done. exists c'. split; [done|]. rewrite Ec. cbn [strings]. rewrite map_app. cbn [map]. by rewrite slice_word.
  - assert (zlen (w2 :: argv) = zlen argv + 1) as El by (unfold zlen; cbn [length]; lia). rewrite El in *.
    assert (0 <= zlen argv) as Hz by (unfold zlen; lia).
    pose proof (clean_words (w2 :: argv) (rtext rs ++ s) Hargv Hcr) as Hcw.
    change ((w2 ++ [space]) ++ concat (map (fun w0 => w0 ++ [space]) argv)) with (words (w2 :: argv)).
    rewrite <- app_assoc, <- app_assoc. cbn [app]. rewrite parseargs_one by (done || lia).
    assert (peek (words (w2 :: argv) ++ rtext rs ++ s) (str "<>") = (false, words (w2 :: argv) ++ rtext rs ++ s)) as Hp.
    { unfold words. cbn [map concat]. rewrite <- !app_assoc. apply peek_word; [by apply Forall_cons in Hargv as [? _]|by apply cstring_check|].
      intros c. change symbols with [60; 124; 62; 38; 59; 40; 41]. change (str "<>") with [60; 62]. rewrite !elem_of_cons. intuition. }
    rewrite parseredirs_none by done. cbn [pthen].
    destruct (IH w2 k (argc + 1) (a ++ [(w ++ space :: words (w2 :: argv) ++ rtext rs ++ s, space :: words (w2 :: argv) ++ rtext rs ++ s)]) rs s)
      as (c' & -> & Ec); [done|done|done|lia|lia|lia|].
    exists c'. split; [done|]. rewrite Ec, map_app. cbn [map]. by rewrite slice_word, <- app_assoc.
Qed.

(** A simple command at parseexec(). *)
Lemma parseexec_simple n argv rs s : Forall word argv -> zlen argv < MAXARGS -> Forall rok rs -> stops ctl s ->
  exists c', parseexec (S n) (words argv ++ rtext rs ++ s) = POk c' s /\ strings slice_of c' = fold_left wrap rs (SExec argv).
Proof.
  intros Hargv Hlen Hrs Hs. pose proof (clean_stops _ _ Hs) as Hcs. pose proof (clean_rtext rs s Hcs) as Hcr.
  assert (forall c, c ∈ str "(" -> c ∈ symbols) as Hpar.
  { intros c Hc%list_elem_of_singleton. subst. change symbols with [60; 124; 62; 38; 59; 40; 41]. change (chr "(") with 40. rewrite !elem_of_cons. intuition. }
  cbn [parseexec]. destruct argv as [|w argv].
  - cbn [words map concat app]. assert (peek (rtext rs ++ s) (str "(") = (false, rtext rs ++ s)) as ->.
    { destruct rs as [|[[f m] fd] rs].
      - apply (peek_no _ ctl); [done|by apply cstring_check|]. intros c. change ctl with [124; 41; 38; 59]. change (str "(") with [40].
        rewrite !elem_of_cons, !elem_of_nil. intuition lia.
      - unfold rtext. cbn [map concat fst snd]. rewrite <- app_assoc.
        destruct (redir_head f m fd (concat (map (fun r => redir r.1.1 r.1.2 r.2) rs) ++ s)) as (Hcl & c & r & E & H0 & _ & _ & Hin).
        rewrite E in *. rewrite peek_clean by done. by rewrite Hin. }
    destruct (parseredirs_text rs (S (length (rtext rs ++ s))) (Exec []) s Hrs Hcs (stops_no_redir s Hs)) as (c' & -> & Ec);
      [rewrite length_app; pose proof (length_rtext rs); lia|].
    cbn [pthen]. rewrite parseargs_stop by done. by exists c'.
  - assert (word w) as Hw by (by apply Forall_cons in Hargv as [? _]).
    assert (forall toks, cstring toks -> (forall c, c ∈ toks -> c ∈ symbols) ->
      peek (words (w :: argv) ++ rtext rs ++ s) toks = (false, words (w :: argv) ++ rtext rs ++ s)) as Hp.
    { intros toks Ht Hsub. unfold words. cbn [map concat]. rewrite <- !app_assoc. by apply peek_word. }
    rewrite Hp by (by apply cstring_check || done). cbv iota.
    rewrite parseredirs_none. 2: { apply Hp; [by apply cstring_check|]. intros c. change symbols with [60; 124; 62; 38; 59; 40; 41]. change (str "<>") with [60; 62]. rewrite !elem_of_cons. intuition. }
    cbn [pthen]. assert (zlen (w :: argv) = zlen argv + 1) as El by (unfold zlen; cbn [length]; lia).
    apply parseargs_words; try done; unfold MAXARGS in *; lia.
Qed.

(** ** The levels of the grammar *)

(** [P] reads the text [t] as the command [c] before any of the symbols [toks]. *)
Definition reads (P : nat -> list Z -> pres cmd) (toks : list Z) (b : nat) (t : list Z) (c : scmd) : Prop :=
  forall n s, stops toks s -> (4 * length (t ++ s) + b <= n)%nat ->
  exists c', P n (t ++ s) = POk c' s /\ strings slice_of c' = c.

Abbreviation reads_line c := (reads parseline (str ")") 4 (unparse LLine c) c).
Abbreviation reads_pipe c := (reads parsepipe (str ")&;") 3 (unparse LPipe c) c).
Abbreviation reads_exec c := (reads parseexec ctl 2 (unparse LExec c) c).

Lemma stops_mono toks toks' s : (forall c, c ∈ toks -> c ∈ toks') -> stops toks s -> stops toks' s.
Proof. intros H [->|(c & r & -> & Hc & Hs)]; [by left|right]. exists c, r. auto. Qed.

Lemma stops_sym toks c s : chr c ∈ toks -> chr c ∈ symbols -> stops toks (sym c ++ s).
Proof. intros. right. by eexists _, _. Qed.

Lemma clean_unparse c : wf c -> forall l s, clean s -> clean (unparse l c ++ s).
Proof.
  assert (forall t s, clean (paren t ++ s)) as Hpar.
  { intros t s. unfold paren. cbn [sym app]. apply clean_symbol. change symbols with [60; 124; 62; 38; 59; 40; 41]. change (chr "(") with 40. rewrite !elem_of_cons. intuition. }
  assert (forall a s, a ∈ [chr "|"; chr "&"; chr ";"] -> clean (a :: space :: s)) as Hsym.
  { intros a s Ha. apply clean_symbol. revert Ha. change symbols with [60; 124; 62; 38; 59; 40; 41]. change [chr "|"; chr "&"; chr ";"] with [124; 38; 59]. rewrite !elem_of_cons, !elem_of_nil. intuition. }
  induction c as [argv|c IH f m fd|a IHa b IHb|a IHa b IHb|a IHa]; cbn [wf unparse]; intros Hwf l s Hs.
  - destruct Hwf. by apply clean_words.
  - destruct Hwf as (H1 & _). rewrite <- app_assoc. apply IH; [done|]. apply redir_head.
  - destruct Hwf. assert (clean ((unparse LExec a ++ sym "|" ++ unparse LPipe b) ++ s)); [|by destruct l].
    rewrite <- !app_assoc. apply IHa; [done|]. cbn [sym app]. apply Hsym. left.
  - destruct Hwf. assert (clean ((unparse LBack a ++ sym ";" ++ unparse LLine b) ++ s)); [|by destruct l].
    rewrite <- !app_assoc. apply IHa; [done|]. cbn [sym app]. apply Hsym. right. right. left.
  - assert (clean ((unparse LBack a ++ sym "&") ++ s)); [|by destruct l].
    rewrite <- !app_assoc. apply IHa; [done|]. cbn [sym app]. apply Hsym. right. left.
Qed.

(** A symbol of the text. *)
Lemma peek_sym c toks s : chr c ∈ symbols -> isin toks (chr c) = true -> peek (sym c ++ s) toks = (true, sym c ++ s).
Proof.
  intros Hs Hin. cbn [sym app]. destruct (symbol_facts _ Hs) as (H1 & _). rewrite peek_clean; [by rewrite Hin|by apply clean_symbol|lia].
Qed.

Lemma in_symbols a : a ∈ [chr "|"; chr "&"; chr ";"; chr "("; chr ")"] -> a ∈ symbols /\ isin (str "|();&<") a = true.
Proof.
  intros H. repeat (apply elem_of_cons in H as [->|H]; [split; [|done]; change symbols with [60; 124; 62; 38; 59; 40; 41]; cbv - [elem_of symbols]; rewrite !elem_of_cons; intuition|]).
  by apply elem_of_nil in H.
Qed.

(** gettoken() over a symbol of the text. *)
Lemma token_sym c s : clean s -> chr c ∈ [chr "|"; chr "&"; chr ";"; chr "("; chr ")"] ->
  gettoken (sym c ++ s) = (chr c, sym c ++ s, space :: s, s).
Proof. intros Hs Hc. destruct (in_symbols _ Hc) as [H1 H2]. by apply gettoken_sym. Qed.

Ltac in_list := cbv - [elem_of]; rewrite ?elem_of_cons; intuition.

(** A parenthesised line with redirections after it. *)
Lemma reads_block c rs : wf c -> Forall rok rs -> reads_line c ->
  reads parseexec ctl 2 (paren (unparse LLine c) ++ rtext rs) (fold_left wrap rs c).
Proof.
  intros Hwf Hrs Hl n s Hs Hn. pose proof (clean_stops _ _ Hs) as Hcs. pose proof (clean_rtext rs s Hcs) as Hcr.
  unfold paren in *. rewrite <- !app_assoc in *. set (t := unparse LLine c) in *. set (r := rtext rs ++ s) in *.
  assert (clean (sym ")" ++ r)) as Hc1 by (apply clean_symbol, in_symbols; in_list).
  assert (clean (t ++ sym ")" ++ r)) as Hc2 by by apply clean_unparse.
  destruct n as [|[|n]]; [lia|lia|]. cbn [parseexec]. rewrite peek_sym by (first [done|apply in_symbols; in_list]). cbv iota.
  cbn [parseblock]. rewrite peek_sym by (first [done|apply in_symbols; in_list]). cbn [negb]. rewrite token_sym by (done || in_list).
  destruct (Hl n (sym ")" ++ r)) as (c' & -> & Ec).
  { apply stops_sym; [in_list|apply in_symbols; in_list]. }
  { rewrite length_app in Hn. change (length (sym "(")) with 2%nat in Hn. fold t. lia. }
  cbn [pthen]. rewrite peek_sym by (first [done|apply in_symbols; in_list]). cbn [negb]. rewrite token_sym by (done || in_list).
  destruct (parseredirs_text rs (S (length r)) c' s Hrs Hcs (stops_no_redir s Hs)) as (c'' & R & Ec'').
  { unfold r. rewrite length_app. pose proof (length_rtext rs). lia. }
  fold r in R. rewrite R.
  exists c''. split; [done|]. by rewrite Ec'', Ec.
Qed.

(** parsepipe() on a command that is not a pipe. *)
Lemma reads_pipe_exec c t : reads parseexec ctl 2 t c -> reads parsepipe (str ")&;") 3 t c.
Proof.
  intros H n s Hs Hn. destruct n as [|n]; [lia|]. cbn [parsepipe].
  assert (stops ctl s) as Hs'. { eapply stops_mono; [|exact Hs]. intros c0. change ctl with [124; 41; 38; 59]. change (str ")&;") with [41; 38; 59]. rewrite !elem_of_cons. intuition. }
  destruct (H n s Hs') as (c' & -> & Ec); [lia|]. cbn [pthen].
  rewrite (peek_no _ (str ")&;")); [by exists c'|done|by apply cstring_check|].
  intros c0. change (str "|") with [124]. change (str ")&;") with [41; 38; 59]. rewrite !elem_of_cons, !elem_of_nil. intuition lia.
Qed.

Lemma reads_pipe_pipe a b : wf b -> reads_exec a -> reads_pipe b -> reads_pipe (SPipe a b).
Proof.
  intros Hb Ha Hrb n s Hs Hn. destruct n as [|n]; [lia|]. cbn [parsepipe unparse] in *. rewrite <- !app_assoc in *.
  pose proof (clean_stops _ _ Hs) as Hcs. pose proof (clean_unparse b Hb LPipe s Hcs) as Hcb.
  destruct (Ha n (sym "|" ++ unparse LPipe b ++ s)) as (c1 & -> & E1); [apply stops_sym; [in_list|apply in_symbols; in_list]|lia|].
  cbn [pthen]. rewrite peek_sym by (first [done|apply in_symbols; in_list]). cbv iota. rewrite token_sym by (done || in_list).
  destruct (Hrb n s Hs) as (c2 & -> & E2); [rewrite !length_app in *; change (length (sym "|")) with 2%nat in Hn; lia|].
  exists (Pipe c1 c2). split; [done|]. cbn. by rewrite E1, E2.
Qed.

(** Ampersands. *)
Fixpoint unback (c : scmd) : scmd := match c with SBack a => unback a | _ => c end.
Fixpoint backs (c : scmd) : nat := match c with SBack a => S (backs a) | _ => O end.
Fixpoint times {A} (m : nat) (f : A -> A) (x : A) : A := match m with O => x | S m' => f (times m' f x) end.
Definition ands (m : nat) : list Z := concat (repeat (sym "&") m).

Lemma unparse_backs c : unparse LBack c = unparse LPipe (unback c) ++ ands (backs c) /\ times (backs c) SBack (unback c) = c.
Proof.
  induction c as [argv|c IH f m fd|a IHa b IHb|a IHa b IHb|a IHa]; try (cbn; by rewrite app_nil_r).
  destruct IHa as [E1 E2]. cbn [unparse unback backs]. split; [|cbn; by rewrite E2]. rewrite E1, <- app_assoc. f_equal.
  unfold ands. rewrite <- (Nat.add_1_r (backs a)), repeat_app, concat_app. done.
Qed.

Lemma iter_shift {A} (f : A -> A) m x : times m f (f x) = f (times m f x).
Proof. induction m as [|m IH]; [done|]. cbn. by rewrite IH. Qed.

Lemma parseback_ands m : forall k c s, clean s -> peek s (str "&") = (false, s) -> (m <= k)%nat ->
  parseback k c (ands m ++ s) = POk (times m Back c) s.
Proof.
  induction m as [|m IH]; intros k c s Hs Hp Hk.
  - destruct k; cbn [parseback ands repeat concat app]; by rewrite Hp.
  - destruct k as [|k]; [lia|]. unfold ands. cbn [repeat concat]. fold (ands m). rewrite <- app_assoc. cbn [parseback].
    assert (clean (ands m ++ s)) as Hc.
    { destruct m; [done|]. unfold ands. cbn [repeat concat]. rewrite <- app_assoc. apply clean_symbol, in_symbols. in_list. }
    rewrite peek_sym by (first [done|apply in_symbols; in_list]). cbv iota. rewrite token_sym by (done || in_list).
    rewrite IH by (done || lia). cbn [times]. by rewrite iter_shift.
Qed.

Lemma iter_back_strings m c : strings slice_of (times m Back c) = times m SBack (strings slice_of c).
Proof. induction m as [|m IH]; [done|]. cbn. by rewrite IH. Qed.

Lemma length_ands m : (m <= length (ands m))%nat.
Proof. induction m as [|m IH]; [done|]. unfold ands in *. cbn [repeat concat]. rewrite length_app. cbn. lia. Qed.

(** The part of parseline() before the semicolon. *)
Lemma reads_backs c n s : reads_pipe (unback c) -> stops (str ");") s -> (4 * length (unparse LBack c ++ s) + 3 <= n)%nat ->
  exists c', pthen (parsepipe n (unparse LBack c ++ s)) (fun c s => parseback (S (length s)) c s) = POk c' s /\ strings slice_of c' = c.
Proof.
  intros Hp Hs Hn. destruct (unparse_backs c) as [E1 E2]. rewrite E1 in *. rewrite <- app_assoc in *.
  pose proof (clean_stops _ _ Hs) as Hcs.
  destruct (Hp n (ands (backs c) ++ s)) as (c1 & -> & Ec); [|lia|].
  { destruct (backs c) as [|m]; [cbn; eapply stops_mono; [|exact Hs]; intros a; in_list|].
    unfold ands. cbn [repeat concat]. rewrite <- app_assoc. apply stops_sym; [in_list|apply in_symbols; in_list]. }
  cbn [pthen]. rewrite parseback_ands; [|done| |].
  - eexists. split; [reflexivity|]. rewrite iter_back_strings, Ec. exact E2.
  - apply (peek_no _ (str ");")); [done|by apply cstring_check|].
    intros a. change (str "&") with [38]. change (str ");") with [41; 59]. rewrite !elem_of_cons, !elem_of_nil. intuition lia.
  - rewrite length_app. pose proof (length_ands (backs c)). lia.
Qed.

Lemma pthen_assoc {A B C} (r : pres A) (f : A -> list Z -> pres B) (g : B -> list Z -> pres C) :
  pthen (pthen r f) g = pthen r (fun a s => pthen (f a s) g).
Proof. by destruct r. Qed.

(** parseline() on a command that is not a list, and on a list. *)
Lemma reads_line_back c : reads_pipe (unback c) -> unparse LLine c = unparse LBack c -> reads_line c.
Proof.
  intros Hp E n s Hs Hn. rewrite E in *. destruct n as [|n]; [lia|]. cbn [parseline].
  assert (stops (str ");") s) as Hs' by (eapply stops_mono; [|exact Hs]; intros a; in_list).
  destruct (reads_backs c n s Hp Hs') as (c' & R & Ec); [lia|].
  rewrite <- pthen_assoc, R. cbn [pthen]. rewrite (peek_no _ (str ")")); [by exists c'|done|by apply cstring_check|].
  intros a. change (str ";") with [59]. change (str ")") with [41]. rewrite !elem_of_cons, !elem_of_nil. intuition lia.
Qed.

Lemma reads_line_list a b : wf b -> reads_pipe (unback a) -> reads_line b -> reads_line (SList a b).
Proof.
  intros Hb Hp Hl n s Hs Hn. cbn [unparse] in *. rewrite <- !app_assoc in *. destruct n as [|n]; [lia|]. cbn [parseline].
  pose proof (clean_stops _ _ Hs) as Hcs. pose proof (clean_unparse b Hb LLine s Hcs) as Hcb.
  destruct (reads_backs a n (sym ";" ++ unparse LLine b ++ s) Hp) as (c1 & R & E1); [apply stops_sym; [in_list|apply in_symbols; in_list]|lia|].
  rewrite <- pthen_assoc, R. cbn [pthen]. rewrite peek_sym by (first [done|apply in_symbols; in_list]). cbv iota.
  rewrite token_sym by (done || in_list).
  destruct (Hl n s Hs) as (c2 & -> & E2); [rewrite !length_app in *; change (length (sym ";")) with 2%nat in Hn; lia|].
  exists (List c1 c2). split; [done|]. cbn. by rewrite E1, E2.
Qed.

(** ** Every command *)

Fixpoint core (c : scmd) : scmd := match c with SRedir c' _ _ _ => core c' | _ => c end.
Fixpoint rdirs (c : scmd) : list rdir := match c with SRedir c' f m fd => rdirs c' ++ [(f, m, fd)] | _ => [] end.

Lemma peel c : unparse LExec c = unparse LExec (core c) ++ rtext (rdirs c) /\ fold_left wrap (rdirs c) (core c) = c /\
  (wf c -> Forall rok (rdirs c) /\ wf (core c)).
Proof.
  induction c as [argv|c IH f m fd|a IHa b IHb|a IHa b IHb|a IHa]; cbn [core rdirs unparse]; try (unfold rtext; cbn; by rewrite app_nil_r).
  destruct IH as (E1 & E2 & E3). split; [|split].
  - rewrite E1, <- app_assoc. f_equal. unfold rtext. rewrite map_app, concat_app. cbn. by rewrite app_nil_r.
  - rewrite fold_left_app, E2. done.
  - intros (H1 & H2 & H3). destruct (E3 H1) as [H4 H5]. split; [|done]. apply Forall_app. split; [done|]. by apply Forall_singleton.
Qed.

Fixpoint size (c : scmd) : nat :=
  match c with
  | SExec _ => 1
  | SRedir c _ _ _ | SBack c => S (size c)
  | SPipe a b | SList a b => S (size a + size b)
  end.

Lemma size_core c : (size (core c) <= size c)%nat.
Proof. induction c; cbn; lia. Qed.
Lemma size_unback c : (size (unback c) <= size c)%nat.
Proof. induction c; cbn; lia. Qed.
Lemma wf_unback c : wf c -> wf (unback c).
Proof. induction c; cbn; auto. Qed.

(** A simple command, or a block, with its redirections. *)
Lemma reads_peeled c : wf c -> (match core c with SExec _ => True | _ => reads_line (core c) end) -> reads_exec c.
Proof.
  intros Hwf Hl. destruct (peel c) as (E1 & E2 & E3). destruct (E3 Hwf) as [Hrs Hcore]. rewrite E1.
  destruct (core c) as [argv| | | |] eqn:Ec; cbn [unparse wf] in *.
  - intros n s Hs Hn. destruct n as [|n]; [lia|]. rewrite <- app_assoc. destruct Hcore.
    destruct (parseexec_simple n argv (rdirs c) s) as (c' & R & E'); [done..|]. exists c'. by rewrite E', E2.
  - exfalso. clear -Ec. revert Ec. induction c; cbn; try done.
  - pose proof (reads_block (SPipe _ _) (rdirs c) Hcore Hrs Hl) as R. rewrite E2 in R. exact R.
  - pose proof (reads_block (SList _ _) (rdirs c) Hcore Hrs Hl) as R. rewrite E2 in R. exact R.
  - pose proof (reads_block (SBack _) (rdirs c) Hcore Hrs Hl) as R. rewrite E2 in R. exact R.
Qed.

Lemma reads_all n : forall c, (size c <= n)%nat -> wf c -> reads_exec c /\ reads_pipe c /\ reads_line c.
Proof.
  induction n as [|n IH]; intros c Hn Hwf; [destruct c; cbn in Hn; lia|].
  assert (forall t, reads parseexec ctl 2 t c -> reads parsepipe (str ")&;") 3 t c) as Hpe by (intros t; apply reads_pipe_exec).
  destruct c as [argv|c f m fd|a b|a b|a].
  - assert (reads_exec (SExec argv)) as He by by apply reads_peeled.
    assert (reads_pipe (SExec argv)) as Hp by by apply Hpe. split; [done|]. split; [done|]. by apply reads_line_back.
  - assert (reads_exec (SRedir c f m fd)) as He.
    { apply reads_peeled; [done|]. cbn [core]. pose proof (size_core c). cbn in Hn.
      destruct (peel c) as (_ & _ & Hw). destruct Hwf as (Hwf & _). destruct (Hw Hwf) as [_ Hwc].
      destruct (core c) eqn:Ec; [done|..]; apply IH; (done || lia). }
    assert (reads_pipe (SRedir c f m fd)) as Hp by by apply Hpe. split; [done|]. split; [done|]. by apply reads_line_back.
  - cbn in Hn. pose proof Hwf as [Ha Hb]. destruct (IH a ltac:(lia) Ha) as (Hea & _ & _). destruct (IH b ltac:(lia) Hb) as (_ & Hpb & _).
    assert (reads_pipe (SPipe a b)) as Hp by by apply reads_pipe_pipe.
    assert (reads_line (SPipe a b)) as Hl by by apply reads_line_back.
    split; [|done]. by apply reads_peeled.
  - cbn in Hn. pose proof Hwf as [Ha Hb]. pose proof (size_unback a).
    destruct (IH (unback a) ltac:(lia) (wf_unback a Ha)) as (_ & Hpa & _). destruct (IH b ltac:(lia) Hb) as (_ & _ & Hlb).
    assert (reads_line (SList a b)) as Hl by by apply reads_line_list.
    assert (reads_exec (SList a b)) as He by by apply reads_peeled. split; [done|]. split; [by apply Hpe|done].
  - cbn in Hn. pose proof (size_unback a).
    destruct (IH (unback a) ltac:(lia) (wf_unback a Hwf)) as (_ & Hpa & _).
    assert (reads_line (SBack a)) as Hl by (by apply reads_line_back).
    assert (reads_exec (SBack a)) as He by by apply reads_peeled. split; [done|]. split; [by apply Hpe|done].
Qed.

(** ** runcmd() *)

(** A program none of whose paths returns. *)
Inductive never_returns {A} : prog A -> Prop :=
| nr_vis X (e : sys X) k : (forall x, never_returns (k x)) -> never_returns (Vis e k)
| nr_halt st : never_returns (Halt st).

(** A program all of whose paths return or exit. *)
Inductive proper {A} : prog A -> Prop :=
| pr_ret a : proper (Ret a)
| pr_vis X (e : sys X) k : (forall x, proper (k x)) -> proper (Vis e k)
| pr_halt st : proper (Halt st).

Lemma never_bind {A B} (p : prog A) (f : A -> prog B) : proper p -> (forall a, never_returns (f a)) -> never_returns (pbind p f).
Proof. induction 1; intros Hf; cbn; [done|constructor; auto|constructor]. Qed.

Lemma never_bind_l {A B} (p : prog A) (f : A -> prog B) : never_returns p -> never_returns (pbind p f).
Proof. induction 1; cbn; constructor; auto. Qed.

Lemma proper_bind {A B} (p : prog A) (f : A -> prog B) : proper p -> (forall a, proper (f a)) -> proper (pbind p f).
Proof. induction 1; intros Hf; cbn; [done|constructor; auto|constructor]. Qed.

Lemma proper_never {A} (p : prog A) : never_returns p -> proper p.
Proof. induction 1; constructor; auto. Qed.

Lemma proper_call {X} (e : sys X) : proper (call e).
Proof. constructor. intros x. constructor. Qed.

Lemma proper_putc fd c : proper (putc fd c).
Proof. apply proper_bind; [apply proper_call|intros _; constructor]. Qed.

Lemma proper_putbuf fd l : proper (putbuf fd l).
Proof. induction l; cbn [putbuf]; [constructor|]. apply proper_bind; [apply proper_putc|done]. Qed.

(** The messages of the shell, each with one string. *)
Lemma proper_message fd fmt1 fmt2 s : Forall (fun c => Z.land c 255 = c /\ c <> chr "%") (fmt1 ++ fmt2) ->
  proper (vprintf fd (fmt1 ++ str "%s" ++ fmt2) [VStr s]).
Proof.
  intros Hf. apply Forall_app in Hf as [H1 H2]. unfold vprintf.
  assert (forall l, Forall (fun c => Z.land c 255 = c /\ c <> chr "%") l -> forall ap fmt,
    proper (vprintf_loop fd 0 fmt ap) -> proper (vprintf_loop fd 0 (l ++ fmt) ap)) as Htext.
  { induction l as [|c l IH]; intros Hl ap fmt Hp; [done|]. apply Forall_cons in Hl as [[E N] Hl]. cbn [app vprintf_loop]. rewrite E.
    change (0 =? 0) with true. cbv iota. zcase (c =? chr "%"); [done|]. apply proper_bind; [apply proper_putc|]. intros _. by apply IH. }
  apply Htext; [done|]. change (vprintf_loop fd 0 (str "%s" ++ fmt2) [VStr s]) with (pbind (putbuf fd (default null_string s)) (fun _ => vprintf_loop fd 0 fmt2 [])).
  apply proper_bind; [apply proper_putbuf|]. intros _. rewrite <- (app_nil_r fmt2). apply Htext; [done|constructor].
Qed.

Lemma never_panic {A} msg : never_returns (@panic A msg).
Proof.
  apply never_bind; [|constructor]. apply (proper_message 2 [] [newline]). apply Forall_singleton. done.
Qed.

Lemma proper_fork1 : proper fork1.
Proof.
  apply proper_bind; [apply proper_call|]. intros pid. destruct (pid =? -1); [apply proper_never, never_panic|constructor].
Qed.

Ltac calls := repeat first
  [ apply never_bind; [apply proper_call|intros ?]
  | apply never_bind; [apply proper_fork1|intros ?]
  | apply nr_halt ].

Lemma runcmd_never c : never_returns (runcmd c).
Proof.
  assert (forall msg a, Forall (fun c => Z.land c 255 = c /\ c <> chr "%") (msg.1 ++ msg.2) ->
    proper (fprintf 2 (msg.1 ++ str "%s" ++ msg.2) [VStr (Some a)])) as Hmsg by (intros msg a H; by apply proper_message).
  assert (forall (b : bool) (p : prog unit), never_returns p -> proper (if b then p else Ret tt)) as Hchild.
  { intros b p Hp. destruct b; [by apply proper_never|constructor]. }
  induction c as [argv|c IH file mode fd|l IHl r IHr|l IHl r IHr|c IH]; cbn [runcmd].
  - destruct argv as [|a argv]; [constructor|]. calls. apply never_bind; [|constructor].
    apply (Hmsg (str "exec ", str " failed" ++ [newline])). repeat (constructor; [done|]). constructor.
  - calls. destruct (_ <? 0).
    + apply never_bind; [|constructor]. apply (Hmsg (str "open ", str " failed" ++ [newline])). repeat (constructor; [done|]). constructor.
    + by apply never_bind_l.
  - calls. destruct a as [res [p0 p1]]. destruct (res <? 0); [apply never_panic|]. calls.
    apply never_bind; [apply Hchild|intros ?]. { apply never_bind; [|done]. repeat (apply proper_bind; [apply proper_call|intros ?]). constructor. }
    calls. apply never_bind; [apply Hchild|intros ?]. { apply never_bind; [|done]. repeat (apply proper_bind; [apply proper_call|intros ?]). constructor. }
    calls.
  - calls. apply never_bind; [by apply Hchild|intros ?]. calls. by apply never_bind_l.
  - calls. apply never_bind; [by apply Hchild|intros ?]. calls.
Qed.

Lemma cstring_word w : word w -> cstring (w ++ [space]).
Proof.
  intros [_ Hw]. apply Forall_app. split; [|by apply Forall_singleton]. eapply Forall_impl; [exact Hw|]. by intros c [? _].
Qed.

Lemma cstring_unparse c : wf c -> forall l, cstring (unparse l c).
Proof.
  assert (forall a b, cstring a -> cstring b -> cstring (a ++ b)) as Happ by (intros a b Ha Hb; apply Forall_app; done).
  assert (forall a, a ∈ ["|"%char; "&"%char; ";"%char; "("%char; ")"%char] -> cstring (sym a)) as Hsym.
  { intros a Ha. repeat (apply elem_of_cons in Ha as [->|Ha]; [by apply cstring_check|]). by apply elem_of_nil in Ha. }
  assert (forall t, cstring t -> cstring (paren t)) as Hpar by (intros t Ht; apply Happ; [|apply Happ]; try done; apply Hsym; in_list).
  induction c as [argv|c IH f m fd|a IHa b IHb|a IHa b IHb|a IHa]; cbn [wf unparse]; intros Hwf l.
  - destruct Hwf as [Hw _]. unfold words. induction Hw as [|w argv Hw _ IHw]; [constructor|]. cbn [map concat]. apply Happ; [by apply cstring_word|done].
  - destruct Hwf as (H1 & H2 & _). apply Happ; [by apply IH|]. unfold redir. apply Happ; [|by apply cstring_word].
    destruct (m =? O_RDONLY); [|destruct (m =? O_CREATE_TRUNC)]; by apply cstring_check.
  - destruct Hwf. assert (cstring (unparse LExec a ++ sym "|" ++ unparse LPipe b)); [|destruct l; auto].
    apply Happ; [by apply IHa|]. apply Happ; [apply Hsym; in_list|by apply IHb].
  - destruct Hwf. assert (cstring (unparse LBack a ++ sym ";" ++ unparse LLine b)); [|destruct l; auto].
    apply Happ; [by apply IHa|]. apply Happ; [apply Hsym; in_list|by apply IHb].
  - assert (cstring (unparse LBack a ++ sym "&")); [|destruct l; auto]. apply Happ; [by apply IHa|apply Hsym; in_list].
Qed.

(** ** The theorems *)

(** C20: the shell's parser reads back every command of its grammar: the text of a command,
    in parentheses where the grammar needs them, is parsed without leftovers, and the
    strings nulterminate() leaves in the line's buffer are the command's own. *)
Theorem parse_unparse c : wf c -> exists c', parsecmd (unparse LLine c) = POk c' [] /\
  load_cmd (nulterminate c' (unparse LLine c ++ [0])) c' = c.
Proof.
  intros Hwf. destruct (reads_all (size c) c (le_n _) Hwf) as (_ & _ & Hl).
  destruct (Hl (4 * length (unparse LLine c) + 4)%nat []) as (c' & R & Ec); [by left|rewrite app_nil_r; lia|]. rewrite app_nil_r in R.
  exists c'. assert (parsecmd (unparse LLine c) = POk c' []) as Hp by (unfold parsecmd; by rewrite R). split; [done|].
  pose proof (cstring_unparse c Hwf LLine) as Hcs. rewrite <- Ec at 2. apply load_strings; [done|]. pose proof (parsecmd_good _ Hcs) as Hg. rewrite Hp in Hg. apply Hg.
Qed.

(** C21: parsecmd() ends on every line, with a command or a message, and every argument and
    file name of the command it returns is, after nulterminate(), the C string at its
    pointer: no NUL lands inside another word. *)
Theorem parsecmd_total s : cstring s ->
  match parsecmd s with
  | POk c rest => left_of rest s /\ load_cmd (nulterminate c (s ++ [0])) c = strings slice_of c
  | PPanic _ => True
  | PFuel => False
  end.
Proof.
  intros Hs. pose proof (parsecmd_good s Hs) as Hg. destruct (parsecmd s) as [c rest| |]; [|done|done].
  destruct Hg as [Hl Hw]. split; [done|]. by apply load_strings.
Qed.

(** runcmd() does not return, as its declaration says: on every result of its system
    calls the process exits. *)
Theorem runcmd_noreturn c : never_returns (runcmd c).
Proof. apply runcmd_never. Qed.

(** [(ls | grep x) > y & ; echo hi] *)
Definition demo_cmd : scmd :=
  SList (SBack (SRedir (SPipe (SExec [str "ls"]) (SExec [str "grep"; str "x"])) (str "y") O_CREATE_TRUNC 1)) (SExec [str "echo"; str "hi"]).

Lemma demo_wf : wf demo_cmd.
Proof.
  assert (forall w, w <> [] -> forallb (fun c => bool_decide (is_word c)) w = true -> word w) as Hw.
  { intros w Hne H. split; [done|]. apply Forall_forall. intros c Hc. rewrite forallb_forall in H. apply list_elem_of_In in Hc.
    specialize (H c Hc). by apply bool_decide_eq_true_1 in H. }
  split; [split; [split|]|].
  - split; [|done]. apply Forall_singleton. by apply Hw.
  - split; [|done]. constructor; [by apply Hw|]. apply Forall_singleton. by apply Hw.
  - split; [by apply Hw|]. right. split; [by left|done].
  - split; [|done]. constructor; [by apply Hw|]. apply Forall_singleton. by apply Hw.
Qed.

Lemma parse_unparse_witness : exists c', parsecmd (unparse LLine demo_cmd) = POk c' [] /\
  load_cmd (nulterminate c' (unparse LLine demo_cmd ++ [0])) c' = demo_cmd.
Proof.
  destruct (parse_unparse demo_cmd demo_wf) as (c' & Hp & Hl). exists c'. split; [exact Hp|exact Hl].
Defined.

Lemma parsecmd_total_witness : match parsecmd (str "a b>c;") with POk c rest => left_of rest (str "a b>c;") | _ => False end.
Proof.
  pose proof (parsecmd_total (str "a b>c;") ltac:(apply cstring_check; vm_compute; reflexivity)) as H.
  assert (exists c rest, parsecmd (str "a b>c;") = POk c rest) as (c & rest & E) by (vm_compute; eexists _, _; reflexivity).
  rewrite E in *. apply H.
Defined.
