(* ===== verification/Umalloc.v ===== *)
(** * The memory allocator of user programs (user/umalloc.c)

    The headers of the allocator's blocks as a map from their addresses; a block of [size]
    units of 16 bytes starts with its header.  The free list is circular, in the order of
    the addresses, and starts at the static header [base].  The loops over it have fuel:
    one round for free(), two for malloc(). *)
From S2P Require Import Prelude Kernel Fs User.

(** union header *)
Record header := Hdr { hd_ptr : Z; hd_size : Z }.

(** The headers in memory, and [freep]. *)
Record heap := Heap { hp_mem : gmap Z header; freep : Z }.

Definition hdr (h : heap) (p : Z) : header := default (Hdr 0 0) (hp_mem h !! p).
Definition ptr (h : heap) (p : Z) : Z := hd_ptr (hdr h p).
Definition size (h : heap) (p : Z) : Z := hd_size (hdr h p).
Definition set_hdr (p : Z) (x : header) (h : heap) : heap := Heap (<[p := x]> (hp_mem h)) (freep h).
Definition set_ptr (p v : Z) (h : heap) : heap := set_hdr p (Hdr v (size h p)) h.
Definition set_size (p v : Z) (h : heap) : heap := set_hdr p (Hdr (ptr h p) v) h.
Definition set_freep (p : Z) (h : heap) : heap := Heap (hp_mem h) p.

(** [p + n] on a [Header*], and sizeof(Header). *)
Definition HDR : Z := 16.
Definition padd (p n : Z) : Z := p + HDR * n.

(** The place of a block in the free list. *)
Fixpoint free_loop (fuel : nat) (h : heap) (bp p : Z) : option Z :=
  match fuel with
  | O => None
  | S f =>
      if (p <? bp) && (bp <? ptr h p) then Some p
      else if (ptr h p <=? p) && ((p <? bp) || (bp <? ptr h p)) then Some p
      else free_loop f h bp (ptr h p)
  end.

Definition free (fuel : nat) (h : heap) (ap : Z) : option heap :=
  let bp := padd ap (-1) in
  match free_loop fuel h bp (freep h) with
  | None => None
  | Some p =>
      let h1 :=
        if padd bp (size h bp) =? ptr h p
        then let n := ptr h p in set_ptr bp (ptr h n) (set_size bp (u32 (size h bp + size h n)) h)
        else set_ptr bp (ptr h p) h in
      let h2 :=
        if padd p (size h1 p) =? bp
        then set_ptr p (ptr h1 bp) (set_size p (u32 (size h1 p + size h1 bp)) h1)
        else set_ptr p bp h1 in
      Some (set_freep p h2)
  end.

(** Returns [freep], or 0, and the heap. *)
Definition morecore (fuel : nat) (h : heap) (nu : Z) : prog (Z * heap) :=
  let nu := if nu <? 4096 then 4096 else nu in
  (p <- call (USbrk (s32 (nu * HDR))) ;;
   if p =? -1 then Ret (0, h) else
   let h := set_size p nu h in
   match free fuel h (padd p 1) with
   | None => OutOfFuel
   | Some h => Ret (freep h, h)
   end)%prog.

(** The block found at [p], after [prevp] in the list. *)
Definition take_block (h : heap) (prevp p nunits : Z) : Z * heap :=
  if size h p =? nunits then
    (padd p 1, set_freep prevp (set_ptr prevp (ptr h p) h))
  else
    let h := set_size p (u32 (size h p - nunits)) h in
    let p := padd p (size h p) in
    (padd p 1, set_freep prevp (set_size p nunits h)).

Fixpoint malloc_loop (fuel : nat) (ffuel : nat) (h : heap) (nunits prevp p : Z) : prog (Z * heap) :=
  match fuel with
  | O => OutOfFuel
  | S f =>
      (if nunits <=? size h p then Ret (take_block h prevp p nunits)
       else if p =? freep h then
         r <- morecore ffuel h nunits ;;
         let '(p, h) := (r : Z * heap) in
         if p =? 0 then Ret (0, h) else malloc_loop f ffuel h nunits p (ptr h p)
       else malloc_loop f ffuel h nunits p (ptr h p))%prog
  end.

Definition units (nbytes : Z) : Z := u32 (u64 (nbytes + HDR - 1) / HDR + 1).

(** [base] is the address of the static header; [freep] is null before the first call. *)
Definition malloc (fuel : nat) (base : Z) (h : heap) (nbytes : Z) : prog (Z * heap) :=
  let nunits := units nbytes in
  let h := if freep h =? 0 then set_hdr base (Hdr base 0) (set_freep base h) else h in
  malloc_loop fuel fuel h nunits (freep h) (ptr h (freep h)).

(** ** The free list *)

(** The headers of the blocks [l] lead from each to the next, and from the last to [e]. *)
Fixpoint chain (h : heap) (l : list (Z * Z)) (e : Z) : Prop :=
  match l with
  | [] => True
  | (a, s) :: l' => hdr h a = Hdr (hd e (map fst l')) s /\ chain h l' e
  end.

(** The blocks are in order, with a gap before each, from [lo] to [hi]. *)
Fixpoint apart (lo : Z) (l : list (Z * Z)) (hi : Z) : Prop :=
  match l with
  | [] => lo <= hi
  | (a, s) :: l' => lo < a /\ 0 < s /\ apart (a + HDR * s) l' hi
  end.

(** The addresses of the free bytes. *)
Definition covers (l : list (Z * Z)) (x : Z) : Prop := exists a s, (a, s) ∈ l /\ a <= x < a + HDR * s.

(** A heap whose free blocks are [l], between [base] and [top]. *)
Record heap_ok (base top : Z) (h : heap) (l : list (Z * Z)) : Prop := {
  ho_base : 0 < base;
  ho_chain : chain h ((base, 0) :: l) base;
  ho_apart : apart base l top;
  ho_top : top <= 34359738368;
  ho_freep : freep h ∈ base :: map fst l;
}.

Lemma chain_app h l1 : forall l2 e, chain h (l1 ++ l2) e <-> chain h l1 (hd e (map fst l2)) /\ chain h l2 e.
Proof.
  induction l1 as [|[a s] l1 IH]; intros l2 e; [cbn [app chain]; tauto|]. cbn [app chain]. rewrite IH.
  replace (hd e (map fst (l1 ++ l2))) with (hd (hd e (map fst l2)) (map fst l1)) by (by destruct l1 as [|[]]). tauto.
Qed.

Lemma hdr_set p x h q : hdr (set_hdr p x h) q = if decide (q = p) then x else hdr h q.
Proof. unfold hdr, set_hdr. cbn. case_decide as E; [subst; by rewrite lookup_insert_eq|by rewrite lookup_insert_ne by congruence]. Qed.

(** Headers outside the list do not matter. *)
Lemma chain_ext h h' l e : (forall a, a ∈ map fst l -> hdr h' a = hdr h a) -> chain h l e -> chain h' l e.
Proof.
  revert e. induction l as [|[a s] l IH]; intros e Hh; [done|]. cbn [chain]. intros [H1 H2]. split.
  - rewrite Hh; [done|]. left.
  - apply IH; [|done]. intros x Hx. apply Hh. by right.
Qed.

Definition endof (lo : Z) (l : list (Z * Z)) : Z := fold_left (fun _ b => b.1 + HDR * b.2) l lo.

Lemma apart_app l1 : forall lo l2 hi, apart lo (l1 ++ l2) hi <-> apart lo l1 (endof lo l1) /\ apart (endof lo l1) l2 hi.
Proof.
  induction l1 as [|[a s] l1 IH]; intros lo l2 hi; cbn [app apart endof fold_left fst snd].
  - split; [intros H; split; [lia|done]|tauto].
  - rewrite IH. tauto.
Qed.

Lemma apart_le l : forall lo hi, apart lo l hi -> lo <= hi.
Proof. induction l as [|[a s] l IH]; intros lo hi; cbn [apart]; [done|]. intros (H1 & H2 & H3%IH). unfold HDR in *. lia. Qed.

Lemma apart_in l : forall lo hi a s, apart lo l hi -> (a, s) ∈ l -> lo < a /\ 0 < s /\ a + HDR * s <= hi.
Proof.
  induction l as [|[b t] l IH]; intros lo hi a s; cbn [apart]; [by intros _ ?%elem_of_nil|].
  intros (H1 & H2 & H3) [E|Hin]%elem_of_cons.
  - injection E as -> ->. apply apart_le in H3. done.
  - destruct (IH _ _ _ _ H3 Hin) as (H4 & H5 & H6). unfold HDR in *. lia.
Qed.

Lemma apart_mono l lo hi hi' : apart lo l hi -> hi <= hi' -> apart lo l hi'.
Proof. revert lo. induction l as [|[a s] l IH]; intros lo; cbn [apart]; [lia|]. intros (H1 & H2 & H3) Hh. auto. Qed.

Lemma apart_lower l lo lo' hi : apart lo l hi -> lo' <= lo -> apart lo' l hi.
Proof. destruct l as [|[a s] l]; cbn [apart]; [lia|]. intros (H1 & H2 & H3) Hh. split; [lia|done]. Qed.

(** ** Positions in the list *)

Section Ring.
Context (base top : Z) (h : heap) (l : list (Z * Z)) (H : heap_ok base top h l).

Abbreviation ring := ((base, 0) :: l).
Abbreviation n := (length ring).

(** The address of the block at a position, and the position after it. *)
Definition addr (i : nat) : Z := fst (nth i ring (base, 0)).
Definition next (i : nat) : nat := if decide (S i < n)%nat then S i else 0%nat.

Lemma chain_nth h' l' e i : chain h' l' e -> (i < length l')%nat ->
  hdr h' (fst (nth i l' (e, 0))) = Hdr (if decide (S i < length l')%nat then fst (nth (S i) l' (e, 0)) else e) (snd (nth i l' (e, 0))).
Proof using.
  revert i. induction l' as [|[a s] l' IH]; intros i Hc Hi; [cbn in Hi; lia|]. destruct Hc as [Hc1 Hc2]. destruct i as [|i].
  - cbn [nth fst snd]. rewrite Hc1. f_equal. destruct l' as [|[b t] l']; cbn [map hd length]; [by rewrite decide_False by lia|].
    rewrite decide_True by (cbn; lia). done.
  - cbn [nth length] in *. rewrite IH by (done || lia). f_equal. case_decide; case_decide; (done || lia).
Qed.

Lemma ring_hdr i : (i < n)%nat -> ptr h (addr i) = addr (next i) /\ size h (addr i) = snd (nth i ring (base, 0)).
Proof using H.
  intros Hi. unfold ptr, size, addr, next. rewrite (chain_nth h ring base i (ho_chain _ _ _ _ H) Hi). cbn [hd_ptr hd_size].
  split; [|done]. by case_decide.
Qed.

Lemma addr_mono i j : (i < j < n)%nat -> addr i < addr j.
Proof using H.
  assert (forall l lo hi i j, apart lo l hi -> (i < j < length l)%nat -> fst (nth i l (base, 0)) < fst (nth j l (base, 0))) as Hm.
  { clear. induction l as [|[a s] l IH]; intros lo hi i j Ha Hij; [cbn in Hij; lia|]. cbn [apart] in Ha. destruct Ha as (H1 & H2 & H3).
    destruct i as [|i], j as [|j]; cbn [nth length fst] in *; try lia.
    - destruct (nth j l (base, 0)) as [b t] eqn:E. assert ((b, t) ∈ l) as Hin by (rewrite <- E; apply list_elem_of_In, nth_In; lia).
      destruct (apart_in _ _ _ _ _ H3 Hin) as (H4 & _). cbn. unfold HDR in H4. lia.
    - by apply (IH _ _ i j H3); lia. }
  intros Hij. unfold addr. destruct i as [|i], j as [|j]; cbn [nth length fst] in *; try lia.
  - destruct (nth j l (base, 0)) as [b t] eqn:E. assert ((b, t) ∈ l) as Hin by (rewrite <- E; apply list_elem_of_In, nth_In; lia).
    destruct (apart_in _ _ _ _ _ (ho_apart _ _ _ _ H) Hin) as (H4 & _). cbn. lia.
  - apply (Hm l base top i j (ho_apart _ _ _ _ H)). lia.
Qed.

Lemma addr_base i : (i < n)%nat -> base <= addr i.
Proof using H.
  intros Hi. destruct i as [|i]; [unfold addr; cbn; lia|]. pose proof (addr_mono 0 (S i) ltac:(lia)) as Hm. unfold addr in Hm at 1. cbn [nth fst] in Hm. lia.
Qed.

Lemma freep_addr : exists i, (i < n)%nat /\ freep h = addr i.
Proof using H.
  pose proof (ho_freep _ _ _ _ H) as Hf. change (base :: map fst l) with (map fst ring) in Hf.
  apply list_elem_of_fmap in Hf as ([a s] & Ea & Hin). apply list_elem_of_In, (In_nth _ _ (base, 0)) in Hin as (i & Hi & E).
  exists i. split; [done|]. unfold addr. by rewrite E.
Qed.

(** [d] positions on. *)
Fixpoint later (d i : nat) : nat := match d with O => i | S d' => later d' (next i) end.

Lemma next_lt i : (i < n)%nat -> (next i < n)%nat.
Proof using. unfold next. intros. case_decide; cbn in *; lia. Qed.

(** From any position, any other is fewer than [n] steps away. *)
Lemma reach i k : (i < n)%nat -> (k < n)%nat -> exists d, (d < n)%nat /\ later d i = k.
Proof using.
  assert (forall d i, (i + d < n)%nat -> later d i = (i + d)%nat) as Hfwd.
  { induction d as [|d IH]; intros j Hj; cbn [later]; [lia|]. unfold next. rewrite decide_True by lia. rewrite IH by lia. lia. }
  assert (forall d i, (i < n)%nat -> later (n - i + d) i = later d 0) as Hwrap.
  { intros d j Hj. remember (n - j)%nat as m eqn:Em. revert j Hj Em. induction m as [|m IH]; intros j Hj Em; [lia|].
    cbn [Nat.add later]. destruct (decide (S j < n)%nat) as [E|E].
    - replace (next j) with (S j) by (unfold next; by rewrite decide_True). apply IH; lia.
    - replace (next j) with 0%nat by (unfold next; by rewrite decide_False). by assert (m = 0)%nat as -> by lia. }
  intros Hi Hk. destruct (decide (i <= k)%nat) as [E|E].
  - exists (k - i)%nat. split; [lia|]. rewrite Hfwd by lia. lia.
  - exists (n - i + k)%nat. split; [lia|]. rewrite Hwrap by lia. rewrite Hfwd by lia. lia.
Qed.

(** ** free() *)

(** [k] is the last block below [bp]. *)
Definition below (bp : Z) (k : nat) : Prop := (k < n)%nat /\ addr k < bp /\ forall j, (k < j < n)%nat -> bp < addr j.

Lemma free_loop_stop bp k f : base < bp -> below bp k -> free_loop (S f) h bp (addr k) = Some (addr k).
Proof using H.
  intros Hb (Hk & H1 & H2). cbn [free_loop]. destruct (ring_hdr k Hk) as [-> _]. pose proof (addr_base k Hk) as Hbk. unfold next.
  zcase (addr k <? bp) as E1; [|lia]. case_decide as Ed.
  - pose proof (H2 (S k) ltac:(lia)). zcase (bp <? addr (S k)) as E2; [done|lia].
  - change (addr 0) with base. zcase (bp <? base) as E2; [lia|]. cbn [andb]. zcase (base <=? addr k) as E3; [done|lia].
Qed.

Lemma free_loop_pass bp k i f : base < bp -> below bp k -> (i < n)%nat -> i <> k -> (forall j, (j < n)%nat -> addr j <> bp) ->
  free_loop (S f) h bp (addr i) = free_loop f h bp (addr (next i)).
Proof using H.
  intros Hb (Hk & H1 & H2) Hi Hik Hne. cbn [free_loop]. destruct (ring_hdr i Hi) as [-> _]. unfold next.
  pose proof (addr_base i Hi) as Hbi. case_decide as Ed.
  - pose proof (addr_mono i (S i) ltac:(lia)) as Hm. zcase (addr (S i) <=? addr i) as E3; [lia|]. cbn [andb].
    zcase (addr i <? bp) as E1; zcase (bp <? addr (S i)) as E2; cbn [andb]; try done. exfalso.
    destruct (decide (i < k)%nat) as [Hlt|Hge].
    + destruct (decide (S i = k)) as [Ek|]; [rewrite <- Ek in *; lia|]. pose proof (addr_mono (S i) k ltac:(lia)). lia.
    + pose proof (H2 i ltac:(lia)). lia.
  - assert (k < i)%nat as Hki by lia. pose proof (H2 i ltac:(lia)). change (addr 0) with base.
    zcase (addr i <? bp) as E1; [lia|]. cbn [andb orb]. zcase (bp <? base) as E2; [lia|]. by rewrite andb_false_r.
Qed.

(** The loop of free() ends at the last block below [bp]. *)
Lemma free_loop_run bp k : base < bp -> below bp k -> (forall j, (j < n)%nat -> addr j <> bp) ->
  forall d i f, (i < n)%nat -> later d i = k -> (d < f)%nat -> free_loop f h bp (addr i) = Some (addr k).
Proof using H.
  intros Hb Hk Hne. induction d as [|d IH]; intros i f Hi Hd Hf; (destruct f as [|f]; [lia|]); cbn [later] in Hd.
  - subst. by apply free_loop_stop.
  - destruct (decide (i = k)) as [->|Hik]; [by apply free_loop_stop|]. rewrite (free_loop_pass bp k) by done.
    apply IH; [by apply next_lt|done|lia].
Qed.

Lemma free_finds bp f : base < bp -> (forall j, (j < n)%nat -> addr j <> bp) -> (n <= f)%nat ->
  exists k, below bp k /\ free_loop f h bp (freep h) = Some (addr k).
Proof using H.
  intros Hb Hne Hf.
  assert (exists k, below bp k) as [k Hk].
  { assert (forall m, (m <= n)%nat -> (0 < m)%nat -> exists k, (k < m)%nat /\ addr k < bp /\ forall j, (k < j < m)%nat -> bp < addr j) as Hm.
    { induction m as [|m IH]; intros Hm Hp; [lia|]. destruct (decide (addr m < bp)) as [Hlt|Hge].
      - exists m. split; [lia|]. split; [done|]. intros; lia.
      - destruct m as [|m]; [change (addr 0) with base in Hge; lia|]. destruct (IH ltac:(lia) ltac:(lia)) as (k & K1 & K2 & K3). exists k.
        split; [lia|]. split; [done|]. intros j Hj. destruct (decide (j = S m)) as [->|]; [|apply K3; lia].
        pose proof (Hne (S m) ltac:(lia)). lia. }
    destruct (Hm n (le_n _) ltac:(cbn; lia)) as (k & Hk). by exists k. }
  exists k. split; [done|]. destruct freep_addr as (i & Hi & ->). destruct (reach i k Hi (proj1 Hk)) as (d & Hd & E).
  apply (free_loop_run bp k Hb Hk Hne d i f Hi E). lia.
Qed.

End Ring.

(** *** Linking the block in *)

(** The two joins of free(), on the heap where [bp] goes after [p]. *)
Definition link (h : heap) (p bp : Z) : heap :=
  let h1 :=
    if padd bp (size h bp) =? ptr h p
    then let n := ptr h p in set_ptr bp (ptr h n) (set_size bp (u32 (size h bp + size h n)) h)
    else set_ptr bp (ptr h p) h in
  if padd p (size h1 p) =? bp
  then set_ptr p (ptr h1 bp) (set_size p (u32 (size h1 p + size h1 bp)) h1)
  else set_ptr p bp h1.

Lemma free_link fuel h ap p : free_loop fuel h (padd ap (-1)) (freep h) = Some p ->
  free fuel h ap = Some (set_freep p (link h p (padd ap (-1)))).
Proof. intros E. unfold free. by rewrite E. Qed.

Lemma covers_cons a s l x : covers ((a, s) :: l) x <-> a <= x < a + HDR * s \/ covers l x.
Proof.
  unfold covers. split.
  - intros (b & t & [E|Hin]%elem_of_cons & Hx); [injection E as -> ->; by left|right; by exists b, t].
  - intros [Hx|(b & t & Hin & Hx)]; [exists a, s|exists b, t]; (split; [|done]); [left|by right].
Qed.

Lemma covers_app l1 l2 x : covers (l1 ++ l2) x <-> covers l1 x \/ covers l2 x.
Proof.
  unfold covers. setoid_rewrite elem_of_app. naive_solver.
Qed.

Lemma covers_nil x : ~ covers [] x.
Proof. by intros (a & s & ?%elem_of_nil & _). Qed.

Section Link.
Context (base top : Z) (h : heap) (p sp bp s : Z) (R : list (Z * Z)).
Context (Hp : hdr h p = Hdr (hd base (map fst R)) sp) (HR : chain h R base) (Hap : apart (p + HDR * sp) R top).
Context (Hbp : hd_size (hdr h bp) = s) (Hs : 0 < s) (Hsp : 0 <= sp) (Hb : 0 < base <= p) (Hlo : p + HDR * sp <= bp) (Hpb : p < bp)
  (Hhi : apart (bp + HDR * s - 1) R top) (Hbt : bp + HDR * s <= top) (Htop : top <= 34359738368).

(** The right join: the block with what it is joined to, and what follows. *)
Lemma link_right : exists sb R',
  let h1 := if padd bp (size h bp) =? ptr h p
    then let n := ptr h p in set_ptr bp (ptr h n) (set_size bp (u32 (size h bp + size h n)) h)
    else set_ptr bp (ptr h p) h in
  hdr h1 bp = Hdr (hd base (map fst R')) sb /\ chain h1 R' base /\ apart (bp + HDR * sb) R' top /\ s <= sb /\
  (forall a, a <> bp -> hdr h1 a = hdr h a) /\ (forall x, covers ((bp, sb) :: R') x <-> covers ((bp, s) :: R) x) /\ (length R' <= length R)%nat.
Proof using Hp HR Hap Hbp Hs Hb Hpb Hhi Hbt Htop.
  unfold ptr, size. rewrite Hp, Hbp. cbn [hd_ptr]. unfold padd. zcase (bp + HDR * s =? hd base (map fst R)) as E.
  - destruct R as [|[n sn] R3]; [cbn in E; unfold HDR in *; lia|]. cbn [map hd fst] in *. destruct HR as [Hn HR3]. cbn [apart] in Hhi.
    destruct Hhi as (A1 & A2 & A3). rewrite Hn. cbn [hd_ptr hd_size].
    assert (n <> bp) as Hne by (unfold HDR in *; lia). pose proof (apart_le _ _ _ A3) as Hle.
    exists (s + sn), R3. cbv zeta. split; [|split; [|split; [|split; [lia|split; [|split; [|cbn; lia]]]]]].
    + unfold set_ptr, set_size, size, ptr. rewrite !hdr_set, !decide_True by done. cbn [hd_ptr hd_size]. f_equal. apply u32_small. unfold HDR in *. lia.
    + eapply chain_ext; [|exact HR3]. intros a Ha. unfold set_ptr, set_size. rewrite !hdr_set.
      assert (a <> bp) as Hab. { apply list_elem_of_fmap in Ha as ([b t] & -> & Hin). destruct (apart_in _ _ _ _ _ A3 Hin) as (B1 & _). unfold HDR in *. cbn. lia. }
      by rewrite !decide_False by done.
    + eapply apart_lower; [exact A3|]. unfold HDR in *. lia.
    + intros a Ha. unfold set_ptr, set_size. by rewrite !hdr_set, !decide_False by done.
    + intros x. rewrite !covers_cons. unfold HDR in *. destruct (decide (x < n)); intuition lia.
  - exists s, R. cbv zeta. split; [|split; [|split; [|split; [lia|split; [|split; [done|lia]]]]]].
    + unfold set_ptr. rewrite hdr_set, decide_True by done. unfold size. by rewrite Hbp.
    + eapply chain_ext; [|exact HR]. intros a Ha. unfold set_ptr. rewrite hdr_set, decide_False; [done|]. intros ->.
      apply list_elem_of_fmap in Ha as ([b t] & E1 & Hin). cbn in E1. subst b. destruct (apart_in _ _ _ _ _ Hhi Hin) as (B1 & _). unfold HDR in *. lia.
    + destruct R as [|[n sn] R3]; cbn [apart map hd fst] in *; [lia|]. destruct Hhi as (A1 & A2 & A3). split; [lia|done].
    + intros a Ha. unfold set_ptr. by rewrite hdr_set, decide_False.
Qed.

Lemma link_spec : exists sp' T, let h' := link h p bp in
  chain h' ((p, sp') :: T) base /\ apart (p + HDR * sp') T top /\ (sp' = sp \/ p + HDR * sp = bp /\ 0 < sp') /\
  (forall x, covers ((p, sp') :: T) x <-> covers ((p, sp) :: R) x \/ bp <= x < bp + HDR * s) /\
  (forall a, a <> p -> a <> bp -> hdr h' a = hdr h a) /\ (length T <= S (length R))%nat.
Proof using Hp HR Hap Hbp Hs Hsp Hb Hlo Hpb Hhi Hbt Htop.
  destruct link_right as (sb & R' & Hr). cbv zeta in Hr. unfold link.
  set (h1 := if padd bp (size h bp) =? ptr h p then _ else _) in *. destruct Hr as (E1 & C1 & A1 & S1 & F1 & V1 & L1).
  assert (hdr h1 p = Hdr (hd base (map fst R)) sp) as Ep by (rewrite F1 by lia; done).
  assert (forall a, a ∈ map fst R' -> bp < a) as HR'.
  { intros a ([b t] & -> & Hin)%list_elem_of_fmap. destruct (apart_in _ _ _ _ _ A1 Hin) as (B1 & _). unfold HDR in *. cbn. lia. }
  pose proof (apart_le _ _ _ A1) as Hle. cbv zeta. unfold size, ptr. rewrite Ep, E1. cbn [hd_size hd_ptr]. unfold padd.
  zcase (p + HDR * sp =? bp) as E.
  - exists (sp + sb), R'. split; [|split; [|split; [right; lia|split; [|split; [|lia]]]]].
    + split.
      * unfold set_ptr, set_size, size, ptr. rewrite !hdr_set, !decide_True by done. cbn [hd_ptr hd_size]. f_equal. apply u32_small. unfold HDR in *. lia.
      * eapply chain_ext; [|exact C1]. intros a Ha%HR'. unfold set_ptr, set_size. by rewrite !hdr_set, !decide_False by lia.
    + eapply apart_lower; [exact A1|]. unfold HDR in *. lia.
    + intros x. rewrite (covers_cons p sp R). specialize (V1 x). rewrite !covers_cons in V1. rewrite covers_cons.
      assert (p <= x < p + HDR * (sp + sb) <-> p <= x < p + HDR * sp \/ bp <= x < bp + HDR * sb) as -> by (unfold HDR in *; lia). tauto.
    + intros a Ha Ha'. unfold set_ptr, set_size. rewrite !hdr_set, !decide_False by done. by apply F1.
  - exists sp, ((bp, sb) :: R'). split; [|split; [|split; [by left|split; [|split; [|cbn; lia]]]]].
    + cbn [chain map hd fst]. unfold set_ptr, size. rewrite !hdr_set, decide_True, decide_False by lia. rewrite Ep, E1. split; [done|]. split; [done|].
      eapply chain_ext; [|exact C1]. intros a Ha%HR'. by rewrite hdr_set, decide_False by lia.
    + cbn [apart]. split; [lia|]. split; [lia|done].
    + intros x. rewrite (covers_cons p sp R), covers_cons. specialize (V1 x). rewrite (covers_cons bp s R) in V1. rewrite V1. tauto.
    + intros a Ha Ha'. unfold set_ptr. rewrite hdr_set, decide_False by done. by apply F1.
Qed.
End Link.

(** A block of [s] units at [bp], inside the arena and apart from the free blocks. *)
Definition block_at (base top : Z) (h : heap) (l : list (Z * Z)) (bp s : Z) : Prop :=
  base < bp /\ size h bp = s /\ 0 < s /\ bp + HDR * s <= top /\ forall x, bp <= x < bp + HDR * s -> ~ covers l x.

Lemma covers_in l a s x : (a, s) ∈ l -> a <= x < a + HDR * s -> covers l x.
Proof. intros ? ?. by exists a, s. Qed.

Lemma split_nth {A} (l : list A) k d : (k < length l)%nat -> l = take k l ++ nth k l d :: drop (S k) l.
Proof. revert k. induction l as [|x l IH]; intros [|k] Hk; cbn in *; try lia; [done|]. f_equal. apply IH. lia. Qed.

(** Where the block goes: after [p], before the blocks [R]. *)
Lemma free_split base top h l bp s fuel : heap_ok base top h l -> block_at base top h l bp s -> (S (length l) <= fuel)%nat ->
  exists A p sp R, free_loop fuel h bp (freep h) = Some p /\ (base, 0) :: l = A ++ (p, sp) :: R /\ p < bp /\ forall a t, (a, t) ∈ R -> bp < a.
Proof.
  intros H (Hb & _ & Hs & _ & Hd) Hf.
  assert (forall j, (j < length ((base, 0%Z) :: l))%nat -> addr base l j <> bp) as Hne.
  { intros [|j] Hj; unfold addr; cbn [nth fst length] in *; [lia|]. destruct (nth j l (base, 0)) as [a t] eqn:E.
    assert ((a, t) ∈ l) as Hin by (rewrite <- E; apply list_elem_of_In, nth_In; lia). destruct (apart_in _ _ _ _ _ (ho_apart _ _ _ _ H) Hin) as (B1 & B2 & _).
    cbn. intros ->. apply (Hd bp); [unfold HDR; lia|]. eapply covers_in; [exact Hin|]. unfold HDR. lia. }
  destruct (free_finds base top h l H bp fuel Hb Hne Hf) as (k & (K1 & K2 & K3) & E).
  destruct (nth k ((base, 0) :: l) (base, 0)) as [p sp] eqn:Ek. exists (take k ((base, 0) :: l)), p, sp, (drop (S k) ((base, 0) :: l)).
  unfold addr in E, K2. rewrite Ek in E, K2. split; [done|]. split; [rewrite <- Ek; by apply split_nth|]. split; [done|].
  intros a t Hin. apply list_elem_of_In, (In_nth _ _ (base, 0)) in Hin as (j & Hj & Ej). rewrite length_drop in Hj.
  specialize (K3 (S k + j)%nat ltac:(lia)). unfold addr in K3. rewrite <- (nth_skipn (S k)) in K3. rewrite Ej in K3. done.
Qed.

Lemma apart_start l lo lo' hi : apart lo l hi -> lo' <= hi -> (forall a t, (a, t) ∈ l -> lo' < a) -> apart lo' l hi.
Proof. destruct l as [|[a t] l]; cbn [apart]; [done|]. intros (_ & H2 & H3) _ Hl. split; [apply (Hl a t); left|done]. Qed.

(** What free() makes of the heap. *)
Definition freed (base top : Z) (h : heap) (l : list (Z * Z)) (bp s : Z) (h' : heap) (l' : list (Z * Z)) : Prop :=
  heap_ok base top h' l' /\ (forall x, covers l' x <-> covers l x \/ bp <= x < bp + HDR * s) /\
  (forall a, a <> base -> a <> bp -> ~ covers l a -> hdr h' a = hdr h a) /\ (length l' <= S (length l))%nat.

Lemma hdr_set_freep p h a : hdr (set_freep p h) a = hdr h a.
Proof. done. Qed.

Lemma chain_set_freep p h l e : chain h l e -> chain (set_freep p h) l e.
Proof. by apply chain_ext. Qed.

Lemma covered l lo hi a : apart lo l hi -> a ∈ map fst l -> covers l a.
Proof.
  intros Ha ([b t] & -> & Hin)%list_elem_of_fmap. destruct (apart_in _ _ _ _ _ Ha Hin) as (_ & B2 & _).
  eapply covers_in; [exact Hin|]. cbn. unfold HDR. lia.
Qed.

(** The blocks above [bp] are above the end of the block. *)
Lemma block_before base top h l bp s lo R : block_at base top h l bp s -> apart lo R top -> (forall a t, (a, t) ∈ R -> bp < a /\ (a, t) ∈ l) ->
  apart (bp + HDR * s - 1) R top.
Proof.
  intros (Hb & Hsz & Hs & Ht & Hd) Ha Hl. eapply apart_start; [exact Ha|lia|]. intros a t Hin.
  destruct (apart_in _ _ _ _ _ Ha Hin) as (B1 & B2 & _). destruct (Hl a t Hin) as [Hlt Hin'].
  destruct (decide (a < bp + HDR * s)); [|lia]. exfalso. apply (Hd a); [lia|]. eapply covers_in; [exact Hin'|unfold HDR; lia].
Qed.

Lemma freed_first base top h l bp s : heap_ok base top h l -> block_at base top h l bp s -> (forall a t, (a, t) ∈ l -> bp < a) ->
  exists l', freed base top h l bp s (set_freep base (link h base bp)) l'.
Proof.
  intros H Hbl Hl. pose proof Hbl as (Hb & Hsz & Hs & Ht & Hd). destruct (ho_chain _ _ _ _ H) as [C1 C2]. pose proof (ho_base _ _ _ _ H) as Hpos.
  pose proof (ho_apart _ _ _ _ H) as Ha.
  destruct (link_spec base top h base 0 bp s l C1 C2 (apart_lower l base (base + HDR * 0) top Ha ltac:(unfold HDR; lia)) Hsz Hs ltac:(lia) ltac:(lia) ltac:(unfold HDR; lia) Hb) as (sp' & T & L1 & L2 & L3 & L4 & L5 & L6).
  - eapply block_before; [exact Hbl|exact Ha|]. intros a t Hin. split; [by eapply Hl|done].
  - done.
  - exact (ho_top _ _ _ _ H).
  - assert (sp' = 0) as -> by (unfold HDR in *; lia). exists T. split; [split|split; [|split]].
    + done.
    + by apply chain_set_freep.
    + eapply apart_lower; [exact L2|unfold HDR; lia].
    + exact (ho_top _ _ _ _ H).
    + left.
    + intros x. specialize (L4 x). rewrite !covers_cons in L4. unfold HDR in *. split; intros Hx.
      * destruct (proj1 L4 (or_intror Hx)) as [[?|?]|?]; [lia|by left|by right].
      * destruct L4 as [_ L4]. destruct L4 as [?|?]; [tauto|lia|done].
    + intros a Ha1 Ha2 _. rewrite hdr_set_freep. by apply L5.
    + lia.
Qed.

Lemma freed_inside base top h A p sp R bp s : let l := A ++ (p, sp) :: R in
  heap_ok base top h l -> block_at base top h l bp s -> p < bp -> (forall a t, (a, t) ∈ R -> bp < a) ->
  exists l', freed base top h l bp s (set_freep p (link h p bp)) l'.
Proof.
  intros l H Hbl Hp HR. pose proof Hbl as (Hb & Hsz & Hs & Ht & Hd). pose proof (ho_base _ _ _ _ H) as Hpos.
  pose proof (ho_chain _ _ _ _ H) as HC. change ((base, 0) :: l) with (((base, 0) :: A) ++ (p, sp) :: R) in HC.
  apply chain_app in HC as [CA [C1 C2]]. pose proof (ho_apart _ _ _ _ H) as Ha. apply apart_app in Ha as [AA (A1 & A2 & A3)].
  assert (base < p) as Hbp by (apply apart_le in AA; lia).
  assert (p + HDR * sp <= bp) as Hend.
  { destruct (decide (bp < p + HDR * sp)); [|lia]. exfalso. apply (Hd bp); [unfold HDR; lia|]. eapply (covers_in l p sp); [|lia].
    apply elem_of_app. right. left. }
  destruct (link_spec base top h p sp bp s R C1 C2 A3 Hsz Hs ltac:(lia) ltac:(lia) Hend Hp) as (sp' & T & L1 & L2 & L3 & L4 & L5 & L6).
  { eapply block_before; [exact Hbl|exact A3|]. intros a t Hin. split; [by eapply HR|]. apply elem_of_app. right. by right. }
  { done. }
  { exact (ho_top _ _ _ _ H). }
  assert (forall a, a ∈ base :: map fst A -> a < p) as HAp.
  { intros a [->|([b t] & -> & Hin)%list_elem_of_fmap]%elem_of_cons; [done|]. destruct (apart_in _ _ _ _ _ AA Hin) as (B1 & B2 & B3). unfold HDR in *. cbn. lia. }
  exists (A ++ (p, sp') :: T). split; [split|split; [|split]].
  - done.
  - apply chain_set_freep. change ((base, 0) :: A ++ (p, sp') :: T) with (((base, 0) :: A) ++ (p, sp') :: T). apply chain_app. split; [|done].
    eapply chain_ext; [|exact CA]. intros a Ha'%HAp. apply L5; lia.
  - apply apart_app. split; [done|]. cbn [apart]. split; [done|]. split; [lia|done].
  - exact (ho_top _ _ _ _ H).
  - cbn. right. rewrite map_app. apply elem_of_app. right. left.
  - intros x. unfold l. rewrite !covers_app, L4. tauto.
  - intros a Ha1 Ha2 Ha3. rewrite hdr_set_freep. apply L5; [|done]. intros ->. apply Ha3. eapply (covers_in l p sp); [|unfold HDR; lia].
    apply elem_of_app. right. left.
  - unfold l. rewrite !length_app. cbn. lia.
Qed.

Lemma free_spec base top h l bp s fuel : heap_ok base top h l -> block_at base top h l bp s -> (S (length l) <= fuel)%nat ->
  exists h' l', free fuel h (padd bp 1) = Some h' /\ freed base top h l bp s h' l'.
Proof.
  intros H Hbl Hf. destruct (free_split _ _ _ _ _ _ _ H Hbl Hf) as (A & p & sp & R & E1 & E2 & Hp & HR).
  assert (padd (padd bp 1) (-1) = bp) as Eb by (unfold padd, HDR; lia). rewrite (free_link _ _ _ p) by (by rewrite Eb). rewrite Eb.
  eexists. destruct A as [|[a t] A]; cbn in E2.
  - injection E2 as <- <- ->. edestruct freed_first as [l' Hl']; [exact H|exact Hbl|exact HR|]. exists l'. by split.
  - injection E2 as <- <- ->. edestruct freed_inside as [l' Hl']; [exact H|exact Hbl|exact Hp|exact HR|]. exists l'. by split.
Qed.

(** ** malloc() *)

(** What taking a block of [s] units, which the caller gets at [q], makes of the heap. *)
Definition taken (base top : Z) (h : heap) (l : list (Z * Z)) (s q : Z) (h' : heap) (l' : list (Z * Z)) : Prop :=
  heap_ok base top h' l' /\ block_at base top h' l' (padd q (-1)) s /\
  (forall x, covers l x <-> covers l' x \/ padd q (-1) <= x < padd q (-1) + HDR * s) /\
  (forall a, a <> base -> ~ covers l a -> hdr h' a = hdr h a) /\ (length l' <= length l)%nat.

Section Take.
Context (base top : Z) (h : heap) (L : list (Z * Z)) (p sp : Z) (G K : list (Z * Z)) (pp spp s : Z).
Abbreviation l := (L ++ (p, sp) :: G).
Context (H : heap_ok base top h l) (HK : (base, 0) :: L = K ++ [(pp, spp)]) (Hs : 0 < s <= sp).

Lemma take_parts : hdr h pp = Hdr p spp /\ hdr h p = Hdr (hd base (map fst G)) sp /\ chain h K pp /\ chain h G base /\
  apart base L (endof base L) /\ endof base L < p /\ apart (p + HDR * sp) G top.
Proof using H HK.
  pose proof (ho_chain _ _ _ _ H) as HC. change ((base, 0) :: l) with (((base, 0) :: L) ++ (p, sp) :: G) in HC. rewrite HK in HC.
  rewrite <- app_assoc in HC. apply chain_app in HC as [C1 [C2 [C3 C4]]].
  pose proof (ho_apart _ _ _ _ H) as Ha. apply apart_app in Ha as [A1 (A2 & A3 & A4)]. cbn in C1, C2. done.
Qed.

Lemma take_low a t : (a, t) ∈ (base, 0) :: L -> base <= a /\ 0 <= t /\ a < p /\ a + HDR * t < p.
Proof using H HK.
  destruct take_parts as (_ & _ & _ & _ & A1 & A2 & _). pose proof (apart_le _ _ _ A1) as Hle.
  intros [E|Hin]%elem_of_cons; [injection E as -> ->; unfold HDR; lia|]. destruct (apart_in _ _ _ _ _ A1 Hin) as (B1 & B2 & B3).
  unfold HDR in *. lia.
Qed.

Lemma take_low_addr a : a ∈ base :: map fst L -> base <= a < p.
Proof using H HK.
  change (base :: map fst L) with (map fst ((base, 0) :: L)). intros ([b t] & -> & Hin)%list_elem_of_fmap. apply take_low in Hin. cbn. lia.
Qed.

Lemma take_high_addr a : a ∈ map fst G -> p + HDR * sp < a.
Proof using H HK.
  destruct take_parts as (_ & _ & _ & _ & _ & _ & A3). intros ([b t] & -> & Hin)%list_elem_of_fmap.
  destruct (apart_in _ _ _ _ _ A3 Hin) as (B1 & B2 & B3). cbn. lia.
Qed.

Lemma take_pp : pp ∈ base :: map fst L /\ (forall a, a ∈ map fst K -> a < pp).
Proof using H HK.
  split.
  - change (base :: map fst L) with (map fst ((base, 0) :: L)). rewrite HK, map_app. apply elem_of_app. right. left.
  - destruct take_parts as (_ & _ & _ & _ & A1 & _). clear H.
    destruct K as [|[b t] K']; cbn in HK; [by intros a ?%elem_of_nil|]. injection HK as <- <- HL. rewrite HL in A1. apply apart_app in A1 as (A1 & A2 & A3 & _). apply apart_le in A1 as Hle.
    intros a [->|([c u] & -> & Hin)%list_elem_of_fmap]%elem_of_cons; [cbn; lia|]. destruct (apart_in _ _ _ _ _ A1 Hin) as (B1 & B2 & B3).
    unfold HDR in *. cbn. lia.
Qed.

Lemma take_exact : s = sp -> taken base top h l s (padd p 1) (set_freep pp (set_ptr pp (ptr h p) h)) (L ++ G).
Proof using H HK Hs.
  intros ->. destruct take_parts as (E1 & E2 & C1 & C2 & A1 & A2 & A3). destruct take_pp as [Hpp HKpp].
  pose proof (take_low_addr pp Hpp) as Hb. pose proof (apart_le _ _ _ A3) as Hle.
  assert (padd (padd p 1) (-1) = p) as Ep by (unfold padd, HDR; lia). unfold taken. rewrite Ep.
  assert (forall a, a <> pp -> hdr (set_freep pp (set_ptr pp (ptr h p) h)) a = hdr h a) as Hf.
  { intros a Ha. rewrite hdr_set_freep. unfold set_ptr. by rewrite hdr_set, decide_False. }
  assert (forall x, covers (L ++ G) x -> ~ p <= x < p + HDR * sp) as Hout.
  { intros x [(a & t & Hin & Hx)|(a & t & Hin & Hx)]%covers_app Hx'.
    - destruct (take_low a t) as (_ & _ & _ & ?); [by right|]. lia.
    - destruct (apart_in _ _ _ _ _ A3 Hin). lia. }
  split; [split|split; [|split; [|split]]].
  - exact (ho_base _ _ _ _ H).
  - change ((base, 0) :: L ++ G) with (((base, 0) :: L) ++ G). rewrite HK, <- app_assoc. apply chain_app. cbn [app map hd fst]. split; [|split].
    + eapply chain_ext; [|exact C1]. intros a Ha%HKpp. apply Hf. lia.
    + rewrite hdr_set_freep. unfold set_ptr, ptr, size. rewrite hdr_set, decide_True by done. by rewrite E1, E2.
    + eapply chain_ext; [|exact C2]. intros a Ha%take_high_addr. apply Hf. unfold HDR in *. lia.
  - apply apart_app. split; [done|]. eapply apart_lower; [exact A3|]. unfold HDR in *. lia.
  - exact (ho_top _ _ _ _ H).
  - cbn. rewrite map_app. apply elem_of_cons in Hpp as [->|Hpp]; [left|right]. apply elem_of_app. by left.
  - split; [lia|]. split; [unfold size; rewrite Hf by lia; by rewrite E2|]. split; [lia|]. split; [lia|]. intros x Hx Hc. by eapply Hout.
  - intros x. rewrite !covers_app, covers_cons. tauto.
  - intros a Ha Hc. apply Hf. intros ->. apply Hc. apply elem_of_cons in Hpp as [->|Hpp]; [done|]. apply covers_app. left. by eapply covered.
  - rewrite !length_app. cbn. lia.
Qed.

Lemma take_tail : s < sp ->
  let h1 := set_size p (u32 (sp - s)) h in
  let bp := padd p (sp - s) in
  taken base top h l s (padd bp 1) (set_freep pp (set_size bp s h1)) (L ++ (p, sp - s) :: G).
Proof using H HK Hs.
  intros Hlt. destruct take_parts as (E1 & E2 & C1 & C2 & A1 & A2 & A3). destruct take_pp as [Hpp HKpp].
  pose proof (take_low_addr pp Hpp) as Hb. pose proof (apart_le _ _ _ A3) as Hle. pose proof (ho_top _ _ _ _ H) as Ht. pose proof (ho_base _ _ _ _ H) as H0.
  cbv zeta. set (bp := padd p (sp - s)). set (h1 := set_size p (u32 (sp - s)) h).
  assert (p < bp /\ bp + HDR * s = p + HDR * sp) as [Hbp Hend] by (unfold bp, padd, HDR; lia).
  assert (u32 (sp - s) = sp - s) as Eu by (apply u32_small; unfold HDR in *; lia).
  assert (padd (padd bp 1) (-1) = bp) as Ep by (unfold padd, HDR; lia). unfold taken. rewrite Ep. set (h' := set_freep pp (set_size bp s h1)).
  assert (forall a, a <> p -> a <> bp -> hdr h' a = hdr h a) as Hf.
  { intros a Ha Ha'. unfold h', h1. rewrite hdr_set_freep. unfold set_size. by rewrite !hdr_set, !decide_False. }
  assert (hdr h' p = Hdr (hd base (map fst G)) (sp - s)) as Ep'.
  { unfold h', h1. rewrite hdr_set_freep. unfold set_size, ptr. rewrite !hdr_set. rewrite decide_False, decide_True by lia. by rewrite E2, Eu. }
  assert (forall x, covers (L ++ (p, sp - s) :: G) x -> ~ bp <= x < bp + HDR * s) as Hout.
  { intros x [(a & t & Hin & Hx)|[Hx|(a & t & Hin & Hx)]%covers_cons]%covers_app Hx'.
    - destruct (take_low a t) as (_ & _ & _ & ?); [by right|]. lia.
    - unfold bp, padd in *. lia.
    - destruct (apart_in _ _ _ _ _ A3 Hin). lia. }
  split; [split|split; [|split; [|split]]].
  - done.
  - change ((base, 0) :: L ++ (p, sp - s) :: G) with (((base, 0) :: L) ++ (p, sp - s) :: G). apply chain_app. cbn [map hd fst]. split; [|split].
    + rewrite HK. apply chain_app. split; [|split; [|done]].
      * eapply chain_ext; [|exact C1]. intros a Ha%HKpp. apply Hf; lia.
      * rewrite Hf by lia. done.
    + done.
    + eapply chain_ext; [|exact C2]. intros a Ha%take_high_addr. apply Hf; unfold HDR in *; lia.
  - apply apart_app. split; [done|]. cbn [apart]. split; [done|]. split; [lia|]. eapply apart_lower; [exact A3|]. unfold HDR. lia.
  - done.
  - cbn. rewrite map_app. apply elem_of_cons in Hpp as [->|Hpp]; [left|right]. apply elem_of_app. by left.
  - split; [lia|]. split; [|split; [lia|split; [lia|]]].
    + unfold size, h'. rewrite hdr_set_freep. unfold set_size at 1. by rewrite hdr_set, decide_True.
    + intros x Hx Hc. by eapply Hout.
  - intros x. rewrite !covers_app, !covers_cons. assert (p <= x < p + HDR * sp <-> p <= x < p + HDR * (sp - s) \/ bp <= x < bp + HDR * s) as -> by (unfold bp, padd, HDR; lia). tauto.
  - intros a Ha Hc. apply Hf; intros ->; apply Hc; apply covers_app; right; apply covers_cons; left; unfold HDR in *; lia.
  - rewrite !length_app. cbn. lia.
Qed.

Lemma take_spec : exists l', let r := take_block h pp p s in taken base top h l s r.1 r.2 l'.
Proof using H HK Hs.
  destruct take_parts as (_ & E2 & _). assert (size h p = sp) as Esz by (unfold size; by rewrite E2).
  cbv zeta. unfold take_block. cbv zeta. rewrite Esz. zcase (sp =? s) as E.
  - exists (L ++ G). by apply take_exact.
  - exists (L ++ (p, sp - s) :: G). cbn [fst snd].
    assert (size (set_size p (u32 (sp - s)) h) p = sp - s) as ->.
    { unfold set_size, size at 1. rewrite hdr_set, decide_True by done. cbn [hd_size]. destruct take_parts as (_ & _ & _ & _ & A1 & A2 & A3).
      apply apart_le in A1, A3. pose proof (ho_top _ _ _ _ H). pose proof (ho_base _ _ _ _ H). apply u32_small. unfold HDR in *. lia. }
    apply take_tail. lia.
Qed.
End Take.

(** The block after position [i], when it is large enough. *)
Lemma take_next base top h l i s : heap_ok base top h l -> (i < S (length l))%nat -> 0 < s -> s <= size h (addr base l (next base l i)) ->
  exists l', let r := take_block h (addr base l i) (addr base l (next base l i)) s in taken base top h l s r.1 r.2 l'.
Proof.
  intros H Hi Hs Hsz. destruct (ring_hdr base top h l H (next base l i)) as [_ Esz]; [by apply next_lt|]. rewrite Esz in Hsz.
  unfold next in *. case_decide as Ed; [|cbn in Hsz; lia]. cbn [length nth] in *.
  destruct (nth i l (base, 0)) as [p sp] eqn:En. cbn [snd] in Hsz.
  assert (addr base l (S i) = p) as -> by (unfold addr; cbn [nth]; by rewrite En).
  pose proof (split_nth l i (base, 0) ltac:(lia)) as El. rewrite En in El.
  assert ((base, 0) :: take i l = take i ((base, 0) :: l) ++ [nth i ((base, 0) :: l) (base, 0)]) as HK.
  { change ((base, 0) :: take i l) with (take (S i) ((base, 0) :: l)). rewrite (split_nth ((base, 0) :: l) i (base, 0)) at 1 by (cbn; lia).
    rewrite take_app_ge by (rewrite length_take; cbn; lia). rewrite length_take_le by (cbn; lia). replace (S i - i)%nat with 1%nat by lia. done. }
  destruct (nth i ((base, 0) :: l) (base, 0)) as [pp spp] eqn:Epp. assert (addr base l i = pp) as -> by (unfold addr; by rewrite Epp).
  rewrite El in H |- *. eapply take_spec; [exact H|exact HK|lia].
Qed.

(** ** What the allocator relies on

    The kernel's promise for sbrk() with a positive argument: it fails and leaves the break
    where it was, or returns the old break and moves it up. *)
Class Brk (W : Type) (k : kernel W) := {
  brk : W -> Z;
  brk_bound : forall w, brk w <= 34359738368;
  sbrk_grows : forall n w, 0 < n ->
    (k _ (USbrk n) w).1 = -1 /\ brk (k _ (USbrk n) w).2 = brk w \/
    (k _ (USbrk n) w).1 = brk w /\ brk (k _ (USbrk n) w).2 = brk w + n;
}.

(** *** A round of the list *)

Section Search.
Context (base top : Z) (h : heap) (l : list (Z * Z)) (H : heap_ok base top h l) (fi : nat) (ff : nat) (s : Z).
Abbreviation n := (S (length l)).
Context (Hfi : (fi < n)%nat) (Hfp : freep h = addr base l fi) (Hs : 0 < s).

(** [e] positions after [freep]. *)
Definition pos (e : nat) : nat := Nat.modulo (fi + e) n.

Lemma pos_lt e : (pos e < n)%nat.
Proof using Hfi. apply Nat.mod_upper_bound. clear. lia. Qed.

Lemma pos_0 : pos 0 = fi.
Proof using Hfi. unfold pos. rewrite Nat.add_0_r. by apply Nat.mod_small. Qed.

Lemma pos_wrap x : (x < n)%nat -> Nat.modulo (x + n) n = x.
Proof using Hfi. intros Hx. replace (x + n)%nat with (x + 1 * n)%nat by lia. rewrite Nat.Div0.mod_add. by apply Nat.mod_small. Qed.

Lemma pos_n : pos n = fi.
Proof using Hfi. by apply pos_wrap. Qed.

Lemma pos_next e : next base l (pos e) = pos (S e).
Proof using Hfi.
  unfold next. cbn [length]. pose proof (pos_lt e) as Hlt. unfold pos in *. rewrite Nat.add_succ_r.
  pose proof (Nat.div_mod (fi + e) n ltac:(lia)) as E. set (q := Nat.div (fi + e) n) in *. set (r := Nat.modulo (fi + e) n) in *.
  case_decide as Ed.
  - apply (Nat.mod_unique _ _ q); [done|lia].
  - apply (Nat.mod_unique _ _ (S q)); [lia|]. assert (S r = n) by lia. lia.
Qed.

Lemma pos_home e : (1 <= e <= n)%nat -> pos e = fi -> e = n.
Proof using Hfi.
  intros He Ep. unfold pos in Ep. destruct (decide (fi + e < n)%nat) as [Hl|Hl].
  - rewrite Nat.mod_small in Ep by done. lia.
  - replace (fi + e)%nat with ((fi + e - n) + n)%nat in Ep by lia. rewrite pos_wrap in Ep by lia. lia.
Qed.

Lemma pos_onto i : (i < n)%nat -> exists e, (1 <= e <= n)%nat /\ pos e = i.
Proof using Hfi.
  intros Hi. destruct (decide (fi < i)%nat) as [Hl|Hl].
  - exists (i - fi)%nat. split; [lia|]. unfold pos. replace (fi + (i - fi))%nat with i by lia. by apply Nat.mod_small.
  - exists (i + n - fi)%nat. split; [lia|]. unfold pos. replace (fi + (i + n - fi))%nat with (i + n)%nat by lia. by apply pos_wrap.
Qed.

Lemma addr_inj i j : (i < n)%nat -> (j < n)%nat -> addr base l i = addr base l j -> i = j.
Proof using H Hfi.
  intros Hi Hj E. destruct (Nat.lt_trichotomy i j) as [Hlt|[?|Hlt]]; [|done|].
  - pose proof (addr_mono base top h l H i j ltac:(cbn; lia)). lia.
  - pose proof (addr_mono base top h l H j i ltac:(cbn; lia)). lia.
Qed.

(** The loop takes the first block that is large enough, or goes round once and asks for more. *)
Lemma malloc_search : forall d e f, (e + S d = n)%nat -> (S d <= f)%nat ->
  (forall e', (1 <= e' <= e)%nat -> size h (addr base l (pos e')) < s) ->
  (exists r l', malloc_loop f ff h s (addr base l (pos e)) (addr base l (pos (S e))) = Ret r /\ taken base top h l s r.1 r.2 l') \/
  (forall i, (i < n)%nat -> size h (addr base l i) < s) /\
  malloc_loop f ff h s (addr base l (pos e)) (addr base l (pos (S e))) =
    (r <- morecore ff h s ;;
     let '(p, h) := (r : Z * heap) in
     if p =? 0 then Ret (0, h) else malloc_loop (f - S d) ff h s p (ptr h p))%prog.
Proof using H Hfi Hfp Hs.
  induction d as [|d IH]; intros e f Hd Hf Hsm; (destruct f as [|f]; [lia|]); cbn [malloc_loop].
  all: zcase (s <=? size h (addr base l (pos (S e)))) as Es.
  all: try (left; rewrite <- pos_next in Es |- *; destruct (take_next base top h l (pos e) s H (pos_lt e) Hs Es) as (l' & Ht); by eexists _, l').
  - assert (S e = n) as -> by lia. rewrite pos_n, Hfp, Z.eqb_refl. right. split; [|by rewrite Nat.sub_succ, Nat.sub_0_r].
    intros i Hi. destruct (pos_onto i Hi) as (e' & He' & <-). destruct (decide (e' = n)) as [->|Hne]; [|apply Hsm; lia].
    replace n with (S e) by lia. lia.
  - zcase (addr base l (pos (S e)) =? freep h) as Ef.
    { rewrite Hfp in Ef. apply addr_inj in Ef; [|apply pos_lt|done]. apply pos_home in Ef; lia. }
    destruct (ring_hdr base top h l H (pos (S e)) (pos_lt _)) as [-> _]. rewrite pos_next.
    destruct (IH (S e) f ltac:(lia) ltac:(lia)) as [Hl|Hr]; [|by left|by right].
    intros e' He'. destruct (decide (e' = S e)) as [->|Hne]; [lia|apply Hsm; lia].
Qed.
End Search.

(** *** More memory *)

Lemma apart_end l : forall lo hi a t, apart lo l hi -> (a, t) ∈ l -> ~ covers l (a + HDR * t).
Proof.
  intros lo hi a t Ha Hin (b & u & Hin' & Hx). revert lo Ha Hin Hin'.
  induction l as [|[c v] l IH]; intros lo Ha; [by intros ?%elem_of_nil|]. destruct Ha as (A1 & A2 & A3).
  intros [E|Hin]%elem_of_cons [E'|Hin']%elem_of_cons; try injection E as -> ->; try injection E' as -> ->.
  - unfold HDR in *. lia.
  - destruct (apart_in _ _ _ _ _ A3 Hin'). lia.
  - destruct (apart_in _ _ _ _ _ A3 Hin) as (B1 & B2 & _). unfold HDR in *. lia.
  - by eapply IH.
Qed.

(** Consecutive free bytes are in one block. *)
Lemma covers_block base hi l bp s : apart base l hi -> 0 < s -> (forall x, bp <= x < bp + HDR * s -> covers l x) ->
  exists a t, (a, t) ∈ l /\ s <= t.
Proof.
  intros Ha Hs Hc. destruct (Hc bp) as (a & t & Hin & Hx); [unfold HDR; lia|]. exists a, t. split; [done|].
  destruct (decide (s <= t)); [done|]. exfalso. apply (apart_end l base hi a t Ha Hin). apply Hc. unfold HDR in *. lia.
Qed.

Lemma heap_ok_grow base top top' h l bp s : heap_ok base top h l -> top <= bp -> top <= top' <= 34359738368 -> base < bp -> 
  heap_ok base top' (set_size bp s h) l.
Proof.
  intros H Hbp Ht Hb. split.
  - exact (ho_base _ _ _ _ H).
  - eapply chain_ext; [|exact (ho_chain _ _ _ _ H)]. intros a Ha. unfold set_size. rewrite hdr_set, decide_False; [done|].
    apply elem_of_cons in Ha as [->|([b t] & -> & Hin)%list_elem_of_fmap]; [cbn; lia|].
    destruct (apart_in _ _ _ _ _ (ho_apart _ _ _ _ H) Hin) as (B1 & B2 & B3). unfold HDR in *. cbn. lia.
  - eapply apart_mono; [exact (ho_apart _ _ _ _ H)|lia].
  - lia.
  - exact (ho_freep _ _ _ _ H).
Qed.

Section Malloc.
Context {W : Type} (k : kernel W) `{!Brk W k}.

Definition request (s : Z) : Z := if s <? 4096 then 4096 else s.

Lemma morecore_spec base h l s ff w : heap_ok base (brk w) h l -> base < brk w -> 0 < s -> HDR * s < 2147483648 -> (S (length l) <= ff)%nat ->
  (exists w', exec_prog k (morecore ff h s) w = (RRet (0, h), w') /\ brk w' = brk w) \/
  exists h' l' w', exec_prog k (morecore ff h s) w = (RRet (freep h', h'), w') /\ brk w' = brk w + HDR * request s /\
    freed base (brk w') h l (brk w) (request s) h' l'.
Proof.
  intros H Hbw Hs Hlim Hf. unfold morecore. fold (request s). assert (0 < request s /\ HDR * request s < 2147483648) as [Hr Hrl].
  { unfold request. zcase (s <? 4096) as E; unfold HDR in *; lia. }
  rewrite exec_bind, exec_call. rewrite s32_small by (unfold HDR in *; lia). replace (request s * HDR) with (HDR * request s) by lia.
  destruct (sbrk_grows (HDR * request s) w ltac:(unfold HDR; lia)) as [[-> Hw]|[-> Hw]]; set (w' := (k Z (USbrk (HDR * request s)) w).2) in *.
  - left. exists w'. by cbn.
  - right. pose proof (ho_base _ _ _ _ H) as H0. pose proof (apart_le _ _ _ (ho_apart _ _ _ _ H)) as Hb.
    zcase (brk w =? -1) as E; [lia|]. set (h1 := set_size (brk w) (request s) h).
    assert (forall a, a <> brk w -> hdr h1 a = hdr h a) as Hh1.
    { intros a Ha. unfold h1, set_size. by rewrite hdr_set, decide_False. }
    assert (heap_ok base (brk w') h1 l) as H1 by (eapply heap_ok_grow; [exact H|lia|pose proof (brk_bound w'); unfold HDR in *; lia|lia]).
    assert (forall a t, (a, t) ∈ l -> a + HDR * t <= brk w) as Hin.
    { intros a t Hin. by destruct (apart_in _ _ _ _ _ (ho_apart _ _ _ _ H) Hin) as (_ & _ & ?). }
    assert (block_at base (brk w') h1 l (brk w) (request s)) as Hbl.
    { split; [done|]. split; [unfold size, h1, set_size; by rewrite hdr_set, decide_True|]. split; [done|]. split; [lia|].
      intros x Hx (a & t & Hat & Hx'). specialize (Hin a t Hat). lia. }
    destruct (free_spec base (brk w') h1 l (brk w) (request s) ff H1 Hbl Hf) as (h' & l' & -> & Hfr). exists h', l', w'. split; [done|]. split; [done|].
    destruct Hfr as (F1 & F2 & F3 & F4). split; [done|]. split; [done|]. split; [|done]. intros a A1 A2 A3. rewrite F3 by done. by apply Hh1.
Qed.

(** What malloc() makes of the heap: a block of its own for the caller, out of the free
    bytes and those the kernel has added. *)
Definition allocated (base : Z) (h : heap) (l : list (Z * Z)) (w : W) (s q : Z) (h' : heap) (w' : W) (l' : list (Z * Z)) : Prop :=
  heap_ok base (brk w') h' l' /\ block_at base (brk w') h' l' (padd q (-1)) s /\ brk w <= brk w' /\
  (forall x, covers l x \/ brk w <= x < brk w' <-> covers l' x \/ padd q (-1) <= x < padd q (-1) + HDR * s) /\
  (forall a, a <> base -> a < brk w -> ~ covers l a -> hdr h' a = hdr h a).

Lemma malloc_start base top h l f ff s : heap_ok base top h l -> 0 < s -> (S (length l) <= f)%nat ->
  (exists r l', malloc_loop f ff h s (freep h) (ptr h (freep h)) = Ret r /\ taken base top h l s r.1 r.2 l') \/
  (forall a t, (a, t) ∈ l -> t < s) /\
  malloc_loop f ff h s (freep h) (ptr h (freep h)) =
    (r <- morecore ff h s ;;
     let '(p, h) := (r : Z * heap) in
     if p =? 0 then Ret (0, h) else malloc_loop (f - S (length l)) ff h s p (ptr h p))%prog.
Proof using.
  intros H Hs Hf. destruct (freep_addr base top h l H) as (fi & Hfi & Efp). cbn [length] in Hfi.
  destruct (ring_hdr base top h l H fi Hfi) as [Ep _]. rewrite Efp, Ep. rewrite <- (pos_0 l fi Hfi), pos_next by done.
  destruct (malloc_search base top h l H fi ff s Hfi Efp Hs (length l) 0 f ltac:(lia) Hf ltac:(lia)) as [Hl|[Hsm Hr]]; [by left|right].
  split; [|done]. intros a t Hin. apply list_elem_of_In, (In_nth _ _ (base, 0)) in Hin as (i & Hi & Ei).
  specialize (Hsm (S i) ltac:(lia)). destruct (ring_hdr base top h l H (S i) ltac:(cbn; lia)) as [_ Es]. rewrite Es in Hsm.
  cbn [nth] in Hsm. by rewrite Ei in Hsm.
Qed.

Lemma malloc_loop_spec base h l s f ff w : heap_ok base (brk w) h l -> base < brk w -> 0 < s -> HDR * s < 2147483648 ->
  (S (length l) <= ff)%nat -> (2 * length l + 3 <= f)%nat ->
  exists q h' w', exec_prog k (malloc_loop f ff h s (freep h) (ptr h (freep h))) w = (RRet (q, h'), w') /\
    ((q = 0 /\ h' = h /\ brk w' = brk w /\ forall a t, (a, t) ∈ l -> t < s) \/ exists l', allocated base h l w s q h' w' l').
Proof.
  intros H Hbw Hs Hlim Hff Hf. destruct (malloc_start base (brk w) h l f ff s H Hs ltac:(lia)) as [([q h'] & l' & -> & Ht)|[Hsm ->]].
  { exists q, h', w. split; [done|]. right. exists l'. destruct Ht as (T1 & T2 & T3 & T4 & _). split; [done|]. split; [done|]. split; [lia|].
    split; [|by intros a A1 _ A2; apply T4]. intros x. cbn [fst] in *. rewrite <- T3. intuition lia. }
  rewrite exec_bind. destruct (morecore_spec base h l s ff w H Hbw Hs Hlim Hff) as [(w' & -> & Hw)|(h1 & l1 & w' & -> & Hw & F1 & F2 & F3 & F4)].
  { exists 0, h, w'. split; [done|]. left. done. }
  destruct (freep_addr _ _ _ _ F1) as (i & Hi & Ei). pose proof (addr_base _ _ _ _ F1 i Hi) as Hb. pose proof (ho_base _ _ _ _ H) as H0.
  zcase (freep h1 =? 0) as E0; [lia|]. destruct (malloc_start base (brk w') h1 l1 (f - S (length l)) ff s F1 Hs ltac:(lia)) as [([q h'] & l' & -> & Ht)|[Hsm' _]].
  - exists q, h', w'. split; [done|]. right. exists l'. destruct Ht as (T1 & T2 & T3 & T4 & _). split; [done|]. split; [done|].
    assert (0 <= HDR * request s) by (unfold HDR, request; zcase (s <? 4096) as E; lia). split; [lia|]. split.
    + intros x. cbn [fst] in *. rewrite <- T3, F2. by replace (brk w') with (brk w + HDR * request s) by lia.
    + intros a A1 A2 A3. rewrite T4; [apply F3; [done|lia|done]|done|]. rewrite F2. intros [?|?]; [done|lia].
  - exfalso. destruct (covers_block base (brk w') l1 (brk w) (request s) (ho_apart _ _ _ _ F1)) as (a & t & Hin & Ht).
    + unfold request. zcase (s <? 4096) as E; lia.
    + intros x Hx. apply F2. by right.
    + specialize (Hsm' a t Hin). unfold request in Ht. destruct (s <? 4096) eqn:E; lia.
Qed.
End Malloc.

Lemma units_spec nbytes : 0 <= nbytes <= 2147483600 -> 0 < units nbytes /\ nbytes + HDR <= HDR * units nbytes < nbytes + 2 * HDR /\ HDR * units nbytes < 2147483648.
Proof.
  intros Hn. unfold units. rewrite (u64_small (nbytes + HDR - 1)) by (unfold HDR; lia). rewrite u32_small by (unfold HDR; dlia).
  unfold HDR. dlia.
Qed.

(** A kernel with [limit] bytes for the program.  A negative argument beyond the break
    leaves it where it is, as in growproc(). *)
Definition arena (limit : Z) : kernel Z :=
  fun X e => match e in sys X return Z -> X * Z with
  | USbrk n => fun b =>
      let b := Z.min b limit in
      if 0 <=? n then if b + n <=? limit then (b, b + n) else (-1, b)
      else if 0 <=? b + n then (b, b + n) else (b, b)
  | URead f n => fun w => ((-1, []), w)
  | UWait => fun w => ((-1, 0), w)
  | UPipe => fun w => ((-1, (0, 0)), w)
  | UFork | UWrite _ _ | UClose _ | UKill _ | UExec _ _ | UOpen _ _ | UMknod _ _ _ | UUnlink _ | ULink _ _ | UMkdir _ | UChdir _
  | UDup _ | UGetpid | USleep _ | UUptime | UTrace _ => fun w => (-1, w)
  | UFstat _ => fun w => ((-1, Stat 0 0 0 0 0), w)
  end.

#[export] Instance arena_brk limit : limit <= 34359738368 -> Brk Z (arena limit).
Proof.
  intros Hl. refine {| brk := fun b => Z.min b limit |}.
  - intros w. lia.
  - intros n w Hn. cbn. zcase (0 <=? n) as E; [|lia]. zcase (Z.min w limit + n <=? limit) as E'; cbn; [right|left]; lia.
Defined.

(** C25: free() of a block apart from the free ones, from any heap whose free list is in order,
    ends and leaves the list in order with exactly the block's bytes added to the free ones,
    joined with its neighbours; no header outside the free blocks changes. *)
Theorem free_correct base top h l ap s fuel :
  heap_ok base top h l -> block_at base top h l (padd ap (-1)) s -> (S (length l) <= fuel)%nat ->
  exists h' l', free fuel h ap = Some h' /\ heap_ok base top h' l' /\
    (forall x, covers l' x <-> covers l x \/ padd ap (-1) <= x < padd ap (-1) + HDR * s) /\
    (forall a, a <> base -> a <> padd ap (-1) -> ~ covers l a -> hdr h' a = hdr h a).
Proof.
  intros H Hb Hf. assert (padd (padd ap (-1)) 1 = ap) as Ea by (unfold padd, HDR; lia).
  destruct (free_spec base top h l _ s fuel H Hb Hf) as (h' & l' & E & F1 & F2 & F3 & _). rewrite Ea in E.
  by exists h', l'.
Qed.


(** A free block of 4000 units and, after it, one of 96 in use. *)
Definition demo_heap : heap := Heap {[ 16 := Hdr 4096 0; 4096 := Hdr 16 4000; 68096 := Hdr 0 96 ]} 16.

Lemma demo_heap_ok : heap_ok 16 69632 demo_heap [(4096, 4000)].
Proof. split; [lia|done|cbn; unfold HDR; lia|lia|left]. Defined.

Lemma free_correct_witness : exists h' l', free 5 demo_heap 68112 = Some h' /\ heap_ok 16 69632 h' l' /\
    (forall x, covers l' x <-> covers [(4096, 4000)] x \/ 68096 <= x < 69632) /\
    (forall a, a <> 16 -> a <> 68096 -> ~ covers [(4096, 4000)] a -> hdr h' a = hdr demo_heap a).
Proof.
  apply (free_correct 16 69632 demo_heap [(4096, 4000)] 68112 96 5 demo_heap_ok); [|cbn; lia].
  split; [unfold padd, HDR; lia|]. split; [done|]. split; [lia|]. split; [unfold padd, HDR; lia|].
  intros x Hx (a & s & [E|?%elem_of_nil]%elem_of_cons & Hs); [injection E as -> ->; unfold padd, HDR in *; lia|done].
Defined.


(** malloc() of two gigabytes: the size given to sbrk() is negative as an [int], sbrk()
    returns the break without moving it, and the block malloc() makes is beyond it. *)
Theorem malloc_overflow : exists q h', exec_prog (arena 1000000) (malloc 20 16 (Heap ∅ 0) 2147483648) 8192 = (RRet (q, h'), 8192) /\ 8192 <= q.
Proof. eexists _, _. split; [vm_compute; reflexivity|lia]. Qed.
