(* ===== verification/Ring.v ===== *)
(** * Ring buffers with free-running indices

    The console's and the UART's buffers: [buf] has [N] bytes, the indices count the bytes
    ever stored and taken modulo [M], the range of their type, and the byte with index [i]
    is in [buf[i % N]]. *)
From S2P Require Import Prelude.

Section Ring.
Context (N M : Z) (HN : 0 < N) (HM : N < M) (HD : (N | M)).

(** The number of bytes from index [r] up to index [w], and the bytes. *)
Definition rlen (r w : Z) : Z := (w - r) mod M.
Definition rget (buf : list Z) (i : Z) : Z := znth 0 buf (i mod N).
Definition rbytes (buf : list Z) (r w : Z) : list Z := (fun j => rget buf (r + j)) <$> seqZ 0 (rlen r w).

Lemma rlen_range r w : 0 <= rlen r w < M.
Proof using HN HM. apply Z.mod_pos_bound. lia. Qed.

Lemma zlen_rbytes buf r w : zlen (rbytes buf r w) = rlen r w.
Proof using HN HM. unfold zlen, rbytes. rewrite length_fmap, length_seqZ. pose proof (rlen_range r w). lia. Qed.

Lemma rlen_nn r : rlen r r = 0.
Proof using HN HM. unfold rlen. rewrite Z.sub_diag. apply Z.mod_0_l. lia. Qed.

Lemma rlen_0 r w : 0 <= r < M -> 0 <= w < M -> rlen r w = 0 -> r = w.
Proof using HN HM.
  unfold rlen. intros Hr Hw E. apply Z.mod_divide in E as [k Hk]; [|lia]. assert (k = 0) as -> by nia. lia.
Qed.

(** Indices may be reduced modulo [M]. *)
Lemma rlen_mod_r r w : rlen r (w mod M) = rlen r w.
Proof using HN HM. unfold rlen. by rewrite Zminus_mod_idemp_l. Qed.
Lemma rlen_mod_l r w : rlen (r mod M) w = rlen r w.
Proof using HN HM. unfold rlen. by rewrite Zminus_mod_idemp_r. Qed.
Lemma rget_mod buf i j : rget buf (i mod M + j) = rget buf (i + j).
Proof using HN HM HD.
  unfold rget. destruct HD as [q E]. f_equal. rewrite (Z.mod_eq i M) by lia. rewrite E.
  replace (i - q * N * (i / (q * N)) + j) with (i + j + (- (q * (i / (q * N)))) * N) by lia. by rewrite Z_mod_plus_full.
Qed.
Lemma rget_mod' buf i : rget buf (i mod M) = rget buf i.
Proof using HN HM HD. pose proof (rget_mod buf i 0) as E. by rewrite !Z.add_0_r in E. Qed.
Lemma rbytes_mod_l buf r w : rbytes buf (r mod M) w = rbytes buf r w.
Proof using HN HM HD. unfold rbytes. rewrite rlen_mod_l. apply list_fmap_ext. intros i x _. apply rget_mod. Qed.
Lemma rbytes_mod_r buf r w : rbytes buf r (w mod M) = rbytes buf r w.
Proof using HN HM. unfold rbytes. by rewrite rlen_mod_r. Qed.

Lemma rlen_add r w k : 0 <= k -> rlen r w + k < M -> rlen r (w + k) = rlen r w + k.
Proof using HN HM.
  intros Hk Hl. pose proof (rlen_range r w). unfold rlen in *. replace (w + k - r) with (w - r + k) by lia.
  rewrite <- Zplus_mod_idemp_l. apply Z.mod_small. lia.
Qed.

Lemma rbytes_nil buf r w : rlen r w = 0 -> rbytes buf r w = [].
Proof using. intros E. unfold rbytes. by rewrite E. Qed.

(** The bytes up to [w], then those from [w] on. *)
Lemma rbytes_app buf r w k : 0 <= k -> rlen r w + k < M -> rbytes buf r (w + k) = rbytes buf r w ++ ((fun j => rget buf (w + j)) <$> seqZ 0 k).
Proof using HN HM HD.
  intros Hk Hl. unfold rbytes. rewrite rlen_add by done. pose proof (rlen_range r w) as Hr. rewrite seqZ_app by lia. rewrite fmap_app. f_equal.
  rewrite (Z.add_comm 0). rewrite <- fmap_add_seqZ, <- list_fmap_compose. apply list_fmap_ext.
  intros i x _. cbn. unfold rlen. rewrite <- (rget_mod' buf (r + _)), <- (rget_mod' buf (w + x)). f_equal.
  replace (r + ((w - r) mod M + x)) with ((w - r) mod M + (r + x)) by lia. rewrite Zplus_mod_idemp_l. f_equal. lia.
Qed.

Lemma rbytes_split buf r w e : rlen r w + rlen w e < M -> rbytes buf r e = rbytes buf r w ++ rbytes buf w e.
Proof using HN HM HD.
  intros Hl. pose proof (rlen_range w e) as Hr. pose proof (rbytes_app buf r w (rlen w e) ltac:(lia) Hl) as E. fold (rbytes buf w e) in E.
  rewrite <- E. rewrite <- (rbytes_mod_r buf r (w + rlen w e)). unfold rlen. rewrite Zplus_mod_idemp_r.
  replace (w + (e - w)) with e by lia. by rewrite rbytes_mod_r.
Qed.

Lemma rlen_split r w e : rlen r w + rlen w e < M -> rlen r e = rlen r w + rlen w e.
Proof using HN HM HD.
  intros Hl. rewrite <- !(zlen_rbytes []). rewrite (rbytes_split _ r w e) by done. unfold zlen. rewrite length_app. lia.
Qed.

(** A byte off the front. *)
Lemma rlen_pop r w : 0 < rlen r w -> rlen (r + 1) w = rlen r w - 1.
Proof using HN HM.
  intros Hl. pose proof (rlen_range r w) as Hr. unfold rlen in *. replace (w - (r + 1)) with (w - r - 1) by lia.
  rewrite <- Zminus_mod_idemp_l. apply Z.mod_small. lia.
Qed.

Lemma rbytes_pop buf r w : 0 < rlen r w -> rbytes buf r w = rget buf r :: rbytes buf (r + 1) w.
Proof using HN HM.
  intros Hl. unfold rbytes. rewrite rlen_pop by done. rewrite seqZ_cons by lia. cbn [fmap list_fmap]. rewrite Z.add_0_r. f_equal.
  replace (Z.pred (rlen r w)) with (rlen r w - 1) by lia. replace (Z.succ 0) with (1 + 0) by lia. rewrite <- fmap_add_seqZ, <- list_fmap_compose.
  apply list_fmap_ext. intros i x _. cbn. f_equal. lia.
Qed.

(** A byte off the back. *)
Lemma rlen_back r w : 0 < rlen r w -> rlen r (w - 1) = rlen r w - 1.
Proof using HN HM.
  intros Hl. pose proof (rlen_range r w) as Hr. unfold rlen in *. replace (w - 1 - r) with (w - r - 1) by lia.
  rewrite <- Zminus_mod_idemp_l. apply Z.mod_small. lia.
Qed.

Lemma rbytes_back buf r w : 0 < rlen r w -> rbytes buf r w = rbytes buf r (w - 1) ++ [rget buf (w - 1)].
Proof using HN HM HD.
  intros Hl. pose proof (rlen_range r w) as Hr. pose proof (rlen_back r w Hl) as E.
  pose proof (rbytes_app buf r (w - 1) 1 ltac:(lia) ltac:(lia)) as E1. replace (w - 1 + 1) with w in E1 by lia. rewrite E1. change (seqZ 0 1) with [0]. cbn [fmap list_fmap].
  by rewrite Z.add_0_r.
Qed.

(** A byte stored at the back. *)
Lemma rget_upd buf w b i : zlen buf = N -> rget (zupd buf (w mod N) b) i = if decide (i mod N = w mod N) then b else rget buf i.
Proof using HN.
  intros Hb. unfold rget. pose proof (Z.mod_pos_bound w N HN). pose proof (Z.mod_pos_bound i N HN). case_decide as E.
  - rewrite E. apply znth_zupd_eq. lia.
  - apply znth_zupd_ne; lia.
Qed.

(** Storing behind the bytes does not change them. *)
Lemma rbytes_upd buf r w b : zlen buf = N -> rlen r w < N -> rbytes (zupd buf (w mod N) b) r w = rbytes buf r w.
Proof using HN HM HD.
  intros Hb Hl. pose proof (rlen_range r w) as Hr. unfold rbytes. apply list_fmap_ext. intros i x Hx. rewrite rget_upd by done. rewrite decide_False; [done|].
  apply list_elem_of_lookup_2, elem_of_seqZ in Hx. intros E. unfold rlen in *.
  assert ((w - (r + x)) mod N = 0) as E1. { rewrite Zminus_mod, E, Z.sub_diag. apply Z.mod_0_l. lia. }
  destruct HD as [q EM]. assert (((w - r) mod M - x) mod N = 0) as E2.
  { rewrite <- E1. rewrite (Z.mod_eq (w - r) M) by lia. rewrite EM. replace (w - r - q * N * ((w - r) / (q * N)) - x) with (w - (r + x) + (- (q * ((w - r) / (q * N)))) * N) by lia.
    by rewrite Z_mod_plus_full. }
  rewrite Z.mod_small in E2; lia.
Qed.

Lemma rbytes_bump buf r w : rlen r w < N -> rbytes buf r (w + 1) = rbytes buf r w ++ [rget buf w].
Proof using HN HM HD.
  intros Hl. rewrite rbytes_app by lia. f_equal. change (seqZ 0 1) with [0]. cbn [fmap list_fmap]. by rewrite Z.add_0_r.
Qed.

Lemma rbytes_push buf r w b : zlen buf = N -> rlen r w < N -> rbytes (zupd buf (w mod N) b) r (w + 1) = rbytes buf r w ++ [b].
Proof using HN HM HD.
  intros Hb Hl. rewrite rbytes_bump, rbytes_upd by done. rewrite rget_upd by done. by rewrite decide_True.
Qed.

End Ring.
