(* ===== verification/Uart.v ===== *)
(** * The UART driver (kernel/uart.c)

    The chip is a parameter: [UartChip] gives what its registers return and what a write to
    them does, [Uart16550] what the driver relies on of the 16550.  The driver's state is
    its transmit buffer; its order is [stream]: the bytes the chip has taken, then those in
    the buffer. *)
From S2P Require Import Prelude Machine BioSpec Wp Ring.

(** ** Registers *)

Definition RHR : Z := 0.
Definition THR : Z := 0.
Definition IER : Z := 1.
Definition IER_RX_ENABLE : Z := Z.shiftl 1 0.
Definition IER_TX_ENABLE : Z := Z.shiftl 1 1.
Definition FCR : Z := 2.
Definition FCR_FIFO_ENABLE : Z := Z.shiftl 1 0.
Definition FCR_FIFO_CLEAR : Z := Z.shiftl 3 1.
Definition LCR : Z := 3.
Definition LCR_EIGHT_BITS : Z := Z.shiftl 3 0.
Definition LCR_BAUD_LATCH : Z := Z.shiftl 1 7.
Definition LSR : Z := 5.
Definition LSR_TX_IDLE : Z := Z.shiftl 1 5.

(** Reading and writing a register of the chip. *)
Class UartChip (D : Type) := {
  reg_read : Z -> D -> Z * D;
  reg_write : Z -> Z -> D -> D;
}.

(** What the driver relies on: [sent] is what the chip has taken for transmission,
    [waiting] the input not read yet (more may arrive at any access), [thr_empty] whether
    the transmit register has room, which the line status reports; a status read reports
    room after at most [tx_max] reads. *)
Class Uart16550 (D : Type) `{UartChip D} := {
  sent : D -> list Z;
  waiting : D -> list Z;
  thr_empty : D -> bool;
  tx_delay : D -> nat;
  tx_max : nat;
  tx_bound : forall d, (tx_delay d <= tx_max)%nat;
  lsr_sent : forall d, sent (reg_read LSR d).2 = sent d;
  lsr_waiting : forall d, exists l, waiting (reg_read LSR d).2 = waiting d ++ l;
  lsr_tx : forall d, truth (Z.land (reg_read LSR d).1 LSR_TX_IDLE) = true -> thr_empty (reg_read LSR d).2 = true;
  lsr_delay : forall d, truth (Z.land (reg_read LSR d).1 LSR_TX_IDLE) = false -> (tx_delay (reg_read LSR d).2 < tx_delay d)%nat;
  lsr_rx : forall d, truth (Z.land (reg_read LSR d).1 1) = bool_decide (waiting (reg_read LSR d).2 <> []);
  rhr_sent : forall d, sent (reg_read RHR d).2 = sent d;
  rhr_waiting : forall d c r, waiting d = c :: r -> (reg_read RHR d).1 = c /\ exists l, waiting (reg_read RHR d).2 = r ++ l;
  thr_sent : forall d c, thr_empty d = true -> sent (reg_write THR c d) = sent d ++ [u8 c];
  thr_waiting : forall d c, exists l, waiting (reg_write THR c d) = waiting d ++ l;
}.

(** ** The driver *)

Definition UART_TX_BUF_SIZE : Z := 32.

(** The chip, [panicked] of kernel/printf.c, and the transmit buffer. *)
Record uart (D : Type) := Uart {
  u_chip : D;
  u_panicked : Z;
  u_buf : list Z;
  u_w : Z;
  u_r : Z;
}.
Arguments Uart {D} u_chip u_panicked u_buf u_w u_r.
Arguments u_chip {D} u.
Arguments u_panicked {D} u.
Arguments u_buf {D} u.
Arguments u_w {D} u.
Arguments u_r {D} u.

Section Driver.
Context {D : Type} `{!UartChip D}.

Definition set_chip (d : D) (u : uart D) : uart D := Uart d (u_panicked u) (u_buf u) (u_w u) (u_r u).
Definition set_ubuf (b : list Z) (u : uart D) : uart D := Uart (u_chip u) (u_panicked u) b (u_w u) (u_r u).
Definition set_uw (x : Z) (u : uart D) : uart D := Uart (u_chip u) (u_panicked u) (u_buf u) x (u_r u).
Definition set_ur (x : Z) (u : uart D) : uart D := Uart (u_chip u) (u_panicked u) (u_buf u) (u_w u) x.
Definition set_panicked (x : Z) (u : uart D) : uart D := Uart (u_chip u) x (u_buf u) (u_w u) (u_r u).

Definition ReadReg (reg : Z) : M (uart D) Z := fun c u => Done (reg_read reg (u_chip u)).1 c (set_chip (reg_read reg (u_chip u)).2 u).
Definition WriteReg (reg v : Z) : M (uart D) unit := modify (fun u => set_chip (reg_write reg v (u_chip u)) u).

(** [for(;;);] *)
Definition forever {S A} : M S A := fun _ _ => Diverge.

Definition uartinit : M (uart D) unit :=
  WriteReg IER 0 ;;
  WriteReg LCR LCR_BAUD_LATCH ;;
  WriteReg 0 3 ;;
  WriteReg 1 0 ;;
  WriteReg LCR LCR_EIGHT_BITS ;;
  WriteReg FCR (Z.lor FCR_FIFO_ENABLE FCR_FIFO_CLEAR) ;;
  WriteReg IER (Z.lor IER_TX_ENABLE IER_RX_ENABLE) ;;
  initlock LUart.

(** [uart_tx_r] takes a step in each round, and the loop ends when it reaches [uart_tx_w]. *)
Fixpoint uartstart_loop (k : nat) : M (uart D) unit :=
  w <- gets u_w ;;
  r <- gets u_r ;;
  if w =? r then ret tt else
  match k with
  | O => forever
  | S k' =>
      lsr <- ReadReg LSR ;;
      if Z.land lsr LSR_TX_IDLE =? 0 then ret tt else
      b <- gets u_buf ;;
      let c := znth 0 b (r mod UART_TX_BUF_SIZE) in
      modify (set_ur (u64 (r + 1))) ;;
      wakeup ChUart ;;
      WriteReg THR c ;;
      uartstart_loop k'
  end.

Definition uartstart : M (uart D) unit :=
  w <- gets u_w ;;
  r <- gets u_r ;;
  uartstart_loop (Z.to_nat (u64 (w - r))).

Definition uartputc (c : Z) : M (uart D) unit :=
  acquire LUart ;;
  p <- gets u_panicked ;;
  if truth p then forever else
  sleep_while (fun u => u_w u =? u64 (u_r u + UART_TX_BUF_SIZE)) ChUart LUart ;;
  w <- gets u_w ;;
  b <- gets u_buf ;;
  modify (set_ubuf (zupd b (w mod UART_TX_BUF_SIZE) (u8 c))) ;;
  modify (set_uw (u64 (w + 1))) ;;
  uartstart ;;
  release LUart.

(** [while((ReadReg(LSR) & LSR_TX_IDLE) == 0);] *)
Fixpoint tx_wait (k : nat) : M (uart D) unit :=
  lsr <- ReadReg LSR ;;
  if Z.land lsr LSR_TX_IDLE =? 0 then
    match k with
    | O => forever
    | S k' => tx_wait k'
    end
  else ret tt.

Definition uartputc_sync (c : Z) : M (uart D) unit :=
  push_off ;;
  p <- gets u_panicked ;;
  if truth p then forever else
  fuel <- asks c_fuel ;;
  tx_wait fuel ;;
  WriteReg THR c ;;
  pop_off.

Definition uartgetc : M (uart D) Z :=
  lsr <- ReadReg LSR ;;
  if truth (Z.land lsr 1) then ReadReg RHR else ret (-1).

End Driver.

(** ** The transmit buffer *)

Section Order.
Context {D : Type} `{Chip : !UartChip D, Ok : !Uart16550 D}.

Abbreviation rlen32 := (rlen 18446744073709551616).
Abbreviation rbytes32 := (rbytes 32 18446744073709551616).

(** The indices are [uint64]s, and the buffer holds at most its size. *)
Record uart_ok (u : uart D) : Prop := {
  uo_buf : zlen (u_buf u) = 32;
  uo_bytes : Forall (fun b => 0 <= b < 256) (u_buf u);
  uo_w : 0 <= u_w u < 18446744073709551616;
  uo_r : 0 <= u_r u < 18446744073709551616;
  uo_len : rlen32 (u_r u) (u_w u) <= 32;
}.

Definition queued (u : uart D) : list Z := rbytes32 (u_buf u) (u_r u) (u_w u).

(** Everything given to the driver so far, in order. *)
Definition stream (u : uart D) : list Z := sent (u_chip u) ++ queued u.

Lemma dvd32 : (32 | 18446744073709551616).
Proof using. by exists 576460752303423488. Qed.

Lemma lsr_tx_false v : (Z.land v LSR_TX_IDLE =? 0) = negb (truth (Z.land v LSR_TX_IDLE)).
Proof using. unfold truth. by rewrite negb_involutive. Qed.

(** One byte from the buffer to the chip. *)
Lemma send_byte u d : uart_ok u -> u_w u <> u_r u -> sent d = sent (u_chip u) -> thr_empty d = true ->
  let u' := set_chip (reg_write THR (znth 0 (u_buf u) (u_r u mod 32)) d) (set_ur (u64 (u_r u + 1)) (set_chip d u)) in
  uart_ok u' /\ stream u' = stream u /\ 0 < rlen32 (u_r u) (u_w u) /\ rlen32 (u_r u') (u_w u') = rlen32 (u_r u) (u_w u) - 1.
Proof using.
  intros [Hb Hby Hw Hr Hl] Hne Hsent Hthr u'. pose proof (rlen_range 32 18446744073709551616 ltac:(lia) ltac:(lia) (u_r u) (u_w u)) as Hrg.
  assert (0 < rlen32 (u_r u) (u_w u)) as Hpos.
  { destruct (decide (rlen32 (u_r u) (u_w u) = 0)) as [E|]; [|lia]. exfalso. apply Hne. symmetry. by apply (rlen_0 32 18446744073709551616 ltac:(lia) ltac:(lia)). }
  assert (rlen32 (u64 (u_r u + 1)) (u_w u) = rlen32 (u_r u) (u_w u) - 1) as El.
  { unfold u64. rewrite (rlen_mod_l 32) by lia. apply (rlen_pop 32); lia. }
  assert (0 <= znth 0 (u_buf u) (u_r u mod 32) < 256) as Hc.
  { pose proof (Z.mod_pos_bound (u_r u) 32 ltac:(lia)). unfold znth. zcase (u_r u mod 32 <? 0) as E; [lia|]. rewrite Forall_forall in Hby. apply Hby.
    apply list_elem_of_In, nth_In. unfold zlen in Hb. lia. }
  split; [|split; [|done]].
  - split; cbn; [done|done|done|apply u64_range|lia].
  - unfold stream, queued, u'. cbn [u_chip u_buf u_r u_w set_chip set_ur]. rewrite thr_sent, Hsent by done. rewrite <- app_assoc. f_equal.
    rewrite u8_small by done. unfold u64. rewrite rbytes_mod_l by (lia || apply dvd32). rewrite (rbytes_pop 32 18446744073709551616 ltac:(lia) ltac:(lia) (u_buf u) (u_r u) (u_w u) Hpos). done.
Qed.

(** uartstart() moves bytes from the buffer to the chip until the buffer is empty or the
    chip is full. *)
Lemma uartstart_loop_run k : forall u c, uart_ok u -> rlen32 (u_r u) (u_w u) <= Z.of_nat k ->
  exists n u', uartstart_loop k c u = Done tt (woken (replicate n ChUart) c) u' /\
    uart_ok u' /\ stream u' = stream u /\ u_panicked u' = u_panicked u.
Proof using Ok.
  induction k as [|k IH]; intros u c Hu Hk; cbn [uartstart_loop]; rewrite !bind_gets.
  - assert (u_w u = u_r u) as ->.
    { pose proof (rlen_range 32 18446744073709551616 ltac:(lia) ltac:(lia) (u_r u) (u_w u)). destruct Hu. symmetry. apply (rlen_0 32 18446744073709551616 ltac:(lia) ltac:(lia)); (done || lia). }
    rewrite Z.eqb_refl. exists 0%nat, u. by rewrite woken_nil.
  - zcase (u_w u =? u_r u) as E; [exists 0%nat, u; by rewrite woken_nil|]. unfold ReadReg. unfold bind at 1. cbn [obind].
    pose proof (lsr_sent (u_chip u)) as Hs. pose proof (lsr_tx (u_chip u)) as Htx. destruct (reg_read LSR (u_chip u)) as [v d]. cbn [fst snd] in *.
    rewrite lsr_tx_false. destruct (truth (Z.land v LSR_TX_IDLE)) eqn:Ev; cbn [negb].
    + rewrite bind_gets. krun. kstep (wakeup_run ChUart c (set_ur (u64 (u_r u + 1)) (set_chip d u))). unfold WriteReg. rewrite bind_modify.
      cbn [u_buf set_chip u_chip set_ur]. destruct (send_byte u d Hu E Hs (Htx eq_refl)) as (Hu' & Hst & Hpos & Hl').
      change UART_TX_BUF_SIZE with 32. destruct (IH _ (woken [ChUart] c) Hu') as (n & u' & R & Ho & Hst' & Hp); [lia|].
      exists (S n), u'. split; [|split; [done|split; [congruence|done]]]. etrans; [exact R|]. by rewrite woken_woken.
    + exists 0%nat, (set_chip d u). rewrite woken_nil. split; [done|]. split; [by destruct Hu; split|]. split; [|done].
      unfold stream, queued. cbn [set_chip u_chip u_buf u_r u_w]. by rewrite Hs.
Qed.

Lemma uartstart_run u c : uart_ok u ->
  exists n u', uartstart c u = Done tt (woken (replicate n ChUart) c) u' /\ uart_ok u' /\ stream u' = stream u /\ u_panicked u' = u_panicked u.
Proof using Ok.
  intros Hu. unfold uartstart. rewrite !bind_gets. apply uartstart_loop_run; [done|].
  pose proof (rlen_range 32 18446744073709551616 ltac:(lia) ltac:(lia) (u_r u) (u_w u)). unfold rlen in *. unfold u64. lia.
Qed.

Lemma tx_full u : uart_ok u -> (u_w u =? u64 (u_r u + 32)) = (rlen32 (u_r u) (u_w u) =? 32).
Proof using.
  intros [_ _ Hw Hr Hl]. unfold rlen, u64 in *. zcase (u_w u =? (u_r u + 32) mod 18446744073709551616) as E; symmetry; [apply Z.eqb_eq|apply Z.eqb_neq]; dlia.
Qed.

(** uartputc() with room in the buffer. *)
Lemma uartputc_run b u c : steady c -> LUart ∉ c_held c -> uart_ok u -> u_panicked u = 0 -> zlen (queued u) < 32 ->
  exists n u', uartputc b c u = Done tt (woken (replicate n ChUart) c) u' /\ uart_ok u' /\ stream u' = stream u ++ [u8 b] /\ u_panicked u' = 0.
Proof using Ok.
  intros [Hok Hst] Hlk Hu Hp Hq. unfold queued in Hq. rewrite zlen_rbytes in Hq by lia. unfold uartputc.
  kstep (acquire_run LUart c u Hlk). rewrite bind_gets, Hp. change (truth 0) with false. cbv iota.
  kstep (sleep_while_false (fun u => u_w u =? u64 (u_r u + UART_TX_BUF_SIZE)) ChUart LUart (enter LUart c) u). 2: {
    cbn beta. change UART_TX_BUF_SIZE with 32. rewrite tx_full by done. apply Z.eqb_neq. lia. }
  rewrite !bind_gets. rewrite !bind_modify. change UART_TX_BUF_SIZE with 32. set (u1 := set_uw _ _).
  pose proof (rlen_range 32 18446744073709551616 ltac:(lia) ltac:(lia) (u_r u) (u_w u)) as Hrg.
  assert (uart_ok u1 /\ stream u1 = stream u ++ [u8 b]) as [Hu1 Hs1].
  { destruct Hu as [Hb Hby Hw Hr Hl]. split.
    - split; cbn; [by rewrite zlen_zupd| |apply u64_range|done|].
      + unfold zupd. destruct (_ <? _); [done|]. apply Forall_insert; [done|apply u8_range].
      + unfold u64. rewrite (rlen_mod_r 32), (rlen_add 32) by lia. lia.
    - unfold stream, queued, u1. cbn [u_chip u_buf u_r u_w set_uw set_ubuf]. rewrite <- app_assoc. f_equal. unfold u64. rewrite rbytes_mod_r by lia.
      rewrite rbytes_push by (done || lia || apply dvd32). done. }
  destruct (uartstart_run u1 (enter LUart c) Hu1) as (n & u' & R & Ho & Hs' & Hp'). kstep R.
  exists n, u'. rewrite (release_enter_woken LUart _ c u' Hok Hlk), Hst. split; [done|]. split; [done|]. split; [congruence|]. by rewrite Hp'.
Qed.

(** uartputc() on a full buffer waits for uartstart() to make room, and then stores its byte. *)
Lemma uartputc_sleeps b u c : steady c -> c_held c = [] -> c_noff c = 0 -> (0 < c_fuel c)%nat -> uart_ok u -> u_panicked u = 0 -> zlen (queued u) = 32 ->
  exists k, uartputc b c u = Sleep ChUart (enter (LProc (c_proc c)) c) u k /\
    forall u', uart_ok u' -> u_panicked u' = 0 -> zlen (queued u') < 32 -> k u' = uartputc b c u'.
Proof using Ok.
  intros Hc Hh Hn Hf Hu Hp Hq. unfold queued in Hq. rewrite zlen_rbytes in Hq by lia. unfold uartputc.
  assert (forall lk, lk ∉ c_held c) as Hno by (intros lk; rewrite Hh; apply not_elem_of_nil).
  set (full := fun u : uart D => u_w u =? u64 (u_r u + UART_TX_BUF_SIZE)).
  destruct (sleep_while_true full ChUart LUart c u Hc Hn (Hno _) (Hno _) ltac:(done) Hf) as (k & R & Hk).
  { unfold full. change UART_TX_BUF_SIZE with 32. rewrite tx_full by done. by apply Z.eqb_eq. }
  eexists. split.
  - kstep (acquire_run LUart c u (Hno _)). rewrite bind_gets, Hp. change (truth 0) with false. cbv iota. unfold bind at 1. rewrite R. cbn [obind]. reflexivity.
  - intros u' Hu' Hp' Hq'. cbn beta. rewrite Hk.
    + cbn [obind]. symmetry. kstep (acquire_run LUart c u' (Hno _)). rewrite bind_gets, Hp'. change (truth 0) with false. cbv iota.
      kstep (sleep_while_false full ChUart LUart (enter LUart c) u'); [done|].
      unfold full. change UART_TX_BUF_SIZE with 32. rewrite tx_full by done. apply Z.eqb_neq. unfold queued in Hq'. rewrite zlen_rbytes in Hq' by lia. lia.
    + unfold full. change UART_TX_BUF_SIZE with 32. rewrite tx_full by done. apply Z.eqb_neq. unfold queued in Hq'. rewrite zlen_rbytes in Hq' by lia. lia.
Qed.

(** uartputc_sync(): the byte goes to the chip at once. *)
Lemma tx_wait_run k : forall u c, (tx_delay (u_chip u) <= k)%nat ->
  exists d, tx_wait k c u = Done tt c (set_chip d u) /\ sent d = sent (u_chip u) /\ thr_empty d = true /\ exists l, waiting d = waiting (u_chip u) ++ l.
Proof using Ok.
  induction k as [|k IH]; intros u c Hk; cbn [tx_wait]; unfold ReadReg; unfold bind at 1; cbn [obind];
    pose proof (lsr_sent (u_chip u)) as Hs; pose proof (lsr_tx (u_chip u)) as Htx; pose proof (lsr_delay (u_chip u)) as Hd; pose proof (lsr_waiting (u_chip u)) as Hw;
    destruct (reg_read LSR (u_chip u)) as [v d]; cbn [fst snd] in *; rewrite lsr_tx_false; destruct (truth (Z.land v LSR_TX_IDLE)) eqn:Ev; cbn [negb].
  - exists d. split; [done|]. auto.
  - specialize (Hd eq_refl). lia.
  - exists d. split; [done|]. auto.
  - specialize (Hd eq_refl). destruct (IH (set_chip d u) c) as (d' & R & H1 & H2 & l2 & H3); [cbn; lia|]. exists d'. split; [exact R|].
    cbn [set_chip u_chip] in *. split; [congruence|]. split; [done|]. destruct Hw as [l1 Hw]. exists (l1 ++ l2). by rewrite H3, Hw, app_assoc.
Qed.

Lemma uartputc_sync_run b u c : steady c -> u_panicked u = 0 -> (tx_max <= c_fuel c)%nat ->
  exists d, uartputc_sync b c u = Done tt c (set_chip d u) /\ sent d = sent (u_chip u) ++ [u8 b] /\ exists l, waiting d = waiting (u_chip u) ++ l.
Proof using Ok.
  intros [Hok Hst] Hp Hf. unfold uartputc_sync. kstep (push_off_run c u). rewrite bind_gets, Hp. change (truth 0) with false. cbv iota. rewrite bind_asks.
  destruct (tx_wait_run (c_fuel (pushed c)) u (pushed c)) as (d & R & H1 & H2 & l1 & H3); [etrans; [apply tx_bound|exact Hf]|].
  kstep R. unfold WriteReg. rewrite bind_modify. rewrite pop_off_pushed by done. rewrite Hst. exists (reg_write THR b d). split; [done|].
  split; [by rewrite thr_sent, H1|]. destruct (thr_waiting d b) as [l2 H4]. exists (l1 ++ l2). by rewrite H4, H3, app_assoc.
Qed.

(** uartgetc(): the next byte of the input, or -1. *)
Lemma uartgetc_run u c : exists v d, uartgetc c u = Done v c (set_chip d u) /\ sent d = sent (u_chip u) /\
  (v = -1 /\ waiting (u_chip u) = [] /\ waiting d = [] \/ exists l, waiting (u_chip u) ++ l = v :: waiting d).
Proof using Ok.
  unfold uartgetc, ReadReg. unfold bind at 1. cbn [obind].
  pose proof (lsr_sent (u_chip u)) as Hs. pose proof (lsr_rx (u_chip u)) as Hrx. pose proof (lsr_waiting (u_chip u)) as [l1 Hw].
  destruct (reg_read LSR (u_chip u)) as [v d]. cbn [fst snd] in *. rewrite Hrx. case_bool_decide as E.
  - destruct (waiting d) as [|x r] eqn:Ew; [done|]. destruct (rhr_waiting d x r Ew) as (H1 & l2 & H2). pose proof (rhr_sent d) as H3.
    destruct (reg_read RHR d) as [v' d'] eqn:Er. cbn [fst snd] in *. subst v'. exists x, d'. cbn [set_chip u_chip]. rewrite Er. split; [done|]. split; [congruence|].
    right. exists (l1 ++ l2). by rewrite app_assoc, <- Hw, H2.
  - exists (-1), d. split; [done|]. split; [done|]. left. split; [done|]. destruct (waiting d) as [|x r]; [|done].
    symmetry in Hw. apply app_eq_nil in Hw as [-> _]. done.
Qed.

End Order.

(** ** The order of the output *)

(** C28: bytes leave the UART in the order uartputc() was given them: with room in the buffer,
    uartputc() returns with its byte appended to what the chip has taken and what is still
    queued; uartstart(), also called by the interrupt handler, moves bytes from the queue to
    the chip without adding, losing or reordering any.  The indices may wrap at 64 bits. *)
Theorem uart_transmits_in_order {D} `{!UartChip D, !Uart16550 D} (u : uart D) c :
  uart_ok u -> steady c ->
  (exists n u', uartstart c u = Done tt (woken (replicate n ChUart) c) u' /\ uart_ok u' /\ stream u' = stream u) /\
  (forall b, LUart ∉ c_held c -> u_panicked u = 0 -> zlen (queued u) < 32 ->
     exists n u', uartputc b c u = Done tt (woken (replicate n ChUart) c) u' /\ uart_ok u' /\ stream u' = stream u ++ [u8 b]).
Proof.
  intros Hu Hc. split.
  - destruct (uartstart_run u c Hu) as (n & u' & R & H1 & H2 & _). by exists n, u'.
  - intros b Hlk Hp Hq. destruct (uartputc_run b u c Hc Hlk Hu Hp Hq) as (n & u' & R & H1 & H2 & _). by exists n, u'.
Qed.

(** A chip that is busy for one status read after each byte. *)
Record plain_chip := PlainChip { pc_out : list Z; pc_in : list Z; pc_busy : bool }.

#[export] Instance plain_regs : UartChip plain_chip := {
  reg_read r d :=
    if r =? LSR then
      (Z.lor (if pc_busy d then 0 else LSR_TX_IDLE) (match pc_in d with [] => 0 | _ => 1 end), PlainChip (pc_out d) (pc_in d) false)
    else if r =? RHR then (hd 0 (pc_in d), PlainChip (pc_out d) (tail (pc_in d)) (pc_busy d))
    else (0, d);
  reg_write r v d :=
    if (r =? THR) && negb (pc_busy d) then PlainChip (pc_out d ++ [u8 v]) (pc_in d) true else d;
}.

#[export] Instance plain_16550 : Uart16550 plain_chip.
Proof.
  refine {| sent := pc_out; waiting := pc_in; thr_empty d := negb (pc_busy d); tx_delay d := if pc_busy d then 1%nat else 0%nat; tx_max := 1%nat |}.
  - intros [o i []]; cbn; lia.
  - done.
  - intros d. exists []. cbn. by rewrite app_nil_r.
  - done.
  - intros [o i []]; cbn; [lia|]. by destruct i.
  - intros [o [|x i] []]; vm_compute; reflexivity.
  - done.
  - intros [o i b] c r E. cbn in *. subst. split; [done|]. exists []. by rewrite app_nil_r.
  - intros [o i []] c E; cbn in *; done.
  - intros [o i []] c; exists []; cbn; by rewrite app_nil_r.
Defined.

(** A buffer with thirty bytes whose indices are about to wrap. *)
Definition demo_uart : uart plain_chip := Uart (PlainChip [] [] false) 0 (replicate 32 65) 14 18446744073709551600.

Lemma uart_transmits_in_order_witness :
  exists n u', uartputc 66 user_ctx demo_uart = Done tt (woken (replicate n ChUart) user_ctx) u' /\ stream u' = stream demo_uart ++ [66].
Proof.
  destruct (uart_transmits_in_order demo_uart user_ctx) as [_ H].
  - split; [done|cbn; repeat constructor; lia|cbn; lia|cbn; lia|vm_compute; discriminate].
  - exact user_ctx_steady.
  - destruct (H 66) as (n & u' & R & _ & Hs); [apply not_elem_of_nil|done|vm_compute; done|]. by exists n, u'.
Defined.
