(* ===== verification/Console.v ===== *)
(** * The console (kernel/console.c, kernel/printf.c)

    The input line discipline, the console's read and write, and the kernel's formatted
    output, over the UART driver and the rest of the kernel's state. *)
From S2P Require Import Prelude Bytes Memory Machine Kalloc Vm Wp Kernel Pipe Ring Uart User Uprintf.

Definition BACKSPACE : Z := 0x100.
Definition INPUT_BUF_SIZE : Z := 128.
Definition CONSOLE : Z := 1.

(** C('P'), C('U'), C('H'), C('D') *)
Definition C (x : ascii) : Z := chr x - chr "@".

(** struct cons with the UART, [pr.locking] and the rest of the kernel's state. *)
Record con (D : Type) := Con {
  cn_u : uart D;
  cn_buf : list Z;
  cn_r : Z;
  cn_w : Z;
  cn_e : Z;
  cn_locking : Z;
  cn_k : kst;
}.
Arguments Con {D} cn_u cn_buf cn_r cn_w cn_e cn_locking cn_k.
Arguments cn_u {D} c.
Arguments cn_buf {D} c.
Arguments cn_r {D} c.
Arguments cn_w {D} c.
Arguments cn_e {D} c.
Arguments cn_locking {D} c.
Arguments cn_k {D} c.

Section Console.
Context {D : Type} `{!UartChip D} {image : KernelImage}.
Abbreviation con := (con D).

Definition set_cnu (x : uart D) (s : con) : con := Con x (cn_buf s) (cn_r s) (cn_w s) (cn_e s) (cn_locking s) (cn_k s).
Definition set_cbuf (x : list Z) (s : con) : con := Con (cn_u s) x (cn_r s) (cn_w s) (cn_e s) (cn_locking s) (cn_k s).
Definition set_cr (x : Z) (s : con) : con := Con (cn_u s) (cn_buf s) x (cn_w s) (cn_e s) (cn_locking s) (cn_k s).
Definition set_cw (x : Z) (s : con) : con := Con (cn_u s) (cn_buf s) (cn_r s) x (cn_e s) (cn_locking s) (cn_k s).
Definition set_ce (x : Z) (s : con) : con := Con (cn_u s) (cn_buf s) (cn_r s) (cn_w s) x (cn_locking s) (cn_k s).
Definition set_locking (x : Z) (s : con) : con := Con (cn_u s) (cn_buf s) (cn_r s) (cn_w s) (cn_e s) x (cn_k s).
Definition set_cnk (x : kst) (s : con) : con := Con (cn_u s) (cn_buf s) (cn_r s) (cn_w s) (cn_e s) (cn_locking s) x.

Definition on_uart : lens con (uart D) := Lens cn_u set_cnu.
Definition on_kst : lens con kst := Lens cn_k set_cnk.
Definition uart_ {A} (m : M (uart D) A) : M con A := zoom on_uart m.
Definition kst_ {A} (m : M kst A) : M con A := zoom on_kst m.

Definition consputc (c : Z) : M con unit :=
  if c =? BACKSPACE then
    uart_ (uartputc_sync 8) ;; uart_ (uartputc_sync 32) ;; uart_ (uartputc_sync 8)
  else uart_ (uartputc_sync c).

(** ** Formatted output (kernel/printf.c) *)

Definition kdigits : list Z := str "0123456789abcdef".

Fixpoint kprintint_loop (k : nat) (x base : Z) (buf : list Z) : option (list Z) :=
  match k with
  | O => None
  | S k' =>
      let buf := znth 0 kdigits (x mod u32 base) :: buf in
      let x := x / u32 base in
      if truth x then kprintint_loop k' x base buf else Some buf
  end.

(** [while(--i >= 0) consputc(buf[i])], and [for(; *s; s++) consputc( *s)] *)
Fixpoint consputs (l : list Z) : M con unit :=
  match l with
  | [] => ret tt
  | c :: l' => consputc c ;; consputs l'
  end.

(** A write past the 16 bytes of printint()'s buffer. *)
Definition overrun {A} : M con A := panic "undefined: buf overrun".

Definition kprintint (xx base sgn : Z) : M con unit :=
  let neg := truth sgn && (xx <? 0) in
  let x := if neg then u32 (- xx) else u32 xx in
  match kprintint_loop 16 x base [] with
  | None => overrun
  | Some buf =>
      if neg then if zlen buf <? 16 then consputs (chr "-" :: buf) else overrun
      else consputs buf
  end.

Fixpoint kprintptr_loop (k : nat) (x : Z) : M con unit :=
  match k with
  | O => ret tt
  | S k' => consputc (znth 0 kdigits (Z.shiftr x 60)) ;; kprintptr_loop k' (u64 (Z.shiftl x 4))
  end.

Definition kprintptr (x : Z) : M con unit := consputc (chr "0") ;; consputc (chr "x") ;; kprintptr_loop 16 x.

(** An argument of the wrong kind, or none, for a directive. *)
Definition bad_arg {A} : M con A := panic "undefined: va_arg".

Fixpoint kprintf_loop (fmt : list Z) (ap : list varg) : M con unit :=
  match fmt with
  | [] => ret tt
  | f :: fmt' =>
      let c := Z.land f 255 in
      if negb (c =? chr "%") then consputc c ;; kprintf_loop fmt' ap else
      match fmt' with
      | [] => ret tt
      | f' :: fmt'' =>
          let c := Z.land f' 255 in
          if c =? chr "d" then
            match ap with VInt z :: ap => kprintint (s32 z) 10 1 ;; kprintf_loop fmt'' ap | _ => bad_arg end
          else if c =? chr "x" then
            match ap with VInt z :: ap => kprintint (s32 z) 16 1 ;; kprintf_loop fmt'' ap | _ => bad_arg end
          else if c =? chr "p" then
            match ap with VInt z :: ap => kprintptr (u64 z) ;; kprintf_loop fmt'' ap | _ => bad_arg end
          else if c =? chr "s" then
            match ap with VStr s :: ap => consputs (default null_string s) ;; kprintf_loop fmt'' ap | _ => bad_arg end
          else if c =? chr "%" then consputc (chr "%") ;; kprintf_loop fmt'' ap
          else consputc (chr "%") ;; consputc c ;; kprintf_loop fmt'' ap
      end
  end.

Definition kprintf (fmt : option (list Z)) (ap : list varg) : M con unit :=
  locking <- gets cn_locking ;;
  when (truth locking) (acquire LPr) ;;
  match fmt with
  | None => panic "null fmt"
  | Some fmt =>
      kprintf_loop fmt ap ;;
      when (truth locking) (release LPr)
  end.

(** panic(): the message, then the CPU stops. *)
Definition kpanic (s : list Z) : M con unit :=
  modify (set_locking 0) ;;
  kprintf (Some (str "panic: ")) [] ;;
  kprintf (Some s) [] ;;
  kprintf (Some [newline]) [] ;;
  uart_ (modify (set_panicked 1)) ;;
  forever.

Definition printfinit : M con unit := initlock LPr ;; modify (set_locking 1).

(** ** procdump() (kernel/proc.c) *)

Definition states (st : procstate) : list Z :=
  match st with
  | UNUSED => str "unused"
  | USED => str "used"
  | SLEEPING => str "sleep "
  | RUNNABLE => str "runble"
  | RUNNING => str "run   "
  | ZOMBIE => str "zombie"
  end.

Fixpoint procdump_loop (l : list proc) : M con unit :=
  match l with
  | [] => ret tt
  | p :: l' =>
      when (negb (bool_decide (p_state p = UNUSED)))
        (kprintf (Some (str "%d %s %s")) [VInt (p_pid p); VStr (Some (states (p_state p))); VStr (Some (until_nul (p_name p)))] ;;
         kprintf (Some [newline]) []) ;;
      procdump_loop l'
  end.

Definition procdump : M con unit :=
  kprintf (Some [newline]) [] ;;
  procs <- gets (fun s => k_procs (cn_k s)) ;;
  procdump_loop procs.

(** ** The console *)

Fixpoint consolewrite_loop (k : nat) (src : source) (i : Z) : M con Z :=
  match k with
  | O => ret i
  | S k' =>
      r <- kst_ (either_copyin src i 1) ;;
      let '(r, b) := (r : Z * list Z) in
      if r =? -1 then ret i else
      uart_ (uartputc (hd0 b)) ;;
      consolewrite_loop k' src (i + 1)
  end.

Definition consolewrite (src : source) (n : Z) : M con Z := consolewrite_loop (Z.to_nat n) src 0.

(** [while(cons.r == cons.w)]: false when the process was killed. *)
Fixpoint consoleread_wait (k : nat) : M con bool :=
  r <- gets cn_r ;;
  w <- gets cn_w ;;
  if r =? w then
    match k with
    | O => forever
    | S k' =>
        p <- asks c_proc ;;
        dead <- kst_ (killed p) ;;
        if truth dead then
          release LCons ;;
          ret false
        else
          sleep ChCons LCons ;;
          consoleread_wait k'
    end
  else ret true.

(** The loop of consoleread(): [n] bytes still wanted of [target]; None when it returns -1. *)
Fixpoint consoleread_loop (k : nat) (dst : option Z) (target n : Z) : M con (option Z) :=
  match k with
  | O => ret (Some n)
  | S k' =>
      fuel <- asks c_fuel ;;
      ok <- consoleread_wait fuel ;;
      if negb ok then ret None else
      r <- gets cn_r ;;
      b <- gets cn_buf ;;
      let c := znth 0 b (r mod INPUT_BUF_SIZE) in
      modify (set_cr (u32 (r + 1))) ;;
      if c =? C "D" then
        when (n <? target) (modify (set_cr (u32 (u32 (r + 1) - 1)))) ;;
        ret (Some n)
      else
        e <- kst_ (either_copyout dst [c]) ;;
        if e =? -1 then ret (Some n) else
        if c =? newline then ret (Some (n - 1)) else
        consoleread_loop k' (option_map (fun d => u64 (d + 1)) dst) target (n - 1)
  end.

Definition consoleread (dst : option Z) (n : Z) : M con Z :=
  acquire LCons ;;
  r <- consoleread_loop (Z.to_nat n) dst n n ;;
  match r with
  | None => ret (-1)
  | Some n' =>
      release LCons ;;
      ret (n - n')
  end.

(** [while(cons.e != cons.w && cons.buf[(cons.e-1) % INPUT_BUF_SIZE] != '\n')] *)
Fixpoint kill_line (k : nat) : M con unit :=
  e <- gets cn_e ;;
  w <- gets cn_w ;;
  b <- gets cn_buf ;;
  if negb (e =? w) && negb (znth 0 b (u32 (e - 1) mod INPUT_BUF_SIZE) =? newline) then
    match k with
    | O => forever
    | S k' =>
        modify (set_ce (u32 (e - 1))) ;;
        consputc BACKSPACE ;;
        kill_line k'
    end
  else ret tt.

Definition consoleintr (c : Z) : M con unit :=
  acquire LCons ;;
  (if c =? C "P" then procdump
   else if c =? C "U" then
     e <- gets cn_e ;;
     w <- gets cn_w ;;
     kill_line (Z.to_nat (u32 (e - w)))
   else if (c =? C "H") || (c =? 0x7f) then
     e <- gets cn_e ;;
     w <- gets cn_w ;;
     when (negb (e =? w)) (modify (set_ce (u32 (e - 1))) ;; consputc BACKSPACE)
   else
     e <- gets cn_e ;;
     r <- gets cn_r ;;
     when (truth c && (u32 (e - r) <? INPUT_BUF_SIZE))
       (let c := if c =? 13 then newline else c in
        consputc c ;;
        b <- gets cn_buf ;;
        modify (set_cbuf (zupd b (e mod INPUT_BUF_SIZE) (u8 c))) ;;
        modify (set_ce (u32 (e + 1))) ;;
        when ((c =? newline) || (c =? C "D") || (u32 (u32 (e + 1) - r) =? INPUT_BUF_SIZE))
          (modify (set_cw (u32 (e + 1))) ;;
           wakeup ChCons))) ;;
  release LCons.

(** The entries consoleinit() makes in the device switch. *)
Definition console_read (major : Z) : option (option Z -> Z -> M con Z) := if major =? CONSOLE then Some consoleread else None.
Definition console_write (major : Z) : option (source -> Z -> M con Z) := if major =? CONSOLE then Some consolewrite else None.

Definition consoleinit : M con unit := initlock LCons ;; uart_ uartinit.

(** ** The interrupt handler of uart.c *)

Fixpoint uartintr_loop (k : nat) : M con unit :=
  c <- uart_ uartgetc ;;
  if c =? -1 then ret tt else
  consoleintr c ;;
  match k with
  | O => forever
  | S k' => uartintr_loop k'
  end.

Definition uartintr : M con unit :=
  fuel <- asks c_fuel ;;
  uartintr_loop fuel ;;
  acquire LUart ;;
  uart_ uartstart ;;
  release LUart.

End Console.
