(* ===== verification/ConsoleSpec.v ===== *)
(** * The console: what a user sees

    The input buffer as the lines a reader can have and the line that is being typed,
    consoleintr() as an editor of that line, consoleread() as taking a line off, and the
    transmit order of the UART. *)
From S2P Require Import Prelude Bytes Memory Machine Riscv Kalloc Vm VmProps VmUser VmSpace VmFree VmSpec BioSpec Wp Kernel Pipe PipeSpec Ring Uart User Uprintf Console.

(** ** The line editor *)

Definition rubout : list Z := [8; 32; 8].

(** The input committed for readers and the line being typed. *)
Definition input : Type := list Z * list Z.

(** A character typed: the new input, and what is echoed. *)
Definition edit (c : Z) (i : input) : input * list Z :=
  let '(done, line) := i in
  if c =? C "U" then ((done, []), concat (replicate (length line) rubout))
  else if (c =? C "H") || (c =? 0x7f) then
    match line with
    | [] => (i, [])
    | _ => ((done, removelast line), rubout)
    end
  else if truth c && (zlen done + zlen line <? 128) then
    let c := if c =? 13 then newline else c in
    let line := line ++ [c] in
    if (c =? newline) || (c =? C "D") || (zlen done + zlen line =? 128) then ((done ++ line, []), [c])
    else ((done, line), [c])
  else (i, []).

(** Up to [n] bytes of a line for a reader, and the input left; None when it has to wait. *)
Fixpoint take_line (n : nat) (first : bool) (l : list Z) : option (list Z * list Z) :=
  match n with
  | O => Some ([], l)
  | S n' =>
      match l with
      | [] => None
      | c :: l' =>
          if c =? C "D" then Some ([], if first then l' else l)
          else if c =? newline then Some ([c], l')
          else match take_line n' false l' with
               | Some (b, r) => Some (c :: b, r)
               | None => None
               end
      end
  end.

Section Spec.
Context {D : Type} `{Chip : !UartChip D, Ok : !Uart16550 D} {image : KernelImage}.

Abbreviation rlenC := (rlen 4294967296).
Abbreviation rbytesC := (rbytes 128 4294967296).

Definition committed (s : con D) : list Z := rbytesC (cn_buf s) (cn_r s) (cn_w s).
Definition typed (s : con D) : list Z := rbytesC (cn_buf s) (cn_w s) (cn_e s).

(** The indices of the input buffer are [uint]s in order, and the line being typed has no
    newline in it. *)
Record cons_ok (s : con D) : Prop := {
  co_buf : zlen (cn_buf s) = 128;
  co_bytes : Forall is_byte (cn_buf s);
  co_r : 0 <= cn_r s < 4294967296;
  co_w : 0 <= cn_w s < 4294967296;
  co_e : 0 <= cn_e s < 4294967296;
  co_len : rlenC (cn_r s) (cn_w s) + rlenC (cn_w s) (cn_e s) <= 128;
  co_line : newline ∉ typed s;
}.

Lemma dvd128 : (128 | 4294967296).
Proof using. by exists 33554432. Qed.

(** The console with another state of the chip. *)
Definition chip_now (d : D) (s : con D) : con D := set_cnu (set_chip d (cn_u s)) s.

Definition echo (c : Z) : list Z := if c =? BACKSPACE then rubout else [u8 c].

Lemma uart_run b c s : steady c -> u_panicked (cn_u s) = 0 -> (tx_max <= c_fuel c)%nat ->
  exists d, uart_ (uartputc_sync b) c s = Done tt c (chip_now d s) /\ sent d = sent (u_chip (cn_u s)) ++ [u8 b].
Proof using Ok.
  intros Hc Hp Hf. destruct (uartputc_sync_run b (cn_u s) c Hc Hp Hf) as (d & R & Hs & _). exists d. split; [|done].
  exact (zoom_done on_uart (uartputc_sync b) c s tt c _ R).
Qed.

Lemma consputc_run b c s : steady c -> u_panicked (cn_u s) = 0 -> (tx_max <= c_fuel c)%nat ->
  exists d, consputc b c s = Done tt c (chip_now d s) /\ sent d = sent (u_chip (cn_u s)) ++ echo b.
Proof using Ok.
  intros Hc Hp Hf. unfold consputc, echo. destruct (b =? BACKSPACE); [|by apply uart_run].
  destruct (uart_run 8 c s Hc Hp Hf) as (d1 & R1 & H1).
  destruct (uart_run 32 c (chip_now d1 s) Hc Hp Hf) as (d2 & R2 & H2).
  destruct (uart_run 8 c (chip_now d2 s) Hc Hp Hf) as (d3 & R3 & H3).
  exists d3. kstep R1. kstep R2. split; [exact R3|]. cbn [chip_now cn_u set_cnu set_chip u_chip] in H2, H3. by rewrite H3, H2, H1, <- !app_assoc.
Qed.

(** [cons.e--] *)
Lemma back_ok s : cons_ok s -> cn_e s <> cn_w s ->
  let s' := set_ce (u32 (cn_e s - 1)) s in
  cons_ok s' /\ committed s' = committed s /\ typed s = typed s' ++ [znth 0 (cn_buf s) (u32 (cn_e s - 1) mod 128)].
Proof using.
  intros [Hb Hby Hr Hw He Hl Hn] Hne s'.
  pose proof (rlen_range 128 4294967296 ltac:(lia) ltac:(lia) (cn_w s) (cn_e s)) as Hrg.
  assert (0 < rlenC (cn_w s) (cn_e s)) as Hpos.
  { destruct (decide (rlenC (cn_w s) (cn_e s) = 0)) as [E|]; [|lia]. exfalso. apply Hne. symmetry. by apply (rlen_0 128 4294967296 ltac:(lia) ltac:(lia)). }
  assert (typed s = typed s' ++ [znth 0 (cn_buf s) (u32 (cn_e s - 1) mod 128)]) as Ht.
  { unfold typed, s'. cbn [cn_buf cn_w cn_e set_ce]. unfold u32. rewrite (rbytes_mod_r 128) by lia.
    rewrite (rbytes_back 128 4294967296 ltac:(lia) ltac:(lia) dvd128 (cn_buf s) (cn_w s) (cn_e s) Hpos). do 2 f_equal.
    symmetry. apply (rget_mod' 128 4294967296); [lia|lia|apply dvd128]. }
  split; [|done]. split; cbn; try done; [apply u32_range| |].
  - unfold u32. rewrite (rlen_mod_r 128), (rlen_back 128) by lia. lia.
  - rewrite Ht in Hn. intros Hin. apply Hn, elem_of_app. by left.
Qed.

Lemma typed_nil s : cons_ok s -> cn_e s = cn_w s <-> typed s = [].
Proof using.
  intros [Hb Hby Hr Hw He Hl Hn]. split.
  - intros E. unfold typed. rewrite E. apply rbytes_nil, (rlen_nn 128); lia.
  - intros E. apply (f_equal zlen) in E. unfold typed in E. rewrite zlen_rbytes in E by lia. symmetry. by apply (rlen_0 128 4294967296 ltac:(lia) ltac:(lia)).
Qed.

(** Control-U takes the whole line off. *)
Lemma kill_line_run k : forall s c, steady c -> u_panicked (cn_u s) = 0 -> (tx_max <= c_fuel c)%nat -> cons_ok s -> (length (typed s) <= k)%nat ->
  exists d, kill_line k c s = Done tt c (chip_now d (set_ce (cn_w s) s)) /\
    sent d = sent (u_chip (cn_u s)) ++ concat (replicate (length (typed s)) rubout).
Proof using Ok.
  induction k as [|k IH]; intros s c Hc Hp Hf Hs Hk; cbn [kill_line]; rewrite !bind_gets; zcase (cn_e s =? cn_w s) as E; cbn [negb andb].
  1, 3: exists (u_chip (cn_u s)); (assert (typed s = []) as -> by (by apply typed_nil)); cbn [length replicate concat]; rewrite app_nil_r;
    rewrite <- E; split; [destruct s as [[]]; reflexivity|done].
  - exfalso. apply E, typed_nil; [done|]. by destruct (typed s); [|cbn in Hk; lia].
  - destruct (back_ok s Hs E) as (Hs' & Hcm & Ht). change INPUT_BUF_SIZE with 128.
    zcase (znth 0 (cn_buf s) (u32 (cn_e s - 1) mod 128) =? newline) as En; cbn [negb].
    { exfalso. apply (co_line _ Hs). rewrite Ht, En. apply elem_of_app. right. left. }
    rewrite bind_modify. set (s1 := set_ce (u32 (cn_e s - 1)) s) in *.
    destruct (consputc_run BACKSPACE c s1 Hc Hp Hf) as (d1 & R1 & H1). kstep R1.
    assert (length (typed s) = S (length (typed s1))) as El by (rewrite Ht, length_app; cbn; lia).
    destruct (IH (chip_now d1 s1) c Hc Hp Hf) as (d & R & H); [by destruct Hs'; split|change (typed (chip_now d1 s1)) with (typed s1); lia|].
    exists d. split; [exact R|]. rewrite H. change (typed (chip_now d1 s1)) with (typed s1). rewrite El. cbn [replicate concat].
    change (u_chip (cn_u (chip_now d1 s1))) with d1. rewrite H1. by rewrite <- app_assoc.
Qed.

(** A character stored at the end of the line. *)
Lemma store_ok s c : cons_ok s -> zlen (committed s) + zlen (typed s) < 128 ->
  let s' := set_ce (u32 (cn_e s + 1)) (set_cbuf (zupd (cn_buf s) (cn_e s mod 128) c) s) in
  committed s' = committed s /\ typed s' = typed s ++ [c] /\ rlenC (cn_w s) (u32 (cn_e s + 1)) = rlenC (cn_w s) (cn_e s) + 1.
Proof using.
  intros [Hb Hby Hr Hw He Hl Hn] Hlt s'. unfold committed, typed in Hlt. rewrite !zlen_rbytes in Hlt by lia.
  pose proof (rlen_range 128 4294967296 ltac:(lia) ltac:(lia) (cn_r s) (cn_w s)) as H1.
  pose proof (rlen_range 128 4294967296 ltac:(lia) ltac:(lia) (cn_w s) (cn_e s)) as H2.
  assert (rlenC (cn_w s) (u32 (cn_e s + 1)) = rlenC (cn_w s) (cn_e s) + 1) as El.
  { unfold u32. rewrite (rlen_mod_r 128), (rlen_add 128) by lia. done. }
  set (b' := zupd (cn_buf s) (cn_e s mod 128) c).
  assert (rbytesC b' (cn_r s) (cn_w s) ++ rbytesC b' (cn_w s) (u32 (cn_e s + 1)) = (committed s ++ typed s) ++ [c]) as Ea.
  { rewrite <- rbytes_split by (lia || apply dvd128). unfold u32. rewrite rbytes_mod_r by lia. unfold b'. rewrite rbytes_push.
    - unfold committed, typed. by rewrite <- rbytes_split by (lia || apply dvd128).
    - lia.
    - lia.
    - apply dvd128.
    - done.
    - rewrite (rlen_split 128 4294967296 ltac:(lia) ltac:(lia) dvd128 (cn_r s) (cn_w s) (cn_e s)) by lia. lia. }
  rewrite <- app_assoc in Ea. apply app_inj_1 in Ea as [Ec Et].
  - done.
  - unfold committed. apply Nat2Z.inj. change (zlen (rbytesC b' (cn_r s) (cn_w s)) = zlen (rbytesC (cn_buf s) (cn_r s) (cn_w s))). by rewrite !zlen_rbytes by lia.
Qed.

Lemma Forall_zupd (l : list Z) i x : Forall is_byte l -> is_byte x -> Forall is_byte (zupd l i x).
Proof using. intros. unfold zupd. destruct (_ <? _); [done|]. by apply Forall_insert. Qed.

(** The default case of consoleintr(): the line with the character, committed if that ends it. *)
Lemma store_spec s c : cons_ok s -> zlen (committed s) + zlen (typed s) < 128 -> is_byte c ->
  let s1 := set_ce (u32 (cn_e s + 1)) (set_cbuf (zupd (cn_buf s) (cn_e s mod 128) c) s) in
  (c <> newline -> cons_ok s1 /\ committed s1 = committed s /\ typed s1 = typed s ++ [c]) /\
  (let s2 := set_cw (u32 (cn_e s + 1)) s1 in cons_ok s2 /\ committed s2 = committed s ++ typed s ++ [c] /\ typed s2 = []).
Proof using.
  intros Hs Hlt Hc s1. destruct (store_ok s c Hs Hlt) as (Ec & Et & El). fold s1 in Ec, Et. destruct Hs as [Hb Hby Hr Hw He Hl Hn].
  unfold committed at 1, typed at 1 in Hlt. rewrite !zlen_rbytes in Hlt by lia. split.
  - intros Hne. split; [|done]. split; cbn; try done; [by rewrite zlen_zupd|by apply Forall_zupd|apply u32_range|rewrite El; lia|].
    rewrite Et. rewrite not_elem_of_app, list_elem_of_singleton. split; [done|congruence].
  - cbv zeta. set (s2 := set_cw (u32 (cn_e s + 1)) s1).
    assert (typed s2 = []) as E2 by (apply rbytes_nil, (rlen_nn 128); lia).
    assert (rlenC (cn_r s) (u32 (cn_e s + 1)) = rlenC (cn_r s) (cn_w s) + (rlenC (cn_w s) (cn_e s) + 1)) as El2.
    { rewrite <- El. apply (rlen_split 128); [lia|lia|apply dvd128|rewrite El; lia]. }
    split; [|split; [|done]].
    + split; cbn; try done; [by rewrite zlen_zupd|by apply Forall_zupd|apply u32_range|apply u32_range|rewrite El2, (rlen_nn 128) by lia; lia|].
      rewrite E2. apply not_elem_of_nil.
    + rewrite <- Et. rewrite <- Ec. unfold committed, typed. cbn [cn_buf cn_r cn_w cn_e s2 s1 set_cw set_ce set_cbuf].
      apply rbytes_split; [lia|lia|apply dvd128|rewrite El; lia].
Qed.

(** What a character does to the console: it ends in [s'] with the chip in [d], having
    woken the readers if it committed input. *)
Definition edited (b : Z) (s : con D) (d : D) (s' : con D) (ws : list chan) : Prop :=
  cons_ok s' /\ cn_u s' = cn_u s /\ cn_k s' = cn_k s /\
  (committed s', typed s') = (edit b (committed s, typed s)).1 /\
  sent d = sent (u_chip (cn_u s)) ++ (edit b (committed s, typed s)).2 /\
  (committed s' <> committed s -> ws = [ChCons]).

Section Cases.
Context (c : ctx) (s : con D) (Hc : steady c) (Hp : u_panicked (cn_u s) = 0) (Hf : (tx_max <= c_fuel c)%nat) (Hs : cons_ok s).

Lemma edit_kill : exists d, kill_line (Z.to_nat (u32 (cn_e s - cn_w s))) c s = Done tt c (chip_now d (set_ce (cn_w s) s)) /\
  edited (C "U") s d (set_ce (cn_w s) s) [].
Proof using Ok Hc Hp Hf Hs.
  destruct (kill_line_run (Z.to_nat (u32 (cn_e s - cn_w s))) s c Hc Hp Hf Hs) as (d & R & H).
  { pose proof (zlen_rbytes 128 4294967296 ltac:(lia) ltac:(lia) (cn_buf s) (cn_w s) (cn_e s)) as E. unfold rlen in E. unfold u32, typed. unfold zlen in E. lia. }
  exists d. split; [done|]. assert (typed (set_ce (cn_w s) s) = []) as Et by (apply rbytes_nil, (rlen_nn 128); lia).
  split; [|split; [done|split; [done|split; [by rewrite Et|split; [done|done]]]]].
  destruct Hs as [Hb' Hby Hr Hw He' Hl Hn]. pose proof (rlen_range 128 4294967296 ltac:(lia) ltac:(lia) (cn_w s) (cn_e s)).
  split; cbn; try done; [rewrite (rlen_nn 128) by lia; lia|]. rewrite Et. apply not_elem_of_nil.
Qed.

Lemma edit_back b : b <> C "U" -> b = C "H" \/ b = 0x7f -> exists d s',
  when (negb (cn_e s =? cn_w s)) (modify (set_ce (u32 (cn_e s - 1))) ;; consputc BACKSPACE) c s = Done tt c (chip_now d s') /\ edited b s d s' [].
Proof using Ok Hc Hp Hf Hs.
  intros HU Hb. assert (edit b (committed s, typed s) = match typed s with [] => ((committed s, typed s), []) | _ => ((committed s, removelast (typed s)), rubout) end) as Ee.
  { unfold edit. zcase (b =? C "U") as E; [done|]. replace ((b =? C "H") || (b =? 127)) with true; [done|]. symmetry. apply orb_true_iff. rewrite !Z.eqb_eq. lia. }
  unfold edited. rewrite Ee. zcase (cn_e s =? cn_w s) as E; cbn [negb].
  - exists (u_chip (cn_u s)), s. assert (typed s = []) as -> by (by apply typed_nil). split; [destruct s as [[]]; done|].
    rewrite app_nil_r. done.
  - destruct (back_ok s Hs E) as (Hs' & Hcm & Ht). set (s1 := set_ce (u32 (cn_e s - 1)) s) in *.
    cbn [when]. rewrite bind_modify. destruct (consputc_run BACKSPACE c s1 Hc Hp Hf) as (d & R & H).
    exists d, s1. split; [exact R|]. assert (removelast (typed s) = typed s1) as Er by (rewrite Ht; apply removelast_last).
    destruct (typed s) as [|x l] eqn:El; [by destruct (typed s1)|]. rewrite <- Hcm. cbn [fst snd]. rewrite Er. done.
Qed.

Lemma edit_store b : is_byte b -> b <> C "U" -> b <> C "H" -> b <> 0x7f -> exists d s' ws,
  when (truth b && (u32 (cn_e s - cn_r s) <? INPUT_BUF_SIZE))
    (let c := if b =? 13 then newline else b in
     consputc c ;;
     bf <- gets cn_buf ;;
     modify (set_cbuf (zupd bf (cn_e s mod INPUT_BUF_SIZE) (u8 c))) ;;
     modify (set_ce (u32 (cn_e s + 1))) ;;
     when ((c =? newline) || (c =? C "D") || (u32 (u32 (cn_e s + 1) - cn_r s) =? INPUT_BUF_SIZE))
       (modify (set_cw (u32 (cn_e s + 1))) ;; wakeup ChCons)) c s = Done tt (woken ws c) (chip_now d s') /\ edited b s d s' ws.
Proof using Ok Hc Hp Hf Hs.
  intros Hb HU HH HD. unfold edited, edit. zcase (b =? C "U") as EU; [done|]. zcase (b =? C "H") as EH; [done|]. zcase (b =? 127) as ED; [done|]. cbn [orb].
  pose proof Hs as [Hbf Hby Hr Hw He Hl Hn].
  assert (u32 (cn_e s - cn_r s) = zlen (committed s) + zlen (typed s)) as Elen.
  { unfold committed, typed. rewrite !zlen_rbytes by lia. rewrite <- (rlen_split 128) by (lia || apply dvd128). done. }
  rewrite Elen. change INPUT_BUF_SIZE with 128. destruct (truth b && (zlen (committed s) + zlen (typed s) <? 128)) eqn:Eg; cbn [when].
  2: { exists (u_chip (cn_u s)), s, []. rewrite woken_nil, app_nil_r. split; [destruct s as [[]]; done|done]. }
  zbool. cbv zeta. set (b' := if b =? 13 then newline else b). assert (is_byte b') as Hb' by (unfold b', newline, is_byte; by destruct (b =? 13)).
  destruct (consputc_run b' c s Hc Hp Hf) as (d & R & Hd). kstep R. rewrite bind_gets, !bind_modify. rewrite (u8_small b') by done.
  assert (u32 (u32 (cn_e s + 1) - cn_r s) = zlen (committed s) + zlen (typed s ++ [b'])) as ->.
  { unfold zlen at 2. rewrite length_app. cbn [length]. unfold u32 in *. rewrite Zminus_mod_idemp_l.
    replace (cn_e s + 1 - cn_r s) with (cn_e s - cn_r s + 1) by lia. rewrite <- Zplus_mod_idemp_l, Elen. unfold zlen in *. rewrite Z.mod_small; lia. }
  assert (echo b' = [b']) as Ee. { unfold echo, is_byte in *. zcase (b' =? BACKSPACE) as E; [unfold BACKSPACE in E; lia|]. by rewrite u8_small. }
  rewrite Ee in Hd. change (cn_buf (chip_now d s)) with (cn_buf s).
  destruct (store_spec s b' Hs ltac:(done) Hb') as [Hkeep Hcommit]. set (s1 := set_ce _ (set_cbuf _ s)) in *. cbv zeta in Hcommit.
  destruct ((b' =? newline) || (b' =? C "D") || (zlen (committed s) + zlen (typed s ++ [b']) =? 128)) eqn:Ec; cbn [when].
  - destruct Hcommit as (Hs2 & Hc2 & Ht2). rewrite bind_modify. exists d, (set_cw (u32 (cn_e s + 1)) s1), [ChCons].
    split; [done|]. split; [done|]. split; [done|]. split; [done|]. split; [by rewrite Hc2, Ht2|]. done.
  - destruct Hkeep as (Hs1 & Hc1 & Ht1); [intros ->; done|]. exists d, s1, []. rewrite woken_nil.
    split; [done|]. split; [done|]. split; [done|]. split; [done|]. split; [by rewrite Hc1, Ht1|]. split; [done|]. by rewrite Hc1.
Qed.
End Cases.

Lemma gets2 {S A B X Y} (f : S -> A) (g : S -> B) (k : A -> B -> M S X) (r : X -> M S Y) c s :
  bind (a <- gets f ;; b <- gets g ;; k a b) r c s = bind (k (f s) (g s)) r c s.
Proof using. done. Qed.

(** consoleintr() is the editor. *)
Lemma consoleintr_run b c s : steady c -> LCons ∉ c_held c -> u_panicked (cn_u s) = 0 -> (tx_max <= c_fuel c)%nat -> cons_ok s -> is_byte b -> b <> C "P" ->
  exists d s' ws, consoleintr b c s = Done tt (woken ws c) (chip_now d s') /\ edited b s d s' ws.
Proof using Ok.
  intros Hc Hlk Hp Hf Hs Hb HP. pose proof Hc as [Hok Hst]. unfold consoleintr. kstep (acquire_run LCons c s Hlk).
  assert (steady (enter LCons c)) as He by auto with ctx. set (c1 := enter LCons c) in *.
  assert (forall d s' ws, release LCons (woken ws c1) (chip_now d s') = Done tt (woken ws c) (chip_now d s')) as Hrel.
  { intros d s' ws. unfold c1. rewrite release_enter_woken by done. by rewrite Hst. }
  zcase (b =? C "P") as EP; [done|]. zcase (b =? C "U") as EU.
  { subst b. destruct (edit_kill c1 s He Hp Hf Hs) as (d & R & H). rewrite gets2. kstep R.
    exists d, (set_ce (cn_w s) s), []. split; [|done]. rewrite <- (woken_nil c1). apply Hrel. }
  destruct ((b =? C "H") || (b =? 127)) eqn:EB.
  { destruct (edit_back c1 s He Hp Hf Hs b EU) as (d & s' & R & H); [apply orb_true_iff in EB; rewrite !Z.eqb_eq in EB; tauto|].
    rewrite gets2. kstep R. exists d, s', []. split; [|done]. rewrite <- (woken_nil c1). apply Hrel. }
  zbool. destruct (edit_store c1 s He Hp Hf Hs b Hb EU) as (d & s' & ws & R & HE); [done|done|].
  rewrite gets2. kstep R. exists d, s', ws. split; [|done]. apply Hrel.
Qed.

(** ** Reading *)

(** The next byte for a reader. *)
Lemma take_byte s b l : cons_ok s -> committed s = b :: l ->
  let s' := set_cr (u32 (cn_r s + 1)) s in
  cn_r s <> cn_w s /\ znth 0 (cn_buf s) (cn_r s mod 128) = b /\ cons_ok s' /\ committed s' = l /\ typed s' = typed s.
Proof using.
  intros [Hbf Hby Hr Hw He Hl Hn] Hcm s'. pose proof (rlen_range 128 4294967296 ltac:(lia) ltac:(lia) (cn_r s) (cn_w s)) as H1.
  pose proof (rlen_range 128 4294967296 ltac:(lia) ltac:(lia) (cn_w s) (cn_e s)) as H2.
  assert (0 < rlenC (cn_r s) (cn_w s)) as Hpos.
  { pose proof (zlen_rbytes 128 4294967296 ltac:(lia) ltac:(lia) (cn_buf s) (cn_r s) (cn_w s)) as E. fold (committed s) in E. rewrite Hcm in E. unfold zlen in E. cbn in E. lia. }
  unfold committed in Hcm. rewrite rbytes_pop in Hcm by lia. injection Hcm as Hb Hl'.
  split; [intros E; rewrite E, (rlen_nn 128) in Hpos; lia|]. split; [done|]. split; [|split; [|done]].
  - split; cbn; try done; [apply u32_range|]. unfold u32. rewrite (rlen_mod_l 128), (rlen_pop 128) by lia. lia.
  - unfold committed, s'. cbn [cn_buf cn_r cn_w set_cr]. unfold u32. rewrite rbytes_mod_l by (lia || apply dvd128). done.
Qed.

Section Read.
Context (T : ptree) (l F : list Z) (root : Z) (Hroot : T !! [] = Some root).

(** The process reads into its own memory. *)
Definition reads (c : ctx) (k : kst) : Prop := p_pagetable (getp k (c_proc c)) = root /\ uspace (k_pm k) T l F.

Lemma myproc_run {A} (f : proc -> A) c k : steady c -> myproc f c k = Done (f (getp k (c_proc c))) c k.
Proof using.
  intros [Hok Hst]. unfold myproc, pget. kstep (push_off_run c k). rewrite bind_asks. change (c_proc (pushed c)) with (c_proc c).
  kstep (pop_off_pushed c k Hok). by rewrite Hst.
Qed.

Lemma copy_byte c (s : con D) va b : steady c -> reads c (cn_k s) -> 0 <= va < MAXVA -> user_pa (leaf (pm (k_pm (cn_k s))) T) va <> 0 -> is_byte b ->
  exists m, kst_ (either_copyout (Some va) [b]) c s = Done 0 c (set_cnk (set_kpm m (cn_k s)) s) /\ uspace m T l F /\
    (forall x, leaf (pm m) T x = leaf (pm (k_pm (cn_k s))) T x) /\
    (forall x, 0 <= x < MAXVA -> user_pa (leaf (pm (k_pm (cn_k s))) T) x <> 0 ->
       uload (pm m) (leaf (pm m) T) x = uwrite (uload (pm (k_pm (cn_k s))) (leaf (pm (k_pm (cn_k s))) T)) va [b] x).
Proof using Hroot.
  intros Hc [Hpt Hu] Hva Hpa Hb. destruct (copyout_byte T l F root Hroot c (k_pm (cn_k s)) va b Hu Hva Hpa Hb) as (m & R & H1 & H2 & H3).
  exists m. split; [|done]. apply (zoom_done on_kst). unfold either_copyout. kstep (myproc_run p_pagetable c (cn_k s) Hc). rewrite Hpt. by apply mem_run.
Qed.

Lemma wait_ready k c (s : con D) : cn_r s <> cn_w s -> consoleread_wait k c s = Done true c s.
Proof using. intros H. destruct k; cbn [consoleread_wait]; rewrite !bind_gets; zcase (cn_r s =? cn_w s) as E; done. Qed.

(** The state after a read of [bytes] into [va]. *)
Definition read_into (s : con D) (va : Z) (bytes rest : list Z) (s' : con D) : Prop :=
  cons_ok s' /\ committed s' = rest /\ typed s' = typed s /\ cn_u s' = cn_u s /\
  exists m, cn_k s' = set_kpm m (cn_k s) /\ uspace m T l F /\ (forall x, leaf (pm m) T x = leaf (pm (k_pm (cn_k s))) T x) /\
    (forall x, 0 <= x < MAXVA -> user_pa (leaf (pm (k_pm (cn_k s))) T) x <> 0 ->
       uload (pm m) (leaf (pm m) T) x = uwrite (uload (pm (k_pm (cn_k s))) (leaf (pm (k_pm (cn_k s))) T)) va bytes x).

Lemma read_none (s : con D) va rest s' : cons_ok s' -> committed s' = rest -> typed s' = typed s -> cn_u s' = cn_u s -> cn_k s' = cn_k s -> uspace (k_pm (cn_k s)) T l F ->
  read_into s va [] rest s'.
Proof using.
  intros H1 H2 H3 H4 H5 H6. split; [done|]. split; [done|]. split; [done|]. split; [done|]. exists (k_pm (cn_k s)). rewrite H5.
  split; [by destruct (cn_k s)|]. split; [done|]. split; [done|]. intros x _ _. by rewrite uwrite_nil.
Qed.

(** A byte, then the rest. *)
Lemma read_cons (s : con D) va b s1 m bytes rest s' :
  (forall x, leaf (pm m) T x = leaf (pm (k_pm (cn_k s))) T x) ->
  (forall x, 0 <= x < MAXVA -> user_pa (leaf (pm (k_pm (cn_k s))) T) x <> 0 ->
     uload (pm m) (leaf (pm m) T) x = uwrite (uload (pm (k_pm (cn_k s))) (leaf (pm (k_pm (cn_k s))) T)) va [b] x) ->
  typed s1 = typed s -> cn_u s1 = cn_u s -> cn_k s1 = set_kpm m (cn_k s) -> read_into s1 (va + 1) bytes rest s' -> read_into s va (b :: bytes) rest s'.
Proof using.
  intros Hl Hw Ht Hu Hk (H1 & H2 & H3 & H4 & m' & H5 & H6 & H7 & H8). rewrite Hk in *. cbn [k_pm set_kpm] in *.
  split; [done|]. split; [done|]. split; [congruence|]. split; [congruence|]. exists m'. split; [done|]. split; [done|].
  split; [intros x; by rewrite H7|]. intros x Hx Hpx. assert (user_pa (leaf (pm m) T) x = user_pa (leaf (pm (k_pm (cn_k s))) T) x) as Hpa by (unfold user_pa; by rewrite Hl).
  rewrite H8 by (done || by rewrite Hpa).
  change (b :: bytes) with ([b] ++ bytes). rewrite <- uwrite_app. change (zlen [b]) with 1. unfold uwrite at 1 2. destruct (_ && _); [done|]. by apply Hw.
Qed.

Lemma consoleread_loop_run k : forall c (s : con D) va target bytes rest,
  steady c -> reads c (cn_k s) -> cons_ok s -> mapped_range T (cn_k s) va (Z.of_nat k) -> Z.of_nat k <= target ->
  take_line k (Z.of_nat k =? target) (committed s) = Some (bytes, rest) ->
  exists s', consoleread_loop k (Some va) target (Z.of_nat k) c s = Done (Some (Z.of_nat k - zlen bytes)) c s' /\ read_into s va bytes rest s'.
Proof using Hroot.
  induction k as [|k IH]; intros c s va target bytes rest Hc Hr Hs Hm Ht Htl;
    remember (Z.of_nat _ =? target) as first eqn:Efirst in Htl; cbn [consoleread_loop take_line] in *.
  - injection Htl as <- <-. exists s. split; [done|]. by apply read_none; destruct Hr.
  - destruct (committed s) as [|b lc] eqn:Ecm; [done|]. destruct (take_byte s b lc Hs Ecm) as (Hne & Hb & Hs1 & Hc1 & Ht1).
    rewrite bind_asks. kstep (wait_ready (c_fuel c) c s Hne). cbn [negb]. rewrite !bind_gets, bind_modify. change INPUT_BUF_SIZE with 128. rewrite Hb.
    set (s1 := set_cr (u32 (cn_r s + 1)) s) in *. zcase (b =? C "D") as ED.
    { injection Htl as <- <-. change (zlen []) with 0. rewrite Z.sub_0_r. subst first. replace (Z.of_nat (S k) <? target) with (negb (Z.of_nat (S k) =? target)).
      - zcase (Z.of_nat (S k) =? target) as E; cbn [negb when]; rewrite ?bind_modify.
        + exists s1. split; [done|]. apply read_none; try done. by destruct Hr.
        + exists s. assert (set_cr (u32 (u32 (cn_r s + 1) - 1)) s1 = s) as ->.
          { destruct Hs. unfold u32. rewrite Zminus_mod_idemp_l. replace (cn_r s + 1 - 1) with (cn_r s) by lia. rewrite Z.mod_small by done. by destruct s. }
          split; [done|]. by apply read_none; destruct Hr.
      - zcase (Z.of_nat (S k) =? target) as E; symmetry; [apply Z.ltb_ge|apply Z.ltb_lt]; lia. }
    pose proof Hm as (M1 & M2 & M3). assert (is_byte b) as Hbb.
    { rewrite <- Hb. destruct Hs as [Hbf Hby]. pose proof (Z.mod_pos_bound (cn_r s) 128 ltac:(lia)). unfold znth. zcase (cn_r s mod 128 <? 0) as E; [lia|].
      rewrite Forall_forall in Hby. apply Hby, list_elem_of_In, nth_In. unfold zlen in Hbf. lia. }
    destruct (copy_byte c s1 va b Hc Hr ltac:(lia)) as (m & R & H1 & H2 & H3); [rewrite <- (Z.add_0_r va); apply M3; lia|done|].
    kstep R. change (0 =? -1) with false. cbn iota. set (s2 := set_cnk _ s1).
    assert (cons_ok s2) as Hs2 by (by destruct Hs1; split). zcase (b =? newline) as EN.
    { injection Htl as <- <-. change (zlen [b]) with 1. exists s2. split; [done|]. apply (read_cons s va b s2 m [] lc s2); try done.
      apply read_none; try done. }
    destruct (take_line k false lc) as [[bs rs]|] eqn:Etl; [|done]. injection Htl as <- <-. cbn [option_map].
    rewrite u64_small by (rewrite MAXVA_val in *; lia). replace (Z.of_nat (S k) - 1) with (Z.of_nat k) by lia.
    destruct (IH c s2 (va + 1) target bs rs Hc) as (s' & R' & H').
    + split; [apply Hr|done].
    + done.
    + split; [lia|]. split; [lia|]. intros i Hi. change (k_pm (cn_k s2)) with m. unfold user_pa. rewrite H2. replace (va + 1 + i) with (va + (i + 1)) by lia. apply M3. lia.
    + lia.
    + replace (Z.of_nat k =? target) with false by (symmetry; apply Z.eqb_neq; lia). change (committed s2) with (committed s1). by rewrite Hc1.
    + exists s'. split; [|by apply (read_cons s va b s2 m bs rs s')]. rewrite R'. do 2 f_equal. unfold zlen. cbn [length]. lia.
Qed.

Lemma consoleread_run c (s : con D) va n bytes rest :
  steady c -> LCons ∉ c_held c -> reads c (cn_k s) -> cons_ok s -> 0 <= n -> mapped_range T (cn_k s) va n ->
  take_line (Z.to_nat n) true (committed s) = Some (bytes, rest) ->
  exists s', consoleread (Some va) n c s = Done (zlen bytes) c s' /\ read_into s va bytes rest s'.
Proof using Hroot.
  intros Hc Hlk Hr Hs Hn Hm Htl. pose proof Hc as [Hok Hst]. unfold consoleread. kstep (acquire_run LCons c s Hlk).
  destruct (consoleread_loop_run (Z.to_nat n) (enter LCons c) s va n bytes rest) as (s' & R & H').
  - auto with ctx.
  - done.
  - done.
  - by rewrite Z2Nat.id.
  - lia.
  - rewrite Z2Nat.id, Z.eqb_refl by done. done.
  - rewrite Z2Nat.id in R by done. kstep R. cbn iota. kstep (release_enter LCons c s' Hok Hlk). rewrite Hst. exists s'. split; [|done].
    unfold ret. f_equal. lia.
Qed.

(** With nothing to read the reader sleeps, its lock released, until input is committed. *)
Lemma consoleread_sleeps c (s : con D) va n :
  idle c -> c_noff c = 0 -> (0 < c_fuel c)%nat -> p_killed (getp (cn_k s) (c_proc c)) = 0 -> cn_r s = cn_w s -> 0 < n ->
  exists k, consoleread (Some va) n c s = Sleep ChCons (enter (LProc (c_proc c)) c) s k.
Proof using.
  intros Hc Hn Hf Hk Hrw Hpos. unfold consoleread. kstep (acquire_run LCons c s (idle_nolock c LCons Hc)).
  destruct (Z.to_nat n) as [|j] eqn:Ej; [lia|]. cbn [consoleread_loop]. rewrite bind_assoc with (a := c_fuel c) (c' := enter LCons c) (s' := s) by done.
  destruct (sleep_enter ChCons LCons c s (id_steady _ Hc) Hn (idle_nolock _ _ Hc) (idle_nolock _ _ Hc) ltac:(done)) as (k & R & _).
  destruct (c_fuel c) as [|f] eqn:Ef; [lia|]. unfold bind at 1 2. cbn [consoleread_wait]. rewrite !bind_gets, Hrw, Z.eqb_refl, bind_asks.
  assert (kst_ (killed (c_proc (enter LCons c))) (enter LCons c) s = Done 0 (enter LCons c) s) as Rk.
  { assert (s = set_cnk (cn_k s) s) as E by (by destruct s). rewrite E at 2. apply (zoom_done on_kst). change (c_proc (enter LCons c)) with (c_proc c).
    rewrite killed_run; [by cbn; rewrite Hk|apply ctx_ok_enter, (idle_ok _ Hc)| |apply settle_enter, (idle_ok _ Hc)].
    rewrite c_held_enter, (id_held _ Hc). rewrite not_elem_of_cons. split; [done|apply not_elem_of_nil]. }
  kstep Rk. change (truth 0) with false. cbn iota. unfold bind at 1. rewrite R. cbn [obind]. eexists. reflexivity.
Qed.

End Read.

End Spec.

(** ** The theorems *)

(** C26: the console's interrupt handler implements a line editor: from any state of its ring
    buffer, whose indices may wrap at 32 bits, a character other than control-P leaves the
    committed input and the line being typed as [edit] says (control-U kills the line,
    backspace and delete take a character off it, a newline, control-D or a full buffer
    commit it, a carriage return is a newline, and characters beyond 128 bytes are dropped),
    echoes what [edit] says, and wakes the readers when input is committed. *)
Theorem consoleintr_edits {D} `{!UartChip D, !Uart16550 D} {image : KernelImage} (s : con D) c b :
  cons_ok s -> is_byte b -> b <> C "P" -> steady c -> LCons ∉ c_held c -> u_panicked (cn_u s) = 0 -> (tx_max <= c_fuel c)%nat ->
  exists s' ws, consoleintr b c s = Done tt (woken ws c) s' /\ cons_ok s' /\ cn_k s' = cn_k s /\
    ((committed s', typed s'), sent (u_chip (cn_u s'))) =
      ((edit b (committed s, typed s)).1, sent (u_chip (cn_u s)) ++ (edit b (committed s, typed s)).2) /\
    (committed s' <> committed s -> ws = [ChCons]).
Proof.
  intros Hs Hb HP Hc Hlk Hp Hf. destruct (consoleintr_run b c s Hc Hlk Hp Hf Hs Hb HP) as (d & s' & ws & R & H1 & H2 & H3 & H4 & H5 & H6).
  exists (chip_now d s'), ws. split; [done|]. split; [by destruct H1; split|]. split; [done|]. split; [|done]. f_equal; [exact H4|exact H5].
Qed.


(** ** Applications *)

(** A console where "ls" has been entered and "wc" is being typed; the indices are about to
    wrap at 32 bits. *)
Definition demo_con (m : pmem) : con plain_chip :=
  Con (Uart (PlainChip [] [] false) 0 (replicate 32 0) 0 0)
    ([10; 119; 99] ++ replicate 123 0 ++ [108; 115]) 4294967294 1 3 1 (demo_kp m 0).

Lemma demo_con_ok m : cons_ok (demo_con m) /\ committed (demo_con m) = line "ls" /\ typed (demo_con m) = str "wc".
Proof.
  split; [|done]. split.
  - reflexivity.
  - repeat constructor; unfold is_byte; lia.
  - cbn. lia.
  - cbn. lia.
  - cbn. lia.
  - change (rlen 4294967296 4294967294 1 + rlen 4294967296 1 3 <= 128). unfold rlen. dlia.
  - change (typed (demo_con m)) with [119; 99]. rewrite !not_elem_of_cons. split; [done|]. split; [done|]. apply not_elem_of_nil.
Defined.

(** A newline commits "wc". *)
Lemma consoleintr_edits_witness : exists m s' ws, consoleintr 10 user_ctx (demo_con m) = Done tt (woken ws user_ctx) s' /\
  committed s' = line "ls" ++ line "wc" /\ typed s' = [].
Proof.
  destruct demo_space as (m & T & l & _). destruct (demo_con_ok m) as (Hs & Hc & Ht).
  destruct (consoleintr_edits (demo_con m) user_ctx 10 Hs) as (s' & ws & R & _ & _ & E & _);
    [unfold is_byte; lia|discriminate|exact user_ctx_steady|apply not_elem_of_nil|done|cbn; lia|].
  exists m, s', ws. split; [exact R|]. rewrite Hc, Ht in E. injection E as E1 E2 _. by rewrite E1, E2.
Defined.

