(* ===== verification/KPrintf.v ===== *)
(** * What the kernel's printf() prints (kernel/printf.c)

    [kformat] gives the output of a format without the loops: numbers as in user programs
    but with lower-case digits and a sign for %x too.  [prints m l]: run by any thread, [m]
    returns, sends exactly the bytes [l] to the UART and changes nothing else. *)
From S2P Require Import Prelude Bytes Memory Machine Kernel Uart User Uprintf Console ConsoleSpec.

(** Lower case, for the digits A to F. *)
Definition lower (c : Z) : Z := if (65 <=? c) && (c <=? 70) then c + 32 else c.
Definition knumeral (base x : Z) : list Z := map lower (numeral base x).
Definition ksigned (base x : Z) : list Z := if x <? 0 then chr "-" :: knumeral base (- x) else knumeral base x.
Definition kpointer (x : Z) : list Z := str "0x" ++ map lower (map digit (digs 16 16 x)).

Definition kdirective (d : Z) (ap : list varg) : option (list Z * list varg) :=
  if d =? chr "d" then match ap with VInt z :: ap' => Some (ksigned 10 (s32 z), ap') | _ => None end
  else if d =? chr "x" then match ap with VInt z :: ap' => Some (ksigned 16 (s32 z), ap') | _ => None end
  else if d =? chr "p" then match ap with VInt z :: ap' => Some (kpointer (u64 z), ap') | _ => None end
  else if d =? chr "s" then match ap with VStr s :: ap' => Some (default null_string s, ap') | _ => None end
  else if d =? chr "%" then Some (str "%", ap)
  else Some ([chr "%"; d], ap).

Fixpoint kformat (fmt : list Z) (ap : list varg) : option (list Z) :=
  match fmt with
  | [] => Some []
  | c :: r =>
      if c =? chr "%" then
        match r with
        | [] => Some []
        | d :: r' => match kdirective d ap with
                     | Some (l, ap') => l' ← kformat r' ap'; Some (l ++ l')
                     | None => None
                     end
        end
      else l ← kformat r ap; Some (c :: l)
  end.

(** ** Numbers *)

Lemma kdigit d : 0 <= d < 16 -> znth 0 kdigits d = lower (digit d).
Proof.
  intros Hd. unfold digit, znth. zcase (d <? 0) as E; [lia|]. assert (Z.to_nat d < 16)%nat as Hn by lia.
  clear E Hd. destruct (Z.to_nat d) as [|n]; [done|]. do 15 (destruct n as [|n]; [done|]). lia.
Qed.

Lemma kprintint_loop_lower k x base buf : 0 < base <= 16 ->
  kprintint_loop k x base (map lower buf) = option_map (map lower) (printint_loop k x base buf).
Proof.
  intros Hb. revert x buf. induction k as [|k IH]; intros x buf; [done|]. cbn [kprintint_loop printint_loop].
  rewrite (u32_small base) by lia. rewrite kdigit by (pose proof (Z.mod_pos_bound x base ltac:(lia)); lia).
  change (lower (digit (x mod base)) :: map lower buf) with (map lower (digit (x mod base) :: buf)).
  destruct (truth (x / base)); [apply IH|done].
Qed.

Lemma lower_byte c : is_byte c -> is_byte (lower c).
Proof. unfold is_byte, lower. destruct ((65 <=? c) && (c <=? 70)) eqn:E; zbool; lia. Qed.

Lemma map_lower_bytes l : Forall is_byte l -> Forall is_byte (map lower l).
Proof. intros H. induction H; constructor; [by apply lower_byte|done]. Qed.

Section Prints.
Context {D : Type} `{Chip : !UartChip D, Ok : !Uart16550 D}.

Definition prints (m : M (con D) unit) (l : list Z) : Prop :=
  forall c s, steady c -> u_panicked (cn_u s) = 0 -> (tx_max <= c_fuel c)%nat ->
    exists d, m c s = Done tt c (chip_now d s) /\ sent d = sent (u_chip (cn_u s)) ++ l.

Lemma prints_ret : prints (ret tt) [].
Proof using. intros c s _ _ _. exists (u_chip (cn_u s)). rewrite app_nil_r. split; [by destruct s as [[]]|done]. Qed.

Lemma prints_bind m1 m2 l1 l2 : prints m1 l1 -> prints m2 l2 -> prints (m1 ;; m2) (l1 ++ l2).
Proof using.
  intros H1 H2 c s Hc Hp Hf. destruct (H1 c s Hc Hp Hf) as (d1 & R1 & E1). destruct (H2 c (chip_now d1 s) Hc Hp Hf) as (d2 & R2 & E2).
  exists d2. kstep R1. split; [exact R2|]. change (u_chip (cn_u (chip_now d1 s))) with d1 in E2. by rewrite E2, E1, app_assoc.
Qed.

Lemma prints_consputc b : is_byte b -> prints (consputc b) [b].
Proof using Ok.
  intros Hb c s Hc Hp Hf. destruct (consputc_run b c s Hc Hp Hf) as (d & R & E). exists d. split; [done|]. rewrite E. f_equal.
  unfold echo, is_byte in *. zcase (b =? BACKSPACE) as E'; [unfold BACKSPACE in E'; lia|]. by rewrite u8_small.
Qed.

Lemma prints_consputs l : Forall is_byte l -> prints (consputs l) l.
Proof using Ok.
  induction 1 as [|b l Hb Hl IH]; [apply prints_ret|]. change (b :: l) with ([b] ++ l). apply prints_bind; [by apply prints_consputc|done].
Qed.

Lemma prints_int xx base : base = 10 \/ base = 16 -> -2147483648 <= xx < 2147483648 -> prints (kprintint xx base 1) (ksigned base xx).
Proof using Ok.
  intros Hb Hx. unfold kprintint, ksigned. change (truth 1) with true. cbn [andb].
  assert (forall x, 0 <= x < 4294967296 -> kprintint_loop 16 x base [] = Some (knumeral base x) /\ zlen (knumeral base x) <= 10 /\ Forall is_byte (knumeral base x)) as Hn.
  { intros x Hx'. destruct (numeral_len base x ltac:(lia) Hx') as [R Hl]. pose proof (kprintint_loop_lower 16 x base [] ltac:(lia)) as E. rewrite R in E.
    split; [done|]. unfold knumeral. split; [unfold zlen in *; by rewrite length_map|]. apply map_lower_bytes, numeral_bytes. }
  zcase (xx <? 0) as E.
  - rewrite u32_small by lia. destruct (Hn (- xx)) as (-> & Hl & Hby); [lia|]. zcase (zlen (knumeral base (- xx)) <? 16) as E'; [|lia].
    apply prints_consputs. constructor; [vm_compute; split; congruence|done].
  - rewrite u32_small by lia. destruct (Hn xx) as (-> & Hl & Hby); [lia|]. by apply prints_consputs.
Qed.

Lemma prints_ptr_loop k x : 0 <= x < 16 ^ Z.of_nat k -> (k <= 16)%nat ->
  prints (kprintptr_loop k (x * 16 ^ Z.of_nat (16 - k))) (map lower (map digit (digs 16 k x))).
Proof using Ok.
  revert x. induction k as [|k IH]; intros x Hx Hk; [apply prints_ret|]. cbn [kprintptr_loop].
  destruct (shift_top k x Hx) as [E1 E2]; [lia|]. replace (16 - S k)%nat with (15 - k)%nat by lia. rewrite E1, E2.
  rewrite digs_top by lia. cbn [map]. rewrite kdigit by (apply Z.mod_pos_bound; lia).
  change (?a :: ?b) with ([a] ++ b). apply prints_bind; [apply prints_consputc, lower_byte, digit_byte|].
  apply IH; [|lia]. apply Z.mod_pos_bound. lia.
Qed.

Lemma prints_ptr x : 0 <= x < 18446744073709551616 -> prints (kprintptr x) (kpointer x).
Proof using Ok.
  intros Hx. unfold kprintptr, kpointer. change (str "0x") with ([chr "0"] ++ [chr "x"]). rewrite <- app_assoc.
  apply prints_bind; [by apply prints_consputc|]. apply prints_bind; [by apply prints_consputc|].
  pose proof (prints_ptr_loop 16 x) as R. change (16 - 16)%nat with 0%nat in R. rewrite Z.pow_0_r, Z.mul_1_r in R.
  apply R; [|lia]. change (16 ^ Z.of_nat 16) with 18446744073709551616. done.
Qed.

(** ** Formats *)

Lemma land_byte b : is_byte b -> Z.land b 255 = b.
Proof using. intros H. change 255 with (Z.ones 8). rewrite Z.land_ones by lia. apply Z.mod_small. unfold is_byte in H. lia. Qed.

Lemma prints_loop fmt : Forall is_byte fmt -> forall ap l, Forall arg_ok ap -> kformat fmt ap = Some l -> prints (kprintf_loop fmt ap) l.
Proof using Ok.
  induction fmt as [fmt IH] using (induction_ltof1 _ (@length Z)). intros Hf ap l Ha Hk.
  destruct fmt as [|f fmt]; [injection Hk as <-; apply prints_ret|]. cbn [kformat kprintf_loop] in *. apply Forall_cons in Hf as [Hfb Hf].
  rewrite (land_byte f Hfb). destruct (f =? chr "%") eqn:Ep; cbn [negb].
  2: { destruct (kformat fmt ap) as [l'|] eqn:E; [|done]. injection Hk as <-. change (f :: l') with ([f] ++ l').
       apply prints_bind; [by apply prints_consputc|]. apply IH; [unfold ltof; cbn; lia|done|done|done]. }
  destruct fmt as [|d fmt]; [injection Hk as <-; apply prints_ret|]. apply Forall_cons in Hf as [Hdb Hf]. rewrite (land_byte d Hdb).
  assert (forall ap' l', Forall arg_ok ap' -> kformat fmt ap' = Some l' -> prints (kprintf_loop fmt ap') l') as IH'.
  { intros ap' l' Ha' Hk'. apply IH; [unfold ltof; cbn; lia|done|done|done]. }
  assert (forall m l1 ap', Forall arg_ok ap' -> prints m l1 -> (l' ← kformat fmt ap'; Some (l1 ++ l')) = Some l -> prints (m ;; kprintf_loop fmt ap') l) as Hd.
  { intros m l1 ap' Ha' Hm E. destruct (kformat fmt ap') as [l'|] eqn:E'; [|done]. injection E as <-. apply prints_bind; [done|by apply IH']. }
  unfold kdirective in Hk.
  destruct (d =? chr "d"); [destruct ap as [|[z|] ap]; try done; apply Forall_cons in Ha as [_ Ha]; eapply Hd; [done|apply prints_int; [by left|apply s32_range]|exact Hk]|].
  destruct (d =? chr "x"); [destruct ap as [|[z|] ap]; try done; apply Forall_cons in Ha as [_ Ha]; eapply Hd; [done|apply prints_int; [by right|apply s32_range]|exact Hk]|].
  destruct (d =? chr "p"); [destruct ap as [|[z|] ap]; try done; apply Forall_cons in Ha as [_ Ha]; eapply Hd; [done|apply prints_ptr, u64_range|exact Hk]|].
  destruct (d =? chr "s").
  { destruct ap as [|[|s] ap]; try done. apply Forall_cons in Ha as [Has Ha]. eapply Hd; [done| |exact Hk]. apply prints_consputs.
    destruct s; [done|]. change (default null_string None) with [40; 110; 117; 108; 108; 41].
    repeat (constructor; [unfold is_byte; lia|]). constructor. }
  destruct (d =? chr "%"); [eapply Hd; [done|by apply prints_consputc|exact Hk]|].
  destruct (kformat fmt ap) as [l'|] eqn:E; [|done]. injection Hk as <-. cbn [app]. change (chr "%" :: d :: l') with ([chr "%"] ++ [d] ++ l').
  apply prints_bind; [by apply prints_consputc|]. apply prints_bind; [by apply prints_consputc|]. by apply IH'.
Qed.

(** printf() sends exactly the text its format denotes, under its lock or, in a panic,
    without it. *)
Theorem kprintf_formats fmt ap l c s :
  Forall is_byte fmt -> Forall arg_ok ap -> kformat fmt ap = Some l ->
  steady c -> LPr ∉ c_held c -> u_panicked (cn_u s) = 0 -> (tx_max <= c_fuel c)%nat ->
  exists d, kprintf (Some fmt) ap c s = Done tt c (chip_now d s) /\ sent d = sent (u_chip (cn_u s)) ++ l.
Proof using Ok.
  intros Hf Ha Hk Hc Hlk Hp Hfu. pose proof Hc as [Hok Hst]. unfold kprintf. rewrite bind_gets.
  destruct (truth (cn_locking s)) eqn:El; cbn [when].
  - kstep (acquire_run LPr c s Hlk). destruct (prints_loop fmt Hf ap l Ha Hk (enter LPr c) s) as (d & R & E); [auto with ctx|done|done|].
    exists d. kstep R. rewrite (release_enter LPr c _ Hok Hlk), Hst. done.
  - rewrite bind_ret_l. destruct (prints_loop fmt Hf ap l Ha Hk c s Hc Hp Hfu) as (d & R & E). exists d. kstep R. done.
Qed.

End Prints.
