(* ===== verification/Virtio.v ===== *)
(** * The disk driver (kernel/virtio_disk.c, kernel/virtio.h)

    The driver's queues in memory, its functions, and any number of kernel threads that call
    virtio_disk_rw(), interleaved with virtio_disk_intr() and with the device.  The code
    between an acquire() and a release() or sleep() of [vdisk_lock] is split at each access
    the device can see, so that the device may run between them; a sleeping thread may be
    woken at any time.  The device is a parameter: [device_may] is what virtio allows it. *)
From S2P Require Import Prelude Machine Bio Ring.

(** ** Constants *)

Definition NUM : Z := 8.
Definition VRING_DESC_F_NEXT : Z := 1.
Definition VRING_DESC_F_WRITE : Z := 2.
Definition VIRTIO_BLK_T_IN : Z := 0.
Definition VIRTIO_BLK_T_OUT : Z := 1.

(** ** The queues *)

(** The addresses the driver gives to the device: a request header, a buffer's data, a
    status byte. *)
Inductive dma := PNull | POps (i : Z) | PData (b : Z) | PStatus (i : Z).

Record virtq_desc := Desc { d_addr : dma; d_len : Z; d_flags : Z; d_next : Z }.
Record virtio_blk_req := BlkReq { r_type : Z; r_reserved : Z; r_sector : Z }.

(** A buffer, as far as the driver sees it. *)
Record vbuf := VBuf { vb_blockno : Z; vb_data : list Z; vb_disk : Z }.

(** struct disk, with the two rings the driver shares with the device and the buffers. *)
Record disk := Disk {
  k_desc : Z -> virtq_desc;
  k_aidx : Z;                 (* avail->idx *)
  k_aring : list Z;           (* avail->ring *)
  k_uidx : Z;                 (* used->idx *)
  k_uring : list Z;           (* used->ring[].id *)
  k_free : Z -> Z;
  k_used_idx : Z;
  k_b : Z -> option Z;        (* info[].b *)
  k_status : Z -> Z;          (* info[].status *)
  k_ops : Z -> virtio_blk_req;
  k_buf : Z -> vbuf;
}.

Definition set {A} (i : Z) (x : A) (f : Z -> A) : Z -> A := fun j => if j =? i then x else f j.

Definition set_desc (x : Z -> virtq_desc) (d : disk) : disk :=
  Disk x (k_aidx d) (k_aring d) (k_uidx d) (k_uring d) (k_free d) (k_used_idx d) (k_b d) (k_status d) (k_ops d) (k_buf d).
Definition set_aidx (x : Z) (d : disk) : disk :=
  Disk (k_desc d) x (k_aring d) (k_uidx d) (k_uring d) (k_free d) (k_used_idx d) (k_b d) (k_status d) (k_ops d) (k_buf d).
Definition set_aring (x : list Z) (d : disk) : disk :=
  Disk (k_desc d) (k_aidx d) x (k_uidx d) (k_uring d) (k_free d) (k_used_idx d) (k_b d) (k_status d) (k_ops d) (k_buf d).
Definition set_used (i : Z) (x : list Z) (d : disk) : disk :=
  Disk (k_desc d) (k_aidx d) (k_aring d) i x (k_free d) (k_used_idx d) (k_b d) (k_status d) (k_ops d) (k_buf d).
Definition set_dfree (x : Z -> Z) (d : disk) : disk :=
  Disk (k_desc d) (k_aidx d) (k_aring d) (k_uidx d) (k_uring d) x (k_used_idx d) (k_b d) (k_status d) (k_ops d) (k_buf d).
Definition set_used_idx (x : Z) (d : disk) : disk :=
  Disk (k_desc d) (k_aidx d) (k_aring d) (k_uidx d) (k_uring d) (k_free d) x (k_b d) (k_status d) (k_ops d) (k_buf d).
Definition set_info_b (x : Z -> option Z) (d : disk) : disk :=
  Disk (k_desc d) (k_aidx d) (k_aring d) (k_uidx d) (k_uring d) (k_free d) (k_used_idx d) x (k_status d) (k_ops d) (k_buf d).
Definition set_status (x : Z -> Z) (d : disk) : disk :=
  Disk (k_desc d) (k_aidx d) (k_aring d) (k_uidx d) (k_uring d) (k_free d) (k_used_idx d) (k_b d) x (k_ops d) (k_buf d).
Definition set_ops (x : Z -> virtio_blk_req) (d : disk) : disk :=
  Disk (k_desc d) (k_aidx d) (k_aring d) (k_uidx d) (k_uring d) (k_free d) (k_used_idx d) (k_b d) (k_status d) x (k_buf d).
Definition set_buf (x : Z -> vbuf) (d : disk) : disk :=
  Disk (k_desc d) (k_aidx d) (k_aring d) (k_uidx d) (k_uring d) (k_free d) (k_used_idx d) (k_b d) (k_status d) (k_ops d) x.

(** ** Descriptors *)

(** The loop of alloc_desc() from descriptor [i] on. *)
Fixpoint alloc_desc_from (k : nat) (i : Z) (d : disk) : Z * disk :=
  match k with
  | O => (-1, d)
  | S k' => if truth (k_free d i) then (i, set_dfree (set i 0 (k_free d)) d) else alloc_desc_from k' (i + 1) d
  end.

Definition alloc_desc (d : disk) : Z * disk := alloc_desc_from (Z.to_nat NUM) 0 d.

(** A panic is its message. *)
Definition free_desc (i : Z) (d : disk) : string + disk :=
  if NUM <=? i then inl "free_desc 1"
  else if truth (k_free d i) then inl "free_desc 2"
  else inr (set_dfree (set i 1 (k_free d)) (set_desc (set i (Desc PNull 0 0 0) (k_desc d)) d)).

(** A chain has at most [NUM] descriptors. *)
Fixpoint free_chain_from (k : nat) (i : Z) (d : disk) : string + disk :=
  match k with
  | O => inl "free_chain: endless"
  | S k' =>
      let flag := d_flags (k_desc d i) in
      let nxt := d_next (k_desc d i) in
      match free_desc i d with
      | inl m => inl m
      | inr d => if truth (Z.land flag VRING_DESC_F_NEXT) then free_chain_from k' nxt d else inr d
      end
  end.

Definition free_chain (i : Z) (d : disk) : string + disk := free_chain_from (Z.to_nat NUM) i d.

(** The three descriptors, or None. *)
Definition alloc3_desc (d : disk) : string + (option (Z * Z * Z) * disk) :=
  let '(i0, d) := alloc_desc d in
  if i0 <? 0 then inr (None, d) else
  let '(i1, d) := alloc_desc d in
  if i1 <? 0 then
    match free_desc i0 d with inl m => inl m | inr d => inr (None, d) end
  else
  let '(i2, d) := alloc_desc d in
  if i2 <? 0 then
    match free_desc i0 d with
    | inl m => inl m
    | inr d => match free_desc i1 d with inl m => inl m | inr d => inr (None, d) end
    end
  else inr (Some (i0, i1, i2), d).

(** virtio_disk_rw() from the request's header to [disk.info[idx[0]].b = b]. *)
Definition fill (b : Z) (write : bool) (i0 i1 i2 : Z) (d : disk) : disk :=
  let sector := u32 (vb_blockno (k_buf d b) * (BSIZE / 512)) in
  let d := set_ops (set i0 (BlkReq (if write then VIRTIO_BLK_T_OUT else VIRTIO_BLK_T_IN) 0 sector) (k_ops d)) d in
  let d := set_desc (set i0 (Desc (POps i0) 16 VRING_DESC_F_NEXT i1) (k_desc d)) d in
  let flags := if write then 0 else VRING_DESC_F_WRITE in
  let d := set_desc (set i1 (Desc (PData b) BSIZE (Z.lor flags VRING_DESC_F_NEXT) i2) (k_desc d)) d in
  let d := set_status (set i0 0xff (k_status d)) d in
  let d := set_desc (set i2 (Desc (PStatus i0) 1 VRING_DESC_F_WRITE 0) (k_desc d)) d in
  let d := set_buf (set b (VBuf (vb_blockno (k_buf d b)) (vb_data (k_buf d b)) 1) (k_buf d)) d in
  set_info_b (set i0 (Some b) (k_b d)) d.

(** ** The device's side *)

(** What the device has done, in order: the byte offset and the data. *)
Inductive dop := DRead (off : Z) (data : list Z) | DWrite (off : Z) (data : list Z).

Definition load (p : Z -> Z) (off n : Z) : list Z := (fun i => p (off + i)) <$> seqZ 0 n.
Definition store (p : Z -> Z) (off : Z) (data : list Z) : Z -> Z :=
  fun x => if (off <=? x) && (x <? off + zlen data) then znth 0 data (x - off) else p x.

(** The device: how far it has read the avail ring, the requests it has taken and those it
    has carried out but not yet reported, and the disk; [dv_broken] after a request whose
    descriptors make no sense. *)
Record device := Device {
  dv_last : Z;
  dv_busy : list Z;
  dv_done : list Z;
  dv_platter : Z -> Z;
  dv_broken : bool;
  dv_log : list dop;
}.

(** ** Threads *)

(** A call of virtio_disk_rw(): its arguments, the buffer's data and the length of the
    device's log when it was called. *)
Record call := Call { q_b : Z; q_wr : bool; q_data : list Z; q_n : nat }.

(** Where a thread is.  [T_nodesc] sleeps on [disk.free[0]], [T_wait] on the buffer. *)
Inductive pc :=
| T_idle
| T_call (q : call)
| T_alloc (q : call)
| T_nodesc (q : call)
| T_fill (q : call) (i0 i1 i2 : Z)
| T_ring (q : call) (i0 i1 i2 : Z)
| T_bump (q : call) (i0 i1 i2 : Z)
| T_check (q : call) (i0 i1 i2 : Z)
| T_wait (q : call) (i0 i1 i2 : Z)
| T_free (q : call) (i0 i1 i2 : Z)
| T_done (q : call)
| I_call
| I_loop
| T_panic (msg : string).

Record world := World {
  w_disk : disk;
  w_dev : device;
  w_pc : nat -> pc;
  w_lock : option nat;
}.

Definition at_pc (i : nat) (x : pc) (w : world) : world :=
  World (w_disk w) (w_dev w) (fun j => if Nat.eqb j i then x else w_pc w j) (w_lock w).
Definition on_disk (d : disk) (w : world) : world := World d (w_dev w) (w_pc w) (w_lock w).
Definition on_dev (v : device) (w : world) : world := World (w_disk w) v (w_pc w) (w_lock w).
Definition locked (l : option nat) (w : world) : world := World (w_disk w) (w_dev w) (w_pc w) l.

(** acquire(&disk.vdisk_lock): a thread that finds it taken stays where it is. *)
Definition take_lock (i : nat) (x : pc) (w : world) : world :=
  match w_lock w with
  | None => locked (Some i) (at_pc i x w)
  | Some _ => w
  end.

(** virtio_disk_rw() *)
Definition rw_step (i : nat) (w : world) : world :=
  let d := w_disk w in
  match w_pc w i with
  | T_call q => take_lock i (T_alloc q) w
  | T_alloc q =>
      match alloc3_desc d with
      | inl m => at_pc i (T_panic m) w
      | inr (Some (i0, i1, i2), d) => at_pc i (T_fill q i0 i1 i2) (on_disk d w)
      | inr (None, d) => locked None (at_pc i (T_nodesc q) (on_disk d w))
      end
  | T_nodesc q => take_lock i (T_alloc q) w
  | T_fill q i0 i1 i2 => at_pc i (T_ring q i0 i1 i2) (on_disk (fill (q_b q) (q_wr q) i0 i1 i2 d) w)
  | T_ring q i0 i1 i2 =>
      at_pc i (T_bump q i0 i1 i2) (on_disk (set_aring (zupd (k_aring d) (k_aidx d mod NUM) i0) d) w)
  | T_bump q i0 i1 i2 => at_pc i (T_check q i0 i1 i2) (on_disk (set_aidx (u16 (k_aidx d + 1)) d) w)
  | T_check q i0 i1 i2 =>
      if vb_disk (k_buf d (q_b q)) =? 1 then locked None (at_pc i (T_wait q i0 i1 i2) w)
      else at_pc i (T_free q i0 i1 i2) w
  | T_wait q i0 i1 i2 => take_lock i (T_check q i0 i1 i2) w
  | T_free q i0 i1 i2 =>
      match free_chain i0 (set_info_b (set i0 None (k_b d)) d) with
      | inl m => at_pc i (T_panic m) w
      | inr d => locked None (at_pc i (T_done q) (on_disk d w))
      end
  | T_done q => at_pc i T_idle w
  | _ => w
  end.

(** virtio_disk_intr() *)
Definition intr_step (i : nat) (w : world) : world :=
  let d := w_disk w in
  match w_pc w i with
  | I_call => take_lock i I_loop w
  | I_loop =>
      if k_used_idx d =? k_uidx d then locked None (at_pc i T_idle w) else
      let id := znth 0 (k_uring d) (k_used_idx d mod NUM) in
      if truth (k_status d id) then at_pc i (T_panic "virtio_disk_intr status") w else
      match k_b d id with
      | None => at_pc i (T_panic "null b") w
      | Some b =>
          let d := set_buf (set b (VBuf (vb_blockno (k_buf d b)) (vb_data (k_buf d b)) 0) (k_buf d)) d in
          on_disk (set_used_idx (u16 (k_used_idx d + 1)) d) w
      end
  | _ => w
  end.

(** ** What virtio lets the device do *)

Definition without (h : Z) (l : list Z) : list Z := filter (fun x => x <> h) l.

(** The device carries out the request whose first descriptor is [h]: it follows the chain
    to the header, the data and the status byte. *)
Definition carry_out (h : Z) (w : world) : world :=
  let d := w_disk w in
  let v := w_dev w in
  let d0 := k_desc d h in
  let d1 := k_desc d (d_next d0) in
  let d2 := k_desc d (d_next d1) in
  let broken := on_dev (Device (dv_last v) (dv_busy v) (dv_done v) (dv_platter v) true (dv_log v)) w in
  match d_addr d0, d_addr d1, d_addr d2 with
  | POps o, PData b, PStatus j =>
      if (d_len d0 =? 16) && (d_flags d0 =? VRING_DESC_F_NEXT) && (d_len d2 =? 1) && (d_flags d2 =? VRING_DESC_F_WRITE) then
        let off := r_sector (k_ops d o) * 512 in
        let x := k_buf d b in
        let v' p l := Device (dv_last v) (without h (dv_busy v)) (dv_done v ++ [h]) p (dv_broken v) l in
        if (r_type (k_ops d o) =? VIRTIO_BLK_T_OUT) && (d_flags d1 =? VRING_DESC_F_NEXT) && (d_len d1 =? zlen (vb_data x)) then
          on_disk (set_status (set j 0 (k_status d)) d)
            (on_dev (v' (store (dv_platter v) off (vb_data x)) (dv_log v ++ [DWrite off (vb_data x)])) w)
        else if (r_type (k_ops d o) =? VIRTIO_BLK_T_IN) && (d_flags d1 =? Z.lor VRING_DESC_F_WRITE VRING_DESC_F_NEXT) then
          let data := load (dv_platter v) off (d_len d1) in
          on_disk (set_status (set j 0 (k_status d)) (set_buf (set b (VBuf (vb_blockno x) data (vb_disk x)) (k_buf d)) d))
            (on_dev (v' (dv_platter v) (dv_log v ++ [DRead off data])) w)
        else broken
      else broken
  | _, _, _ => broken
  end.

Inductive device_may (w : world) : world -> Prop :=
| may_rest : device_may w w
| may_take : dv_last (w_dev w) <> k_aidx (w_disk w) ->
    let v := w_dev w in
    device_may w (on_dev (Device (u16 (dv_last v + 1)) (dv_busy v ++ [znth 0 (k_aring (w_disk w)) (dv_last v mod NUM)]) (dv_done v)
                            (dv_platter v) (dv_broken v) (dv_log v)) w)
| may_carry_out h : h ∈ dv_busy (w_dev w) -> device_may w (carry_out h w)
| may_report h : h ∈ dv_done (w_dev w) ->
    let v := w_dev w in
    let d := w_disk w in
    device_may w (on_disk (set_used (u16 (k_uidx d + 1)) (zupd (k_uring d) (k_uidx d mod NUM) h) d)
                   (on_dev (Device (dv_last v) (dv_busy v) (without h (dv_done v)) (dv_platter v) (dv_broken v) (dv_log v)) w)).

(** ** The system *)

(** The call a thread is in, and the descriptors it has. *)
Definition call_of (x : pc) : option call :=
  match x with
  | T_call q | T_alloc q | T_nodesc q | T_fill q _ _ _ | T_ring q _ _ _ | T_bump q _ _ _
  | T_check q _ _ _ | T_wait q _ _ _ | T_free q _ _ _ | T_done q => Some q
  | _ => None
  end.

Definition descs (x : pc) : list Z :=
  match x with
  | T_fill _ i0 i1 i2 | T_ring _ i0 i1 i2 | T_bump _ i0 i1 i2 | T_check _ i0 i1 i2 | T_wait _ i0 i1 i2 | T_free _ i0 i1 i2 => [i0; i1; i2]
  | _ => []
  end.

(** No call is using the buffer: its caller has the buffer's sleep lock. *)
Definition unused (w : world) (b : Z) : Prop := forall i q, call_of (w_pc w i) = Some q -> q_b q <> b.

Section System.
Context (device : world -> world -> Prop).

Inductive step (w : world) : world -> Prop :=
| st_rw i : step w (rw_step i w)
| st_intr i : step w (intr_step i w)
| st_device w' : device w w' -> step w w'
| st_call i b wr : w_pc w i = T_idle -> unused w b ->
    let x := k_buf (w_disk w) b in
    0 <= vb_blockno x < 2147483648 -> zlen (vb_data x) = BSIZE ->
    step w (at_pc i (T_call (Call b wr (vb_data x) (length (dv_log (w_dev w))))) w)
| st_interrupt i : w_pc w i = T_idle -> step w (at_pc i I_call w)
| st_buffer b x : unused w b -> step w (on_disk (set_buf (set b x (k_buf (w_disk w))) (w_disk w)) w).

(** After virtio_disk_init(), with [p] on the disk. *)
Definition initial (p : Z -> Z) (w : world) : Prop :=
  (forall i, w_pc w i = T_idle) /\ w_lock w = None /\ w_dev w = Device 0 [] [] p false [] /\
  (let d := w_disk w in
   k_aidx d = 0 /\ k_aring d = replicate 8 0 /\ k_uidx d = 0 /\ k_uring d = replicate 8 0 /\ k_used_idx d = 0 /\
   forall i, 0 <= i < NUM -> k_free d i = 1).

Inductive reachable (p : Z -> Z) : world -> Prop :=
| reach_init w : initial p w -> reachable p w
| reach_step w w' : reachable p w -> step w w' -> reachable p w'.
End System.
