(* ===== verification/VirtioSpec.v ===== *)
(** * The disk driver and the device together behave as a disk

    An invariant of the threads, the queues and the device, and from it: no panic is ever
    reached, the device never meets a malformed request, no descriptor is lost, and every
    call of virtio_disk_rw() takes effect at one point of the device's history. *)
From S2P Require Import Prelude Machine Bio Ring Virtio.

Abbreviation rlen8 := (rlen 65536).
Abbreviation rbytes8 := (rbytes 8 65536).

Definition avail (w : world) : list Z := rbytes8 (k_aring (w_disk w)) (dv_last (w_dev w)) (k_aidx (w_disk w)).
Definition reported (w : world) : list Z := rbytes8 (k_uring (w_disk w)) (k_used_idx (w_disk w)) (k_uidx (w_disk w)).

(** The first descriptors of the requests the device is to carry out, and of those it has
    carried out. *)
Definition pending (w : world) : list Z := avail w ++ dv_busy (w_dev w).
Definition finished (w : world) : list Z := dv_done (w_dev w) ++ reported w.
Definition flight (w : world) : list Z := pending w ++ finished w.

Abbreviation bufof w q := (k_buf (w_disk w) (q_b q)).
Definition offset (w : world) (q : call) : Z := vb_blockno (bufof w q) * 1024.

(** The device has carried out the call since it was made: a write wrote the data the buffer
    had at the call, a read brought the buffer what the device read. *)
Definition performed (w : world) (q : call) : Prop :=
  exists j, (q_n q <= j)%nat /\
    dv_log (w_dev w) !! j = Some (if q_wr q then DWrite (offset w q) (q_data q) else DRead (offset w q) (vb_data (bufof w q))).

(** The three descriptors and the request's header, as [fill] writes them. *)
Definition formatted (w : world) (q : call) (i0 i1 i2 : Z) : Prop :=
  let d := w_disk w in
  k_desc d i0 = Desc (POps i0) 16 VRING_DESC_F_NEXT i1 /\
  k_desc d i1 = Desc (PData (q_b q)) BSIZE (Z.lor (if q_wr q then 0 else VRING_DESC_F_WRITE) VRING_DESC_F_NEXT) i2 /\
  k_desc d i2 = Desc (PStatus i0) 1 VRING_DESC_F_WRITE 0 /\
  k_ops d i0 = BlkReq (if q_wr q then VIRTIO_BLK_T_OUT else VIRTIO_BLK_T_IN) 0 (u32 (vb_blockno (bufof w q) * (BSIZE / 512))) /\
  k_b d i0 = Some (q_b q).

Record call_ok (w : world) (q : call) : Prop := {
  ca_block : 0 <= vb_blockno (bufof w q) < 2147483648;
  ca_size : zlen (q_data q) = BSIZE;
  ca_log : (q_n q <= length (dv_log (w_dev w)))%nat;
}.

Definition untouched (w : world) (q : call) : Prop := vb_data (bufof w q) = q_data q.

(** A thread waiting for its request. *)
Definition awaiting (w : world) (q : call) (i0 : Z) : Prop :=
  vb_disk (bufof w q) = 1 /\ i0 ∈ pending w /\ untouched w q \/
  vb_disk (bufof w q) = 1 /\ i0 ∈ finished w /\ k_status (w_disk w) i0 = 0 /\ performed w q \/
  vb_disk (bufof w q) = 0 /\ (i0 ∉ flight w) /\ performed w q.

Definition thread_ok (w : world) (x : pc) : Prop :=
  match x with
  | T_idle | I_call | I_loop => True
  | T_call q | T_alloc q | T_nodesc q => call_ok w q /\ untouched w q
  | T_fill q i0 i1 i2 => call_ok w q /\ untouched w q /\ (i0 ∉ flight w)
  | T_ring q i0 i1 i2 => call_ok w q /\ untouched w q /\ (i0 ∉ flight w) /\ formatted w q i0 i1 i2 /\ vb_disk (bufof w q) = 1
  | T_bump q i0 i1 i2 => call_ok w q /\ untouched w q /\ (i0 ∉ flight w) /\ formatted w q i0 i1 i2 /\ vb_disk (bufof w q) = 1 /\
      rget 8 (k_aring (w_disk w)) (k_aidx (w_disk w)) = i0
  | T_check q i0 i1 i2 | T_wait q i0 i1 i2 => call_ok w q /\ formatted w q i0 i1 i2 /\ awaiting w q i0
  | T_free q i0 i1 i2 => call_ok w q /\ formatted w q i0 i1 i2 /\ (i0 ∉ flight w) /\ performed w q
  | T_done q => call_ok w q /\ performed w q
  | T_panic _ => False
  end.

(** The disk's history: every read returns what is on the disk. *)
Fixpoint history (p : Z -> Z) (l : list dop) : option (Z -> Z) :=
  match l with
  | [] => Some p
  | DRead off data :: l' => if bool_decide (data = load p off (zlen data)) then history p l' else None
  | DWrite off data :: l' => history (store p off data) l'
  end.

Definition waits_for (x : pc) : option Z :=
  match x with T_check _ i0 _ _ | T_wait _ i0 _ _ => Some i0 | _ => None end.

Definition holds (x : pc) : bool :=
  match x with
  | T_alloc _ | T_fill _ _ _ _ | T_ring _ _ _ _ | T_bump _ _ _ _ | T_check _ _ _ _ | T_free _ _ _ _ | I_loop => true
  | _ => false
  end.

Record inv (p : Z -> Z) (w : world) : Prop := {
  iv_threads : forall i, thread_ok w (w_pc w i);
  iv_descs : forall i, NoDup (descs (w_pc w i)) /\ Forall (fun j => 0 <= j < 8 /\ k_free (w_disk w) j = 0) (descs (w_pc w i));
  iv_apart : forall i j x, i <> j -> x ∈ descs (w_pc w i) -> x ∉ descs (w_pc w j);
  iv_bufs : forall i j q q', i <> j -> call_of (w_pc w i) = Some q -> call_of (w_pc w j) = Some q' -> q_b q <> q_b q';
  iv_owned : forall x, 0 <= x < 8 -> k_free (w_disk w) x = 1 \/ k_free (w_disk w) x = 0 /\ exists i, x ∈ descs (w_pc w i);
  iv_nodup : NoDup (flight w);
  iv_flight : forall x, x ∈ flight w -> exists i, waits_for (w_pc w i) = Some x;
  iv_rings : length (k_aring (w_disk w)) = 8%nat /\ length (k_uring (w_disk w)) = 8%nat;
  iv_index : 0 <= k_aidx (w_disk w) < 65536 /\ 0 <= dv_last (w_dev w) < 65536 /\ 0 <= k_uidx (w_disk w) < 65536 /\ 0 <= k_used_idx (w_disk w) < 65536;
  iv_lock : forall i, holds (w_pc w i) = true <-> w_lock w = Some i;
  iv_history : exists q, history p (dv_log (w_dev w)) = Some q /\ forall x, q x = dv_platter (w_dev w) x;
  iv_device : dv_broken (w_dev w) = false;
}.

(** ** Threads that a step does not touch *)

(** What a thread's condition depends on. *)
Record frame (w w' : world) (x : pc) : Prop := {
  fr_buf : forall q, call_of x = Some q -> bufof w' q = bufof w q;
  fr_desc : forall i, i ∈ descs x -> k_desc (w_disk w') i = k_desc (w_disk w) i;
  fr_head : forall i r, descs x = i :: r -> k_ops (w_disk w') i = k_ops (w_disk w) i /\ k_b (w_disk w') i = k_b (w_disk w) i /\
    k_status (w_disk w') i = k_status (w_disk w) i /\ (i ∈ pending w' <-> i ∈ pending w) /\ (i ∈ finished w' <-> i ∈ finished w);
  fr_log : exists l, dv_log (w_dev w') = dv_log (w_dev w) ++ l;
  fr_ring : holds x = true -> rget 8 (k_aring (w_disk w')) (k_aidx (w_disk w')) = rget 8 (k_aring (w_disk w)) (k_aidx (w_disk w));
}.

Lemma in_flight w x : x ∈ flight w <-> x ∈ pending w \/ x ∈ finished w.
Proof. unfold flight. apply elem_of_app. Qed.

Lemma call_ok_frame w w' x q : frame w w' x -> call_of x = Some q -> call_ok w q -> call_ok w' q.
Proof.
  intros F E [H1 H2 H3]. destruct (fr_log _ _ _ F) as [l El]. split; [by rewrite (fr_buf _ _ _ F q E)|done|]. rewrite El, length_app. lia.
Qed.

Lemma performed_frame w w' x q : frame w w' x -> call_of x = Some q -> performed w q -> performed w' q.
Proof.
  intros F E (j & Hj & Hl). destruct (fr_log _ _ _ F) as [l El]. exists j. split; [done|]. unfold offset. rewrite (fr_buf _ _ _ F q E), El.
  rewrite lookup_app_l; [done|]. apply lookup_lt_Some in Hl. done.
Qed.

Lemma formatted_frame w w' x q i0 i1 i2 : frame w w' x -> call_of x = Some q -> descs x = [i0; i1; i2] -> formatted w q i0 i1 i2 -> formatted w' q i0 i1 i2.
Proof.
  intros F E Ed (H1 & H2 & H3 & H4 & H5). destruct (fr_head _ _ _ F i0 [i1; i2] Ed) as (E1 & E2 & _). unfold formatted.
  rewrite (fr_buf _ _ _ F q E), E1, E2. rewrite !(fr_desc _ _ _ F) by (rewrite Ed; set_solver). done.
Qed.

Lemma untouched_frame w w' x q : frame w w' x -> call_of x = Some q -> untouched w q -> untouched w' q.
Proof. intros F E H. unfold untouched. by rewrite (fr_buf _ _ _ F q E). Qed.

Lemma flight_frame w w' x i r : frame w w' x -> descs x = i :: r -> i ∈ flight w' <-> i ∈ flight w.
Proof. intros F E. destruct (fr_head _ _ _ F i r E) as (_ & _ & _ & H1 & H2). rewrite !in_flight. tauto. Qed.

Lemma awaiting_frame w w' x q i r : frame w w' x -> call_of x = Some q -> descs x = i :: r -> awaiting w q i -> awaiting w' q i.
Proof.
  intros F E Ed H. destruct (fr_head _ _ _ F i r Ed) as (_ & _ & Hs & Hp & Hf). unfold awaiting. rewrite (fr_buf _ _ _ F q E), (flight_frame _ _ _ _ _ F Ed), Hs, Hp, Hf.
  destruct H as [(H1 & H2 & H3)|[(H1 & H2 & H3 & H4)|(H1 & H2 & H3)]]; [left|right; left|right; right]; repeat split; try done.
  - by eapply untouched_frame.
  - by eapply performed_frame.
  - by eapply performed_frame.
Qed.

Lemma thread_frame w w' x : frame w w' x -> thread_ok w x -> thread_ok w' x.
Proof.
  intros F. pose proof (call_ok_frame w w' x) as A1. pose proof (performed_frame w w' x) as A2. pose proof (formatted_frame w w' x) as A3.
  pose proof (untouched_frame w w' x) as A4. pose proof (awaiting_frame w w' x) as A5. pose proof (fr_buf _ _ _ F) as A6. pose proof (fr_ring _ _ _ F) as A7.
  assert (forall i r, descs x = i :: r -> i ∉ flight w -> i ∉ flight w') as A8 by (intros i r E; by rewrite (flight_frame _ _ _ _ _ F E)).
  destruct x; cbn [thread_ok]; try done; intros H; repeat match goal with H : _ /\ _ |- _ => destruct H end; repeat split;
    try (by (eapply A1 || eapply A2 || eapply A3 || eapply A4 || eapply A5 || eapply A8)).
  - by rewrite A6.
  - by rewrite A6.
  - by rewrite A7.
Qed.

(** ** Building the invariant again *)

(** A step by thread [i]: what it may change. *)
Record moves (w w' : world) (i : nat) : Prop := {
  mv_others : forall j, j <> i -> w_pc w' j = w_pc w j;
  mv_frame : forall j, j <> i -> frame w w' (w_pc w j);
  mv_descs : NoDup (descs (w_pc w' i)) /\ Forall (fun x => 0 <= x < 8 /\ k_free (w_disk w') x = 0) (descs (w_pc w' i));
  mv_new : forall x, x ∈ descs (w_pc w' i) -> x ∈ descs (w_pc w i) \/ k_free (w_disk w) x = 1;
  mv_keep : forall x, 0 <= x < 8 -> x ∉ descs (w_pc w i) -> x ∉ descs (w_pc w' i) -> k_free (w_disk w') x = k_free (w_disk w) x;
  mv_drop : forall x, 0 <= x < 8 -> x ∈ descs (w_pc w i) -> x ∉ descs (w_pc w' i) -> k_free (w_disk w') x = 1;
  mv_call : forall q, call_of (w_pc w' i) = Some q -> call_of (w_pc w i) = Some q \/ unused w (q_b q);
  mv_lock : w_lock w' = (if holds (w_pc w' i) then Some i else if holds (w_pc w i) then None else w_lock w);
  mv_take : holds (w_pc w' i) = true -> holds (w_pc w i) = true \/ w_lock w = None;
}.

Lemma inv_moves p w w' i : inv p w -> moves w w' i -> thread_ok w' (w_pc w' i) ->
  NoDup (flight w') -> (forall x, x ∈ flight w' -> x ∈ flight w /\ (waits_for (w_pc w i) = Some x -> waits_for (w_pc w' i) = Some x) \/ waits_for (w_pc w' i) = Some x) ->
  length (k_aring (w_disk w')) = 8%nat /\ length (k_uring (w_disk w')) = 8%nat ->
  0 <= k_aidx (w_disk w') < 65536 /\ 0 <= dv_last (w_dev w') < 65536 /\ 0 <= k_uidx (w_disk w') < 65536 /\ 0 <= k_used_idx (w_disk w') < 65536 ->
  dv_log (w_dev w') = dv_log (w_dev w) -> dv_platter (w_dev w') = dv_platter (w_dev w) -> dv_broken (w_dev w') = false -> inv p w'.
Proof.
  intros I M Ht Hnd Hfl Hr Hix Hlog Hpl Hbr. pose proof (mv_others _ _ _ M) as Ho.
  assert (forall j x, j <> i -> x ∈ descs (w_pc w j) -> 0 <= x < 8 /\ k_free (w_disk w) x = 0) as Hown.
  { intros j x Hj Hx. destruct (iv_descs _ _ I j) as [_ Hd]. rewrite Forall_forall in Hd. by apply Hd. }
  assert (forall j x, j <> i -> x ∈ descs (w_pc w j) -> x ∉ descs (w_pc w' i)) as Hdis.
  { intros j x Hj Hx Hx'. destruct (mv_new _ _ _ M x Hx') as [Hi|Hi]; [by apply (iv_apart _ _ I i j x (not_eq_sym Hj) Hi)|].
    destruct (Hown j x Hj Hx) as [_ E]. rewrite E in Hi. discriminate. }
  split; try done.
  - intros j. destruct (decide (j = i)) as [->|Hj]; [done|]. rewrite Ho by done. eapply thread_frame; [by apply (mv_frame _ _ _ M)|apply (iv_threads _ _ I)].
  - intros j. destruct (decide (j = i)) as [->|Hj]; [apply (mv_descs _ _ _ M)|]. rewrite Ho by done. destruct (iv_descs _ _ I j) as [H1 H2]. split; [done|].
    apply Forall_forall. intros x Hx. destruct (Hown j x Hj Hx) as [Hx1 Hx2]. split; [done|].
    rewrite (mv_keep _ _ _ M); [done|done|by apply (iv_apart _ _ I j i x Hj)|by apply (Hdis j)].
  - intros j j' x Hne Hx Hx'. destruct (decide (j = i)) as [->|Hj], (decide (j' = i)) as [->|Hj']; [done| | |].
    + rewrite Ho in Hx' by done. by apply (Hdis j' x).
    + rewrite Ho in Hx by done. by apply (Hdis j x).
    + rewrite Ho in Hx, Hx' by done. by apply (iv_apart _ _ I j j' x).
  - assert (forall j q q', j <> i -> call_of (w_pc w' i) = Some q -> call_of (w_pc w j) = Some q' -> q_b q <> q_b q') as Hb.
    { intros j q q' Hj Hq Hq'. destruct (mv_call _ _ _ M q Hq) as [Hc|Hc]; [by apply (iv_bufs _ _ I i j q q' (not_eq_sym Hj))|]. by apply not_eq_sym, (Hc j q'). }
    intros j j' q q' Hne Hq Hq'. destruct (decide (j = i)) as [->|Hj], (decide (j' = i)) as [->|Hj']; [done| | |].
    + rewrite Ho in Hq' by done. by apply (Hb j').
    + rewrite Ho in Hq by done. by apply not_eq_sym, (Hb j).
    + rewrite Ho in Hq, Hq' by done. by apply (iv_bufs _ _ I j j').
  - intros x Hx. destruct (decide (x ∈ descs (w_pc w' i))) as [Hi'|Hi'].
    { destruct (mv_descs _ _ _ M) as [_ Hd]. rewrite Forall_forall in Hd. right. split; [by apply Hd|by exists i]. }
    destruct (decide (x ∈ descs (w_pc w i))) as [Hi|Hi]; [left; by apply (mv_drop _ _ _ M)|].
    rewrite (mv_keep _ _ _ M) by done. destruct (iv_owned _ _ I x Hx) as [E|(E & j & Hj)]; [by left|right]. split; [done|].
    exists j. rewrite Ho; [done|]. by intros ->.
  - intros x Hx. destruct (Hfl x Hx) as [[Hf Hw]|Hw]; [|by exists i]. destruct (iv_flight _ _ I x Hf) as [j Hj].
    destruct (decide (j = i)) as [->|Hji]; [exists i; auto|]. exists j. by rewrite Ho.
  - intros j. rewrite (mv_lock _ _ _ M). pose proof (iv_lock _ _ I j) as Hj. pose proof (iv_lock _ _ I i) as Hi. pose proof (mv_take _ _ _ M) as Htk.
    destruct (decide (j = i)) as [->|Hji].
    + destruct (holds (w_pc w' i)) eqn:E'; [done|]. destruct (holds (w_pc w i)) eqn:E; [done|]. tauto.
    + rewrite (Ho j Hji). destruct (holds (w_pc w' i)) eqn:E'.
      * split; [|congruence]. intros H. destruct (Htk eq_refl) as [H'|H']; [|rewrite H' in Hj; by apply Hj in H]. apply Hi in H'. apply Hj in H. congruence.
      * destruct (holds (w_pc w i)) eqn:E; [|done]. split; [|done]. intros H. apply Hj in H. assert (w_lock w = Some i) by (by apply Hi). congruence.
  - rewrite Hlog, Hpl. apply (iv_history _ _ I).
Qed.

Lemma frame_same w w' x : w_disk w' = w_disk w -> w_dev w' = w_dev w -> frame w w' x.
Proof.
  intros Ed Ev. assert (pending w' = pending w /\ finished w' = finished w) as [Ep Ef].
  { unfold pending, finished, avail, reported. by rewrite Ed, Ev. }
  split; rewrite ?Ed, ?Ev, ?Ep, ?Ef; try done. exists []. by rewrite app_nil_r.
Qed.

Lemma at_pc_eq i x w : w_pc (at_pc i x w) i = x.
Proof. cbn. by rewrite Nat.eqb_refl. Qed.
Lemma at_pc_ne i x w j : j <> i -> w_pc (at_pc i x w) j = w_pc w j.
Proof. intros H. cbn. by apply Nat.eqb_neq in H as ->. Qed.

Lemma thread_same w w' x : w_disk w' = w_disk w -> w_dev w' = w_dev w -> thread_ok w x -> thread_ok w' x.
Proof. intros Ed Ev. apply thread_frame. by apply frame_same. Qed.

(** A step that only moves thread [i], from [y] to [x], and perhaps the lock. *)
Lemma inv_goto p w i x l y : inv p w -> w_pc w i = y -> thread_ok w x -> descs x = descs y ->
  (forall q, call_of x = Some q -> call_of y = Some q \/ unused w (q_b q)) ->
  l = (if holds x then Some i else if holds y then None else w_lock w) -> (holds x = true -> holds y = true \/ w_lock w = None) ->
  (forall h, h ∈ flight w -> waits_for y = Some h -> waits_for x = Some h) ->
  inv p (locked l (at_pc i x w)).
Proof.
  intros I Ey Ht Hd Hc Hl Hk Hw. set (w' := locked l (at_pc i x w)).
  assert (w_pc w' i = x) as Ex by apply at_pc_eq. assert (forall j, j <> i -> w_pc w' j = w_pc w j) as Eo by (intros j Hj; by apply at_pc_ne).
  apply (inv_moves p w w' i I); rewrite ?Ex, ?Ey; try done; try (by apply I).
  - split; rewrite ?Ex, ?Ey; try done.
    + intros j _. by apply frame_same.
    + rewrite Hd, <- Ey. apply (iv_descs _ _ I).
    + intros z Hz. left. by rewrite <- Hd.
    + intros z _ H1 H2. rewrite Hd in H2. done.
  - by apply (thread_same w).
  - intros z Hz. left. split; [done|]. by apply Hw.
Qed.

Lemma inv_goto_keep p w i x y : inv p w -> w_pc w i = y -> thread_ok w x -> descs x = descs y ->
  (forall q, call_of x = Some q -> call_of y = Some q \/ unused w (q_b q)) -> holds x = holds y ->
  (forall h, h ∈ flight w -> waits_for y = Some h -> waits_for x = Some h) -> inv p (at_pc i x w).
Proof.
  intros I Ey Ht Hd Hc Hh Hw. assert (at_pc i x w = locked (w_lock w) (at_pc i x w)) as E by done. rewrite E.
  apply (inv_goto p w i x (w_lock w) y I Ey Ht Hd Hc); [|rewrite Hh; auto|done]. rewrite Hh. destruct (holds y) eqn:E'; [|done]. subst y. by apply (iv_lock _ _ I).
Qed.

Lemma inv_take_lock p w i x y : inv p w -> w_pc w i = y -> thread_ok w x -> descs x = descs y -> call_of x = call_of y -> holds x = true -> holds y = false ->
  waits_for x = waits_for y -> inv p (take_lock i x w).
Proof.
  intros I Ey Ht Hd Hc Hx Hy Hw. unfold take_lock. destruct (w_lock w) eqn:El; [done|].
  apply (inv_goto p w i x (Some i) y I Ey Ht Hd); [intros q; rewrite Hc; auto|by rewrite Hx|rewrite El; auto|intros h _; by rewrite Hw].
Qed.

(** ** Descriptors *)

Lemma set_eq {A} i (x : A) f : set i x f i = x.
Proof. unfold set. by rewrite Z.eqb_refl. Qed.
Lemma set_ne {A} i (x : A) f j : j <> i -> set i x f j = f j.
Proof. intros H. unfold set. by apply Z.eqb_neq in H as ->. Qed.

(** alloc_desc() takes a free descriptor, if there is one, and changes nothing else. *)
Lemma alloc_from_spec k : forall i d r d', alloc_desc_from k i d = (r, d') ->
  r = -1 /\ d' = d /\ (forall j, i <= j < i + Z.of_nat k -> k_free d j = 0) \/
  i <= r < i + Z.of_nat k /\ truth (k_free d r) = true /\ d' = set_dfree (set r 0 (k_free d)) d.
Proof.
  induction k as [|k IH]; intros i d r d' E; cbn [alloc_desc_from] in E.
  - injection E as <- <-. left. split; [done|]. split; [done|]. lia.
  - destruct (truth (k_free d i)) eqn:Ef; [injection E as <- <-; right; split; [lia|done]|].
    destruct (IH _ _ _ _ E) as [(H1 & H2 & H3)|(H1 & H2 & H3)]; [left|right; split; [lia|done]].
    split; [done|]. split; [done|]. intros j Hj. destruct (decide (j = i)) as [->|]; [|apply H3; lia]. unfold truth in Ef. zbool. done.
Qed.

Lemma alloc_desc_spec d r d' : alloc_desc d = (r, d') ->
  r = -1 /\ d' = d \/ 0 <= r < 8 /\ truth (k_free d r) = true /\ d' = set_dfree (set r 0 (k_free d)) d.
Proof. intros E. destruct (alloc_from_spec _ _ _ _ _ E) as [(-> & -> & _)|(H1 & H2)]; [by left|right]. change (Z.of_nat (Z.to_nat NUM)) with 8 in H1. split; [lia|done]. Qed.

(** The disk with other free flags and descriptors. *)
Record same_but_free (d d' : disk) : Prop := {
  sf_aidx : k_aidx d' = k_aidx d; sf_aring : k_aring d' = k_aring d;
  sf_uidx : k_uidx d' = k_uidx d; sf_uring : k_uring d' = k_uring d;
  sf_used : k_used_idx d' = k_used_idx d;
  sf_b : k_b d' = k_b d; sf_status : k_status d' = k_status d;
  sf_ops : k_ops d' = k_ops d; sf_buf : k_buf d' = k_buf d;
}.

(** alloc3_desc() gives three different free descriptors, or none and leaves as many free. *)
Lemma alloc3_spec d : (forall j, 0 <= j < 8 -> k_free d j = 0 \/ k_free d j = 1) ->
  exists r d', alloc3_desc d = inr (r, d') /\ same_but_free d d' /\
    match r with
    | Some (i0, i1, i2) => NoDup [i0; i1; i2] /\ Forall (fun j => 0 <= j < 8 /\ k_free d j = 1 /\ k_free d' j = 0) [i0; i1; i2] /\
        (forall j, j ∉ [i0; i1; i2] -> k_free d' j = k_free d j) /\ k_desc d' = k_desc d
    | None => (forall j, 0 <= j < 8 -> k_free d' j = k_free d j) /\ (forall j, k_free d j = 0 -> k_desc d' j = k_desc d j)
    end.
Proof.
  intros Hb. unfold alloc3_desc. destruct (alloc_desc d) as [i0 d0] eqn:E0. apply alloc_desc_spec in E0 as [[-> ->]|(H0 & F0 & ->)].
  { cbn. eexists _, d. split; [done|]. split; [done|done]. }
  zcase (i0 <? 0) as N0; [lia|]. assert (k_free d i0 = 1) as G0. { destruct (Hb i0 H0) as [E|E]; [by rewrite E in F0|done]. }
  destruct (alloc_desc _) as [i1 d1] eqn:E1. apply alloc_desc_spec in E1 as [[-> ->]|(H1 & F1 & ->)].
  { cbn [Z.ltb Z.compare]. unfold free_desc. zcase (NUM <=? i0) as N; [unfold NUM in N; lia|]. cbn [k_free set_dfree]. rewrite set_eq. cbn [truth Z.eqb negb].
    eexists _, _. split; [done|]. split; [done|]. cbn [k_free set_dfree k_desc set_desc]. split.
    - intros j Hj. destruct (decide (j = i0)) as [->|Hne]; [by rewrite set_eq|by rewrite !set_ne].
    - intros j Hj. rewrite set_ne; [done|]. intros ->. congruence. }
  zcase (i1 <? 0) as N1; [lia|]. cbn [k_free set_dfree] in F1. assert (i1 <> i0) as D1 by (intros ->; by rewrite set_eq in F1). rewrite set_ne in F1 by done.
  assert (k_free d i1 = 1) as G1. { destruct (Hb i1 H1) as [E|E]; [by rewrite E in F1|done]. }
  destruct (alloc_desc _) as [i2 d2] eqn:E2. apply alloc_desc_spec in E2 as [[-> ->]|(H2 & F2 & ->)].
  { cbn [Z.ltb Z.compare]. unfold free_desc. zcase (NUM <=? i0) as N; [unfold NUM in N; lia|]. cbn [k_free set_dfree]. rewrite (set_ne i1 0 _ i0) by done. rewrite set_eq.
    cbn [truth Z.eqb negb]. zcase (NUM <=? i1) as N'; [unfold NUM in N'; lia|]. cbn [k_free set_dfree set_desc]. rewrite (set_ne i0 1 _ i1) by done. rewrite set_eq.
    cbn [truth Z.eqb negb]. eexists _, _. split; [done|]. split; [done|]. cbn [k_free set_dfree k_desc set_desc]. split.
    - intros j Hj. destruct (decide (j = i1)) as [->|Hne]; [by rewrite set_eq|]. rewrite (set_ne i1) by done.
      destruct (decide (j = i0)) as [->|Hne']; [by rewrite set_eq|]. by rewrite !set_ne.
    - intros j Hj. rewrite !set_ne; [done|intros ->; congruence|intros ->; congruence]. }
  zcase (i2 <? 0) as N2; [lia|]. cbn [k_free set_dfree] in F2. assert (i2 <> i1) as D2 by (intros ->; by rewrite set_eq in F2). rewrite set_ne in F2 by done.
  assert (i2 <> i0) as D3 by (intros ->; by rewrite set_eq in F2). rewrite set_ne in F2 by done.
  assert (k_free d i2 = 1) as G2. { destruct (Hb i2 H2) as [E|E]; [by rewrite E in F2|done]. }
  eexists _, _. split; [done|]. split; [done|]. cbn [k_free set_dfree]. split; [|split; [|split; [|done]]].
  - apply NoDup_cons. split; [set_solver|]. apply NoDup_cons. split; [set_solver|]. apply NoDup_singleton.
  - repeat (apply Forall_cons; split; [split; [done|split; [done|]]|]); [..|constructor].
    + rewrite !(set_ne _ _ _ i0) by done. by rewrite set_eq.
    + rewrite (set_ne i2 _ _ i1) by done. by rewrite set_eq.
    + by rewrite set_eq.
  - intros j Hj. rewrite !set_ne; set_solver.
Qed.

(** ** The steps of virtio_disk_rw() *)

Lemma waits_descs x h : waits_for x = Some h -> h ∈ descs x.
Proof. destruct x; cbn; try done; intros [= ->]; left. Qed.

Lemma flight_taken p w x : inv p w -> x ∈ flight w -> 0 <= x < 8 /\ k_free (w_disk w) x = 0.
Proof.
  intros I Hx. destruct (iv_flight _ _ I x Hx) as [i Hi]. apply waits_descs in Hi. destruct (iv_descs _ _ I i) as [_ H]. rewrite Forall_forall in H. by apply H.
Qed.

(** A step that leaves the queues' indices and rings, and the device, as they are. *)
Record same_queues (w w' : world) : Prop := {
  sq_aidx : k_aidx (w_disk w') = k_aidx (w_disk w);
  sq_aring : k_aring (w_disk w') = k_aring (w_disk w);
  sq_uidx : k_uidx (w_disk w') = k_uidx (w_disk w);
  sq_uring : k_uring (w_disk w') = k_uring (w_disk w);
  sq_used : k_used_idx (w_disk w') = k_used_idx (w_disk w);
  sq_dev : w_dev w' = w_dev w;
}.

Lemma same_queues_flight w w' : same_queues w w' -> pending w' = pending w /\ finished w' = finished w.
Proof. intros [A B C D E F]. unfold pending, finished, avail, reported. by rewrite A, B, C, D, E, F. Qed.

Lemma frame_queues w w' x : same_queues w w' -> (forall q, call_of x = Some q -> bufof w' q = bufof w q) ->
  (forall i, i ∈ descs x -> k_desc (w_disk w') i = k_desc (w_disk w) i /\ k_ops (w_disk w') i = k_ops (w_disk w) i /\
     k_b (w_disk w') i = k_b (w_disk w) i /\ k_status (w_disk w') i = k_status (w_disk w) i) -> frame w w' x.
Proof.
  intros Q Hb Hd. destruct (same_queues_flight w w' Q) as [Ep Ef]. split; [done|intros i Hi; by apply Hd| | |].
  - intros i r E. destruct (Hd i) as (_ & H1 & H2 & H3); [rewrite E; left|]. by rewrite Ep, Ef.
  - exists []. by rewrite (sq_dev _ _ Q), app_nil_r.
  - intros _. by rewrite (sq_aring _ _ Q), (sq_aidx _ _ Q).
Qed.

(** The invariant after a step of thread [i] that leaves the queues alone. *)
Lemma inv_quiet p w w' i : inv p w -> same_queues w w' -> moves w w' i -> thread_ok w' (w_pc w' i) ->
  (forall h, h ∈ flight w -> waits_for (w_pc w i) = Some h -> waits_for (w_pc w' i) = Some h) -> inv p w'.
Proof.
  intros I Q M Ht Hw. destruct (same_queues_flight w w' Q) as [Ep Ef]. assert (flight w' = flight w) as E by (unfold flight; by rewrite Ep, Ef).
  apply (inv_moves p w w' i I M Ht); rewrite ?E, ?(sq_aring _ _ Q), ?(sq_aidx _ _ Q), ?(sq_uring _ _ Q), ?(sq_uidx _ _ Q), ?(sq_used _ _ Q), ?(sq_dev _ _ Q); try done; try (by apply I).
  intros x Hx. left. auto.
Qed.

Lemma free_bool p w : inv p w -> forall j, 0 <= j < 8 -> k_free (w_disk w) j = 0 \/ k_free (w_disk w) j = 1.
Proof. intros I j Hj. destruct (iv_owned _ _ I j Hj) as [H|[H _]]; auto. Qed.


Lemma same_but_free_queues w w' : same_but_free (w_disk w) (w_disk w') -> w_dev w' = w_dev w -> same_queues w w'.
Proof. by intros []. Qed.

(** A thread whose descriptors keep their contents. *)
Lemma frame_free w w' x : same_but_free (w_disk w) (w_disk w') -> w_dev w' = w_dev w ->
  (forall i, i ∈ descs x -> k_desc (w_disk w') i = k_desc (w_disk w) i) -> frame w w' x.
Proof.
  intros S Ev Hd. apply frame_queues; [by apply same_but_free_queues|intros q _; by rewrite (sf_buf _ _ S)|].
  intros i Hi. by rewrite (Hd i Hi), (sf_b _ _ S), (sf_status _ _ S), (sf_ops _ _ S).
Qed.

Lemma inv_alloc_some p w i q d' i0 i1 i2 : inv p w -> w_pc w i = T_alloc q -> same_but_free (w_disk w) d' -> NoDup [i0; i1; i2] ->
  Forall (fun j => 0 <= j < 8 /\ k_free (w_disk w) j = 1 /\ k_free d' j = 0) [i0; i1; i2] ->
  (forall j, j ∉ [i0; i1; i2] -> k_free d' j = k_free (w_disk w) j) -> k_desc d' = k_desc (w_disk w) ->
  inv p (at_pc i (T_fill q i0 i1 i2) (on_disk d' w)).
Proof.
  intros I E S Hnd Hall Hoth Hdesc. set (w' := at_pc i (T_fill q i0 i1 i2) (on_disk d' w)).
  pose proof (iv_threads _ _ I i) as Hti. rewrite E in Hti. destruct Hti as [Hca Hun].
  assert (same_queues w w') as Q by (by apply same_but_free_queues). assert (w_pc w' i = T_fill q i0 i1 i2) as Ei by apply at_pc_eq.
  assert (forall x, frame w w' x) as Hfr by (intros x; apply frame_free; [done|done|intros; cbn; by rewrite Hdesc]).
  rewrite Forall_forall in Hall. apply (inv_quiet p w w' i I Q); [|rewrite Ei; cbn|rewrite E; done].
  - split; rewrite ?Ei, ?E; cbn [descs call_of holds]; try done.
    + intros j Hj. by apply (at_pc_ne i _ (on_disk d' w)).
    + split; [done|]. apply Forall_forall. intros x Hx. cbn. destruct (Hall x Hx) as (? & ? & ?). done.
    + intros x Hx. right. by destruct (Hall x Hx) as (? & ? & ?).
    + intros x _ _ Hx. by apply Hoth.
    + intros x _ Hx. by apply elem_of_nil in Hx.
    + intros q' [= <-]. by left.
    + cbn. apply (iv_lock _ _ I). by rewrite E.
    + by left.
  - assert (frame w w' (T_alloc q)) as F by apply Hfr. split; [by eapply call_ok_frame|]. split; [by eapply untouched_frame|].
    destruct (same_queues_flight w w' Q) as [Ep Ef]. unfold flight. rewrite Ep, Ef. intros Hx. destruct (flight_taken p w i0 I Hx) as [_ H0].
    destruct (Hall i0 ltac:(left)) as (_ & H1 & _). congruence.
Qed.

Lemma inv_alloc_none p w i q d' : inv p w -> w_pc w i = T_alloc q -> same_but_free (w_disk w) d' ->
  (forall j, 0 <= j < 8 -> k_free d' j = k_free (w_disk w) j) -> (forall j, k_free (w_disk w) j = 0 -> k_desc d' j = k_desc (w_disk w) j) ->
  inv p (locked None (at_pc i (T_nodesc q) (on_disk d' w))).
Proof.
  intros I E S Hfree Hdesc. set (w' := locked None (at_pc i (T_nodesc q) (on_disk d' w))).
  pose proof (iv_threads _ _ I i) as Hti. rewrite E in Hti. destruct Hti as [Hca Hun].
  assert (same_queues w w') as Q by (by apply same_but_free_queues). assert (w_pc w' i = T_nodesc q) as Ei by apply at_pc_eq.
  apply (inv_quiet p w w' i I Q); [|rewrite Ei; cbn|rewrite E; done].
  - split; rewrite ?Ei, ?E; cbn [descs call_of holds]; try done.
    + intros j Hj. by apply (at_pc_ne i (T_nodesc q) (on_disk d' w) j).
    + intros j Hj. apply frame_free; [done|done|]. intros x Hx. apply Hdesc. destruct (iv_descs _ _ I j) as [_ H]. rewrite Forall_forall in H. by apply H.
    + split; [apply NoDup_nil_2|constructor].
    + intros x Hx. by apply elem_of_nil in Hx.
    + intros x Hx _ _. by apply Hfree.
    + intros q' [= <-]. by left.
  - assert (frame w w' (T_alloc q)) as F by (apply frame_free; [done|done|intros x Hx; by apply elem_of_nil in Hx]).
    split; [by eapply call_ok_frame|by eapply untouched_frame].
Qed.

Lemma inv_alloc p w i q : inv p w -> w_pc w i = T_alloc q -> inv p (rw_step i w).
Proof.
  intros I E. unfold rw_step. rewrite E. destruct (alloc3_spec (w_disk w) (free_bool p w I)) as (r & d' & -> & S & Hr).
  destruct r as [[[i0 i1] i2]|]; destruct Hr as (H1 & H2); [|by apply inv_alloc_none]. destruct H2 as (H2 & H3 & H4). by apply inv_alloc_some.
Qed.

(** The lock's holder moves on, keeping its call and its descriptors. *)
Lemma moves_hold p w w' i x y : inv p w -> w_pc w i = y -> w_pc w' i = x -> (forall j, j <> i -> w_pc w' j = w_pc w j) ->
  (forall j, j <> i -> frame w w' (w_pc w j)) -> descs x = descs y -> call_of x = call_of y -> holds x = true -> holds y = true ->
  k_free (w_disk w') = k_free (w_disk w) -> w_lock w' = w_lock w -> moves w w' i.
Proof.
  intros I Ey Ex Ho Hf Hd Hc Hx Hy Hfr Hl. assert (w_lock w = Some i) as El by (apply (iv_lock _ _ I); by rewrite Ey).
  split; rewrite ?Ex, ?Ey, ?Hfr, ?Hd, ?Hc, ?Hx, ?Hy, ?Hl; try done; auto.
  rewrite <- Ey. apply (iv_descs _ _ I).
Qed.

Lemma only_holder p w i j : inv p w -> holds (w_pc w i) = true -> j <> i -> holds (w_pc w j) = false.
Proof.
  intros I Hi Hj. apply (iv_lock _ _ I) in Hi. destruct (holds (w_pc w j)) eqn:E; [|done]. apply (iv_lock _ _ I) in E. congruence.
Qed.

Lemma fill_other b wr i0 i1 i2 d x : x ∉ [i0; i1; i2] ->
  let d' := fill b wr i0 i1 i2 d in
  k_desc d' x = k_desc d x /\ k_ops d' x = k_ops d x /\ k_b d' x = k_b d x /\ k_status d' x = k_status d x.
Proof.
  intros Hx. assert (x <> i0 /\ x <> i1 /\ x <> i2) as (H0 & H1 & H2) by set_solver. cbn. by rewrite !set_ne.
Qed.

Lemma inv_fill p w i q i0 i1 i2 : inv p w -> w_pc w i = T_fill q i0 i1 i2 -> inv p (rw_step i w).
Proof.
  intros I E. unfold rw_step. rewrite E. set (w' := at_pc i _ _). assert (w_pc w' i = T_ring q i0 i1 i2) as Ei by apply at_pc_eq.
  pose proof (iv_threads _ _ I i) as Hti. rewrite E in Hti. destruct Hti as (Hca & Hun & Hfl). assert (same_queues w w') as Q by done.
  destruct (iv_descs _ _ I i) as [Hnd _]. rewrite E in Hnd. cbn in Hnd.
  assert (i0 <> i1 /\ i0 <> i2 /\ i1 <> i2) as (N1 & N2 & N3).
  { apply NoDup_cons in Hnd as [Hnd0 Hnd]. apply NoDup_cons in Hnd as [Hnd1 _]. set_solver. }
  assert (vb_data (bufof w' q) = vb_data (bufof w q) /\ vb_blockno (bufof w' q) = vb_blockno (bufof w q) /\ vb_disk (bufof w' q) = 1) as (Bd & Bn & Bf)
    by (cbn; by rewrite set_eq).
  apply (inv_quiet p w w' i I Q); [|rewrite Ei; cbn|rewrite E; done].
  - apply (moves_hold p w w' i _ _ I E Ei); try done; [intros j Hj; by apply (at_pc_ne i _ (on_disk _ w))|].
    intros j Hj. apply (frame_queues _ _ _ Q).
    + intros q' Eq. cbn. rewrite set_ne; [done|]. apply (iv_bufs _ _ I j i q' q Hj Eq). by rewrite E.
    + intros x Hx. apply (fill_other (q_b q) (q_wr q) i0 i1 i2 (w_disk w) x). assert (x ∉ descs (w_pc w i)) as Hx' by (by apply (iv_apart _ _ I j i x Hj)).
      by rewrite E in Hx'.
  - split; [by destruct Hca as [A B C]; split; rewrite ?Bn|]. split; [unfold untouched; by rewrite Bd|]. split; [|split; [|done]].
    + destruct (same_queues_flight w w' Q) as [Ep Ef]. unfold flight. by rewrite Ep, Ef.
    + unfold formatted. rewrite Bn. cbn. rewrite !set_eq. rewrite (set_ne i2 _ _ i0), (set_ne i1 _ _ i0), (set_ne i2 _ _ i1), !set_eq by done. done.
Qed.

(** There are at most eight requests in flight, and seven when a descriptor is not a request's first. *)
Lemma range_length (l : list Z) : NoDup l -> (forall x, x ∈ l -> 0 <= x < 8) -> (length l <= 8)%nat.
Proof.
  intros Hnd Hr. assert (l ⊆+ seqZ 0 8) as H by (apply NoDup_submseteq; [done|intros x Hx; apply elem_of_seqZ; apply Hr in Hx; lia]).
  apply submseteq_length in H. by rewrite length_seqZ in H.
Qed.

Lemma flight_room p w h : inv p w -> 0 <= h < 8 -> h ∉ flight w -> (length (flight w) <= 7)%nat.
Proof.
  intros I Hh Hf. pose proof (range_length (h :: flight w)) as H. cbn in H. apply le_S_n. apply H.
  - apply NoDup_cons. split; [done|apply I].
  - intros x Hx. apply elem_of_cons in Hx as [->|Hx]; [done|]. by apply (flight_taken p w).
Qed.

Lemma avail_length w : zlen (avail w) = rlen8 (dv_last (w_dev w)) (k_aidx (w_disk w)).
Proof. by apply (zlen_rbytes 8 65536). Qed.
Lemma reported_length w : zlen (reported w) = rlen8 (k_used_idx (w_disk w)) (k_uidx (w_disk w)).
Proof. by apply (zlen_rbytes 8 65536). Qed.

Lemma avail_room p w h : inv p w -> 0 <= h < 8 -> h ∉ flight w -> rlen8 (dv_last (w_dev w)) (k_aidx (w_disk w)) < 8.
Proof.
  intros I Hh Hf. pose proof (flight_room p w h I Hh Hf) as H. rewrite <- avail_length. unfold flight, pending in H. rewrite !length_app in H. unfold zlen. lia.
Qed.

(** A step that leaves everything but the avail ring. *)
Lemma frame_pending w w' x : w_dev w' = w_dev w -> k_desc (w_disk w') = k_desc (w_disk w) -> k_ops (w_disk w') = k_ops (w_disk w) ->
  k_b (w_disk w') = k_b (w_disk w) -> k_status (w_disk w') = k_status (w_disk w) -> k_buf (w_disk w') = k_buf (w_disk w) -> finished w' = finished w ->
  (forall h r, descs x = h :: r -> h ∈ pending w' <-> h ∈ pending w) ->
  (holds x = true -> rget 8 (k_aring (w_disk w')) (k_aidx (w_disk w')) = rget 8 (k_aring (w_disk w)) (k_aidx (w_disk w))) -> frame w w' x.
Proof.
  intros E1 E2 E3 E4 E5 E6 E7 Hp Hh. split; rewrite ?E1, ?E2, ?E3, ?E4, ?E5, ?E6, ?E7; try done.
  - intros h r E. repeat split; try done; by apply (Hp h r).
  - exists []. by rewrite app_nil_r.
Qed.

Lemma div_8 : (8 | 65536).
Proof. by exists 8192. Qed.

Lemma inv_ring p w i q i0 i1 i2 : inv p w -> w_pc w i = T_ring q i0 i1 i2 -> inv p (rw_step i w).
Proof.
  intros I E. unfold rw_step. rewrite E. set (w' := at_pc i _ _). assert (w_pc w' i = T_bump q i0 i1 i2) as Ei by apply at_pc_eq.
  pose proof (iv_threads _ _ I i) as Hti. rewrite E in Hti. destruct Hti as (Hca & Hun & Hfl & Hfm & Hdk).
  destruct (iv_rings _ _ I) as [Hl1 Hl2]. assert (zlen (k_aring (w_disk w)) = 8) as Hz by (unfold zlen; lia).
  assert (0 <= i0 < 8) as H0. { destruct (iv_descs _ _ I i) as [_ H]. rewrite E in H. inversion H. tauto. }
  pose proof (avail_room p w i0 I H0 Hfl) as Hroom.
  assert (avail w' = avail w) as Ea by (apply (rbytes_upd 8 65536 ltac:(lia) ltac:(lia) div_8 _ _ _ _ Hz Hroom)).
  assert (flight w' = flight w) as Ef by (unfold flight, pending; by rewrite Ea).
  assert (forall j, j <> i -> holds (w_pc w j) = false) as Hno by (intros j Hj; apply (only_holder p w i j I); [by rewrite E|done]).
  apply (inv_moves p w w' i I); rewrite ?Ef, ?Ei, ?E; try done; try (by apply I).
  - apply (moves_hold p w w' i _ _ I E Ei); try done; [intros j Hj; by apply (at_pc_ne i _ (on_disk _ w))|].
    intros j Hj. apply frame_pending; try done; [intros; unfold pending; by rewrite Ea|by rewrite Hno].
  - cbn [thread_ok]. rewrite Ef. split; [by destruct Hca|]. do 4 (split; [done|]). etrans; [apply (rget_upd 8 ltac:(lia) _ _ _ _ Hz)|]. by rewrite decide_True.
  - by left.
  - split; [|done]. cbn. by rewrite length_zupd.
Qed.

Lemma inv_bump p w i q i0 i1 i2 : inv p w -> w_pc w i = T_bump q i0 i1 i2 -> inv p (rw_step i w).
Proof.
  intros I E. unfold rw_step. rewrite E. set (w' := at_pc i _ _). assert (w_pc w' i = T_check q i0 i1 i2) as Ei by apply at_pc_eq.
  pose proof (iv_threads _ _ I i) as Hti. rewrite E in Hti. destruct Hti as (Hca & Hun & Hfl & Hfm & Hdk & Hrg).
  assert (0 <= i0 < 8) as H0. { destruct (iv_descs _ _ I i) as [_ H]. rewrite E in H. inversion H. tauto. }
  pose proof (avail_room p w i0 I H0 Hfl) as Hroom.
  assert (avail w' = avail w ++ [i0]) as Ea.
  { unfold avail. cbn. unfold u16. rewrite (rbytes_mod_r 8 65536 ltac:(lia) ltac:(lia)).
    rewrite (rbytes_bump 8 65536 ltac:(lia) ltac:(lia) div_8 _ _ _ Hroom). by rewrite Hrg. }
  assert (forall h, h ∈ pending w' <-> h ∈ pending w \/ h = i0) as Ep.
  { intros h. unfold pending. rewrite Ea. cbn. rewrite !elem_of_app, list_elem_of_singleton. tauto. }
  assert (forall h, h ∈ flight w' <-> h ∈ flight w \/ h = i0) as Ef.
  { intros h. rewrite !in_flight, Ep. change (finished w') with (finished w). tauto. }
  assert (forall j, j <> i -> holds (w_pc w j) = false) as Hno by (intros j Hj; apply (only_holder p w i j I); [by rewrite E|done]).
  apply (inv_moves p w w' i I); rewrite ?Ei, ?E; try done; try (by apply I).
  - apply (moves_hold p w w' i _ _ I E Ei); try done; [intros j Hj; by apply (at_pc_ne i _ (on_disk _ w))|].
    intros j Hj. apply frame_pending; try done; [|by rewrite Hno]. intros h r Ed. rewrite Ep. split; [|tauto]. intros [H| ->]; [done|]. exfalso.
    apply (iv_apart _ _ I i j i0 (not_eq_sym Hj)); [rewrite E; left|rewrite Ed; left].
  - cbn [thread_ok]. split; [by destruct Hca|]. split; [done|]. left. split; [done|]. split; [apply Ep; auto|done].
  - assert (flight w' ≡ₚ i0 :: flight w) as ->; [|apply NoDup_cons; split; [done|apply I]].
    unfold flight, pending. rewrite Ea. change (finished w') with (finished w). change (w_dev w') with (w_dev w). rewrite <- !app_assoc. symmetry. apply Permutation_middle.
  - intros x Hx. apply Ef in Hx as [Hx|Hx]; [left|right; by subst]. done.
  - cbn. destruct (iv_index _ _ I) as (_ & H). split; [apply Z.mod_pos_bound; lia|done].
Qed.

Lemma inv_check p w i q i0 i1 i2 : inv p w -> w_pc w i = T_check q i0 i1 i2 -> inv p (rw_step i w).
Proof.
  intros I E. unfold rw_step. rewrite E. pose proof (iv_threads _ _ I i) as Hti. rewrite E in Hti. pose proof Hti as (Hca & Hfm & Haw).
  zcase (vb_disk (bufof w q) =? 1) as Hd.
  - by apply (inv_goto p w i _ _ _ I E); auto.
  - assert ((i0 ∉ flight w) /\ performed w q) as [Hf Hp] by (destruct Haw as [(H & _)|[(H & _)|(_ & H)]]; [lia|lia|done]).
    apply (inv_goto_keep p w i _ _ I E); try done; auto. cbn. intros h Hh [= ->]. done.
Qed.

Lemma free_desc_run i d : 0 <= i < 8 -> k_free d i = 0 ->
  free_desc i d = inr (set_dfree (set i 1 (k_free d)) (set_desc (set i (Desc PNull 0 0 0) (k_desc d)) d)).
Proof. intros Hi Hf. unfold free_desc, NUM. zcase (8 <=? i); [lia|]. by rewrite Hf. Qed.

(** free_chain() frees exactly the three descriptors of a request. *)
Lemma free_chain_spec w q i0 i1 i2 d : formatted w q i0 i1 i2 -> NoDup [i0; i1; i2] ->
  Forall (fun j => 0 <= j < 8 /\ k_free d j = 0) [i0; i1; i2] -> k_desc d = k_desc (w_disk w) ->
  exists d', free_chain i0 d = inr d' /\ same_but_free d d' /\ (forall x, x ∉ [i0; i1; i2] -> k_free d' x = k_free d x /\ k_desc d' x = k_desc d x) /\
    (forall x, x ∈ [i0; i1; i2] -> k_free d' x = 1).
Proof.
  intros (F0 & F1 & F2 & _) Hnd Hall Ed. rewrite <- Ed in F0, F1, F2.
  assert (i0 <> i1 /\ i0 <> i2 /\ i1 <> i2) as (N1 & N2 & N3).
  { apply NoDup_cons in Hnd as [Hnd0 Hnd]. apply NoDup_cons in Hnd as [Hnd1 _]. set_solver. }
  apply Forall_cons in Hall as [[R0 Z0] Hall]. apply Forall_cons in Hall as [[R1 Z1] Hall]. apply Forall_cons in Hall as [[R2 Z2] _].
  unfold free_chain. change (Z.to_nat NUM) with 8%nat. cbn [free_chain_from]. rewrite F0. cbn [d_flags d_next]. rewrite (free_desc_run i0) by done.
  change (truth (Z.land VRING_DESC_F_NEXT VRING_DESC_F_NEXT)) with true. cbn [k_desc set_dfree set_desc]. rewrite (set_ne i0 _ _ i1), F1 by done. cbn [d_flags d_next].
  rewrite free_desc_run by (cbn; rewrite ?set_ne; done). cbn [k_desc k_free set_dfree set_desc].
  assert (truth (Z.land (Z.lor (if q_wr q then 0 else VRING_DESC_F_WRITE) VRING_DESC_F_NEXT) VRING_DESC_F_NEXT) = true) as -> by (by destruct (q_wr q)).
  rewrite (set_ne i1 _ _ i2), (set_ne i0 _ _ i2), F2 by done. cbn [d_flags d_next]. rewrite free_desc_run by (cbn; rewrite ?set_ne; done).
  change (truth (Z.land VRING_DESC_F_WRITE VRING_DESC_F_NEXT)) with false. cbn [k_desc k_free set_dfree set_desc].
  eexists. split; [done|]. split; [done|]. cbn [k_desc k_free set_dfree set_desc]. split.
  - intros x Hx. assert (x <> i0 /\ x <> i1 /\ x <> i2) as (H0 & H1 & H2) by set_solver. by rewrite !set_ne.
  - intros x Hx. unfold set. destruct (x =? i2) eqn:X2; [done|]. destruct (x =? i1) eqn:X1; [done|]. destruct (x =? i0) eqn:X0; [done|]. exfalso. zbool. set_solver.
Qed.

Lemma inv_free p w i q i0 i1 i2 : inv p w -> w_pc w i = T_free q i0 i1 i2 -> inv p (rw_step i w).
Proof.
  intros I E. unfold rw_step. rewrite E. pose proof (iv_threads _ _ I i) as Hti. rewrite E in Hti. destruct Hti as (Hca & Hfm & Hfl & Hpf).
  destruct (iv_descs _ _ I i) as [Hnd Hall]. rewrite E in Hnd, Hall. cbn [descs] in Hnd, Hall.
  destruct (free_chain_spec w q i0 i1 i2 (set_info_b (set i0 None (k_b (w_disk w))) (w_disk w)) Hfm Hnd Hall eq_refl) as (d' & -> & S & Hoth & Hin).
  set (w' := locked None (at_pc i (T_done q) (on_disk d' w))). assert (w_pc w' i = T_done q) as Ei by apply at_pc_eq.
  assert (same_queues w w') as Q by (destruct S; split; done).
  apply (inv_quiet p w w' i I Q); [|rewrite Ei; cbn [thread_ok]|rewrite E; done].
  - split; rewrite ?Ei, ?E; cbn [descs call_of holds]; try done.
    + intros j Hj. by apply (at_pc_ne i (T_done q) (on_disk d' w) j).
    + intros j Hj. assert (forall x, x ∈ descs (w_pc w j) -> x ∉ [i0; i1; i2]) as Hx by (intros x Hx; pose proof (iv_apart _ _ I j i x Hj Hx) as H; by rewrite E in H).
      apply (frame_queues _ _ _ Q); [intros; cbn; by rewrite (sf_buf _ _ S)|]. intros x Hxx. specialize (Hx x Hxx). cbn.
      destruct (Hoth x Hx) as [_ ->]. rewrite (sf_ops _ _ S), (sf_b _ _ S), (sf_status _ _ S). cbn. rewrite set_ne by set_solver. done.
    + split; [apply NoDup_nil_2|constructor].
    + intros x Hx. by apply elem_of_nil in Hx.
    + intros x _ H _. cbn. by destruct (Hoth x H) as [-> _].
    + intros x _ H _. by apply Hin.
    + intros q' [= <-]. by left.
  - assert (frame w w' (T_done q)) as F.
    { apply (frame_queues _ _ _ Q); [intros; cbn; by rewrite (sf_buf _ _ S)|]. intros x Hx. by apply elem_of_nil in Hx. }
    split; [by eapply call_ok_frame|by eapply performed_frame].
Qed.

Lemma inv_rw p w i : inv p w -> inv p (rw_step i w).
Proof.
  intros I. destruct (w_pc w i) eqn:E; try (unfold rw_step; by rewrite E).
  - unfold rw_step. rewrite E. pose proof (iv_threads _ _ I i) as H. rewrite E in H. by apply (inv_take_lock p w i _ _ I E).
  - by apply (inv_alloc p w i q).
  - unfold rw_step. rewrite E. pose proof (iv_threads _ _ I i) as H. rewrite E in H. by apply (inv_take_lock p w i _ _ I E).
  - by apply (inv_fill p w i q i0 i1 i2).
  - by apply (inv_ring p w i q i0 i1 i2).
  - by apply (inv_bump p w i q i0 i1 i2).
  - by apply (inv_check p w i q i0 i1 i2).
  - unfold rw_step. rewrite E. pose proof (iv_threads _ _ I i) as H. rewrite E in H. by apply (inv_take_lock p w i _ _ I E).
  - by apply (inv_free p w i q i0 i1 i2).
  - unfold rw_step. rewrite E. by apply (inv_goto_keep p w i _ _ I E).
Qed.

(** ** The steps of virtio_disk_intr() *)

(** A step that moves no thread: the conditions that are left to show. *)
Lemma inv_same p w w' : inv p w -> w_pc w' = w_pc w -> w_lock w' = w_lock w -> k_free (w_disk w') = k_free (w_disk w) ->
  (forall i, thread_ok w' (w_pc w i)) -> NoDup (flight w') -> (forall x, x ∈ flight w' -> x ∈ flight w) ->
  length (k_aring (w_disk w')) = 8%nat /\ length (k_uring (w_disk w')) = 8%nat ->
  0 <= k_aidx (w_disk w') < 65536 /\ 0 <= dv_last (w_dev w') < 65536 /\ 0 <= k_uidx (w_disk w') < 65536 /\ 0 <= k_used_idx (w_disk w') < 65536 ->
  (exists q, history p (dv_log (w_dev w')) = Some q /\ forall x, q x = dv_platter (w_dev w') x) -> dv_broken (w_dev w') = false -> inv p w'.
Proof.
  intros I Ep El Ef Ht Hnd Hfl Hr Hi Hh Hb. split; rewrite ?Ep, ?El, ?Ef; try done; try (by apply I).
  intros x Hx. apply (iv_flight _ _ I). auto.
Qed.

(** The thread a request in flight belongs to. *)
Lemma flight_owner p w h : inv p w -> h ∈ flight w ->
  exists j q r, descs (w_pc w j) = h :: r /\ call_of (w_pc w j) = Some q /\ call_ok w q /\ awaiting w q h /\
    exists i1 i2, r = [i1; i2] /\ formatted w q h i1 i2 /\ forall w', call_ok w' q -> formatted w' q h i1 i2 -> awaiting w' q h -> thread_ok w' (w_pc w j).
Proof.
  intros I Hh. destruct (iv_flight _ _ I h Hh) as [j Hj]. pose proof (iv_threads _ _ I j) as Ht. exists j.
  destruct (w_pc w j) eqn:E; cbn in Hj; try done; injection Hj as ->; destruct Ht as (H1 & H2 & H3); exists q, [i1; i2]; repeat split; try done; try apply H1; by exists i1, i2.
Qed.

Lemma not_both p w h : inv p w -> h ∈ pending w -> h ∈ finished w -> False.
Proof. intros I H1 H2. pose proof (iv_nodup _ _ I) as H. unfold flight in H. apply NoDup_app in H as (_ & H & _). by apply (H h). Qed.

(** A finished request: its status is 0 and its call has been performed. *)
Lemma finished_owner p w h : inv p w -> h ∈ finished w ->
  exists j q i1 i2, descs (w_pc w j) = [h; i1; i2] /\ call_of (w_pc w j) = Some q /\ call_ok w q /\ formatted w q h i1 i2 /\
    vb_disk (bufof w q) = 1 /\ k_status (w_disk w) h = 0 /\ performed w q /\
    forall w', call_ok w' q -> formatted w' q h i1 i2 -> awaiting w' q h -> thread_ok w' (w_pc w j).
Proof.
  intros I Hh. assert (h ∈ flight w) as Hf by (apply in_flight; auto). destruct (flight_owner p w h I Hf) as (j & q & r & Ed & Ec & Hca & Haw & i1 & i2 & -> & Hfm & Hth).
  exists j, q, i1, i2. destruct Haw as [(_ & H & _)|[(H1 & _ & H2 & H3)|(_ & H & _)]]; [destruct (not_both p w h I H Hh)|done|done].
Qed.

Lemma loop_reported p w : inv p w -> k_used_idx (w_disk w) <> k_uidx (w_disk w) ->
  reported w = znth 0 (k_uring (w_disk w)) (k_used_idx (w_disk w) mod NUM) :: rbytes8 (k_uring (w_disk w)) (k_used_idx (w_disk w) + 1) (k_uidx (w_disk w)).
Proof.
  intros I Hne. apply (rbytes_pop 8 65536 ltac:(lia) ltac:(lia)). destruct (iv_index _ _ I) as (_ & _ & H1 & H2).
  pose proof (rlen_range 8 65536 ltac:(lia) ltac:(lia) (k_used_idx (w_disk w)) (k_uidx (w_disk w))) as H.
  destruct (decide (rlen8 (k_used_idx (w_disk w)) (k_uidx (w_disk w)) = 0)) as [E|E]; [|lia]. apply (rlen_0 8 65536) in E; lia.
Qed.

Lemma inv_intr_loop p w i : inv p w -> w_pc w i = I_loop -> inv p (intr_step i w).
Proof.
  intros I E. unfold intr_step. rewrite E. zcase (k_used_idx (w_disk w) =? k_uidx (w_disk w)) as Hu; [by apply (inv_goto p w i _ _ _ I E)|].
  pose proof (loop_reported p w I Hu) as Er. set (id := znth 0 _ _) in *.
  assert (id ∈ finished w) as Hid by (apply elem_of_app; right; rewrite Er; left).
  destruct (finished_owner p w id I Hid) as (j & q & i1 & i2 & Ed & Ec & Hca & Hfm & Hvb & Hst & Hpf & Hth).
  rewrite Hst. cbn [truth Z.eqb negb]. pose proof Hfm as (_ & _ & _ & _ & ->). set (w' := on_disk _ w).
  assert (reported w' = rbytes8 (k_uring (w_disk w)) (k_used_idx (w_disk w) + 1) (k_uidx (w_disk w))) as Er'.
  { unfold reported. cbn. unfold u16. apply (rbytes_mod_l 8 65536 ltac:(lia) ltac:(lia) div_8). }
  assert (flight w ≡ₚ id :: flight w') as Hpm.
  { unfold flight, finished. rewrite Er, Er'. change (pending w') with (pending w). change (w_dev w') with (w_dev w). rewrite !app_assoc. symmetry. apply Permutation_middle. }
  pose proof (iv_nodup _ _ I) as Hnd. rewrite Hpm in Hnd. apply NoDup_cons in Hnd as [Hni Hnd].
  assert (forall x, x ∈ finished w <-> x = id \/ x ∈ finished w') as Hfin.
  { intros x. unfold finished. rewrite Er, Er'. change (w_dev w') with (w_dev w). rewrite !elem_of_app, elem_of_cons. tauto. }
  apply (inv_same p w w' I); try done; try (by apply I).
  - intros k. destruct (decide (k = j)) as [->|Hk].
    + assert (vb_data (bufof w' q) = vb_data (bufof w q) /\ vb_blockno (bufof w' q) = vb_blockno (bufof w q) /\ vb_disk (bufof w' q) = 0) as (Bd & Bn & Bf)
        by (cbn; by rewrite set_eq).
      apply Hth.
      * destruct Hca as [A B C]. by split; rewrite ?Bn.
      * unfold formatted. rewrite Bn. apply Hfm.
      * right. right. split; [done|]. split; [done|]. unfold performed, offset. rewrite Bn, Bd. apply Hpf.
    + apply (thread_frame w); [|apply I]. split; try done.
      * intros q' Eq. cbn. rewrite set_ne; [done|]. by apply (iv_bufs _ _ I k j).
      * intros h r Eh. repeat split; try done; rewrite Hfin; [auto|]. intros [-> |H]; [|done]. exfalso.
        apply (iv_apart _ _ I k j id Hk); [rewrite Eh; left|rewrite Ed; left].
      * exists []. by rewrite app_nil_r.
  - intros x Hx. rewrite Hpm. by right.
  - cbn. destruct (iv_index _ _ I) as (H1 & H2 & H3 & _). repeat split; try apply H1; try apply H2; try apply H3; apply Z.mod_pos_bound; lia.
Qed.

Lemma inv_intr p w i : inv p w -> inv p (intr_step i w).
Proof.
  intros I. destruct (w_pc w i) eqn:E; try (unfold intr_step; by rewrite E).
  - unfold intr_step. rewrite E. by apply (inv_take_lock p w i _ _ I E).
  - by apply inv_intr_loop.
Qed.

(** ** The steps of the device *)

Lemma without_perm h l : NoDup l -> h ∈ l -> l ≡ₚ h :: without h l.
Proof.
  intros Hnd Hh. apply NoDup_Permutation; [done| |].
  - apply NoDup_cons. unfold without. split; [rewrite list_elem_of_filter; tauto|by apply NoDup_filter].
  - intros x. rewrite elem_of_cons. unfold without. rewrite list_elem_of_filter. destruct (decide (x = h)); naive_solver.
Qed.

(** A device step that leaves the driver's memory but for the used ring, and only moves
    requests within [pending] and within [finished]. *)
Lemma inv_device p w w' : inv p w -> w_pc w' = w_pc w -> w_lock w' = w_lock w ->
  (exists i r, w_disk w' = set_used i r (w_disk w) /\ 0 <= i < 65536 /\ length r = 8%nat) -> pending w' ≡ₚ pending w -> finished w' ≡ₚ finished w ->
  0 <= dv_last (w_dev w') < 65536 -> dv_log (w_dev w') = dv_log (w_dev w) -> dv_platter (w_dev w') = dv_platter (w_dev w) -> dv_broken (w_dev w') = dv_broken (w_dev w) -> inv p w'.
Proof.
  intros I Ep El (i & r & Ed & Hi & Hr) Hp Hf Hlast Hlog Hpl Hbr. destruct (iv_index _ _ I) as (X1 & X2 & X3 & X4).
  assert (flight w' ≡ₚ flight w) as Hfl by (unfold flight; by rewrite Hp, Hf).
  apply (inv_same p w w' I); rewrite ?Ed, ?Hfl, ?Hlog, ?Hpl, ?Hbr; try done; try (by apply I).
  - intros j. apply (thread_frame w); [|apply I]. split; rewrite ?Ed; try done.
    + intros h l _. rewrite Hp, Hf. done.
    + exists []. by rewrite Hlog, app_nil_r.
  - intros x. by rewrite Hfl.
  - split; [apply I|done].
Qed.

Lemma inv_device_take p w w' : inv p w -> dv_last (w_dev w) <> k_aidx (w_disk w) ->
  w' = on_dev (Device (u16 (dv_last (w_dev w) + 1)) (dv_busy (w_dev w) ++ [znth 0 (k_aring (w_disk w)) (dv_last (w_dev w) mod NUM)]) (dv_done (w_dev w))
                 (dv_platter (w_dev w)) (dv_broken (w_dev w)) (dv_log (w_dev w))) w -> inv p w'.
Proof.
  intros I Hne ->. set (w' := on_dev _ w). destruct (iv_index _ _ I) as (X1 & X2 & X3 & X4).
  assert (avail w = rget 8 (k_aring (w_disk w)) (dv_last (w_dev w)) :: avail w') as Ea.
  { unfold avail. cbn. unfold u16. rewrite (rbytes_mod_l 8 65536 ltac:(lia) ltac:(lia) div_8). apply (rbytes_pop 8 65536 ltac:(lia) ltac:(lia)).
    pose proof (rlen_range 8 65536 ltac:(lia) ltac:(lia) (dv_last (w_dev w)) (k_aidx (w_disk w))) as H.
    destruct (decide (rlen8 (dv_last (w_dev w)) (k_aidx (w_disk w)) = 0)) as [E|E]; [|lia]. apply (rlen_0 8 65536) in E; lia. }
  apply (inv_device p w w' I); try done.
  - exists (k_uidx (w_disk w)), (k_uring (w_disk w)). split; [by destruct w as [[] ? ? ?]|]. split; [done|apply I].
  - unfold pending. rewrite Ea. cbn [dv_busy w_dev w' on_dev]. change (znth 0 (k_aring (w_disk w)) (dv_last (w_dev w) mod NUM)) with (rget 8 (k_aring (w_disk w)) (dv_last (w_dev w))).
    cbn [app]. rewrite app_assoc. symmetry. apply Permutation_cons_append.
  - apply Z.mod_pos_bound. lia.
Qed.

Lemma inv_device_report p w w' h : inv p w -> h ∈ dv_done (w_dev w) ->
  w' = on_disk (set_used (u16 (k_uidx (w_disk w) + 1)) (zupd (k_uring (w_disk w)) (k_uidx (w_disk w) mod NUM) h) (w_disk w))
         (on_dev (Device (dv_last (w_dev w)) (dv_busy (w_dev w)) (without h (dv_done (w_dev w))) (dv_platter (w_dev w)) (dv_broken (w_dev w)) (dv_log (w_dev w))) w) -> inv p w'.
Proof.
  intros I Hh ->. set (w' := on_disk _ _). destruct (iv_index _ _ I) as (X1 & X2 & X3 & X4). destruct (iv_rings _ _ I) as [L1 L2].
  pose proof (iv_nodup _ _ I) as Hnd. unfold flight, finished in Hnd. apply NoDup_app in Hnd as (_ & _ & Hnd). pose proof Hnd as Hnd'. apply NoDup_app in Hnd as (Hnd1 & Hdis & Hnd2).
  pose proof (without_perm h _ Hnd1 Hh) as Hw.
  assert (rlen8 (k_used_idx (w_disk w)) (k_uidx (w_disk w)) < 8) as Hroom.
  { rewrite <- reported_length. unfold zlen. pose proof (range_length (h :: reported w)) as H. cbn in H. enough (S (length (reported w)) <= 8)%nat by lia. apply H.
    - apply NoDup_cons. auto.
    - intros x Hx. apply (flight_taken p w x I). apply in_flight. right. apply elem_of_app. apply elem_of_cons in Hx as [-> |Hx]; auto. }
  assert (reported w' = reported w ++ [h]) as Er.
  { unfold reported. cbn. unfold u16. rewrite (rbytes_mod_r 8 65536 ltac:(lia) ltac:(lia)). apply (rbytes_push 8 65536 ltac:(lia) ltac:(lia) div_8); [unfold zlen; lia|done]. }
  apply (inv_device p w w' I); try done.
  - eexists _, _. split; [done|]. split; [apply Z.mod_pos_bound; lia|by rewrite length_zupd].
  - unfold finished. rewrite Er. cbn [dv_done w_dev w' on_dev on_disk]. rewrite Hw at 2. rewrite app_assoc. cbn [app]. symmetry. apply Permutation_cons_append.
Qed.

(** What carrying out the request of call [q] with first descriptor [h] changes. *)
Record carried (w w' : world) (q : call) (h : Z) (op : dop) : Prop := {
  cr_pc : w_pc w' = w_pc w;
  cr_lock : w_lock w' = w_lock w;
  cr_same : let d := w_disk w in let d' := w_disk w' in
    k_desc d' = k_desc d /\ k_ops d' = k_ops d /\ k_b d' = k_b d /\ k_free d' = k_free d /\ k_aidx d' = k_aidx d /\ k_aring d' = k_aring d /\
    k_uidx d' = k_uidx d /\ k_uring d' = k_uring d /\ k_used_idx d' = k_used_idx d /\ k_status d' = set h 0 (k_status d);
  cr_bufs : forall b, b <> q_b q -> k_buf (w_disk w') b = k_buf (w_disk w) b;
  cr_buf : vb_blockno (bufof w' q) = vb_blockno (bufof w q) /\ vb_disk (bufof w' q) = vb_disk (bufof w q);
  cr_dev : let v := w_dev w in let v' := w_dev w' in
    dv_last v' = dv_last v /\ dv_busy v' = without h (dv_busy v) /\ dv_done v' = dv_done v ++ [h] /\ dv_broken v' = dv_broken v /\ dv_log v' = dv_log v ++ [op];
  cr_op : op = (if q_wr q then DWrite (offset w' q) (q_data q) else DRead (offset w' q) (vb_data (bufof w' q)));
  cr_platter : match op with
    | DWrite off data => dv_platter (w_dev w') = store (dv_platter (w_dev w)) off data
    | DRead off data => dv_platter (w_dev w') = dv_platter (w_dev w) /\ data = load (dv_platter (w_dev w)) off (zlen data)
    end;
}.

Lemma sector_offset b : 0 <= b < 2147483648 -> u32 (b * (BSIZE / 512)) * 512 = b * 1024.
Proof. intros Hb. change (BSIZE / 512) with 2. unfold u32. rewrite Z.mod_small; lia. Qed.

Lemma zlen_load f off n : 0 <= n -> zlen (load f off n) = n.
Proof. intros Hn. unfold zlen, load. rewrite length_fmap, length_seqZ. lia. Qed.

Lemma carry_out_run w q h i1 i2 : formatted w q h i1 i2 -> call_ok w q -> untouched w q -> exists op, carried w (carry_out h w) q h op.
Proof.
  intros (F0 & F1 & F2 & Fo & Fb) [Hbl Hsz _] Hun. unfold carry_out. rewrite F0. cbn [d_next d_addr d_len d_flags]. rewrite F1. cbn [d_next d_addr d_len d_flags].
  rewrite F2. cbn [d_next d_addr d_len d_flags]. rewrite Fo. cbn [r_sector r_type]. rewrite sector_offset by done. cbn [Z.eqb Pos.eqb andb].
  change (16 =? 16) with true. change (VRING_DESC_F_NEXT =? VRING_DESC_F_NEXT) with true. change (1 =? 1) with true. change (VRING_DESC_F_WRITE =? VRING_DESC_F_WRITE) with true. cbn [andb].
  destruct (q_wr q) eqn:Ew.
  - change (VIRTIO_BLK_T_OUT =? VIRTIO_BLK_T_OUT) with true. change (Z.lor 0 VRING_DESC_F_NEXT =? VRING_DESC_F_NEXT) with true. rewrite Hun, Hsz, Z.eqb_refl. cbn [andb].
    eexists. split; try done. by rewrite Ew.
  - change (VIRTIO_BLK_T_IN =? VIRTIO_BLK_T_OUT) with false. change (VIRTIO_BLK_T_IN =? VIRTIO_BLK_T_IN) with true.
    change (Z.lor VRING_DESC_F_WRITE VRING_DESC_F_NEXT =? Z.lor VRING_DESC_F_WRITE VRING_DESC_F_NEXT) with true. cbn [andb].
    eexists. split; try done; cbn [w_disk on_disk on_dev k_buf set_status set_buf w_dev dv_platter].
    + intros b Hb. by rewrite set_ne.
    + by rewrite set_eq.
    + rewrite Ew. unfold offset. cbn. by rewrite set_eq.
Qed.

Lemma history_snoc p l op : history p (l ++ [op]) = (f ← history p l; history f [op]).
Proof. revert p. induction l as [|[off data|off data] l IH]; intros p; [done| |]; cbn; [|apply IH]. case_bool_decide; [apply IH|done]. Qed.

Lemma load_ext f g off n : (forall x, f x = g x) -> load f off n = load g off n.
Proof. intros H. apply list_fmap_ext. intros i x _. apply H. Qed.

Lemma history_carried p w w' q h op : carried w w' q h op -> (exists f, history p (dv_log (w_dev w)) = Some f /\ forall x, f x = dv_platter (w_dev w) x) ->
  exists f, history p (dv_log (w_dev w')) = Some f /\ forall x, f x = dv_platter (w_dev w') x.
Proof.
  intros C (f & Hf & Hx). destruct (cr_dev _ _ _ _ _ C) as (_ & _ & _ & _ & ->). rewrite history_snoc, Hf. cbn. pose proof (cr_platter _ _ _ _ _ C) as Hp. destruct op as [off data|off data]; cbn.
  - destruct Hp as [-> Hd]. rewrite bool_decide_eq_true_2; [by exists f|]. rewrite Hd at 1. symmetry. by apply load_ext.
  - eexists. split; [done|]. intros x. rewrite Hp. unfold store. destruct (_ && _); [done|apply Hx].
Qed.

Lemma inv_device_carry p w h : inv p w -> h ∈ dv_busy (w_dev w) -> inv p (carry_out h w).
Proof.
  intros I Hh. assert (h ∈ pending w) as Hpe by (apply elem_of_app; auto). assert (h ∈ flight w) as Hfl by (apply in_flight; auto).
  destruct (flight_owner p w h I Hfl) as (j & q & r & Ed & Ec & Hca & Haw & i1 & i2 & -> & Hfm & Hth).
  assert (vb_disk (bufof w q) = 1 /\ untouched w q) as [Hvd Hun].
  { destruct Haw as [(H1 & _ & H2)|[(_ & H & _)|(_ & H & _)]]; [done|destruct (not_both p w h I Hpe H)|done]. }
  destruct (carry_out_run w q h i1 i2 Hfm Hca Hun) as [op C]. set (w' := carry_out h w) in *.
  destruct (cr_same _ _ _ _ _ C) as (S1 & S2 & S3 & S4 & S5 & S6 & S7 & S8 & S9 & S10). destruct (cr_dev _ _ _ _ _ C) as (D1 & D2 & D3 & D4 & D5).
  destruct (cr_buf _ _ _ _ _ C) as [B1 B2].
  assert (avail w' = avail w /\ reported w' = reported w) as [Ea Er] by (unfold avail, reported; by rewrite S5, S6, S7, S8, S9, D1).
  pose proof (iv_nodup _ _ I) as Hnd. assert (NoDup (dv_busy (w_dev w))) as Hndb.
  { unfold flight, pending in Hnd. apply NoDup_app in Hnd as (Hnd & _). by apply NoDup_app in Hnd as (_ & _ & Hnd). }
  assert (pending w ≡ₚ h :: pending w') as Hp by (unfold pending; rewrite Ea, D2, (without_perm h _ Hndb Hh) at 1; symmetry; apply Permutation_middle).
  assert (finished w' ≡ₚ h :: finished w) as Hf by (unfold finished; rewrite Er, D3, <- app_assoc; symmetry; apply Permutation_middle).
  assert (flight w' ≡ₚ flight w) as Hfl' by (unfold flight; rewrite Hp, Hf; symmetry; apply Permutation_middle).
  apply (inv_same p w w' I); rewrite ?Hfl', ?S4, ?S5, ?S6, ?S7, ?S8, ?S9, ?D1, ?D4; try done; try (by apply I); try apply C.
  - intros k. destruct (decide (k = j)) as [-> |Hk].
    + apply Hth.
      * destruct Hca as [X Y Z]. split; [by rewrite B1|done|]. rewrite D5, length_app. lia.
      * unfold formatted. rewrite B1, S1, S2, S3. apply Hfm.
      * right. left. rewrite B2, Hf, S10, set_eq. split; [done|]. split; [left|]. split; [done|].
        exists (length (dv_log (w_dev w))). split; [apply Hca|]. rewrite D5, lookup_app_r, Nat.sub_diag by done. cbn. by rewrite (cr_op _ _ _ _ _ C) at 1.
    + apply (thread_frame w); [|apply I]. split; rewrite ?S1, ?S2, ?S3, ?S5, ?S6, ?D5; try done; [| |by exists [op]].
      * intros q' Eq. apply (cr_bufs _ _ _ _ _ C). by apply (iv_bufs _ _ I k j).
      * intros x l Ex. assert (x <> h) as Hx. { intros ->. apply (iv_apart _ _ I k j h Hk); [rewrite Ex; left|rewrite Ed; left]. }
        rewrite S10, set_ne by done. rewrite Hp, Hf. rewrite !elem_of_cons. naive_solver.
  - intros x. by rewrite Hfl'.
  - apply (history_carried p w w' q h op C), I.
Qed.

(** ** Every reachable state *)

Lemma inv_device_may p w w' : inv p w -> device_may w w' -> inv p w'.
Proof.
  intros I H. destruct H as [|Hne v|h Hh|h Hh v d]; [done| | |].
  - by apply (inv_device_take p w _ I Hne).
  - by apply inv_device_carry.
  - by apply (inv_device_report p w _ h I Hh).
Qed.

Lemma inv_call p w i b wr : inv p w -> w_pc w i = T_idle -> unused w b -> 0 <= vb_blockno (k_buf (w_disk w) b) < 2147483648 -> zlen (vb_data (k_buf (w_disk w) b)) = BSIZE ->
  inv p (at_pc i (T_call (Call b wr (vb_data (k_buf (w_disk w) b)) (length (dv_log (w_dev w))))) w).
Proof.
  intros I E Hu Hb Hz. apply (inv_goto_keep p w i _ _ I E); try done. intros q [= <-]. by right.
Qed.

Lemma inv_buffer p w b x : inv p w -> unused w b -> inv p (on_disk (set_buf (set b x (k_buf (w_disk w))) (w_disk w)) w).
Proof.
  intros I Hu. set (w' := on_disk _ w). apply (inv_same p w w' I); try done; try (by apply I).
  intros i. apply (thread_frame w); [|apply I]. apply frame_queues; [done| |done]. intros q Eq. cbn. rewrite set_ne; [done|]. by apply (Hu i q).
Qed.

Lemma disk_initial_inv p w : initial p w -> inv p w.
Proof.
  intros (Hpc & Hl & Hv & Ha & Har & Hu & Hur & Hi & Hf).
  assert (flight w = []) as Efl by (unfold flight, pending, finished, avail, reported; by rewrite Hv, Ha, Hu, Hi).
  split; rewrite ?Efl, ?Ha, ?Har, ?Hu, ?Hur, ?Hi, ?Hv; try done.
  - intros i. by rewrite Hpc.
  - intros i. rewrite Hpc. split; [apply NoDup_nil_2|constructor].
  - intros i j x _ H. rewrite Hpc in H. by apply elem_of_nil in H.
  - intros i j q q' _ H. by rewrite Hpc in H.
  - intros x Hx. left. by apply Hf.
  - apply NoDup_nil_2.
  - intros x Hx. by apply elem_of_nil in Hx.
  - intros i. by rewrite Hpc, Hl.
  - by exists p.
Qed.

Section Reachable.
Context (device : world -> world -> Prop).
Hypothesis device_conforms : forall w w', device w w' -> device_may w w'.

Lemma disk_inv_step p w w' : inv p w -> step device w w' -> inv p w'.
Proof using device_conforms.
  intros I [i|i|w'' H|i b wr E Hu x Hb Hz|i E|b x Hu].
  - by apply inv_rw.
  - by apply inv_intr.
  - eapply inv_device_may; eauto.
  - by apply inv_call.
  - by apply (inv_goto_keep p w i _ _ I E).
  - by apply inv_buffer.
Qed.

Lemma disk_reachable_inv p w : reachable device p w -> inv p w.
Proof using device_conforms. induction 1 as [w H|w w' _ IH H]; [by apply disk_initial_inv|by apply (disk_inv_step p w w')]. Qed.


(** No descriptor is lost and none has two users: a descriptor is free exactly when no call
    has it, two calls never have the same one, and at most one thread is in the code that
    [vdisk_lock] protects; so all eight are free when no call is under way. *)
Theorem virtio_descriptors_accounted p w : reachable device p w ->
  (forall x, 0 <= x < 8 -> k_free (w_disk w) x = 1 <-> forall i, x ∉ descs (w_pc w i)) /\
  (forall i j x, x ∈ descs (w_pc w i) -> x ∈ descs (w_pc w j) -> i = j) /\
  (forall i j, holds (w_pc w i) = true -> holds (w_pc w j) = true -> i = j) /\
  ((forall i, call_of (w_pc w i) = None) -> forall x, 0 <= x < 8 -> k_free (w_disk w) x = 1).
Proof using device_conforms.
  intros R. apply disk_reachable_inv in R as I.
  assert (forall x, 0 <= x < 8 -> k_free (w_disk w) x = 1 <-> forall i, x ∉ descs (w_pc w i)) as H1.
  { intros x Hx. split.
    - intros Hf i Hi. destruct (iv_descs _ _ I i) as [_ H]. rewrite Forall_forall in H. destruct (H x Hi). congruence.
    - intros Hn. destruct (iv_owned _ _ I x Hx) as [H|(_ & i & Hi)]; [done|]. by apply Hn in Hi. }
  split; [done|]. split; [|split].
  - intros i j x Hi Hj. destruct (decide (i = j)) as [|Hne]; [done|]. by apply (iv_apart _ _ I i j x Hne Hi) in Hj.
  - intros i j Hi Hj. apply (iv_lock _ _ I) in Hi, Hj. congruence.
  - intros Hn x Hx. apply H1; [done|]. intros i Hi. specialize (Hn i). destruct (w_pc w i); cbn in Hn, Hi; try done; by apply elem_of_nil in Hi.
Qed.
End Reachable.

(** ** A run: a block is written *)

Module Run.
Definition zero : Z -> Z := fun _ => 0.
Definition start : world :=
  World (Disk (fun _ => Desc PNull 0 0 0) 0 (replicate 8 0) 0 (replicate 8 0) (fun _ => 1) 0 (fun _ => None) (fun _ => 0) (fun _ => BlkReq 0 0 0)
           (fun b => VBuf 5 (replicate 1024 7) 0)) (Device 0 [] [] zero false []) (fun _ => T_idle) None.
Definition call0 : call := Call 3 true (replicate 1024 7) 0.
Definition queued : world := Nat.iter 5 (rw_step 0) (at_pc 0 (T_call call0) start).
Definition taken : world :=
  let v := w_dev queued in
  on_dev (Device (u16 (dv_last v + 1)) (dv_busy v ++ [znth 0 (k_aring (w_disk queued)) (dv_last v mod NUM)]) (dv_done v) (dv_platter v) (dv_broken v) (dv_log v)) queued.
Definition written : world := carry_out 0 taken.
Definition told : world :=
  let v := w_dev written in
  let d := w_disk written in
  on_disk (set_used (u16 (k_uidx d + 1)) (zupd (k_uring d) (k_uidx d mod NUM) 0) d)
    (on_dev (Device (dv_last v) (dv_busy v) (without 0 (dv_done v)) (dv_platter v) (dv_broken v) (dv_log v)) written).
(* the caller goes to sleep, the interrupt comes, the caller goes on *)
Definition asleep : world := Nat.iter 1 (rw_step 0) told.
Definition interrupted : world := at_pc 1 I_call asleep.
Definition woken : world := Nat.iter 3 (intr_step 1) interrupted.
Definition returned : world := Nat.iter 3 (rw_step 0) woken.

Lemma reach_rw dev p i n w : reachable dev p w -> reachable dev p (Nat.iter n (rw_step i) w).
Proof. intros R. induction n as [|n IH]; cbn; [done|]. eapply reach_step; [exact IH|apply st_rw]. Qed.
Lemma reach_intr dev p i n w : reachable dev p w -> reachable dev p (Nat.iter n (intr_step i) w).
Proof. intros R. induction n as [|n IH]; cbn; [done|]. eapply reach_step; [exact IH|apply st_intr]. Qed.

Lemma reach_queued : reachable device_may zero queued.
Proof.
  refine (reach_rw _ _ 0%nat 5 _ _). refine (reach_step _ _ start _ _ (st_call _ start 0%nat 3 true _ _ _ _)); [|reflexivity|intros i q H; discriminate H|cbn; lia|vm_compute; reflexivity].
  apply reach_init. split; [reflexivity|]. split; [reflexivity|]. split; [reflexivity|]. do 5 (split; [reflexivity|]). reflexivity.
Qed.

Lemma reach_told : reachable device_may zero told.
Proof.
  refine (reach_step _ _ written _ _ (st_device _ _ _ (may_report written 0 _))); [|vm_compute; left].
  refine (reach_step _ _ taken _ _ (st_device _ _ _ (may_carry_out taken 0 _))); [|vm_compute; left].
  refine (reach_step _ _ queued _ _ (st_device _ _ _ (may_take queued _))); [exact reach_queued|vm_compute; discriminate].
Qed.

Lemma reach_interrupted : reachable device_may zero interrupted.
Proof.
  assert (w_pc asleep 1 = T_idle) as E by (vm_compute; reflexivity).
  exact (reach_step device_may zero asleep interrupted (reach_rw device_may zero 0 1 told reach_told) (st_interrupt device_may asleep 1 E)).
Qed.

Lemma reach_returned : reachable device_may zero returned.
Proof. exact (reach_rw device_may zero 0 3 woken (reach_intr device_may zero 1 3 interrupted reach_interrupted)). Qed.
End Run.


Lemma virtio_descriptors_accounted_witness : k_free (w_disk Run.returned) 0 = 1 /\ forall i, 0 ∉ descs (w_pc Run.returned i).
Proof.
  assert (k_free (w_disk Run.returned) 0 = 1) as E by (vm_compute; reflexivity). split; [exact E|].
  destruct (virtio_descriptors_accounted device_may (fun _ _ H => H) Run.zero Run.returned Run.reach_returned) as (H & _). apply H; [lia|exact E].
Defined.
