(* ===== verification/VirtioInit.v ===== *)
(** * Bringing up the disk (virtio_disk_init of kernel/virtio_disk.c)

    The device's memory-mapped registers are a parameter: [VirtioMmio] gives what a register
    returns and what a write to it does, [VirtioBlk] what the driver relies on of a virtio
    block device.  The theorem: the device is told, in the order the virtio specification
    asks for, of three zeroed pages, and every descriptor is free. *)
From S2P Require Import Prelude Memory Machine Riscv KString Kalloc VmProps VmSpec Virtio LogSpec.

(** ** Registers *)

Definition VIRTIO_MMIO_MAGIC_VALUE : Z := 0x000.
Definition VIRTIO_MMIO_VERSION : Z := 0x004.
Definition VIRTIO_MMIO_DEVICE_ID : Z := 0x008.
Definition VIRTIO_MMIO_VENDOR_ID : Z := 0x00c.
Definition VIRTIO_MMIO_DEVICE_FEATURES : Z := 0x010.
Definition VIRTIO_MMIO_DRIVER_FEATURES : Z := 0x020.
Definition VIRTIO_MMIO_QUEUE_SEL : Z := 0x030.
Definition VIRTIO_MMIO_QUEUE_NUM_MAX : Z := 0x034.
Definition VIRTIO_MMIO_QUEUE_NUM : Z := 0x038.
Definition VIRTIO_MMIO_QUEUE_READY : Z := 0x044.
Definition VIRTIO_MMIO_STATUS : Z := 0x070.
Definition VIRTIO_MMIO_QUEUE_DESC_LOW : Z := 0x080.
Definition VIRTIO_MMIO_QUEUE_DESC_HIGH : Z := 0x084.
Definition VIRTIO_MMIO_DRIVER_DESC_LOW : Z := 0x090.
Definition VIRTIO_MMIO_DRIVER_DESC_HIGH : Z := 0x094.
Definition VIRTIO_MMIO_DEVICE_DESC_LOW : Z := 0x0a0.
Definition VIRTIO_MMIO_DEVICE_DESC_HIGH : Z := 0x0a4.
Definition VIRTIO_CONFIG_S_ACKNOWLEDGE : Z := 1.
Definition VIRTIO_CONFIG_S_DRIVER : Z := 2.
Definition VIRTIO_CONFIG_S_DRIVER_OK : Z := 4.
Definition VIRTIO_CONFIG_S_FEATURES_OK : Z := 8.
Definition VIRTIO_BLK_F_RO : Z := 5.
Definition VIRTIO_BLK_F_SCSI : Z := 7.
Definition VIRTIO_BLK_F_CONFIG_WCE : Z := 11.
Definition VIRTIO_BLK_F_MQ : Z := 12.
Definition VIRTIO_F_ANY_LAYOUT : Z := 27.
Definition VIRTIO_RING_F_INDIRECT_DESC : Z := 28.
Definition VIRTIO_RING_F_EVENT_IDX : Z := 29.

Class VirtioMmio (D : Type) := {
  mmio_read : Z -> D -> Z * D;
  mmio_write : Z -> Z -> D -> D;
}.

(** What the driver relies on.  [told] is what the device has been told: the writes to its
    registers.  It offers [offered]; it keeps FEATURES_OK when it has been given a subset of
    that; no queue is ready after a reset. *)
Class VirtioBlk (D : Type) `{VirtioMmio D} := {
  told : D -> list (Z * Z);
  offered : Z;
  told_read : forall r d, told (mmio_read r d).2 = told d;
  told_write : forall r v d, told (mmio_write r v d) = told d ++ [(r, v)];
  read_magic : forall d, (mmio_read VIRTIO_MMIO_MAGIC_VALUE d).1 = 0x74726976;
  read_version : forall d, (mmio_read VIRTIO_MMIO_VERSION d).1 = 2;
  read_device_id : forall d, (mmio_read VIRTIO_MMIO_DEVICE_ID d).1 = 2;
  read_vendor_id : forall d, (mmio_read VIRTIO_MMIO_VENDOR_ID d).1 = 0x554d4551;
  offered_range : 0 <= offered < 4294967296;
  read_features : forall d, (mmio_read VIRTIO_MMIO_DEVICE_FEATURES d).1 = offered;
  read_status : forall d l f v, told d = l ++ [(VIRTIO_MMIO_DRIVER_FEATURES, f); (VIRTIO_MMIO_STATUS, v)] -> Z.land f offered = f ->
    (mmio_read VIRTIO_MMIO_STATUS d).1 = v;
  read_ready : forall d l l', told d = l ++ (VIRTIO_MMIO_STATUS, 0) :: l' -> (forall v, (VIRTIO_MMIO_QUEUE_READY, v) ∉ l') ->
    (mmio_read VIRTIO_MMIO_QUEUE_READY d).1 = 0;
  read_num_max : forall d, NUM <= (mmio_read VIRTIO_MMIO_QUEUE_NUM_MAX d).1;
}.

(** ** virtio_disk_init() *)

(** The device, physical memory, and the fields of [disk] that virtio_disk_init() sets. *)
Record vinit (D : Type) := VInit { vi_dev : D; vi_pm : pmem; vi_desc : Z; vi_avail : Z; vi_used : Z; vi_free : list Z }.
Arguments VInit {D} vi_dev vi_pm vi_desc vi_avail vi_used vi_free.
Arguments vi_dev {D} v.
Arguments vi_pm {D} v.
Arguments vi_desc {D} v.
Arguments vi_avail {D} v.
Arguments vi_used {D} v.
Arguments vi_free {D} v.

Section Init.
Context {image : KernelImage} {D : Type} `{!VirtioMmio D}.
Abbreviation vinit := (vinit D).

Definition set_vdev (x : D) (s : vinit) : vinit := VInit x (vi_pm s) (vi_desc s) (vi_avail s) (vi_used s) (vi_free s).
Definition set_vpm (x : pmem) (s : vinit) : vinit := VInit (vi_dev s) x (vi_desc s) (vi_avail s) (vi_used s) (vi_free s).
Definition set_vdesc (x : Z) (s : vinit) : vinit := VInit (vi_dev s) (vi_pm s) x (vi_avail s) (vi_used s) (vi_free s).
Definition set_vavail (x : Z) (s : vinit) : vinit := VInit (vi_dev s) (vi_pm s) (vi_desc s) x (vi_used s) (vi_free s).
Definition set_vused (x : Z) (s : vinit) : vinit := VInit (vi_dev s) (vi_pm s) (vi_desc s) (vi_avail s) x (vi_free s).
Definition set_vfree (x : list Z) (s : vinit) : vinit := VInit (vi_dev s) (vi_pm s) (vi_desc s) (vi_avail s) (vi_used s) x.

Definition rreg (r : Z) : M vinit Z := fun c s => Done (mmio_read r (vi_dev s)).1 c (set_vdev (mmio_read r (vi_dev s)).2 s).
Definition wreg (r v : Z) : M vinit unit := modify (fun s => set_vdev (mmio_write r (u32 v) (vi_dev s)) s).

Definition vi_mem : lens vinit pmem := Lens vi_pm set_vpm.
Definition zero_page (p : Z) : M vinit unit := zoom vi_mem (modify (fun s => set_pm (memset (pm s) p 0 PGSIZE) s)).

Fixpoint all_free (k : nat) (i : Z) : M vinit unit :=
  match k with
  | O => ret tt
  | S k' => modify (fun s => set_vfree (zupd (vi_free s) i 1) s) ;; all_free k' (i + 1)
  end.

(** The identification registers, read from left to right. *)
Definition find_disk : M vinit bool :=
  a <- rreg VIRTIO_MMIO_MAGIC_VALUE ;;
  if negb (a =? 0x74726976) then ret false else
  a <- rreg VIRTIO_MMIO_VERSION ;;
  if negb (a =? 2) then ret false else
  a <- rreg VIRTIO_MMIO_DEVICE_ID ;;
  if negb (a =? 2) then ret false else
  a <- rreg VIRTIO_MMIO_VENDOR_ID ;;
  ret (a =? 0x554d4551).

(** The features the driver accepts of those the device has. *)
Definition accept_features (features : Z) : Z :=
  let features := Z.land features (Z.lnot (Z.shiftl 1 VIRTIO_BLK_F_RO)) in
  let features := Z.land features (Z.lnot (Z.shiftl 1 VIRTIO_BLK_F_SCSI)) in
  let features := Z.land features (Z.lnot (Z.shiftl 1 VIRTIO_BLK_F_CONFIG_WCE)) in
  let features := Z.land features (Z.lnot (Z.shiftl 1 VIRTIO_BLK_F_MQ)) in
  let features := Z.land features (Z.lnot (Z.shiftl 1 VIRTIO_F_ANY_LAYOUT)) in
  let features := Z.land features (Z.lnot (Z.shiftl 1 VIRTIO_RING_F_EVENT_IDX)) in
  Z.land features (Z.lnot (Z.shiftl 1 VIRTIO_RING_F_INDIRECT_DESC)).

(** From the reset of the device to the choice of queue 0. *)
Definition negotiate : M vinit Z :=
  let status := 0 in
  wreg VIRTIO_MMIO_STATUS status ;;
  let status := Z.lor status VIRTIO_CONFIG_S_ACKNOWLEDGE in
  wreg VIRTIO_MMIO_STATUS status ;;
  let status := Z.lor status VIRTIO_CONFIG_S_DRIVER in
  wreg VIRTIO_MMIO_STATUS status ;;
  features <- rreg VIRTIO_MMIO_DEVICE_FEATURES ;;
  wreg VIRTIO_MMIO_DRIVER_FEATURES (accept_features features) ;;
  let status := Z.lor status VIRTIO_CONFIG_S_FEATURES_OK in
  wreg VIRTIO_MMIO_STATUS status ;;
  status <- rreg VIRTIO_MMIO_STATUS ;;
  if negb (truth (Z.land status VIRTIO_CONFIG_S_FEATURES_OK)) then panic "virtio disk FEATURES_OK unset" else
  wreg VIRTIO_MMIO_QUEUE_SEL 0 ;;
  r <- rreg VIRTIO_MMIO_QUEUE_READY ;;
  if truth r then panic "virtio disk should not be ready" else
  max <- rreg VIRTIO_MMIO_QUEUE_NUM_MAX ;;
  if max =? 0 then panic "virtio disk has no queue 0" else
  if max <? NUM then panic "virtio disk max queue too short" else
  ret status.

(** The three pages. *)
Definition queue_memory : M vinit unit :=
  p <- zoom vi_mem kalloc ;; modify (set_vdesc p) ;;
  p <- zoom vi_mem kalloc ;; modify (set_vavail p) ;;
  p <- zoom vi_mem kalloc ;; modify (set_vused p) ;;
  d <- gets vi_desc ;; a <- gets vi_avail ;; u <- gets vi_used ;;
  if negb (truth d) || negb (truth a) || negb (truth u) then panic "virtio disk kalloc" else
  zero_page d ;; zero_page a ;; zero_page u.

Definition set_queue : M vinit unit :=
  wreg VIRTIO_MMIO_QUEUE_NUM NUM ;;
  d <- gets vi_desc ;; a <- gets vi_avail ;; u <- gets vi_used ;;
  wreg VIRTIO_MMIO_QUEUE_DESC_LOW d ;;
  wreg VIRTIO_MMIO_QUEUE_DESC_HIGH (Z.shiftr d 32) ;;
  wreg VIRTIO_MMIO_DRIVER_DESC_LOW a ;;
  wreg VIRTIO_MMIO_DRIVER_DESC_HIGH (Z.shiftr a 32) ;;
  wreg VIRTIO_MMIO_DEVICE_DESC_LOW u ;;
  wreg VIRTIO_MMIO_DEVICE_DESC_HIGH (Z.shiftr u 32) ;;
  wreg VIRTIO_MMIO_QUEUE_READY 1.

Definition virtio_disk_init : M vinit unit :=
  initlock LVdisk ;;
  found <- find_disk ;;
  if negb found then panic "could not find virtio disk" else
  status <- negotiate ;;
  queue_memory ;;
  set_queue ;;
  all_free (Z.to_nat NUM) 0 ;;
  wreg VIRTIO_MMIO_STATUS (Z.lor status VIRTIO_CONFIG_S_DRIVER_OK).

(** ** What the device is told *)

Context `{!VirtioBlk D}.

Lemma rreg_run r c s : exists d, rreg r c s = Done (mmio_read r (vi_dev s)).1 c (set_vdev d s) /\ told d = told (vi_dev s).
Proof. eexists. split; [done|apply told_read]. Qed.

Lemma wreg_run r v c s : exists d, wreg r v c s = Done tt c (set_vdev d s) /\ told d = told (vi_dev s) ++ [(r, u32 v)].
Proof. eexists. split; [done|apply told_write]. Qed.

Lemma find_disk_run c s : exists d, find_disk c s = Done true c (set_vdev d s) /\ told d = told (vi_dev s).
Proof.
  unfold find_disk. destruct (rreg_run VIRTIO_MMIO_MAGIC_VALUE c s) as (d1 & E1 & T1). kstep E1. rewrite read_magic, Z.eqb_refl. cbn [negb].
  destruct (rreg_run VIRTIO_MMIO_VERSION c (set_vdev d1 s)) as (d2 & E2 & T2). kstep E2. rewrite read_version. cbn [negb Z.eqb Pos.eqb].
  destruct (rreg_run VIRTIO_MMIO_DEVICE_ID c (set_vdev d2 s)) as (d3 & E3 & T3). kstep E3. rewrite read_device_id. cbn [negb Z.eqb Pos.eqb].
  destruct (rreg_run VIRTIO_MMIO_VENDOR_ID c (set_vdev d3 s)) as (d4 & E4 & T4). kstep E4. rewrite read_vendor_id, Z.eqb_refl.
  exists d4. split; [done|]. rewrite T4. cbn. rewrite T3. cbn. rewrite T2. cbn. apply T1.
Qed.

(** [accept_features] drops seven of the device's features and adds none. *)
Lemma drop_spec f b : 0 <= f < 4294967296 -> 0 <= b ->
  0 <= Z.land f (Z.lnot (Z.shiftl 1 b)) < 4294967296 /\ forall g, Z.land f g = f -> Z.land (Z.land f (Z.lnot (Z.shiftl 1 b))) g = Z.land f (Z.lnot (Z.shiftl 1 b)).
Proof.
  intros Hf Hb. set (m := Z.lnot _). split.
  - pose proof (Z.ldiff_le (Z.land f m) f ltac:(lia)) as H. assert (Z.ldiff (Z.land f m) f = 0) as E; [|apply H in E; lia].
    apply Z.bits_inj'. intros n _. rewrite Z.ldiff_spec, Z.land_spec, Z.bits_0. by destruct (Z.testbit f n), (Z.testbit m n).
  - intros g Hg. rewrite <- Z.land_assoc, (Z.land_comm m g), Z.land_assoc. by rewrite Hg.
Qed.

Lemma accept_spec f : 0 <= f < 4294967296 -> u32 (accept_features f) = accept_features f /\ Z.land (accept_features f) f = accept_features f.
Proof.
  intros Hf. assert (0 <= accept_features f < 4294967296 /\ Z.land (accept_features f) f = accept_features f) as [H1 H2].
  { assert (forall x b, 0 <= b -> 0 <= x < 4294967296 /\ Z.land x f = x -> 0 <= Z.land x (Z.lnot (Z.shiftl 1 b)) < 4294967296 /\
      Z.land (Z.land x (Z.lnot (Z.shiftl 1 b))) f = Z.land x (Z.lnot (Z.shiftl 1 b))) as H.
    { intros x b Hb [Hx Hx']. destruct (drop_spec x b Hx Hb) as [D1 D2]. auto. }
    unfold accept_features. do 7 (apply H; [done|]). split; [done|apply Z.land_diag]. }
  split; [unfold u32; by apply Z.mod_small|done].
Qed.

(** What the device is told until the queue's memory is there. *)
Definition opening : list (Z * Z) :=
  [(VIRTIO_MMIO_STATUS, 0); (VIRTIO_MMIO_STATUS, 1); (VIRTIO_MMIO_STATUS, 3); (VIRTIO_MMIO_DRIVER_FEATURES, accept_features offered);
   (VIRTIO_MMIO_STATUS, 11); (VIRTIO_MMIO_QUEUE_SEL, 0)].

Lemma negotiate_run c s : exists d, negotiate c s = Done 11 c (set_vdev d s) /\ told d = told (vi_dev s) ++ opening.
Proof.
  unfold negotiate. pose proof offered_range as Ho. destruct (accept_spec offered Ho) as [Hu Hs].
  destruct (wreg_run VIRTIO_MMIO_STATUS 0 c s) as (d1 & E1 & T1). kstep E1.
  destruct (wreg_run VIRTIO_MMIO_STATUS (Z.lor 0 VIRTIO_CONFIG_S_ACKNOWLEDGE) c (set_vdev d1 s)) as (d2 & E2 & T2). kstep E2.
  destruct (wreg_run VIRTIO_MMIO_STATUS (Z.lor (Z.lor 0 VIRTIO_CONFIG_S_ACKNOWLEDGE) VIRTIO_CONFIG_S_DRIVER) c (set_vdev d2 s)) as (d3 & E3 & T3). kstep E3.
  destruct (rreg_run VIRTIO_MMIO_DEVICE_FEATURES c (set_vdev d3 s)) as (d4 & E4 & T4). kstep E4. rewrite read_features.
  destruct (wreg_run VIRTIO_MMIO_DRIVER_FEATURES (accept_features offered) c (set_vdev d4 s)) as (d5 & E5 & T5). kstep E5. rewrite Hu in T5.
  set (st := Z.lor _ VIRTIO_CONFIG_S_FEATURES_OK). destruct (wreg_run VIRTIO_MMIO_STATUS st c (set_vdev d5 s)) as (d6 & E6 & T6). kstep E6. change (u32 st) with 11 in T6.
  cbn [vi_dev set_vdev] in *. rewrite T5, T4, T3, T2, T1, <- !app_assoc in T6. cbn [app] in T6.
  destruct (rreg_run VIRTIO_MMIO_STATUS c (set_vdev d6 s)) as (d7 & E7 & T7). kstep E7. cbn [vi_dev set_vdev] in *.
  assert ((mmio_read VIRTIO_MMIO_STATUS d6).1 = 11) as ->.
  { apply (read_status d6 (told (vi_dev s) ++ [(VIRTIO_MMIO_STATUS, 0); (VIRTIO_MMIO_STATUS, 1); (VIRTIO_MMIO_STATUS, 3)]) (accept_features offered) 11); [|done].
    rewrite T6, <- app_assoc. done. }
  change (negb (truth (Z.land 11 VIRTIO_CONFIG_S_FEATURES_OK))) with false. cbn iota.
  destruct (wreg_run VIRTIO_MMIO_QUEUE_SEL 0 c (set_vdev d7 s)) as (d8 & E8 & T8). kstep E8. cbn [vi_dev set_vdev] in *.
  destruct (rreg_run VIRTIO_MMIO_QUEUE_READY c (set_vdev d8 s)) as (d9 & E9 & T9). kstep E9. cbn [vi_dev set_vdev] in *.
  rewrite T7, T6, <- app_assoc in T8. cbn [app] in T8.
  assert ((mmio_read VIRTIO_MMIO_QUEUE_READY d8).1 = 0) as ->.
  { apply (read_ready d8 (told (vi_dev s)) _ T8). intros v Hv. repeat (apply elem_of_cons in Hv as [Hv|Hv]; [discriminate Hv|]). by apply elem_of_nil in Hv. }
  change (truth 0) with false. cbn iota. destruct (rreg_run VIRTIO_MMIO_QUEUE_NUM_MAX c (set_vdev d9 s)) as (d10 & E10 & T10). kstep E10. cbn [vi_dev set_vdev] in *.
  pose proof (read_num_max d9) as Hmax. unfold NUM in *. zcase ((mmio_read VIRTIO_MMIO_QUEUE_NUM_MAX d9).1 =? 0); [lia|]. zcase ((mmio_read VIRTIO_MMIO_QUEUE_NUM_MAX d9).1 <? 8); [lia|].
  exists d10. rewrite T10, T9, T8. done.
Qed.

(** ** The queue's memory *)

Lemma zero_page_run p c s : zero_page p c s = Done tt c (set_vpm (set_pm (memset (pm (vi_pm s)) p 0 PGSIZE) (vi_pm s)) s).
Proof. done. Qed.

Lemma kmem_zero s l p : kmem_ok s l -> free_page p -> p ∉ l -> kmem_ok (set_pm (memset (pm s) p 0 PGSIZE) s) l.
Proof.
  intros (Hm & Hl & Hnd) Hp Hn. split; [by apply mem_ok_memset|]. split; [|done]. eapply free_list_agree; [|exact Hl]. intros q Hq.
  apply free_list_pages in Hl. rewrite Forall_forall in Hl. apply agree_memset_page; [apply Hp|by apply Hl|congruence].
Qed.

Definition zeroed (m : mem) (p : Z) : Prop := forall x, in_page p x -> rd m x = 0.

Lemma zeroed_same m p : zeroed (memset m p 0 PGSIZE) p.
Proof. intros x Hx. by apply rd_memset_in. Qed.
Lemma zeroed_other m p q : page_aligned p -> page_aligned q -> p <> q -> zeroed m q -> zeroed (memset m p 0 PGSIZE) q.
Proof. intros Hp Hq Hne Hz x Hx. rewrite <- (agree_memset_page m p 0 q Hp Hq Hne x Hx). by apply Hz. Qed.

Lemma queue_memory_run c s p1 p2 p3 l : ctx_ok c -> LKmem ∉ c_held c -> kmem_ok (vi_pm s) (p1 :: p2 :: p3 :: l) ->
  exists m, queue_memory c s = Done tt (settle c) (VInit (vi_dev s) m p1 p2 p3 (vi_free s)) /\ kmem_ok m l /\
    zeroed (pm m) p1 /\ zeroed (pm m) p2 /\ zeroed (pm m) p3 /\ changes_in [p1; p2; p3] (pm (vi_pm s)) (pm m).
Proof.
  intros Hc Hk Hok. unfold queue_memory. pose proof (ctx_ok_settle c Hc) as Hc'. assert (LKmem ∉ c_held (settle c)) as Hk' by (by rewrite c_held_settle).
  assert (Forall free_page (p1 :: p2 :: p3 :: l) /\ NoDup (p1 :: p2 :: p3 :: l)) as [HF Hnd]
    by (destruct Hok as (_ & Hl & Hnd); split; [by eapply free_list_pages|done]).
  apply Forall_cons in HF as [F1 HF]. apply Forall_cons in HF as [F2 HF]. apply Forall_cons in HF as [F3 HF].
  apply NoDup_cons in Hnd as [N1 Hnd]. apply NoDup_cons in Hnd as [N2 Hnd]. apply NoDup_cons in Hnd as [N3 Hnd].
  assert (p1 <> p2 /\ p1 <> p3 /\ (p1 ∉ l) /\ p2 <> p3 /\ (p2 ∉ l)) as (M1 & M2 & M3 & M4 & M5) by set_solver.
  destruct (kalloc_page c Hc Hk (vi_pm s) p1 _ Hok) as [E1 O1]. kstep (zoom_done vi_mem kalloc c s p1 _ _ E1). krun.
  destruct (kalloc_page (settle c) Hc' Hk' _ p2 _ O1) as [E2 O2]. rewrite settle_settle in E2.
  kstep (zoom_done vi_mem kalloc (settle c) (set_vdesc p1 (set_vpm (kalloc_state (vi_pm s) p1) s)) p2 _ _ E2). krun.
  destruct (kalloc_page (settle c) Hc' Hk' _ p3 _ O2) as [E3 O3]. rewrite settle_settle in E3.
  kstep (zoom_done vi_mem kalloc (settle c) (set_vavail p2 (set_vpm (kalloc_state (kalloc_state (vi_pm s) p1) p2) (set_vdesc p1 (set_vpm (kalloc_state (vi_pm s) p1) s)))) p3 _ _ E3). krun.
  cbn [vi_desc vi_avail vi_used set_vused update vi_mem set_vpm set_vavail set_vdesc].
  assert (forall p, free_page p -> truth p = true) as Ht by (intros p Hp; apply free_page_nonzero in Hp; unfold truth; by zcase (p =? 0)).
  rewrite !Ht by done. cbn [negb orb]. kstep (zero_page_run p1 (settle c)). kstep (zero_page_run p2 (settle c)). rewrite zero_page_run.
  cbn [vi_pm vi_dev vi_desc vi_avail vi_used vi_free set_vused set_vpm set_vavail set_vdesc]. eexists. split; [done|].
  split; [|split; [|split; [|split]]].
  - by repeat apply kmem_zero.
  - cbn [pm set_pm]. apply zeroed_other; [apply F3|apply F1|done|]. apply zeroed_other; [apply F2|apply F1|done|]. apply zeroed_same.
  - cbn [pm set_pm]. apply zeroed_other; [apply F3|apply F2|done|]. apply zeroed_same.
  - cbn [pm set_pm]. apply zeroed_same.
  - intros x Hx. cbn [pm set_pm kalloc_state].
    rewrite !rd_memset_out; [done|..]; first [unfold PGSIZE; lia|apply Hx; set_solver].
Qed.

Definition closing (p1 p2 p3 : Z) : list (Z * Z) :=
  [(VIRTIO_MMIO_QUEUE_NUM, 8); (VIRTIO_MMIO_QUEUE_DESC_LOW, p1); (VIRTIO_MMIO_QUEUE_DESC_HIGH, 0); (VIRTIO_MMIO_DRIVER_DESC_LOW, p2);
   (VIRTIO_MMIO_DRIVER_DESC_HIGH, 0); (VIRTIO_MMIO_DEVICE_DESC_LOW, p3); (VIRTIO_MMIO_DEVICE_DESC_HIGH, 0); (VIRTIO_MMIO_QUEUE_READY, 1)].

Lemma low_high p : free_page p -> u32 p = p /\ u32 (Z.shiftr p 32) = 0.
Proof.
  intros H%free_page_bounds. unfold u32. rewrite Z.shiftr_div_pow2 by lia. change (2 ^ 32) with 4294967296. rewrite (Z.div_small p) by lia. split; [apply Z.mod_small; lia|done].
Qed.

Lemma set_queue_run c s : free_page (vi_desc s) -> free_page (vi_avail s) -> free_page (vi_used s) ->
  exists d, set_queue c s = Done tt c (set_vdev d s) /\ told d = told (vi_dev s) ++ closing (vi_desc s) (vi_avail s) (vi_used s).
Proof.
  intros F1 F2 F3. unfold set_queue, wreg. krun. eexists. split; [done|]. cbn [vi_dev vi_desc vi_avail vi_used set_vdev]. rewrite !told_write.
  destruct (low_high _ F1) as [-> ->], (low_high _ F2) as [-> ->], (low_high _ F3) as [-> ->]. by rewrite <- !app_assoc.
Qed.

Lemma all_free_run k : forall i c s, all_free k i c s = Done tt c (set_vfree (foldl (fun l j => zupd l j 1) (vi_free s) (seqZ i (Z.of_nat k))) s).
Proof.
  induction k as [|k IH]; intros i c s; cbn [all_free]; [by destruct s|]. krun. rewrite IH. cbn [vi_free set_vfree].
  rewrite (seqZ_cons i (Z.of_nat (S k))) by lia. cbn [foldl]. replace (Z.pred (Z.of_nat (S k))) with (Z.of_nat k) by lia. done.
Qed.

(** virtio_disk_init() on a virtio block device, with three free pages: it returns; the
    device has been reset, given a subset of its features, told of a queue of eight
    descriptors at three different pages, which are zeroed, and then told that the driver
    is ready, in this order; every descriptor is free and the allocator keeps the other
    pages. *)
Theorem virtio_disk_init_ready c s p1 p2 p3 l : ctx_ok c -> LKmem ∉ c_held c -> LVdisk ∉ c_held c -> kmem_ok (vi_pm s) (p1 :: p2 :: p3 :: l) -> length (vi_free s) = 8%nat ->
  exists d m, virtio_disk_init c s = Done tt (settle c) (VInit d m p1 p2 p3 (replicate 8 1)) /\ kmem_ok m l /\
    zeroed (pm m) p1 /\ zeroed (pm m) p2 /\ zeroed (pm m) p3 /\ changes_in [p1; p2; p3] (pm (vi_pm s)) (pm m) /\
    told d = told (vi_dev s) ++ opening ++ closing p1 p2 p3 ++ [(VIRTIO_MMIO_STATUS, 15)] /\ Z.land (accept_features offered) offered = accept_features offered.
Proof.
  intros Hc Hk Hv Hok Hlen. unfold virtio_disk_init. kstep (initlock_run LVdisk c s Hv). destruct (find_disk_run c s) as (d1 & E1 & T1). kstep E1. cbn [negb].
  destruct (negotiate_run c (set_vdev d1 s)) as (d2 & E2 & T2). kstep E2. cbn [vi_dev set_vdev] in T2.
  assert (Forall free_page (p1 :: p2 :: p3 :: l)) as HF by (destruct Hok as (_ & Hl & _); by eapply free_list_pages).
  apply Forall_cons in HF as [F1 HF]. apply Forall_cons in HF as [F2 HF]. apply Forall_cons in HF as [F3 _].
  destruct (queue_memory_run c (set_vdev d2 (set_vdev d1 s)) p1 p2 p3 l Hc Hk Hok) as (m & E3 & Hm & Z1 & Z2 & Z3 & Hch). kstep E3. cbn [vi_dev vi_free set_vdev].
  destruct (set_queue_run (settle c) (VInit d2 m p1 p2 p3 (vi_free s)) F1 F2 F3) as (d3 & E4 & T4). kstep E4. cbn [vi_dev vi_desc vi_avail vi_used] in T4.
  kstep (all_free_run (Z.to_nat NUM) 0 (settle c) (set_vdev d3 (VInit d2 m p1 p2 p3 (vi_free s)))).
  destruct (wreg_run VIRTIO_MMIO_STATUS (Z.lor 11 VIRTIO_CONFIG_S_DRIVER_OK) (settle c)
    (set_vfree (foldl (fun l j => zupd l j 1) (vi_free s) (seqZ 0 8)) (set_vdev d3 (VInit d2 m p1 p2 p3 (vi_free s))))) as (d4 & E5 & T5).
  exists d4, m. split; [|split; [done|split; [done|split; [done|split; [done|split; [exact Hch|split]]]]]].
  - etrans; [exact E5|]. cbn. do 2 f_equal. destruct (vi_free s) as [|? [|? [|? [|? [|? [|? [|? [|? [|? ?]]]]]]]]]; done.
  - rewrite T5. cbn [vi_dev set_vfree set_vdev]. rewrite T4, T2, T1, <- !app_assoc. done.
  - apply accept_spec, offered_range.
Qed.
End Init.

(** ** A device *)

(** The writes, latest first. *)
Definition plain_disk : Type := list (Z * Z).

Definition last_write (r : Z) (d : plain_disk) : Z :=
  match filter (fun w => w.1 = r) d with w :: _ => w.2 | [] => 0 end.

(** Whether the selected queue has been made ready since the last reset. *)
Fixpoint ready_since_reset (d : plain_disk) : Z :=
  match d with
  | [] => 0
  | (r, v) :: d' =>
      if (r =? VIRTIO_MMIO_STATUS) && (v =? 0) then 0
      else if r =? VIRTIO_MMIO_QUEUE_READY then v else ready_since_reset d'
  end.

Definition plain_read (r : Z) (d : plain_disk) : Z :=
  if r =? VIRTIO_MMIO_MAGIC_VALUE then 0x74726976
  else if r =? VIRTIO_MMIO_VERSION then 2
  else if r =? VIRTIO_MMIO_DEVICE_ID then 2
  else if r =? VIRTIO_MMIO_VENDOR_ID then 0x554d4551
  else if r =? VIRTIO_MMIO_DEVICE_FEATURES then 0x30006e54
  else if r =? VIRTIO_MMIO_STATUS then last_write VIRTIO_MMIO_STATUS d
  else if r =? VIRTIO_MMIO_QUEUE_READY then ready_since_reset d
  else if r =? VIRTIO_MMIO_QUEUE_NUM_MAX then 1024
  else 0.

#[export] Instance plain_mmio : VirtioMmio plain_disk := {| mmio_read r d := (plain_read r d, d); mmio_write r v d := (r, v) :: d |}.

Lemma ready_after_reset (l : list (Z * Z)) : forall d, (forall v, (VIRTIO_MMIO_QUEUE_READY, v) ∉ l) -> ready_since_reset (rev l ++ (VIRTIO_MMIO_STATUS, 0) :: d) = 0.
Proof.
  induction l as [|[r v] l IH] using rev_ind; intros d H; [done|]. rewrite rev_unit. cbn [app ready_since_reset].
  zcase (r =? VIRTIO_MMIO_QUEUE_READY) as E; [subst r; destruct (H v); apply elem_of_app; right; left|].
  destruct ((r =? VIRTIO_MMIO_STATUS) && (v =? 0)); [done|]. apply IH. intros v' Hv. apply (H v'). apply elem_of_app. by left.
Qed.

#[export] Instance plain_blk : VirtioBlk plain_disk.
Proof.
  refine {| told d := rev d; offered := 0x30006e54 |}; try done.
  - intros d l f v H _. assert (d = (VIRTIO_MMIO_STATUS, v) :: (VIRTIO_MMIO_DRIVER_FEATURES, f) :: rev l) as -> by (rewrite <- (rev_involutive d), H, rev_app_distr; done).
    done.
  - intros d l l' H Hn. assert (d = rev l' ++ (VIRTIO_MMIO_STATUS, 0) :: rev l) as -> by (rewrite <- (rev_involutive d), H, rev_app_distr; cbn; by rewrite <- app_assoc).
    by apply ready_after_reset.
Defined.

Lemma virtio_disk_init_ready_witness : exists d m,
  virtio_disk_init idle_ctx (VInit ([] : plain_disk) (pool demo_pages) 0 0 0 (replicate 8 0)) = Done tt idle_ctx (VInit d m 0x80022000 0x80023000 0x80024000 (replicate 8 1)) /\
  zeroed (pm m) 0x80023000 /\ told d = opening ++ closing 0x80022000 0x80023000 0x80024000 ++ [(VIRTIO_MMIO_STATUS, 15)].
Proof.
  destruct (virtio_disk_init_ready idle_ctx (VInit ([] : plain_disk) (pool demo_pages) 0 0 0 (replicate 8 0)) 0x80022000 0x80023000 0x80024000 (drop 3 demo_pages)
    idle_ctx_ok (not_elem_of_nil _) (not_elem_of_nil _) demo_pages_ok eq_refl) as (d & m & E & _ & _ & Hz & _ & _ & Ht & _).
  exists d, m. split; [exact E|]. split; [exact Hz|exact Ht].
Defined.
