(* ===== verification/Asm.v ===== *)
(** * The kernel's assembly: entry.S, swtch.S, kernelvec.S, trampoline.S

    The instructions these files use, over a hart's registers, control registers and memory;
    an access goes through the page table that [satp] selects, and so does the fetch of each
    instruction: the page the code is in must be mapped where it runs.  The walk of the page
    table by the hardware is a parameter. *)
From S2P Require Import Prelude Memory Riscv.

(** ** Registers *)

Inductive reg :=
| R_ra | R_sp | R_gp | R_tp
| R_t0 | R_t1 | R_t2 | R_t3 | R_t4 | R_t5 | R_t6
| R_s0 | R_s1 | R_s2 | R_s3 | R_s4 | R_s5 | R_s6 | R_s7 | R_s8 | R_s9 | R_s10 | R_s11
| R_a0 | R_a1 | R_a2 | R_a3 | R_a4 | R_a5 | R_a6 | R_a7.

Inductive csr := C_mhartid | C_mscratch | C_sscratch | C_satp | C_sip | C_sepc | C_mepc.

#[export] Instance reg_eq_dec : EqDecision reg.
Proof. solve_decision. Defined.
#[export] Instance csr_eq_dec : EqDecision csr.
Proof. solve_decision. Defined.

(** ** Instructions *)

Inductive instr :=
| Sd (rs : reg) (off : Z) (rb : reg)
| Ld (rd : reg) (off : Z) (rb : reg)
| Li (rd : reg) (imm : Z)
| La (rd : reg) (addr : Z)
| Addi (rd rs : reg) (imm : Z)
| Add (rd rs rt : reg)
| Mul (rd rs rt : reg)
| Csrr (rd : reg) (c : csr)
| Csrw (c : csr) (rs : reg)
| Csrrw (rd : reg) (c : csr) (rs : reg)
| Sfence_vma.

(** How a piece of code ends: where the hart goes on. *)
Inductive ending := Ret | Jr (r : reg) | Call (addr : Z) | Sret | Mret.

Record hart := Hart { h_reg : reg -> Z; h_csr : csr -> Z; h_mem : mem }.

Definition set_reg (r : reg) (v : Z) (h : hart) : hart := Hart (fun x => if decide (x = r) then v else h_reg h x) (h_csr h) (h_mem h).
Definition set_csr (c : csr) (v : Z) (h : hart) : hart := Hart (h_reg h) (fun x => if decide (x = c) then v else h_csr h x) (h_mem h).
Definition set_hmem (m : mem) (h : hart) : hart := Hart (h_reg h) (h_csr h) m.

(** The hardware's page-table walk: memory, [satp] and a virtual address to a physical one. *)
Class Mmu := translate : mem -> Z -> Z -> option Z.

Section Exec.
Context {mmu : Mmu}.

Definition tr (h : hart) (va : Z) : option Z := translate (h_mem h) (h_csr h C_satp) va.

Definition exec1 (i : instr) (h : hart) : option hart :=
  match i with
  | Sd rs off rb => pa ← tr h (u64 (h_reg h rb + off)); Some (set_hmem (store64 (h_mem h) pa (h_reg h rs)) h)
  | Ld rd off rb => pa ← tr h (u64 (h_reg h rb + off)); Some (set_reg rd (load64 (h_mem h) pa) h)
  | Li rd imm => Some (set_reg rd (u64 imm) h)
  | La rd addr => Some (set_reg rd (u64 addr) h)
  | Addi rd rs imm => Some (set_reg rd (u64 (h_reg h rs + imm)) h)
  | Add rd rs rt => Some (set_reg rd (u64 (h_reg h rs + h_reg h rt)) h)
  | Mul rd rs rt => Some (set_reg rd (u64 (h_reg h rs * h_reg h rt)) h)
  | Csrr rd c => Some (set_reg rd (h_csr h c) h)
  | Csrw c rs => Some (set_csr c (h_reg h rs) h)
  | Csrrw rd c rs => let old := h_csr h c in let new := h_reg h rs in Some (set_reg rd old (set_csr c new h))
  | Sfence_vma => Some h
  end.

(** Code in the page at [va], whose physical address is [pa]. *)
Context (va pa : Z).

Fixpoint run (l : list instr) (h : hart) : option hart :=
  match l with
  | [] => Some h
  | i :: l' => if decide (tr h va = Some pa) then h' ← exec1 i h; run l' h' else None
  end.

Definition go (e : ending) (h : hart) : Z :=
  match e with
  | Ret => h_reg h R_ra
  | Jr r => h_reg h r
  | Call addr => addr
  | Sret => h_csr h C_sepc
  | Mret => h_csr h C_mepc
  end.

Definition run_to (code : list instr * ending) (h : hart) : option (Z * hart) :=
  h' ← run code.1 h; Some (go code.2 h', h').

Lemma run_app l1 l2 h : run (l1 ++ l2) h = (h' ← run l1 h; run l2 h').
Proof. revert h. induction l1 as [|i l1 IH]; intros h; [done|]. cbn. case_decide; [|done]. destruct (exec1 i h); cbn; [apply IH|done]. Qed.
End Exec.

(** ** The code *)

Definition stores (b : reg) (l : list (reg * Z)) : list instr := (fun p => Sd p.1 p.2 b) <$> l.
Definition loads (b : reg) (l : list (reg * Z)) : list instr := (fun p => Ld p.1 p.2 b) <$> l.

(** entry.S; the address of [stack0] is the linker's. *)
Definition entry (stack0 start : Z) : list instr * ending :=
  ([La R_sp stack0; Li R_a0 (1024 * 4); Csrr R_a1 C_mhartid; Addi R_a1 R_a1 1; Mul R_a0 R_a0 R_a1; Add R_sp R_sp R_a0], Call start).

(** swtch.S: struct context of kernel/proc.h. *)
Definition context : list (reg * Z) :=
  [(R_ra, 0); (R_sp, 8); (R_s0, 16); (R_s1, 24); (R_s2, 32); (R_s3, 40); (R_s4, 48); (R_s5, 56); (R_s6, 64); (R_s7, 72); (R_s8, 80);
   (R_s9, 88); (R_s10, 96); (R_s11, 104)].

Definition swtch : list instr * ending :=
  ([Sd R_ra 0 R_a0; Sd R_sp 8 R_a0; Sd R_s0 16 R_a0; Sd R_s1 24 R_a0; Sd R_s2 32 R_a0; Sd R_s3 40 R_a0; Sd R_s4 48 R_a0; Sd R_s5 56 R_a0;
    Sd R_s6 64 R_a0; Sd R_s7 72 R_a0; Sd R_s8 80 R_a0; Sd R_s9 88 R_a0; Sd R_s10 96 R_a0; Sd R_s11 104 R_a0;
    Ld R_ra 0 R_a1; Ld R_sp 8 R_a1; Ld R_s0 16 R_a1; Ld R_s1 24 R_a1; Ld R_s2 32 R_a1; Ld R_s3 40 R_a1; Ld R_s4 48 R_a1; Ld R_s5 56 R_a1;
    Ld R_s6 64 R_a1; Ld R_s7 72 R_a1; Ld R_s8 80 R_a1; Ld R_s9 88 R_a1; Ld R_s10 96 R_a1; Ld R_s11 104 R_a1], Ret).

(** kernelvec.S: kernelvec up to its call of kerneltrap(), and after it. *)
Definition kernelvec_save (kerneltrap : Z) : list instr * ending :=
  ([Addi R_sp R_sp (-256);
    Sd R_ra 0 R_sp; Sd R_sp 8 R_sp; Sd R_gp 16 R_sp; Sd R_tp 24 R_sp; Sd R_t0 32 R_sp; Sd R_t1 40 R_sp; Sd R_t2 48 R_sp; Sd R_s0 56 R_sp;
    Sd R_s1 64 R_sp; Sd R_a0 72 R_sp; Sd R_a1 80 R_sp; Sd R_a2 88 R_sp; Sd R_a3 96 R_sp; Sd R_a4 104 R_sp; Sd R_a5 112 R_sp; Sd R_a6 120 R_sp;
    Sd R_a7 128 R_sp; Sd R_s2 136 R_sp; Sd R_s3 144 R_sp; Sd R_s4 152 R_sp; Sd R_s5 160 R_sp; Sd R_s6 168 R_sp; Sd R_s7 176 R_sp;
    Sd R_s8 184 R_sp; Sd R_s9 192 R_sp; Sd R_s10 200 R_sp; Sd R_s11 208 R_sp; Sd R_t3 216 R_sp; Sd R_t4 224 R_sp; Sd R_t5 232 R_sp;
    Sd R_t6 240 R_sp], Call kerneltrap).

Definition kernelvec_restore : list instr * ending :=
  ([Ld R_ra 0 R_sp; Ld R_sp 8 R_sp; Ld R_gp 16 R_sp; Ld R_t0 32 R_sp; Ld R_t1 40 R_sp; Ld R_t2 48 R_sp; Ld R_s0 56 R_sp;
    Ld R_s1 64 R_sp; Ld R_a0 72 R_sp; Ld R_a1 80 R_sp; Ld R_a2 88 R_sp; Ld R_a3 96 R_sp; Ld R_a4 104 R_sp; Ld R_a5 112 R_sp; Ld R_a6 120 R_sp;
    Ld R_a7 128 R_sp; Ld R_s2 136 R_sp; Ld R_s3 144 R_sp; Ld R_s4 152 R_sp; Ld R_s5 160 R_sp; Ld R_s6 168 R_sp; Ld R_s7 176 R_sp;
    Ld R_s8 184 R_sp; Ld R_s9 192 R_sp; Ld R_s10 200 R_sp; Ld R_s11 208 R_sp; Ld R_t3 216 R_sp; Ld R_t4 224 R_sp; Ld R_t5 232 R_sp;
    Ld R_t6 240 R_sp; Addi R_sp R_sp 256], Sret).

(** kernelvec.S: timervec, in machine mode. *)
Definition timervec : list instr * ending :=
  ([Csrrw R_a0 C_mscratch R_a0; Sd R_a1 0 R_a0; Sd R_a2 8 R_a0; Sd R_a3 16 R_a0;
    Ld R_a1 24 R_a0; Ld R_a2 32 R_a0; Ld R_a3 0 R_a1; Add R_a3 R_a3 R_a2; Sd R_a3 0 R_a1;
    Li R_a1 2; Csrw C_sip R_a1;
    Ld R_a3 16 R_a0; Ld R_a2 8 R_a0; Ld R_a1 0 R_a0; Csrrw R_a0 C_mscratch R_a0], Mret).

(** trampoline.S *)
Definition uservec : list instr * ending :=
  ([Csrw C_sscratch R_a0; Li R_a0 TRAPFRAME;
    Sd R_ra 40 R_a0; Sd R_sp 48 R_a0; Sd R_gp 56 R_a0; Sd R_tp 64 R_a0; Sd R_t0 72 R_a0; Sd R_t1 80 R_a0; Sd R_t2 88 R_a0; Sd R_s0 96 R_a0;
    Sd R_s1 104 R_a0; Sd R_a1 120 R_a0; Sd R_a2 128 R_a0; Sd R_a3 136 R_a0; Sd R_a4 144 R_a0; Sd R_a5 152 R_a0; Sd R_a6 160 R_a0;
    Sd R_a7 168 R_a0; Sd R_s2 176 R_a0; Sd R_s3 184 R_a0; Sd R_s4 192 R_a0; Sd R_s5 200 R_a0; Sd R_s6 208 R_a0; Sd R_s7 216 R_a0;
    Sd R_s8 224 R_a0; Sd R_s9 232 R_a0; Sd R_s10 240 R_a0; Sd R_s11 248 R_a0; Sd R_t3 256 R_a0; Sd R_t4 264 R_a0; Sd R_t5 272 R_a0;
    Sd R_t6 280 R_a0;
    Csrr R_t0 C_sscratch; Sd R_t0 112 R_a0;
    Ld R_sp 8 R_a0; Ld R_tp 32 R_a0; Ld R_t0 16 R_a0; Ld R_t1 0 R_a0;
    Sfence_vma; Csrw C_satp R_t1; Sfence_vma], Jr R_t0).

Definition userret : list instr * ending :=
  ([Sfence_vma; Csrw C_satp R_a0; Sfence_vma; Li R_a0 TRAPFRAME;
    Ld R_ra 40 R_a0; Ld R_sp 48 R_a0; Ld R_gp 56 R_a0; Ld R_tp 64 R_a0; Ld R_t0 72 R_a0; Ld R_t1 80 R_a0; Ld R_t2 88 R_a0; Ld R_s0 96 R_a0;
    Ld R_s1 104 R_a0; Ld R_a1 120 R_a0; Ld R_a2 128 R_a0; Ld R_a3 136 R_a0; Ld R_a4 144 R_a0; Ld R_a5 152 R_a0; Ld R_a6 160 R_a0;
    Ld R_a7 168 R_a0; Ld R_s2 176 R_a0; Ld R_s3 184 R_a0; Ld R_s4 192 R_a0; Ld R_s5 200 R_a0; Ld R_s6 208 R_a0; Ld R_s7 216 R_a0;
    Ld R_s8 224 R_a0; Ld R_s9 232 R_a0; Ld R_s10 240 R_a0; Ld R_s11 248 R_a0; Ld R_t3 256 R_a0; Ld R_t4 264 R_a0; Ld R_t5 272 R_a0;
    Ld R_t6 280 R_a0; Ld R_a0 112 R_a0], Sret).
