(* ===== verification/AsmSpec.v ===== *)
(** * Context switches and traps keep the registers

    swtch() saves what a later swtch() restores; a trap from user space and the return to it
    bring back every user register, a trap from the kernel every register but [tp]; the
    timer's handler changes nothing its code can see. *)
From S2P Require Import Prelude Memory Riscv Asm.

Section Spec.
Context {mmu : Mmu}.

(** The [n] bytes at [va] are at [pa], whatever happens to memory outside [P]. *)
Definition stable (P : Z -> Prop) (m : mem) (satp va pa n : Z) : Prop :=
  forall m', agree_on P m m' -> forall o, 0 <= o < n -> translate m' satp (va + o) = Some (pa + o).

Definition outside (pa n : Z) : Z -> Prop := fun x => ~ within pa n x.

Definition regs_ok (h : hart) : Prop := forall r, 0 <= h_reg h r < 18446744073709551616.

Lemma stable_agree P m m' satp va pa n : agree_on P m m' -> stable P m satp va pa n -> stable P m' satp va pa n.
Proof. intros H S m'' H'. apply S. by etrans. Qed.

Lemma stable_now P m satp va pa n o : stable P m satp va pa n -> 0 <= o < n -> translate m satp (va + o) = Some (pa + o).
Proof. intros S. by apply S. Qed.

(** ** Saving *)

Fixpoint saved (regs : reg -> Z) (pa : Z) (l : list (reg * Z)) (m : mem) : mem :=
  match l with
  | [] => m
  | p :: l' => saved regs pa l' (store64 m (pa + p.2) (regs p.1))
  end.

Definition slots_ok (n : Z) (l : list (reg * Z)) : Prop := Forall (fun p => 0 <= p.2 /\ p.2 + 8 <= n /\ (8 | p.2)) l.

Lemma agree_store pa n o m v : 0 <= o -> o + 8 <= n -> agree_on (outside pa n) m (store64 m (pa + o) v).
Proof. intros H1 H2 x Hx. symmetry. apply rd_store_out. intros H. apply Hx. unfold within in *. lia. Qed.

Lemma agree_saved regs pa n l : forall m, slots_ok n l -> agree_on (outside pa n) m (saved regs pa l m).
Proof.
  induction l as [|p l IH]; intros m Hl; cbn; [done|]. apply Forall_cons in Hl as [(H1 & H2 & _) Hl].
  etrans; [by apply (agree_store pa n p.2 m (regs p.1))|by apply IH].
Qed.

Lemma load_saved_other regs pa n o l : forall m, slots_ok n l -> (8 | o) -> (forall p, p ∈ l -> p.2 <> o) -> load64 (saved regs pa l m) (pa + o) = load64 m (pa + o).
Proof.
  induction l as [|p l IH]; intros m Hl Ho Hn; cbn; [done|]. apply Forall_cons in Hl as [(_ & _ & Hd) Hl]. rewrite IH; [|done|done|intros q Hq; apply Hn; by right].
  apply load_store_ne. assert (p.2 <> o) as H by (apply Hn; left). destruct Hd as [a Ha], Ho as [b Hb]. cbn. lia.
Qed.

Lemma load_saved regs pa n l : forall m r o, slots_ok n l -> NoDup (l.*2) -> (r, o) ∈ l -> 0 <= regs r < 18446744073709551616 -> load64 (saved regs pa l m) (pa + o) = regs r.
Proof.
  induction l as [|[r' o'] l IH]; intros m r o Hl Hnd Hin Hr; [by apply elem_of_nil in Hin|]. cbn. apply Forall_cons in Hl as [(_ & _ & Hd) Hl]. cbn in Hnd. apply NoDup_cons in Hnd as [Hn Hnd].
  apply elem_of_cons in Hin as [[= -> ->]|Hin]; [|by apply IH]. rewrite (load_saved_other regs pa n) by (try done; intros [r1 o1] Hp <-; apply Hn; by apply (list_elem_of_fmap_2' snd l (r1, o1))).
  by apply load64_store64.
Qed.

Lemma run_stores b l : forall h cva cpa base pbase n, h_reg h b = base -> 0 <= base -> base + n <= 18446744073709551616 -> slots_ok n l ->
  stable (outside pbase n) (h_mem h) (h_csr h C_satp) cva cpa 1 -> stable (outside pbase n) (h_mem h) (h_csr h C_satp) base pbase n ->
  run cva cpa (stores b l) h = Some (set_hmem (saved (h_reg h) pbase l (h_mem h)) h).
Proof.
  induction l as [|[r o] l IH]; intros h cva cpa base pbase n Hb H0 Hn Hl Sc Sa; [by destruct h|]. apply Forall_cons in Hl as [(O1 & O2 & _) Hl]. cbn in O1, O2.
  pose proof (stable_now _ _ _ _ _ _ 0 Sc ltac:(lia)) as Hc. rewrite !Z.add_0_r in Hc. cbn [stores fmap list_fmap run]. rewrite decide_True by done. cbn [exec1 fst snd].
  rewrite Hb, u64_small by lia. unfold tr. rewrite (stable_now _ _ _ _ _ _ o Sa) by lia. cbn [mbind option_bind].
  fold (stores b l). cbn [fst snd]. set (h' := set_hmem _ h). rewrite (IH h' cva cpa base pbase n Hb H0 Hn Hl); [done| |].
  - eapply stable_agree; [|exact Sc]. by apply agree_store.
  - eapply stable_agree; [|exact Sa]. by apply agree_store.
Qed.

(** ** Restoring *)

Fixpoint slot (l : list (reg * Z)) (r : reg) : option Z :=
  match l with
  | [] => None
  | (r', o) :: l' => if decide (r = r') then Some o else slot l' r
  end.

Lemma slot_None l r : r ∉ l.*1 -> slot l r = None.
Proof. induction l as [|[r' o] l IH]; cbn; intros H; [done|]. apply not_elem_of_cons in H as [H1 H2]. rewrite decide_False by done. auto. Qed.

Lemma slot_in l r o : NoDup (l.*1) -> (r, o) ∈ l -> slot l r = Some o.
Proof.
  induction l as [|[r' o'] l IH]; cbn; intros Hnd H; [by apply elem_of_nil in H|]. apply NoDup_cons in Hnd as [Hn Hnd]. apply elem_of_cons in H as [[= -> ->]|H]; [by rewrite decide_True|].
  rewrite decide_False; [auto|]. intros ->. apply Hn. by apply (list_elem_of_fmap_2' fst l (r', o)).
Qed.

Lemma run_loads b l : forall h cva cpa base pbase n, h_reg h b = base -> 0 <= base -> base + n <= 18446744073709551616 -> slots_ok n l -> NoDup (l.*1) ->
  stable (fun _ => True) (h_mem h) (h_csr h C_satp) cva cpa 1 -> stable (fun _ => True) (h_mem h) (h_csr h C_satp) base pbase n ->
  (forall o, (b, o) ∈ l -> load64 (h_mem h) (pbase + o) = base) ->
  exists h', run cva cpa (loads b l) h = Some h' /\ h_mem h' = h_mem h /\ h_csr h' = h_csr h /\
    forall r, h_reg h' r = match slot l r with Some o => load64 (h_mem h) (pbase + o) | None => h_reg h r end.
Proof.
  induction l as [|[r o] l IH]; intros h cva cpa base pbase n Hb H0 Hn Hl Hnd Sc Sa Hbase; [by exists h|].
  apply Forall_cons in Hl as [(O1 & O2 & _) Hl]. cbn in O1, O2, Hnd. apply NoDup_cons in Hnd as [Hni Hnd].
  pose proof (stable_now _ _ _ _ _ _ 0 Sc ltac:(lia)) as Hc. rewrite !Z.add_0_r in Hc. cbn [loads fmap list_fmap run]. rewrite decide_True by done. cbn [exec1 fst snd].
  rewrite Hb, u64_small by lia. unfold tr. rewrite (stable_now _ _ _ _ _ _ o Sa) by lia. cbn [mbind option_bind fst snd]. fold (loads b l). set (h1 := set_reg _ _ h).
  assert (h_reg h1 b = base) as Hb1. { cbn. case_decide as E; [|done]. subst r. apply Hbase. left. }
  destruct (IH h1 cva cpa base pbase n Hb1 H0 Hn Hl Hnd Sc Sa) as (h' & E & Em & Ec & Er); [intros o' Ho'; apply Hbase; by right|].
  exists h'. split; [done|]. split; [done|]. split; [done|]. intros x. rewrite Er. cbn [slot]. case_decide as Ex.
  - subst x. rewrite (slot_None l r Hni). cbn. by rewrite decide_True.
  - destruct (slot l x); [done|]. cbn. by rewrite decide_False.
Qed.

Lemma stable_weaken (P Q : Z -> Prop) m satp va pa n : (forall x, Q x -> P x) -> stable Q m satp va pa n -> stable P m satp va pa n.
Proof. intros HPQ S m' H. apply S. intros x Hx. apply H. auto. Qed.

(** ** swtch() *)

(** swtch() is called on two contexts that are apart, in the kernel's direct map. *)
Record swtch_ready (h : hart) (cva cpa old new : Z) : Prop := {
  sw_regs : regs_ok h;
  sw_a0 : h_reg h R_a0 = old;
  sw_a1 : h_reg h R_a1 = new;
  sw_old : 0 <= old /\ old + 112 <= 18446744073709551616;
  sw_new : 0 <= new /\ new + 112 <= 18446744073709551616;
  sw_apart : old + 112 <= new \/ new + 112 <= old;
  sw_code : stable (outside old 112) (h_mem h) (h_csr h C_satp) cva cpa 1;
  sw_map_old : stable (outside old 112) (h_mem h) (h_csr h C_satp) old old 112;
  sw_map_new : stable (outside old 112) (h_mem h) (h_csr h C_satp) new new 112;
}.

Lemma slots_check n l : forallb (fun p => (0 <=? p.2) && (p.2 + 8 <=? n) && (p.2 mod 8 =? 0)) l = true -> slots_ok n l.
Proof.
  intros H. apply Forall_forall. intros p Hp. rewrite forallb_forall in H. specialize (H p ltac:(by apply list_elem_of_In)). zbool.
  split; [lia|]. split; [lia|]. by apply Z.mod_divide.
Qed.

Lemma context_slots : slots_ok 112 context.
Proof. by apply slots_check. Qed.

Lemma context_nodup : NoDup (context.*1) /\ NoDup (context.*2).
Proof. split; [apply (bool_decide_unpack (NoDup (context.*1)))|apply (bool_decide_unpack (NoDup (context.*2)))]; vm_compute; done. Qed.

Lemma swtch_run h cva cpa old new : swtch_ready h cva cpa old new ->
  exists h1, run_to cva cpa swtch h = Some (load64 (h_mem h) new, h1) /\
    (forall r o, (r, o) ∈ context -> h_reg h1 r = load64 (h_mem h) (new + o)) /\ (forall r, r ∉ context.*1 -> h_reg h1 r = h_reg h r) /\
    (forall x, ~ within old 112 x -> rd (h_mem h1) x = rd (h_mem h) x) /\ (forall r o, (r, o) ∈ context -> load64 (h_mem h1) (old + o) = h_reg h r).
Proof.
  intros [R A0 A1 [O1 O2] [N1 N2] Hap Sc So Sn]. destruct context_nodup as [Hn1 Hn2]. pose proof context_slots as Hs.
  change swtch with (stores R_a0 context ++ loads R_a1 context, Ret). unfold run_to. cbn [fst snd]. rewrite run_app.
  rewrite (run_stores R_a0 context h cva cpa old old 112 A0 O1 O2 Hs Sc So). cbn [mbind option_bind]. set (m' := saved _ _ _ _). set (hs := set_hmem m' h).
  assert (agree_on (outside old 112) (h_mem h) m') as Hag by (by apply agree_saved).
  assert (forall a b k, stable (outside old 112) (h_mem h) (h_csr h C_satp) a b k -> stable (fun _ => True) m' (h_csr h C_satp) a b k) as Hst.
  { intros a b k S. apply (stable_weaken _ (outside old 112)); [done|]. by apply (stable_agree _ (h_mem h)). }
  assert (forall o, 0 <= o -> o + 8 <= 112 -> load64 m' (new + o) = load64 (h_mem h) (new + o)) as Hld.
  { intros o H1 H2. symmetry. apply load_agree. intros x Hx. apply Hag. unfold outside, within in *. cbn in Hx. lia. }
  destruct (run_loads R_a1 context hs cva cpa new new 112 A1 N1 N2 Hs Hn1) as (h1 & E & Em & Ec & Er); [by apply Hst|by apply Hst|intros o Ho; exfalso; set_solver|].
  rewrite E. exists h1. cbn [go mbind option_bind]. unfold slots_ok in Hs. rewrite Forall_forall in Hs. split; [|split; [|split; [|split]]].
  - rewrite (Er R_ra). change (slot context R_ra) with (Some 0). cbn [h_mem hs set_hmem]. rewrite Hld by lia. by rewrite Z.add_0_r.
  - intros r o Hro. rewrite (Er r), (slot_in context r o Hn1 Hro). apply Hld; destruct (Hs _ Hro) as (? & ? & _); cbn in *; lia.
  - intros r Hr. rewrite (Er r), (slot_None context r Hr). done.
  - intros x Hx. rewrite Em. symmetry. by apply Hag.
  - intros r o Hro. rewrite Em. apply (load_saved _ _ 112); [apply context_slots|done|done|apply R].
Qed.

(** C38: A kernel thread that calls swtch(old, new) gets its registers back: swtch() goes on at
    the return address saved in [new] with the callee-saved registers saved there and leaves
    the others and the memory outside [old]; and any later swtch(other, old) before which
    [old] was not written returns to the thread with its [ra], [sp] and [s0]-[s11]. *)
Theorem swtch_roundtrip h cva cpa old new : swtch_ready h cva cpa old new ->
  exists h1, run_to cva cpa swtch h = Some (load64 (h_mem h) new, h1) /\
    (forall r o, (r, o) ∈ context -> h_reg h1 r = load64 (h_mem h) (new + o)) /\ (forall r, r ∉ context.*1 -> h_reg h1 r = h_reg h r) /\
    (forall x, ~ within old 112 x -> rd (h_mem h1) x = rd (h_mem h) x) /\
    forall h2 other, swtch_ready h2 cva cpa other old -> agree_on (within old 112) (h_mem h1) (h_mem h2) ->
      exists h3, run_to cva cpa swtch h2 = Some (h_reg h R_ra, h3) /\ forall r o, (r, o) ∈ context -> h_reg h3 r = h_reg h r.
Proof.
  intros Hr. destruct (swtch_run h cva cpa old new Hr) as (h1 & E & H1 & H2 & H3 & H4). exists h1. split; [done|]. split; [done|]. split; [done|]. split; [done|].
  intros h2 other Hr2 Hag. destruct (swtch_run h2 cva cpa other old Hr2) as (h3 & E' & G1 & _). exists h3.
  assert (forall r o, (r, o) ∈ context -> load64 (h_mem h2) (old + o) = h_reg h r) as Hl.
  { intros r o Hro. rewrite <- (H4 r o Hro). symmetry. apply load_agree. intros x Hx. apply Hag. pose proof context_slots as Hs. unfold slots_ok in Hs. rewrite Forall_forall in Hs.
    destruct (Hs _ Hro) as (? & ? & _). unfold within in *. cbn in *. lia. }
  split.
  - rewrite E'. do 2 f_equal. rewrite <- (Hl R_ra 0) by left. by rewrite Z.add_0_r.
  - intros r o Hro. rewrite (G1 r o Hro). by apply Hl.
Qed.

(** ** Traps from user space *)

(** The registers in struct trapframe; [a0] is saved and restored apart from the others. *)
Definition user_regs : list (reg * Z) :=
  [(R_ra, 40); (R_sp, 48); (R_gp, 56); (R_tp, 64); (R_t0, 72); (R_t1, 80); (R_t2, 88); (R_s0, 96); (R_s1, 104);
   (R_a1, 120); (R_a2, 128); (R_a3, 136); (R_a4, 144); (R_a5, 152); (R_a6, 160); (R_a7, 168); (R_s2, 176); (R_s3, 184); (R_s4, 192);
   (R_s5, 200); (R_s6, 208); (R_s7, 216); (R_s8, 224); (R_s9, 232); (R_s10, 240); (R_s11, 248); (R_t3, 256); (R_t4, 264); (R_t5, 272); (R_t6, 280)].
Definition kernel_regs : list (reg * Z) := [(R_sp, 8); (R_tp, 32); (R_t0, 16); (R_t1, 0)].

Lemma user_slots : slots_ok 288 user_regs.
Proof. by apply slots_check. Qed.
Lemma kernel_slots : slots_ok 288 kernel_regs.
Proof. by apply slots_check. Qed.
Lemma user_nodup : NoDup (user_regs.*1) /\ NoDup (user_regs.*2).
Proof. split; [apply (bool_decide_unpack (NoDup (user_regs.*1)))|apply (bool_decide_unpack (NoDup (user_regs.*2)))]; vm_compute; done. Qed.
Lemma kernel_nodup : NoDup (kernel_regs.*1).
Proof. apply (bool_decide_unpack (NoDup (kernel_regs.*1))). vm_compute. done. Qed.

Lemma user_slot r : r = R_a0 \/ exists o, (r, o) ∈ user_regs.
Proof. destruct r; try (by left); right; unfold user_regs; eexists; repeat first [by left|right]. Qed.

Lemma run_cons cva cpa i l h : tr h cva = Some cpa -> run cva cpa (i :: l) h = (h' ← exec1 i h; run cva cpa l h').
Proof. intros H. cbn. by rewrite decide_True. Qed.

(** A trap from user space: the trapframe and the trampoline are where the user's page table
    has them, and the kernel's page table has the trampoline at the same address. *)
Record user_trap (h : hart) (tf trampoline : Z) : Prop := {
  ut_regs : regs_ok h;
  ut_map : stable (outside tf 288) (h_mem h) (h_csr h C_satp) TRAPFRAME tf 288;
  ut_code : stable (outside tf 288) (h_mem h) (h_csr h C_satp) TRAMPOLINE trampoline 1;
  ut_kcode : stable (outside tf 288) (h_mem h) (load64 (h_mem h) tf) TRAMPOLINE trampoline 1;
}.

Lemma stable_tr P h va pa : stable P (h_mem h) (h_csr h C_satp) va pa 1 -> tr h va = Some pa.
Proof. intros S. pose proof (stable_now _ _ _ _ _ _ 0 S ltac:(lia)) as H. by rewrite !Z.add_0_r in H. Qed.

(** The memory uservec leaves. *)
Definition trapped (h : hart) (tf : Z) : mem :=
  store64 (saved (h_reg h) tf user_regs (h_mem h)) (tf + 112) (h_reg h R_a0).

Lemma saved_ext f g pa l : forall m, (forall p, p ∈ l -> f p.1 = g p.1) -> saved f pa l m = saved g pa l m.
Proof.
  induction l as [|p l IH]; intros m H; cbn; [done|]. rewrite (H p) by left. apply IH. intros q Hq. apply H. by right.
Qed.

Lemma a0_not_user : R_a0 ∉ user_regs.*1.
Proof. apply (bool_decide_unpack (R_a0 ∉ user_regs.*1)). vm_compute. done. Qed.

Lemma trapped_agree h tf : agree_on (outside tf 288) (h_mem h) (trapped h tf).
Proof. etrans; [apply (agree_saved (h_reg h) tf 288 user_regs), user_slots|by apply agree_store]. Qed.

Lemma trapped_kernel h tf o : 0 <= o -> o + 8 <= 40 -> (8 | o) -> load64 (trapped h tf) (tf + o) = load64 (h_mem h) (tf + o).
Proof.
  intros H1 H2 Hd. unfold trapped. rewrite load_store_ne by (cbn; lia). apply (load_saved_other _ _ 288); [apply user_slots|done|].
  intros p Hp E. unfold user_regs in Hp. repeat (apply elem_of_cons in Hp as [->|Hp]; [cbn in E; lia|]). by apply elem_of_nil in Hp.
Qed.

Lemma trapped_user h tf r o : regs_ok h -> (r, o) ∈ (R_a0, 112) :: user_regs -> load64 (trapped h tf) (tf + o) = h_reg h r.
Proof.
  intros R Hro. unfold trapped. apply elem_of_cons in Hro as [[= -> ->]|Hro]; [by apply load64_store64|].
  rewrite load_store_ne; [apply (load_saved _ _ 288); [apply user_slots|apply user_nodup|done|apply R]|].
  unfold user_regs in Hro. cbn. repeat (apply elem_of_cons in Hro as [[= -> ->]|Hro]; [lia|]). by apply elem_of_nil in Hro.
Qed.

Lemma uservec_run h tf tramp : user_trap h tf tramp ->
  exists h1, run_to TRAMPOLINE tramp uservec h = Some (load64 (h_mem h) (tf + 16), h1) /\ h_mem h1 = trapped h tf /\
    h_reg h1 R_sp = load64 (h_mem h) (tf + 8) /\ h_reg h1 R_tp = load64 (h_mem h) (tf + 32) /\ h_csr h1 C_satp = load64 (h_mem h) tf.
Proof.
  intros [R Sm Sc Sk]. destruct user_nodup as [Hn1 Hn2]. set (P := outside tf 288) in *.
  change uservec with ([Csrw C_sscratch R_a0; Li R_a0 TRAPFRAME] ++ stores R_a0 user_regs ++ [Csrr R_t0 C_sscratch; Sd R_t0 112 R_a0] ++
    loads R_a0 kernel_regs ++ [Sfence_vma; Csrw C_satp R_t1; Sfence_vma], Jr R_t0). unfold run_to. cbn [fst snd app].
  rewrite run_cons by (by apply (stable_tr P)). cbn [exec1 mbind option_bind]. rewrite run_cons by (by apply (stable_tr P)). cbn [exec1 mbind option_bind].
  set (h0 := set_reg R_a0 _ _). change (u64 TRAPFRAME) with TRAPFRAME in h0. rewrite run_app.
  rewrite (run_stores R_a0 user_regs h0 TRAMPOLINE tramp TRAPFRAME tf 288 eq_refl ltac:(done) ltac:(done) user_slots Sc Sm). cbn [mbind option_bind].
  assert (saved (h_reg h0) tf user_regs (h_mem h0) = saved (h_reg h) tf user_regs (h_mem h)) as ->.
  { apply saved_ext. intros p Hp. cbn. rewrite decide_False; [done|]. intros E. apply a0_not_user. rewrite <- E. by apply (list_elem_of_fmap_2 fst). }
  set (m1 := saved _ _ _ _). assert (agree_on P (h_mem h) m1) as A1 by (apply agree_saved, user_slots).
  rewrite run_cons by (apply (stable_tr P); by apply (stable_agree _ (h_mem h))). cbn [exec1 mbind option_bind].
  set (hx := set_reg R_t0 _ _). rewrite run_cons by (apply (stable_tr P hx); by apply (stable_agree _ (h_mem h))).
  assert (exec1 (Sd R_t0 112 R_a0) hx = Some (set_hmem (store64 m1 (tf + 112) (h_reg h R_a0)) hx)) as ->.
  { cbn [exec1]. change (tr hx (u64 (h_reg hx R_a0 + 112))) with (translate m1 (h_csr h C_satp) (TRAPFRAME + 112)). by rewrite (Sm m1 A1 112) by lia. }
  cbn [mbind option_bind]. set (h2 := set_hmem _ _).
  assert (h_mem h2 = trapped h tf) as E2 by done. pose proof (trapped_agree h tf) as A2. fold P in A2. rewrite <- E2 in A2.
  assert (forall m a b k, stable P (h_mem h) m a b k -> stable (fun _ => True) (h_mem h2) m a b k) as Hst.
  { intros m a b k S. apply (stable_weaken _ P); [done|]. by apply (stable_agree _ (h_mem h)). }
  rewrite run_app. destruct (run_loads R_a0 kernel_regs h2 TRAMPOLINE tramp TRAPFRAME tf 288 eq_refl ltac:(done) ltac:(done) kernel_slots kernel_nodup) as (h3 & -> & Em & Ec & Er);
    [by apply Hst|by apply Hst|intros o Ho; exfalso; unfold kernel_regs in Ho; set_solver|].
  cbn [mbind option_bind]. assert (h_csr h3 C_satp = h_csr h C_satp) as Es by (by rewrite Ec).
  assert (forall k c, stable P (h_mem h) c TRAMPOLINE tramp k -> stable (fun _ => True) (h_mem h3) c TRAMPOLINE tramp k) as Hst3 by (intros k c S; rewrite Em; by apply Hst).
  rewrite run_cons by (apply (stable_tr (fun _ => True)); rewrite Es; by apply Hst3). cbn [exec1 mbind option_bind].
  rewrite run_cons by (apply (stable_tr (fun _ => True)); rewrite Es; by apply Hst3). cbn [exec1 mbind option_bind]. set (h4 := set_csr _ _ h3).
  assert (forall o, 0 <= o -> o + 8 <= 40 -> (8 | o) -> load64 (h_mem h2) (tf + o) = load64 (h_mem h) (tf + o)) as Hk by (intros; rewrite E2; by apply trapped_kernel).
  assert (h_csr h4 C_satp = load64 (h_mem h) tf) as E4.
  { cbn. rewrite (Er R_t1). change (slot kernel_regs R_t1) with (Some 0). cbn iota. rewrite Hk by (done || lia || by exists 0). by rewrite Z.add_0_r. }
  rewrite run_cons by (apply (stable_tr (fun _ => True)); rewrite E4; by apply Hst3). cbn [exec1 mbind option_bind run go]. exists h4.
  split; [|split; [by rewrite <- E2|split; [|split; [|done]]]].
  - cbn [h4 h_reg set_csr]. rewrite (Er R_t0). change (slot kernel_regs R_t0) with (Some 16). cbn iota. rewrite Hk by (done || lia || by exists 2). done.
  - cbn [h4 h_reg set_csr]. rewrite (Er R_sp). change (slot kernel_regs R_sp) with (Some 8). cbn iota. apply Hk; (done || lia || by exists 1).
  - cbn [h4 h_reg set_csr]. rewrite (Er R_tp). change (slot kernel_regs R_tp) with (Some 32). cbn iota. apply Hk; (done || lia || by exists 4).
Qed.

(** Back to user space: [a0] is the user's [satp]. *)
Record user_return (h : hart) (usatp tf trampoline : Z) : Prop := {
  ur_a0 : h_reg h R_a0 = usatp;
  ur_kcode : stable (fun _ => True) (h_mem h) (h_csr h C_satp) TRAMPOLINE trampoline 1;
  ur_code : stable (fun _ => True) (h_mem h) usatp TRAMPOLINE trampoline 1;
  ur_map : stable (fun _ => True) (h_mem h) usatp TRAPFRAME tf 288;
}.

Lemma userret_run h usatp tf tramp : user_return h usatp tf tramp ->
  exists h1, run_to TRAMPOLINE tramp userret h = Some (h_csr h C_sepc, h1) /\ h_mem h1 = h_mem h /\ h_csr h1 C_satp = usatp /\
    forall r o, (r, o) ∈ (R_a0, 112) :: user_regs -> h_reg h1 r = load64 (h_mem h) (tf + o).
Proof.
  intros [A0 Sk Sc Sm]. destruct user_nodup as [Hn1 _].
  change userret with ([Sfence_vma; Csrw C_satp R_a0; Sfence_vma; Li R_a0 TRAPFRAME] ++ loads R_a0 user_regs ++ [Ld R_a0 112 R_a0], Sret). unfold run_to. cbn [fst snd app].
  rewrite run_cons by (by eapply stable_tr). cbn [exec1 mbind option_bind]. rewrite run_cons by (by eapply stable_tr). cbn [exec1 mbind option_bind]. rewrite A0.
  set (h0 := set_csr C_satp usatp h). rewrite run_cons by (by eapply (stable_tr _ h0)). cbn [exec1 mbind option_bind]. rewrite run_cons by (by eapply (stable_tr _ h0)). cbn [exec1 mbind option_bind].
  change (u64 TRAPFRAME) with TRAPFRAME. set (h1 := set_reg R_a0 TRAPFRAME h0). rewrite run_app.
  destruct (run_loads R_a0 user_regs h1 TRAMPOLINE tramp TRAPFRAME tf 288 eq_refl ltac:(done) ltac:(done) user_slots Hn1 Sc Sm) as (h2 & -> & Em & Ec & Er).
  { intros o Ho. destruct a0_not_user. by apply (list_elem_of_fmap_2' fst user_regs (R_a0, o)). }
  cbn [mbind option_bind]. rewrite run_cons by (eapply (stable_tr (fun _ => True)); by rewrite Em, Ec). cbn [exec1 run]. rewrite (Er R_a0), (slot_None user_regs R_a0 a0_not_user).
  cbn [h1 h_reg set_reg]. rewrite decide_True by done. unfold tr. rewrite Em, Ec. change (u64 (TRAPFRAME + 112)) with (TRAPFRAME + 112).
  cbn [h_mem h_csr h1 h0 set_reg set_csr]. rewrite decide_True by done. rewrite (stable_now _ _ _ _ _ _ 112 Sm) by lia. cbn [mbind option_bind]. eexists. split; [cbn [go h_csr set_reg]; rewrite Ec; done|].
  split; [done|]. split; [cbn; by rewrite Ec|]. intros r o Hro. apply elem_of_cons in Hro as [[= -> ->]|Hro]; [cbn; by rewrite decide_True|].
  cbn [h_reg set_reg]. rewrite decide_False; [|intros ->; destruct a0_not_user; by apply (list_elem_of_fmap_2' fst user_regs (R_a0, o))]. by rewrite (Er r), (slot_in user_regs r o Hn1 Hro).
Qed.

(** C17: A trap from user space saves every user register in the trapframe, changes no memory
    outside it nor the kernel's fields in it, and goes on at [kernel_trap] with the kernel's
    page table, stack and hart id, all from the trapframe; the return to user space, with
    whatever the kernel then left in the trapframe, switches to the user's page table, goes
    on at [sepc] and gives back every register whose slot is as it was: all 31 when the
    kernel wrote none. *)
Theorem user_trap_roundtrip h tf tramp : user_trap h tf tramp ->
  exists h1, run_to TRAMPOLINE tramp uservec h = Some (load64 (h_mem h) (tf + 16), h1) /\
    h_csr h1 C_satp = load64 (h_mem h) tf /\ h_reg h1 R_sp = load64 (h_mem h) (tf + 8) /\ h_reg h1 R_tp = load64 (h_mem h) (tf + 32) /\
    agree_on (outside tf 288) (h_mem h) (h_mem h1) /\ (forall o, 0 <= o -> o + 8 <= 40 -> (8 | o) -> load64 (h_mem h1) (tf + o) = load64 (h_mem h) (tf + o)) /\
    forall h2 usatp, user_return h2 usatp tf tramp ->
      exists h3, run_to TRAMPOLINE tramp userret h2 = Some (h_csr h2 C_sepc, h3) /\ h_mem h3 = h_mem h2 /\ h_csr h3 C_satp = usatp /\
        (forall r o, (r, o) ∈ (R_a0, 112) :: user_regs -> load64 (h_mem h2) (tf + o) = load64 (h_mem h1) (tf + o) -> h_reg h3 r = h_reg h r) /\
        (agree_on (within tf 288) (h_mem h1) (h_mem h2) -> forall r, h_reg h3 r = h_reg h r).
Proof.
  intros Hu. destruct (uservec_run h tf tramp Hu) as (h1 & E & Em & H1 & H2 & H3). exists h1. rewrite Em. do 4 (split; [done|]). split; [apply trapped_agree|].
  split; [intros; by apply trapped_kernel|]. intros h2 usatp Hr. destruct (userret_run h2 usatp tf tramp Hr) as (h3 & E' & Em' & Es & Er). exists h3. do 3 (split; [done|]).
  assert (forall r o, (r, o) ∈ (R_a0, 112) :: user_regs -> load64 (h_mem h2) (tf + o) = load64 (trapped h tf) (tf + o) -> h_reg h3 r = h_reg h r) as Hslot.
  { intros r o Hro Hl. rewrite (Er r o Hro), Hl. apply trapped_user; [apply Hu|done]. }
  split; [done|]. intros Hag r.
  assert (exists o, (r, o) ∈ (R_a0, 112) :: user_regs) as [o Ho] by (destruct (user_slot r) as [->|[o Ho]]; [exists 112; left|exists o; by right]).
  apply (Hslot r o Ho). symmetry. apply load_agree. intros x Hx. apply Hag. apply elem_of_cons in Ho as [[= -> ->]|Ho]; [unfold within in *; cbn in *; lia|].
  pose proof user_slots as Hs. unfold slots_ok in Hs. rewrite Forall_forall in Hs. destruct (Hs _ Ho) as (? & ? & _). unfold within in *. cbn in *. lia.
Qed.

(** ** Traps from the kernel *)

Definition frame_regs : list (reg * Z) :=
  [(R_ra, 0); (R_sp, 8); (R_gp, 16); (R_tp, 24); (R_t0, 32); (R_t1, 40); (R_t2, 48); (R_s0, 56); (R_s1, 64); (R_a0, 72); (R_a1, 80); (R_a2, 88);
   (R_a3, 96); (R_a4, 104); (R_a5, 112); (R_a6, 120); (R_a7, 128); (R_s2, 136); (R_s3, 144); (R_s4, 152); (R_s5, 160); (R_s6, 168); (R_s7, 176);
   (R_s8, 184); (R_s9, 192); (R_s10, 200); (R_s11, 208); (R_t3, 216); (R_t4, 224); (R_t5, 232); (R_t6, 240)].
Definition frame_back : list (reg * Z) :=
  [(R_ra, 0); (R_sp, 8); (R_gp, 16); (R_t0, 32); (R_t1, 40); (R_t2, 48); (R_s0, 56); (R_s1, 64); (R_a0, 72); (R_a1, 80); (R_a2, 88);
   (R_a3, 96); (R_a4, 104); (R_a5, 112); (R_a6, 120); (R_a7, 128); (R_s2, 136); (R_s3, 144); (R_s4, 152); (R_s5, 160); (R_s6, 168); (R_s7, 176);
   (R_s8, 184); (R_s9, 192); (R_s10, 200); (R_s11, 208); (R_t3, 216); (R_t4, 224); (R_t5, 232); (R_t6, 240)].

Lemma frame_back_spec r o : (r, o) ∈ frame_back <-> r <> R_tp /\ (r, o) ∈ frame_regs.
Proof.
  assert (frame_back = filter (fun p => p.1 <> R_tp) frame_regs) as -> by (vm_compute; reflexivity). by rewrite list_elem_of_filter.
Qed.

Lemma frame_slots : slots_ok 256 frame_regs /\ slots_ok 256 frame_back.
Proof. split; by apply slots_check. Qed.
Lemma frame_nodup : NoDup (frame_back.*1) /\ NoDup (frame_regs.*2).
Proof. split; [apply (bool_decide_unpack (NoDup (frame_back.*1)))|apply (bool_decide_unpack (NoDup (frame_regs.*2)))]; vm_compute; done. Qed.
Lemma frame_reg r : exists o, (r, o) ∈ frame_regs.
Proof. destruct r; unfold frame_regs; eexists; repeat first [by left|right]. Qed.

(** An interrupt in the kernel with stack pointer [s]: the 256 bytes below it, and the code,
    are mapped. *)
Record kernel_trap (h : hart) (s ps cva cpa : Z) : Prop := {
  kt_sp : 256 <= s < 18446744073709551616;
  kt_map : stable (outside ps 256) (h_mem h) (h_csr h C_satp) (s - 256) ps 256;
  kt_code : stable (outside ps 256) (h_mem h) (h_csr h C_satp) cva cpa 1;
}.

(** kernelvec: an interrupt pushes every register and calls kerneltrap(); when that returns
    with the stack pointer it was called with and the 256 bytes of the frame unchanged, all
    registers are as they were at the interrupt, but [tp], which is kerneltrap()'s (the
    thread may have moved to another CPU), and the interrupted code goes on at [sepc]. *)
Theorem kernel_trap_roundtrip h s ps cva cpa kerneltrap : regs_ok h -> h_reg h R_sp = s -> kernel_trap h s ps cva cpa ->
  exists h1, run_to cva cpa (kernelvec_save kerneltrap) h = Some (kerneltrap, h1) /\ h_reg h1 R_sp = s - 256 /\ agree_on (outside ps 256) (h_mem h) (h_mem h1) /\
    forall h2, h_reg h2 R_sp = s - 256 -> agree_on (within ps 256) (h_mem h1) (h_mem h2) -> kernel_trap h2 s ps cva cpa ->
      exists h3, run_to cva cpa kernelvec_restore h2 = Some (h_csr h2 C_sepc, h3) /\ h_mem h3 = h_mem h2 /\ h_csr h3 = h_csr h2 /\
        h_reg h3 R_tp = h_reg h2 R_tp /\ forall r, r <> R_tp -> h_reg h3 r = h_reg h r.
Proof.
  intros R Hs [Hr Sm Sc]. destruct frame_slots as [Fs Fb], frame_nodup as [Fn1 Fn2].
  change (kernelvec_save kerneltrap) with (Addi R_sp R_sp (-256) :: stores R_sp frame_regs, Call kerneltrap). unfold run_to at 1. cbn [fst snd].
  rewrite run_cons by (by eapply stable_tr). cbn [exec1 mbind option_bind]. rewrite Hs. assert (u64 (s + -256) = s - 256) as -> by (rewrite u64_small; lia).
  set (h0 := set_reg R_sp (s - 256) h). rewrite (run_stores R_sp frame_regs h0 cva cpa (s - 256) ps 256); [|cbn; by rewrite decide_True|lia|lia|done|done|done].
  cbn [mbind option_bind go]. set (h1 := set_hmem _ h0). exists h1. split; [done|]. split; [cbn; by rewrite decide_True|]. split; [by apply agree_saved|].
  assert (regs_ok h0) as R0. { intros r. cbn. case_decide; [lia|apply R]. }
  intros h2 Hsp Hag [_ Sm2 Sc2]. change kernelvec_restore with (loads R_sp frame_back ++ [Addi R_sp R_sp 256], Sret). unfold run_to. cbn [fst snd]. rewrite run_app.
  assert (forall r o, (r, o) ∈ frame_regs -> load64 (h_mem h2) (ps + o) = h_reg h0 r) as Hl.
  { intros r o Hro. etrans; [|apply (load_saved (h_reg h0) ps 256 frame_regs (h_mem h0) r o Fs Fn2 Hro (R0 r))]. symmetry. apply load_agree. intros x Hx. apply Hag.
    unfold slots_ok in Fs. rewrite Forall_forall in Fs. destruct (Fs _ Hro) as (? & ? & _). unfold within in *. cbn in *. lia. }
  pose proof frame_back_spec as Hback.
  assert (forall a b k, stable (outside ps 256) (h_mem h2) (h_csr h2 C_satp) a b k -> stable (fun _ => True) (h_mem h2) (h_csr h2 C_satp) a b k) as Hst
    by (intros a b k S; by apply (stable_weaken _ (outside ps 256))).
  destruct (run_loads R_sp frame_back h2 cva cpa (s - 256) ps 256 Hsp ltac:(lia) ltac:(lia) Fb Fn1) as (h3 & -> & Em & Ec & Er); [by apply Hst|by apply Hst| |].
  { intros o Ho. apply Hback in Ho as [_ Ho]. rewrite (Hl R_sp o Ho). cbn. by rewrite decide_True. }
  assert (forall r, r <> R_tp -> h_reg h3 r = h_reg h0 r) as Hall.
  { intros r Hne. destruct (frame_reg r) as [o Ho]. rewrite (Er r), (slot_in frame_back r o Fn1) by (by apply Hback). by apply Hl. }
  cbn [mbind option_bind]. rewrite run_cons by (apply (stable_tr (fun _ => True)); rewrite Em, Ec; by apply Hst). cbn [exec1 mbind option_bind run go].
  rewrite (Hall R_sp) by done. cbn [h0 h_reg set_reg]. rewrite decide_True by done. assert (u64 (s - 256 + 256) = s) as -> by (rewrite u64_small; lia).
  eexists. split; [cbn [h_csr set_reg]; by rewrite Ec|]. split; [done|]. split; [done|]. split.
  - cbn. rewrite (Er R_tp), slot_None; [done|]. intros Hin. apply list_elem_of_fmap in Hin as ([r o] & E & Hin). apply Hback in Hin as [Hne _]. by subst.
  - intros r Hne. cbn. case_decide as E; [by subst|]. rewrite (Hall r Hne). cbn. by rewrite decide_False.
Qed.
End Spec.

(** ** Machine mode *)

(** Machine mode does not translate addresses. *)
Definition bare_mmu : Mmu := fun _ _ va => Some va.

(** Reads of registers just written. *)
Ltac regs := repeat first [rewrite decide_True by done | rewrite decide_False by done].

Ltac mach Hs Hu := cbn [exec1 mbind option_bind tr translate bare_mmu h_reg h_csr h_mem set_reg set_csr set_hmem]; regs; rewrite ?Hs, ?Hu by lia.

Lemma run_bare a i l h : run (mmu := bare_mmu) a a (i :: l) h = (h' ← exec1 (mmu := bare_mmu) i h; run (mmu := bare_mmu) a a l h').
Proof. by apply run_cons. Qed.

(** entry.S gives hart [n] the [n]th page of [stack0]: the stack pointer starts at its end. *)
Theorem entry_stack stack0 start a h : 0 <= stack0 -> 0 <= h_csr h C_mhartid -> stack0 + 4096 * (h_csr h C_mhartid + 1) < 18446744073709551616 ->
  exists h', run_to (mmu := bare_mmu) a a (entry stack0 start) h = Some (start, h') /\ h_reg h' R_sp = stack0 + 4096 * (h_csr h C_mhartid + 1) /\ h_mem h' = h_mem h.
Proof.
  intros H0 H1 H2. unfold run_to, entry. cbn [fst snd]. rewrite !run_bare. eexists. cbn [exec1 mbind option_bind]. rewrite !run_bare. cbn [exec1 mbind option_bind].
  repeat (rewrite run_bare; cbn [exec1 mbind option_bind]). cbn [run]. split; [done|]. split; [|done]. cbn. regs. change (u64 (1024 * 4)) with 4096.
  rewrite (u64_small (h_csr h C_mhartid + 1)), (u64_small (4096 * _)), (u64_small stack0), u64_small by lia. done.
Qed.

Lemma load_ne m a b v : a + 8 <= b \/ b + 8 <= a -> load64 (store64 m a v) b = load64 m b.
Proof. apply (load_store_ne 8 8). Qed.

(** timervec: every register and [mscratch] are as before, the next interrupt is [interval]
    cycles after the last one, a software interrupt is pending, and no other memory changes
    but the three words of the scratch area. *)
Theorem timervec_correct a h sc cmp : regs_ok h -> h_csr h C_mscratch = sc -> 0 <= sc -> sc + 40 <= 18446744073709551616 ->
  load64 (h_mem h) (sc + 24) = cmp -> 0 <= cmp < 18446744073709551616 -> sc + 40 <= cmp \/ cmp + 8 <= sc ->
  exists h', run_to (mmu := bare_mmu) a a timervec h = Some (h_csr h C_mepc, h') /\ (forall r, h_reg h' r = h_reg h r) /\ h_csr h' C_mscratch = sc /\ h_csr h' C_sip = 2 /\
    load64 (h_mem h') cmp = u64 (load64 (h_mem h) cmp + load64 (h_mem h) (sc + 32)) /\
    forall x, ~ within sc 24 x -> ~ within cmp 8 x -> rd (h_mem h') x = rd (h_mem h) x.
Proof.
  intros R Hs S1 S2 Hcmp Hc Hap. unfold run_to, timervec. cbn [fst snd].
  assert (forall o, 0 <= o < 40 -> u64 (sc + o) = sc + o) as Hu by (intros o Ho; apply u64_small; lia).
  assert (u64 (cmp + 0) = cmp) as Hu0 by (rewrite u64_small; lia).
  do 4 (rewrite run_bare; mach Hs Hu). set (m1 := store64 (store64 (store64 _ _ _) _ _) _ _).
  assert (load64 m1 (sc + 24) = cmp /\ load64 m1 (sc + 32) = load64 (h_mem h) (sc + 32) /\ load64 m1 cmp = load64 (h_mem h) cmp) as (L1 & L2 & L3).
  { unfold m1. rewrite !load_ne by lia. done. }
  do 5 (rewrite run_bare; mach Hs Hu; rewrite ?L1, ?L2, ?Hu0, ?L3). set (m2 := store64 m1 cmp _).
  assert (load64 m2 (sc + 16) = h_reg h R_a3 /\ load64 m2 (sc + 8) = h_reg h R_a2 /\ load64 m2 (sc + 0) = h_reg h R_a1) as (K1 & K2 & K3).
  { unfold m2, m1. rewrite !(load_ne _ cmp) by lia. rewrite (load64_store64 _ (sc + 16)) by apply R. rewrite (load_ne _ (sc + 16)), (load64_store64 _ (sc + 8)) by (apply R || lia).
    rewrite (load_ne _ (sc + 16)), (load_ne _ (sc + 8)), load64_store64 by (apply R || lia). done. }
  do 6 (rewrite run_bare; mach Hs Hu; rewrite ?K1, ?K2, ?K3). cbn [run mbind option_bind]. eexists. split; [done|]. split; [|split; [|split; [|split]]].
  - intros r. cbn. destruct r; regs; done.
  - cbn. regs. done.
  - cbn. regs. done.
  - cbn [h_mem set_reg set_csr set_hmem]. apply load64_store64. apply Z.mod_pos_bound. lia.
  - intros x H1 H2. cbn [h_mem set_reg set_csr set_hmem]. unfold m2, m1. rewrite !rd_store_out; [done|..]; unfold within in *; cbn; lia.
Qed.

(** ** A machine *)

(** The kernel's direct map, the trampoline, and one trapframe. *)
Definition demo_mmu : Mmu := fun _ _ va =>
  Some (if (TRAPFRAME <=? va) && (va <? TRAPFRAME + 4096) then va - TRAPFRAME + 0x87fff000
        else if TRAMPOLINE <=? va then va - TRAMPOLINE + 0x80007000 else va).
Definition demo_hart : hart :=
  Hart (fun r => match r with R_a0 => 0x80010000 | R_a1 => 0x80011000 | R_sp => 0x80020000 | R_ra => 0x80001234 | _ => 77 end) (fun c => 5)
    (store64 (store64 ∅ 0x87fff010 0x80002000) 0x80020024 0x2004000).
Definition demo_later : hart :=
  Hart (fun r => match r with R_a0 => 0x80012000 | R_a1 => 0x80010000 | R_sp => 0x80020000 | _ => 88 end) (fun c => 5) ∅.

Lemma demo_stable (P : Z -> Prop) m satp va n : 0 <= va -> va + n <= TRAPFRAME -> stable (mmu := demo_mmu) P m satp va va n.
Proof.
  intros H1 H2 m' _ o Ho. unfold translate, demo_mmu. zcase (TRAPFRAME <=? va + o); [lia|]. zcase (TRAMPOLINE <=? va + o); [unfold TRAPFRAME, TRAMPOLINE, MAXVA, PGSIZE in *; lia|]. done.
Qed.

Lemma demo_trapframe (P : Z -> Prop) m satp n : 0 <= n <= 4096 -> stable (mmu := demo_mmu) P m satp TRAPFRAME 0x87fff000 n.
Proof.
  intros Hn m' _ o Ho. unfold translate, demo_mmu. zcase (TRAPFRAME <=? TRAPFRAME + o); [|lia]. zcase (TRAPFRAME + o <? TRAPFRAME + 4096); [|lia]. cbn [andb]. f_equal. lia.
Qed.

Lemma demo_trampoline (P : Z -> Prop) m satp : stable (mmu := demo_mmu) P m satp TRAMPOLINE 0x80007000 1.
Proof. intros m' _ o Ho. assert (o = 0) as -> by lia. done. Qed.

Lemma demo_regs_ok : regs_ok demo_hart /\ regs_ok demo_later.
Proof. split; intros r; destruct r; cbn; lia. Qed.

Lemma demo_swtch_ready h old new : regs_ok h -> h_reg h R_a0 = old -> h_reg h R_a1 = new -> 0x80000000 <= old < 0x88000000 -> 0x80000000 <= new < 0x88000000 ->
  (old + 112 <= new \/ new + 112 <= old) -> swtch_ready (mmu := demo_mmu) h 0x80000000 0x80000000 old new.
Proof. intros. split; try done; try lia; apply demo_stable; change TRAPFRAME with 274877898752; lia. Qed.

Lemma swtch_roundtrip_witness : exists h1, run_to (mmu := demo_mmu) 0x80000000 0x80000000 swtch demo_hart = Some (0, h1) /\
  exists h3, run_to (mmu := demo_mmu) 0x80000000 0x80000000 swtch (set_hmem (h_mem h1) demo_later) = Some (0x80001234, h3) /\ h_reg h3 R_s3 = 77.
Proof.
  assert (swtch_ready (mmu := demo_mmu) demo_hart 0x80000000 0x80000000 0x80010000 0x80011000) as Hr by (apply demo_swtch_ready; [apply demo_regs_ok|reflexivity|reflexivity|lia|lia|lia]).
  destruct (swtch_roundtrip (mmu := demo_mmu) demo_hart 0x80000000 0x80000000 0x80010000 0x80011000 Hr) as (h1 & E & _ & _ & _ & H).
  assert (load64 (h_mem demo_hart) 0x80011000 = 0) as E0 by (vm_compute; reflexivity). rewrite E0 in E. exists h1. split; [exact E|].
  destruct (H (set_hmem (h_mem h1) demo_later) 0x80012000) as (h3 & E3 & G).
  - apply demo_swtch_ready; [apply demo_regs_ok|reflexivity|reflexivity|lia|lia|lia].
  - intros x _. reflexivity.
  - exists h3. split; [exact E3|]. apply (G R_s3 40). unfold context. do 5 right. left.
Defined.

Lemma user_trap_roundtrip_witness : exists h1, run_to (mmu := demo_mmu) TRAMPOLINE 0x80007000 uservec demo_hart = Some (0x80002000, h1) /\
  exists h3, run_to (mmu := demo_mmu) TRAMPOLINE 0x80007000 userret (set_reg R_a0 9 h1) = Some (h_csr h1 C_sepc, h3) /\ forall r, h_reg h3 r = h_reg demo_hart r.
Proof.
  destruct (user_trap_roundtrip (mmu := demo_mmu) demo_hart 0x87fff000 0x80007000) as (h1 & E & _ & _ & _ & _ & _ & H).
  { split; [apply demo_regs_ok|apply demo_trapframe; lia|apply demo_trampoline|apply demo_trampoline]. }
  assert (load64 (h_mem demo_hart) (0x87fff000 + 16) = 0x80002000) as E0 by (vm_compute; reflexivity). rewrite E0 in E. exists h1. split; [exact E|].
  destruct (H (set_reg R_a0 9 h1) 9) as (h3 & E3 & _ & _ & _ & G).
  { split; [reflexivity|apply demo_trampoline|apply demo_trampoline|apply demo_trapframe; lia]. }
  exists h3. split; [exact E3|]. apply G. intros x _. reflexivity.
Defined.

Lemma kernel_trap_roundtrip_witness : exists h1, run_to (mmu := demo_mmu) 0x80005000 0x80005000 (kernelvec_save 0x80003000) demo_hart = Some (0x80003000, h1) /\
  exists h3, run_to (mmu := demo_mmu) 0x80005000 0x80005000 kernelvec_restore (set_reg R_sp (0x80020000 - 256) (set_hmem (h_mem h1) demo_later)) = Some (5, h3) /\
    h_reg h3 R_tp = 88 /\ h_reg h3 R_a5 = 77.
Proof.
  assert (forall h, kernel_trap (mmu := demo_mmu) h 0x80020000 (0x80020000 - 256) 0x80005000 0x80005000) as Hk.
  { intros h. split; [lia|apply demo_stable; change TRAPFRAME with 274877898752; lia|apply demo_stable; change TRAPFRAME with 274877898752; lia]. }
  destruct (kernel_trap_roundtrip (mmu := demo_mmu) demo_hart 0x80020000 (0x80020000 - 256) 0x80005000 0x80005000 0x80003000 (proj1 demo_regs_ok) eq_refl (Hk _)) as (h1 & E & _ & _ & H).
  exists h1. split; [exact E|].
  destruct (H (set_reg R_sp (0x80020000 - 256) (set_hmem (h_mem h1) demo_later))) as (h3 & E3 & _ & _ & Ht & G); [reflexivity|intros x _; reflexivity|apply Hk|].
  exists h3. split; [exact E3|]. split; [exact Ht|]. apply G. discriminate.
Defined.

Lemma timervec_correct_witness : exists h', run_to (mmu := bare_mmu) 0x80005000 0x80005000 timervec (set_csr C_mscratch 0x8002000c demo_hart) = Some (5, h') /\ h_csr h' C_sip = 2.
Proof.
  destruct (timervec_correct 0x80005000 (set_csr C_mscratch 0x8002000c demo_hart) 0x8002000c 0x2004000) as (h' & E & _ & _ & H & _);
    [apply demo_regs_ok|reflexivity|lia|lia|vm_compute; reflexivity|lia|lia|exists h'; split; [exact E|exact H]].
Defined.

Lemma entry_stack_witness : exists h', run_to (mmu := bare_mmu) 0x80000000 0x80000000 (entry 0x80008000 0x80001000) demo_hart = Some (0x80001000, h') /\ h_reg h' R_sp = 0x8000e000.
Proof.
  destruct (entry_stack 0x80008000 0x80001000 0x80000000 demo_hart) as (h' & E & H & _); try (cbn; lia). exists h'. split; [exact E|exact H].
Defined.
