(* ===== verification/Trap.v ===== *)
(** * Traps and interrupts (kernel/trap.c, kernel/plic.c)

    Over the console with the kernel's state, the supervisor's control registers, the
    interrupt controller and the disk driver.  The interrupt controller's registers are a
    parameter.  [sstatus] is part of the thread's context. *)
From S2P Require Import Prelude Bytes Memory Machine Riscv Kalloc Vm Kernel Pipe Proc Sys User Uprintf Uart Console Virtio.

(** ** State *)

(** The control registers trap.c uses, and [tp]. *)
Record csrs := Csrs { r_stvec : Z; r_sepc : Z; r_scause : Z; r_stval : Z; r_satp : Z; r_sip : Z; r_tp : Z }.

Definition set_stvec (x : Z) (r : csrs) : csrs := Csrs x (r_sepc r) (r_scause r) (r_stval r) (r_satp r) (r_sip r) (r_tp r).
Definition set_sepc (x : Z) (r : csrs) : csrs := Csrs (r_stvec r) x (r_scause r) (r_stval r) (r_satp r) (r_sip r) (r_tp r).
Definition set_satp (x : Z) (r : csrs) : csrs := Csrs (r_stvec r) (r_sepc r) (r_scause r) (r_stval r) x (r_sip r) (r_tp r).
Definition set_sip (x : Z) (r : csrs) : csrs := Csrs (r_stvec r) (r_sepc r) (r_scause r) (r_stval r) (r_satp r) x (r_tp r).

(** The interrupt controller: 32-bit loads and stores. *)
Class PlicDev (P : Type) := {
  plic_load : Z -> P -> Z * P;
  plic_store : Z -> Z -> P -> P;
}.

Record machine (D P : Type) := Mach { t_con : con D; t_csr : csrs; t_plic : P; t_disk : disk }.
Arguments Mach {D P} t_con t_csr t_plic t_disk.
Arguments t_con {D P} m.
Arguments t_csr {D P} m.
Arguments t_plic {D P} m.
Arguments t_disk {D P} m.

(** ** virtio_disk_intr() on its own

    The steps of [intr_step] without another thread or the device in between; there are at
    most as many rounds as entries in the used ring. *)
Fixpoint virtio_intr_loop (k : nat) : M disk unit :=
  d <- get ;;
  if k_used_idx d =? k_uidx d then ret tt else
  match k with
  | O => fun _ _ => Diverge
  | S k' =>
      let id := znth 0 (k_uring d) (k_used_idx d mod NUM) in
      if truth (k_status d id) then panic "virtio_disk_intr status" else
      match k_b d id with
      | None => panic "null b"
      | Some b =>
          modify (fun d => set_buf (set b (VBuf (vb_blockno (k_buf d b)) (vb_data (k_buf d b)) 0) (k_buf d)) d) ;;
          wakeup (ChDisk b) ;;
          modify (fun d => set_used_idx (u16 (k_used_idx d + 1)) d) ;;
          virtio_intr_loop k'
      end
  end.

Definition virtio_disk_intr : M disk unit :=
  acquire LVdisk ;;
  d <- get ;;
  virtio_intr_loop (Z.to_nat ((k_uidx d - k_used_idx d) mod 65536)) ;;
  release LVdisk.

Section Trap.
Context {D P : Type} `{!UartChip D} `{!PlicDev P} {image : KernelImage} {dsw : DevSw} {syms : KernelSymbols} {junk : StackJunk}.
Abbreviation mach := (machine D P).

Definition set_tcon (x : con D) (s : mach) : mach := Mach x (t_csr s) (t_plic s) (t_disk s).
Definition set_tcsr (x : csrs) (s : mach) : mach := Mach (t_con s) x (t_plic s) (t_disk s).
Definition set_tplic (x : P) (s : mach) : mach := Mach (t_con s) (t_csr s) x (t_disk s).
Definition set_tdisk (x : disk) (s : mach) : mach := Mach (t_con s) (t_csr s) (t_plic s) x.

Definition on_con : lens mach (con D) := Lens t_con set_tcon.
Definition on_tkst : lens mach kst := Lens (fun s => cn_k (t_con s)) (fun k s => set_tcon (set_cnk k (t_con s)) s).
Definition on_vdisk : lens mach disk := Lens t_disk set_tdisk.
Definition con_ {A} (m : M (con D) A) : M mach A := zoom on_con m.
Definition tk_ {A} (m : M kst A) : M mach A := zoom on_tkst m.
Definition disk_ {A} (m : M disk A) : M mach A := zoom on_vdisk m.
Definition rcsr (f : csrs -> Z) : M mach Z := gets (fun s => f (t_csr s)).
Definition wcsr (f : csrs -> csrs) : M mach unit := modify (fun s => set_tcsr (f (t_csr s)) s).
Definition trap_printf (fmt : string) (ap : list varg) : M mach unit := con_ (kprintf (Some (str fmt ++ [newline])) ap).

(** ** plic.c *)

Definition cpuid : M mach Z := x <- rcsr r_tp ;; ret (s32 x).
Definition store32_plic (a v : Z) : M mach unit := modify (fun s => set_tplic (plic_store a (u32 v) (t_plic s)) s).

Definition plicinit : M mach unit :=
  store32_plic (PLIC + UART0_IRQ * 4) 1 ;;
  store32_plic (PLIC + VIRTIO0_IRQ * 4) 1.

Definition plicinithart : M mach unit :=
  hart <- cpuid ;;
  store32_plic (PLIC_SENABLE hart) (Z.lor (Z.shiftl 1 UART0_IRQ) (Z.shiftl 1 VIRTIO0_IRQ)) ;;
  store32_plic (PLIC_SPRIORITY hart) 0.

Definition plic_claim : M mach Z :=
  hart <- cpuid ;;
  fun c s => Done (s32 (plic_load (PLIC_SCLAIM hart) (t_plic s)).1) c (set_tplic (plic_load (PLIC_SCLAIM hart) (t_plic s)).2 s).

Definition plic_complete (irq : Z) : M mach unit :=
  hart <- cpuid ;;
  store32_plic (PLIC_SCLAIM hart) irq.

(** ** trap.c *)

(** myproc(): an index in the process table, or -1 on a CPU that runs the scheduler. *)
Definition curproc : M mach Z := push_off ;; p <- asks c_proc ;; pop_off ;; ret p.

Definition trapinit : M mach unit := initlock LTicks.
Definition trapinithart : M mach unit := wcsr (set_stvec sym_kernelvec).

Definition clockintr : M kst unit :=
  acquire LTicks ;;
  modify (fun s => set_ticks (u32 (k_ticks s + 1)) s) ;;
  wakeup ChTicks ;;
  release LTicks.

Definition devintr : M mach Z :=
  scause <- rcsr r_scause ;;
  if truth (Z.land scause 0x8000000000000000) && (Z.land scause 0xff =? 9) then
    irq <- plic_claim ;;
    (if irq =? UART0_IRQ then con_ uartintr
     else if irq =? VIRTIO0_IRQ then disk_ virtio_disk_intr
     else when (truth irq) (trap_printf "unexpected interrupt irq=%d" [VInt irq])) ;;
    when (truth irq) (plic_complete irq) ;;
    ret 1
  else if scause =? 0x8000000000000001 then
    id <- cpuid ;;
    when (id =? 0) (tk_ clockintr) ;;
    sip <- rcsr r_sip ;;
    wcsr (set_sip (Z.land sip (Z.lnot 2))) ;;
    ret 2
  else ret 0.

(** usertrapret(): the result is the argument of userret() in trampoline.S, which
    usertrapret() jumps to. *)
Definition usertrapret : M mach Z :=
  p <- curproc ;;
  intr_off ;;
  wcsr (set_stvec (TRAMPOLINE + (sym_uservec - k_trampoline))) ;;
  satp <- rcsr r_satp ;;
  tk_ (tf_set p TF_kernel_satp satp) ;;
  kstack <- tk_ (pget p p_kstack) ;;
  tk_ (tf_set p TF_kernel_sp (kstack + PGSIZE)) ;;
  tk_ (tf_set p TF_kernel_trap sym_usertrap) ;;
  tp <- rcsr r_tp ;;
  tk_ (tf_set p TF_kernel_hartid tp) ;;
  x <- r_sstatus ;;
  w_sstatus (Z.lor (Z.land x (Z.lnot SSTATUS_SPP)) SSTATUS_SPIE) ;;
  epc <- tk_ (tf_get p TF_epc) ;;
  wcsr (set_sepc epc) ;;
  pagetable <- tk_ (pget p p_pagetable) ;;
  ret (MAKE_SATP pagetable).

Definition exit_if_killed (p : Z) : M mach unit :=
  k <- tk_ (killed p) ;;
  when (truth k) (tk_ (exit (-1))).

Definition usertrap : M mach Z :=
  ss <- r_sstatus ;;
  if truth (Z.land ss SSTATUS_SPP) then panic "usertrap: not from user mode" else
  wcsr (set_stvec sym_kernelvec) ;;
  p <- curproc ;;
  sepc <- rcsr r_sepc ;;
  tk_ (tf_set p TF_epc sepc) ;;
  scause <- rcsr r_scause ;;
  which_dev <-
    (if scause =? 8 then
       exit_if_killed p ;;
       epc <- tk_ (tf_get p TF_epc) ;;
       tk_ (tf_set p TF_epc (epc + 4)) ;;
       intr_on ;;
       tk_ syscall ;;
       ret 0
     else
       which_dev <- devintr ;;
       when (which_dev =? 0)
         (sc <- rcsr r_scause ;;
          pid <- tk_ (pget p p_pid) ;;
          trap_printf "usertrap(): unexpected scause %p pid=%d" [VInt sc; VInt pid] ;;
          sepc <- rcsr r_sepc ;;
          stval <- rcsr r_stval ;;
          trap_printf "            sepc=%p stval=%p" [VInt sepc; VInt stval] ;;
          tk_ (setkilled p)) ;;
       ret which_dev) ;;
  exit_if_killed p ;;
  when (which_dev =? 2) (tk_ yield) ;;
  usertrapret.

Definition kerneltrap : M mach unit :=
  sepc <- rcsr r_sepc ;;
  sstatus <- r_sstatus ;;
  scause <- rcsr r_scause ;;
  if negb (truth (Z.land sstatus SSTATUS_SPP)) then panic "kerneltrap: not from supervisor mode" else
  i <- intr_get ;;
  if (i : bool) then panic "kerneltrap: interrupts enabled" else
  which_dev <- devintr ;;
  if which_dev =? 0 then
    trap_printf "scause %p" [VInt scause] ;;
    epc <- rcsr r_sepc ;;
    stval <- rcsr r_stval ;;
    trap_printf "sepc=%p stval=%p" [VInt epc; VInt stval] ;;
    panic "kerneltrap"
  else
    when (which_dev =? 2)
      (p <- curproc ;;
       when (0 <=? p)
         (p <- curproc ;;
          st <- tk_ (pget p p_state) ;;
          when (bool_decide (st = RUNNING)) (tk_ yield))) ;;
    wcsr (set_sepc sepc) ;;
    w_sstatus sstatus.
End Trap.
