(* ===== verification/TrapSpec.v ===== *)
(** * A system call from the user's instruction to the user's next instruction

    The C side of a trap ([usertrap], [usertrapret]) put together with the assembly of
    trampoline.S, and the interrupt handlers. *)
From S2P Require Import Prelude Bytes Memory Machine Riscv Kalloc Vm Kernel Pipe PipeSpec ConsoleSpec Proc Sys User Uprintf Uart Console Virtio Trap Asm AsmSpec.

Section TrapSpec.
Context {D P : Type} `{!UartChip D} `{!PlicDev P} {image : KernelImage} {dsw : DevSw} {syms : KernelSymbols} {junk : StackJunk}.
Abbreviation mach := (machine D P).

Definition tmem (s : mach) : mem := pm (k_pm (cn_k (t_con s))).
Definition proc_of (s : mach) (p : Z) : proc := getp (cn_k (t_con s)) p.

(** A word of physical memory. *)
Definition poke (a v : Z) (s : mach) : mach :=
  let k := cn_k (t_con s) in
  set_tcon (set_cnk (set_kpm (set_pm (store64 (tmem s) a v) (k_pm k)) k) (t_con s)) s.

Lemma tmem_poke a v s : tmem (poke a v s) = store64 (tmem s) a v.
Proof. done. Qed.
Lemma proc_of_poke a v s p : proc_of (poke a v s) p = proc_of s p.
Proof. done. Qed.

Lemma set_tk_id (s : mach) : set_tcon (set_cnk (cn_k (t_con s)) (t_con s)) s = s.
Proof. by destruct s as [[] ? ? ?]. Qed.

Lemma tf_set_run p off v c s : tk_ (tf_set p off v) c s = Done tt c (poke (p_trapframe (proc_of s p) + off) (u64 v) s).
Proof. done. Qed.

Lemma tf_get_run p off c s : tk_ (tf_get p off) c s = Done (load64 (tmem s) (p_trapframe (proc_of s p) + off)) c s.
Proof.
  unfold tk_, zoom, tf_get, pget, mem_, zoom, mload64, gets, bind. cbn. f_equal. destruct s as [[? ? ? ? ? ? k] ? ? ?]. by destruct k as [[] ? ? ? ? ? ? ? ? ? ?].
Qed.

Lemma pget_run {A} p (f : proc -> A) c s : tk_ (pget p f) c s = Done (f (proc_of s p)) c s.
Proof. unfold tk_, zoom, pget, gets. cbn. f_equal. apply set_tk_id. Qed.

Lemma rcsr_run f c (s : mach) : rcsr f c s = Done (f (t_csr s)) c s.
Proof. done. Qed.
Lemma wcsr_run f c (s : mach) : wcsr f c s = Done tt c (set_tcsr (f (t_csr s)) s).
Proof. done. Qed.
Lemma intr_off_run c (s : mach) : intr_off c s = Done tt (set_sstatus (Z.land (c_sstatus c) (Z.lnot SSTATUS_SIE)) c) s.
Proof. done. Qed.
Lemma r_sstatus_run c (s : mach) : r_sstatus c s = Done (c_sstatus c) c s.
Proof. done. Qed.
Lemma w_sstatus_run x c (s : mach) : w_sstatus x c s = Done tt (set_sstatus x c) s.
Proof. done. Qed.

Lemma curproc_run c (s : mach) : ctx_ok c -> curproc c s = Done (c_proc c) (settle c) s.
Proof.
  intros Hc. unfold curproc. kstep (push_off_run c s). rewrite bind_asks. kstep (pop_off_pushed c s Hc). done.
Qed.

Lemma killed_settle p c k : ctx_ok c -> LProc p ∉ c_held c -> killed p c k = Done (p_killed (getp k p)) (settle c) k.
Proof.
  intros Hc Hh. unfold killed, pget. kstep (acquire_run (LProc p) c k Hh). rewrite bind_gets. by kstep (release_enter (LProc p) c k Hc Hh).
Qed.

Lemma alive_run p c s : ctx_ok c -> LProc p ∉ c_held c -> p_killed (proc_of s p) = 0 -> exit_if_killed p c s = Done tt (settle c) s.
Proof.
  intros Hc Hh Hk. unfold exit_if_killed. pose proof (zoom_done on_tkst (killed p) c s _ _ _ (killed_settle p c (cn_k (t_con s)) Hc Hh)) as E.
  kstep E. cbn [view on_tkst]. fold (proc_of s p). rewrite Hk. cbn. f_equal. apply set_tk_id.
Qed.

(** ** usertrapret() *)

Definition back_status (x : Z) : Z := Z.lor (Z.land (Z.land x (Z.lnot SSTATUS_SIE)) (Z.lnot SSTATUS_SPP)) SSTATUS_SPIE.

Lemma back_status_bits x : Z.testbit (back_status x) 1 = false /\ Z.testbit (back_status x) 8 = false /\ Z.testbit (back_status x) 5 = true /\
  forall n, 0 <= n -> n <> 1 -> n <> 8 -> n <> 5 -> Z.testbit (back_status x) n = Z.testbit x n.
Proof.
  assert (forall n, 0 <= n -> Z.testbit (back_status x) n = (Z.testbit x n && negb (n =? 1) && negb (n =? 8)) || (n =? 5)) as H.
  { intros n Hn. unfold back_status, SSTATUS_SPP, SSTATUS_SPIE. rewrite Z.lor_spec, !Z.land_spec, !Z.lnot_spec by lia. unfold SSTATUS_SIE. rewrite !Z.shiftl_1_l.
    rewrite !Z.pow2_bits_eqb by lia. rewrite (Z.eqb_sym 1), (Z.eqb_sym 8), (Z.eqb_sym 5). done. }
  split; [|split; [|split]]; try (rewrite H by lia; cbn; by rewrite ?andb_false_r, ?orb_true_r). intros n H0 H1 H8 H5. rewrite H by lia.
  zcase (n =? 1); [done|]. zcase (n =? 8); [done|]. zcase (n =? 5); [done|]. cbn. by rewrite !andb_true_r, orb_false_r.
Qed.

(** The state usertrapret() leaves for a process whose trapframe is at [tf]. *)
Definition returned (s : mach) (p : Z) : mach :=
  let tf := p_trapframe (proc_of s p) in
  let s1 := poke (tf + TF_kernel_satp) (u64 (r_satp (t_csr s))) s in
  let s2 := poke (tf + TF_kernel_sp) (u64 (p_kstack (proc_of s p) + PGSIZE)) s1 in
  let s3 := poke (tf + TF_kernel_trap) (u64 sym_usertrap) s2 in
  let s4 := poke (tf + TF_kernel_hartid) (u64 (r_tp (t_csr s))) s3 in
  set_tcsr (set_sepc (load64 (tmem s) (tf + TF_epc)) (set_stvec (TRAMPOLINE + (sym_uservec - k_trampoline)) (t_csr s))) s4.

Lemma usertrapret_run c s : ctx_ok c ->
  usertrapret c s = Done (MAKE_SATP (p_pagetable (proc_of s (c_proc c)))) (set_sstatus (back_status (c_sstatus c)) (settle c)) (returned s (c_proc c)).
Proof.
  intros Hc. unfold usertrapret. kstep (curproc_run c s Hc). assert (c_sstatus (settle c) = c_sstatus c) as Es by (unfold settle; by destruct (_ =? _)).
  kstep (intr_off_run (settle c) s). rewrite Es. set (c1 := set_sstatus _ _). set (p := c_proc c).
  kstep (wcsr_run (set_stvec (TRAMPOLINE + (sym_uservec - k_trampoline))) c1 s). set (s0 := set_tcsr _ s).
  kstep (rcsr_run r_satp c1 s0). kstep (tf_set_run p TF_kernel_satp (r_satp (t_csr s0)) c1 s0). set (s1 := poke _ _ s0).
  kstep (pget_run p p_kstack c1 s1). kstep (tf_set_run p TF_kernel_sp (p_kstack (proc_of s1 p) + PGSIZE) c1 s1). set (s2 := poke _ _ s1).
  kstep (tf_set_run p TF_kernel_trap sym_usertrap c1 s2). set (s3 := poke _ _ s2).
  kstep (rcsr_run r_tp c1 s3). kstep (tf_set_run p TF_kernel_hartid (r_tp (t_csr s3)) c1 s3). set (s4 := poke _ _ s3).
  kstep (r_sstatus_run c1 s4). kstep (w_sstatus_run (Z.lor (Z.land (c_sstatus c1) (Z.lnot SSTATUS_SPP)) SSTATUS_SPIE) c1 s4). set (c2 := set_sstatus _ c1).
  kstep (tf_get_run p TF_epc c2 s4). kstep (wcsr_run (set_sepc (load64 (tmem s4) (p_trapframe (proc_of s4 p) + TF_epc))) c2 s4). set (s5 := set_tcsr _ s4).
  kstep (pget_run p p_pagetable c2 s5). unfold ret. f_equal.
  assert (load64 (tmem s4) (p_trapframe (proc_of s4 p) + TF_epc) = load64 (tmem s) (p_trapframe (proc_of s p) + TF_epc)) as El.
  { unfold s4, s3, s2, s1. rewrite !tmem_poke, !proc_of_poke. change (proc_of s0 p) with (proc_of s p). change (tmem s0) with (tmem s). unfold TF_epc, TF_kernel_satp, TF_kernel_sp, TF_kernel_trap, TF_kernel_hartid. rewrite !load_ne; [done|..]; lia. }
  unfold s5. rewrite El. done.
Qed.

(** ** A system call *)

Lemma myproc_settle {A} (f : proc -> A) c k : ctx_ok c -> myproc f c k = Done (f (getp k (c_proc c))) (settle c) k.
Proof. intros Hc. unfold myproc. kstep (push_off_run c k). rewrite bind_asks. kstep (pop_off_pushed c k Hc). done. Qed.

Definition getpid_num : Z := 11.

Lemma syscall_getpid c s : ctx_ok c -> s32 (load64 (tmem s) (p_trapframe (proc_of s (c_proc c)) + TF_a7)) = getpid_num ->
  Z.land (s32 (Z.shiftl 1 getpid_num)) (p_mask (proc_of s (c_proc c))) = 0 ->
  tk_ syscall c s = Done tt (settle c) (poke (p_trapframe (proc_of s (c_proc c)) + TF_a0) (u64 (p_pid (proc_of s (c_proc c)))) s).
Proof.
  intros Hc Ha Hm. set (p := c_proc c) in *. set (k := cn_k (t_con s)). set (tf := p_trapframe (proc_of s p)) in *.
  enough (syscall c k = Done tt (settle c) (set_kpm (set_pm (store64 (pm (k_pm k)) (tf + TF_a0) (u64 (p_pid (proc_of s p)))) (k_pm k)) k)) as E
    by (by apply (zoom_done on_tkst syscall c s _ _ _ E)).
  unfold syscall. rewrite bind_asks. fold p.
  assert (tf_get p TF_a7 c k = Done (load64 (pm (k_pm k)) (tf + TF_a7)) c k) as E1 by (cbn; f_equal; by destruct k as [[] ? ? ? ? ? ? ? ? ? ?]).
  kstep E1. unfold tmem in Ha. fold k in Ha. rewrite Ha. change ((0 <? getpid_num) && (getpid_num <? NSYSCALLS)) with true. cbn iota. change (syscalls getpid_num) with (Some sys_getpid).
  cbn iota. unfold sys_getpid. kstep (myproc_settle p_pid c k Hc). fold p. change (getp k p) with (proc_of s p).
  set (k1 := set_kpm _ k). assert (tf_set p TF_a0 (p_pid (proc_of s p)) (settle c) k = Done tt (settle c) k1) as E2 by done. kstep E2.
  unfold pget. rewrite bind_gets. change (getp k1 p) with (proc_of s p). rewrite Hm. done.
Qed.

(** usertrap() for getpid: a user's ecall with 11 in [a7], by a process that is neither
    killed nor tracing getpid. *)
Record ecall_getpid (c : ctx) (s : mach) : Prop := {
  eg_ctx : ctx_ok c;
  eg_noff : c_noff c = 0;
  eg_lock : LProc (c_proc c) ∉ c_held c;
  eg_user : Z.land (c_sstatus c) SSTATUS_SPP = 0;
  eg_cause : r_scause (t_csr s) = 8;
  eg_num : s32 (load64 (tmem s) (p_trapframe (proc_of s (c_proc c)) + TF_a7)) = getpid_num;
  eg_alive : p_killed (proc_of s (c_proc c)) = 0;
  eg_mask : Z.land (s32 (Z.shiftl 1 getpid_num)) (p_mask (proc_of s (c_proc c))) = 0;
}.

Definition after_getpid (s : mach) (p : Z) : mach :=
  let tf := p_trapframe (proc_of s p) in
  let s1 := poke (tf + TF_epc) (u64 (r_sepc (t_csr s))) (set_tcsr (set_stvec sym_kernelvec (t_csr s)) s) in
  let s2 := poke (tf + TF_epc) (u64 (load64 (tmem s1) (tf + TF_epc) + 4)) s1 in
  returned (poke (tf + TF_a0) (u64 (p_pid (proc_of s p))) s2) p.

Lemma usertrap_getpid c s : ecall_getpid c s -> exists c',
  usertrap c s = Done (MAKE_SATP (p_pagetable (proc_of s (c_proc c)))) c' (after_getpid s (c_proc c)) /\
  c_sstatus c' = back_status (Z.lor (c_sstatus c) SSTATUS_SIE) /\ c_held c' = c_held c /\ c_noff c' = 0.
Proof.
  intros [Hc Hn Hh Hu Hs Ha Hk Hm]. unfold usertrap. kstep (r_sstatus_run c s). rewrite Hu. cbn [truth Z.eqb negb].
  kstep (wcsr_run (set_stvec sym_kernelvec) c s). set (s0 := set_tcsr _ s). kstep (curproc_run c s0 Hc). set (p := c_proc c) in *. set (cs := settle c).
  assert (ctx_ok cs) as Hcs by (by apply ctx_ok_settle). assert (LProc p ∉ c_held cs) as Hhs by (unfold cs; by rewrite c_held_settle).
  kstep (rcsr_run r_sepc cs s0). kstep (tf_set_run p TF_epc (r_sepc (t_csr s0)) cs s0). set (s1 := poke _ _ s0).
  kstep (rcsr_run r_scause cs s1). change (r_scause (t_csr s1)) with (r_scause (t_csr s)). rewrite Hs. cbn [Z.eqb Pos.eqb].
  set (body := exit_if_killed p ;; _). set (c1 := set_sstatus (Z.lor (c_sstatus cs) SSTATUS_SIE) cs). set (tf := p_trapframe (proc_of s p)).
  set (s2 := poke (tf + TF_epc) (u64 (load64 (tmem s1) (tf + TF_epc) + 4)) s1). set (s3 := poke (tf + TF_a0) (u64 (p_pid (proc_of s p))) s2).
  assert (c_noff c1 = 0) as Hn1 by (unfold c1, cs; cbn; by rewrite c_noff_settle). assert (ctx_ok c1) as Hc1 by (split; lia).
  assert (c_held c1 = c_held c) as Hh1 by (unfold c1, cs; cbn; apply c_held_settle).
  assert (c_proc c1 = p) as Hp1 by (unfold c1, cs; cbn; apply c_proc_settle).
  assert (body cs s1 = Done 0 (settle c1) s3) as Hb.
  { unfold body. kstep (alive_run p cs s1 Hcs Hhs Hk). change (settle cs) with (settle (settle c)). rewrite settle_settle. fold cs.
    kstep (tf_get_run p TF_epc cs s1). kstep (tf_set_run p TF_epc (load64 (tmem s1) (tf + TF_epc) + 4) cs s1). kstep (intr_on_run cs s2). fold c1.
    assert (s32 (load64 (tmem s2) (p_trapframe (proc_of s2 (c_proc c1)) + TF_a7)) = getpid_num) as Ha2.
    { rewrite Hp1. unfold s2, s1. rewrite !tmem_poke, !proc_of_poke. change (tmem s0) with (tmem s). change (proc_of s0 p) with (proc_of s p).
      unfold TF_epc, TF_a7 in *. rewrite !load_ne by (fold tf; lia). exact Ha. }
    kstep (syscall_getpid c1 s2 Hc1 Ha2 ltac:(rewrite Hp1; exact Hm)). rewrite Hp1. done. }
  rewrite (bind_done _ _ _ _ _ _ _ Hb). kstep (alive_run p (settle c1) s3 (ctx_ok_settle _ Hc1) ltac:(rewrite c_held_settle, Hh1; exact Hh) Hk). rewrite settle_settle.
  cbn [Z.eqb]. rewrite bind_when_false. rewrite (usertrapret_run (settle c1) s3 (ctx_ok_settle _ Hc1)). rewrite !c_proc_settle, Hp1. eexists. split; [done|].
  cbn [set_sstatus c_sstatus c_held c_noff]. split; [|split].
  - f_equal. unfold settle at 1. destruct (_ =? _); unfold c1, cs; cbn; f_equal; unfold settle; by destruct (_ =? _).
  - by rewrite !c_held_settle.
  - by rewrite !c_noff_settle.
Qed.

Lemma after_getpid_mem s p : exists v1 v2 v3 v4 v5 v6,
  tmem (after_getpid s p) = (let tf := p_trapframe (proc_of s p) in
    store64 (store64 (store64 (store64 (store64 (store64 (store64 (tmem s) (tf + 24) v1) (tf + 24) v2) (tf + 112) (u64 (p_pid (proc_of s p)))) (tf + 0) v3) (tf + 8) v4) (tf + 16) v5) (tf + 32) v6).
Proof. by eexists _, _, _, _, _, _. Qed.

Lemma after_getpid_slot s p o : 40 <= o -> o <> 112 -> (8 | o) ->
  load64 (tmem (after_getpid s p)) (p_trapframe (proc_of s p) + o) = load64 (tmem s) (p_trapframe (proc_of s p) + o).
Proof. intros H1 H2 [q Hq]. destruct (after_getpid_mem s p) as (v1 & v2 & v3 & v4 & v5 & v6 & ->). cbn zeta. rewrite !load_ne by lia. done. Qed.


Lemma after_getpid_a0 s p : load64 (tmem (after_getpid s p)) (p_trapframe (proc_of s p) + 112) = u64 (p_pid (proc_of s p)).
Proof. destruct (after_getpid_mem s p) as (v1 & v2 & v3 & v4 & v5 & v6 & ->). cbn zeta. rewrite !load_ne by lia. apply load64_store64, u64_range. Qed.

Lemma after_getpid_epc s p : r_sepc (t_csr (after_getpid s p)) = u64 (r_sepc (t_csr s) + 4).
Proof.
  set (tf := p_trapframe (proc_of s p)).
  change (r_sepc (t_csr (after_getpid s p))) with
    (load64 (store64 (store64 (store64 (tmem s) (tf + 24) (u64 (r_sepc (t_csr s)))) (tf + 24) (u64 (load64 (store64 (tmem s) (tf + 24) (u64 (r_sepc (t_csr s)))) (tf + 24) + 4)))
       (tf + 112) (u64 (p_pid (proc_of s p)))) (tf + 24)).
  rewrite load_ne by lia. rewrite !load64_store64 by apply u64_range. unfold u64. rewrite Zplus_mod_idemp_l. done.
Qed.

(** C7: getpid() from the user's ecall to the user's next instruction.  A user program executes
    ecall at [sepc] with 11 in [a7]; uservec saves its registers, usertrap() runs the system
    call, usertrapret() prepares the return and userret goes back: the kernel is left with
    interrupts off and user mode as the mode to return to, and the program goes on at
    [sepc] + 4 under its own page table with its pid in [a0] and every other register as it
    was. *)
Theorem getpid_end_to_end {mmu : Mmu} h tf tramp c s : user_trap h tf tramp -> s32 (h_reg h R_a7) = getpid_num ->
  ctx_ok c -> c_noff c = 0 -> LProc (c_proc c) ∉ c_held c -> Z.land (c_sstatus c) SSTATUS_SPP = 0 -> r_scause (t_csr s) = 8 ->
  p_trapframe (proc_of s (c_proc c)) = tf -> p_killed (proc_of s (c_proc c)) = 0 -> Z.land (s32 (Z.shiftl 1 getpid_num)) (p_mask (proc_of s (c_proc c))) = 0 ->
  exists h1, run_to TRAMPOLINE tramp uservec h = Some (load64 (h_mem h) (tf + 16), h1) /\
    (tmem s = h_mem h1 ->
     exists c' s', usertrap c s = Done (MAKE_SATP (p_pagetable (proc_of s (c_proc c)))) c' s' /\
       Z.testbit (c_sstatus c') 1 = false /\ Z.testbit (c_sstatus c') 8 = false /\ Z.testbit (c_sstatus c') 5 = true /\
       forall h2, h_mem h2 = tmem s' -> h_csr h2 C_sepc = r_sepc (t_csr s') -> user_return h2 (MAKE_SATP (p_pagetable (proc_of s (c_proc c)))) tf tramp ->
         exists h3, run_to TRAMPOLINE tramp userret h2 = Some (u64 (r_sepc (t_csr s) + 4), h3) /\
           h_csr h3 C_satp = MAKE_SATP (p_pagetable (proc_of s (c_proc c))) /\
           h_reg h3 R_a0 = u64 (p_pid (proc_of s (c_proc c))) /\ forall r, r <> R_a0 -> h_reg h3 r = h_reg h r).
Proof.
  intros Hu Ha7 Hc Hn Hl Hsp Hs Htf Hk Hm. destruct (uservec_run h tf tramp Hu) as (h1 & E1 & Em & _). exists h1. split; [done|]. intros Hmem.
  set (p := c_proc c) in *. assert (forall r o, (r, o) ∈ (R_a0, 112) :: user_regs -> load64 (tmem s) (tf + o) = h_reg h r) as Hreg.
  { intros r o Hro. rewrite Hmem, Em. apply trapped_user; [apply Hu|done]. }
  assert (ecall_getpid c s) as He.
  { split; try done. fold p. rewrite Htf. unfold TF_a7. rewrite (Hreg R_a7 168); [done|]. unfold user_regs. do 16 right. left. }
  destruct (usertrap_getpid c s He) as (c' & E & Hst & _ & _). destruct (back_status_bits (Z.lor (c_sstatus c) SSTATUS_SIE)) as (B1 & B2 & B3 & _).
  exists c', (after_getpid s p). rewrite Hst. split; [done|]. do 3 (split; [done|]). intros h2 Hm2 Hsepc Hur.
  destruct (userret_run h2 _ tf tramp Hur) as (h3 & E3 & _ & Hsat & Hr3). exists h3. rewrite Hsepc, after_getpid_epc in E3. split; [done|]. split; [done|]. split.
  - rewrite (Hr3 R_a0 112) by left. rewrite Hm2, <- Htf. apply after_getpid_a0.
  - intros r Hne. destruct (user_slot r) as [->|[o Ho]]; [done|]. assert ((r, o) ∈ (R_a0, 112) :: user_regs) as Ho' by (by right).
    rewrite (Hr3 r o Ho'), Hm2, <- (Hreg r o Ho'), <- Htf. pose proof user_slots as Hsl. unfold slots_ok in Hsl. rewrite Forall_forall in Hsl. destruct (Hsl _ Ho) as (_ & _ & Hd).
    apply after_getpid_slot; [|..|done].
    + unfold user_regs in Ho. repeat (apply elem_of_cons in Ho as [[= -> ->]|Ho]; [lia|]). by apply elem_of_nil in Ho.
    + intros ->. unfold user_regs in Ho. repeat (apply elem_of_cons in Ho as [[= ]|Ho]). by apply elem_of_nil in Ho.
Qed.

(** ** Interrupts in the kernel *)

Lemma clockintr_run c k : ctx_ok c -> LTicks ∉ c_held c -> clockintr c k = Done tt (woken [ChTicks] (settle c)) (set_ticks (u32 (k_ticks k + 1)) k).
Proof.
  intros Hc Hh. unfold clockintr. kstep (acquire_run LTicks c k Hh). rewrite bind_modify.
  assert (wakeup ChTicks (enter LTicks c) (set_ticks (u32 (k_ticks k + 1)) k) = Done tt (woken [ChTicks] (enter LTicks c)) (set_ticks (u32 (k_ticks k + 1)) k)) as E by done.
  kstep E. by apply release_enter_woken.
Qed.

Lemma c_sstatus_settle c : c_sstatus (settle c) = c_sstatus c.
Proof. unfold settle. by destruct (_ =? _). Qed.

(** A timer interrupt in the kernel, on hart 0 while it runs the scheduler: kerneltrap()
    counts the tick (modulo 2^32), wakes the sleepers on [ticks], acknowledges the software
    interrupt, does not yield, and returns with [sepc] and [sstatus] as they were when the
    interrupt came. *)
Theorem kerneltrap_timer c s : ctx_ok c -> LTicks ∉ c_held c -> c_proc c < 0 -> sie c = false -> Z.land (c_sstatus c) SSTATUS_SPP = SSTATUS_SPP ->
  r_scause (t_csr s) = 0x8000000000000001 -> r_tp (t_csr s) = 0 ->
  exists s', kerneltrap c s = Done tt (woken [ChTicks] (settle c)) s' /\ r_sepc (t_csr s') = r_sepc (t_csr s) /\
    k_ticks (cn_k (t_con s')) = u32 (k_ticks (cn_k (t_con s)) + 1) /\ Z.testbit (r_sip (t_csr s')) 1 = false /\ tmem s' = tmem s /\ t_disk s' = t_disk s /\ t_plic s' = t_plic s.
Proof.
  intros Hc Hh Hp Hi Hspp Hsc Htp. unfold kerneltrap. kstep (rcsr_run r_sepc c s). kstep (r_sstatus_run c s). kstep (rcsr_run r_scause c s). rewrite Hspp.
  change (negb (truth SSTATUS_SPP)) with false. cbn iota. kstep (intr_get_run c s). rewrite Hi. cbn iota.
  set (c1 := woken [ChTicks] (settle c)). set (s1 := set_tcon (set_cnk (set_ticks (u32 (k_ticks (cn_k (t_con s)) + 1)) (cn_k (t_con s))) (t_con s)) s).
  assert (devintr c s = Done 2 c1 (set_tcsr (set_sip (Z.land (r_sip (t_csr s)) (Z.lnot 2)) (t_csr s)) s1)) as E.
  { unfold devintr. kstep (rcsr_run r_scause c s). rewrite Hsc. change (truth (Z.land 0x8000000000000001 0x8000000000000000) && (Z.land 0x8000000000000001 0xff =? 9)) with false.
    cbn iota. rewrite Z.eqb_refl. assert (cpuid c s = Done 0 c s) as Eid by (unfold cpuid; kstep (rcsr_run r_tp c s); by rewrite Htp). kstep Eid. cbn [Z.eqb]. rewrite bind_when_true.
    kstep (zoom_done on_tkst clockintr c s _ _ _ (clockintr_run c (cn_k (t_con s)) Hc Hh)). done. }
  kstep E. cbn [Z.eqb Pos.eqb]. rewrite bind_when_true. set (s2 := set_tcsr _ s1).
  assert (ctx_ok c1) as Hc1 by (pose proof (ctx_ok_settle c Hc) as H; by destruct (settle c)).
  assert (curproc c1 s2 = Done (c_proc c) c1 s2) as Ecp.
  { rewrite (curproc_run c1 s2 Hc1). unfold c1. rewrite c_proc_woken, c_proc_settle, settle_woken, settle_settle. done. }
  rewrite (bind_assoc _ _ _ _ _ _ _ _ Ecp). zcase (0 <=? c_proc c); [lia|]. unfold when. rewrite bind_ret_l.
  kstep (wcsr_run (set_sepc (r_sepc (t_csr s))) c1 s2). rewrite w_sstatus_run. eexists. split.
  - f_equal. unfold c1. rewrite <- (c_sstatus_settle c). by destruct (settle c).
  - split; [done|]. split; [done|]. split; [|done]. cbn. rewrite Z.land_spec. by rewrite andb_false_r.
Qed.
End TrapSpec.

(** ** A machine *)

Module Demo.
#[local] Instance syms : KernelSymbols := {|
  sym_forkret := 0x80001000; sym_initcode := 0x80009000; sym_kernelvec := 0x80005000; sym_usertrap := 0x80002000; sym_uservec := 0x80007000; sym_userret := 0x8000709c |}.
#[local] Instance dsw : DevSw := {| devsw_read _ := None; devsw_write _ := None |}.
#[local] Instance junk : StackJunk.
Proof. refine {| stack_junk n := replicate n 0 |}. intros n. apply length_replicate. Defined.
#[local] Instance plic : PlicDev unit := {| plic_load _ _ := (0, tt); plic_store _ _ _ := tt |}.
#[local] Existing Instance demo_mmu.

(** A user process, number 0 in the table with pid 3, at its ecall. *)
Definition user : hart := Hart (fun r => match r with R_a7 => 11 | R_sp => 0x3000 | _ => 77 end) (fun c => 5) (store64 ∅ 0x87fff010 0x80002000).
Definition frame : mem := trapped user 0x87fff000.
Definition disk0 : disk :=
  Disk (fun _ => Desc PNull 0 0 0) 0 (replicate 8 0) 0 (replicate 8 0) (fun _ => 1) 0 (fun _ => None) (fun _ => 0) (fun _ => BlkReq 0 0 0) (fun _ => VBuf 0 [] 0).
Definition traps (m : mem) (cause : Z) : machine plain_chip unit :=
  let s := demo_con (PMem m 0) in
  let p := Proc RUNNING None 0 0 3 None 0x3fffffd000 0x4000 0x87ffe000 0x87fff000 0 0 (replicate 16 None) None (replicate 16 0) 0 in
  Mach (set_cnk (set_procs (p :: replicate 63 proc0) (cn_k s)) s) (Csrs 0 0x1004 cause 0 0x8000000000087fff 2 0) tt disk0.
Definition in_user : ctx := Ctx 0 0 false [] 0 3 0x3fffffe000 8 [].
Definition in_scheduler : ctx := Ctx 256 0 false [] (-1) 0 0x80009000 8 [].

Lemma user_trap_ok : user_trap user 0x87fff000 0x80007000.
Proof. split; [intros r; destruct r; cbn; lia|apply demo_trapframe; lia|apply demo_trampoline|apply demo_trampoline]. Qed.

Lemma uservec_frame : exists h1, run_to TRAMPOLINE 0x80007000 uservec user = Some (load64 (h_mem user) (0x87fff000 + 16), h1) /\ frame = h_mem h1.
Proof. destruct (uservec_run user 0x87fff000 0x80007000 user_trap_ok) as (h1 & E & Em & _). exists h1. split; [exact E|]. symmetry. exact Em. Qed.
End Demo.

Lemma getpid_end_to_end_witness : exists c' s' h3,
  usertrap (dsw := Demo.dsw) (syms := Demo.syms) (junk := Demo.junk) (PlicDev0 := Demo.plic) Demo.in_user (Demo.traps Demo.frame 8) = Done (MAKE_SATP 0x87ffe000) c' s' /\
  run_to (mmu := demo_mmu) TRAMPOLINE 0x80007000 userret (Hart (fun _ => MAKE_SATP 0x87ffe000) (fun _ => r_sepc (t_csr s')) (tmem s')) = Some (0x1008, h3) /\ h_reg h3 R_a0 = 3 /\ h_reg h3 R_s5 = 77.
Proof.
  destruct (getpid_end_to_end (mmu := demo_mmu) (dsw := Demo.dsw) (syms := Demo.syms) (junk := Demo.junk) (PlicDev0 := Demo.plic) Demo.user 0x87fff000 0x80007000 Demo.in_user
    (Demo.traps Demo.frame 8) Demo.user_trap_ok eq_refl) as (h1 & E1 & H); try reflexivity.
  { split; [cbn; lia|cbn; lia]. }
  { apply not_elem_of_nil. }
  destruct Demo.uservec_frame as (h1' & E1' & Ef). rewrite E1 in E1'. injection E1' as <-.
  destruct (H Ef) as (c' & s' & E & _ & _ & _ & G). exists c', s'.
  destruct (G (Hart (fun _ => MAKE_SATP 0x87ffe000) (fun _ => r_sepc (t_csr s')) (tmem s')) eq_refl eq_refl) as (h3 & E3 & _ & Ha & Hr).
  { split; [reflexivity|apply demo_trampoline|apply demo_trampoline|apply demo_trapframe; lia]. }
  exists h3. split; [exact E|]. split; [exact E3|]. split; [exact Ha|]. apply (Hr R_s5). discriminate.
Defined.

Lemma kerneltrap_timer_witness : exists s',
  kerneltrap (PlicDev0 := Demo.plic) Demo.in_scheduler (Demo.traps ∅ 0x8000000000000001) =
    Done tt (woken [ChTicks] Demo.in_scheduler) s' /\ r_sepc (t_csr s') = 0x1004.
Proof.
  destruct (kerneltrap_timer (PlicDev0 := Demo.plic) Demo.in_scheduler (Demo.traps ∅ 0x8000000000000001))
    as (s' & E & H & _); try reflexivity.
  - split; cbn; lia.
  - apply not_elem_of_nil.
  - exists s'. split; [exact E|exact H].
Defined.
