(* ===== verification/Start.v ===== *)
(** * From machine mode to main() (kernel/start.c)

    The machine-level control registers, the core-local interruptor's timer and the scratch
    area of the timer interrupt. *)
From S2P Require Import Prelude Memory Machine Riscv.

Inductive mode := ModeM | ModeS | ModeU.

Inductive mcsr := Mhartid | Mstatus | Mepc | Satp | Medeleg | Mideleg | Sie | Pmpaddr0 | Pmpcfg0 | Mscratch | Mtvec | Mie | Tp.

#[export] Instance mcsr_eq_dec : EqDecision mcsr.
Proof. solve_decision. Defined.

(** The control registers and [tp]; the timer's count CLINT_MTIME and its compare registers
    CLINT_MTIMECMP by their address; memory. *)
Record boot := Boot {
  b_mode : mode;
  b_pc : Z;
  b_csr : mcsr -> Z;
  b_mtime : Z;
  b_mtimecmp : Z -> Z;
  b_mem : mem;
}.

Definition upd_csr (r : mcsr) (x : Z) (f : mcsr -> Z) : mcsr -> Z := fun r' => if decide (r' = r) then x else f r'.
Definition rd_csr (r : mcsr) : M boot Z := gets (fun b => b_csr b r).
Definition wr_csr (r : mcsr) (x : Z) : M boot unit :=
  modify (fun b => Boot (b_mode b) (b_pc b) (upd_csr r x (b_csr b)) (b_mtime b) (b_mtimecmp b) (b_mem b)).

(** ** Control registers (kernel/riscv.h) *)

Definition MSTATUS_MPP_MASK : Z := Z.shiftl 3 11.
Definition MSTATUS_MPP_S : Z := Z.shiftl 1 11.
Definition MSTATUS_MIE : Z := Z.shiftl 1 3.
Definition SIE_SEIE : Z := Z.shiftl 1 9.
Definition SIE_STIE : Z := Z.shiftl 1 5.
Definition SIE_SSIE : Z := Z.shiftl 1 1.
Definition MIE_MTIE : Z := Z.shiftl 1 7.

Definition r_mhartid : M boot Z := rd_csr Mhartid.
Definition r_mstatus : M boot Z := rd_csr Mstatus.
Definition w_mstatus (x : Z) : M boot unit := wr_csr Mstatus x.
Definition w_mepc (x : Z) : M boot unit := wr_csr Mepc x.
Definition w_satp (x : Z) : M boot unit := wr_csr Satp x.
Definition w_medeleg (x : Z) : M boot unit := wr_csr Medeleg x.
Definition w_mideleg (x : Z) : M boot unit := wr_csr Mideleg x.
Definition r_sie : M boot Z := rd_csr Sie.
Definition w_sie (x : Z) : M boot unit := wr_csr Sie x.
Definition w_pmpaddr0 (x : Z) : M boot unit := wr_csr Pmpaddr0 x.
Definition w_pmpcfg0 (x : Z) : M boot unit := wr_csr Pmpcfg0 x.
Definition w_mscratch (x : Z) : M boot unit := wr_csr Mscratch x.
Definition w_mtvec (x : Z) : M boot unit := wr_csr Mtvec x.
Definition r_mie : M boot Z := rd_csr Mie.
Definition w_mie (x : Z) : M boot unit := wr_csr Mie x.
Definition w_tp (x : Z) : M boot unit := wr_csr Tp x.

(** The timer's compare register and the scratch area. *)
Definition set_mtimecmp (a v : Z) : M boot unit :=
  modify (fun b => Boot (b_mode b) (b_pc b) (b_csr b) (b_mtime b) (fun x => if x =? a then v else b_mtimecmp b x) (b_mem b)).
Definition set_scratch (a v : Z) : M boot unit :=
  modify (fun b => Boot (b_mode b) (b_pc b) (b_csr b) (b_mtime b) (b_mtimecmp b) (store64 (b_mem b) a v)).

(** [mret]: to the mode and the address that [mstatus] and [mepc] hold. *)
Definition mret : M boot unit := modify (fun b =>
  let x := b_csr b Mstatus in
  let mpp := Z.land (Z.shiftr x 11) 3 in
  let md := if mpp =? 3 then ModeM else if mpp =? 1 then ModeS else ModeU in
  let mie := if Z.testbit x 7 then MSTATUS_MIE else 0 in
  let x' := Z.lor (Z.lor (Z.land x (Z.lnot (Z.lor MSTATUS_MPP_MASK MSTATUS_MIE))) mie) (Z.shiftl 1 7) in
  Boot md (b_csr b Mepc) (upd_csr Mstatus x' (b_csr b)) (b_mtime b) (b_mtimecmp b) (b_mem b)).

(** ** start.c *)

Section Start.
(** Addresses the linker gives: main, timervec and timer_scratch. *)
Context (main timervec timer_scratch : Z).

Definition timerinit : M boot unit :=
  id <- r_mhartid ;;
  let id := s32 id in
  let interval := 1000000 in
  mtime <- gets b_mtime ;;
  set_mtimecmp (CLINT_MTIMECMP id) (u64 (mtime + interval)) ;;
  let scratch := timer_scratch + id * 40 in
  set_scratch (scratch + 3 * 8) (CLINT_MTIMECMP id) ;;
  set_scratch (scratch + 4 * 8) interval ;;
  w_mscratch scratch ;;
  w_mtvec timervec ;;
  x <- r_mstatus ;;
  w_mstatus (Z.lor x MSTATUS_MIE) ;;
  x <- r_mie ;;
  w_mie (Z.lor x MIE_MTIE).

Definition start : M boot unit :=
  x <- r_mstatus ;;
  w_mstatus (Z.lor (Z.land x (Z.lnot MSTATUS_MPP_MASK)) MSTATUS_MPP_S) ;;
  w_mepc main ;;
  w_satp 0 ;;
  w_medeleg 0xffff ;;
  w_mideleg 0xffff ;;
  x <- r_sie ;;
  w_sie (Z.lor (Z.lor (Z.lor x SIE_SEIE) SIE_STIE) SIE_SSIE) ;;
  w_pmpaddr0 0x3fffffffffffff ;;
  w_pmpcfg0 0xf ;;
  timerinit ;;
  id <- r_mhartid ;;
  w_tp (s32 id) ;;
  mret.

(** start() on hart [n]: the hart goes on in supervisor mode at main() with paging off,
    every interrupt and exception delegated, external, timer and software interrupts
    enabled, its number in [tp], all memory accessible, and its timer armed: the compare
    register is a second tenth away and the scratch area holds what timervec expects. *)
Theorem start_enters_main c b : 0 <= b_csr b Mhartid < 8 -> 0 <= timer_scratch ->
  exists b', start c b = Done tt c b' /\ b_mode b' = ModeS /\ b_pc b' = main /\ b_csr b' Satp = 0 /\ b_csr b' Tp = b_csr b Mhartid /\
    b_csr b' Medeleg = 0xffff /\ b_csr b' Mideleg = 0xffff /\ (Z.testbit (b_csr b' Sie) 1 && Z.testbit (b_csr b' Sie) 5 && Z.testbit (b_csr b' Sie) 9 = true) /\
    b_csr b' Pmpaddr0 = 2 ^ 54 - 1 /\ b_csr b' Pmpcfg0 = 0xf /\ b_csr b' Mtvec = timervec /\ Z.testbit (b_csr b' Mie) 7 = true /\
    b_mtimecmp b' (CLINT_MTIMECMP (b_csr b Mhartid)) = u64 (b_mtime b + 1000000) /\
    b_csr b' Mscratch = timer_scratch + 40 * b_csr b Mhartid /\
    load64 (b_mem b') (b_csr b' Mscratch + 24) = CLINT_MTIMECMP (b_csr b Mhartid) /\ load64 (b_mem b') (b_csr b' Mscratch + 32) = 1000000 /\
    forall x, ~ within (b_csr b' Mscratch + 24) 16 x -> rd (b_mem b') x = rd (b_mem b) x.
Proof.
  intros Hid Hts. assert (s32 (b_csr b Mhartid) = b_csr b Mhartid) as Es by (apply s32_small; lia). destruct b as [md pc f mt cmp m]. cbn in *.
  eexists. split; [reflexivity|]. cbn [b_mode b_pc b_csr b_mtime b_mtimecmp b_mem]. unfold upd_csr. repeat first [rewrite decide_True by done | rewrite decide_False by done].
  rewrite Es. split; [|split; [done|split; [done|split; [done|split; [done|split; [done|]]]]]].
  { set (x := f Mstatus). assert (Z.land (Z.shiftr (Z.lor (Z.lor (Z.land x (Z.lnot MSTATUS_MPP_MASK)) MSTATUS_MPP_S) MSTATUS_MIE) 11) 3 = 1) as ->; [|done].
    apply Z.bits_inj'. intros n Hn. rewrite Z.land_spec, Z.shiftr_spec, !Z.lor_spec, Z.land_spec, Z.lnot_spec by lia.
    destruct (decide (n = 0)) as [->|H0]; [cbn; by rewrite !andb_false_r|]. destruct (decide (n = 1)) as [->|H1]; [cbn; by rewrite !andb_false_r|].
    replace (Z.testbit 3 n) with false; [|symmetry; apply Z.bits_above_log2; [lia|change (Z.log2 3) with 1; lia]]. rewrite andb_false_r.
    symmetry. apply Z.bits_above_log2; [lia|change (Z.log2 1) with 0; lia]. }
  split; [rewrite !Z.lor_spec; cbn; by rewrite !orb_true_r|]. split; [done|]. split; [done|]. split; [done|].
  split; [rewrite !Z.lor_spec; cbn; by rewrite !orb_true_r|]. split; [by rewrite Z.eqb_refl|]. split; [lia|].
  set (sc := timer_scratch + f Mhartid * 40). split; [|split].
  - rewrite (load_store_ne 8 8) by (cbn; lia). replace (sc + 24) with (sc + 3 * 8) by lia. apply load64_store64. unfold CLINT_MTIMECMP, CLINT. lia.
  - replace (sc + 32) with (sc + 4 * 8) by lia. apply load64_store64. lia.
  - intros x Hx. rewrite !rd_store_out; [done|..]; unfold within in *; cbn; lia.
Qed.
End Start.

Definition reset_state : boot := Boot ModeM 0x80000000 (fun r => match r with Mhartid => 2 | Mstatus => 0x1800 | _ => 0 end) 777 (fun _ => 0) ∅.
Definition reset_ctx : ctx := Ctx 0 0 false [] (-1) 0 0 0 [].

Lemma start_enters_main_witness : exists b', start 0x80001000 0x80005100 0x80008000 reset_ctx reset_state = Done tt reset_ctx b' /\ b_mode b' = ModeS /\ b_csr b' Mscratch = 0x80008050.
Proof.
  destruct (start_enters_main 0x80001000 0x80005100 0x80008000 reset_ctx reset_state) as (b' & E & Hm & _ & _ & _ & _ & _ & _ & _ & _ & _ & _ & _ & Hs & _); [cbn; lia|lia|].
  exists b'. split; [exact E|]. split; [exact Hm|exact Hs].
Defined.
