(* ===== verification/Kvm.v ===== *)
(** * The kernel's address space (kvmmake, kvminit, kvminithart of kernel/vm.c)

    The kernel's page table: devices, kernel text and data mapped at their physical
    addresses, the trampoline at the top, and a stack per process with an unmapped page
    below it. *)
From S2P Require Import Prelude Memory Machine Riscv KString Kalloc Vm VmProps VmUser VmSpace VmSpec Kernel Pipe PipeSpec Proc.

Lemma zoom_panic {S T A} (l : lens S T) (m : M T A) c s msg : m c (view l s) = Panic msg -> zoom l m c s = Panic msg.
Proof. intros H. unfold zoom. by rewrite H. Qed.

Section Kvm.
Context {image : KernelImage}.

Definition kvmmake : M kst Z :=
  kpgtbl <- mem_ kalloc ;;
  mem_ (mmemset kpgtbl 0 PGSIZE) ;;
  mem_ (kvmmap kpgtbl UART0 UART0 PGSIZE (Z.lor PTE_R PTE_W)) ;;
  mem_ (kvmmap kpgtbl VIRTIO0 VIRTIO0 PGSIZE (Z.lor PTE_R PTE_W)) ;;
  mem_ (kvmmap kpgtbl PLIC PLIC 0x400000 (Z.lor PTE_R PTE_W)) ;;
  mem_ (kvmmap kpgtbl KERNBASE KERNBASE (k_etext - KERNBASE) (Z.lor PTE_R PTE_X)) ;;
  mem_ (kvmmap kpgtbl k_etext k_etext (PHYSTOP - k_etext) (Z.lor PTE_R PTE_W)) ;;
  mem_ (kvmmap kpgtbl TRAMPOLINE k_trampoline PGSIZE (Z.lor PTE_R PTE_X)) ;;
  proc_mapstacks kpgtbl ;;
  ret kpgtbl.

(** [kernel_pagetable] and [satp]. *)
Record kvm := Kvm { kernel_pagetable : Z; kvm_satp : Z; kvm_k : kst }.

Definition on_kvm : lens kvm kst := Lens kvm_k (fun k s => Kvm (kernel_pagetable s) (kvm_satp s) k).

Definition kvminit : M kvm unit :=
  t <- zoom on_kvm kvmmake ;;
  modify (fun s => Kvm t (kvm_satp s) (kvm_k s)).

Definition kvminithart : M kvm unit :=
  modify (fun s => Kvm (kernel_pagetable s) (MAKE_SATP (kernel_pagetable s)) (kvm_k s)).

(** ** Layout *)

Record region := Region { g_va : Z; g_pa : Z; g_n : Z; g_perm : Z }.

Definition covers (va : Z) (g : region) : bool := (vpn (g_va g) <=? vpn va) && (vpn va <? vpn (g_va g) + g_n g).

(** The entry of [va]: the first region that has it. *)
Fixpoint pte_of (gs : list region) (va : Z) : Z :=
  match gs with
  | [] => 0
  | g :: gs' => if covers va g then leaf_pte (g_pa g + PGSIZE * (vpn va - vpn (g_va g))) (g_perm g) else pte_of gs' va
  end.

Definition apart (va n : Z) (gs : list region) : Prop := Forall (fun g => vpn va + n <= vpn (g_va g) \/ vpn (g_va g) + g_n g <= vpn va) gs.

Lemma pte_of_apart va n gs va' : apart va n gs -> vpn va <= vpn va' < vpn va + n -> pte_of gs va' = 0.
Proof.
  induction 1 as [|g gs H _ IH]; intros Hv; cbn; [done|]. unfold covers. zcase (vpn (g_va g) <=? vpn va'); zcase (vpn va' <? vpn (g_va g) + g_n g); cbn; auto; lia.
Qed.

(** The 2MB directories the kernel's layout lies in, and the page-table pages that takes:
    the root, three middle tables and a last-level table for each directory. *)
Definition kernel_dir (d : Z) : Prop := d = 96 \/ d = 97 \/ d = 128 \/ 1024 <= d < 1088 \/ d = 131071.
Definition kernel_tables : list (list Z) :=
  [[]; [0]; [2]; [255]] ++ map (fun d => [d / 512; d mod 512]) ([96; 97; 128; 131071] ++ seqZ 1024 64).

(** [L] has the tables on the way to the directory [d]. *)
Definition has_dir (L : list (list Z)) (d : Z) : Prop := ([] ∈ L) /\ ([d / 512] ∈ L) /\ ([d / 512; d mod 512] ∈ L).

Lemma vpath_tables L va level : 0 <= va < MAXVA -> (level <= 2)%nat -> has_dir L (vpn va / 512) -> vpath level va ∈ L.
Proof using.
  intros Hva Hl (H0 & H1 & H2). rewrite MAXVA_val in Hva. assert (PX 1 va = (vpn va / 512) mod 512 /\ PX 2 va = vpn va / 512 / 512) as [E1 E2].
  { unfold vpn, PGSIZE in *. rewrite PX1_eq, PX2_eq. split; dlia. }
  destruct level as [|[|[|]]]; [| | |lia]; cbn [vpath]; by rewrite ?E1, ?E2.
Qed.

Lemma kernel_has_dir d : kernel_dir d -> has_dir kernel_tables d.
Proof using.
  intros Hd. unfold has_dir, kernel_tables. split; [apply elem_of_app; left; set_solver|]. split; apply elem_of_app.
  - left. destruct Hd as [-> |[-> |[-> |[Hd| ->]]]]; try (cbn; set_solver). replace (d / 512) with 2 by dlia. set_solver.
  - right. apply list_elem_of_fmap. exists d. split; [done|]. apply elem_of_app.
    destruct Hd as [-> |[-> |[-> |[Hd| ->]]]]; [left; set_solver..| |left; set_solver]. right. apply elem_of_seqZ. lia.
Qed.

(** The tree has no other tables. *)
Definition tables_in (L : list (list Z)) (T : ptree) : Prop := forall path, is_Some (T !! path) -> path ∈ L.

Lemma tables_in_length L T : tables_in L T -> (length (pt_pages T) <= length L)%nat.
Proof using.
  intros H. unfold pt_pages. rewrite length_fmap, <- (length_fmap fst). apply submseteq_length, NoDup_submseteq.
  - apply NoDup_fst_map_to_list.
  - intros path Hp. apply H. apply list_elem_of_fmap in Hp as ([path' q] & -> & Hq). apply elem_of_map_to_list in Hq. eauto.
Qed.

(** The page table at [root] has the tree [T] and maps exactly the regions; since the memory
    was [m0] only the pages [l0] have changed.  The tables are among [L]. *)
Record kmap (L : list (list Z)) (m0 : mem) (l0 : list Z) (root : Z) (s : pmem) (T : ptree) (l : list Z) (gs : list region) : Prop := {
  km_vm : vm_ok s T l;
  km_root : T !! [] = Some root;
  km_leaf : forall va, 0 <= va < MAXVA -> leaf (pm s) T va = pte_of gs va;
  km_within : tables_in L T;
  km_pages : pt_pages T ++ l ⊆ l0;
  km_frame : changes_in l0 m0 (pm s);
}.

Section Run.
Context (c : ctx) (Hc : steady c) (Hfree : LKmem ∉ c_held c).

Lemma span_pages va n : page_aligned va -> 0 < n -> span va (PGSIZE * n) = n - 1 /\ PGROUNDDOWN va = va.
Proof using.
  intros Ha Hn. assert (PGROUNDDOWN va = va) as E by (rewrite PGROUNDDOWN_eq; unfold page_aligned, PGSIZE in *; dlia). split; [|done].
  unfold span. rewrite E, PGROUNDDOWN_eq. unfold page_aligned, PGSIZE in *. assert ((va + 4096 * n - 1) / 4096 = va / 4096 + n - 1) as -> by dlia. dlia.
Qed.

Lemma pte_valid_0 : pte_valid 0 = false.
Proof using. done. Qed.

Lemma mappages_kmap L m0 l0 root s T l gs va pa n perm : kmap L m0 l0 root s T l gs -> page_aligned va -> 0 <= va -> 0 < n -> va + PGSIZE * n <= MAXVA ->
  0 <= pa -> pa + PGSIZE * n <= 2 ^ 56 -> 0 <= perm < 1024 -> apart va n gs -> (forall v, vpn va <= v < vpn va + n -> has_dir L (v / 512)) ->
  (exists s' T' l', mappages root va (PGSIZE * n) pa perm c s = Done 0 c s' /\ kmap L m0 l0 root s' T' l' (Region va pa n perm :: gs) /\ pt_pages T' ++ l' ≡ₚ pt_pages T ++ l) \/
  (exists s', mappages root va (PGSIZE * n) pa perm c s = Done (-1)%Z c s' /\ length (pt_pages T ++ l) <= length L)%nat.
Proof using Hc Hfree.
  intros [Hvm Hroot Hleaf Hwi Hpg Hfr] Ha H0 Hn Hm Hp0 Hp Hperm Hap Hdir. destruct (span_pages va n Ha Hn) as [Esp Ero].
  destruct (mappages_run c Hc Hfree s T l root va (PGSIZE * n) pa perm Hvm Hroot H0) as (s' & T' & l' & r & k & Hrun & Hvm' & Hg & Hl' & Htab & Hres); try (unfold PGSIZE in *; lia).
  { rewrite Esp, Ero. intros j Hj. rewrite Hleaf by (unfold PGSIZE in *; lia). rewrite (pte_of_apart va n gs); [done|done|]. rewrite vpn_add_pages. lia. }
  assert (tables_in L T') as Hwi'.
  { intros path Hpath. destruct (Htab path Hpath) as [?|(va' & level & (j & Hj & ->) & Hlev & ->)]; [auto|]. rewrite Esp in Hj. rewrite Ero.
    apply vpath_tables; [unfold PGSIZE in *; lia|done|]. rewrite vpn_add_pages. apply Hdir. lia. }
  destruct Hres as [[-> ->]|(-> & -> & _)].
  - left. exists s', T', l'. split; [done|]. split; [|apply (grow_perm _ _ _ _ _ _ Hg)]. assert (pt_pages T' ++ l' ⊆ l0) as Hpg' by (intros q; rewrite (grow_perm _ _ _ _ _ _ Hg); apply Hpg).
    split; [done| | |done|done|].
    + pose proof (grow_sub _ _ _ _ _ _ Hg) as Hsub. by eapply lookup_weaken.
    + intros va' Hv. rewrite Hl' by done. rewrite Esp, Ero. unfold mapped. cbn [pte_of]. unfold covers. cbn [g_va g_pa g_n g_perm].
      replace (n - 1 + 1) with n by lia. destruct (_ && _); [done|]. by apply Hleaf.
    + intros x Hx. rewrite (grow_frame _ _ _ _ _ _ Hg); [by apply Hfr|]. intros q Hq. apply Hx, Hpg'. apply elem_of_app. by left.
  - right. exists s'. split; [done|]. rewrite <- (grow_perm _ _ _ _ _ _ Hg), app_nil_r. by apply tables_in_length.
Qed.

Lemma kvmmap_run m0 l0 root s T l gs va pa n perm : kmap kernel_tables m0 l0 root s T l gs -> page_aligned va -> 0 <= va -> 0 < n -> va + PGSIZE * n <= MAXVA ->
  0 <= pa -> pa + PGSIZE * n <= 2 ^ 56 -> 0 <= perm < 1024 -> apart va n gs -> (forall v, vpn va <= v < vpn va + n -> kernel_dir (v / 512)) ->
  (exists s' T' l', kvmmap root va pa (PGSIZE * n) perm c s = Done tt c s' /\ kmap kernel_tables m0 l0 root s' T' l' (Region va pa n perm :: gs) /\ pt_pages T' ++ l' ≡ₚ pt_pages T ++ l) \/
  (kvmmap root va pa (PGSIZE * n) perm c s = Panic "kvmmap" /\ length (pt_pages T ++ l) <= 72)%nat.
Proof using Hc Hfree.
  intros Hk Ha H0 Hn Hm Hp0 Hp Hperm Hap Hdir.
  destruct (mappages_kmap kernel_tables m0 l0 root s T l gs va pa n perm Hk Ha H0 Hn Hm Hp0 Hp Hperm Hap) as [(s' & T' & l' & Hrun & Hk' & Hpm)|(s' & Hrun & Hlen)].
  - intros v Hv. by apply kernel_has_dir, Hdir.
  - left. exists s', T', l'. split; [unfold kvmmap; by kstep Hrun|done].
  - right. split; [unfold kvmmap; by kstep Hrun|exact Hlen].
Qed.

(** A page taken from the free list for something else. *)
Lemma kalloc_kmap L m0 l0 root s T p l gs : kmap L m0 l0 root s T (p :: l) gs ->
  kalloc c s = Done p c (kalloc_state s p) /\ kmap L m0 l0 root (kalloc_state s p) T l gs /\ free_page p.
Proof using Hc Hfree.
  intros [(Hk & Hr & Hown & HT) Hroot Hleaf Hwi Hpg Hfr]. destruct (kalloc_page_steady c Hc Hfree s p l Hk) as [Hrun Hk'].
  assert (free_page p) as Hp by (destruct Hk as (_ & (_ & Hp & _) & _); done). rewrite <- Permutation_middle in Hown. apply NoDup_cons in Hown as [Hni Hnd].
  assert (forall q, q ∈ pt_pages T -> agree_on (in_page q) (pm s) (pm (kalloc_state s p))) as Hag.
  { intros q Hq. rewrite Forall_forall in HT. cbn [kalloc_state pm]. apply agree_memset_page; [by apply free_page_aligned|by apply free_page_aligned, HT|].
    intros ->. apply Hni. apply elem_of_app. by left. }
  split; [done|]. split; [|done]. split; [|done| |done| |].
  - split; [done|]. split; [by eapply pt_rep_agree|done].
  - intros va Hva. rewrite <- Hleaf by done. by apply leaf_agree.
  - set_solver.
  - intros x Hx. cbn [kalloc_state pm]. rewrite rd_memset_out; [by apply Hfr|unfold PGSIZE; lia|]. apply Hx, Hpg. set_solver.
Qed.

Definition RW : Z := Z.lor PTE_R PTE_W.
Definition RX : Z := Z.lor PTE_R PTE_X.

Fixpoint stack_regions (p : Z) (pages : list Z) (gs : list region) : list region :=
  match pages with
  | [] => gs
  | pa :: pages' => stack_regions (p + 1) pages' (Region (KSTACK p) pa 1 RW :: gs)
  end.

Lemma KSTACK_eq p : KSTACK p = 4096 * (67108863 - 2 * (p + 1)).
Proof using. unfold KSTACK, TRAMPOLINE. rewrite MAXVA_val. unfold PGSIZE. lia. Qed.
Lemma KSTACK_vpn p : vpn (KSTACK p) = 67108863 - 2 * (p + 1).
Proof using. rewrite KSTACK_eq. unfold vpn, PGSIZE. dlia. Qed.

Lemma mapstacks_run m0 root l0 n : forall p k T l gs stacks, kmap kernel_tables m0 l0 root (k_pm k) T l gs -> 0 <= p -> p + Z.of_nat n <= 64 ->
  (forall q, p <= q < 64 -> apart (KSTACK q) 1 gs) -> pt_pages T ++ l ++ stacks ≡ₚ l0 -> Z.of_nat (length stacks) = p ->
  (exists m T' l' pages, proc_mapstacks_loop n root p c k = Done tt c (set_kpm m k) /\ length pages = n /\ Forall free_page pages /\
     kmap kernel_tables m0 l0 root m T' l' (stack_regions p pages gs) /\ pt_pages T' ++ l' ++ pages ++ stacks ≡ₚ l0) \/
  (exists msg, proc_mapstacks_loop n root p c k = Panic msg /\ length l0 <= 136)%nat.
Proof using Hc Hfree.
  induction n as [|n IH]; intros p k T l gs stacks Hk Hp Hn Hap Hall Hst; cbn [proc_mapstacks_loop].
  { left. exists (k_pm k), T, l, []. rewrite set_kpm_id. split; [done|]. split; [done|]. split; [constructor|]. done. }
  destruct l as [|pa l].
  { right. exists "kalloc". split; [|rewrite <- Hall, !length_app; pose proof (tables_in_length _ T (km_within _ _ _ _ _ _ _ _ Hk)) as HT; change (length kernel_tables) with 72%nat in HT; cbn; lia]. pose proof (kalloc_empty_steady c Hc Hfree (k_pm k) (proj1 (km_vm _ _ _ _ _ _ _ _ Hk))) as E.
    kstep (zoom_done on_pm kalloc c k _ _ _ E). done. }
  destruct (kalloc_kmap kernel_tables m0 l0 root (k_pm k) T pa l gs Hk) as (E & Hk1 & Hpa). kstep (zoom_done on_pm kalloc c k _ _ _ E). pose proof (free_page_nonzero pa Hpa) as Hnz. pose proof (free_page_bounds pa Hpa) as Hb.
  zcase (pa =? 0); [done|]. set (k1 := update on_pm _ k).
  destruct (kvmmap_run m0 l0 root (k_pm k1) T l gs (KSTACK p) pa 1 RW Hk1) as [(s' & T' & l' & E2 & Hk2 & Hpm)|[E2 HT']]; try (rewrite ?KSTACK_eq, ?MAXVA_val; unfold page_aligned, PGSIZE; (lia || dlia || done)).
  { apply Hap. lia. }
  { rewrite KSTACK_vpn. unfold kernel_dir. intros v Hv. do 4 right. dlia. }
  - kstep (zoom_done on_pm _ c k1 _ _ _ E2). set (k2 := update on_pm s' k1).
    destruct (IH (p + 1) k2 T' l' (Region (KSTACK p) pa 1 RW :: gs) (pa :: stacks) Hk2) as [(m & T2 & l2 & pages & E3 & H1 & H2 & H3 & H4)|H]; [lia|lia| | |cbn; lia|left|by right].
    + intros q Hq. constructor; [cbn [g_va g_n]; rewrite !KSTACK_vpn; lia|apply Hap; lia].
    + etrans; [|exact Hall]. rewrite app_assoc, Hpm. rewrite <- app_assoc. apply Permutation_app_head. cbn. symmetry. apply Permutation_middle.
    + exists m, T2, l2, (pa :: pages). split; [exact E3|]. split; [cbn; lia|]. split; [by constructor|]. split; [done|]. etrans; [|exact H4]. do 2 apply Permutation_app_head. cbn. apply Permutation_middle.
  - right. exists "kvmmap". split; [apply bind_panic, (zoom_panic on_pm _ c k1); exact E2|]. rewrite <- Hall. rewrite !length_app in *. cbn in *. lia.
Qed.

Lemma pte_of_stacks pages : forall p gs va, (forall i, (i < length pages)%nat -> vpn va <> vpn (KSTACK (p + Z.of_nat i))) -> pte_of (stack_regions p pages gs) va = pte_of gs va.
Proof using.
  induction pages as [|pa pages IH]; intros p gs va H; cbn [stack_regions]; [done|]. rewrite IH.
  - cbn [pte_of]. unfold covers. cbn [g_va g_n]. pose proof (H 0%nat ltac:(cbn; lia)) as H0. rewrite Z.add_0_r in H0.
    zcase (vpn (KSTACK p) <=? vpn va); zcase (vpn va <? vpn (KSTACK p) + 1); cbn; try done. lia.
  - intros i Hi. pose proof (H (S i) ltac:(cbn; lia)) as H1. replace (p + 1 + Z.of_nat i) with (p + Z.of_nat (S i)) by lia. done.
Qed.

Lemma pte_of_stack pages : forall p gs i pa va, pages !! i = Some pa -> vpn va = vpn (KSTACK (p + Z.of_nat i)) -> pte_of (stack_regions p pages gs) va = leaf_pte pa RW.
Proof using.
  induction pages as [|pa0 pages IH]; intros p gs i pa va Hi Hv; [done|]. cbn [stack_regions]. destruct i as [|i]; cbn in Hi.
  - injection Hi as ->. rewrite Z.add_0_r in Hv. rewrite pte_of_stacks by (intros i _; rewrite Hv, !KSTACK_vpn; lia). cbn [pte_of]. unfold covers. cbn [g_va g_n g_pa g_perm].
    rewrite Hv. zcase (vpn (KSTACK p) <=? vpn (KSTACK p)); [|lia]. zcase (vpn (KSTACK p) <? vpn (KSTACK p) + 1); [|lia]. cbn [andb]. rewrite Z.sub_diag, Z.mul_0_r, Z.add_0_r. done.
  - apply (IH (p + 1) _ i); [done|]. rewrite Hv. do 2 f_equal. lia.
Qed.
End Run.

(** The regions kvmmake() maps before the stacks, the last one first. *)
Definition kernel_regions : list region :=
  [Region TRAMPOLINE k_trampoline 1 RX; Region k_etext k_etext ((PHYSTOP - k_etext) / PGSIZE) RW; Region KERNBASE KERNBASE ((k_etext - KERNBASE) / PGSIZE) RX;
   Region PLIC PLIC 1024 RW; Region VIRTIO0 VIRTIO0 1 RW; Region UART0 UART0 1 RW].

(** The kernel's address space: [entry va] is the page-table entry for [va]. *)
Record kernel_layout (entry : Z -> Z) (stacks : list Z) : Prop := {
  kl_text : forall va, KERNBASE <= va < k_etext -> entry va = leaf_pte (PGROUNDDOWN va) RX;
  kl_data : forall va, k_etext <= va < PHYSTOP -> entry va = leaf_pte (PGROUNDDOWN va) RW;
  kl_devices : forall va, UART0 <= va < UART0 + PGSIZE \/ VIRTIO0 <= va < VIRTIO0 + PGSIZE \/ PLIC <= va < PLIC + 0x400000 -> entry va = leaf_pte (PGROUNDDOWN va) RW;
  kl_trampoline : forall va, TRAMPOLINE <= va < MAXVA -> entry va = leaf_pte k_trampoline RX;
  kl_stack : forall i pa va, stacks !! i = Some pa -> KSTACK (Z.of_nat i) <= va < KSTACK (Z.of_nat i) + PGSIZE -> entry va = leaf_pte pa RW;
  kl_guard : forall i va, (i < length stacks)%nat -> KSTACK (Z.of_nat i) - PGSIZE <= va < KSTACK (Z.of_nat i) -> entry va = 0;
  kl_null : forall va, 0 <= va < PLIC -> entry va = 0;
}.

Lemma etext_facts : exists q, k_etext = 4096 * q /\ 524288 < q /\ q < 557056 /\ k_trampoline mod 4096 = 0 /\ 2147483648 <= k_trampoline < 4096 * q.
Proof using.
  pose proof k_etext_range as H1. pose proof k_etext_aligned as H2. pose proof k_trampoline_range as H3. pose proof k_trampoline_aligned as H4. pose proof k_end_range as H5.
  unfold page_aligned, PGSIZE, KERNBASE, PHYSTOP in *. exists (k_etext / 4096). change (KERNBASE + 128 * 1024 * 1024) with 2281701376 in *. unfold KERNBASE in *. dlia.
Qed.

Lemma pte_of_cons g gs va : pte_of (g :: gs) va = if covers va g then leaf_pte (g_pa g + PGSIZE * (vpn va - vpn (g_va g))) (g_perm g) else pte_of gs va.
Proof using. done. Qed.

(** The entries before the stacks, by page number. *)
Lemma kernel_entry q va : k_etext = 4096 * q -> 524288 < q < 557056 -> pte_of kernel_regions va =
  let v := va / 4096 in
  if (67108863 <=? v) && (v <? 67108864) then leaf_pte (k_trampoline + 4096 * (v - 67108863)) RX
  else if (q <=? v) && (v <? 557056) then leaf_pte (4096 * v) RW
  else if (524288 <=? v) && (v <? q) then leaf_pte (4096 * v) RX
  else if (49152 <=? v) && (v <? 50176) then leaf_pte (4096 * v) RW
  else if (65537 <=? v) && (v <? 65538) then leaf_pte (4096 * v) RW
  else if (65536 <=? v) && (v <? 65537) then leaf_pte (4096 * v) RW else 0.
Proof using.
  intros Hq Hr. unfold kernel_regions. rewrite Hq. cbn [pte_of]. unfold covers. cbn [g_va g_pa g_n g_perm].
  assert (vpn TRAMPOLINE = 67108863 /\ vpn (4096 * q) = q /\ vpn KERNBASE = 524288 /\ vpn PLIC = 49152 /\ vpn VIRTIO0 = 65537 /\ vpn UART0 = 65536) as (-> & -> & -> & -> & -> & ->).
  { split; [reflexivity|]. split; [unfold vpn, PGSIZE; dlia|]. repeat split. }
  assert ((PHYSTOP - 4096 * q) / PGSIZE = 557056 - q) as -> by (change PHYSTOP with 2281701376; unfold PGSIZE; dlia).
  assert ((4096 * q - KERNBASE) / PGSIZE = q - 524288) as -> by (unfold KERNBASE, PGSIZE; dlia).
  replace (q + (557056 - q)) with 557056 by lia. replace (524288 + (q - 524288)) with q by lia. unfold vpn. change PGSIZE with 4096. cbn zeta. set (v := va / 4096).
  change (67108863 + 1) with 67108864. change (49152 + 1024) with 50176. change (65537 + 1) with 65538. change (65536 + 1) with 65537.
  replace (4096 * q + 4096 * (v - q)) with (4096 * v) by lia. replace (KERNBASE + 4096 * (v - 524288)) with (4096 * v) by (unfold KERNBASE; lia).
  replace (PLIC + 4096 * (v - 49152)) with (4096 * v) by (unfold PLIC; lia). replace (VIRTIO0 + 4096 * (v - 65537)) with (4096 * v) by (unfold VIRTIO0; lia).
  replace (UART0 + 4096 * (v - 65536)) with (4096 * v) by (unfold UART0; lia). done.
Qed.

Ltac cases := repeat (match goal with |- context [(?a <=? ?b)%Z] => zcase (a <=? b) | |- context [(?a <? ?b)%Z] => zcase (a <? b) end; try (exfalso; lia); cbn [andb]); try (f_equal; lia).

Lemma kernel_layout_ok pages : length pages = 64%nat -> kernel_layout (pte_of (stack_regions 0 pages kernel_regions)) pages.
Proof using.
  intros Hlen. destruct etext_facts as (q & Hq & Hq1 & Hq2 & Ht1 & Ht2).
  assert (forall va, va / 4096 < 67108735 -> pte_of (stack_regions 0 pages kernel_regions) va = pte_of kernel_regions va) as Hlow.
  { intros va Hv. apply pte_of_stacks. intros i Hi. rewrite KSTACK_vpn. unfold vpn, PGSIZE. lia. }
  assert (PHYSTOP = 2281701376) as EP by reflexivity. assert (forall va, PGROUNDDOWN va = 4096 * (va / 4096)) as EG by (intros; apply PGROUNDDOWN_eq).
  split.
  - intros va Hva. rewrite Hq in Hva. unfold KERNBASE in Hva. assert (524288 <= va / 4096 < q) as Hv by dlia. rewrite Hlow, (kernel_entry q va Hq), EG by lia. cbn zeta. cases.
  - intros va Hva. rewrite Hq, EP in Hva. assert (q <= va / 4096 < 557056) as Hv by dlia. rewrite Hlow, (kernel_entry q va Hq), EG by lia. cbn zeta. cases.
  - intros va Hva. unfold UART0, VIRTIO0, PLIC, PGSIZE in Hva. assert (65536 <= va / 4096 < 65538 \/ 49152 <= va / 4096 < 50176) as Hv by dlia.
    rewrite Hlow, (kernel_entry q va Hq), EG by lia. cbn zeta. destruct Hv; cases.
  - intros va Hva. unfold TRAMPOLINE in Hva. rewrite MAXVA_val in Hva. unfold PGSIZE in Hva. assert (va / 4096 = 67108863) as Hv by dlia.
    rewrite pte_of_stacks by (intros i Hi; rewrite KSTACK_vpn; unfold vpn, PGSIZE; lia). rewrite (kernel_entry q va Hq) by lia. cbn zeta. rewrite Hv. cases.
  - intros i pa va Hi Hva. pose proof (lookup_lt_Some _ _ _ Hi) as Hil. rewrite KSTACK_eq in Hva. unfold PGSIZE in Hva.
    apply (pte_of_stack pages 0 _ i); [done|]. rewrite KSTACK_vpn. unfold vpn, PGSIZE. dlia.
  - intros i va Hi Hva. rewrite KSTACK_eq in Hva. unfold PGSIZE in Hva. assert (va / 4096 = 67108863 - 2 * (Z.of_nat i + 1) - 1) as Hv by dlia.
    rewrite pte_of_stacks by (intros j Hj; rewrite KSTACK_vpn; unfold vpn, PGSIZE; lia). rewrite (kernel_entry q va Hq) by lia. cbn zeta. rewrite Hv. cases.
  - intros va Hva. unfold PLIC in Hva. assert (0 <= va / 4096 < 49152) as Hv by dlia. rewrite Hlow, (kernel_entry q va Hq) by lia. cbn zeta. cases.
Qed.

(** The arithmetic of the regions. *)
Ltac side Ev :=
  first [reflexivity
        |cbn [length]; lia
        |intros ? ?; rewrite ?Ev in *;
         change (vpn TRAMPOLINE) with 67108863 in *; change (vpn KERNBASE) with 524288 in *; change (vpn PLIC) with 49152 in *; change (vpn VIRTIO0) with 65537 in *; change (vpn UART0) with 65536 in *;
         unfold kernel_dir; dlia
        |unfold apart; repeat (apply Forall_cons; split); try apply Forall_nil; cbn [g_va g_n]; rewrite ?Ev;
         change (vpn TRAMPOLINE) with 67108863; change (vpn KERNBASE) with 524288; change (vpn PLIC) with 49152; change (vpn VIRTIO0) with 65537; change (vpn UART0) with 65536;
         unfold PGSIZE, KERNBASE; (lia || dlia)
        |unfold page_aligned, TRAMPOLINE, PGSIZE, UART0, VIRTIO0, PLIC, KERNBASE, RW, RX in *; (lia || dlia)
        |split; [vm_compute; discriminate|vm_compute; reflexivity]].

Section Make.
Context (c : ctx) (Hc : steady c) (Hfree : LKmem ∉ c_held c).

Lemma kvmmap_then {A} (Q : outcome kst A -> Prop) m0 root l0 k T l gs va pa n sz perm (rest : M kst A) :
  kmap kernel_tables m0 l0 root (k_pm k) T l gs -> pt_pages T ++ l ≡ₚ l0 -> sz = PGSIZE * n -> page_aligned va -> 0 <= va -> 0 < n -> va + PGSIZE * n <= MAXVA ->
  0 <= pa -> pa + PGSIZE * n <= 2 ^ 56 -> 0 <= perm < 1024 -> apart va n gs -> (forall v, vpn va <= v < vpn va + n -> kernel_dir (v / 512)) -> (136 < length l0)%nat ->
  (forall m T' l', kmap kernel_tables m0 l0 root m T' l' (Region va pa n perm :: gs) -> pt_pages T' ++ l' ≡ₚ l0 -> Q (rest c (set_kpm m k))) ->
  Q ((mem_ (kvmmap root va pa sz perm) ;; rest) c k).
Proof using Hc Hfree.
  intros Hk Hl -> Ha H0 Hn Hm Hp0 Hp Hperm Hap Hdir Hl0 Hok.
  destruct (kvmmap_run c Hc Hfree m0 l0 root (k_pm k) T l gs va pa n perm Hk Ha H0 Hn Hm Hp0 Hp Hperm Hap Hdir) as [(s' & T' & l' & E & Hk' & Hpm)|[E HT']].
  - rewrite (bind_done _ _ _ _ _ _ _ (zoom_done on_pm _ c k _ _ _ E)). apply (Hok s' T' l' Hk'). by rewrite Hpm.
  - rewrite Hl in HT'. lia.
Qed.

(** What kvmmake() gives: the kernel's page table, with every page accounted for. *)
Definition made (k : kst) (root : Z) (l : list Z) (o : outcome kst Z) : Prop :=
  exists m T l' stacks, o = Done root c (set_kpm m k) /\ length stacks = 64%nat /\ Forall free_page stacks /\ vm_ok m T l' /\ T !! [] = Some root /\
     kernel_layout (leaf (pm m) T) stacks /\ pt_pages T ++ l' ++ stacks ≡ₚ root :: l /\ (length (pt_pages T) <= 72)%nat /\ changes_in (root :: l) (pm (k_pm k)) (pm m).

Lemma layout_ext f g stacks : (length stacks <= 64)%nat -> (forall va, 0 <= va < MAXVA -> f va = g va) -> kernel_layout g stacks -> kernel_layout f stacks.
Proof using.
  intros Hl H [H1 H2 H3 H4 H5 H6 H7]. destruct etext_facts as (q & Hq & Hq1 & Hq2 & _). pose proof MAXVA_val as EM. assert (PHYSTOP = 2281701376) as EP by reflexivity.
  split; intros.
  - rewrite H; [auto|unfold KERNBASE in *; lia].
  - rewrite H; [auto|lia].
  - rewrite H; [auto|unfold UART0, VIRTIO0, PLIC, PGSIZE in *; lia].
  - rewrite H; [auto|unfold TRAMPOLINE, PGSIZE in *; lia].
  - rewrite H; [eauto|]. pose proof (lookup_lt_Some _ _ _ H0). rewrite KSTACK_eq in *. unfold PGSIZE in *. lia.
  - rewrite H; [eauto|]. rewrite KSTACK_eq in *. unfold PGSIZE in *. lia.
  - rewrite H; [auto|unfold PLIC in *; lia].
Qed.

Lemma stacks_made k root l m T l' : kmap kernel_tables (pm (k_pm k)) (root :: l) root m T l' kernel_regions -> pt_pages T ++ l' ≡ₚ root :: l -> (136 <= length l)%nat -> made k root l ((proc_mapstacks root ;; ret root) c (set_kpm m k)).
Proof using Hc Hfree.
  intros Hk Hpm Hlong. destruct (mapstacks_run c Hc Hfree (pm (k_pm k)) root (root :: l) 64 0 (set_kpm m k) T l' kernel_regions []) as [(m' & T' & l2 & pages & E & Hlen & Hfp & Hk' & Hall)|(msg & E & Hu)].
  - exact Hk.
  - lia.
  - lia.
  - intros i Hi. destruct etext_facts as (q & Hq & Hq1 & Hq2 & _). assert (vpn k_etext = q) as Eq by (rewrite Hq; unfold vpn, PGSIZE; dlia).
    assert ((PHYSTOP - k_etext) / PGSIZE = 557056 - q) as E1 by (rewrite Hq; change PHYSTOP with 2281701376; unfold PGSIZE; dlia).
    assert ((k_etext - KERNBASE) / PGSIZE = q - 524288) as E2 by (rewrite Hq; unfold KERNBASE, PGSIZE; dlia).
    unfold kernel_regions, apart. repeat (apply Forall_cons; split; [cbn [g_va g_n]; rewrite KSTACK_vpn, ?Eq, ?E1, ?E2|]); [..|constructor];
      change (vpn TRAMPOLINE) with 67108863; change (vpn KERNBASE) with 524288; change (vpn PLIC) with 49152; change (vpn VIRTIO0) with 65537; change (vpn UART0) with 65536; lia.
  - by rewrite app_nil_r.
  - done.
  - destruct Hk' as [Hv Hr Hl Hw _ Hfr]. pose proof (tables_in_length _ _ Hw : length (pt_pages T') <= 72)%nat as H72. exists m', T', l2, pages. unfold proc_mapstacks. change (Z.to_nat NPROC) with 64%nat. kstep E. rewrite app_nil_r in Hall.
    do 5 (split; [done|]). split; [|split; [done|by split]]. apply (layout_ext _ (pte_of (stack_regions 0 pages kernel_regions))); [lia|exact Hl|by apply kernel_layout_ok].
  - cbn in Hu. lia.
Qed.

(** kvmmake(), given the free pages its 72 tables and 64 stacks need, the first of which
    becomes the root: it returns a page table with exactly the kernel's layout (text
    read-only and executable, data and devices writable and not executable, all at their
    physical addresses, the trampoline at the top, a stack per process with an unmapped page
    below it), it does not panic, every page is accounted for and no other memory changes. *)
Theorem kvmmake_correct k root l : kmem_ok (k_pm k) (root :: l) -> (136 <= length l)%nat -> made k root l (kvmmake c k).
Proof using Hc Hfree.
  intros Hk Hlong. destruct etext_facts as (q & Hq & Hq1 & Hq2 & Ht1 & Ht2). pose proof MAXVA_val as EM. assert (PHYSTOP = 2281701376) as EP by reflexivity.
  destruct (uvmcreate_run c Hc Hfree (k_pm k) root l Hk) as (_ & Hpm & Hleaf & Hfr). pose proof (pr_vm _ _ _ _ Hpm) as Hvm.
  destruct (kalloc_page_steady c Hc Hfree (k_pm k) root l Hk) as [E0 _]. unfold kvmmake. kstep (zoom_done on_pm kalloc c k _ _ _ E0).
  assert (mem_ (mmemset root 0 PGSIZE) c (update on_pm (kalloc_state (k_pm k) root) k) = Done tt c (set_kpm (uvmcreate_state (k_pm k) root) k)) as E1 by done. kstep E1.
  assert (kmap kernel_tables (pm (k_pm k)) (root :: l) root (k_pm (set_kpm (uvmcreate_state (k_pm k) root) k)) {[ [] := root ]} l []) as K0
    by (split; [done|by rewrite lookup_singleton_eq|intros; apply Hleaf|intros path [q' Hq']; apply lookup_singleton_Some in Hq' as [<- _]; left|unfold pt_pages; rewrite map_to_list_singleton; set_solver|intros x Hx; apply Hfr, Hx; left]).
  assert (pt_pages {[ [] := root ]} ++ l ≡ₚ root :: l) as P0 by (unfold pt_pages; by rewrite map_to_list_singleton).
  assert (vpn k_etext = q) as Ev by (rewrite Hq; unfold vpn, PGSIZE; dlia).
  eapply (kvmmap_then (made k root l) (pm (k_pm k)) root _ _ _ _ _ UART0 UART0 1); [exact K0|exact P0|side Ev..|intros m1 T1 l1 K1 P1].
  eapply (kvmmap_then (made k root l) (pm (k_pm k)) root _ _ _ _ _ VIRTIO0 VIRTIO0 1); [exact K1|exact P1|side Ev..|intros m2 T2 l2 K2 P2].
  eapply (kvmmap_then (made k root l) (pm (k_pm k)) root _ _ _ _ _ PLIC PLIC 1024); [exact K2|exact P2|side Ev..|intros m3 T3 l3 K3 P3].
  assert ((k_etext - KERNBASE) / PGSIZE = q - 524288) as E2 by (rewrite Hq; unfold KERNBASE, PGSIZE; dlia).
  assert ((PHYSTOP - k_etext) / PGSIZE = 557056 - q) as E3 by (rewrite Hq, EP; unfold PGSIZE; dlia).
  eapply (kvmmap_then (made k root l) (pm (k_pm k)) root _ _ _ _ _ KERNBASE KERNBASE ((k_etext - KERNBASE) / PGSIZE)); [exact K3|exact P3|rewrite ?E2; side Ev..|intros m4 T4 l4 K4 P4].
  eapply (kvmmap_then (made k root l) (pm (k_pm k)) root _ _ _ _ _ k_etext k_etext ((PHYSTOP - k_etext) / PGSIZE)); [exact K4|exact P4|rewrite ?E3, ?E2; side Ev..|intros m5 T5 l5 K5 P5].
  eapply (kvmmap_then (made k root l) (pm (k_pm k)) root _ _ _ _ _ TRAMPOLINE k_trampoline 1); [exact K5|exact P5|rewrite ?E3, ?E2; side Ev..|intros m6 T6 l6 K6 P6].
  exact (stacks_made k root l m6 T6 l6 K6 P6 Hlong).
Qed.
End Make.
End Kvm.

(** A machine with two hundred free pages. *)
Definition boot_pages : list Z := (fun i => 0x80022000 + 4096 * i) <$> seqZ 0 200.

Lemma boot_pages_ok : kmem_ok (pool boot_pages) (0x80022000 :: drop 1 boot_pages).
Proof.
  change (0x80022000 :: drop 1 boot_pages) with boot_pages. apply pool_ok.
  - apply Forall_forall. intros p (i & -> & Hi)%list_elem_of_fmap. apply elem_of_seqZ in Hi. unfold free_page, page_aligned, PHYSTOP, KERNBASE, PGSIZE. cbn. dlia.
  - unfold boot_pages. apply NoDup_fmap_2; [intros i j; lia|apply NoDup_seqZ].
Qed.

Lemma kvmmake_correct_witness : exists k : kst, made idle_ctx k 0x80022000 (drop 1 boot_pages) (kvmmake idle_ctx k).
Proof.
  assert (exists s, kmem_ok s (0x80022000 :: drop 1 boot_pages)) as (s & Hs) by (exists (pool boot_pages); exact boot_pages_ok).
  exists (demo_kp s 0). apply (kvmmake_correct idle_ctx (conj idle_ctx_ok eq_refl) (not_elem_of_nil _) (demo_kp s 0) 0x80022000 (drop 1 boot_pages) Hs).
  vm_compute. lia.
Defined.
