(* ===== verification/Boot.v ===== *)
(** * Booting (kernel/main.c)

    main() on the whole kernel: the machine of Trap.v, the kernel's page table, the disk
    device with the addresses virtio_disk_init() records, and [started].  Each hart has its
    own control registers; what follows the last statement is the scheduler's (Sched.v). *)
From S2P Require Import Prelude Bytes Memory Machine Riscv Kalloc Vm Bio Log Kernel Fs Pipe Proc User Uprintf Uart Console Virtio VirtioInit Trap Kvm.

Record boot (D P V : Type) := Boot {
  b_m : machine D P;
  b_pagetable : Z;            (* kernel_pagetable *)
  b_dev : V;                  (* the disk's registers *)
  b_desc : Z;                 (* disk.desc, disk.avail, disk.used *)
  b_avail : Z;
  b_used : Z;
  b_started : Z;
}.
Arguments Boot {D P V} b_m b_pagetable b_dev b_desc b_avail b_used b_started.
Arguments b_m {D P V} b.
Arguments b_pagetable {D P V} b.
Arguments b_dev {D P V} b.
Arguments b_desc {D P V} b.
Arguments b_avail {D P V} b.
Arguments b_used {D P V} b.
Arguments b_started {D P V} b.

Section Boot.
Context {D P V : Type} `{!UartChip D} `{!PlicDev P} `{!VirtioMmio V} {image : KernelImage} {dsw : DevSw} {syms : KernelSymbols}.
Abbreviation boot := (boot D P V).

Definition set_bm (x : machine D P) (b : boot) : boot := Boot x (b_pagetable b) (b_dev b) (b_desc b) (b_avail b) (b_used b) (b_started b).
Definition set_started (x : Z) (b : boot) : boot := Boot (b_m b) (b_pagetable b) (b_dev b) (b_desc b) (b_avail b) (b_used b) x.

Definition b_k (b : boot) : kst := cn_k (t_con (b_m b)).
Definition set_bk (k : kst) (b : boot) : boot := set_bm (set_tcon (set_cnk k (t_con (b_m b))) (b_m b)) b.

Definition on_mach : lens boot (machine D P) := Lens b_m set_bm.
Definition on_bcon : lens boot (con D) := Lens (fun b => t_con (b_m b)) (fun x b => set_bm (set_tcon x (b_m b)) b).
Definition on_bk : lens boot kst := Lens b_k set_bk.

(** What kvminit() and kvminithart() touch; satp is the hart's. *)
Definition on_paging : lens boot kvm :=
  Lens (fun b => Kvm (b_pagetable b) (r_satp (t_csr (b_m b))) (b_k b))
    (fun x b =>
       let b := set_bk (kvm_k x) b in
       Boot (set_tcsr (set_satp (kvm_satp x) (t_csr (b_m b))) (b_m b)) (kernel_pagetable x) (b_dev b) (b_desc b) (b_avail b) (b_used b) (b_started b)).

(** What virtio_disk_init() touches; [disk.free] is the driver's. *)
Definition on_vinit : lens boot (vinit V) :=
  Lens (fun b => VInit (b_dev b) (k_pm (b_k b)) (b_desc b) (b_avail b) (b_used b) (map (k_free (t_disk (b_m b))) (seqZ 0 NUM)))
    (fun x b =>
       let m := b_m (set_bk (set_kpm (vi_pm x) (b_k b)) b) in
       Boot (set_tdisk (set_dfree (znth 0 (vi_free x)) (t_disk m)) m) (b_pagetable b) (vi_dev x) (vi_desc x) (vi_avail x) (vi_used x) (b_started b)).

Definition mach_ {A} (m : M (machine D P) A) : M boot A := zoom on_mach m.
Definition bcon_ {A} (m : M (con D) A) : M boot A := zoom on_bcon m.
Definition bk_ {A} (m : M kst A) : M boot A := zoom on_bk m.
Definition paging_ {A} (m : M kvm A) : M boot A := zoom on_paging m.

Definition main_printf (fmt : list Z) (ap : list varg) : M boot unit := bcon_ (kprintf (Some fmt) ap).

(** [while(started == 0);] does not end by itself. *)
Definition wait_started : M boot unit :=
  started <- gets b_started ;;
  if started =? 0 then forever else ret tt.

Definition main : M boot unit :=
  hart <- mach_ cpuid ;;
  if hart =? 0 then
    bcon_ consoleinit ;;
    bcon_ printfinit ;;
    main_printf [newline] [] ;;
    main_printf (line "xv6 kernel is booting") [] ;;
    main_printf [newline] [] ;;
    bk_ (mem_ kinit) ;;
    paging_ kvminit ;;
    paging_ kvminithart ;;
    bk_ procinit ;;
    mach_ trapinit ;;
    mach_ trapinithart ;;
    mach_ plicinit ;;
    mach_ plicinithart ;;
    bk_ (bio_ binit) ;;
    bk_ iinit ;;
    bk_ fileinit ;;
    zoom on_vinit virtio_disk_init ;;
    bk_ userinit ;;
    modify (set_started 1)
  else
    wait_started ;;
    hart <- mach_ cpuid ;;
    main_printf (line "hart %d starting") [VInt hart] ;;
    paging_ kvminithart ;;
    mach_ trapinithart ;;
    mach_ plicinithart.

End Boot.
