(* ===== verification/BootProps.v ===== *)
(** * Steps of booting

    What main()'s calls do to a kernel that has just been loaded: the process and inode
    tables, the first process's page table, its page of code and its trapframe. *)
From S2P Require Import Prelude Bytes Memory Machine Riscv KString Kalloc Vm VmProps VmUser VmSpace VmSpec Sleeplock Bio BioSpec Log LogSpec Kernel Fs Pipe PipeSpec Proc Kvm.

(** ** The tables *)

(** The process table after procinit(). *)
Definition idle_procs : list proc := map (fun i => set_pkstack (KSTACK i) proc0) (seqZ 0 64).

Lemma procinit_run c k : c_held c = [] -> k_procs k = replicate 64 proc0 -> procinit c k = Done tt c (set_procs idle_procs k).
Proof.
  intros Hh Hp. destruct c as [ss nf ie held pr pid sp fu wk], k as [pm l sb it ft pi ps ip np tk out]. cbn in Hh, Hp. subst held ps.
  vm_compute. reflexivity.
Qed.

Lemma iinit_run c k : c_held c = [] -> k_itab k = replicate 50 inode0 -> iinit c k = Done tt c k.
Proof.
  intros Hh Hp. destruct c as [ss nf ie held pr pid sp fu wk], k as [pm l sb it ft pi ps ip np tk out]. cbn in Hh, Hp. subst held it.
  vm_compute. reflexivity.
Qed.

(** ** The first address space *)

Section First.
Context {image : KernelImage}.

(** The tables a process of one page needs. *)
Definition user_tables : list (list Z) := [[]; [255]; [255; 511]; [0]; [0; 0]].
Definition process_regions (tf : Z) : list region := [Region TRAPFRAME tf 1 RW; Region TRAMPOLINE k_trampoline 1 RX].
Definition first_perm : Z := Z.lor (Z.lor (Z.lor PTE_W PTE_R) PTE_X) PTE_U.

Lemma top_dir : has_dir user_tables 131071.
Proof using. change (has_dir user_tables 131071) with (([] ∈ user_tables) /\ ([255] ∈ user_tables) /\ ([255; 511] ∈ user_tables)). set_solver. Qed.

Lemma low_dir : has_dir user_tables 0.
Proof using. change (has_dir user_tables 0) with (([] ∈ user_tables) /\ ([0] ∈ user_tables) /\ ([0; 0] ∈ user_tables)). set_solver. Qed.

Lemma kmap_rebase L m0 l0 root s T l gs : kmap L m0 l0 root s T l gs -> kmap L (pm s) (pt_pages T ++ l) root s T l gs.
Proof using. intros [H1 H2 H3 H4 H5 H6]. split; try done. Qed.

Lemma kmap_since L m0 l0 m1 l1 root s T l gs : kmap L m1 l1 root s T l gs -> l1 ⊆ l0 -> changes_in l0 m0 m1 -> kmap L m0 l0 root s T l gs.
Proof using.
  intros [H1 H2 H3 H4 H5 H6] Hl Hch. split; try done; [set_solver|]. eapply changes_in_trans; [exact Hch|]. by eapply changes_in_mono.
Qed.

(** Writing into a page that is neither a table nor free. *)
Lemma fill_kmap L m0 l0 root s T l gs p m' : kmap L m0 l0 root s T l gs -> free_page p -> p ∉ pt_pages T ++ l -> p ∈ l0 -> mem_ok m' ->
  (forall x, ~ in_page p x -> rd m' x = rd (pm s) x) -> kmap L m0 l0 root (PMem m' (freelist s)) T l gs.
Proof using.
  intros [H1 H2 H3 H4 H5 H6] Hp Hn Hl0 Hm Hout. destruct (fill_vm s T l p m' H1 Hp Hn Hm Hout) as [Hv Hle]. split; try done.
  - intros va Hva. cbn [pm]. by rewrite Hle, H3.
  - intros x Hx. cbn [pm]. rewrite Hout by (by apply Hx). by apply H6.
Qed.

Context (c : ctx) (Hc : steady c) (Hfree : LKmem ∉ c_held c).

(** The empty page table of uvmcreate(). *)
Lemma uvmcreate_kmap L s root l : [] ∈ L -> kmem_ok s (root :: l) ->
  uvmcreate c s = Done root c (uvmcreate_state s root) /\ kmap L (pm s) (root :: l) root (uvmcreate_state s root) {[ [] := root ]} l [] /\
  pt_pages {[ [] := root ]} ++ l ≡ₚ root :: l.
Proof using Hc Hfree.
  intros HL Hk. destruct (uvmcreate_run c Hc Hfree s root l Hk) as (E & Hpm & Hleaf & Hfr). split; [done|].
  assert (pt_pages {[ [] := root ]} = [root]) as Ep by (unfold pt_pages; by rewrite map_to_list_singleton).
  split; [|by rewrite Ep]. split.
  - apply (pr_vm _ _ _ _ Hpm).
  - by rewrite lookup_singleton_eq.
  - intros; apply Hleaf.
  - intros path [q Hq]. by apply lookup_singleton_Some in Hq as [<- _].
  - by rewrite Ep.
  - intros x Hx. apply Hfr, Hx. left.
Qed.

Lemma trampoline_facts : 0 <= k_trampoline /\ k_trampoline + 4096 <= 2 ^ 56.
Proof using. destruct etext_facts as (q & Hq & H1 & H2 & H3 & H4). change (2 ^ 56) with 72057594037927936. lia. Qed.

Lemma proc_pagetable_run s root l tf : kmem_ok s (root :: l) -> (5 < length (root :: l))%nat -> free_page tf ->
  exists s' T' l', proc_pagetable tf c s = Done root c s' /\ kmap user_tables (pm s) (root :: l) root s' T' l' (process_regions tf) /\ pt_pages T' ++ l' ≡ₚ root :: l.
Proof using Hc Hfree.
  intros Hk Hlen Htf. destruct (uvmcreate_kmap user_tables s root l) as (E0 & K0 & P0); [left|done|]. pose proof trampoline_facts as [Ht1 Ht2].
  pose proof (free_page_bounds tf Htf) as Hb. pose proof MAXVA_val as EM. assert (root <> 0) as Hnz by (destruct Hk as (_ & (_ & Hp & _) & _); by apply free_page_nonzero).
  unfold proc_pagetable. kstep E0. zcase (root =? 0); [done|].
  destruct (mappages_kmap c Hc Hfree user_tables (pm s) (root :: l) root _ _ l [] TRAMPOLINE k_trampoline 1 RX K0) as [(s1 & T1 & l1 & E1 & K1 & P1)|(s1 & _ & Hl1)];
    [reflexivity|vm_compute; congruence|lia|vm_compute; congruence|lia|unfold PGSIZE; lia|vm_compute; split; congruence|constructor| | |].
  { intros v Hv. change (vpn TRAMPOLINE) with 67108863 in Hv. replace (v / 512) with 131071 by dlia. apply top_dir. }
  2: { rewrite P0 in Hl1. cbn in *. lia. }
  change (PGSIZE * 1) with PGSIZE in E1. kstep E1. change (0 <? 0) with false. cbn iota.
  destruct (mappages_kmap c Hc Hfree user_tables (pm s) (root :: l) root _ _ l1 _ TRAPFRAME tf 1 RW K1) as [(s2 & T2 & l2 & E2 & K2 & P2)|(s2 & _ & Hl2)];
    [reflexivity|vm_compute; congruence|lia|vm_compute; congruence|lia|change (2 ^ 56) with 72057594037927936; unfold PGSIZE; lia|vm_compute; split; congruence| | | |].
  { constructor; [|constructor]. left. vm_compute. congruence. }
  { intros v Hv. change (vpn TRAPFRAME) with 67108862 in Hv. replace (v / 512) with 131071 by dlia. apply top_dir. }
  2: { rewrite P1, P0 in Hl2. cbn in *. lia. }
  change (PGSIZE * 1) with PGSIZE in E2. kstep E2. change (0 <? 0) with false. cbn iota.
  exists s2, T2, l2. split; [done|]. split; [done|]. by rewrite P2, P1.
Qed.

(** The program at [src] in the kernel's image. *)
Definition code_at (m : mem) (src : Z) : Prop := forall i, 0 <= i < zlen initcode -> rd m (src + i) = znth 0 initcode i.

Lemma code_kept l0 m m' src : changes_in l0 m m' -> (forall q, q ∈ l0 -> free_page q) -> 0 <= src -> src + zlen initcode <= k_end -> code_at m src -> code_at m' src.
Proof using.
  intros Hch Hl H0 He Hm i Hi. rewrite Hch; [by apply Hm|]. intros q [_ Hq]%Hl. unfold in_page, Memory.within. lia.
Qed.

Lemma uvmfirst_run m0 l0 root s T p l gs src : kmap user_tables m0 l0 root s T (p :: l) gs -> (5 < length (pt_pages T ++ l))%nat -> apart 0 1 gs ->
  (forall q, q ∈ l0 -> free_page q) -> 0 <= src -> src + zlen initcode <= k_end -> code_at m0 src ->
  exists s' T' l', uvmfirst root src (zlen initcode) c s = Done tt c s' /\ kmap user_tables m0 l0 root s' T' l' (Region 0 p 1 first_perm :: gs) /\
    pt_pages T' ++ l' ≡ₚ pt_pages T ++ l /\ (p ∉ pt_pages T' ++ l') /\ (forall i, 0 <= i < PGSIZE -> rd (pm s') (p + i) = znth 0 initcode i) /\
    changes_in (p :: pt_pages T ++ l) (pm s) (pm s').
Proof using Hc Hfree.
  intros K Hlen Hap Hl0 Hs0 Hse Hcode. destruct (kalloc_kmap c Hc Hfree user_tables m0 l0 root s T p l gs K) as (E0 & K0 & Hp). pose proof (free_page_bounds p Hp) as Hb.
  assert (p ∉ pt_pages T ++ l) as Hpn.
  { destruct (km_vm _ _ _ _ _ _ _ _ K) as (_ & _ & Hown & _). rewrite <- Permutation_middle in Hown. by apply NoDup_cons in Hown as [? _]. }
  assert (p ∈ l0) as Hp0 by (apply (km_pages _ _ _ _ _ _ _ _ K); apply elem_of_app; right; left).
  unfold uvmfirst. change (PGSIZE <=? zlen initcode) with false. cbn iota. kstep E0. set (s0 := kalloc_state s p) in *.
  set (s1 := set_pm (memset (pm s0) p 0 PGSIZE) s0). assert (mmemset p 0 PGSIZE c s0 = Done tt c s1) as Ez by done. kstep Ez.
  assert (forall x, ~ in_page p x -> rd (pm s1) x = rd (pm s) x) as Hs1.
  { intros x Hx. unfold s1, s0. cbn [pm set_pm kalloc_state]. rewrite !rd_memset_out; [done|unfold PGSIZE; lia|exact Hx|unfold PGSIZE; lia|exact Hx]. }
  assert (kmap user_tables m0 l0 root s1 T l gs) as K1.
  { refine (fill_kmap user_tables m0 l0 root s0 T l gs p (memset (pm s0) p 0 PGSIZE) K0 Hp Hpn Hp0 _ _);
      [apply mem_ok_memset; by destruct (km_vm _ _ _ _ _ _ _ _ K0) as ((? & _) & _)|].
    intros x Hx. change (memset (pm s0) p 0 PGSIZE) with (pm s1). rewrite Hs1 by exact Hx. unfold s0. cbn [pm kalloc_state]. rewrite rd_memset_out; [done|unfold PGSIZE; lia|exact Hx]. }
  destruct (mappages_kmap c Hc Hfree user_tables (pm s1) (pt_pages T ++ l) root s1 T l gs 0 p 1 first_perm (kmap_rebase _ _ _ _ _ _ _ _ K1))
    as [(s2 & T2 & l2 & E2 & K2 & P2)|(s2 & _ & Hl2)];
    [reflexivity|lia|lia|vm_compute; congruence|lia|change (2 ^ 56) with 72057594037927936; unfold PGSIZE; lia|vm_compute; split; congruence|done| | |].
  { intros v Hv. change (vpn 0) with 0 in Hv. replace (v / 512) with 0 by dlia. apply low_dir. }
  2: { cbn in *. lia. }
  change (PGSIZE * 1) with PGSIZE in E2. kstep E2. pose proof (km_frame _ _ _ _ _ _ _ _ K2) as F2.
  assert (mem_ok (pm s2)) as Hm2 by (destruct (km_vm _ _ _ _ _ _ _ _ K2) as ((? & _) & _); done).
  assert (kmap user_tables m0 l0 root s2 T2 l2 (Region 0 p 1 first_perm :: gs)) as K2'.
  { eapply kmap_since; [exact K2| |apply (km_frame _ _ _ _ _ _ _ _ K1)]. apply (km_pages _ _ _ _ _ _ _ _ K1). }
  assert (p ∉ pt_pages T2 ++ l2) as Hpn2 by (by rewrite P2).
  exists (set_pm (memmove (pm s2) p src (zlen initcode)) s2), T2, l2. split; [done|]. split; [|split; [done|split; [done|split]]].
  - refine (fill_kmap user_tables m0 l0 root s2 T2 l2 _ p (memmove (pm s2) p src (zlen initcode)) K2' Hp Hpn2 Hp0 _ _); [by apply mem_ok_memmove|]. intros x Hx. apply rd_memmove_out; [done|vm_compute; split; congruence|].
    intros Hx'. apply Hx. unfold in_page, Memory.within in *. change (zlen initcode) with 52 in Hx'. unfold PGSIZE. lia.
  - intros i Hi. cbn [pm set_pm]. destruct (decide (i < zlen initcode)) as [Hlt|Hge].
    + rewrite rd_memmove_in; [|done|vm_compute; split; congruence|unfold Memory.within; lia]. replace (src + (p + i - p)) with (src + i) by lia.
      apply (code_kept l0 m0 _ src (km_frame _ _ _ _ _ _ _ _ K2') Hl0 Hs0 Hse Hcode). lia.
    + rewrite rd_memmove_out; [|done|vm_compute; split; congruence|unfold Memory.within; lia]. rewrite znth_overflow by lia. rewrite F2.
      * unfold s1. cbn [pm set_pm]. rewrite rd_memset_in; [reflexivity|unfold PGSIZE; lia|unfold Memory.within; lia].
      * intros q Hq. assert (free_page q) as Hqf by (apply Hl0, (km_pages _ _ _ _ _ _ _ _ K1), Hq).
        apply (other_page q p); [done|done|unfold in_page, Memory.within; lia|]. intros ->. exact (Hpn Hq).
  - intros x Hx. cbn [pm set_pm]. assert (~ in_page p x) as Hxp by (apply Hx; left). rewrite rd_memmove_out; [|done|vm_compute; split; congruence|].
    + rewrite F2 by (intros q Hq; apply Hx; by right). by apply Hs1.
    + intros Hx'. apply Hxp. unfold in_page, Memory.within in *. change (zlen initcode) with 52 in Hx'. unfold PGSIZE. lia.
Qed.

End First.

(** ** userinit() *)

Section Userinit.
Context {image : KernelImage} {dsw : DevSw} {syms : KernelSymbols}.

Definition root_inode : inode := Inode ROOTDEV ROOTINO 1 sl_free 0 0 0 0 0 0 (replicate 13 0).

Definition first_proc (tf root : Z) : proc :=
  Proc RUNNABLE None 0 0 1 None (KSTACK 0) PGSIZE root tf sym_forkret (KSTACK 0 + PGSIZE) (replicate 16 None) (Some 0) (str_initcode ++ replicate 8 0) 0.

(** The kernel's state once the first process is there. *)
Definition with_init (k : kst) (m : pmem) (ps : list proc) (tf root : Z) : kst :=
  K m (k_l k) (k_sb k) (root_inode :: replicate 49 inode0) (k_ftab k) (k_pipes k) (first_proc tf root :: ps) (Some 0) 2 (k_ticks k) (k_out k).

Lemma namei_root c k : steady c -> LItable ∉ c_held c -> k_itab k = replicate 50 inode0 ->
  namei [SLASH] c k = Done (Some 0) c (set_itab (root_inode :: replicate 49 inode0) k).
Proof using.
  intros [Hok Hst] Hl Ht. unfold namei, namex. change (hd0 [SLASH] =? SLASH) with true. cbn iota.
  assert (iget ROOTDEV ROOTINO c k = Done 0 c (set_itab (root_inode :: replicate 49 inode0) k)) as E.
  { unfold iget. kstep (acquire_run LItable c k Hl). krun. rewrite Ht. change (iget_scan (replicate 50 inode0) ROOTDEV ROOTINO 0 None) with (@None Z, Some 0). cbn iota.
    unfold iset. krun. kstep (release_enter LItable c _ Hok Hl). rewrite Hst. unfold ret, updi, geti. rewrite Ht. reflexivity. }
  unfold bind at 1. unfold bind at 1. rewrite E. reflexivity.
Qed.

Lemma allocproc_scan_first n c k : LProc 0 ∉ c_held c -> p_state (getp k 0) = UNUSED -> allocproc_scan (S n) 0 c k = Done (Some 0) (enter (LProc 0) c) k.
Proof using. intros Hl Hp. cbn [allocproc_scan]. kstep (acquire_run (LProc 0) c k Hl). unfold pget. krun. by rewrite Hp. Qed.

Lemma allocpid_run c k : steady c -> LPid ∉ c_held c -> allocpid c k = Done (k_nextpid k) c (set_nextpid (s32 (k_nextpid k + 1)) k).
Proof using. intros [Hok Hst] Hl. unfold allocpid. kstep (acquire_run LPid c k Hl). krun. kstep (release_enter LPid c _ Hok Hl). by rewrite Hst. Qed.

Lemma pset_head f c k p ps : k_procs k = p :: ps -> pset 0 f c k = Done tt c (set_procs (f p :: ps) k).
Proof using. intros H. unfold pset, modify, updp, getp. by rewrite H. Qed.

Lemma tf_set_head off v c k p ps : k_procs k = p :: ps ->
  tf_set 0 off v c k = Done tt c (set_kpm (set_pm (store64 (pm (k_pm k)) (p_trapframe p + off) (u64 v)) (k_pm k)) k).
Proof using. intros H. unfold tf_set, pget. krun. unfold getp. by rewrite H. Qed.

(** allocproc() takes the first entry, whose lock it keeps. *)
Lemma allocproc_run c k ps tf root l : steady c -> c_held c = [] -> kmem_ok (k_pm k) (tf :: root :: l) -> (5 < length (root :: l))%nat ->
  k_procs k = set_pkstack (KSTACK 0) proc0 :: ps -> k_nextpid k = 1 ->
  exists s T l', allocproc c k =
    Done (Some 0) (enter (LProc 0) c) (K s (k_l k) (k_sb k) (k_itab k) (k_ftab k) (k_pipes k)
      (Proc USED None 0 0 1 None (KSTACK 0) 0 root tf sym_forkret (KSTACK 0 + PGSIZE) (replicate 16 None) None (replicate 16 0) 0 :: ps)
      (k_initproc k) 2 (k_ticks k) (k_out k)) /\
    kmap user_tables (pm (k_pm k)) (tf :: root :: l) root s T l' (process_regions tf) /\ pt_pages T ++ l' ≡ₚ root :: l.
Proof using.
  intros Hc Hh Hk Hlen Hp Hn. destruct k as [pm0 kl sb it ft pi ps0 ip np tk out]. cbn [k_procs k_nextpid k_pm k_l k_sb k_itab k_ftab k_pipes k_initproc k_ticks k_out] in *. subst ps0 np.
  pose proof (steady_enter (LProc 0) c (proj1 Hc)) as Hc1. set (c1 := enter (LProc 0) c) in *.
  assert (forall lk, lk <> LProc 0 -> lk ∉ c_held c1) as Hn1 by (intros lk Hlk; unfold c1; rewrite c_held_enter, Hh; set_solver).
  destruct (kalloc_page_steady c1 Hc1 (Hn1 LKmem ltac:(done)) pm0 tf (root :: l) Hk) as [E3 Hk1].
  assert (free_page tf) as Htf by (destruct Hk as (_ & (_ & Htf & _) & _); done).
  destruct (proc_pagetable_run c1 Hc1 (Hn1 LKmem ltac:(done)) (kalloc_state pm0 tf) root l tf Hk1 Hlen Htf) as (s2 & T2 & l2 & E4 & K4 & P4).
  exists s2, T2, l2. split; [|split; [|done]].
  - unfold allocproc. change (Z.to_nat NPROC) with (S 63).
    kstep (allocproc_scan_first 63 c _); [|rewrite Hh; set_solver|done]. fold c1. cbn iota.
    kstep (allocpid_run c1 _ Hc1); [|by apply Hn1]. cbn [k_nextpid set_nextpid].
    kstep (pset_head _ c1 _ _ _); [|reflexivity]. kstep (pset_head _ c1 _ _ _); [|reflexivity].
    kstep (mem_run kalloc c1 _ _ _); [|exact E3]. kstep (pset_head _ c1 _ _ _); [|reflexivity].
    pose proof (free_page_nonzero tf Htf). zcase (tf =? 0); [done|].
    kstep (mem_run (proc_pagetable tf) c1 _ _ _); [|exact E4]. kstep (pset_head _ c1 _ _ _); [|reflexivity].
    assert (root <> 0) as Hr by (apply free_page_nonzero; destruct Hk1 as (_ & (_ & Hr & _) & _); done). zcase (root =? 0); [done|].
    unfold pget. krun. kstep (pset_head _ c1 _ _ _); [|reflexivity]. reflexivity.
  - eapply kmap_since; [exact K4|set_solver|]. intros x Hx. cbn [kalloc_state pm]. rewrite rd_memset_out; [done|unfold PGSIZE; lia|]. apply Hx. left.
Qed.

(** The first process's memory: its page table [T] maps the page [p], the trapframe and
    the trampoline and nothing else, [p] holds the program and the trapframe its first
    program counter and stack pointer. *)
Record first_memory (m : pmem) (T : ptree) (tf p : Z) : Prop := {
  fm_leaf : forall va, 0 <= va < MAXVA -> leaf (pm m) T va = pte_of (Region 0 p 1 first_perm :: process_regions tf) va;
  fm_code : forall i, 0 <= i < PGSIZE -> rd (pm m) (p + i) = znth 0 initcode i;
  fm_epc : load64 (pm m) (tf + TF_epc) = 0;
  fm_sp : load64 (pm m) (tf + TF_sp) = PGSIZE;
}.

Lemma process_regions_low tf : apart 0 1 (process_regions tf).
Proof using. constructor; [left; vm_compute; congruence|]. constructor; [left; vm_compute; congruence|]. constructor. Qed.

(** The two stores into the trapframe. *)
Definition set_entry (m : mem) (tf : Z) : mem := store64 (store64 m (tf + TF_epc) 0) (tf + TF_sp) PGSIZE.

Lemma set_entry_out m tf x : ~ in_page tf x -> rd (set_entry m tf) x = rd m x.
Proof using. intros Hx. unfold set_entry. rewrite !rd_store_out; [done|..]; unfold in_page, Memory.within, TF_epc, TF_sp, PGSIZE in *; cbn; lia. Qed.

Lemma set_entry_loads m tf : load64 (set_entry m tf) (tf + TF_epc) = 0 /\ load64 (set_entry m tf) (tf + TF_sp) = PGSIZE.
Proof using.
  unfold set_entry. split; [|apply load64_store64; unfold PGSIZE; lia]. rewrite load_store_ne by (unfold TF_epc, TF_sp; simpl; lia). by apply load64_store64.
Qed.

Lemma userinit_run c k ps l : steady c -> c_held c = [] -> kmem_ok (k_pm k) l -> (8 <= length l)%nat ->
  k_procs k = set_pkstack (KSTACK 0) proc0 :: ps -> k_nextpid k = 1 -> k_itab k = replicate 50 inode0 ->
  0 <= sym_initcode -> sym_initcode + zlen initcode <= k_end -> code_at (pm (k_pm k)) sym_initcode ->
  exists m T tf root p l', userinit c k = Done tt c (with_init k m ps tf root) /\ vm_ok m T l' /\ T !! [] = Some root /\ first_memory m T tf p /\
    tf :: p :: pt_pages T ++ l' ≡ₚ l /\ changes_in l (pm (k_pm k)) (pm m).
Proof using.
  intros Hc Hh Hk Hlen Hp Hn Hit Hs0 Hse Hcode. destruct l as [|tf [|root l]]; [cbn in Hlen; lia..|].
  destruct (allocproc_run c k ps tf root l Hc Hh Hk ltac:(cbn in *; lia) Hp Hn) as (s1 & T1 & l1 & E1 & K1 & P1).
  pose proof (steady_enter (LProc 0) c (proj1 Hc)) as Hc1. set (c1 := enter (LProc 0) c) in *.
  assert (forall lk, lk <> LProc 0 -> lk ∉ c_held c1) as Hn1 by (intros lk Hlk; unfold c1; rewrite c_held_enter, Hh; set_solver).
  assert (Forall free_page (tf :: root :: l)) as HF by (destruct Hk as (_ & Hl & _); by eapply free_list_pages).
  assert (forall q, q ∈ tf :: root :: l -> free_page q) as HF' by (by apply Forall_forall). pose proof (HF' tf ltac:(left)) as Htf.
  pose proof (tables_in_length _ _ (km_within _ _ _ _ _ _ _ _ K1)) as HT1. change (length user_tables) with 5%nat in HT1.
  pose proof (Permutation_length P1) as HP1. rewrite length_app in HP1. destruct l1 as [|p l1]; [cbn in *; lia|].
  destruct (uvmfirst_run c1 Hc1 (Hn1 LKmem ltac:(done)) _ _ root s1 T1 p l1 _ sym_initcode K1) as (s2 & T2 & l2 & E2 & K2 & P2 & Hp2 & Hbytes & Hch2);
    [rewrite length_app; cbn in *; lia|apply process_regions_low|done..|].
  assert (tf :: p :: pt_pages T2 ++ l2 ≡ₚ tf :: root :: l) as Hall by (constructor; rewrite P2; rewrite <- P1; apply Permutation_middle).
  assert (NoDup (tf :: p :: pt_pages T2 ++ l2)) as Hnd by (rewrite Hall; by destruct Hk as (_ & _ & ?)). apply NoDup_cons in Hnd as [Htfn _].
  set (m := PMem (set_entry (pm s2) tf) (freelist s2)).
  assert (kmap user_tables (pm (k_pm k)) (tf :: root :: l) root m T2 l2 (Region 0 p 1 first_perm :: process_regions tf)) as K3.
  { refine (fill_kmap _ _ _ _ s2 T2 l2 _ tf (set_entry (pm s2) tf) K2 Htf _ ltac:(left) _ _).
    - intros Hin. apply Htfn. by right.
    - unfold set_entry. apply mem_ok_store, mem_ok_store. by destruct (km_vm _ _ _ _ _ _ _ _ K2) as ((? & _) & _).
    - intros x Hx. by apply set_entry_out. }
  exists m, T2, tf, root, p, l2. split; [|split; [apply K3|split; [apply K3|split; [|split; [done|apply K3]]]]].
  - unfold userinit. kstep E1. cbn iota. krun. unfold pget at 1. krun. change (p_pagetable _) with root.
    kstep (mem_run (uvmfirst root sym_initcode (zlen initcode)) c1 _ _ _); [|exact E2]. kstep (pset_head _ c1 _ _ _); [|reflexivity].
    kstep (tf_set_head TF_epc 0 c1 _ _ _); [|reflexivity]. kstep (tf_set_head TF_sp PGSIZE c1 _ _ _); [|reflexivity]. kstep (pset_head _ c1 _ _ _); [|reflexivity].
    kstep (namei_root c1 _ Hc1); [|by apply Hn1|exact Hit]. kstep (pset_head _ c1 _ _ _); [|reflexivity]. kstep (pset_head _ c1 _ _ _); [|reflexivity].
    unfold c1. rewrite (release_enter (LProc 0) c _ (proj1 Hc)) by (rewrite Hh; set_solver). rewrite (proj2 Hc). change (u64 0) with 0. change (u64 PGSIZE) with PGSIZE. reflexivity.
  - split; [apply K3| |apply set_entry_loads..]. intros i Hi. cbn [m pm]. rewrite set_entry_out; [by apply Hbytes|].
    apply (other_page tf p); [done|apply HF'; rewrite <- Hall; right; left|unfold in_page, Memory.within; lia|]. intros ->. apply Htfn. left.
Qed.

End Userinit.
