(* ===== verification/BootSpec.v ===== *)
(** * The kernel boots

    main() on hart 0, from the zeroed data of a kernel that has just been loaded: it
    reaches the scheduler without a panic, with the whole of physical memory accounted for,
    the kernel's address space in force, the devices set up and one process ready to run
    initcode.  The other harts wait for it and then use the same page table. *)
From S2P Require Import Prelude Bytes Memory Machine Riscv KString Kalloc Vm VmProps VmUser VmSpace VmSpec Sleeplock Bio BioSpec Log LogSpec Kernel Fs Pipe PipeSpec Proc.
From S2P Require Import User Ulib Uprintf Uart Console ConsoleSpec KPrintf Virtio VirtioInit Trap Kvm Boot BootProps.

(** ** Memory at later stages *)

Section Later.
Context {image : KernelImage}.

(** A page table stays what it is while other code takes pages from the free list. *)
Lemma vm_ok_later s T l s' l' : vm_ok s T l -> kmem_ok s' l' -> l' ⊆ l -> changes_in l (pm s) (pm s') ->
  vm_ok s' T l' /\ forall va, leaf (pm s') T va = leaf (pm s) T va.
Proof.
  intros (Hk & Hr & Hnd & HT) Hk' Hsub Hch.
  assert (forall q, q ∈ pt_pages T -> agree_on (in_page q) (pm s) (pm s')) as Hag.
  { intros q Hq x Hx. symmetry. apply Hch. intros q' Hq'. rewrite Forall_forall in HT. apply (other_page q' q); [|by apply HT|done|].
    - destruct Hk as (_ & Hl & _). apply free_list_pages in Hl. rewrite Forall_forall in Hl. auto.
    - intros ->. apply NoDup_app in Hnd as (_ & Hd & _). by apply (Hd q). }
  split; [|intros va; by apply leaf_agree]. split; [done|]. split; [by eapply pt_rep_agree|]. split; [|done].
  apply NoDup_app in Hnd as (H1 & H2 & _). apply NoDup_app. split; [done|]. split; [|apply Hk']. intros q Hq Hq'. apply (H2 q Hq). auto.
Qed.

(** There are at least as many free pages as fit after the kernel's image. *)
Lemma free_pages_many l n : (forall p, p ∈ l <-> free_page p) -> 0 <= n -> k_end + PGSIZE * (n + 1) <= PHYSTOP -> n <= zlen l.
Proof.
  intros Hl Hn Hend. pose proof k_etext_range as H1. pose proof k_end_range as H2.
  assert (0 <= k_end < 18446744073709547521) as Hrange by (unfold KERNBASE, PHYSTOP, KERNBASE in *; lia).
  destruct (PGROUNDUP_spec k_end Hrange) as [Ha Hup]. set (p := PGROUNDUP k_end) in *.
  assert ((fun i => p + PGSIZE * i) <$> seqZ 0 n ⊆+ l) as Hs%submseteq_length.
  { apply NoDup_submseteq.
    - apply NoDup_fmap_2; [intros i j; unfold PGSIZE; lia|apply NoDup_seqZ].
    - intros q (i & -> & Hi)%list_elem_of_fmap. apply elem_of_seqZ in Hi. apply Hl. unfold free_page, page_aligned, PGSIZE in *. clearbody p. split; [dlia|lia]. }
  rewrite length_fmap, length_seqZ in Hs. unfold zlen. lia.
Qed.

Lemma zeroed_later l m m' p : changes_in l m m' -> free_page p -> p ∉ l -> Forall free_page l -> zeroed m p -> zeroed m' p.
Proof.
  intros Hch Hp Hn Hl Hz x Hx. rewrite Hch; [by apply Hz|]. intros q Hq. rewrite Forall_forall in Hl. apply (other_page q p); [auto|done|done|]. intros ->. done.
Qed.
End Later.

(** ** Hart 0 *)

Section Hart0.
Context {D P V : Type} `{Chip : !UartChip D, Ok : !Uart16550 D} `{!PlicDev P} `{Mmio : !VirtioMmio V, Blk : !VirtioBlk V}
  {image : KernelImage} {dsw : DevSw} {syms : KernelSymbols}.
Abbreviation boot := (boot D P V).

Definition b_chip (b : boot) : D := u_chip (cn_u (t_con (b_m b))).
Definition b_csr (b : boot) : csrs := t_csr (b_m b).
Definition b_mem (b : boot) : mem := pm (k_pm (b_k b)).

(** A hart's thread as start() leaves it. *)
Record at_reset (c : ctx) : Prop := {
  ar_steady : steady c;
  ar_held : c_held c = [];
  ar_fuel : (tx_max <= c_fuel c)%nat;
}.

(** The kernel's data as the loader leaves it: zeroed, but for what is initialised; [d] is
    the content of the disk. *)
Record loaded (b : boot) (d : blocks) : Prop := {
  ld_panicked : u_panicked (cn_u (t_con (b_m b))) = 0;
  ld_mem : mem_ok (b_mem b);
  ld_freelist : freelist (k_pm (b_k b)) = 0;
  ld_procs : k_procs (b_k b) = replicate 64 proc0;
  ld_nextpid : k_nextpid (b_k b) = 1;
  ld_itable : k_itab (b_k b) = replicate 50 inode0;
  ld_cache : l_bio (k_l (b_k b)) = bss_bio d;
  ld_initcode : code_at (b_mem b) sym_initcode;
}.

(** The registers uartinit() writes. *)
Definition initialised (d : D) : D :=
  reg_write IER 3 (reg_write FCR 7 (reg_write LCR 3 (reg_write 1 0 (reg_write 0 3 (reg_write LCR 128 (reg_write IER 0 d)))))).

(** The priorities and enables of hart [h] in the interrupt controller. *)
Definition plic_hart (h : Z) (p : P) : P := plic_store (PLIC_SPRIORITY h) 0 (plic_store (PLIC_SENABLE h) 1026 p).
Definition plic_global (p : P) : P := plic_store (PLIC + 4) 1 (plic_store (PLIC + 40) 1 p).

Definition banner : list Z := [newline] ++ line "xv6 kernel is booting" ++ [newline].

(** The state hart 0 hands over: [T] is the tree of the kernel's page table, [stacks] the
    pages of the kernel stacks, [Tu] the tree of the first process's page table, [tf] and
    [page] its trapframe and its memory, [l] the pages that are left. *)
Record running (b b' : boot) (d : blocks) (T : ptree) (stacks : list Z) (Tu : ptree) (tf page : Z) (l : list Z) : Prop := {
  rn_started : b_started b' = 1;
  rn_banner : sent (b_chip b') = sent (initialised (b_chip b)) ++ banner;
  rn_satp : r_satp (b_csr b') = MAKE_SATP (b_pagetable b');
  rn_stvec : r_stvec (b_csr b') = sym_kernelvec;
  rn_plic : t_plic (b_m b') = plic_hart 0 (plic_global (t_plic (b_m b)));
  rn_kernel : vm_ok (k_pm (b_k b')) T l /\ T !! [] = Some (b_pagetable b');
  rn_layout : kernel_layout (leaf (b_mem b') T) stacks /\ length stacks = 64%nat;
  rn_cache : l_bio (k_l (b_k b')) = fresh_bio d;
  rn_disk : told (b_dev b') = told (b_dev b) ++ opening ++ closing (b_desc b') (b_avail b') (b_used b') ++ [(VIRTIO_MMIO_STATUS, 15)];
  rn_queue : Forall (zeroed (b_mem b')) [b_desc b'; b_avail b'; b_used b'];
  rn_descs : forall i, 0 <= i < NUM -> k_free (t_disk (b_m b')) i = 1;
  rn_user : vm_ok (k_pm (b_k b')) Tu l /\ first_memory (k_pm (b_k b')) Tu tf page;
  rn_procs : exists root, Tu !! [] = Some root /\ k_procs (b_k b') = first_proc tf root :: tail idle_procs;
  rn_init : k_initproc (b_k b') = Some 0 /\ k_itab (b_k b') = root_inode :: replicate 49 inode0;
  rn_pages : let all := pt_pages T ++ stacks ++ [b_desc b'; b_avail b'; b_used b'] ++ tf :: page :: pt_pages Tu ++ l in
    NoDup all /\ forall p, p ∈ all <-> free_page p;
}.

Lemma consoleinit_run c (s : con D) : c_held c = [] -> consoleinit c s = Done tt c (chip_now (initialised (u_chip (cn_u s))) s).
Proof using.
  intros Hh. unfold consoleinit. kstep (initlock_run LCons c s); [|rewrite Hh; apply not_elem_of_nil].
  refine (zoom_done on_uart uartinit c s tt c (set_chip (initialised (u_chip (cn_u s))) (cn_u s)) _). unfold uartinit, WriteReg. krun. apply initlock_run. rewrite Hh. set_solver.
Qed.

Lemma print_plain c (s : con D) l : at_reset c -> u_panicked (cn_u s) = 0 -> Forall is_byte l -> chr "%" ∉ l ->
  exists d, kprintf (Some l) [] c s = Done tt c (chip_now d s) /\ sent d = sent (u_chip (cn_u s)) ++ l.
Proof using Ok.
  intros [Hc Hh Hf] Hp Hb Hn. apply kprintf_formats; try done; [|rewrite Hh; apply not_elem_of_nil].
  clear -Hn. induction l as [|x l IH]; [done|]. cbn. apply not_elem_of_cons in Hn as [Hx Hn]. zcase (x =? chr "%"); [congruence|]. by rewrite IH.
Qed.

(** *** The stages of main() *)

Definition with_con (x : con D) (b : boot) : boot := set_bm (set_tcon x (b_m b)) b.

Abbreviation hello rest :=
  (bcon_ consoleinit ;; bcon_ printfinit ;; main_printf [newline] [] ;; main_printf (line "xv6 kernel is booting") [] ;; main_printf [newline] [] ;; rest).

Lemma hello_run {A} (rest : M boot A) c b : at_reset c -> u_panicked (cn_u (t_con (b_m b))) = 0 ->
  exists chip, hello rest c b = rest c (with_con (set_locking 1 (chip_now chip (t_con (b_m b)))) b) /\ sent chip = sent (initialised (b_chip b)) ++ banner.
Proof using Ok.
  intros Hc Hp. pose proof (ar_held c Hc) as Hh. set (s := t_con (b_m b)) in *. set (d0 := initialised (b_chip b)).
  set (s1 := set_locking 1 (chip_now d0 s)).
  destruct (print_plain c s1 [newline] Hc Hp) as (d1 & E1 & S1); [by apply cstring_bytes, cstring_check|vm_compute; set_solver|].
  destruct (print_plain c (chip_now d1 s1) (line "xv6 kernel is booting") Hc Hp) as (d2 & E2 & S2); [by apply cstring_bytes, cstring_check|vm_compute; set_solver|].
  destruct (print_plain c (chip_now d2 s1) [newline] Hc Hp) as (d3 & E3 & S3); [by apply cstring_bytes, cstring_check|vm_compute; set_solver|].
  exists d3. split.
  - unfold bcon_, main_printf. kstep (zoom_done on_bcon consoleinit c b tt c _ (consoleinit_run c s Hh)).
    assert (printfinit c (chip_now d0 s) = Done tt c s1) as E0 by (unfold printfinit; kstep (initlock_run LPr c (chip_now d0 s)); [done|rewrite Hh; apply not_elem_of_nil]).
    kstep (zoom_done on_bcon printfinit c (with_con (chip_now d0 s) b) tt c s1 E0).
    kstep (zoom_done on_bcon (kprintf _ _) c (with_con s1 b) tt c _ E1). kstep (zoom_done on_bcon (kprintf _ _) c (with_con (chip_now d1 s1) b) tt c _ E2).
    kstep (zoom_done on_bcon (kprintf _ _) c (with_con (chip_now d2 s1) b) tt c _ E3). reflexivity.
  - rewrite S3. cbn [u_chip cn_u chip_now set_cnu set_chip]. rewrite S2. cbn [u_chip cn_u chip_now set_cnu set_chip]. rewrite S1. cbn [u_chip cn_u s1 set_locking chip_now set_cnu set_chip].
    unfold banner. by rewrite <- !app_assoc.
Qed.

Abbreviation memory_up rest :=
  (bk_ (mem_ kinit) ;; paging_ kvminit ;; paging_ kvminithart ;; bk_ procinit ;; rest).

(** What the memory is like after the kernel's page table is there. *)
Definition paged (m : pmem) (root : Z) (T : ptree) (l stacks : list Z) : Prop :=
  vm_ok m T l /\ T !! [] = Some root /\ kernel_layout (leaf (pm m) T) stacks /\ length stacks = 64%nat /\ (11 <= length l)%nat /\
  NoDup (pt_pages T ++ l ++ stacks) /\ (forall p, p ∈ pt_pages T ++ l ++ stacks <-> free_page p) /\ code_at (pm m) sym_initcode.

Definition with_paging (m : pmem) (root : Z) (b : boot) : boot :=
  let k := set_procs idle_procs (set_kpm m (b_k b)) in
  let x := set_bk k b in
  Boot (set_tcsr (set_satp (MAKE_SATP root) (t_csr (b_m x))) (b_m x)) root (b_dev b) (b_desc b) (b_avail b) (b_used b) (b_started b).

Lemma memory_up_run {A} (rest : M boot A) c b : at_reset c -> mem_ok (b_mem b) -> freelist (k_pm (b_k b)) = 0 -> k_procs (b_k b) = replicate 64 proc0 ->
  code_at (b_mem b) sym_initcode -> 0 <= sym_initcode -> sym_initcode + zlen initcode <= k_end -> k_end + PGSIZE * 150 <= PHYSTOP ->
  exists m root T l stacks, memory_up rest c b = rest c (with_paging m root b) /\ paged m root T l stacks.
Proof using.
  intros [Hc Hh _] Hm H0 Hps Hcode Hs0 Hse Hend. assert (forall lk, lk ∉ c_held c) as Hno by (intros lk; rewrite Hh; apply not_elem_of_nil).
  destruct (kinit_frees_every_page c (k_pm (b_k b)) (proj1 Hc) (proj2 Hc) (Hno LKmem) Hm H0) as (s1 & l0 & E1 & Hk1 & Hall & Hch1).
  pose proof (free_pages_many l0 149 Hall ltac:(lia) Hend) as Hlen. unfold zlen in Hlen. destruct l0 as [|root l0]; [cbn in Hlen; lia|].
  set (k1 := set_kpm s1 (b_k b)). destruct (kvmmake_correct c Hc (Hno LKmem) k1 root l0 Hk1) as (m & T & l & stacks & E2 & Hst & Hsf & Hvm & Hr & Hlay & Hperm & H72 & Hch2); [cbn in Hlen; lia|].
  exists m, root, T, l, stacks. split.
  - unfold bk_, paging_. kstep (zoom_done on_bk (mem_ kinit) c b tt c k1 (mem_run kinit c (b_k b) tt s1 E1)).
    assert (kvminit c (Kvm (b_pagetable b) (r_satp (b_csr b)) k1) = Done tt c (Kvm root (r_satp (b_csr b)) (set_kpm m k1))) as E3
      by (unfold kvminit; kstep (zoom_done on_kvm kvmmake c (Kvm (b_pagetable b) (r_satp (b_csr b)) k1) root c _ E2); reflexivity).
    kstep (zoom_done on_paging kvminit c (set_bk k1 b) tt c _ E3). set (b2 := update on_paging _ _).
    assert (kvminithart c (view on_paging b2) = Done tt c (Kvm root (MAKE_SATP root) (set_kpm m k1))) as E4 by reflexivity.
    kstep (zoom_done on_paging kvminithart c b2 tt c _ E4). set (b3 := update on_paging _ b2).
    assert (procinit c (view on_bk b3) = Done tt c (set_procs idle_procs (set_kpm m k1))) as E5 by (change (view on_bk b3) with (set_kpm m k1); apply procinit_run; done).
    kstep (zoom_done on_bk procinit c b3 tt c _ E5). reflexivity.
  - split; [done|]. split; [done|]. split; [done|]. split; [done|]. pose proof (Permutation_length Hperm) as Hpl. rewrite !length_app in Hpl. cbn in Hpl, Hlen. split; [lia|].
    split; [rewrite Hperm; by destruct Hk1 as (_ & _ & ?)|]. split; [intros p; by rewrite Hperm|].
    eapply (code_kept (root :: l0)); [exact Hch2|intros q; by apply Hall|done|done|]. eapply (code_kept (root :: l0)); [exact Hch1|intros q; by apply Hall|done..].
Qed.

Lemma plicinithart_run c (m : machine D P) : plicinithart c m = Done tt c (set_tplic (plic_hart (s32 (r_tp (t_csr m))) (t_plic m)) m).
Proof using. by destruct m. Qed.

Abbreviation devices_up rest :=
  (mach_ trapinit ;; mach_ trapinithart ;; mach_ plicinit ;; mach_ plicinithart ;; bk_ (bio_ binit) ;; bk_ iinit ;; bk_ fileinit ;; rest).

Definition with_devices (d : blocks) (b : boot) : boot :=
  let m := b_m (set_bk (set_kl (LState (l_log (k_l (b_k b))) (fresh_bio d)) (b_k b)) b) in
  set_bm (Mach (t_con m) (set_stvec sym_kernelvec (t_csr m)) (plic_hart 0 (plic_global (t_plic m))) (t_disk m)) b.

Lemma devices_up_run {A} (rest : M boot A) c b d : c_held c = [] -> r_tp (b_csr b) = 0 -> l_bio (k_l (b_k b)) = bss_bio d -> k_itab (b_k b) = replicate 50 inode0 ->
  devices_up rest c b = rest c (with_devices d b).
Proof using.
  intros Hh Htp Hb Hi. assert (forall lk, lk ∉ c_held c) as Hno by (intros lk; rewrite Hh; apply not_elem_of_nil). unfold mach_, bk_. destruct b as [[cn csr pl dk] kpt dev de av us st].
  change (r_tp csr = 0) in Htp. change (l_bio (k_l (cn_k cn)) = bss_bio d) in Hb. change (k_itab (cn_k cn) = replicate 50 inode0) in Hi.
  set (B := fun (x : csrs) (y : P) => Boot (V := V) (Mach cn x y dk) kpt dev de av us st). set (csr1 := set_stvec sym_kernelvec csr).
  assert (trapinit c (Mach cn csr pl dk) = Done tt c (Mach cn csr pl dk)) as E1 by apply (initlock_run LTicks c _ (Hno LTicks)).
  kstep (zoom_done on_mach trapinit c (B csr pl) tt c _ E1). kstep (zoom_done on_mach trapinithart c (B csr pl) tt c (Mach cn csr1 pl dk) eq_refl).
  kstep (zoom_done on_mach plicinit c (B csr1 pl) tt c (Mach cn csr1 (plic_global pl) dk) eq_refl).
  assert (plicinithart c (Mach cn csr1 (plic_global pl) dk) = Done tt c (Mach cn csr1 (plic_hart 0 (plic_global pl)) dk)) as E2
    by (rewrite plicinithart_run; cbn [csr1 set_stvec r_tp t_csr]; by rewrite Htp).
  kstep (zoom_done on_mach plicinithart c (B csr1 (plic_global pl)) tt c _ E2). set (b2 := update on_mach _ _).
  set (k := cn_k cn) in *. set (k2 := set_kl (LState (l_log (k_l k)) (fresh_bio d)) k).
  assert (bio_ binit c k = Done tt c k2) as E3 by (refine (zoom_done on_cache binit c k tt c (fresh_bio d) _); cbn [view on_cache]; rewrite Hb; by apply binit_run).
  kstep (zoom_done on_bk (bio_ binit) c b2 tt c k2 E3). set (b3 := update on_bk k2 b2).
  assert (iinit c (view on_bk b3) = Done tt c k2) as E4 by (change (view on_bk b3) with k2; by apply iinit_run).
  kstep (zoom_done on_bk iinit c b3 tt c k2 E4). 
  pose proof (initlock_run LFtable c k2 (Hno LFtable) : fileinit c k2 = Done tt c k2) as E5.
  kstep (zoom_done on_bk fileinit c (update on_bk k2 b3) tt c k2 E5). reflexivity.
Qed.

Lemma cpuid_run c b : mach_ cpuid c b = Done (s32 (r_tp (b_csr b))) c b.
Proof using. by destruct b as [[]]. Qed.

Abbreviation disk_up := (zoom on_vinit virtio_disk_init ;; bk_ userinit ;; modify (set_started 1)).

Lemma replicate_free i : 0 <= i < NUM -> znth 0 (replicate 8 1) i = 1.
Proof using. intros Hi. unfold NUM in Hi. assert (i = 0 \/ i = 1 \/ i = 2 \/ i = 3 \/ i = 4 \/ i = 5 \/ i = 6 \/ i = 7) as H by lia. by repeat (destruct H as [-> |H]; [done|]); subst. Qed.

(** The state at the end, from the state before virtio_disk_init(). *)
Definition with_first (dv : V) (m : pmem) (p1 p2 p3 tf root : Z) (b : boot) : boot :=
  let x := b_m (set_bk (with_init (b_k b) m (tail idle_procs) tf root) b) in
  Boot (set_tdisk (set_dfree (znth 0 (replicate 8 1)) (t_disk x)) x) (b_pagetable b) dv p1 p2 p3 1.

(** What it holds. *)
Record first_up (b : boot) (T : ptree) (stacks : list Z) (dv : V) (m : pmem) (p1 p2 p3 tf root page : Z) (Tu : ptree) (l : list Z) : Prop := {
  fu_kernel : vm_ok m T l /\ kernel_layout (leaf (pm m) T) stacks;
  fu_told : told dv = told (b_dev b) ++ opening ++ closing p1 p2 p3 ++ [(VIRTIO_MMIO_STATUS, 15)];
  fu_queue : Forall (zeroed (pm m)) [p1; p2; p3];
  fu_user : vm_ok m Tu l /\ first_memory m Tu tf page /\ Tu !! [] = Some root;
  fu_pages : let all := pt_pages T ++ stacks ++ [p1; p2; p3] ++ tf :: page :: pt_pages Tu ++ l in NoDup all /\ forall p, p ∈ all <-> free_page p;
}.

Lemma disk_up_steps c b dv m2 p1 p2 p3 m3 tf rootu :
  virtio_disk_init c (view on_vinit b) = Done tt c (VInit dv m2 p1 p2 p3 (replicate 8 1)) ->
  userinit c (set_kpm m2 (b_k b)) = Done tt c (with_init (set_kpm m2 (b_k b)) m3 (tail idle_procs) tf rootu) ->
  disk_up c b = Done tt c (with_first dv m3 p1 p2 p3 tf rootu b).
Proof using.
  intros E1 E2. unfold bk_. kstep (zoom_done on_vinit virtio_disk_init c b tt c _ E1). set (b2 := update on_vinit _ _).
  kstep (zoom_done on_bk userinit c b2 tt c _ E2). reflexivity.
Qed.

Lemma disk_up_run c b root T l stacks : at_reset c -> paged (k_pm (b_k b)) root T l stacks ->
  k_procs (b_k b) = idle_procs -> k_nextpid (b_k b) = 1 -> k_itab (b_k b) = replicate 50 inode0 -> 0 <= sym_initcode -> sym_initcode + zlen initcode <= k_end ->
  exists dv m p1 p2 p3 tf rootu page Tu l', disk_up c b = Done tt c (with_first dv m p1 p2 p3 tf rootu b) /\ first_up b T stacks dv m p1 p2 p3 tf rootu page Tu l'.
Proof using Blk.
  intros [Hc Hh _] (Hvm & Hr & Hlay & Hst & Hlen & Hnd & Hall & Hcode) Hps Hnp Hit Hs0 Hse.
  assert (forall lk, lk ∉ c_held c) as Hno by (intros lk; rewrite Hh; apply not_elem_of_nil).
  destruct l as [|p1 [|p2 [|p3 l]]]; [cbn in Hlen; lia..|]. pose proof Hvm as (Hk & _).
  destruct (virtio_disk_init_ready c (view on_vinit b) p1 p2 p3 l (proj1 Hc) (Hno _) (Hno _) Hk eq_refl) as (dv & m2 & E1 & Hk2 & Z1 & Z2 & Z3 & Hch2 & Htold & _).
  rewrite (proj2 Hc) in E1. set (k2 := set_kpm m2 (b_k b)).
  assert (Forall free_page (p1 :: p2 :: p3 :: l)) as HF by (destruct Hk as (_ & Hl & _); by eapply free_list_pages).
  assert (changes_in (p1 :: p2 :: p3 :: l) (pm (k_pm (b_k b))) (pm m2)) as Hch2' by (eapply changes_in_mono, Hch2; intros q; rewrite !elem_of_cons, elem_of_nil; tauto).
  assert (code_at (pm m2) sym_initcode) as Hcode2 by (eapply (code_kept _ _ _ _ Hch2'); [by apply Forall_forall|done..]).
  destruct (userinit_run c k2 (tail idle_procs) l Hc Hh Hk2 ltac:(cbn in Hlen; lia) Hps Hnp Hit Hs0 Hse Hcode2) as (m3 & Tu & tf & rootu & page & l' & E2 & Hvu & Hru & Hfm & Hperm & Hch3).
  exists dv, m3, p1, p2, p3, tf, rootu, page, Tu, l'. split; [exact (disk_up_steps c b dv m2 p1 p2 p3 m3 tf rootu E1 E2)|].
  assert (l' ⊆ l) as Hsub by (intros q Hq; rewrite <- Hperm; do 2 right; apply elem_of_app; by right).
  assert (changes_in (p1 :: p2 :: p3 :: l) (pm (k_pm (b_k b))) (pm m3)) as Hch by (eapply changes_in_trans; [exact Hch2'|]; eapply changes_in_mono, Hch3; intros q Hq; do 3 right; done).
  destruct (vm_ok_later _ T _ m3 l' Hvm (proj1 Hvu)) as [Hvm' Hleaf]; [intros q Hq; do 3 right; by apply Hsub|done|].
  split; [|exact Htold| |by split|].
  - split; [done|]. apply (layout_ext _ (leaf (pm (k_pm (b_k b))) T)); [lia|intros va _; apply Hleaf|done].
  - assert (NoDup (p1 :: p2 :: p3 :: l)) as Hn by (by destruct Hk as (_ & _ & ?)). apply NoDup_cons in Hn as [N1 Hn]. apply NoDup_cons in Hn as [N2 Hn]. apply NoDup_cons in Hn as [N3 _].
    rewrite !not_elem_of_cons in N1. rewrite not_elem_of_cons in N2. apply Forall_cons in HF as [F1 HF]. apply Forall_cons in HF as [F2 HF]. apply Forall_cons in HF as [F3 HF].
    destruct N1 as (_ & _ & N1), N2 as (_ & N2).
    constructor; [exact (zeroed_later l _ _ p1 Hch3 F1 N1 HF Z1)|]. constructor; [exact (zeroed_later l _ _ p2 Hch3 F2 N2 HF Z2)|].
    constructor; [exact (zeroed_later l _ _ p3 Hch3 F3 N3 HF Z3)|]. constructor.
  - assert (pt_pages T ++ stacks ++ [p1; p2; p3] ++ tf :: page :: pt_pages Tu ++ l' ≡ₚ pt_pages T ++ (p1 :: p2 :: p3 :: l) ++ stacks) as Ep.
    { apply Permutation_app_head. rewrite Permutation_app_comm. apply Permutation_app_tail. cbn [app]. by rewrite Hperm. }
    split; [by rewrite Ep|]. intros q. rewrite Ep. apply Hall.
Qed.

(** C8: main() on hart 0 of a kernel that has just been loaded, with at least 150 pages of
    memory after its image: it does not panic and ends where the scheduler starts.  Every
    page of memory then has exactly one use: the kernel's page table, which has the kernel's
    layout and is in force, the kernel stacks, the disk's queue, the first process (ready to
    run initcode at address 0 on its page, with its trapframe and page table) or the free
    list.  The disk has been told of its queue, the buffer cache and the inode table are
    set up, the console has printed the banner and the other harts may start. *)
Theorem main_boots c b d : at_reset c -> loaded b d -> r_tp (b_csr b) = 0 ->
  0 <= sym_initcode -> sym_initcode + zlen initcode <= k_end -> k_end + PGSIZE * 150 <= PHYSTOP ->
  exists b' T stacks Tu tf page l, main c b = Done tt c b' /\ running b b' d T stacks Tu tf page l.
Proof using Ok Blk.
  intros Hc [H1 H2 H3 H4 H5 H6 H7 H8] Htp Hs0 Hse Hend.
  destruct (hello_run (memory_up (devices_up disk_up)) c b Hc H1) as (chip & E1 & Hsent). set (b1 := with_con _ b) in E1.
  destruct (memory_up_run (devices_up disk_up) c b1 Hc H2 H3 H4 H8 Hs0 Hse Hend) as (m & root & T & l0 & stacks & E2 & Hpg). set (b2 := with_paging m root b1) in E2.
  pose proof (devices_up_run disk_up c b2 d (ar_held c Hc) Htp H7 H6) as E3. set (b3 := with_devices d b2) in E3.
  destruct (disk_up_run c b3 root T l0 stacks Hc Hpg eq_refl H5 H6 Hs0 Hse) as (dv & m3 & p1 & p2 & p3 & tf & rootu & page & Tu & l & E4 & [F1 F2 F3 F4 F5]).
  exists (with_first dv m3 p1 p2 p3 tf rootu b3), T, stacks, Tu, tf, page, l. split.
  - unfold main. kstep (cpuid_run c b). rewrite Htp. change (s32 0 =? 0) with true. cbv iota. rewrite E1, E2, E3, E4. reflexivity.
  - destruct F1 as [F1 F1'], F4 as (F4 & F4' & F4''), Hpg as (_ & Hr & _ & Hst & _). 
    split; [exact eq_refl|exact Hsent|exact eq_refl|exact eq_refl|exact eq_refl|exact (conj F1 Hr)|exact (conj F1' Hst)|exact eq_refl|exact F2|exact F3
      |exact replicate_free|exact (conj F4 F4')|exact (ex_intro _ rootu (conj F4'' eq_refl))|exact (conj eq_refl eq_refl)|exact F5].
Qed.

(** ** The other harts *)

Definition other_greeting (h : Z) : list Z := str "hart " ++ ksigned 10 h ++ str " starting" ++ [newline].

Lemma wait_started_run c (b : boot) : wait_started c b = if b_started b =? 0 then Diverge else Done tt c b.
Proof using. unfold wait_started. krun. by destruct (b_started b =? 0). Qed.

(** Before hart 0 is done, a hart other than 0 waits. *)
Theorem other_hart_waits c b : s32 (r_tp (b_csr b)) <> 0 -> b_started b = 0 -> main c b = Diverge.
Proof using.
  intros Htp Hs. unfold main. kstep (cpuid_run c b). zcase (s32 (r_tp (b_csr b)) =? 0); [done|]. unfold bind at 1. by rewrite wait_started_run, Hs.
Qed.

(** Once it is, the hart [h] announces itself, switches to the page table that hart 0 built,
    installs the kernel's trap vector, enables its interrupts and changes nothing else. *)
Theorem other_hart_starts c b h : at_reset c -> u_panicked (cn_u (t_con (b_m b))) = 0 -> s32 (r_tp (b_csr b)) = h -> h <> 0 -> b_started b <> 0 ->
  exists chip, sent chip = sent (b_chip b) ++ other_greeting h /\
    main c b = Done tt c (set_bm (Mach (chip_now chip (t_con (b_m b))) (set_stvec sym_kernelvec (set_satp (MAKE_SATP (b_pagetable b)) (b_csr b)))
      (plic_hart h (t_plic (b_m b))) (t_disk (b_m b))) b).
Proof using Ok.
  intros [Hc Hheld Hfu] Hp Htp Hh Hs. assert (s32 h = h) as Eh by (subst h; pose proof (s32_range (r_tp (b_csr b))); apply s32_small; lia).
  destruct (kprintf_formats (line "hart %d starting") [VInt h] (other_greeting h) c (t_con (b_m b))) as (chip & E & Hsent);
    [by apply cstring_bytes, cstring_check|by repeat constructor| |done|rewrite Hheld; apply not_elem_of_nil|done|done|].
  { transitivity (Some (str "hart " ++ ksigned 10 (s32 h) ++ str " starting" ++ [newline])); [reflexivity|by rewrite Eh]. }
  exists chip. split; [exact Hsent|]. unfold main. kstep (cpuid_run c b). rewrite Htp. zcase (h =? 0); [done|].
  assert (wait_started c b = Done tt c b) as E1 by (rewrite wait_started_run; by zcase (b_started b =? 0)). kstep E1. kstep (cpuid_run c b). rewrite Htp.
  unfold main_printf, bcon_, paging_, mach_. kstep (zoom_done on_bcon (kprintf _ _) c b tt c _ E). destruct b as [[cn csr pl dk] kpt dev de av us st].
  kstep (zoom_done on_paging kvminithart c _ tt c _ eq_refl). kstep (zoom_done on_mach trapinithart c _ tt c _ eq_refl).
  etrans; [exact (zoom_done on_mach plicinithart c _ tt c _ (plicinithart_run c _))|]. subst h. reflexivity.
Qed.

End Hart0.

(** ** A machine *)

Module Demo.
#[local] Instance syms : KernelSymbols := {|
  sym_forkret := 0x80001000; sym_initcode := 0x80009000; sym_kernelvec := 0x80005000; sym_usertrap := 0x80002000; sym_uservec := 0x80007000; sym_userret := 0x8000709c |}.
#[local] Instance dsw : DevSw := {| devsw_read _ := None; devsw_write _ := None |}.
(** The stores to the interrupt controller. *)
#[local] Instance plic : PlicDev (list (Z * Z)) := {| plic_load _ p := (0, p); plic_store a v p := p ++ [(a, v)] |}.

Definition image_memory : mem := wr_list ∅ 0x80009000 initcode.

Definition power_on (hart : Z) : boot plain_chip (list (Z * Z)) plain_disk :=
  Boot (Mach (Con (Uart (PlainChip [] [] false) 0 (replicate 32 0) 0 0) (replicate 128 0) 0 0 0 0
      (K (PMem image_memory 0) (LState (idle_log 1) (bss_bio ∅)) (Superblock 0 0 0 0 0 0 0 0) (replicate 50 inode0) (replicate 100 file0) ∅ (replicate 64 proc0) None 1 0 []))
    (Csrs 0 0 0 0 0 0 hart) [] (Disk (fun _ => Desc PNull 0 0 0) 0 (replicate 8 0) 0 (replicate 8 0) (fun _ => 0) 0 (fun _ => None) (fun _ => 0) (fun _ => BlkReq 0 0 0) (fun _ => VBuf 0 [] 0)))
    0 [] 0 0 0 0.

Lemma at_reset_boot_ctx : at_reset (D := plain_chip) boot_ctx.
Proof. split; [split; [apply boot_ctx_ok|reflexivity]|reflexivity|cbn; lia]. Qed.

Lemma power_on_loaded : loaded (power_on 0) ∅.
Proof.
  split; try reflexivity.
  - apply mem_ok_wr_list, mem_ok_empty.
  - intros i Hi. unfold b_mem. cbn [b_k b_m power_on t_con cn_k k_pm pm sym_initcode syms]. unfold image_memory. rewrite rd_wr_list.
    change (zlen initcode) with 52 in *. zcase (0x80009000 <=? 0x80009000 + i); [|lia]. zcase (0x80009000 + i <? 0x80009000 + 52); [|lia]. cbn [andb].
    replace (0x80009000 + i - 0x80009000) with i by lia.
    assert (forallb (fun j => u8 (znth 0 initcode j) =? znth 0 initcode j) (seqZ 0 52) = true) as H by reflexivity.
    rewrite forallb_forall in H. apply Z.eqb_eq, H, list_elem_of_In, elem_of_seqZ. lia.
Qed.

Lemma main_boots_witness : exists b' T stacks Tu tf page l, main boot_ctx (power_on 0) = Done tt boot_ctx b' /\ running (power_on 0) b' ∅ T stacks Tu tf page l.
Proof. apply (main_boots boot_ctx (power_on 0) ∅ at_reset_boot_ctx power_on_loaded eq_refl); vm_compute; congruence. Defined.

Lemma other_hart_waits_witness : main boot_ctx (power_on 3) = Diverge.
Proof. apply other_hart_waits; [vm_compute; congruence|reflexivity]. Defined.

Lemma other_hart_starts_witness : exists chip b', sent chip = line "hart 3 starting" /\ main boot_ctx (set_started 1 (power_on 3)) = Done tt boot_ctx b'.
Proof.
  destruct (other_hart_starts boot_ctx (set_started 1 (power_on 3)) 3 at_reset_boot_ctx eq_refl eq_refl) as (chip & Hs & E); [lia|discriminate|].
  exists chip. eexists. split; [exact Hs|exact E].
Defined.
End Demo.
