(* ===== verification/Mkfs.v ===== *)
(** * Making a file-system image (mkfs/mkfs.c)

    mkfs runs on the build machine, which is taken to be little-endian (it stores the
    superblock's magic number and reads [sb] without conversion).  Its image file is a map
    from sector numbers to sectors; the files it copies in are arguments, each with the
    chunks that read(2) returns for it, or nothing when it cannot be opened.  die() and a
    failed assert end the program. *)
From S2P Require Import Prelude Memory Machine Bytes Bio Log Kernel Fs.

Declare Scope host_scope.

Definition NINODES : Z := 200.
Definition nbitmap : Z := FSSIZE / (BSIZE * 8) + 1.
Definition ninodeblocks : Z := NINODES / IPB + 1.
Definition nlog : Z := LOGSIZE.
Definition nmeta : Z := 2 + nlog + ninodeblocks + nbitmap.
Definition nblocks : Z := FSSIZE - nmeta.

(** The image and the two allocation counters. *)
Record mk := Mk { img : gmap Z (list Z); freeinode : Z; freeblock : Z }.

Definition set_img (x : gmap Z (list Z)) (s : mk) : mk := Mk x (freeinode s) (freeblock s).

(** A host computation ends with a value, or the process exits with a message. *)
Inductive run (A : Type) := Ok (a : A) (s : mk) | Exit (msg : String.string).
Arguments Ok {A}. Arguments Exit {A}.
Definition host (A : Type) : Type := mk -> run A.

Definition hret {A} (a : A) : host A := fun s => Ok a s.
Definition hbind {A B} (m : host A) (f : A -> host B) : host B :=
  fun s => match m s with Ok a s' => f a s' | Exit msg => Exit msg end.
Definition die {A} (msg : String.string) : host A := fun _ => Exit msg.
Definition assert_ (b : bool) (msg : String.string) : host unit := if b then hret tt else die msg.

Notation "x <~ m ; f" := (hbind m (fun x => f)) (at level 100, m at next level, right associativity) : host_scope.
Notation "m ;; f" := (hbind m (fun _ => f)) : host_scope.
#[local] Open Scope host_scope.
#[local] Open Scope Z_scope.

(** The four (two) bytes xint (xshort) stores, as the host reads them. *)
Definition xshort (x : Z) : Z := le_val [u8 x; u8 (Z.shiftr x 8)].
Definition xint (x : Z) : Z := le_val [u8 x; u8 (Z.shiftr x 8); u8 (Z.shiftr x 16); u8 (Z.shiftr x 24)].

Definition sb : superblock :=
  Superblock FSMAGIC (xint FSSIZE) (xint nblocks) (xint NINODES) (xint nlog) (xint 2) (xint (2 + nlog)) (xint (2 + nlog + ninodeblocks)).

Definition sb_bytes (sb : superblock) : list Z :=
  concat (map (le_bytes 4) [sb_magic sb; sb_size sb; sb_nblocks sb; sb_ninodes sb; sb_nlog sb; sb_logstart sb; sb_inodestart sb; sb_bmapstart sb]).

(** The file position of a sector is an unsigned 32-bit product. *)
Definition sector (sec : Z) : Z := u32 (sec * BSIZE) / BSIZE.

Definition wsect (sec : Z) (buf : list Z) : host unit :=
  fun s => Ok tt (set_img (<[sector sec := buf]> (img s)) s).

Definition rsect (sec : Z) : host (list Z) :=
  fun s => match img s !! sector sec with Some buf => Ok buf s | None => Exit "read" end.

Definition winode (inum : Z) (ip : list Z) : host unit :=
  buf <~ rsect (IBLOCK inum sb) ;
  wsect (IBLOCK inum sb) (splice buf (64 * (inum mod IPB)) ip).

Definition rinode (inum : Z) : host (list Z) :=
  buf <~ rsect (IBLOCK inum sb) ;
  hret (slice buf (64 * (inum mod IPB)) 64).

(** [freeblock++] *)
Definition next_block : host Z := fun s => Ok (freeblock s) (Mk (img s) (freeinode s) (u32 (freeblock s + 1))).

Definition ialloc (type : Z) : host Z := fun s =>
  let inum := freeinode s in
  let din := replicate 64 0 in
  let din := put16 din 0 (xshort type) in
  let din := put16 din 6 (xshort 1) in
  let din := put32 din 8 (xint 0) in
  (winode inum din ;; hret inum) (Mk (img s) (u32 (freeinode s + 1)) (freeblock s)).

Fixpoint balloc_fill (k : nat) (i : Z) (buf : list Z) : list Z :=
  match k with
  | O => buf
  | S k' => balloc_fill k' (i + 1) (zupd buf (i / 8) (u8 (Z.lor (znth 0 buf (i / 8)) (Z.shiftl 1 (i mod 8)))))
  end.

Definition balloc (used : Z) : host unit :=
  assert_ (used <? BSIZE * 8) "used < BSIZE*8" ;;
  wsect (sb_bmapstart sb) (balloc_fill (Z.to_nat used) 0 (replicate (Z.to_nat BSIZE) 0)).

(** The block of the file's [fbn]-th block, allocated where there is none, and the inode. *)
Definition iappend_block (din : list Z) (fbn : Z) : host (list Z * Z) :=
  if fbn <? NDIRECT then
    din <~ (if xint (get32 din (12 + 4 * fbn)) =? 0 then b <~ next_block ; hret (put32 din (12 + 4 * fbn) (xint b)) else hret din) ;
    hret (din, xint (get32 din (12 + 4 * fbn)))
  else
    din <~ (if xint (get32 din (12 + 4 * NDIRECT)) =? 0 then b <~ next_block ; hret (put32 din (12 + 4 * NDIRECT) (xint b)) else hret din) ;
    indirect <~ rsect (xint (get32 din (12 + 4 * NDIRECT))) ;
    indirect <~ (if get32 indirect (4 * (fbn - NDIRECT)) =? 0 then
                   b <~ next_block ;
                   let indirect := put32 indirect (4 * (fbn - NDIRECT)) (xint b) in
                   wsect (xint (get32 din (12 + 4 * NDIRECT))) indirect ;;
                   hret indirect
                 else hret indirect) ;
    hret (din, xint (get32 indirect (4 * (fbn - NDIRECT)))).

(** Each turn copies at least one byte of [p]: [length p] turns are enough. *)
Fixpoint iappend_loop (k : nat) (din : list Z) (off : Z) (p : list Z) : host (list Z * Z) :=
  if 0 <? zlen p then
    match k with
    | O => die "out of fuel"
    | S k' =>
        let fbn := off / BSIZE in
        assert_ (fbn <? MAXFILE) "fbn < MAXFILE" ;;
        r <~ iappend_block din fbn ;
        let '(din, x) := r in
        let n1 := min_ (zlen p) ((fbn + 1) * BSIZE - off) in
        buf <~ rsect x ;
        wsect x (splice buf (off - fbn * BSIZE) (take (Z.to_nat n1) p)) ;;
        iappend_loop k' din (u32 (off + n1)) (drop (Z.to_nat n1) p)
    end
  else hret (din, off).

Definition iappend (inum : Z) (p : list Z) : host unit :=
  din <~ rinode inum ;
  r <~ iappend_loop (length p) din (xint (get32 din 8)) p ;
  let '(din, off) := r in
  winode inum (put32 din 8 (xint off)).

(** ** main *)

(** A file of the command line: its name and what reading it returns. *)
Record hfile := HFile { hf_name : list Z; hf_chunks : option (list (list Z)) }.

Definition user_dir : list Z := [117; 115; 101; 114; 47].

(** The name a file gets in the image: without a leading user/ ... *)
Definition strip_user (name : list Z) : list Z :=
  if bytes_strncmp 5 name user_dir =? 0 then drop 5 name else name.
(** ... and without a leading underscore. *)
Definition strip_underscore (name : list Z) : list Z :=
  if hd0 name =? 95 then tail name else name.

Fixpoint zero_disk (k : nat) (i : Z) : host unit :=
  match k with
  | O => hret tt
  | S k' => wsect i (replicate (Z.to_nat BSIZE) 0) ;; zero_disk k' (i + 1)
  end.

Definition append_dirent (inum : Z) (name : list Z) : host unit :=
  iappend ROOTINO (dirent_bytes (xshort inum) (bytes_strncpy (Z.to_nat DIRSIZ) name)).

Fixpoint append_chunks (inum : Z) (chunks : list (list Z)) : host unit :=
  match chunks with
  | [] => hret tt
  | buf :: chunks' => iappend inum buf ;; append_chunks inum chunks'
  end.

Definition add_file (f : hfile) : host unit :=
  let shortname := strip_user (hf_name f) in
  assert_ (negb (bool_decide (SLASH ∈ shortname))) "index(shortname, '/') == 0" ;;
  match hf_chunks f with
  | None => die "open"
  | Some chunks =>
      let shortname := strip_underscore shortname in
      inum <~ ialloc T_FILE ;
      append_dirent inum shortname ;;
      append_chunks inum chunks
  end.

Fixpoint add_files (files : list hfile) : host unit :=
  match files with
  | [] => hret tt
  | f :: files' => add_file f ;; add_files files'
  end.

(** Rounds the root directory's size up to a block. *)
Definition fix_root : host unit :=
  din <~ rinode ROOTINO ;
  let off := xint (get32 din 8) in
  let off := u32 ((off / BSIZE + 1) * BSIZE) in
  winode ROOTINO (put32 din 8 (xint off)).

Definition main (files : list hfile) : host unit :=
  zero_disk (Z.to_nat FSSIZE) 0 ;;
  wsect 1 (splice (replicate (Z.to_nat BSIZE) 0) 0 (sb_bytes sb)) ;;
  rootino <~ ialloc T_DIR ;
  assert_ (rootino =? ROOTINO) "rootino == ROOTINO" ;;
  append_dirent rootino [46] ;;
  append_dirent rootino [46; 46] ;;
  add_files files ;;
  fix_root ;;
  used <~ (fun s => Ok (freeblock s) s) ;
  balloc used.

(** The program starts with an empty (truncated) image file. *)
Definition mkfs (files : list hfile) : run unit := main files (Mk ∅ 1 nmeta).
