(* ===== verification/MkfsProps.v ===== *)
(** * Appending to files of the image (mkfs/mkfs.c: iappend, rinode, winode)

    The blocks of a file under construction, the effect of allocating one and of copying
    bytes into it, and the inode blocks: [iappend] adds its bytes to its file and touches no
    block of another. *)
From S2P Require Import Prelude Memory Machine Bytes Bio Log Txn Kernel Fs FsAlloc FsBmap Mkfs.
#[local] Open Scope host_scope.
#[local] Open Scope Z_scope.

#[local] Arguments xint : simpl never.
#[local] Arguments xshort : simpl never.

Lemma xint_small x : 0 <= x < 2 ^ 32 -> xint x = x.
Proof. intros H. unfold xint, u8. cbn [le_val]. rewrite !Z.shiftr_div_pow2 by lia. change (2 ^ 32) with 4294967296 in H. change (2 ^ 8) with 256. change (2 ^ 16) with 65536. change (2 ^ 24) with 16777216. dlia. Qed.
Lemma xshort_small x : 0 <= x < 2 ^ 16 -> xshort x = x.
Proof. intros H. unfold xshort, u8. cbn [le_val]. rewrite !Z.shiftr_div_pow2 by lia. change (2 ^ 16) with 65536 in H. change (2 ^ 8) with 256. dlia. Qed.

Lemma sector_small b : 0 <= b < 2000 -> sector b = b.
Proof. intros H. unfold sector, BSIZE. rewrite u32_small by lia. dlia. Qed.

Lemma hbind_ok {A B} (m : host A) (f : A -> host B) s a s' : m s = Ok a s' -> hbind m f s = f a s'.
Proof. intros H. unfold hbind. by rewrite H. Qed.

Definition blk (s : mk) (b : Z) : list Z := default [] (img s !! b).

(** The sectors exist, and those not yet allocated are zero. *)
Record disk_ok (s : mk) : Prop := {
  dk_img : forall b, 0 <= b < 2000 -> img s !! b = Some (blk s b) /\ length (blk s b) = 1024%nat;
  dk_fresh : forall b, freeblock s <= b < 2000 -> blk s b = zeros;
  dk_free : nmeta <= freeblock s <= 2000;
}.

Lemma rsect_run s b : disk_ok s -> 0 <= b < 2000 -> rsect b s = Ok (blk s b) s.
Proof. intros H Hb. unfold rsect. rewrite sector_small by done. by rewrite (proj1 (dk_img _ H b Hb)). Qed.

Definition put_blk (b : Z) (d : list Z) (s : mk) : mk := set_img (<[b := d]> (img s)) s.

Lemma wsect_run s b d : 0 <= b < 2000 -> wsect b d s = Ok tt (put_blk b d s).
Proof. intros Hb. unfold wsect. by rewrite sector_small. Qed.

Lemma blk_put_eq s b d : blk (put_blk b d s) b = d.
Proof. unfold blk, put_blk. cbn. by rewrite lookup_insert_eq. Qed.
Lemma blk_put_ne s b d b' : b' <> b -> blk (put_blk b d s) b' = blk s b'.
Proof. intros H. unfold blk, put_blk. cbn. by rewrite lookup_insert_ne. Qed.

Lemma put_disk_ok s b d : disk_ok s -> 0 <= b < freeblock s -> length d = 1024%nat -> disk_ok (put_blk b d s).
Proof.
  intros [H1 H2 H3] Hb Hd. split; [|intros b' Hb'; cbn in Hb'; rewrite blk_put_ne by lia; auto|done].
  intros b' Hb'. destruct (decide (b' = b)) as [-> |Hne].
  - rewrite blk_put_eq. split; [|done]. unfold put_blk. cbn. by rewrite lookup_insert_eq.
  - rewrite blk_put_ne by done. destruct (H1 b' Hb'). split; [|done]. unfold put_blk. cbn. by rewrite lookup_insert_ne.
Qed.

(** ** The blocks of a file *)

Definition daddr (din : list Z) (j : Z) : Z := get32 din (12 + 4 * j).
Definition ind (din : list Z) : Z := daddr din 12.
Definition faddr (s : mk) (din : list Z) (j : Z) : Z :=
  if j <? 12 then daddr din j else if ind din =? 0 then 0 else get32 (blk s (ind din)) (4 * (j - 12)).

Definition good (s : mk) (b : Z) : Prop := nmeta <= b < freeblock s.

(** The inode's first [n] blocks are allocated, and its indirect block when [m]. *)
Record blocks_ok (s : mk) (din : list Z) (n : Z) (m : bool) : Prop := {
  fm_len : length din = 64%nat;
  fm_n : 0 <= n <= 268;
  fm_m : 12 < n -> m = true;
  fm_ind : if m then good s (ind din) else ind din = 0;
  fm_addr : forall j, 0 <= j < 268 -> if j <? n then good s (faddr s din j) else faddr s din j = 0;
  fm_inj : forall i j, 0 <= i < n -> 0 <= j < n -> faddr s din i = faddr s din j -> i = j;
  fm_ne : forall j, 0 <= j < n -> m = true -> faddr s din j <> ind din;
}.

(** The blocks that belong to it. *)
Definition owned (s : mk) (din : list Z) (n : Z) (m : bool) (b : Z) : Prop :=
  (m = true /\ b = ind din) \/ exists j, 0 <= j < n /\ b = faddr s din j.

Lemma blocks_good s din n m j : blocks_ok s din n m -> 0 <= j < n -> good s (faddr s din j).
Proof. intros H Hj. pose proof (fm_n _ _ _ _ H). pose proof (fm_addr _ _ _ _ H j ltac:(lia)) as Ha. zcase (j <? n); [done|lia]. Qed.

Lemma blocks_none s din n m j : blocks_ok s din n m -> n <= j < 268 -> faddr s din j = 0.
Proof. intros H Hj. pose proof (fm_n _ _ _ _ H). pose proof (fm_addr _ _ _ _ H j ltac:(lia)) as Ha. zcase (j <? n); [lia|done]. Qed.

Lemma owned_good s din n m b : blocks_ok s din n m -> owned s din n m b -> good s b.
Proof. intros H [[-> ->]|(j & Hj & ->)]; [exact (fm_ind _ _ _ _ H)|by eapply blocks_good]. Qed.

(** The map depends on the inode's own indirect block only. *)
Lemma faddr_frame s s' din j : blk s' (ind din) = blk s (ind din) -> faddr s' din j = faddr s din j.
Proof. intros H. unfold faddr. by rewrite H. Qed.

Lemma blocks_frame s s' din n m : blocks_ok s din n m -> freeblock s <= freeblock s' -> (m = true -> blk s' (ind din) = blk s (ind din)) ->
  blocks_ok s' din n m /\ forall j, 0 <= j < 268 -> faddr s' din j = faddr s din j.
Proof.
  intros H Hfb Hb. assert (forall j, faddr s' din j = faddr s din j) as E.
  { intros j. destruct m; [by apply faddr_frame, Hb|]. pose proof (fm_ind _ _ _ _ H) as Hi. cbn in Hi. unfold faddr. by rewrite Hi. }
  split; [|auto]. destruct H as [? ? ? H4 H5 H6 H7]. split; [done|done|done| | | |].
  - destruct m; [|done]. unfold good in *. lia.
  - intros j Hj. specialize (H5 j Hj). rewrite E. destruct (j <? n); [unfold good in *; lia|done].
  - intros i j. rewrite !E. auto.
  - intros j. rewrite E. auto.
Qed.

(** ** Allocation *)

Definition bump (s : mk) : mk := Mk (img s) (freeinode s) (freeblock s + 1).

Lemma next_block_run s : disk_ok s -> next_block s = Ok (freeblock s) (bump s).
Proof. intros H. unfold next_block, bump. pose proof (dk_free _ H). assert (nmeta = 46) as E by reflexivity. rewrite u32_small by lia. done. Qed.

Lemma bump_ok s : disk_ok s -> freeblock s < 2000 -> disk_ok (bump s).
Proof. intros [H1 H2 H3] H. split; cbn; [done|intros; apply H2; lia|lia]. Qed.

Lemma daddr_put_eq din j v : length din = 64%nat -> 0 <= j <= 12 -> 0 <= v < 2 ^ 32 -> daddr (put32 din (12 + 4 * j) v) j = v.
Proof. intros Hl Hj Hv. unfold daddr. apply getn_putn_eq; [lia|unfold zlen; lia|exact Hv]. Qed.
Lemma daddr_put_ne din j v i : length din = 64%nat -> 0 <= j <= 12 -> 0 <= i <= 12 -> i <> j -> daddr (put32 din (12 + 4 * j) v) i = daddr din i.
Proof. intros Hl Hj Hi Hne. unfold daddr. apply getn_putn_ne; unfold zlen; lia. Qed.

(** What allocating a block of a file leaves: every block but the file's indirect block
    (and, of course, the image's new sectors) is as before. *)
Record alloced (s : mk) (din : list Z) (n : Z) (m : bool) (s' : mk) (din' : list Z) (n' : Z) (m' : bool) : Prop := {
  al_map : blocks_ok s' din' n' m';
  al_disk : disk_ok s';
  al_same : forall j, 0 <= j < n -> faddr s' din' j = faddr s din j;
  al_blk : forall b, ~ (m = true /\ b = ind din) -> b < freeblock s -> img s' !! b = img s !! b;
  al_ind : if m then ind din' = ind din else m' = true -> freeblock s <= ind din';
  al_fb : freeblock s' = freeblock s + (n' - n) + (b2z m' - b2z m);
  al_new : forall b, owned s' din' n' m' b -> owned s din n m b \/ freeblock s <= b;
  al_zero : forall j, n <= j < n' -> blk s' (faddr s' din' j) = zeros;
  al_inodes : freeinode s' = freeinode s;
  al_head : slice din' 0 12 = slice din 0 12;
}.

Lemma nmeta_val : nmeta = 46.
Proof. reflexivity. Qed.

Lemma alloced_refl s din n m : blocks_ok s din n m -> disk_ok s -> alloced s din n m s din n m.
Proof. intros H Hd. split; try done; try lia; [by destruct m|auto]. Qed.

Lemma alloced_trans s1 d1 n1 m1 s2 d2 m2 s3 d3 n3 m3 : blocks_ok s1 d1 n1 m1 ->
  alloced s1 d1 n1 m1 s2 d2 n1 m2 -> alloced s2 d2 n1 m2 s3 d3 n3 m3 -> n1 <= n3 -> (m1 = true -> m2 = true) -> (m2 = true -> m3 = true) -> alloced s1 d1 n1 m1 s3 d3 n3 m3.
Proof.
  intros Hf H1 H2 Hn Hm1 Hm2. pose proof (al_fb _ _ _ _ _ _ _ _ H1) as Hfb. assert (freeblock s1 <= freeblock s2) as Hle by (destruct m1, m2; cbn in Hfb; try lia; by specialize (Hm1 eq_refl)).
  split; [apply H2|apply H2| | | | | | | |].
  - intros j Hj. rewrite (al_same _ _ _ _ _ _ _ _ H2) by done. by apply (al_same _ _ _ _ _ _ _ _ H1).
  - intros b Hb Hlt. rewrite (al_blk _ _ _ _ _ _ _ _ H2); [by apply (al_blk _ _ _ _ _ _ _ _ H1)| |lia].
    intros [-> ->]. pose proof (al_ind _ _ _ _ _ _ _ _ H1) as Hi. destruct m1; [by apply Hb|]. specialize (Hi eq_refl). lia.
  - pose proof (al_ind _ _ _ _ _ _ _ _ H1) as I1. pose proof (al_ind _ _ _ _ _ _ _ _ H2) as I2. destruct m1.
    + rewrite (Hm1 eq_refl) in I2. congruence.
    + intros ->. destruct m2; [rewrite I2; auto|]. specialize (I2 eq_refl). lia.
  - rewrite (al_fb _ _ _ _ _ _ _ _ H2), Hfb. lia.
  - intros b Hb. destruct (al_new _ _ _ _ _ _ _ _ H2 b Hb) as [Hb'|]; [by apply (al_new _ _ _ _ _ _ _ _ H1)|right; lia].
  - apply H2.
  - rewrite (al_inodes _ _ _ _ _ _ _ _ H2). exact (al_inodes _ _ _ _ _ _ _ _ H1).
  - rewrite (al_head _ _ _ _ _ _ _ _ H2). exact (al_head _ _ _ _ _ _ _ _ H1).
Qed.

Section Alloc.
Context (s : mk) (din : list Z) (n : Z) (Hd : disk_ok s) (Hroom : freeblock s < 2000).

Lemma free_range : 46 <= freeblock s < 2 ^ 32.
Proof using Hd Hroom. pose proof (dk_free _ Hd). rewrite nmeta_val in *. change (2 ^ 32) with 4294967296. lia. Qed.

Lemma head_put j v : length din = 64%nat -> 0 <= j <= 12 -> slice (put32 din (12 + 4 * j) v) 0 12 = slice din 0 12.
Proof using. intros Hl Hj. unfold putn. apply slice_splice_ne; unfold zlen; rewrite ?length_le_bytes; lia. Qed.

Section Direct.
Context (m : bool) (Hf : blocks_ok s din n m) (Hn : n < 12).
Let din' := put32 din (12 + 4 * n) (freeblock s).

Lemma direct_faddr j : 0 <= j < 268 -> faddr (bump s) din' j = if j =? n then freeblock s else faddr s din j.
Proof using Hd Hroom Hf Hn.
  intros Hj. pose proof (fm_len _ _ _ _ Hf) as Hl. pose proof (fm_n _ _ _ _ Hf). pose proof free_range. assert (ind din' = ind din) as Ei by (apply daddr_put_ne; lia).
  unfold faddr. rewrite Ei. zcase (j =? n) as E; zcase (j <? 12) as E1; try lia; [subst j; apply daddr_put_eq; lia|apply daddr_put_ne; lia|done].
Qed.

Lemma direct_alloc : alloced s din n m (bump s) din' (n + 1) m.
Proof using Hd Hroom Hf Hn.
  pose proof (fm_len _ _ _ _ Hf) as Hl. pose proof (fm_n _ _ _ _ Hf) as Hn0. pose proof free_range as Hfr. assert (ind din' = ind din) as Ei by (apply daddr_put_ne; lia). pose proof (dk_free _ Hd) as Hfree.
  assert (forall j, 0 <= j < n + 1 -> good (bump s) (faddr (bump s) din' j) /\ (j < n -> faddr (bump s) din' j < freeblock s)) as Hg.
  { intros j Hj. rewrite direct_faddr by lia. zcase (j =? n); [unfold good; cbn; lia|]. pose proof (blocks_good _ _ _ _ j Hf ltac:(lia)). unfold good in *. cbn. lia. }
  split; [split| | | | | | | | |]; try done.
  - unfold din'. by rewrite length_putn by (unfold zlen; lia).
  - lia.
  - intros. apply (fm_m _ _ _ _ Hf). lia.
  - rewrite Ei. pose proof (fm_ind _ _ _ _ Hf) as Hi. destruct m; [unfold good in *; cbn; lia|done].
  - intros j Hj. zcase (j <? n + 1); [apply Hg; lia|]. rewrite direct_faddr by lia. zcase (j =? n); [lia|]. eapply blocks_none; [done|lia].
  - intros i j Hi Hj. rewrite !direct_faddr by lia. zcase (i =? n); zcase (j =? n); [lia|..|apply (fm_inj _ _ _ _ Hf); lia];
      [pose proof (blocks_good _ _ _ _ j Hf ltac:(lia))|pose proof (blocks_good _ _ _ _ i Hf ltac:(lia))]; unfold good in *; lia.
  - intros j Hj Hm. rewrite Ei. rewrite direct_faddr by lia. pose proof (fm_ind _ _ _ _ Hf) as Hi. rewrite Hm in Hi. zcase (j =? n); [unfold good in *; lia|]. apply (fm_ne _ _ _ _ Hf); [lia|done].
  - by apply bump_ok.
  - intros j Hj. rewrite direct_faddr by lia. zcase (j =? n); [lia|done].
  - rewrite Ei. destruct m; [done|intros; discriminate].
  - cbn. lia.
  - intros b [[Hm ->]|(j & Hj & ->)]; [left; left; by rewrite Ei|]. rewrite direct_faddr by lia. zcase (j =? n); [right; lia|left; right; exists j; split; [lia|done]].
  - intros j Hj. assert (j = n) as -> by lia. rewrite direct_faddr by lia. rewrite Z.eqb_refl. apply (dk_fresh _ Hd). lia.
  - apply head_put; lia.
Qed.
End Direct.

(** The indirect block: fresh, so all its entries are zero. *)
Section Indirect.
Context (Hf : blocks_ok s din 12 false).
Let din' := put32 din (12 + 4 * 12) (freeblock s).

Lemma ind_new : ind din' = freeblock s.
Proof using Hd Hroom Hf. pose proof free_range. apply daddr_put_eq; [apply (fm_len _ _ _ _ Hf)|lia|lia]. Qed.

Lemma ind_faddr j : 0 <= j < 268 -> faddr (bump s) din' j = faddr s din j.
Proof using Hd Hroom Hf.
  intros Hj. pose proof (fm_len _ _ _ _ Hf) as Hl. pose proof free_range. pose proof (fm_ind _ _ _ _ Hf) as Hi. cbn in Hi. unfold faddr. rewrite ind_new, Hi, Z.eqb_refl.
  zcase (j <? 12); [apply daddr_put_ne; lia|]. zcase (freeblock s =? 0); [done|]. change (blk (bump s) (freeblock s)) with (blk s (freeblock s)). rewrite (dk_fresh _ Hd) by lia. apply get32_zeros; lia.
Qed.

Lemma ind_alloc : alloced s din 12 false (bump s) din' 12 true.
Proof using Hd Hroom Hf.
  pose proof (fm_len _ _ _ _ Hf) as Hl. pose proof free_range as Hfr. pose proof (dk_free _ Hd) as Hfree.
  split; [split| | | | | | | | |]; try done.
  - unfold din'. by rewrite length_putn by (unfold zlen; lia).
  - rewrite ind_new. unfold good. cbn. lia.
  - intros j Hj. rewrite ind_faddr by done. pose proof (fm_addr _ _ _ _ Hf j Hj) as Ha. destruct (j <? 12); [unfold good in *; cbn; lia|done].
  - intros i j Hi Hj. rewrite !ind_faddr by lia. apply (fm_inj _ _ _ _ Hf); lia.
  - intros j Hj _. rewrite ind_faddr, ind_new by lia. pose proof (blocks_good _ _ _ _ j Hf ltac:(lia)). unfold good in *. lia.
  - by apply bump_ok.
  - intros j Hj. apply ind_faddr. lia.
  - intros _. rewrite ind_new. lia.
  - cbn. lia.
  - intros b [[_ ->]|(j & Hj & ->)]; [right; rewrite ind_new; lia|left; right]. exists j. split; [done|]. apply ind_faddr. lia.
  - intros j Hj. lia.
  - apply head_put; lia.
Qed.
End Indirect.

(** A block of the file, recorded in the indirect block. *)
Section Entry.
Context (Hf : blocks_ok s din n true) (Hn : 12 <= n < 268).
Let d' := put32 (blk s (ind din)) (4 * (n - 12)) (freeblock s).
Let s' := put_blk (ind din) d' (bump s).

Lemma ind_block : good s (ind din) /\ length (blk s (ind din)) = 1024%nat.
Proof using Hd Hroom Hf. pose proof (fm_ind _ _ _ _ Hf) as Hi. cbn in Hi. split; [done|]. pose proof (dk_free _ Hd). unfold good in Hi. rewrite nmeta_val in *. apply (dk_img _ Hd). lia. Qed.

Lemma entry_faddr j : 0 <= j < 268 -> faddr s' din j = if j =? n then freeblock s else faddr s din j.
Proof using Hd Hroom Hf Hn.
  intros Hj. destruct ind_block as [Hg Hl]. pose proof free_range. unfold good in Hg. rewrite nmeta_val in Hg. unfold faddr. zcase (j <? 12); [zcase (j =? n); [lia|done]|]. zcase (ind din =? 0); [lia|].
  unfold s'. rewrite blk_put_eq. unfold d'. zcase (j =? n) as Ej; [subst j; apply getn_putn_eq; unfold zlen; lia|apply getn_putn_ne; unfold zlen; lia].
Qed.

Lemma entry_alloc : alloced s din n true s' din (n + 1) true.
Proof using Hd Hroom Hf Hn.
  destruct ind_block as [Hg Hl]. pose proof free_range as Hfr. pose proof (dk_free _ Hd) as Hfree. pose proof Hg as Hg'. unfold good in Hg'. rewrite nmeta_val in *.
  split; [split| | | | | | | | |]; try done.
  - exact (fm_len _ _ _ _ Hf).
  - lia.
  - unfold good in *. cbn. rewrite nmeta_val. lia.
  - intros j Hj. rewrite entry_faddr by done. pose proof (fm_addr _ _ _ _ Hf j Hj) as Ha. zcase (j =? n); zcase (j <? n); zcase (j <? n + 1); try lia; try done; unfold good in *; cbn; rewrite nmeta_val in *; lia.
  - intros i j Hi Hj. rewrite !entry_faddr by lia. zcase (i =? n); zcase (j =? n); [lia|..|apply (fm_inj _ _ _ _ Hf); lia];
      [pose proof (blocks_good _ _ _ _ j Hf ltac:(lia))|pose proof (blocks_good _ _ _ _ i Hf ltac:(lia))]; unfold good in *; lia.
  - intros j Hj _. rewrite entry_faddr by lia. zcase (j =? n); [lia|]. apply (fm_ne _ _ _ _ Hf); [lia|done].
  - apply put_disk_ok; [by apply bump_ok|cbn; lia|]. unfold d'. by rewrite length_putn by (unfold zlen; lia).
  - intros j Hj. rewrite entry_faddr by lia. zcase (j =? n); [lia|done].
  - intros b Hb Hlt. unfold s', put_blk. cbn. rewrite lookup_insert_ne; [done|]. intros E. by apply Hb.
  - cbn. lia.
  - intros b [[_ ->]|(j & Hj & ->)]; [left; by left|]. rewrite entry_faddr by lia. zcase (j =? n); [right; lia|left; right; exists j; split; [lia|done]].
  - intros j Hj. assert (j = n) as -> by lia. rewrite entry_faddr by lia. rewrite Z.eqb_refl. unfold s'. rewrite blk_put_ne by lia. apply (dk_fresh _ Hd). lia.
Qed.
End Entry.
End Alloc.

(** Whether a file of [n] blocks has an indirect block, and the sectors it takes. *)
Definition has_ind (n : Z) : bool := 12 <? n.
Definition nsect (n : Z) : Z := n + b2z (has_ind n).

Lemma xint_good s b : disk_ok s -> good s b -> xint b = b /\ 0 <= b < 2000 /\ b <> 0.
Proof. intros Hd Hg. pose proof (dk_free _ Hd). unfold good in Hg. rewrite nmeta_val in *. rewrite xint_small by (change (2 ^ 32) with 4294967296; lia). lia. Qed.

Lemma daddr_direct s din j : j < 12 -> daddr din j = faddr s din j.
Proof. intros H. unfold faddr. zcase (j <? 12); [done|lia]. Qed.
Lemma daddr_indirect s din j : 12 <= j -> ind din <> 0 -> get32 (blk s (ind din)) (4 * (j - 12)) = faddr s din j.
Proof. intros H Hi. unfold faddr. zcase (j <? 12); [lia|]. zcase (ind din =? 0); done. Qed.

Lemma block_indirect s din n fbn : blocks_ok s din n true -> disk_ok s -> 0 <= fbn <= n -> 12 <= fbn < 268 -> freeblock s + Z.max 0 (fbn + 1 - n) <= 2000 ->
  exists s', (indirect <~ rsect (xint (ind din)) ;
    indirect <~ (if get32 indirect (4 * (fbn - 12)) =? 0 then
                   b <~ next_block ;
                   let indirect := put32 indirect (4 * (fbn - 12)) (xint b) in
                   wsect (xint (ind din)) indirect ;;
                   hret indirect
                 else hret indirect) ;
    hret (din, xint (get32 indirect (4 * (fbn - 12))))) s = Ok (din, faddr s' din fbn) s' /\ alloced s din n true s' din (Z.max n (fbn + 1)) true.
Proof.
  intros Hf Hd Hb Hbn Hroom. pose proof (fm_ind _ _ _ _ Hf) as Hi. cbn in Hi. destruct (xint_good _ _ Hd Hi) as (Ei & Hi1 & Hi2).
  rewrite (hbind_ok _ _ _ _ _ (eq_trans (f_equal (fun x => rsect x s) Ei) (rsect_run s _ Hd Hi1))). rewrite daddr_indirect by (done || lia).
  destruct (decide (fbn < n)) as [Hlt|Hge].
  - pose proof (blocks_good _ _ _ _ fbn Hf ltac:(lia)) as Hg. destruct (xint_good _ _ Hd Hg) as (Eg & _ & Hnz). zcase (faddr s din fbn =? 0); [done|].
    exists s. cbn. rewrite daddr_indirect, Eg by (done || lia). split; [done|]. replace (Z.max n (fbn + 1)) with n by lia. by apply alloced_refl.
  - assert (fbn = n) as -> by lia. rewrite (blocks_none _ _ _ _ n Hf) by lia. rewrite Z.eqb_refl. pose proof (entry_alloc s din n Hd ltac:(lia) Hf ltac:(lia)) as Ha.
    destruct (xint_good (bump s) (freeblock s) (bump_ok _ Hd ltac:(lia))) as (Eb & _ & _); [pose proof (dk_free _ Hd); unfold good; cbn; lia|].
    eexists. split; [|replace (Z.max n (n + 1)) with (n + 1) by lia; exact Ha].
    unfold hbind at 1 2. rewrite next_block_run by done. cbv zeta. rewrite Eb, Ei. rewrite (hbind_ok _ _ _ _ _ (wsect_run _ _ _ Hi1)). cbn. do 2 f_equal.
    pose proof (blocks_good _ _ _ _ n (al_map _ _ _ _ _ _ _ _ Ha) ltac:(lia)) as Hg. destruct (xint_good _ _ (al_disk _ _ _ _ _ _ _ _ Ha) Hg) as (Eg & _ & _).
    etrans; [|exact Eg]. f_equal. rewrite <- daddr_indirect by (done || lia). by rewrite blk_put_eq.
Qed.

(** The block for the file's [fbn]-th block, at most one past the end. *)
Lemma block_run s din n fbn : blocks_ok s din n (has_ind n) -> disk_ok s -> 0 <= fbn <= n -> fbn < 268 ->
  freeblock s + (nsect (Z.max n (fbn + 1)) - nsect n) <= 2000 ->
  exists s' din', iappend_block din fbn s = Ok (din', faddr s' din' fbn) s' /\
    alloced s din n (has_ind n) s' din' (Z.max n (fbn + 1)) (has_ind (Z.max n (fbn + 1))).
Proof.
  intros Hf Hd Hb H268 Hroom. unfold iappend_block. change NDIRECT with 12. zcase (fbn <? 12) as Edir.
  - assert (has_ind (Z.max n (fbn + 1)) = has_ind n) as Eh by (unfold has_ind; zcase (12 <? n); zcase (12 <? Z.max n (fbn + 1)); done || lia).
    unfold nsect in Hroom. rewrite Eh in *. fold (daddr din fbn). rewrite (daddr_direct s) by done. destruct (decide (fbn < n)) as [Hlt|Hge].
    + pose proof (blocks_good _ _ _ _ fbn Hf ltac:(lia)) as Hg. destruct (xint_good _ _ Hd Hg) as (Eg & _ & Hnz). rewrite Eg. zcase (faddr s din fbn =? 0); [done|].
      exists s, din. unfold hbind, hret. fold (daddr din fbn). rewrite (daddr_direct s), Eg by done. split; [done|]. replace (Z.max n (fbn + 1)) with n by lia. by apply alloced_refl.
    + assert (fbn = n) as -> by lia. replace (Z.max n (n + 1)) with (n + 1) in * by lia. rewrite (blocks_none _ _ _ _ n Hf) by lia. change (xint 0 =? 0) with true. cbv iota.
      pose proof (direct_alloc s din n Hd ltac:(lia) _ Hf ltac:(lia)) as Ha.
      destruct (xint_good (bump s) (freeblock s) (bump_ok _ Hd ltac:(lia))) as (Eb & _ & _); [pose proof (dk_free _ Hd); unfold good; cbn; lia|].
      eexists _, _. split; [|exact Ha]. unfold hbind. rewrite next_block_run by done. unfold hret. rewrite Eb.
      pose proof (blocks_good _ _ _ _ n (al_map _ _ _ _ _ _ _ _ Ha) ltac:(lia)) as Hg. destruct (xint_good _ _ (al_disk _ _ _ _ _ _ _ _ Ha) Hg) as (Eg & _ & _).
      do 2 f_equal. etrans; [|exact Eg]. f_equal. by rewrite <- daddr_direct.
  - change (get32 ?d (12 + 4 * 12)) with (ind d). assert (has_ind (Z.max n (fbn + 1)) = true) as Eh by (unfold has_ind; zcase (12 <? Z.max n (fbn + 1)); done || lia). unfold nsect in Hroom. rewrite Eh in *.
    destruct (has_ind n) eqn:En.
    + pose proof (fm_ind _ _ _ _ Hf) as Hi. cbn in Hi. destruct (xint_good _ _ Hd Hi) as (Ei & Hi1 & Hi2). rewrite Ei. zcase (ind din =? 0); [done|].
      destruct (block_indirect s din n fbn Hf Hd) as (s' & Er & Ha); [lia|lia|cbn in Hroom; lia|]. exists s', din. split; [|done]. exact Er.
    + assert (n = 12 /\ fbn = 12) as [-> ->] by (unfold has_ind in En; zcase (12 <? n); [done|lia]). pose proof (fm_ind _ _ _ _ Hf) as Hi. cbn in Hi. rewrite Hi. change (xint 0 =? 0) with true. cbv iota.
      cbn in Hroom. pose proof (ind_alloc s din Hd ltac:(lia) Hf) as Ha.
      destruct (xint_good (bump s) (freeblock s) (bump_ok _ Hd ltac:(lia))) as (Eb & _ & _); [pose proof (dk_free _ Hd); unfold good; cbn; lia|].
      destruct (block_indirect _ _ 12 12 (al_map _ _ _ _ _ _ _ _ Ha) (al_disk _ _ _ _ _ _ _ _ Ha)) as (s' & E & Ha'); [lia|lia|cbn; lia|].
      exists s'. eexists. split; [|eapply alloced_trans; [exact Hf|exact Ha|exact Ha'|lia|done|done]].
      unfold hbind at 1 2. rewrite next_block_run by done. unfold hret at 1. rewrite Eb. exact E.
Qed.

(** ** Appending to a file *)

Definition nb (len : Z) : Z := (len + 1023) / 1024.

(** The file of an inode: its blocks hold the bytes of [c], and zeros after them. *)
Record holds_file (s : mk) (din c : list Z) : Prop := {
  hf_map : blocks_ok s din (nb (zlen c)) (has_ind (nb (zlen c)));
  hf_data : forall p, 0 <= p < 1024 * nb (zlen c) -> znth 0 (blk s (faddr s din (p / 1024))) (p mod 1024) = znth 0 c p;
}.

Abbreviation owns s din c := (owned s din (nb (zlen c)) (has_ind (nb (zlen c)))).

(** The file grew from [c] to [c'], in its own blocks and new ones. *)
Record grew (s : mk) (din c : list Z) (s' : mk) (din' c' : list Z) : Prop := {
  gr_file : holds_file s' din' c';
  gr_disk : disk_ok s';
  gr_fb : freeblock s' = freeblock s + (nsect (nb (zlen c')) - nsect (nb (zlen c)));
  gr_le : freeblock s <= freeblock s';
  gr_new : forall b, owns s' din' c' b -> owns s din c b \/ freeblock s <= b;
  gr_frame : forall b, ~ owns s din c b -> b < freeblock s -> img s' !! b = img s !! b;
  gr_inodes : freeinode s' = freeinode s;
  gr_head : slice din' 0 12 = slice din 0 12;
}.

Lemma grew_refl s din c : holds_file s din c -> disk_ok s -> grew s din c s din c.
Proof. intros H Hd. split; try done; try lia. auto. Qed.

Lemma grew_trans s1 d1 c1 s2 d2 c2 s3 d3 c3 : grew s1 d1 c1 s2 d2 c2 -> grew s2 d2 c2 s3 d3 c3 -> grew s1 d1 c1 s3 d3 c3.
Proof.
  intros [A1 A2 A3 A4 A5 A6 A7 A8] [B1 B2 B3 B4 B5 B6 B7 B8]. split; [done|done|lia|lia| | |congruence|congruence].
  - intros b Hb. destruct (B5 b Hb) as [H|H]; [auto|right; lia].
  - intros b Hb Hlt. rewrite B6; [auto| |lia]. intros Ho. destruct (A5 b Ho) as [H|H]; [done|lia].
Qed.

Section Step.
Context (s : mk) (din c l : list Z) (Hf : holds_file s din c) (Hd : disk_ok s).
Context (Hl : 0 < zlen l) (Hpage : zlen c mod 1024 + zlen l <= 1024) (Hmax : zlen c + zlen l <= 268 * 1024).
Let n := nb (zlen c).
Let fbn := zlen c / 1024.
Lemma fbn_range : 0 <= fbn <= n /\ n <= fbn + 1 /\ fbn < 268 /\ nb (zlen (c ++ l)) = fbn + 1 /\ zlen (c ++ l) = zlen c + zlen l.
Proof using Hl Hpage Hmax. assert (zlen (c ++ l) = zlen c + zlen l) as E by (unfold zlen; rewrite length_app; lia). rewrite E. pose proof (zlen_nonneg c). unfold fbn, n, nb. dlia. Qed.

Context (s1 : mk) (din1 : list Z) (Ha : alloced s din n (has_ind n) s1 din1 (fbn + 1) (has_ind (fbn + 1))).
Let x := faddr s1 din1 fbn.
Let s2 := put_blk x (splice (blk s1 x) (zlen c - fbn * 1024) l) s1.

Lemma x_good : good s1 x /\ 0 <= x < 2000 /\ length (blk s1 x) = 1024%nat.
Proof using Ha Hl Hpage Hmax.
  pose proof fbn_range. pose proof (blocks_good _ _ _ _ fbn (al_map _ _ _ _ _ _ _ _ Ha) ltac:(lia)) as Hg. fold x in Hg. pose proof (dk_free _ (al_disk _ _ _ _ _ _ _ _ Ha)) as Hfree.
  split; [done|]. unfold good in Hg. rewrite nmeta_val in *. split; [lia|]. apply (dk_img _ (al_disk _ _ _ _ _ _ _ _ Ha)). lia.
Qed.

Lemma step_map : blocks_ok s2 din1 (fbn + 1) (has_ind (fbn + 1)) /\ forall j, 0 <= j < 268 -> faddr s2 din1 j = faddr s1 din1 j.
Proof using Ha Hl Hpage Hmax.
  pose proof fbn_range. apply blocks_frame; [apply (al_map _ _ _ _ _ _ _ _ Ha)|done|]. intros Hm. unfold s2. apply blk_put_ne.
  intros E. apply (fm_ne _ _ _ _ (al_map _ _ _ _ _ _ _ _ Ha) fbn); [lia|done|done].
Qed.

(** A block the file already had is as it was, a new one is zero. *)
Lemma old_block j : 0 <= j < n -> blk s1 (faddr s1 din1 j) = blk s (faddr s din j).
Proof using Ha Hf Hl Hpage Hmax.
  intros Hj. pose proof fbn_range. rewrite (al_same _ _ _ _ _ _ _ _ Ha) by lia. pose proof (blocks_good _ _ _ _ j (hf_map _ _ _ Hf) Hj) as Hg. unfold blk. f_equal.
  apply (al_blk _ _ _ _ _ _ _ _ Ha); [|unfold good in Hg; lia]. intros [Hm E]. by apply (fm_ne _ _ _ _ (hf_map _ _ _ Hf) j).
Qed.

Lemma step_data p : 0 <= p < 1024 * (fbn + 1) -> znth 0 (blk s2 (faddr s2 din1 (p / 1024))) (p mod 1024) = znth 0 (c ++ l) p.
Proof using Ha Hf Hl Hpage Hmax.
  intros Hp. pose proof fbn_range as Hr. rewrite (proj2 step_map) by dlia. destruct x_good as (_ & _ & Hlen). pose proof (zlen_nonneg c) as Hc0.
  destruct (decide (p / 1024 = fbn)) as [Ej|Ej].
  - rewrite Ej. fold x. unfold s2. rewrite blk_put_eq. assert (zlen (blk s1 x) = 1024) as Hz by (unfold zlen; lia). assert (zlen c - fbn * 1024 = zlen c mod 1024) as Eo by (unfold fbn; dlia).
    rewrite znth_splice by (rewrite ?Eo, ?Hz; dlia). destruct (decide (p < zlen c)) as [Hlt|Hge].
    + zcase (zlen c - fbn * 1024 <=? p mod 1024); [unfold fbn in *; dlia|]. cbn [andb]. rewrite znth_app_l by done.
      unfold x. rewrite old_block by (unfold n, nb, fbn in *; dlia). rewrite <- Ej. apply (hf_data _ _ _ Hf). unfold n, nb, fbn in *. dlia.
    + zcase (zlen c - fbn * 1024 <=? p mod 1024); [|unfold fbn in *; dlia]. rewrite znth_app_r by lia. cbn [andb].
      assert (p mod 1024 - (zlen c - fbn * 1024) = p - zlen c) as -> by (unfold fbn in *; dlia).
      zcase (p mod 1024 <? zlen c - fbn * 1024 + zlen l); [done|]. rewrite (znth_overflow 0 l) by (unfold fbn in *; dlia).
      destruct (decide (fbn < n)) as [Hn|Hn].
      * unfold x. rewrite old_block by lia. rewrite <- Ej. rewrite (hf_data _ _ _ Hf); [apply znth_overflow; lia|]. fold n. unfold fbn in *. dlia.
      * unfold x. rewrite (al_zero _ _ _ _ _ _ _ _ Ha) by lia. apply znth_replicate. change (Z.of_nat (Z.to_nat BSIZE)) with 1024. dlia.
  - assert (0 <= p / 1024 < fbn) as Hj by dlia. rewrite znth_app_l by (unfold fbn in *; dlia).
    unfold s2. rewrite blk_put_ne; [|intros E; apply Ej, (fm_inj _ _ _ _ (al_map _ _ _ _ _ _ _ _ Ha)); [lia|lia|done]].
    rewrite old_block by lia. apply (hf_data _ _ _ Hf). fold n. dlia.
Qed.

Lemma step_grew : grew s din c s2 din1 (c ++ l).
Proof using Ha Hf Hl Hpage Hmax Hd.
  pose proof fbn_range as (Hr1 & Hr2 & Hr3 & Hr4 & Hr5). destruct x_good as (Hg & Hx & Hlen). pose proof (zlen_nonneg c) as Hc0.
  split.
  - split; rewrite Hr4; [exact (proj1 step_map)|exact step_data].
  - apply put_disk_ok; [apply Ha|unfold good in Hg; lia|]. assert (zlen (blk s1 x) = 1024) as Hz by (unfold zlen; lia). rewrite length_splice; [done|unfold fbn; dlia|rewrite Hz; unfold fbn; dlia].
  - rewrite Hr4. cbn. rewrite (al_fb _ _ _ _ _ _ _ _ Ha). unfold nsect. fold n. lia.
  - cbn. rewrite (al_fb _ _ _ _ _ _ _ _ Ha). assert (b2z (has_ind n) <= b2z (has_ind (fbn + 1))) by (unfold has_ind; zcase (12 <? n); zcase (12 <? fbn + 1); cbn; lia). lia.
  - rewrite Hr4. intros b [[Hm ->]|(j & Hj & ->)]; apply (al_new _ _ _ _ _ _ _ _ Ha); [by left|right]. exists j. split; [done|]. apply step_map. lia.
  - intros b Hb Hlt. unfold s2, put_blk. cbn. assert (x <> b) as Hne.
    { intros <-. destruct (decide (fbn < n)) as [Hn|Hn]; [apply Hb; right; exists fbn; split; [fold n; lia|]; apply (al_same _ _ _ _ _ _ _ _ Ha); lia|].
      assert (owned s1 din1 (fbn + 1) (has_ind (fbn + 1)) x) as Ho by (right; exists fbn; split; [lia|done]). destruct (al_new _ _ _ _ _ _ _ _ Ha x Ho) as [?|?]; [done|lia]. }
    rewrite lookup_insert_ne by done. apply (al_blk _ _ _ _ _ _ _ _ Ha); [|done]. intros [Hm ->]. apply Hb. by left.
  - apply (al_inodes _ _ _ _ _ _ _ _ Ha).
  - apply (al_head _ _ _ _ _ _ _ _ Ha).
Qed.
End Step.

Lemma nsect_mono a b : 0 <= a <= b -> 0 <= nsect (nb a) <= nsect (nb b).
Proof. intros H. unfold nsect, has_ind. assert (0 <= nb a <= nb b) as Hn by (unfold nb; dlia). zcase (12 <? nb a); zcase (12 <? nb b); cbn; lia. Qed.

Lemma iappend_loop_run k : forall s din c p, holds_file s din c -> disk_ok s -> (length p <= k)%nat -> zlen c + zlen p <= 268 * 1024 ->
  freeblock s + (nsect (nb (zlen c + zlen p)) - nsect (nb (zlen c))) <= 2000 ->
  exists s' din', iappend_loop k din (zlen c) p s = Ok (din', zlen c + zlen p) s' /\ grew s din c s' din' (c ++ p).
Proof.
  induction k as [|k IH]; intros s din c p Hf Hd Hk Hmax Hroom; pose proof (zlen_nonneg c) as Hc0; pose proof (zlen_nonneg p) as Hp0.
  - destruct p; [|cbn in Hk; lia]. exists s, din. rewrite app_nil_r. change (zlen []) with 0. rewrite Z.add_0_r. split; [done|by apply grew_refl].
  - cbn [iappend_loop]. zcase (0 <? zlen p) as Ep; [|exists s, din; assert (p = []) as -> by (destruct p; [done|unfold zlen in Ep; cbn in Ep; lia]); rewrite app_nil_r; change (zlen []) with 0; rewrite Z.add_0_r; split; [done|by apply grew_refl]].
    change BSIZE with 1024. set (fbn := zlen c / 1024). set (n1 := min_ (zlen p) ((fbn + 1) * 1024 - zlen c)).
    assert (0 < n1 <= zlen p /\ zlen c mod 1024 + n1 <= 1024) as Hn1 by (unfold n1, min_, fbn; zcase (zlen p <? (zlen c / 1024 + 1) * 1024 - zlen c); dlia).
    set (l := take (Z.to_nat n1) p). assert (zlen l = n1) as El by (unfold l, zlen in *; rewrite length_take; lia).
    assert (zlen (drop (Z.to_nat n1) p) = zlen p - n1) as Er by (unfold zlen in *; rewrite length_drop; lia).
    assert (zlen (c ++ l) = zlen c + n1) as Ecl by (unfold zlen in *; rewrite length_app; lia).
    destruct (fbn_range c l) as (Hr1 & Hr2 & Hr3 & Hr4 & Hr5); [lia|lia|lia|]. fold fbn in Hr1, Hr2, Hr3, Hr4. rewrite Ecl in Hr4.
    change MAXFILE with 268. assert (assert_ (fbn <? 268) "fbn < MAXFILE" s = Ok tt s) as Eas by (unfold assert_; zcase (fbn <? 268); [done|lia]). rewrite (hbind_ok _ _ _ _ _ Eas). pose proof (nsect_mono (zlen c + n1) (zlen c + zlen p) ltac:(lia)) as Hmono.
    assert (Z.max (nb (zlen c)) (fbn + 1) = fbn + 1) as Emax by lia.
    destruct (block_run s din (nb (zlen c)) fbn (hf_map _ _ _ Hf) Hd Hr1 Hr3) as (s1 & din1 & Hrun & Ha); [rewrite Emax, <- Hr4; lia|]. rewrite Emax in Ha.
    rewrite (hbind_ok _ _ _ _ _ Hrun). destruct (x_good s din c l ltac:(lia) ltac:(lia) ltac:(lia) s1 din1 Ha) as (_ & Hx & _). fold fbn in Hx.
    rewrite (hbind_ok _ _ _ _ _ (rsect_run s1 _ (al_disk _ _ _ _ _ _ _ _ Ha) Hx)), (hbind_ok _ _ _ _ _ (wsect_run s1 _ _ Hx)).
    pose proof (step_grew s din c l Hf Hd ltac:(lia) ltac:(lia) ltac:(lia) s1 din1 Ha) as Hg. fold fbn in Hg. rewrite u32_small by lia. rewrite <- Ecl.
    destruct (IH _ din1 (c ++ l) (drop (Z.to_nat n1) p) (gr_file _ _ _ _ _ _ Hg) (gr_disk _ _ _ _ _ _ Hg)) as (s' & din' & E & Hg').
    + unfold zlen in *. lia.
    + rewrite Ecl, Er. lia.
    + rewrite (gr_fb _ _ _ _ _ _ Hg), Ecl, Er. replace (zlen c + n1 + (zlen p - n1)) with (zlen c + zlen p) by lia. lia.
    + exists s', din'. rewrite E. split; [do 2 f_equal; lia|]. rewrite <- app_assoc in Hg'. unfold l in Hg'. rewrite take_drop in Hg'. eapply grew_trans; [exact Hg|exact Hg'].
Qed.

(** ** Inodes *)

Definition iblock (inum : Z) : Z := 32 + inum / 16.
Definition di (s : mk) (inum : Z) : list Z := slice (blk s (iblock inum)) (64 * (inum mod 16)) 64.
Definition set_di (inum : Z) (d : list Z) (s : mk) : mk := put_blk (iblock inum) (splice (blk s (iblock inum)) (64 * (inum mod 16)) d) s.

Lemma IBLOCK_eq inum : 0 <= inum < 208 -> IBLOCK inum sb = iblock inum /\ 32 <= iblock inum < 45.
Proof. intros H. unfold IBLOCK, iblock, IPB. change (sb_inodestart sb) with 32. change (BSIZE / 64) with 16. split; [rewrite u32_small; dlia|dlia]. Qed.

Lemma rinode_run s inum : disk_ok s -> 0 <= inum < 208 -> rinode inum s = Ok (di s inum) s.
Proof. intros Hd Hi. unfold rinode. destruct (IBLOCK_eq inum Hi) as [-> Hb]. by rewrite (hbind_ok _ _ _ _ _ (rsect_run s (iblock inum) Hd ltac:(lia))). Qed.

Lemma winode_run s inum d : disk_ok s -> 0 <= inum < 208 -> winode inum d s = Ok tt (set_di inum d s).
Proof. intros Hd Hi. unfold winode. destruct (IBLOCK_eq inum Hi) as [-> Hb]. rewrite (hbind_ok _ _ _ _ _ (rsect_run s (iblock inum) Hd ltac:(lia))). by apply wsect_run; lia. Qed.

Section SetInode.
Context (s : mk) (inum : Z) (d : list Z) (Hd : disk_ok s) (Hi : 0 <= inum < 208) (Hl : length d = 64%nat).

Lemma iblock_len : zlen (blk s (iblock inum)) = 1024.
Proof using Hd Hi Hl. destruct (IBLOCK_eq inum Hi) as [_ Hb]. unfold zlen. rewrite (proj2 (dk_img _ Hd (iblock inum) ltac:(lia))). reflexivity. Qed.

Lemma di_set_eq : di (set_di inum d s) inum = d.
Proof using Hd Hi Hl.
  unfold di, set_di. rewrite blk_put_eq. replace 64 with (zlen d) at 3 by (unfold zlen; lia). apply slice_splice_eq; [dlia|]. rewrite iblock_len. unfold zlen. rewrite Hl. dlia.
Qed.

Lemma di_set_ne j : 0 <= j < 208 -> j <> inum -> di (set_di inum d s) j = di s j.
Proof using Hd Hi Hl.
  intros Hj Hne. unfold di, set_di. destruct (decide (iblock j = iblock inum)) as [E|E]; [|by rewrite blk_put_ne]. rewrite E, blk_put_eq. unfold iblock in E.
  apply slice_splice_ne; unfold zlen in *; rewrite ?Hl; pose proof iblock_len; unfold zlen in *; dlia.
Qed.

Lemma blk_set_di b : b < 32 \/ 45 <= b -> blk (set_di inum d s) b = blk s b.
Proof using Hd Hi Hl. intros Hb. destruct (IBLOCK_eq inum Hi) as [_ ?]. unfold set_di. apply blk_put_ne. lia. Qed.

Lemma set_di_ok : disk_ok (set_di inum d s).
Proof using Hd Hi Hl.
  destruct (IBLOCK_eq inum Hi) as [_ ?]. pose proof (dk_free _ Hd). rewrite nmeta_val in *. apply put_disk_ok; [done|lia|]. pose proof iblock_len as Hz. rewrite length_splice; [unfold zlen in Hz; lia|dlia|rewrite Hz; unfold zlen; rewrite Hl; dlia].
Qed.

(** Files are not affected by inodes being written. *)
Lemma set_di_file din c : holds_file s din c -> holds_file (set_di inum d s) din c /\ forall b, owns (set_di inum d s) din c b <-> owns s din c b.
Proof using Hd Hi Hl.
  intros [Hf Hdata]. pose proof (dk_free _ Hd) as Hfree. rewrite nmeta_val in Hfree.
  destruct (blocks_frame s (set_di inum d s) din _ _ Hf) as [Hf' E]; [done| |].
  { intros Hm. apply blk_set_di. pose proof (fm_ind _ _ _ _ Hf) as Hg. rewrite Hm in Hg. unfold good in Hg. rewrite nmeta_val in Hg. lia. }
  pose proof (fm_n _ _ _ _ Hf) as Hn. split; [split; [done|]|].
  - intros p Hp. rewrite E by dlia. rewrite blk_set_di; [auto|]. pose proof (blocks_good _ _ _ _ (p / 1024) Hf ltac:(dlia)) as Hg. unfold good in Hg. rewrite nmeta_val in Hg. lia.
  - intros b. unfold owned. split; (intros [?|(j & Hj & ->)]; [by left|right; exists j; split; [done|]]); rewrite E by lia; done.
Qed.
End SetInode.
