(* ===== verification/MkfsSpec.v ===== *)
(** * The image mkfs makes (mkfs/mkfs.c)

    Read with the kernel's own decoding of superblock, inodes and bitmap, the image holds
    the root directory with an entry per file and the files' bytes, no block belongs to two
    files, and the bitmap marks exactly the blocks in use. *)
From S2P Require Import Prelude Memory Machine Bytes Bio Log Txn Kernel Fs FsAlloc FsBmap FsInode FsDir Mkfs MkfsProps.
#[local] Open Scope host_scope.
#[local] Open Scope Z_scope.

(** A file of the image: its type and its bytes.  Inode [i + 1] is the [i]-th of the list. *)
Abbreviation ifile := (Z * list Z)%type.

Definition total (fs : list ifile) : Z := foldr (fun f a => nsect (nb (zlen f.2)) + a) 0 fs.

(** The fields of an inode besides its addresses. *)
Definition head_ok (din : list Z) (t size : Z) : Prop :=
  length din = 64%nat /\ get16 din 0 = t /\ get16 din 2 = 0 /\ get16 din 4 = 0 /\ get16 din 6 = 1 /\ get32 din 8 = size.

(** The block of the superblock. *)
Definition sb_block : list Z := splice (replicate (Z.to_nat BSIZE) 0) 0 (sb_bytes sb).

Record image_ok (s : mk) (fs : list ifile) : Prop := {
  im_disk : disk_ok s;
  im_inodes : freeinode s = 1 + zlen fs;
  im_max : zlen fs <= 199;
  im_file : forall i f, fs !! i = Some f -> head_ok (di s (1 + Z.of_nat i)) f.1 (zlen f.2) /\ holds_file s (di s (1 + Z.of_nat i)) f.2;
  im_apart : forall i j f g b, fs !! i = Some f -> fs !! j = Some g ->
    owns s (di s (1 + Z.of_nat i)) f.2 b -> owns s (di s (1 + Z.of_nat j)) g.2 b -> i = j;
  im_free : freeblock s = 46 + total fs;
  im_sb : blk s 1 = sb_block;
}.

#[local] Arguments total : simpl never.

Lemma total_cons f fs : total (f :: fs) = nsect (nb (zlen f.2)) + total fs.
Proof. reflexivity. Qed.
Lemma total_app a b : total (a ++ b) = total a + total b.
Proof. induction a as [|f a IH]; [done|]. rewrite <- app_comm_cons, !total_cons, IH. lia. Qed.
Lemma nsect_nonneg (c : list Z) : 0 <= nsect (nb (zlen c)).
Proof. apply (nsect_mono 0 (zlen c)). pose proof (zlen_nonneg c). lia. Qed.
Lemma total_nonneg fs : 0 <= total fs.
Proof. induction fs as [|f fs IH]; [done|]. rewrite total_cons. pose proof (nsect_nonneg f.2). lia. Qed.

Lemma total_insert fs i f g : fs !! i = Some f -> total (<[i := g]> fs) = total fs + (nsect (nb (zlen g.2)) - nsect (nb (zlen f.2))).
Proof.
  revert i. induction fs as [|h fs IH]; intros [|i] H; [done|done|injection H as ->|].
  - change (<[0%nat := g]> (f :: fs)) with (g :: fs). rewrite !total_cons. lia.
  - change (<[S i := g]> (h :: fs)) with (h :: <[i := g]> fs). rewrite !total_cons, (IH i H). lia.
Qed.

Lemma inum_range (s : mk) fs i f : image_ok s fs -> fs !! i = Some f -> 0 <= 1 + Z.of_nat i < 208.
Proof. intros H Hi. pose proof (im_max _ _ H). apply lookup_lt_Some in Hi. unfold zlen in *. lia. Qed.

(** ** iappend *)

Lemma di_frame s s' inum : 0 <= inum < 208 -> img s' !! iblock inum = img s !! iblock inum -> di s' inum = di s inum.
Proof. intros _ H. unfold di, blk. by rewrite H. Qed.

Lemma owns_range s din c b : disk_ok s -> holds_file s din c -> owns s din c b -> 46 <= b < freeblock s.
Proof. intros Hd Hf Ho. pose proof (owned_good _ _ _ _ _ (hf_map _ _ _ Hf) Ho) as Hg. unfold good in Hg. by rewrite nmeta_val in Hg. Qed.

(** A file whose blocks are as they were is as it was. *)
Lemma holds_frame s s' din c : holds_file s din c -> freeblock s <= freeblock s' -> (forall b, owns s din c b -> img s' !! b = img s !! b) ->
  holds_file s' din c /\ forall b, owns s' din c b <-> owns s din c b.
Proof.
  intros [Hf Hdata] Hfb Hb. assert (forall b, owns s din c b -> blk s' b = blk s b) as Hblk by (intros b Ho; unfold blk; by rewrite Hb).
  destruct (blocks_frame s s' din _ _ Hf Hfb) as [Hf' E]; [intros Hm; apply Hblk; by left|]. pose proof (fm_n _ _ _ _ Hf) as Hn.
  split; [split; [done|]|].
  - intros p Hp. rewrite E by dlia. rewrite Hblk; [auto|]. right. exists (p / 1024). split; [dlia|done].
  - intros b. unfold owned. split; (intros [?|(j & Hj & ->)]; [by left|right; exists j; split; [done|]]); rewrite E by lia; done.
Qed.

Lemma head_ok_grew din din' t size : slice din' 0 12 = slice din 0 12 -> length din' = 64%nat -> head_ok din t size -> head_ok din' t size.
Proof.
  intros Hs Hl (_ & H0 & H2 & H4 & H6 & H8). split; [done|].
  assert (forall n o, 0 <= o -> o + Z.of_nat n <= 12 -> getn n din' o = getn n din o) as E.
  { intros n o Ho Hn. replace o with (0 + o) by lia. rewrite (getn_slice n din' 0 12), (getn_slice n din 0 12) by lia. by rewrite Hs. }
  rewrite !E by lia. done.
Qed.

Lemma head_ok_size din t size v : head_ok din t size -> 0 <= v < 2 ^ 32 -> head_ok (put32 din 8 v) t v.
Proof.
  intros (Hl & H0 & H2 & H4 & H6 & H8) Hv. assert (zlen din = 64) as Hz by (unfold zlen; lia). split; [by rewrite length_putn by lia|].
  rewrite !(getn_putn_ne 4 2) by lia. rewrite getn_putn_eq by (try lia; exact Hv). done.
Qed.

(** Writing an inode's size leaves its addresses, and so its file. *)
Lemma put_size_file s din c v : length din = 64%nat -> holds_file s din c -> holds_file s (put32 din 8 v) c /\ forall b, owns s (put32 din 8 v) c b <-> owns s din c b.
Proof.
  intros Hl [[Hm1 Hm2 Hm3 Hm4 Hm5 Hm6 Hm7] Hdata]. assert (zlen din = 64) as Hz by (unfold zlen; lia).
  assert (forall j, 0 <= j <= 12 -> daddr (put32 din 8 v) j = daddr din j) as Ed by (intros j Hj; unfold daddr; rewrite (getn_putn_ne 4 4) by lia; done).
  assert (ind (put32 din 8 v) = ind din) as Ei by (apply Ed; lia).
  assert (forall j, 0 <= j -> faddr s (put32 din 8 v) j = faddr s din j) as Ef by (intros j Hj; unfold faddr; rewrite Ei; zcase (j <? 12); [apply Ed; lia|done]).
  split; [split; [split|]|]; rewrite ?Ei.
  - by rewrite length_putn by lia.
  - done.
  - done.
  - done.
  - intros j Hj. rewrite Ef by lia. by apply Hm5.
  - intros i j Hi Hj. rewrite !Ef by lia. by apply Hm6.
  - intros j Hj. rewrite Ef by lia. by apply Hm7.
  - intros p Hp. rewrite Ef by dlia. by apply Hdata.
  - intros b. unfold owned. rewrite Ei. split; (intros [?|(j & Hj & ->)]; [by left|right; exists j; split; [done|]]); rewrite Ef by lia; done.
Qed.

Lemma append_len (c p : list Z) : zlen c + zlen p <= 268 * 1024 -> zlen (c ++ p) = zlen c + zlen p /\ 0 <= zlen c + zlen p < 2 ^ 32.
Proof. intros Hlen. pose proof (zlen_nonneg c). pose proof (zlen_nonneg p). change (2 ^ 32) with 4294967296. split; [unfold zlen; rewrite length_app; lia|lia]. Qed.

Section Append.
Context (s : mk) (fs : list ifile) (i : nat) (t : Z) (c p : list Z) (Him : image_ok s fs) (Hi : fs !! i = Some (t, c)) (Hlen : zlen c + zlen p <= 268 * 1024).
Let inum := 1 + Z.of_nat i.
Context (s1 : mk) (din1 : list Z) (Hg : grew s (di s inum) c s1 din1 (c ++ p)).
Let din2 := put32 din1 8 (zlen c + zlen p).
Let s2 := set_di inum din2 s1.

Lemma append_inode : 0 <= inum < 208 /\ length din1 = 64%nat /\ length din2 = 64%nat /\ head_ok din2 t (zlen (c ++ p)).
Proof using Him Hi Hlen Hg.
  pose proof (inum_range _ _ _ _ Him Hi) as Hr. pose proof (fm_len _ _ _ _ (hf_map _ _ _ (gr_file _ _ _ _ _ _ Hg))) as Hl1. destruct (append_len c p Hlen) as [El Hv].
  split; [done|]. split; [done|]. assert (head_ok din2 t (zlen (c ++ p))) as Hh; [|split; [apply Hh|done]].
  rewrite El. destruct (im_file _ _ Him i _ Hi) as [Hh _]. eapply head_ok_size; [|done]. eapply head_ok_grew; [apply (gr_head _ _ _ _ _ _ Hg)|done|exact Hh].
Qed.

Lemma append_own b : owns s2 din2 (c ++ p) b -> owns s (di s inum) c b \/ freeblock s <= b.
Proof using Him Hi Hlen Hg.
  destruct append_inode as (Hr & Hl1 & Hl2 & _). destruct (put_size_file s1 din1 (c ++ p) (zlen c + zlen p) Hl1 (gr_file _ _ _ _ _ _ Hg)) as [Hf Ho].
  intros Hb. apply (proj2 (set_di_file s1 inum din2 (gr_disk _ _ _ _ _ _ Hg) Hr Hl2 din2 (c ++ p) Hf)) in Hb. apply Ho in Hb. by apply (gr_new _ _ _ _ _ _ Hg).
Qed.

Lemma append_other j f : fs !! j = Some f -> j <> i ->
  di s2 (1 + Z.of_nat j) = di s (1 + Z.of_nat j) /\ holds_file s2 (di s (1 + Z.of_nat j)) f.2 /\ forall b, owns s2 (di s (1 + Z.of_nat j)) f.2 b <-> owns s (di s (1 + Z.of_nat j)) f.2 b.
Proof using Him Hi Hlen Hg.
  intros Hj Hne. destruct append_inode as (Hr & Hl1 & Hl2 & _). pose proof (inum_range _ _ _ _ Him Hj) as Hrj. destruct (im_file _ _ Him j _ Hj) as [_ Hfj]. destruct (im_file _ _ Him i _ Hi) as [_ Hfi].
  split; [|].
  - unfold s2. rewrite di_set_ne; [|apply Hg|done|done|done|unfold inum; lia]. apply di_frame; [done|]. destruct (IBLOCK_eq _ Hrj) as [_ Hb].
    pose proof (dk_free _ (im_disk _ _ Him)) as Hfree. rewrite nmeta_val in Hfree. apply (gr_frame _ _ _ _ _ _ Hg); [|lia]. intros Ho. apply owns_range in Ho; [lia|apply Him|done].
  - destruct (holds_frame s s1 _ _ Hfj (gr_le _ _ _ _ _ _ Hg)) as [Hf1 Ho1].
    { intros b Hb. apply (gr_frame _ _ _ _ _ _ Hg); [|apply owns_range in Hb; [lia|apply Him|done]]. intros Hb'. apply Hne. eapply (im_apart _ _ Him); [exact Hj|exact Hi|exact Hb|exact Hb']. }
    destruct (set_di_file s1 inum din2 (gr_disk _ _ _ _ _ _ Hg) Hr Hl2 _ _ Hf1) as [Hf2 Ho2]. split; [done|]. intros b. etrans; [apply Ho2|apply Ho1].
Qed.

Lemma append_image : image_ok s2 (<[i := (t, c ++ p)]> fs).
Proof using Him Hi Hlen Hg.
  destruct append_inode as (Hr & Hl1 & Hl2 & Hh). pose proof (lookup_lt_Some _ _ _ Hi) as Hlt.
  assert (di s2 inum = din2) as Edi by (apply di_set_eq; [apply Hg|done|done]).
  destruct (put_size_file s1 din1 (c ++ p) (zlen c + zlen p) Hl1 (gr_file _ _ _ _ _ _ Hg)) as [Hf _].
  split.
  - apply set_di_ok; [apply Hg|done|done].
  - cbn. rewrite (gr_inodes _ _ _ _ _ _ Hg), (im_inodes _ _ Him). unfold zlen. by rewrite length_insert.
  - unfold zlen. rewrite length_insert. apply Him.
  - intros j f Hj. destruct (decide (j = i)) as [-> |Hne].
    + rewrite list_lookup_insert_eq in Hj by done. injection Hj as <-. fold inum. rewrite Edi. split; [done|]. by apply (set_di_file s1 inum din2 (gr_disk _ _ _ _ _ _ Hg) Hr Hl2).
    + rewrite list_lookup_insert_ne in Hj by done. destruct (append_other j f Hj Hne) as (-> & Hf2 & _). split; [apply (im_file _ _ Him j f Hj)|done].
  - intros j k f g b Hj Hk. destruct (decide (j = i)) as [-> |Hji]; destruct (decide (k = i)) as [-> |Hki]; [done|..].
    + rewrite list_lookup_insert_eq in Hj by done. injection Hj as <-. rewrite list_lookup_insert_ne in Hk by done. fold inum. rewrite Edi. destruct (append_other k g Hk Hki) as (-> & _ & Ho).
      intros Hb1 Hb2. apply Ho in Hb2. apply append_own in Hb1 as [Hb1|Hb1]; [by eapply (im_apart _ _ Him)|]. apply owns_range in Hb2; [lia|apply Him|apply (im_file _ _ Him k g Hk)].
    + rewrite list_lookup_insert_eq in Hk by done. injection Hk as <-. rewrite list_lookup_insert_ne in Hj by done. fold inum. rewrite Edi. destruct (append_other j f Hj Hji) as (-> & _ & Ho).
      intros Hb1 Hb2. apply Ho in Hb1. apply append_own in Hb2 as [Hb2|Hb2]; [by eapply (im_apart _ _ Him)|]. apply owns_range in Hb1; [lia|apply Him|apply (im_file _ _ Him j f Hj)].
    + rewrite list_lookup_insert_ne in Hj, Hk by done. destruct (append_other j f Hj Hji) as (-> & _ & Ho1). destruct (append_other k g Hk Hki) as (-> & _ & Ho2).
      rewrite (Ho1 b), (Ho2 b). by apply (im_apart _ _ Him).
  - cbn. rewrite (gr_fb _ _ _ _ _ _ Hg), (im_free _ _ Him), (total_insert _ _ _ _ Hi). cbn [snd]. lia.
  - unfold s2. rewrite blk_set_di by (try done; try apply Hg; lia). rewrite <- (im_sb _ _ Him). unfold blk. f_equal. pose proof (dk_free _ (im_disk _ _ Him)) as Hfree. rewrite nmeta_val in Hfree.
    apply (gr_frame _ _ _ _ _ _ Hg); [|lia]. intros Ho. apply owns_range in Ho; [lia|apply Him|apply (im_file _ _ Him i _ Hi)].
Qed.
End Append.

Lemma iappend_image s fs i t c p : image_ok s fs -> fs !! i = Some (t, c) -> zlen c + zlen p <= 268 * 1024 -> 46 + total (<[i := (t, c ++ p)]> fs) <= 2000 ->
  exists s', iappend (1 + Z.of_nat i) p s = Ok tt s' /\ image_ok s' (<[i := (t, c ++ p)]> fs).
Proof.
  intros Him Hi Hlen Hroom. pose proof (inum_range _ _ _ _ Him Hi) as Hr. destruct (im_file _ _ Him i _ Hi) as [(Hl & _ & _ & _ & _ & Hsz) Hf]. destruct (append_len c p Hlen) as [El Hv]. cbn [fst snd] in *.
  rewrite (total_insert _ _ _ _ Hi) in Hroom. cbn [snd] in Hroom. rewrite El in Hroom.
  destruct (iappend_loop_run (length p) s (di s (1 + Z.of_nat i)) c p Hf (im_disk _ _ Him)) as (s1 & din1 & E & Hg); [lia|done|rewrite (im_free _ _ Him); lia|].
  eexists. split; [|by apply (append_image s fs i t c p Him Hi Hlen s1 din1 Hg)].
  unfold iappend. rewrite (hbind_ok _ _ _ _ _ (rinode_run s _ (im_disk _ _ Him) Hr)), Hsz. pose proof (zlen_nonneg c). pose proof (zlen_nonneg p).
  rewrite (xint_small (zlen c)) by lia. rewrite (hbind_ok _ _ _ _ _ E). rewrite xint_small by done. apply winode_run; [apply Hg|done].
Qed.

(** ** ialloc *)

Definition fresh_din (t : Z) : list Z := put32 (put16 (put16 (replicate 64 0) 0 t) 6 1) 8 0.

Lemma getn_zeros n k o : 0 <= o -> getn n (replicate k 0) o = 0.
Proof. intros Ho. unfold getn, slice. rewrite drop_replicate, take_replicate. apply le_val_zeros. Qed.

Lemma fresh_din_ok t : 0 <= t < 2 ^ 16 -> head_ok (fresh_din t) t 0 /\ forall j, 0 <= j <= 12 -> daddr (fresh_din t) j = 0.
Proof.
  intros Ht. assert (zlen (put16 (replicate 64 0) 0 t) = 64 /\ zlen (put16 (put16 (replicate 64 0) 0 t) 6 1) = 64) as [L1 L2] by (rewrite !zlen_putn; done).
  unfold fresh_din. split; [split; [by rewrite !length_putn by (rewrite ?L1, ?L2; done)|]|].
  - rewrite !(getn_putn_ne 4 2) by (rewrite ?L2; lia). rewrite (getn_putn_ne 2 2 _ 6 0), (getn_putn_ne 2 2 _ 6 2), (getn_putn_ne 2 2 _ 6 4) by (rewrite ?L1; lia).
    rewrite (getn_putn_ne 2 2 _ 0 2), (getn_putn_ne 2 2 _ 0 4) by (done || lia). rewrite (getn_putn_eq 2 _ 0), (getn_putn_eq 2 _ 6), (getn_putn_eq 4 _ 8), !getn_zeros by (rewrite ?L1, ?L2; done || lia). done.
  - intros j Hj. unfold daddr. rewrite (getn_putn_ne 4 4), (getn_putn_ne 2 4 _ 6), (getn_putn_ne 2 4 _ 0), getn_zeros by (rewrite ?L1, ?L2; change (zlen (replicate 64 0)) with 64; lia). done.
Qed.

Lemma fresh_file s t : 0 <= t < 2 ^ 16 -> holds_file s (fresh_din t) [] /\ forall b, ~ owns s (fresh_din t) (@nil Z) b.
Proof.
  intros Ht. destruct (fresh_din_ok t Ht) as [(Hl & _) Hz]. split; [split|].
  - change (nb (zlen (@nil Z))) with 0. split; try lia; try done.
    intros j Hj. zcase (j <? 0); [lia|]. unfold faddr. assert (ind (fresh_din t) = 0) as -> by (by apply Hz). zcase (j <? 12); [apply Hz; lia|done].
  - intros p Hp. change (nb (zlen (@nil Z))) with 0 in Hp. lia.
  - intros b [[? _]|(j & Hj & _)]; [done|]. change (nb (zlen (@nil Z))) with 0 in Hj. lia.
Qed.

Lemma ialloc_image s fs t : image_ok s fs -> zlen fs < 199 -> 0 <= t < 2 ^ 16 ->
  exists s', ialloc t s = Ok (1 + zlen fs) s' /\ image_ok s' (fs ++ [(t, [])]).
Proof.
  intros Him Hmax Ht. pose proof (zlen_nonneg fs) as H0. set (inum := 1 + zlen fs). assert (0 <= inum < 208) as Hr by lia. destruct (fresh_din_ok t Ht) as [Hh _]. pose proof Hh as (Hl & _).
  set (s0 := Mk (img s) (inum + 1) (freeblock s)). assert (disk_ok s0) as Hd0 by (destruct (im_disk _ _ Him); by split).
  exists (set_di inum (fresh_din t) s0). split.
  { unfold ialloc. rewrite (im_inodes _ _ Him). fold inum. rewrite u32_small by lia. fold s0. rewrite (xshort_small t) by done. change (xshort 1) with 1. change (xint 0) with 0. fold (fresh_din t).
    by rewrite (hbind_ok _ _ _ _ _ (winode_run s0 inum (fresh_din t) Hd0 Hr)). }
  assert (forall i f, fs !! i = Some f -> di (set_di inum (fresh_din t) s0) (1 + Z.of_nat i) = di s (1 + Z.of_nat i) /\ holds_file (set_di inum (fresh_din t) s0) (di s (1 + Z.of_nat i)) f.2 /\
    forall b, owns (set_di inum (fresh_din t) s0) (di s (1 + Z.of_nat i)) f.2 b <-> owns s (di s (1 + Z.of_nat i)) f.2 b) as Hold.
  { intros i f Hi. pose proof (lookup_lt_Some _ _ _ Hi) as Hlt. assert (0 <= 1 + Z.of_nat i < 208 /\ 1 + Z.of_nat i <> inum) as [Hr1 Hr2] by (subst inum; unfold zlen in *; lia). split; [by rewrite di_set_ne|].
    destruct (holds_frame s s0 _ _ (proj2 (im_file _ _ Him i f Hi))) as [Hf1 Ho1]; [done|done|]. destruct (set_di_file s0 inum (fresh_din t) Hd0 Hr Hl _ _ Hf1) as [Hf2 Ho2]. split; [done|]. intros b. etrans; [apply Ho2|apply Ho1]. }
  destruct (fresh_file s0 t Ht) as [Hf0 Ho0]. destruct (set_di_file s0 inum (fresh_din t) Hd0 Hr Hl _ _ Hf0) as [Hf1 Ho1].
  assert (di (set_di inum (fresh_din t) s0) inum = fresh_din t) as Enew by (by apply di_set_eq).
  assert (forall i f, (fs ++ [(t, [])]) !! i = Some f -> (fs !! i = Some f) \/ (1 + Z.of_nat i = inum /\ f = (t, []))) as Hcase.
  { intros i f Hi. apply lookup_app_Some in Hi as [Hi|[Hge Hi]]; [by left|right]. destruct (i - length fs)%nat as [|?] eqn:E; [|done]. injection Hi as <-. split; [unfold inum, zlen; lia|done]. }
  split.
  - by apply set_di_ok.
  - cbn. unfold zlen. rewrite length_app. cbn. unfold inum, zlen. lia.
  - unfold zlen in *. rewrite length_app. cbn. lia.
  - intros i f Hi. destruct (Hcase i f Hi) as [Hi'|[Ei ->]]; [destruct (Hold i f Hi') as (-> & Hf & _); split; [apply (im_file _ _ Him i f Hi')|done]|].
    rewrite Ei, Enew. done.
  - intros i j f g b Hi Hj. destruct (Hcase i f Hi) as [Hi'|[Ei ->]]; [|rewrite Ei, Enew; intros Hb; apply Ho1 in Hb; by apply Ho0 in Hb].
    destruct (Hcase j g Hj) as [Hj'|[Ej ->]]; [|rewrite Ej, Enew; intros _ Hb; apply Ho1 in Hb; by apply Ho0 in Hb].
    destruct (Hold i f Hi') as (-> & _ & O1). destruct (Hold j g Hj') as (-> & _ & O2). rewrite (O1 b), (O2 b). by apply (im_apart _ _ Him).
  - cbn. rewrite (im_free _ _ Him), total_app. change (total [(t, [])]) with 0. lia.
  - rewrite blk_set_di by (try done; lia). apply Him.
Qed.

(** ** The files of the command line *)

Definition short (f : hfile) : list Z := strip_underscore (strip_user (hf_name f)).
Definition content (f : hfile) : list Z := match hf_chunks f with Some chunks => concat chunks | None => [] end.

(** A file mkfs can copy: its name has no slash left, it opens, and it is not too large. *)
Definition acceptable (f : hfile) : Prop :=
  (SLASH ∉ strip_user (hf_name f)) /\ is_Some (hf_chunks f) /\ zlen (content f) <= 268 * 1024.

Fixpoint entries (inum : Z) (files : list hfile) : list Z :=
  match files with
  | [] => []
  | f :: files' => new_dent (short f) inum ++ entries (inum + 1) files'
  end.

Definition stored_files (files : list hfile) : list ifile := (fun f => (T_FILE, content f)) <$> files.

(** What the image is to hold: the root directory and the files. *)
Definition root_dir (files : list hfile) : list Z := new_dent [46] 1 ++ new_dent [46; 46] 1 ++ entries 2 files.
Definition image_files (files : list hfile) : list ifile := (T_DIR, root_dir files) :: stored_files files.

Lemma zlen_entries files : forall inum, zlen (entries inum files) = 16 * zlen files.
Proof. induction files as [|f files IH]; intros inum; [done|]. cbn [entries]. unfold zlen in *. rewrite length_app. pose proof (zlen_new_dent (short f) inum). unfold zlen in *. cbn [length]. specialize (IH (inum + 1)). lia. Qed.

Lemma append_dirent_image s r rest name inum : image_ok s ((T_DIR, r) :: rest) -> 0 <= inum < 65536 -> zlen r + 16 <= 268 * 1024 ->
  46 + total ((T_DIR, r ++ new_dent name inum) :: rest) <= 2000 ->
  exists s', append_dirent inum name s = Ok tt s' /\ image_ok s' ((T_DIR, r ++ new_dent name inum) :: rest).
Proof.
  intros Him Hi Hlen Hroom. destruct (iappend_image s _ 0 T_DIR r (new_dent name inum) Him eq_refl) as (s' & E & Him'); [rewrite zlen_new_dent; lia|done|].
  exists s'. split; [|exact Him']. unfold append_dirent. rewrite xshort_small by (change (2 ^ 16) with 65536; lia). exact E.
Qed.

Lemma append_chunks_image i t chunks : forall s fs c, image_ok s fs -> fs !! i = Some (t, c) -> zlen c + zlen (concat chunks) <= 268 * 1024 ->
  46 + total (<[i := (t, c ++ concat chunks)]> fs) <= 2000 ->
  exists s', append_chunks (1 + Z.of_nat i) chunks s = Ok tt s' /\ image_ok s' (<[i := (t, c ++ concat chunks)]> fs).
Proof.
  induction chunks as [|p chunks IH]; intros s fs c Him Hi Hlen Hroom; cbn [append_chunks concat] in *.
  - exists s. rewrite app_nil_r, list_insert_id by done. done.
  - pose proof (lookup_lt_Some _ _ _ Hi) as Hlt. assert (zlen (p ++ concat chunks) = zlen p + zlen (concat chunks)) as El by (unfold zlen; rewrite length_app; lia). pose proof (zlen_nonneg p). pose proof (zlen_nonneg c). pose proof (zlen_nonneg (concat chunks)).
    destruct (append_len c p ltac:(lia)) as [Ecp _]. destruct (append_len c (p ++ concat chunks) Hlen) as [Eall _].
    destruct (iappend_image s fs i t c p Him Hi) as (s1 & E1 & Him1); [lia| |].
    { rewrite (total_insert _ _ _ _ Hi) in Hroom. rewrite (total_insert _ _ _ _ Hi). cbn [snd] in *. pose proof (nsect_mono (zlen (c ++ p)) (zlen (c ++ p ++ concat chunks)) ltac:(lia)). lia. }
    rewrite (hbind_ok _ _ _ _ _ E1). destruct (IH s1 _ (c ++ p) Him1) as (s2 & E2 & Him2).
    + by apply list_lookup_insert_eq.
    + lia.
    + by rewrite list_insert_insert_eq, <- app_assoc.
    + exists s2. split; [done|]. by rewrite list_insert_insert_eq, <- app_assoc in Him2.
Qed.

Lemma add_file_image s r stored f : image_ok s ((T_DIR, r) :: stored) -> acceptable f -> zlen stored < 198 -> zlen r + 16 <= 268 * 1024 ->
  46 + total ((T_DIR, r ++ new_dent (short f) (2 + zlen stored)) :: stored ++ [(T_FILE, content f)]) <= 2000 ->
  exists s', add_file f s = Ok tt s' /\ image_ok s' ((T_DIR, r ++ new_dent (short f) (2 + zlen stored)) :: stored ++ [(T_FILE, content f)]).
Proof.
  intros Him (Hslash & [chunks Hc] & Hsize) Hn Hr Hroom. pose proof (zlen_nonneg stored). unfold add_file. unfold content in Hsize, Hroom |- *. rewrite Hc in *. rewrite (bool_decide_eq_false_2 _ Hslash).
  destruct (ialloc_image s _ T_FILE Him) as (s1 & E1 & Him1); [unfold zlen in *; cbn [length]; lia|done|].
  assert (1 + zlen ((T_DIR, r) :: stored) = 2 + zlen stored) as Ei by (unfold zlen; cbn [length]; lia). rewrite Ei in E1.
  rewrite total_cons, total_app, total_cons in Hroom. cbn [snd] in Hroom. change (total []) with 0 in Hroom. pose proof (nsect_nonneg (concat chunks)).
  destruct (append_dirent_image s1 r (stored ++ [(T_FILE, [])]) (short f) (2 + zlen stored) Him1) as (s2 & E2 & Him2); [lia|done|rewrite total_cons, total_app; change (total [(T_FILE, [])]) with 0; cbn [snd]; lia|].
  destruct (append_chunks_image (S (length stored)) T_FILE chunks s2 _ [] Him2) as (s3 & E3 & Him3).
  - change ((stored ++ [(T_FILE, [])]) !! length stored = Some (T_FILE, [])). rewrite lookup_app_r, Nat.sub_diag by done. done.
  - change (zlen (@nil Z)) with 0. lia.
  - change (<[S (length stored) := ?x]> (?a :: ?l)) with (a :: <[length stored := x]> l). rewrite insert_app_r_alt, Nat.sub_diag by done. change (<[0%nat := ?x]> [?y]) with [x]. rewrite total_cons, total_app, total_cons. cbn [snd]. change (total []) with 0. rewrite app_nil_l. lia.
  - exists s3. change (<[S (length stored) := ?x]> (?a :: ?l)) with (a :: <[length stored := x]> l) in Him3. rewrite insert_app_r_alt, Nat.sub_diag in Him3 by done. split; [|exact Him3].
    cbn [negb assert_]. unfold assert_. rewrite (hbind_ok (hret tt) _ s tt s eq_refl), (hbind_ok _ _ _ _ _ E1). unfold short in E2. rewrite (hbind_ok _ _ _ _ _ E2).
    replace (2 + zlen stored) with (1 + Z.of_nat (S (length stored))) by (unfold zlen; lia). exact E3.
Qed.

Lemma add_files_image files : forall s r stored, image_ok s ((T_DIR, r) :: stored) -> Forall acceptable files -> zlen stored + zlen files <= 198 -> zlen r + 16 * zlen files <= 268 * 1024 ->
  46 + total ((T_DIR, r ++ entries (2 + zlen stored) files) :: stored ++ stored_files files) <= 2000 ->
  exists s', add_files files s = Ok tt s' /\ image_ok s' ((T_DIR, r ++ entries (2 + zlen stored) files) :: stored ++ stored_files files).
Proof.
  induction files as [|f files IH]; intros s r stored Him Hacc Hn Hr Hroom; cbn [add_files entries] in *.
  - exists s. change (stored_files []) with (@nil ifile). rewrite !app_nil_r. done.
  - apply Forall_cons in Hacc as [Hf Hacc]. pose proof (zlen_nonneg files) as H0. pose proof (zlen_nonneg stored) as H1. assert (zlen (f :: files) = 1 + zlen files) as El by (unfold zlen; cbn [length]; lia).
    set (r1 := r ++ new_dent (short f) (2 + zlen stored)). set (st1 := stored ++ [(T_FILE, content f)]).
    assert (zlen r1 = zlen r + 16) as Er by (unfold r1; rewrite <- (zlen_new_dent (short f) (2 + zlen stored)); unfold zlen; rewrite length_app; lia).
    assert (zlen st1 = zlen stored + 1) as Es by (unfold st1, zlen; rewrite length_app; cbn; lia).
    assert (r ++ new_dent (short f) (2 + zlen stored) ++ entries (2 + zlen stored + 1) files = r1 ++ entries (2 + zlen st1) files) as Eent by (unfold r1; rewrite <- app_assoc, Es; do 3 f_equal; lia).
    change (stored_files (f :: files)) with ((T_FILE, content f) :: stored_files files) in *.
    assert (stored ++ (T_FILE, content f) :: stored_files files = st1 ++ stored_files files) as Est by (unfold st1; by rewrite <- app_assoc).
    rewrite Eent, Est in *. pose proof Hroom as Hroom'. rewrite total_cons, total_app in Hroom'. cbn [snd] in Hroom'. pose proof (total_nonneg (stored_files files)).
    assert (zlen (r1 ++ entries (2 + zlen st1) files) = zlen r1 + 16 * zlen files) as Erl by (rewrite <- (zlen_entries files (2 + zlen st1)); unfold zlen; rewrite length_app; lia).
    pose proof (zlen_nonneg r1). pose proof (nsect_mono (zlen r1) (zlen (r1 ++ entries (2 + zlen st1) files)) ltac:(lia)).
    destruct (add_file_image s r stored f Him Hf) as (s1 & E1 & Him1); [lia|lia|fold r1 st1; rewrite total_cons; cbn [snd]; lia|].
    destruct (IH s1 r1 st1 Him1 Hacc) as (s2 & E2 & Him2); [lia|lia|done|]. exists s2. split; [|done]. by rewrite (hbind_ok _ _ _ _ _ E1).
Qed.

(** ** The start *)

Lemma zero_disk_run k : forall i s, 0 <= i -> i + Z.of_nat k <= 2000 ->
  exists s', zero_disk k i s = Ok tt s' /\ freeinode s' = freeinode s /\ freeblock s' = freeblock s /\
    forall b, img s' !! b = if (i <=? b) && (b <? i + Z.of_nat k) then Some zeros else img s !! b.
Proof.
  induction k as [|k IH]; intros i s Hi Hk; cbn [zero_disk].
  - exists s. do 3 (split; [done|]). intros b. zcase (i <=? b); zcase (b <? i + Z.of_nat 0); cbn [andb]; done || lia.
  - rewrite (hbind_ok _ _ _ _ _ (wsect_run s i _ ltac:(lia))). destruct (IH (i + 1) (put_blk i zeros s)) as (s' & E & E1 & E2 & Hb); [lia|lia|]. exists s'. do 3 (split; [done|]).
    intros b. rewrite Hb. unfold put_blk. cbn [img set_img]. destruct (decide (b = i)) as [-> |Hne].
    + rewrite lookup_insert_eq. zcase (i + 1 <=? i); [lia|]. zcase (i <=? i); [|lia]. zcase (i <? i + Z.of_nat (S k)); [done|lia].
    + rewrite lookup_insert_ne by done. zcase (i + 1 <=? b); zcase (i <=? b); zcase (b <? i + 1 + Z.of_nat k); zcase (b <? i + Z.of_nat (S k)); cbn [andb]; done || lia.
Qed.

Lemma start_image : exists s s1, zero_disk (Z.to_nat FSSIZE) 0 (Mk ∅ 1 nmeta) = Ok tt s1 /\ wsect 1 sb_block s1 = Ok tt s /\ image_ok s [].
Proof.
  destruct (zero_disk_run (Z.to_nat FSSIZE) 0 (Mk ∅ 1 nmeta)) as (s1 & E & E1 & E2 & Hb); [done|done|]. cbn in E1, E2. exists (put_blk 1 sb_block s1), s1. split; [done|]. split; [by apply wsect_run|].
  assert (forall b, 0 <= b < 2000 -> img s1 !! b = Some zeros) as Hz.
  { intros b Hb0. rewrite Hb. change (Z.of_nat (Z.to_nat FSSIZE)) with 2000. zcase (0 <=? b); [|lia]. zcase (b <? 0 + 2000); [done|lia]. }
  assert (disk_ok s1) as Hd.
  { split; [| |rewrite E2; rewrite nmeta_val; lia]; intros b Hb0; (assert (0 <= b < 2000) as Hr by (rewrite ?E2, ?nmeta_val in Hb0; lia)); unfold blk; rewrite (Hz b Hr); done. }
  split; [apply put_disk_ok; [done|rewrite E2, nmeta_val; lia|reflexivity]|by cbn; rewrite E1|done|done|done|cbn; by rewrite E2|by rewrite blk_put_eq].
Qed.

(** ** The bitmap *)

Lemma balloc_fill_bits k : forall i buf, zlen buf = 1024 -> 0 <= i -> i + Z.of_nat k <= 8192 ->
  zlen (balloc_fill k i buf) = 1024 /\ forall b, 0 <= b -> map_bit (balloc_fill k i buf) b = ((i <=? b) && (b <? i + Z.of_nat k)) || map_bit buf b.
Proof.
  induction k as [|k IH]; intros i buf Hl Hi Hk; cbn [balloc_fill].
  - split; [done|]. intros b Hb. zcase (i <=? b); zcase (b <? i + Z.of_nat 0); cbn [andb orb]; done || lia.
  - set (buf1 := zupd buf (i / 8) _). assert (zlen buf1 = 1024) as Hl1 by (unfold buf1; by rewrite zlen_zupd). destruct (IH (i + 1) buf1) as [El Hbits]; [done|lia|lia|]. split; [done|].
    intros b Hb. rewrite Hbits by done. assert (map_bit buf1 b = (b =? i) || map_bit buf b) as E1.
    { unfold buf1. rewrite map_bit_zupd by (rewrite ?Hl; lia). rewrite <- (set_bit_block buf i b) by (rewrite ?Hl; lia). rewrite map_bit_zupd by (rewrite ?Hl; lia). unfold u8, bit_of. change 256 with (2 ^ 8).
      destruct (i / 8 =? b / 8); [|done]. apply Z.mod_pow2_bits_low. dlia. }
    rewrite E1, orb_assoc. f_equal. zcase (i + 1 <=? b); zcase (i <=? b); zcase (b <? i + 1 + Z.of_nat k); zcase (b <? i + Z.of_nat (S k)); zcase (b =? i); cbn; done || lia.
Qed.

(** ** The image as the kernel reads it *)

(** The inode ilock() loads, the block bmap() finds in it, and the bit balloc() looks at. *)
Definition image_inode (s : mk) (inum : Z) : inode := load_dinode (blk s (IBLOCK inum sb)) (dinode_off inum) inode0.
Definition image_addr (s : mk) (i : inode) (bn : Z) : Z :=
  if bn <? NDIRECT then znth 0 (i_addrs i) bn else get32 (blk s (znth 0 (i_addrs i) NDIRECT)) (4 * (bn - NDIRECT)).
Definition marked (s : mk) (b : Z) : bool := map_bit (blk s (BBLOCK b sb)) (b mod BPB).

(** Inode [inum] is a file of the image with the type and the bytes of [f], zeros up to the
    end of its last block, all in data blocks that the bitmap marks. *)
Record stored (s : mk) (inum : Z) (f : ifile) (size : Z) : Prop := {
  sd_type : i_type (image_inode s inum) = f.1;
  sd_nlink : i_nlink (image_inode s inum) = 1;
  sd_size : i_size (image_inode s inum) = size;
  sd_block : forall j, 0 <= j < nb (zlen f.2) -> let a := image_addr s (image_inode s inum) j in 46 <= a < 2000 /\ marked s a = true;
  sd_indirect : 12 < nb (zlen f.2) -> let a := znth 0 (i_addrs (image_inode s inum)) NDIRECT in 46 <= a < 2000 /\ marked s a = true;
  sd_bytes : forall p, 0 <= p < 1024 * nb (zlen f.2) ->
    znth 0 (blk s (image_addr s (image_inode s inum) (p / 1024))) (p mod 1024) = znth 0 f.2 p;
}.

Lemma image_inode_fields s inum t size : 0 <= inum < 208 -> head_ok (di s inum) t size -> 0 <= t < 32768 ->
  i_type (image_inode s inum) = t /\ i_nlink (image_inode s inum) = 1 /\ i_size (image_inode s inum) = size /\
  forall j, 0 <= j <= 12 -> znth 0 (i_addrs (image_inode s inum)) j = daddr (di s inum) j.
Proof.
  intros Hi (Hl & H0 & _ & _ & H6 & H8) Ht. unfold image_inode, dinode_off. destruct (IBLOCK_eq inum Hi) as [-> _]. change IPB with 16. set (off := 64 * (inum mod 16)). assert (0 <= off) by (unfold off; dlia).
  assert (forall n o, 0 <= o -> o + Z.of_nat n <= 64 -> getn n (blk s (iblock inum)) (off + o) = getn n (di s inum) o) as E by (intros n o Ho Hn; by apply getn_slice).
  unfold load_dinode. cbn [i_type i_nlink i_size i_addrs]. rewrite <- (Z.add_0_r off) at 1. rewrite !E, H0, H6, H8 by lia. rewrite !s16_small by lia. do 3 (split; [done|]).
  intros j Hj. unfold read_addrs. apply znth_lookup; [lia|]. rewrite list_lookup_fmap, lookup_seqZ_lt by lia. cbn. f_equal. unfold daddr. rewrite <- E by lia. f_equal. lia.
Qed.

Lemma image_addr_faddr s inum t size j : 0 <= inum < 208 -> head_ok (di s inum) t size -> 0 <= t < 32768 -> 0 <= j -> (12 <= j -> ind (di s inum) <> 0) ->
  image_addr s (image_inode s inum) j = faddr s (di s inum) j.
Proof.
  intros Hi Hh Ht Hj Hind. destruct (image_inode_fields s inum t size Hi Hh Ht) as (_ & _ & _ & Ha). unfold image_addr, faddr. change NDIRECT with 12. rewrite (Ha 12) by lia. fold (ind (di s inum)).
  zcase (j <? 12); [apply Ha; lia|]. zcase (ind (di s inum) =? 0); [by apply Hind in E0|done].
Qed.

(** From the invariant to what the kernel reads. *)
Lemma stored_of s inum f size : 0 <= inum < 208 -> head_ok (di s inum) f.1 size -> 0 <= f.1 < 32768 -> holds_file s (di s inum) f.2 -> freeblock s <= 2000 ->
  (forall b, 46 <= b < freeblock s -> marked s b = true) -> stored s inum f size.
Proof.
  intros Hi Hh Ht Hf Hfree Hmark. destruct (image_inode_fields s inum _ size Hi Hh Ht) as (H1 & H2 & H3 & Ha). pose proof (hf_map _ _ _ Hf) as Hm. pose proof (fm_n _ _ _ _ Hm) as Hn.
  assert (12 < nb (zlen f.2) -> good s (ind (di s inum))) as Hind by (intros H; pose proof (fm_ind _ _ _ _ Hm) as Hg; rewrite (fm_m _ _ _ _ Hm H) in Hg; done).
  assert (forall j, 0 <= j < nb (zlen f.2) -> image_addr s (image_inode s inum) j = faddr s (di s inum) j) as E.
  { intros j Hj. eapply image_addr_faddr; [done|exact Hh|done|lia|]. intros Hj12. pose proof (Hind ltac:(lia)) as Hg. unfold good in Hg. rewrite nmeta_val in Hg. lia. }
  split; [done|done|done| | |].
  - intros j Hj. cbn zeta. rewrite E by done. pose proof (blocks_good _ _ _ _ j Hm Hj) as Hg. unfold good in Hg. rewrite nmeta_val in Hg. split; [lia|by apply Hmark].
  - intros H. cbn zeta. change NDIRECT with 12. rewrite Ha by lia. fold (ind (di s inum)). pose proof (Hind H) as Hg. unfold good in Hg. rewrite nmeta_val in Hg. split; [lia|by apply Hmark].
  - intros p Hp. rewrite E by dlia. by apply (hf_data _ _ _ Hf).
Qed.

Section Finish.
Context (s : mk) (r : list Z) (rest : list ifile) (Him : image_ok s ((T_DIR, r) :: rest)).
Context (Hr : zlen r < 268 * 1024) (Hroom : 46 + total ((T_DIR, r) :: rest) <= 2000) (Hfiles : Forall (fun f => f.1 = T_FILE) rest).
Let size0 := (zlen r / 1024 + 1) * 1024.
Let s1 := set_di 1 (put32 (di s 1) 8 size0) s.
Let s2 := put_blk 45 (balloc_fill (Z.to_nat (freeblock s)) 0 zeros) s1.

Lemma root_ok : head_ok (di s 1) T_DIR (zlen r) /\ holds_file s (di s 1) r /\ 0 <= size0 < 2 ^ 32 /\ length (put32 (di s 1) 8 size0) = 64%nat.
Proof using Him Hr.
  destruct (im_file _ _ Him 0%nat _ eq_refl) as [Hh Hf]. pose proof (zlen_nonneg r). assert (0 <= size0 < 2 ^ 32) as Hs by (unfold size0; change (2 ^ 32) with 4294967296; dlia).
  do 3 (split; [done|]). apply (head_ok_size _ _ _ _ Hh Hs).
Qed.

Lemma fix_root_run : fix_root s = Ok tt s1.
Proof using Him Hr.
  destruct root_ok as ((_ & _ & _ & _ & _ & Hsz) & _ & Hs & _). pose proof (zlen_nonneg r). unfold fix_root. change ROOTINO with 1. rewrite (hbind_ok _ _ _ _ _ (rinode_run s 1 (im_disk _ _ Him) ltac:(lia))), Hsz.
  change BSIZE with 1024. change (2 ^ 32) with 4294967296 in *. rewrite (xint_small (zlen r)) by (change (2 ^ 32) with 4294967296; lia). fold size0. rewrite u32_small, xint_small by (change (2 ^ 32) with 4294967296; lia).
  apply winode_run; [apply Him|lia].
Qed.

Lemma free_val : 46 <= freeblock s <= 2000 /\ freeblock s1 = freeblock s /\ freeblock s2 = freeblock s.
Proof using Him Hroom. rewrite (im_free _ _ Him). pose proof (total_nonneg ((T_DIR, r) :: rest)). split; [lia|]. cbn. by rewrite (im_free _ _ Him). Qed.

Lemma balloc_run : balloc (freeblock s1) s1 = Ok tt s2.
Proof using Him Hroom.
  destruct free_val as (Hf & E & _). unfold balloc. rewrite E. unfold assert_. zcase (freeblock s <? BSIZE * 8); [|change (BSIZE * 8) with 8192 in *; lia].
  rewrite (hbind_ok (hret tt) _ s1 tt s1 eq_refl). by apply wsect_run.
Qed.

Lemma finish_marked b : 0 <= b < 2000 -> marked s2 b = (b <? freeblock s).
Proof using Him Hroom.
  intros Hb. destruct free_val as (Hf & _ & _). unfold marked. assert (BBLOCK b sb = 45) as -> by (unfold BBLOCK; change BPB with 8192; change (sb_bmapstart sb) with 45; rewrite Z.div_small, u32_small; lia).
  change BPB with 8192. rewrite Z.mod_small by lia. unfold s2. rewrite blk_put_eq. destruct (balloc_fill_bits (Z.to_nat (freeblock s)) 0 zeros) as [_ Hbits]; [done|lia|lia|]. rewrite Hbits by lia.
  assert (map_bit zeros b = false) as -> by (unfold map_bit, zeros; rewrite znth_replicate by (change (Z.of_nat (Z.to_nat BSIZE)) with 1024; dlia); apply Z.testbit_0_l). rewrite Z2Nat.id, orb_false_r by lia. zcase (0 <=? b); [|lia]. done.
Qed.

Lemma finish_holds din c : holds_file s din c -> holds_file s2 din c /\ forall b, owns s2 din c b <-> owns s din c b.
Proof using Him Hr Hroom.
  intros Hf. destruct root_ok as (_ & _ & _ & Hl). destruct (set_di_file s 1 _ (im_disk _ _ Him) ltac:(lia) Hl _ _ Hf) as [Hf1 Ho1].
  destruct (holds_frame s1 s2 _ _ Hf1) as [Hf2 Ho2]; [done| |split; [done|intros b; etrans; [apply Ho2|apply Ho1]]].
  intros b Hb. apply Ho1 in Hb. apply owns_range in Hb; [|apply Him|done]. unfold s2, put_blk. cbn. rewrite lookup_insert_ne by lia. done.
Qed.

Lemma finish_di i f : ((T_DIR, r) :: rest) !! i = Some f ->
  head_ok (di s2 (1 + Z.of_nat i)) f.1 (if decide (i = 0%nat) then size0 else zlen f.2) /\ holds_file s2 (di s2 (1 + Z.of_nat i)) f.2 /\
  forall b, owns s2 (di s2 (1 + Z.of_nat i)) f.2 b <-> owns s (di s (1 + Z.of_nat i)) f.2 b.
Proof using Him Hr Hroom.
  intros Hi. pose proof (inum_range _ _ _ _ Him Hi) as Hri. destruct (IBLOCK_eq _ Hri) as [_ Hb]. destruct root_ok as (Hh0 & Hf0 & Hs0 & Hl0). destruct (im_file _ _ Him i f Hi) as [Hh Hf].
  assert (di s2 (1 + Z.of_nat i) = di s1 (1 + Z.of_nat i)) as -> by (unfold di, s2; rewrite blk_put_ne; [done|lia]). destruct (decide (i = 0%nat)) as [-> |Hne].
  - change (1 + Z.of_nat 0) with 1. injection Hi as <-. assert (di s1 1 = put32 (di s 1) 8 size0) as -> by (apply di_set_eq; [apply Him|lia|done]). destruct Hh0 as (Hl & Hh0). cbn [fst snd].
    destruct (put_size_file s _ r size0 Hl Hf0) as [Hf1 Ho1]. destruct (finish_holds _ _ Hf1) as [Hf2 Ho2]. split; [|split; [done|intros b; etrans; [apply Ho2|apply Ho1]]].
    eapply head_ok_size; [split; [exact Hl|exact Hh0]|done].
  - assert (di s1 (1 + Z.of_nat i) = di s (1 + Z.of_nat i)) as -> by (apply di_set_ne; [apply Him|lia|done|done|lia]). destruct (finish_holds _ _ Hf) as [Hf2 Ho2]. done.
Qed.

Lemma finish_type i f : ((T_DIR, r) :: rest) !! i = Some f -> 0 <= f.1 < 32768.
Proof using Hfiles. destruct i as [|i]; cbn; [intros [= <-]; cbn; done|]. intros H. rewrite Forall_lookup in Hfiles. rewrite (Hfiles i f H). done. Qed.

Lemma finish_stored i f : ((T_DIR, r) :: rest) !! i = Some f -> stored s2 (1 + Z.of_nat i) f (if decide (i = 0%nat) then size0 else zlen f.2).
Proof using Him Hr Hroom Hfiles.
  intros Hi. destruct (finish_di i f Hi) as (Hh & Hf & _). destruct free_val as (Hfr & _ & Ef). apply stored_of; [by eapply inum_range|done|by eapply finish_type|done|lia|].
  intros b Hb. rewrite Ef in Hb. rewrite finish_marked by lia. zcase (b <? freeblock s); [done|lia].
Qed.

Lemma finish_apart i j f g p q : ((T_DIR, r) :: rest) !! i = Some f -> ((T_DIR, r) :: rest) !! j = Some g -> 0 <= p < nb (zlen f.2) -> 0 <= q < nb (zlen g.2) ->
  image_addr s2 (image_inode s2 (1 + Z.of_nat i)) p = image_addr s2 (image_inode s2 (1 + Z.of_nat j)) q -> i = j /\ p = q.
Proof using Him Hr Hroom Hfiles.
  assert (forall i f p, ((T_DIR, r) :: rest) !! i = Some f -> 0 <= p < nb (zlen f.2) -> image_addr s2 (image_inode s2 (1 + Z.of_nat i)) p = faddr s2 (di s2 (1 + Z.of_nat i)) p) as Ea.
  { intros i0 f0 p0 Hi0 Hp0. destruct (finish_di i0 f0 Hi0) as (Hh0 & Hf0 & _). eapply image_addr_faddr; [by eapply inum_range|exact Hh0|by eapply finish_type|lia|].
    intros H12. pose proof (fm_ind _ _ _ _ (hf_map _ _ _ Hf0)) as Hg. rewrite (fm_m _ _ _ _ (hf_map _ _ _ Hf0) ltac:(lia)) in Hg. unfold good in Hg. rewrite nmeta_val in Hg. lia. }
  intros Hi Hj Hp Hq. rewrite (Ea i f p), (Ea j g q) by done. intros E. destruct (finish_di i f Hi) as (_ & Hf & Ho). destruct (finish_di j g Hj) as (_ & _ & Ho').
  assert (i = j) as ->.
  { eapply (im_apart _ _ Him i j f g (faddr s2 (di s2 (1 + Z.of_nat i)) p) Hi Hj); [apply Ho|apply Ho'; rewrite E]; right; eauto. }
  split; [done|]. rewrite Hi in Hj. injection Hj as <-. by apply (fm_inj _ _ _ _ (hf_map _ _ _ Hf)).
Qed.
End Finish.

(** C14: mkfs() makes a file system the kernel can read.  Given files whose names have no slash,
    that open and are at most 268 kilobytes, at most 198 of them and together with the root
    directory within 2000 blocks, mkfs ends without an error and leaves an image in which,
    decoded as the kernel does: the superblock is the layout fs.h describes; inode 1 is the
    root directory, with the entries of the files after dot and dot-dot and its size rounded
    up; inode i + 2 is the i-th file, with its bytes; the bitmap marks exactly the blocks
    before the first unused one, the files' among them; and no two places of files share a
    block. *)
Theorem mkfs_image files : Forall acceptable files -> zlen files <= 198 -> 46 + total (image_files files) <= 2000 ->
  exists s, mkfs files = Ok tt s /\
    sb_of (blk s 1) = Superblock FSMAGIC 2000 1954 200 30 2 32 45 /\ data_start (sb_of (blk s 1)) = 46 /\
    (forall i f, image_files files !! i = Some f ->
       stored s (1 + Z.of_nat i) f (if decide (i = 0%nat) then (zlen f.2 / 1024 + 1) * 1024 else zlen f.2)) /\
    (forall b, 0 <= b < 2000 -> marked s b = (b <? 46 + total (image_files files))) /\
    (forall i j f g p q, image_files files !! i = Some f -> image_files files !! j = Some g -> 0 <= p < nb (zlen f.2) -> 0 <= q < nb (zlen g.2) ->
       image_addr s (image_inode s (1 + Z.of_nat i)) p = image_addr s (image_inode s (1 + Z.of_nat j)) q -> i = j /\ p = q).
Proof.
  intros Hacc Hn Hroom. pose proof (zlen_nonneg files) as H0. unfold image_files in *. rewrite total_cons in Hroom. cbn [snd] in Hroom. pose proof (total_nonneg (stored_files files)).
  set (e1 := new_dent [46] 1). set (e2 := new_dent [46; 46] 1). assert (zlen (root_dir files) = 32 + 16 * zlen files) as El.
  { unfold root_dir. fold e1 e2. pose proof (zlen_new_dent [46] 1) as Z1. pose proof (zlen_new_dent [46; 46] 1) as Z2. pose proof (zlen_entries files 2) as Z3. fold e1 in Z1. fold e2 in Z2. unfold zlen in *. rewrite !length_app. lia. }
  assert (zlen e1 = 16 /\ zlen (e1 ++ e2) = 32) as [Z1 Z2] by (split; [apply zlen_new_dent|]; unfold e1, e2; reflexivity).
  pose proof (nsect_mono 16 (zlen (root_dir files)) ltac:(lia)) as M1. pose proof (nsect_mono 32 (zlen (root_dir files)) ltac:(lia)) as M2.
  destruct start_image as (s0 & sz & Ez & Esb & Him0). destruct (ialloc_image s0 [] T_DIR Him0) as (s1 & E1 & Him1); [done|done|].
  destruct (append_dirent_image s1 [] [] [46] 1 Him1) as (s2 & E2 & Him2); [lia|done|rewrite total_cons; cbn [snd]; fold e1; rewrite app_nil_l, Z1; change (total []) with 0; lia|]. rewrite app_nil_l in Him2. fold e1 in Him2.
  destruct (append_dirent_image s2 e1 [] [46; 46] 1 Him2) as (s3 & E3 & Him3); [lia|lia|rewrite total_cons; cbn [snd]; fold e2; rewrite Z2; change (total []) with 0; lia|]. fold e2 in Him3.
  assert ((e1 ++ e2) ++ entries (2 + zlen (@nil ifile)) files = root_dir files) as Eroot by (unfold root_dir; fold e1 e2; by rewrite <- app_assoc).
  destruct (add_files_image files s3 (e1 ++ e2) [] Him3 Hacc) as (s4 & E4 & Him4); [change (zlen (@nil ifile)) with 0; lia|lia|rewrite Eroot, total_cons; cbn [snd app]; lia|]. rewrite Eroot in Him4. cbn [app] in Him4.
  assert (zlen (root_dir files) < 268 * 1024) as Hr by lia. assert (46 + total ((T_DIR, root_dir files) :: stored_files files) <= 2000) as Hroom' by (rewrite total_cons; cbn [snd]; lia).
  assert (Forall (fun f => f.1 = T_FILE) (stored_files files)) as Hty by (apply Forall_fmap, Forall_true; done).
  eexists. split; [|split; [|split; [|split; [|split]]]].
  - unfold mkfs, main. rewrite (hbind_ok _ _ _ _ _ Ez). fold sb_block. rewrite (hbind_ok _ _ _ _ _ Esb), (hbind_ok _ _ _ _ _ E1). change (1 + zlen (@nil ifile) =? ROOTINO) with true. unfold assert_ at 1. rewrite (hbind_ok (hret tt) _ s1 tt s1 eq_refl).
    change (1 + zlen (@nil ifile)) with 1. rewrite (hbind_ok _ _ _ _ _ E2), (hbind_ok _ _ _ _ _ E3), (hbind_ok _ _ _ _ _ E4), (hbind_ok _ _ _ _ _ (fix_root_run s4 _ _ Him4 Hr)). unfold hbind at 1. exact (balloc_run s4 _ _ Him4 Hroom').
  - rewrite blk_put_ne, blk_set_di, (im_sb _ _ Him4); [reflexivity|apply Him4|lia|apply (root_ok s4 _ _ Him4 Hr)|lia|lia].
  - rewrite blk_put_ne, blk_set_di, (im_sb _ _ Him4); [reflexivity|apply Him4|lia|apply (root_ok s4 _ _ Him4 Hr)|lia|lia].
  - intros i f Hi. pose proof (finish_stored s4 _ _ Him4 Hr Hroom' Hty i f Hi) as Hs. destruct (decide (i = 0%nat)) as [-> |]; [injection Hi as <-|]; exact Hs.
  - intros b Hb. rewrite <- (im_free _ _ Him4). exact (finish_marked s4 _ _ Him4 Hroom' b Hb).
  - exact (finish_apart s4 _ _ Him4 Hr Hroom' Hty).
Qed.

(** user/_cat, read in two chunks. *)
Definition demo_hfile : hfile := HFile [117; 115; 101; 114; 47; 95; 99; 97; 116] (Some [[1; 2; 3]; [4]]).

Lemma mkfs_image_witness : exists s, mkfs [demo_hfile] = Ok tt s /\ stored s 1 (T_DIR, root_dir [demo_hfile]) 1024 /\ stored s 2 (T_FILE, [1; 2; 3; 4]) 4.
Proof.
  destruct (mkfs_image [demo_hfile]) as (s & E & _ & _ & Hst & _).
  - constructor; [|constructor]. split; [apply (bool_decide_unpack _); vm_compute; exact I|]. split; [exists [[1; 2; 3]; [4]]; reflexivity|vm_compute; discriminate].
  - vm_compute. discriminate.
  - vm_compute. discriminate.
  - exists s. split; [exact E|]. split; [exact (Hst 0%nat _ eq_refl)|exact (Hst 1%nat _ eq_refl)].
Defined.
