(* ===== verification/Uprogs.v ===== *)
(** * Small user programs

    cat, echo, wc, ls, find, mkdir, rm, ln, kill, sleep, init, trace, xargs, prime, primes,
    pingpong, zombie, stressfs and forktest (src/user).  [argv] is the list of the
    arguments; a loop that the input or the kernel ends has fuel; a local variable or array
    that the code reads before it is set is an argument. *)
From S2P Require Import Prelude Bytes Kernel Fs Sys User Ulib Uprintf.
#[local] Open Scope prog_scope.
#[local] Open Scope Z_scope.

Definition arg (argv : list (list Z)) (i : nat) : list Z := nth i argv [].

(** ** cat.c *)

Fixpoint cat (fuel : nat) (fd : Z) : prog unit :=
  match fuel with
  | O => OutOfFuel
  | S f =>
      r <- call (URead fd 512) ;;
      let '(n, buf) := (r : Z * list Z) in
      if 0 <? n then
        m <- call (UWrite 1 buf) ;;
        if negb (m =? n) then fprintf 2 (line "cat: write error") [] ;; Halt 1
        else cat f fd
      else if n <? 0 then fprintf 2 (line "cat: read error") [] ;; Halt 1
      else Ret tt
  end.

Fixpoint cat_files (fuel : nat) (files : list (list Z)) : prog unit :=
  match files with
  | [] => Halt 0
  | a :: files' =>
      fd <- call (UOpen a 0) ;;
      if fd <? 0 then fprintf 2 (line "cat: cannot open %s") [VStr (Some a)] ;; Halt 1
      else cat fuel fd ;; call (UClose fd) ;; cat_files fuel files'
  end.

Definition cat_main (fuel : nat) (argv : list (list Z)) : prog unit :=
  match argv with
  | [] | [_] => cat fuel 0 ;; Halt 0
  | _ :: files => cat_files fuel files
  end.

(** ** echo.c *)

Fixpoint echo_args (args : list (list Z)) : prog unit :=
  match args with
  | [] => Ret tt
  | a :: args' =>
      call (UWrite 1 a) ;;
      call (UWrite 1 (match args' with [] => [newline] | _ => [chr " "] end)) ;;
      echo_args args'
  end.

Definition echo_main (argv : list (list Z)) : prog unit := echo_args (tail argv) ;; Halt 0.

(** ** wc.c *)

(** The counters l, w, c and inword. *)
Record counts := Counts { c_lines : Z; c_words : Z; c_chars : Z; c_inword : bool }.

Definition wc_space : list Z := [32; 13; 9; 10; 11].

Definition wc_char (k : counts) (b : Z) : counts :=
  let k := Counts (c_lines k) (c_words k) (s32 (c_chars k + 1)) (c_inword k) in
  let k := if b =? newline then Counts (s32 (c_lines k + 1)) (c_words k) (c_chars k) (c_inword k) else k in
  if bool_decide (is_Some (strchr wc_space b)) then Counts (c_lines k) (c_words k) (c_chars k) false
  else if negb (c_inword k) then Counts (c_lines k) (s32 (c_words k + 1)) (c_chars k) true
  else k.

Fixpoint wc_loop (fuel : nat) (fd : Z) (k : counts) : prog counts :=
  match fuel with
  | O => OutOfFuel
  | S f =>
      r <- call (URead fd 512) ;;
      let '(n, buf) := (r : Z * list Z) in
      if 0 <? n then wc_loop f fd (fold_left wc_char buf k)
      else if n <? 0 then printf (line "wc: read error") [] ;; Halt 1
      else Ret k
  end.

Definition wc (fuel : nat) (fd : Z) (name : list Z) : prog unit :=
  k <- wc_loop fuel fd (Counts 0 0 0 false) ;;
  printf (line "%d %d %d %s") [VInt (c_lines k); VInt (c_words k); VInt (c_chars k); VStr (Some name)].

Fixpoint wc_files (fuel : nat) (files : list (list Z)) : prog unit :=
  match files with
  | [] => Halt 0
  | a :: files' =>
      fd <- call (UOpen a 0) ;;
      if fd <? 0 then printf (line "wc: cannot open %s") [VStr (Some a)] ;; Halt 1
      else wc fuel fd a ;; call (UClose fd) ;; wc_files fuel files'
  end.

Definition wc_main (fuel : nat) (argv : list (list Z)) : prog unit :=
  match argv with
  | [] | [_] => wc fuel 0 [] ;; Halt 0
  | _ :: files => wc_files fuel files
  end.

(** ** ls.c and find.c *)

(** The bytes after the last slash. *)
Fixpoint after_slash (cur path : list Z) : list Z :=
  match path with
  | [] => cur
  | c :: path' => after_slash (if c =? chr "/" then path' else cur) path'
  end.

(** The name, blank-padded in the static buffer when it is shorter than DIRSIZ. *)
Definition fmtname (path : list Z) : list Z :=
  let p := after_slash path path in
  if DIRSIZ <=? strlen p then p
  else p ++ replicate (Z.to_nat (DIRSIZ - strlen p)) (chr " ").

Definition show_entry (fmt : list Z) (name : list Z) (st : stat) : prog unit :=
  printf fmt [VStr (Some (fmtname name)); VInt (st_type st); VInt (st_ino st); VInt (st_size st)].

(** A name in a directory entry, up to its NUL. *)
Definition entry_path (path de : list Z) : list Z := path ++ [chr "/"] ++ until_nul (de_name de).

Fixpoint ls_entries (fuel : nat) (fd : Z) (path : list Z) : prog unit :=
  match fuel with
  | O => OutOfFuel
  | S f =>
      r <- call (URead fd 16) ;;
      let '(n, de) := (r : Z * list Z) in
      if n =? 16 then
        if de_inum de =? 0 then ls_entries f fd path else
        let buf := entry_path path de in
        r <- ustat buf ;;
        (match r with
         | (n, Some st) =>
             if n <? 0 then printf (line "ls: cannot stat %s") [VStr (Some buf)] else show_entry (line "%s %d %d %d") buf st
         | (_, None) => printf (line "ls: cannot stat %s") [VStr (Some buf)]
         end) ;;
        ls_entries f fd path
      else Ret tt
  end.

Definition ls (fuel : nat) (path : list Z) : prog unit :=
  fd <- call (UOpen path 0) ;;
  if fd <? 0 then fprintf 2 (line "ls: cannot open %s") [VStr (Some path)] else
  r <- call (UFstat fd) ;;
  let '(n, st) := (r : Z * stat) in
  if n <? 0 then fprintf 2 (line "ls: cannot stat %s") [VStr (Some path)] ;; call (UClose fd) ;; Ret tt else
  (if (st_type st =? T_DEVICE) || (st_type st =? T_FILE) then show_entry (line "%s %d %d %l") path st
   else if st_type st =? T_DIR then
     if 512 <? strlen path + 1 + DIRSIZ + 1 then printf (line "ls: path too long") []
     else ls_entries fuel fd path
   else Ret tt) ;;
  call (UClose fd) ;;
  Ret tt.

Fixpoint ls_all (fuel : nat) (args : list (list Z)) : prog unit :=
  match args with
  | [] => Halt 0
  | a :: args' => ls fuel a ;; ls_all fuel args'
  end.

Definition ls_main (fuel : nat) (argv : list (list Z)) : prog unit :=
  match argv with
  | [] | [_] => ls fuel (str ".") ;; Halt 0
  | _ :: args => ls_all fuel args
  end.

(** The fuel also bounds the depth of the directories. *)
Fixpoint find (fuel : nat) (path name : list Z) : prog unit :=
  match fuel with
  | O => OutOfFuel
  | S f =>
      fd <- call (UOpen path 0) ;;
      if fd <? 0 then fprintf 2 (line "find: cannot open %s") [VStr (Some path)] else
      r <- call (UFstat fd) ;;
      let '(n, st) := (r : Z * stat) in
      if n <? 0 then fprintf 2 (line "find: cannot stat %s") [VStr (Some path)] ;; call (UClose fd) ;; Ret tt else
      (if (st_type st =? T_DEVICE) || (st_type st =? T_FILE) then
         if strcmp (fmtname path) name =? 0 then show_entry (line "%s %d %d %l") path st else Ret tt
       else if st_type st =? T_DIR then
         if 512 <? strlen path + 1 + DIRSIZ + 1 then printf (line "find: path too long") []
         else
           (fix entries (k : nat) : prog unit :=
              match k with
              | O => OutOfFuel
              | S k' =>
                  r <- call (URead fd 16) ;;
                  let '(n, de) := (r : Z * list Z) in
                  if n =? 16 then
                    if de_inum de =? 0 then entries k' else
                    if (strcmp (until_nul (de_name de)) (str ".") =? 0) || (strcmp (until_nul (de_name de)) (str "..") =? 0) then entries k'
                    else find f (entry_path path de) name ;; entries k'
                  else Ret tt
              end) fuel
       else Ret tt) ;;
      call (UClose fd) ;;
      Ret tt
  end.

Definition find_main (fuel : nat) (argv : list (list Z)) : prog unit :=
  if negb (zlen argv =? 3) then fprintf 2 (line "usage: find <path> <name>") [] ;; Halt 1
  else find fuel (arg argv 1) (arg argv 2) ;; Halt 0.

(** ** mkdir.c, rm.c, ln.c, kill.c, sleep.c *)

(** Calls on each argument until one fails, which is reported. *)
Fixpoint each_until (sc : list Z -> sys Z) (fmt : list Z) (args : list (list Z)) : prog unit :=
  match args with
  | [] => Ret tt
  | a :: args' =>
      r <- call (sc a) ;;
      if r <? 0 then fprintf 2 fmt [VStr (Some a)] else each_until sc fmt args'
  end.

Definition mkdir_main (argv : list (list Z)) : prog unit :=
  if zlen argv <? 2 then fprintf 2 (line "Usage: mkdir files...") [] ;; Halt 1
  else each_until UMkdir (line "mkdir: %s failed to create") (tail argv) ;; Halt 0.

Definition rm_main (argv : list (list Z)) : prog unit :=
  if zlen argv <? 2 then fprintf 2 (line "Usage: rm files...") [] ;; Halt 1
  else each_until UUnlink (line "rm: %s failed to delete") (tail argv) ;; Halt 0.

Definition ln_main (argv : list (list Z)) : prog unit :=
  if negb (zlen argv =? 3) then fprintf 2 (line "Usage: ln old new") [] ;; Halt 1 else
  r <- call (ULink (arg argv 1) (arg argv 2)) ;;
  (if r <? 0 then fprintf 2 (line "link %s %s: failed") [VStr (Some (arg argv 1)); VStr (Some (arg argv 2))] else Ret tt) ;;
  Halt 0.

Fixpoint kill_all (args : list (list Z)) : prog unit :=
  match args with
  | [] => Ret tt
  | a :: args' => call (UKill (atoi a)) ;; kill_all args'
  end.

Definition kill_main (argv : list (list Z)) : prog unit :=
  if zlen argv <? 2 then fprintf 2 (line "usage: kill pid...") [] ;; Halt 1
  else kill_all (tail argv) ;; Halt 0.

Definition sleep_main (argv : list (list Z)) : prog unit :=
  if negb (zlen argv =? 2) then fprintf 2 (line "Usage: sleep ticks...") [] ;; Halt 1
  else call (USleep (atoi (arg argv 1))) ;; Halt 0.

(** ** init.c *)

(** Waits for the shell [pid]: true when it exited, false on an error of wait(). *)
Fixpoint init_wait (fuel : nat) (pid : Z) : prog bool :=
  match fuel with
  | O => OutOfFuel
  | S f =>
      r <- call UWait ;;
      let '(wpid, _) := (r : Z * Z) in
      if wpid =? pid then Ret true else if wpid <? 0 then Ret false else init_wait f pid
  end.

Fixpoint init_loop (fuel : nat) : prog unit :=
  match fuel with
  | O => OutOfFuel
  | S f =>
      printf (line "init: starting sh") [] ;;
      pid <- call UFork ;;
      if pid <? 0 then printf (line "init: fork failed") [] ;; Halt 1 else
      if pid =? 0 then
        call (UExec (str "sh") [str "sh"]) ;;
        printf (line "init: exec sh failed") [] ;;
        Halt 1
      else
        ok <- init_wait fuel pid ;;
        if (ok : bool) then init_loop f
        else printf (line "init: wait returned an error") [] ;; Halt 1
  end.

Definition init_main (fuel : nat) : prog unit :=
  fd <- call (UOpen (str "console") O_RDWR) ;;
  (if fd <? 0 then
     call (UMknod (str "console") 1 0) ;;
     call (UOpen (str "console") O_RDWR) ;;
     Ret tt
   else Ret tt) ;;
  call (UDup 0) ;;
  call (UDup 0) ;;
  init_loop fuel.

(** ** trace.c *)

(** [nargv] is not terminated: [junk] is what the array held up to its first null. *)
Definition trace_main (argv junk : list (list Z)) : prog unit :=
  if (zlen argv <? 3) || (deref (arg argv 1) <? 48) || (57 <? deref (arg argv 1)) then
    fprintf 2 (line "Usage: %s mask command") [VStr (Some (arg argv 0))] ;; Halt 1
  else
    r <- call (UTrace (atoi (arg argv 1))) ;;
    if r <? 0 then fprintf 2 (line "%s: trace failed") [VStr (Some (arg argv 0))] ;; Halt 1 else
    let nargv := take 62 (drop 2 argv) ++ junk in
    call (UExec (arg nargv 0) nargv) ;;
    Halt 0.

(** ** xargs.c *)

(** The lines stored in [output[line][64]]; a byte outside the array is undefined. *)
Fixpoint xargs_split (rows : Z) (input : list Z) (i : Z) (cur : list Z) (done : list (list Z)) : option (list (list Z)) :=
  match input with
  | [] => Some done
  | b :: input' =>
      if (rows <=? i) || (64 <=? zlen cur) then None
      else if b =? newline then xargs_split rows input' (i + 1) [] (done ++ [until_nul cur])
      else xargs_split rows input' i (cur ++ [b]) done
  end.

(** [arguments] is not terminated: [junk] is what the array held after the last argument. *)
Fixpoint xargs_run (args junk : list (list Z)) (lines : list (list Z)) : prog unit :=
  match lines with
  | [] => Halt 0
  | l :: lines' =>
      pid <- call UFork ;;
      (if pid =? 0 then
         match args with
         | [] => Undefined (* exec(0, ...) *)
         | path :: _ => call (UExec path (args ++ [l] ++ junk)) ;; Halt 0
         end
       else Ret tt) ;;
      call UWait ;;
      xargs_run args junk lines'
  end.

Definition xargs_main (argv junk : list (list Z)) : prog unit :=
  r <- call (URead 0 512) ;;
  let '(size, stdIn) := (r : Z * list Z) in
  let input := take (Z.to_nat size) stdIn in
  let rows := zlen (filter (fun b => b = newline) input) in
  match xargs_split rows input 0 [] [] with
  | Some lines => xargs_run (tail argv) junk lines
  | None => Undefined
  end.

(** ** prime.c *)

(** [for(i = 2; i < num; i++) if(num % i == 0) break;]: the final [i]. *)
Fixpoint prime_loop (k : nat) (num i : Z) : Z :=
  match k with
  | O => i
  | S k' => if i <? num then if Z.rem num i =? 0 then i else prime_loop k' num (i + 1) else i
  end.

Definition prime (num : Z) : Z :=
  if num =? 2 then 1 else if num =? 3 then 1 else
  if prime_loop (Z.to_nat num) num 2 =? num then 1 else 0.

Definition int_bytes (x : Z) : list Z := le_bytes 4 (u32 x).

(** An [int] that read() has stored its bytes into. *)
Definition read_int (old : Z) (b : list Z) : Z := s32 (le_val (b ++ drop (length b) (int_bytes old))).

Fixpoint write_ints (k : nat) (fd i : Z) : prog unit :=
  match k with
  | O => Ret tt
  | S k' => call (UWrite fd (int_bytes i)) ;; write_ints k' fd (i + 1)
  end.

(** The inner loop of the child: the next number that is prime, or the end at 35. *)
Fixpoint next_prime (fuel : nat) (fd num : Z) : prog Z :=
  match fuel with
  | O => OutOfFuel
  | S f =>
      r <- call (URead fd 4) ;;
      let num := read_int num (snd (r : Z * list Z)) in
      if num =? 35 then Halt 0
      else if prime num =? 1 then
        fprintf 1 (line "prime %d ") [VInt num] ;; Ret num
      else next_prime f fd num
  end.

Fixpoint prime_stages (fuel : nat) (fd num pid : Z) : prog unit :=
  match fuel with
  | O => OutOfFuel
  | S f =>
      if 0 <? pid then call UWait ;; Halt 0
      else if pid =? 0 then
        num <- next_prime fuel fd num ;;
        pid <- call UFork ;;
        prime_stages f fd num pid
      else fprintf 2 (line "error:fork failed ") [] ;; Halt 1
  end.

Definition prime_main (fuel : nat) (num : Z) : prog unit :=
  x <- call UPipe ;;
  let '(r, (p0, p1)) := (x : Z * (Z * Z)) in
  (if r <? 0 then fprintf 2 (line "error:unable to build pipes ") [] else Ret tt) ;;
  write_ints 34 p1 2 ;;
  pid <- call UFork ;;
  prime_stages fuel p0 num pid.

(** ** primes.c *)

Fixpoint primes_loop (fuel : nat) (p0 p1 num pid : Z) : prog unit :=
  match fuel with
  | O => OutOfFuel
  | S f =>
      if 0 <? pid then
        call (UWrite p1 (int_bytes num)) ;;
        call UWait ;;
        printf (line "prime %d ") [VInt num]
      else if pid =? 0 then
        r <- call (URead p0 4) ;;
        let num := read_int num (snd (r : Z * list Z)) in
        if 2 <=? num then
          pid <- call UFork ;;
          primes_loop f p0 p1 (num - 1) pid
        else Ret tt
      else fprintf 2 (line "error:fork failed ") [] ;; primes_loop f p0 p1 num pid
  end.

Definition primes_main (fuel : nat) : prog unit :=
  x <- call UPipe ;;
  let '(r, (p0, p1)) := (x : Z * (Z * Z)) in
  (if r <? 0 then fprintf 2 (line "error:unable to build pipes ") [] else Ret tt) ;;
  pid <- call UFork ;;
  primes_loop fuel p0 p1 35 pid ;;
  Halt 0.

(** ** pingpong.c *)

(** [junk] is what [msg] held before the read. *)
Definition pingpong_side (p0 p1 : Z) (text junk : list Z) (nap : bool) : prog unit :=
  call (UWrite p1 (text ++ [0])) ;;
  r <- call (URead p0 15) ;;
  (if nap then call (USleep 10) ;; Ret tt else Ret tt) ;;
  pid <- call UGetpid ;;
  let msg := until_nul (snd (r : Z * list Z) ++ drop (length (snd r)) junk) in
  printf (line "%d:received %s ") [VInt pid; VStr (Some msg)] ;;
  Halt 1.

Definition pingpong_main (junk : list Z) : prog unit :=
  pid <- call UFork ;;
  x <- call UPipe ;;
  let '(r, (p0, p1)) := (x : Z * (Z * Z)) in
  (if r <? 0 then fprintf 2 (line "error:unable to build pipes ") [] else Ret tt) ;;
  if 0 <? pid then pingpong_side p0 p1 (str "pong") junk false
  else if pid =? 0 then pingpong_side p0 p1 (str "ping") junk true
  else fprintf 2 (line "error:fork fialed") [] ;; Halt 0.

(** ** zombie.c *)

Definition zombie_main : prog unit :=
  pid <- call UFork ;;
  (if 0 <? pid then call (USleep 5) ;; Ret tt else Ret tt) ;;
  Halt 0.

(** ** stressfs.c *)

Fixpoint stress_fork (k : nat) (i : Z) : prog Z :=
  match k with
  | O => Ret i
  | S k' => pid <- call UFork ;; if 0 <? pid then Ret i else stress_fork k' (i + 1)
  end.

Fixpoint repeat_call {X} (k : nat) (e : sys X) : prog unit :=
  match k with
  | O => Ret tt
  | S k' => call e ;; repeat_call k' e
  end.

Definition stressfs_main : prog unit :=
  printf (line "stressfs starting") [] ;;
  i <- stress_fork 4 0 ;;
  printf (line "write %d") [VInt i] ;;
  let path := str "stressfs" ++ [u8 (48 + i)] in
  fd <- call (UOpen path (Z.lor O_CREATE O_RDWR)) ;;
  repeat_call 20 (UWrite fd (replicate 512 97)) ;;
  call (UClose fd) ;;
  printf (line "read") [] ;;
  fd <- call (UOpen path O_RDONLY) ;;
  repeat_call 20 (URead fd 512) ;;
  call (UClose fd) ;;
  call UWait ;;
  Halt 0.

(** ** forktest.c *)

Definition print (s : list Z) : prog unit := call (UWrite 1 s) ;; Ret tt.

(** The number of children made, up to [k] more. *)
Fixpoint fork_many (k : nat) (n : Z) : prog Z :=
  match k with
  | O => Ret n
  | S k' =>
      pid <- call UFork ;;
      if pid <? 0 then Ret n else if pid =? 0 then Halt 0 else fork_many k' (n + 1)
  end.

Fixpoint wait_many (k : nat) : prog unit :=
  match k with
  | O => Ret tt
  | S k' =>
      r <- call UWait ;;
      if (r : Z * Z).1 <? 0 then print (line "wait stopped early") ;; Halt 1 else wait_many k'
  end.

Definition forktest : prog unit :=
  print (line "fork test") ;;
  n <- fork_many 1000 0 ;;
  if n =? 1000 then print (line "fork claimed to work N times!") ;; Halt 1 else
  wait_many (Z.to_nat n) ;;
  r <- call UWait ;;
  if negb ((r : Z * Z).1 =? -1) then print (line "wait got too many") ;; Halt 1 else
  print (line "fork test OK").

Definition forktest_main : prog unit := forktest ;; Halt 0.
