(* ===== verification/UprogsSpec.v ===== *)
(** * What the small user programs do

    cat copies its input, echo joins its arguments, wc counts lines, words and bytes,
    prime() decides primality, and find compares a name that is padded with blanks.  The
    filters are proved against the promise of [Stream], for every way the kernel cuts the
    input into reads. *)
From S2P Require Import Prelude Bytes Kernel Fs Sys User Ulib Uprintf Uprogs.
From Stdlib Require Znumtheory.
#[local] Open Scope Z_scope.

Lemma zlen_cons {A} (x : A) l : zlen (x :: l) = zlen l + 1.
Proof. unfold zlen. cbn [length]. lia. Qed.

(** ** Reference definitions *)

Definition is_space (b : Z) : bool := bool_decide (b ∈ wc_space).

(** The maximal runs of other bytes between the white space, empty ones included. *)
Fixpoint fields (s : list Z) : list (list Z) :=
  match s with
  | [] => [[]]
  | b :: s' =>
      if is_space b then [] :: fields s'
      else match fields s' with f :: fs => (b :: f) :: fs | [] => [[b]] end
  end.

Definition nonempty (f : list Z) : bool := match f with [] => false | _ => true end.
Definition words (s : list Z) : Z := zlen (List.filter nonempty (fields s)).
Definition newlines (s : list Z) : Z := zlen (List.filter (Z.eqb newline) s).

(** The arguments with a blank between them and a newline at the end. *)
Fixpoint joined (args : list (list Z)) : list Z :=
  match args with
  | [] => []
  | [a] => a ++ [newline]
  | a :: args' => a ++ [chr " "] ++ joined args'
  end.

(** ** Counting *)

Definition starts (s : list Z) : bool := match s with [] => false | b :: _ => negb (is_space b) end.

Lemma fields_head s : exists f fs, fields s = f :: fs /\ nonempty f = starts s.
Proof.
  destruct s as [|b s]; cbn; [by eexists _, _|]. destruct (is_space b); cbn; [by eexists _, _|].
  destruct (fields s); by eexists _, _.
Qed.

Lemma words_cons b s : words (b :: s) =
  if is_space b then words s else words s + (if starts s then 0 else 1).
Proof.
  unfold words. cbn [fields]. destruct (is_space b); [done|].
  destruct (fields_head s) as (f & fs & -> & Hf). cbn [List.filter]. change (nonempty (b :: f)) with true. rewrite Hf.
  destruct (starts s); rewrite !zlen_cons; lia.
Qed.

Lemma newlines_cons b s : newlines (b :: s) = (if b =? newline then 1 else 0) + newlines s.
Proof. unfold newlines. cbn [List.filter]. rewrite (Z.eqb_sym newline b). destruct (b =? newline); rewrite ?zlen_cons; lia. Qed.

Lemma words_le s : words s <= zlen s.
Proof. induction s as [|b s IH]; [done|]. rewrite words_cons, zlen_cons. destruct (is_space b), (starts s); lia. Qed.

Lemma newlines_le s : newlines s <= zlen s.
Proof. induction s as [|b s IH]; [done|]. rewrite newlines_cons, zlen_cons. destruct (b =? newline); lia. Qed.

Lemma words_nonneg s : 0 <= words s.
Proof. apply zlen_nonneg. Qed.

Lemma newlines_nonneg s : 0 <= newlines s.
Proof. apply zlen_nonneg. Qed.

Lemma strchr_space b : bool_decide (is_Some (strchr wc_space b)) = is_space b.
Proof.
  unfold is_space. apply bool_decide_ext. assert (cstring wc_space) as Hc by by apply cstring_check.
  pose proof (strchr_none wc_space b Hc) as Hn. destruct (strchr wc_space b) as [t|]; split.
  - intros _. destruct (decide (b ∈ wc_space)) as [|Hb]; [done|]. by apply Hn in Hb.
  - intros _. by eexists.
  - intros [? [=]].
  - intros Hb. by apply Hn in Hb.
Qed.

(** What the loop over the bytes adds to the counters, as long as [c] does not overflow. *)
Lemma wc_chars s : forall k,
  0 <= c_lines k <= c_chars k -> 0 <= c_words k <= c_chars k -> c_chars k + zlen s < 2147483648 ->
  let k' := fold_left wc_char s k in
  c_lines k' = c_lines k + newlines s /\ c_chars k' = c_chars k + zlen s /\
  c_words k' = c_words k + words s - (if c_inword k && starts s then 1 else 0).
Proof.
  induction s as [|b s IH]; intros k Hl Hw Hc; cbn [fold_left].
  - destruct k as [l w c [|]]; cbn; unfold newlines, words, zlen; cbn; lia.
  - rewrite zlen_cons in *. pose proof (zlen_nonneg s).
    rewrite newlines_cons, words_cons.
    assert (wc_char k b = Counts (c_lines k + (if b =? newline then 1 else 0))
      (c_words k + (if is_space b then 0 else if c_inword k then 0 else 1)) (c_chars k + 1) (negb (is_space b))) as ->.
    { unfold wc_char. rewrite strchr_space, (s32_small (c_chars k + 1)) by lia.
      destruct k as [l w c [|]]; cbn in *; destruct (b =? newline), (is_space b); cbn; rewrite ?(s32_small (l + 1)), ?(s32_small (w + 1)) by lia; f_equal; lia. }
    match goal with |- context[fold_left wc_char s ?k1] => destruct (IH k1) as (E1 & E2 & E3) end; cbn in *;
      [destruct (b =? newline); lia|destruct (is_space b), (c_inword k); lia|lia|].
    rewrite E1, E2, E3. destruct (is_space b), (starts s), (c_inword k); cbn; lia.
Qed.

(** ** Filters *)

Section Filters.
Context {W : Type} (h : kernel W) (fd : Z) `{!Stream W h fd 1}.

Lemma cat_run n : forall fuel w, (length (src w) <= n)%nat -> (length (src w) < fuel)%nat ->
  exists w', exec_prog h (cat fuel fd) w = (RRet tt, w') /\ src w' = [] /\ out w' = out w ++ src w.
Proof.
  induction n as [n IH] using lt_wf_ind. intros [|fuel] w Hn Hf; [lia|]. cbn [cat]. rewrite exec_bind, exec_call.
  destruct (stream_read 512 w) as (b & w1 & -> & Es & Hb & He & Eo); [lia|]. cbn [fst snd].
  zcase (0 <? zlen b) as Hz.
  - rewrite exec_bind, exec_call. destruct (stream_write b w1) as (w2 & -> & Es2 & Eo2). cbn [fst snd]. rewrite Z.eqb_refl. cbn [negb].
    assert (length (src w) = length b + length (src w1))%nat as El by (rewrite Es, length_app; done). unfold zlen in Hz.
    destruct (IH (length (src w1)) ltac:(lia) fuel w2) as (w3 & -> & Es3 & Eo3); [by rewrite Es2|rewrite Es2; lia|].
    exists w3. split; [done|]. split; [done|]. by rewrite Eo3, Eo2, Eo, Es2, Es, app_assoc.
  - assert (b = []) as -> by (destruct b; [done|rewrite zlen_cons in Hz; pose proof (zlen_nonneg b); lia]). change (zlen (@nil Z) <? 0) with false. cbn [exec_prog].
    rewrite (He eq_refl) in *. exists w1. split; [done|]. split; [done|]. by rewrite Eo, app_nil_r.
Qed.

Lemma wc_loop_run n : forall fuel k w, (length (src w) <= n)%nat -> (length (src w) < fuel)%nat ->
  exists w', exec_prog h (wc_loop fuel fd k) w = (RRet (fold_left wc_char (src w) k), w') /\ src w' = [] /\ out w' = out w.
Proof.
  induction n as [n IH] using lt_wf_ind. intros [|fuel] k w Hn Hf; [lia|]. cbn [wc_loop]. rewrite exec_bind, exec_call.
  destruct (stream_read 512 w) as (b & w1 & -> & Es & Hb & He & Eo); [lia|]. cbn [fst snd].
  zcase (0 <? zlen b) as Hz.
  - assert (length (src w) = length b + length (src w1))%nat as El by (rewrite Es, length_app; done). unfold zlen in Hz.
    destruct (IH (length (src w1)) ltac:(lia) fuel (fold_left wc_char b k) w1) as (w3 & -> & Es3 & Eo3); [lia|lia|].
    exists w3. rewrite Es, fold_left_app. split; [done|]. split; [done|congruence].
  - assert (b = []) as -> by (destruct b; [done|rewrite zlen_cons in Hz; pose proof (zlen_nonneg b); lia]). change (zlen (@nil Z) <? 0) with false. cbn [exec_prog].
    rewrite (He eq_refl) in *. by exists w1.
Qed.

Lemma echo_args_emits args : emits 1 (echo_args args) (joined args) tt.
Proof.
  induction args as [|a args IH]; [constructor|]. cbn [echo_args joined pbind call]. destruct args as [|b args].
  - apply em_write. cbn [pbind]. rewrite <- (app_nil_r [newline]). apply em_write. constructor.
  - apply em_write. cbn [pbind]. apply em_write. apply IH.
Qed.

(** What wc prints for the contents [s] of the file [name]. *)
Definition wc_report (s name : list Z) : list Z :=
  signed (newlines s) ++ [chr " "] ++ signed (words s) ++ [chr " "] ++ signed (zlen s) ++ [chr " "] ++ name ++ [newline].

Lemma wc_format l w c name : 0 <= l < 2147483648 -> 0 <= w < 2147483648 -> 0 <= c < 2147483648 ->
  format (line "%d %d %d %s") [VInt l; VInt w; VInt c; VStr (Some name)] =
  Some (signed l ++ [chr " "] ++ signed w ++ [chr " "] ++ signed c ++ [chr " "] ++ name ++ [newline]).
Proof.
  intros Hl Hw Hc. rewrite <- (s32_small l), <- (s32_small w), <- (s32_small c) at 2 by lia. reflexivity.
Qed.

(** cat copies its input to the standard output, whatever the sizes of the reads, and
    returns when the input is at its end. *)
Theorem cat_copies fuel w : (length (src w) < fuel)%nat ->
  exists w', exec_prog h (cat fuel fd) w = (RRet tt, w') /\ src w' = [] /\ out w' = out w ++ src w.
Proof. intros Hf. by apply (cat_run (length (src w))). Qed.

(** echo prints its arguments with a blank between them and a newline at the end, and
    nothing at all when there is none. *)
Theorem echo_joins argv w :
  exists w', exec_prog h (echo_main argv) w = (RHalt 0, w') /\ out w' = out w ++ joined (tail argv).
Proof.
  unfold echo_main. rewrite exec_bind. destruct (emits_exec h fd 1 _ _ _ w (echo_args_emits (tail argv))) as (w' & -> & _ & Eo).
  by exists w'.
Qed.

Lemma wc_fmt_bytes : Forall is_byte (line "%d %d %d %s").
Proof. by apply cstring_bytes, cstring_check. Qed.

(** C40: wc prints the number of newlines, of words (the nonempty runs between white space)
    and of bytes of its input and the file's name, whatever the sizes of the reads: a word
    that two reads share counts once. *)
Theorem wc_counts fuel name w : (length (src w) < fuel)%nat -> zlen (src w) < 2147483648 -> Forall is_byte name ->
  exists w', exec_prog h (wc fuel fd name) w = (RRet tt, w') /\ src w' = [] /\ out w' = out w ++ wc_report (src w) name.
Proof.
  intros Hf Hc Hn. unfold wc. rewrite exec_bind. destruct (wc_loop_run (length (src w)) fuel (Counts 0 0 0 false) w) as (w1 & -> & Es & Eo); [done..|].
  destruct (wc_chars (src w) (Counts 0 0 0 false)) as (El & Ec & Ew); [cbn; lia..|]. cbn in El, Ec, Ew. rewrite El, Ec, Ew, Z.sub_0_r, !Z.add_0_l.
  pose proof (words_nonneg (src w)). pose proof (newlines_nonneg (src w)). pose proof (newlines_le (src w)). pose proof (words_le (src w)).
  destruct (emits_exec h fd 1 (printf (line "%d %d %d %s") [VInt (newlines (src w)); VInt (words (src w)); VInt (zlen (src w)); VStr (Some name)]) (wc_report (src w) name) tt w1) as (w2 & E & Es2 & Eo2).
  { apply vprintf_run; [apply wc_fmt_bytes|by repeat constructor|]. apply wc_format; lia. }
  exists w2. rewrite E. split; [done|]. split; [congruence|]. by rewrite Eo2, Eo.
Qed.

End Filters.

(** ** prime.c *)

(** The loop stops at the first divisor from [i] on. *)
Lemma prime_loop_spec k : forall num i, 2 <= i <= num -> (Z.to_nat (num - i) < k)%nat ->
  let r := prime_loop k num i in
  i <= r <= num /\ (r < num -> (r | num)) /\ (forall j, i <= j < r -> ~ (j | num)).
Proof.
  induction k as [|k IH]; intros num i Hi Hk; [lia|]. cbn [prime_loop]. zcase (i <? num) as Hlt; [|split; [lia|split; [lia|lia]]].
  rewrite Z.rem_mod_nonneg by lia. zcase (num mod i =? 0) as Hd.
  - split; [lia|]. split; [|lia]. intros _. apply Z.mod_divide; lia.
  - destruct (IH num (i + 1) ltac:(lia) ltac:(lia)) as (H1 & H2 & H3). split; [lia|]. split; [done|]. intros j Hj.
    destruct (decide (j = i)) as [->|]; [|apply H3; lia]. intros D. apply Z.mod_divide in D; lia.
Qed.

(** prime() returns 1 exactly for the prime numbers. *)
Theorem prime_correct n : prime n = 1 <-> Znumtheory.prime n.
Proof.
  unfold prime. zcase (n =? 2) as H2; [subst; split; [intros _; apply Znumtheory.prime_2|done]|].
  zcase (n =? 3) as H3; [subst; split; [intros _; apply Znumtheory.prime_3|done]|].
  destruct (decide (n < 2)) as [Hlt|Hge].
  { split; [|intros [? _]; lia]. zcase (prime_loop (Z.to_nat n) n 2 =? n) as E; [|done]. intros _. exfalso.
    destruct (Z.to_nat n) eqn:En; cbn in E; [lia|]. zcase (2 <? n); lia. }
  destruct (prime_loop_spec (Z.to_nat n) n 2) as (Hr & Hd & Hn); [lia|lia|].
  zcase (prime_loop (Z.to_nat n) n 2 =? n) as E; split; try done; intros Hp.
  - apply Znumtheory.prime_alt. split; [lia|]. intros j Hj. apply Hn. lia.
  - exfalso. apply Znumtheory.prime_alt in Hp as [_ Hp]. apply (Hp (prime_loop (Z.to_nat n) n 2)); [lia|]. apply Hd. lia.
Qed.

(** ** find.c *)

Lemma after_slash_cstring path : forall cur, cstring cur -> cstring path -> cstring (after_slash cur path).
Proof.
  induction path as [|c path IH]; intros cur Hc Hp; [done|]. apply Forall_cons in Hp as [_ Hp]. cbn. apply IH; [by destruct (c =? _)|done].
Qed.

Lemma after_slash_len path : forall cur, zlen path <= zlen cur -> zlen (after_slash cur path) <= zlen cur.
Proof.
  induction path as [|c path IH]; intros cur Hl; [cbn; lia|]. rewrite zlen_cons in Hl. cbn [after_slash].
  destruct (c =? chr "/"); [|apply IH; lia]. specialize (IH path ltac:(lia)). lia.
Qed.

(** The name that ls prints and find compares has at least DIRSIZ bytes. *)
Lemma fmtname_long path : cstring path -> zlen path < 4294967296 -> cstring (fmtname path) /\ DIRSIZ <= zlen (fmtname path).
Proof.
  intros Hp Hl. unfold fmtname. pose proof (after_slash_cstring path path Hp Hp) as Hc.
  pose proof (after_slash_len path path ltac:(lia)) as Hal. set (p := after_slash path path) in *. rewrite (strlen_len p) by (done || lia).
  zcase (DIRSIZ <=? zlen p) as Hd; [done|]. split.
  - apply Forall_app. split; [done|]. apply Forall_replicate. cbv. done.
  - unfold zlen in *. rewrite length_app, length_replicate. lia.
Qed.

(** find() compares the name it looks for with the blank-padded name of the file, so it
    reports no file when the name is shorter than DIRSIZ. *)
Theorem find_short_name_unmatched path name :
  cstring path -> zlen path < 4294967296 -> cstring name -> zlen name < DIRSIZ ->
  strcmp (fmtname path) name <> 0.
Proof.
  intros Hp Hl Hn Hs E. destruct (fmtname_long path Hp Hl) as [Hc Hlen]. apply strcmp_zero in E; [|done..]. subst. lia.
Qed.

(** ** Witnesses *)

Definition demo_input : list Z := line "to be or" ++ line "not  to be".

Lemma cat_copies_witness : exists w', exec_prog (pipe_kernel 4 0 1) (cat 30 0) (Pipes demo_input []) = (RRet tt, w') /\ pp_out w' = demo_input.
Proof.
  destruct (cat_copies (Stream0 := pipe_stream 4 0 1 ltac:(lia)) (pipe_kernel 4 0 1) 0 30 (Pipes demo_input [])) as (w' & E & _ & Eo).
  - cbn. lia.
  - exists w'. split; [exact E|exact Eo].
Defined.

Lemma wc_counts_witness : exists w', exec_prog (pipe_kernel 4 0 1) (wc 30 0 (str "f")) (Pipes demo_input []) = (RRet tt, w') /\ pp_out w' = line "2 6 20 f".
Proof.
  destruct (wc_counts (Stream0 := pipe_stream 4 0 1 ltac:(lia)) (pipe_kernel 4 0 1) 0 30 (str "f") (Pipes demo_input [])) as (w' & E & _ & Eo).
  - cbn. lia.
  - reflexivity.
  - by apply cstring_bytes, cstring_check.
  - exists w'. split; [exact E|]. exact Eo.
Defined.

Lemma find_short_name_unmatched_witness : strcmp (fmtname (str "/README")) (str "README") <> 0.
Proof. apply find_short_name_unmatched; [by apply cstring_check|reflexivity|by apply cstring_check|reflexivity]. Defined.
