(* ===== verification/Grind.v ===== *)
(** * grind (user/grind.c)

    Random system calls, as a program; the random-number generator is Park and Miller's,
    computed without leaving 32 bits. *)
From S2P Require Import Prelude Bytes Kernel Fs Sys User Ulib Uprintf.
#[local] Open Scope prog_scope.
#[local] Open Scope Z_scope.

(** The new state and the result. *)
Definition do_rand (ctx : Z) : Z * Z :=
  let x := ctx mod 0x7ffffffe + 1 in
  let hi := Z.quot x 127773 in
  let lo := Z.rem x 127773 in
  let x := 16807 * lo - 2836 * hi in
  let x := if x <? 0 then x + 0x7fffffff else x in
  let x := x - 1 in
  (u64 x, s32 x).

(** What go() keeps from one turn to the next: rand_next, fd, buf and iters. *)
Record gstate := GState { g_rand : Z; g_fd : Z; g_buf : list Z; g_iters : Z }.

Definition set_grand (x : Z) (g : gstate) : gstate := GState x (g_fd g) (g_buf g) (g_iters g).
Definition set_gfd (x : Z) (g : gstate) : gstate := GState (g_rand g) x (g_buf g) (g_iters g).

Definition create_rw : Z := Z.lor O_CREATE O_RDWR.

Definition fail (fd : Z) (msg : string) (status : Z) : prog unit := fprintf fd (line msg) [] ;; Halt status.

(** [close(open(path, O_CREATE|O_RDWR))] *)
Definition touch (path : string) : prog unit :=
  fd <- call (UOpen (str path) create_rw) ;; call (UClose fd) ;; Ret tt.

Definition unlink (path : string) : prog unit := call (UUnlink (str path)) ;; Ret tt.
Definition mkdir (path : string) : prog unit := call (UMkdir (str path)) ;; Ret tt.

(** fork(); the child runs [child] and exits, the parent goes on with its pid. *)
Definition spawn (child : prog unit) : prog Z :=
  pid <- call UFork ;;
  if pid =? 0 then child ;; Halt 0
  else if pid <? 0 then fail 1 "grind: fork failed" 1 ;; Ret 0
  else Ret pid.

(** Case 19: a child, and its children, write to and read from a pipe. *)
Definition go_pipe : prog unit :=
  x <- call UPipe ;;
  let '(r, (p0, p1)) := (x : Z * (Z * Z)) in
  if r <? 0 then fail 1 "grind: pipe failed" 1 else
  spawn (call UFork ;;
         call UFork ;;
         n <- call (UWrite p1 (str "x")) ;;
         (if negb (n =? 1) then printf (line "grind: pipe write failed") [] else Ret tt) ;;
         m <- call (URead p0 1) ;;
         (if negb ((m : Z * list Z).1 =? 1) then printf (line "grind: pipe read failed") [] else Ret tt)) ;;
  call (UClose p0) ;;
  call (UClose p1) ;;
  call UWait ;;
  Ret tt.

(** Case 21: a file can be created, written and inspected. *)
Definition go_create : prog unit :=
  unlink "c" ;;
  fd1 <- call (UOpen (str "c") create_rw) ;;
  if fd1 <? 0 then fail 1 "grind: create c failed" 1 else
  n <- call (UWrite fd1 (str "x")) ;;
  if negb (n =? 1) then fail 1 "grind: write c failed" 1 else
  r <- call (UFstat fd1) ;;
  let '(r, st) := (r : Z * stat) in
  if negb (r =? 0) then fail 1 "grind: fstat failed" 1 else
  if negb (st_size st =? 1) then printf (line "grind: fstat reports wrong size %d") [VInt (s32 (st_size st))] ;; Halt 1 else
  if 200 <? st_ino st then printf (line "grind: fstat reports crazy i-number %d") [VInt (s32 (st_ino st))] ;; Halt 1 else
  call (UClose fd1) ;;
  unlink "c".

(** [close(fd); if(dup(from) != fd) ...; close(from)] of the pipeline's children. *)
Definition replumb (fd from status : Z) : prog unit :=
  call (UClose fd) ;;
  r <- call (UDup from) ;;
  if negb (r =? fd) then fail 2 "grind: dup failed" status else
  call (UClose from) ;;
  Ret tt.

Definition hi_line : list Z := [104; 105; 10].

(** One byte read into [buf] at [i]; nothing is stored when the read fails. *)
Definition read1 (fd i : Z) (buf : list Z) : prog (list Z) :=
  r <- call (URead fd 1) ;;
  Ret (match (r : Z * list Z).2 with b :: _ => zupd buf i b | [] => buf end).

(** Case 22: echo hi | cat.  [st1] and [st2] are what the variables held. *)
Definition go_pipeline (st1 st2 : Z) : prog unit :=
  x <- call UPipe ;;
  let '(ra, (a0, a1)) := (x : Z * (Z * Z)) in
  if ra <? 0 then fail 2 "grind: pipe failed" 1 else
  x <- call UPipe ;;
  let '(rb, (b0, b1)) := (x : Z * (Z * Z)) in
  if rb <? 0 then fail 2 "grind: pipe failed" 1 else
  pid1 <- call UFork ;;
  if pid1 =? 0 then
    call (UClose b0) ;; call (UClose b1) ;; call (UClose a0) ;;
    replumb 1 a1 1 ;;
    call (UExec (str "grindir/../echo") [str "echo"; str "hi"]) ;;
    fail 2 "grind: echo: not found" 2
  else if pid1 <? 0 then fail 2 "grind: fork failed" 3 else
  pid2 <- call UFork ;;
  if pid2 =? 0 then
    call (UClose a1) ;; call (UClose b0) ;;
    replumb 0 a0 4 ;;
    replumb 1 b1 5 ;;
    call (UExec (str "/cat") [str "cat"]) ;;
    fail 2 "grind: cat: not found" 6
  else if pid2 <? 0 then fail 2 "grind: fork failed" 7 else
  call (UClose a0) ;; call (UClose a1) ;; call (UClose b1) ;;
  buf <- read1 b0 0 [0; 0; 0; 0] ;;
  buf <- read1 b0 1 buf ;;
  buf <- read1 b0 2 buf ;;
  call (UClose b0) ;;
  w1 <- call UWait ;;
  w2 <- call UWait ;;
  let st1 := if (w1 : Z * Z).1 <? 0 then st1 else w1.2 in
  let st2 := if (w2 : Z * Z).1 <? 0 then st2 else w2.2 in
  if negb (st1 =? 0) || negb (st2 =? 0) || negb (strcmp (until_nul buf) hi_line =? 0) then
    printf (str "grind: exec pipeline failed %d %d " ++ [34] ++ str "%s" ++ [34; newline]) [VInt st1; VInt st2; VStr (Some (until_nul buf))] ;;
    Halt 1
  else Ret tt.

(** One of the 23 actions. *)
Definition go_action (what break0 st1 st2 : Z) (g : gstate) : prog gstate :=
  let then_ (p : prog unit) : prog gstate := p ;; Ret g in
  let wait_for (p : prog Z) : prog gstate := p ;; call UWait ;; Ret g in
  match what with
  | 1 => then_ (touch "grindir/../a")
  | 2 => then_ (touch "grindir/../grindir/../b")
  | 3 => then_ (unlink "grindir/../a")
  | 4 =>
      r <- call (UChdir (str "grindir")) ;;
      if negb (r =? 0) then then_ (fail 1 "grind: chdir grindir failed" 1)
      else unlink "../b" ;; call (UChdir (str "/")) ;; Ret g
  | 5 => call (UClose (g_fd g)) ;; fd <- call (UOpen (str "/grindir/../a") create_rw) ;; Ret (set_gfd fd g)
  | 6 => call (UClose (g_fd g)) ;; fd <- call (UOpen (str "/./grindir/./../b") create_rw) ;; Ret (set_gfd fd g)
  | 7 => call (UWrite (g_fd g) (g_buf g)) ;; Ret g
  | 8 =>
      r <- call (URead (g_fd g) 999) ;;
      Ret (GState (g_rand g) (g_fd g) (splice (g_buf g) 0 (r : Z * list Z).2) (g_iters g))
  | 9 => then_ (mkdir "grindir/../a" ;; touch "a/../a/./a" ;; unlink "a/a")
  | 10 => then_ (mkdir "/../b" ;; touch "grindir/../b/b" ;; unlink "b/b")
  | 11 => unlink "b" ;; call (ULink (str "../grindir/./../a") (str "../b")) ;; Ret g
  | 12 => unlink "../grindir/../a" ;; call (ULink (str ".././b") (str "/grindir/../a")) ;; Ret g
  | 13 => wait_for (spawn (Ret tt))
  | 14 => wait_for (spawn (call UFork ;; call UFork ;; Ret tt))
  | 15 => call (USbrk 6011) ;; Ret g
  | 16 =>
      b <- call (USbrk 0) ;;
      if u64 break0 <? u64 b then
        b <- call (USbrk 0) ;; call (USbrk (s32 (- (b - break0)))) ;; Ret g
      else Ret g
  | 17 =>
      pid <- spawn (touch "a") ;;
      r <- call (UChdir (str "../grindir/..")) ;;
      if negb (r =? 0) then then_ (fail 1 "grind: chdir failed" 1)
      else call (UKill pid) ;; call UWait ;; Ret g
  | 18 => wait_for (spawn (pid <- call UGetpid ;; call (UKill pid) ;; Ret tt))
  | 19 => then_ go_pipe
  | 20 =>
      wait_for (spawn (unlink "a" ;; mkdir "a" ;; call (UChdir (str "a")) ;; unlink "../a" ;;
                       call (UOpen (str "x") create_rw) ;; unlink "x"))
  | 21 => then_ go_create
  | 22 => then_ (go_pipeline st1 st2)
  | _ => Ret g
  end.

Fixpoint go_loop (fuel : nat) (which_child break0 st1 st2 : Z) (g : gstate) : prog unit :=
  match fuel with
  | O => OutOfFuel
  | S f =>
      let iters := u64 (g_iters g + 1) in
      let g := GState (g_rand g) (g_fd g) (g_buf g) iters in
      (if iters mod 500 =? 0 then call (UWrite 1 (if truth which_child then str "B" else str "A")) ;; Ret tt else Ret tt) ;;
      let '(ctx, x) := do_rand (g_rand g) in
      g <- go_action (Z.rem x 23) break0 st1 st2 (set_grand ctx g) ;;
      go_loop f which_child break0 st1 st2 g
  end.

Definition go (fuel : nat) (rand_next which_child st1 st2 : Z) : prog unit :=
  break0 <- call (USbrk 0) ;;
  mkdir "grindir" ;;
  r <- call (UChdir (str "grindir")) ;;
  if negb (r =? 0) then fail 1 "grind: chdir grindir failed" 1 else
  call (UChdir (str "/")) ;;
  go_loop fuel which_child break0 st1 st2 (GState rand_next (-1) (replicate 999 0) 0).

Definition iter (fuel : nat) (rand_next st1 st2 : Z) : prog unit :=
  unlink "a" ;;
  unlink "b" ;;
  pid1 <- call UFork ;;
  if pid1 <? 0 then fail 1 "grind: fork failed" 1 else
  if pid1 =? 0 then go fuel (Z.lxor rand_next 31) 0 st1 st2 ;; Halt 0 else
  pid2 <- call UFork ;;
  if pid2 <? 0 then fail 1 "grind: fork failed" 1 else
  if pid2 =? 0 then go fuel (Z.lxor rand_next 7177) 1 st1 st2 ;; Halt 0 else
  w <- call UWait ;;
  let st1 := if (w : Z * Z).1 <? 0 then -1 else w.2 in
  (if negb (st1 =? 0) then call (UKill pid1) ;; call (UKill pid2) ;; Ret tt else Ret tt) ;;
  call UWait ;;
  Halt 0.

Fixpoint grind_main (fuel : nat) (rand_next st1 st2 : Z) : prog unit :=
  match fuel with
  | O => OutOfFuel
  | S f =>
      pid <- call UFork ;;
      (if pid =? 0 then iter fuel rand_next st1 st2 ;; Halt 0 else Ret tt) ;;
      (if 0 <? pid then call UWait ;; Ret tt else Ret tt) ;;
      call (USleep 20) ;;
      grind_main f (u64 (rand_next + 1)) st1 st2
  end.

(** ** The generator *)

(** do_rand() computes the next number of the generator its comment names, 7^5 x modulo
    2^31 - 1 on the range 1 to 2^31 - 2, shifted to start at 0, and no intermediate value
    leaves 31 bits. *)
Theorem do_rand_park_miller ctx : 0 <= ctx ->
  let x := ctx mod 0x7ffffffe + 1 in
  do_rand ctx = ((7 ^ 5 * x) mod (2 ^ 31 - 1) - 1, (7 ^ 5 * x) mod (2 ^ 31 - 1) - 1) /\
  1 <= (7 ^ 5 * x) mod (2 ^ 31 - 1) <= 2 ^ 31 - 2 /\
  16807 * (x mod 127773) < 2 ^ 31 /\ 2836 * (x / 127773) < 2 ^ 31.
Proof.
  intros Hc x. assert (1 <= x <= 2147483646) as Hx by (unfold x; pose proof (Z.mod_pos_bound ctx 0x7ffffffe ltac:(lia)); lia).
  change (7 ^ 5) with 16807. change (2 ^ 31 - 1) with 2147483647. change (2 ^ 31 - 2) with 2147483646. change (2 ^ 31) with 2147483648.
  pose proof (Z.div_mod x 127773 ltac:(lia)) as Edm. pose proof (Z.mod_pos_bound x 127773 ltac:(lia)) as Hlo. assert (0 <= x / 127773 <= 16807) as Hhi by (split; [apply Z.div_pos; lia|apply Z.lt_succ_r, Z.div_lt_upper_bound; lia]).
  set (hi := x / 127773) in *. set (lo := x mod 127773) in *. set (y := 16807 * lo - 2836 * hi).
  assert (16807 * x = 2147483647 * hi + y) as Ey by (unfold y; lia).
  assert ((16807 * x) mod 2147483647 = if y <? 0 then y + 2147483647 else y) as Em.
  { rewrite Ey. zcase (y <? 0).
    - symmetry. apply (Z.mod_unique _ _ (hi - 1)); [left; unfold y; lia|lia].
    - symmetry. apply (Z.mod_unique _ _ hi); [left; unfold y; lia|lia]. }
  assert ((16807 * x) mod 2147483647 <> 0) as Hnz.
  { intros E. apply Z.mod_divide in E; [|lia]. apply Z.gauss in E; [apply Z.divide_pos_le in E; lia|reflexivity]. }
  pose proof (Z.mod_pos_bound (16807 * x) 2147483647 ltac:(lia)) as Hr.
  split; [|split; [lia|split; lia]]. unfold do_rand. fold x. rewrite Z.quot_div_nonneg, Z.rem_mod_nonneg by lia. fold hi lo y. change 0x7fffffff with 2147483647. rewrite <- Em.
  rewrite u64_small, s32_small by lia. done.
Qed.

Lemma do_rand_park_miller_witness : do_rand 1 = ((7 ^ 5 * 2) mod (2 ^ 31 - 1) - 1, (7 ^ 5 * 2) mod (2 ^ 31 - 1) - 1).
Proof. exact (proj1 (do_rand_park_miller 1 ltac:(lia))). Defined.
